(* ===== verification/_CoqProject ===== *)
-Q . S2P
Prelude.v
DList.v
Spinlock.v
Allocator.v
RbTree.v
RbDelete.v
RbOrder.v
Pmm.v
CString.v
CFormat.v
Paging.v
PageSpaces.v
PageRuns.v
UserMem.v
Syscall.v
Vmm.v
VmmSpace.v
VmmOps.v
VmmMap.v
Heap.v
KState.v
Capability.v
Sched.v
VmSpaces.v
VmMachine.v
VmTeardown.v
VmIsolation.v
KernelVm.v
ThreadApi.v
Mmio.v
Shm.v
WaitQueue.v
Semaphore.v
Portal.v
Io.v
KConsole.v
CrashDump.v
Mailbox.v
Irq.v
Elf.v
Process.v
Descriptors.v
Abi.v
NameServer.v
UserLib.v
Terminal.v
Servers.v
Boot.v
UserService.v
PitRamp.v
Demo.v
IpcBench.v
