(* ===== verification/Prelude.v ===== *)
(** * A verification library for the osdev microkernel (src/osdev)

    src/osdev is a small i386 kernel: one processor, a timer-driven
    round-robin scheduler, page directories per process, mailboxes, portals and
    shared memory for interprocess communication, and one system-call gate
    ([int $100]) that ring 3 enters for every service.  Names, the console, the
    clock, the keyboard and the log are servers in ring 3, reached through
    portals with a small user library.  The library models the C files of the
    kernel, the user library and the servers function by function and proves
    what each part promises to the others.

    ** How C is modelled

    A function that changes kernel state is a function of the monad [M] of this
    file: from a state to a value and a new state, to [Spin] (it waits on a
    lock for ever, or loops for ever) or to [Fault] (it reads memory that holds
    no object of the type it expects).  A theorem of the form [f s = Ret r s']
    or [wp f Q s] therefore also says that the function returns.  Integers are
    [Z] with the wrap-around of their width written out ([u8], [u32], [i32],
    [+u]).  A file's statics are a record; a component that contains another's
    statics runs its functions through [Contains] and [zoom].  Objects of the
    kernel heap are finite maps from addresses to records.  An intrusive list
    is the sequence of the addresses on it, which DList.v justifies: there the
    links of list.h are modelled pointer by pointer and shown to implement the
    operations on sequences.  [LOG] calls are left out: they write to the
    terminal only.  Each component sees its own slots of the static lock table.

    ** Files, in the order of the build

    - Prelude: machine integers, error codes, the monad, [wp], [Contains],
      tactics ([zcase], [zprop]), the hint database [kern], shared lemmas.
    - DList: include/lib/list.h over a store of nodes; refinement to sequences.
    - Spinlock: kernel/sync/spinlock.c and the interrupt flag of
      arch/i386/arch_irq.h; the critical-section lemmas every client uses, and
      the interleavings of several agents on one lock as a step relation.
    - Allocator: the class that states what a client may assume of
      [kmalloc]/[kfree]; Heap discharges it, other components are proved
      against it.
    - RbTree, RbDelete, RbOrder: kernel/lib/rbtree.c.  The operations over a
      store of nodes and insertion; deletion; the refinement to a sorted
      sequence, searches and iteration.
    - Pmm: kernel/mm/pmm.c, the frame allocator over the bytes of its bitmap.
    - CString, CFormat: kernel/lib/string.c.  The functions; a reference
      rendering and the bounds and round trips of the formatter.
    - Paging, PageSpaces, PageRuns: arch/i386/paging.c.  Directory and table
      entries, mapping, splitting of 4 MB pages, the processor's walk
      [translate]; whole address spaces; runs of pages with roll-back, as the
      loops of vmm.c build them.
    - UserMem: arch/i386/mem.c, validation of user pointers.
    - Syscall: kernel/syscall.c, the table of calls, the copies to and from
      ring 3, dispatch.
    - Vmm, VmmSpace, VmmOps, VmmMap: kernel/mm/vmm.c.  Every function; the
      invariant of an address space (regions in the tree, ordered and disjoint,
      mapped as recorded) and where regions are placed; the theorems; mapping at
      a fixed address and ranges.
    - Heap: kernel/mm/heap.c, the free-list allocator of the two pools.
    - KState: the records of the headers and the one state of the files above
      the memory managers; the class [AddressSpace] of what they assume of
      vmm.c.
    - Capability: kernel/capability.c.
    - Sched, ThreadApi: the scheduler part of kernel/process.c, the deferred
      switch of arch/i386/task.c, and the wrappers that enter the gate.
    - VmSpaces: the address spaces of the processes side by side, which
      discharges [AddressSpace] from Vmm, and the scheduler over vmm.c.
    - VmMachine, VmTeardown, VmIsolation: any number of address spaces beside
      the directory of the kernel.  The invariant, the creation of a space and
      what is charged to whom; [vmm_destroy]; what any sequence of calls of any
      number of processes keeps apart and gives back.
    - KernelVm: the functions of Vmm in the kernel state, with the answers of
      [cap_check] taken from its capabilities, shared by the next files.
    - Mmio, Shm: kernel/mmio.c, kernel/ipc/shm.c.
    - WaitQueue, Semaphore: kernel/sync/wait_queue.c, semaphore.c.
    - Portal: kernel/ipc/portal.c, request and reply between processes.
    - Io: kernel/io.c, port accesses behind [cap_check].
    - KConsole: arch/i386/klog.c and kterm.c, the serial log and the text
      terminal of the kernel.
    - CrashDump: the exception dump of arch/i386/irq.c.
    - Mailbox: kernel/ipc/mailbox.c.
    - Irq: kernel/irq.c and the 8259A part of arch/i386/irq.c.
    - Elf: kernel/lib/elf.c.
    - Process: creation, deletion and the system call of kernel/process.c.
    - Descriptors: arch/i386/protm.c and the tables of irq.c and task.c, with
      the processor's reading of the entries.
    - Abi: the structures of user/userlib.h beside the kernel's.
    - NameServer: user/server/ns/namespace_server.c.
    - UserLib: user/userlib.c, user/userlib.h, include/user/uspinlock.h.
    - Terminal: user/server/display/terminal_server.c.
    - Servers: the clock, keyboard and log servers and the loop they share.
    - Boot: arch/i386/multiboot.c and kernel/init.c, the modules and the grants
      of the boot processes.
    - UserService: user/server/user_service.c, the port accesses of the servers
      through the system call.
    - PitRamp: user/pit_ramp.c, the first boot process, with the class [Board]
      of what it relies on of the timer and the cycle counter.
    - Demo: user/demo/demo_common.c.  IpcBench: user/ipc_bench.c.

    ** What the theorems show

    - Scheduling: no wake-up is lost, the running thread runs in its own
      address space after every sequence of gates, yields are round robin and
      fair, the timer interrupt never waits.  Over vmm.c itself every gate
      comes to its end, and CR3 then holds the directory of the running thread.
    - Memory: the three allocators hand out what is free, first fit, and take
      it back; their invariants are kept.  The red-black tree refines a sorted
      sequence with logarithmic search.  Mapping a page changes one
      translation; an address space can be built and destroyed without leak; a
      process's regions are what its page tables say; whatever the processes
      create, allocate, free and destroy, none reaches the frames of another,
      and when they are gone the heap and the frames are as before.
    - The gate: a user pointer is accepted exactly when the processor would let
      ring 3 use it; handlers of ring-3 calls see a bounded, cleared copy;
      results go back to the caller only.
    - Authority: [cap_check] decides coverage, grants are added, removed and
      inherited exactly, the process and mailbox calls are guarded.
      Each boot process may do what its job needs, by a policy of devices and
      drivers stated apart from the grants, and no more; the terminal
      server keeps to the ports it is granted whatever its clients send.
    - Communication: mails arrive in order, semaphores count their queues (and
      the one case in which they no longer do is exhibited), blocking receivers
      are woken.  A portal call shares the payload, queues one request and wakes
      the server, or changes nothing; its clean-up undoes it, numbers stay
      distinct, a portal in use is not destroyed; shared memory is mapped and
      unmapped exactly.
    - Ring 3: structures have the same layout on both sides of the gate; a
      portal call of the library always cleans up; the name server implements a
      bounded finite map and the client functions a round trip through it; a
      server answers each request once; the console shows what the language of
      characters and escape sequences prescribes.
    - Errors: thread creation gives everything back on failure, the page of a
      ring-3 stack included, also for the first thread.
    - Strings: formatted output stays in its buffer, numerals read back.
    - The tick: on any board whose clocks run the first boot process ends and
      leaves the timer at a rate that passed its test.
    - The machine: ring 3 can raise one vector only, the system call; the
      exception dump ends, shows the registers, reports exactly the valid part
      of the frame chain, and the [sed] and [grep] of the makefile read it back
      from the whole serial log.

    ** Bounds and fuel

    Loops over lists and trees recurse on the sequence, or take fuel that is
    the size of the store they walk ([find_chunk], [list_for_each]; [fuel_of]
    of a tree is one more than its nodes); a theorem that the loop returns
    includes that this is enough.  Runs of pages take the number of pages
    (at most [2^20]); [arch_validate_user_range] takes [2^20] turns, one per
    page of the address space; the formatter takes one turn per byte of the
    format and one more; the search for a free minor number takes one turn more
    than there are interrupts; the loop of [mailbox_listen] takes its fuel as
    an argument, as do the loops of the servers.  The retry loops of the clients
    and the polls of the devices take the count of the source (10000 attempts,
    20000 turns, 1000000 polls of the UART); printing takes one turn per byte and
    one more.  The loops of PitRamp wait for clocks: its theorem asks for
    [2^38] turns, which the counts of a window and the calibrated second never
    exceed.

    ** Parameters

    The gate in irq.S, the registered handlers (system calls, mails,
    interrupts) and, in Vmm, the answer of [cap_check] are arguments.  The
    addresses the linker fixes (page-table pool, boot directory, bitmap) are
    the class [Layout].  In the files of ring 3 the gate and a whole call of a
    server are the classes [Gate] and [Rpc]; what device ports answer is the
    class [Devices] or a function of the trace.

    ** Not modelled

    Assembly, the order of the initialisation calls (kernel/kernel.c) and TLB
    invalidation are left out; so are the test programs of src/osdev/user, whose
    subject is modelled in the files above, the demo games (they are not built
    and include headers that no longer exist), and the earlier exercises beside
    src/osdev. *)

From stdpp Require Import base tactics list gmap.
From Stdlib Require Import ZArith Lia.

Open Scope Z_scope.

(* ------------------------------------------------------------------ *)
(** ** Machine integers (include/lib/types.h) *)

(** A [u8], [u16] or [u32] value is a [Z] kept in range by writing the
    wrap-around at every operation that can leave it. *)
Definition u8 (x : Z) : Z := x mod 256.
Definition u16 (x : Z) : Z := x mod 65536.
Definition u32 (x : Z) : Z := x mod 4294967296.
Definition i32 (x : Z) : Z :=
  if u32 x <? 2147483648 then u32 x else u32 x - 4294967296.

Definition is_u8 (x : Z) : Prop := 0 <= x < 256.
Definition is_u32 (x : Z) : Prop := 0 <= x < 4294967296.

#[export] Instance is_u8_dec x : Decision (is_u8 x).
Proof. unfold is_u8. apply _. Defined.
#[export] Instance is_u32_dec x : Decision (is_u32 x).
Proof. unfold is_u32. apply _. Defined.

Declare Scope c_scope.
Delimit Scope c_scope with C.
Notation "x +u y" := (u32 (x + y)) (at level 50, left associativity) : c_scope.
Notation "x -u y" := (u32 (x - y)) (at level 50, left associativity) : c_scope.
Notation "x *u y" := (u32 (x * y)) (at level 40, left associativity) : c_scope.
Open Scope c_scope.

(** 4 KB pages, as arch/i386/paging.h counts them. *)
Definition PAGE_SIZE : Z := 4096.
Definition PAGE_MASK : Z := 4294963200.  (* 0xFFFFF000 *)

(* ------------------------------------------------------------------ *)
(** ** Error codes (include/kernel/errno.h) *)

Definition E_NOMEM : Z := -1.
Definition E_INVAL : Z := -2.
Definition E_FAULT : Z := -3.
Definition E_AGAIN : Z := -8.
Definition E_NODEV : Z := -9.
Definition E_BUSY : Z := -20.
Definition E_EXISTS : Z := -21.
Definition E_LIMIT : Z := -24.
Definition E_PERM : Z := -30.
Definition E_IRQ_NOTAVAIL : Z := -50.
Definition E_IRQ_INUSE : Z := -51.
Definition E_THREAD_CREATE : Z := -63.
Definition E_NOTFOUND : Z := -90.
Definition E_INTERNAL : Z := -100.

(* ------------------------------------------------------------------ *)
(** ** The effect of a C function

    A C function that mutates kernel state is a function from a state to an
    outcome: it returns a value in a new state, it spins for ever on a lock
    (or in a loop that never leaves), or it faults by reading memory that
    holds no object of the type it expects. *)
Inductive outcome (S A : Type) : Type :=
  | Ret (a : A) (s : S)
  | Spin
  | Fault.
Arguments Ret {S A} a s.
Arguments Spin {S A}.
Arguments Fault {S A}.

Definition M (S A : Type) : Type := S → outcome S A.

#[export] Instance M_ret S : MRet (M S) := λ A a s, Ret a s.
#[export] Instance M_bind S : MBind (M S) := λ A B k m s,
  match m s with
  | Ret a s' => k a s'
  | Spin => Spin
  | Fault => Fault
  end.

Section monad.
Context {S : Type}.

Definition get : M S S := λ s, Ret s s.
Definition put (s' : S) : M S unit := λ _, Ret tt s'.
Definition gets {A} (f : S → A) : M S A := λ s, Ret (f s) s.
Definition modify (f : S → S) : M S unit := λ s, Ret tt (f s).
Definition fault {A} : M S A := λ _, Fault.
Definition spin {A} : M S A := λ _, Spin.

(** Reading a field of an object: a fault when the object is not there. *)
Definition deref {A} (f : S → option A) : M S A := λ s,
  match f s with Some a => Ret a s | None => Fault end.

Lemma bind_ret {A B} (a : A) (k : A → M S B) s : (mret a ≫= k) s = k a s.
Proof. reflexivity. Qed.

Lemma bind_Ret {A B} (m : M S A) (k : A → M S B) s a s' :
  m s = Ret a s' → (m ≫= k) s = k a s'.
Proof. intros H. unfold mbind, M_bind. by rewrite H. Qed.

Lemma bind_assoc {A B C} (m : M S A) (k : A → M S B) (f : B → M S C) s :
  ((m ≫= k) ≫= f) s = (m ≫= λ a, k a ≫= f) s.
Proof. unfold mbind, M_bind. by destruct (m s). Qed.

Lemma deref_Some {A} (f : S → option A) s a : f s = Some a → deref f s = Ret a s.
Proof. unfold deref. by intros ->. Qed.
End monad.

(** ** Total correctness

    [wp m Q s]: from [s], [m] returns (it neither faults nor spins) with a
    value and a state that satisfy [Q]. *)
Definition wp {S A} (m : M S A) (Q : A → S → Prop) (s : S) : Prop :=
  match m s with Ret a s' => Q a s' | Spin | Fault => False end.

Section wp.
Context {S : Type}.

Lemma wp_ret {A} (a : A) Q (s : S) : Q a s → wp (mret a) Q s.
Proof. done. Qed.

Lemma wp_bind {A B} (m : M S A) (k : A → M S B) Q s :
  wp m (λ a s', wp (k a) Q s') s → wp (m ≫= k) Q s.
Proof. unfold wp, mbind, M_bind. by destruct (m s). Qed.

Lemma wp_mono {A} (m : M S A) (P Q : A → S → Prop) s :
  wp m P s → (∀ a s', P a s' → Q a s') → wp m Q s.
Proof. unfold wp. destruct (m s); naive_solver. Qed.

Lemma wp_deref {A} (f : S → option A) a Q s : f s = Some a → Q a s → wp (deref f) Q s.
Proof. unfold wp, deref. by intros ->. Qed.

Lemma wp_Ret {A} (m : M S A) Q s a s' : m s = Ret a s' → Q a s' → wp m Q s.
Proof. unfold wp. by intros ->. Qed.

Lemma wp_run {A} (m : M S A) Q s : wp m Q s → ∃ a s', m s = Ret a s' ∧ Q a s'.
Proof. unfold wp. destruct (m s) as [a s'| |]; [|done..]. by exists a, s'. Qed.
End wp.

(** ** States within states

    A component's operation runs inside any state that contains the
    component's: the kernel's statics are one memory, of which each file
    sees its part. *)
Class Contains (S A : Type) := {
  part : S → A;
  set_part : A → S → S;
  part_set : ∀ a s, part (set_part a s) = a;
  set_part_set : ∀ a b s, set_part a (set_part b s) = set_part a s;
  set_part_id : ∀ s, set_part (part s) s = s;
}.

Section zoom.
Context {S A : Type} `{!Contains S A}.

Definition zoom {B} (m : M A B) : M S B := λ s,
  match m (part s) with
  | Ret b a => Ret b (set_part a s)
  | Spin => Spin
  | Fault => Fault
  end.

Lemma zoom_Ret {B} (m : M A B) s b a :
  m (part s) = Ret b a → zoom m s = Ret b (set_part a s).
Proof. unfold zoom. by intros ->. Qed.
End zoom.

(* ------------------------------------------------------------------ *)
(** ** Tactics *)

(** Case analysis on the boolean tests the code makes. *)
Ltac zcase :=
  match goal with
  | |- context [?x <? ?y] => destruct (Z.ltb_spec x y)
  | |- context [?x <=? ?y] => destruct (Z.leb_spec x y)
  | |- context [?x =? ?y] => destruct (Z.eqb_spec x y)
  end.

Ltac zcase_in H :=
  match type of H with
  | context [?x <? ?y] => destruct (Z.ltb_spec x y)
  | context [?x <=? ?y] => destruct (Z.leb_spec x y)
  | context [?x =? ?y] => destruct (Z.eqb_spec x y)
  end.

(** Turn the boolean facts of the context into arithmetic. *)
Ltac zprop :=
  repeat match goal with
  | H : (_ && _)%bool = true |- _ => apply andb_true_iff in H as [? ?]
  | H : (_ || _)%bool = false |- _ => apply orb_false_iff in H as [? ?]
  | H : negb _ = true |- _ => apply negb_true_iff in H
  | H : negb _ = false |- _ => apply negb_false_iff in H
  | H : (_ <? _) = true |- _ => apply Z.ltb_lt in H
  | H : (_ <? _) = false |- _ => apply Z.ltb_ge in H
  | H : (_ <=? _) = true |- _ => apply Z.leb_le in H
  | H : (_ <=? _) = false |- _ => apply Z.leb_gt in H
  | H : (_ =? _) = true |- _ => apply Z.eqb_eq in H
  | H : (_ =? _) = false |- _ => apply Z.eqb_neq in H
  end.

Create HintDb kern discriminated.

(* ------------------------------------------------------------------ *)
(** ** Generic lemmas on machine integers *)

Lemma u32_small x : is_u32 x → u32 x = x.
Proof. apply Z.mod_small. Qed.

Lemma u32_range x : is_u32 (u32 x).
Proof. apply Z.mod_pos_bound. lia. Qed.

Lemma i32_small x : -2147483648 <= x <= 2147483647 → i32 x = x.
Proof.
  intros H. unfold i32, u32. destruct (Z.ltb_spec (x mod 4294967296) 2147483648) as [E|E].
  - destruct (Z.leb_spec 0 x); [apply Z.mod_small; lia|].
    rewrite <- (Z.mod_add x 1), Z.mod_small in E by lia. lia.
  - destruct (Z.leb_spec 0 x); [rewrite Z.mod_small in E by lia; lia|].
    rewrite <- (Z.mod_add x 1), Z.mod_small by lia. lia.
Qed.

Lemma u8_small x : is_u8 x → u8 x = x.
Proof. apply Z.mod_small. Qed.

Lemma u8_range x : is_u8 (u8 x).
Proof. apply Z.mod_pos_bound. lia. Qed.

#[export] Hint Resolve u32_range u8_range : kern.

Lemma u32_add_wrap x y :
  is_u32 x → is_u32 y →
  x +u y = if x + y <? 4294967296 then x + y else x + y - 4294967296.
Proof.
  unfold is_u32. intros Hx Hy. unfold u32. zcase.
  - apply Z.mod_small. lia.
  - symmetry. apply Z.mod_unique with 1; lia.
Qed.

(** The C idiom [base + size < base] detects wrap-around exactly. *)
Lemma u32_wraps_iff x y :
  is_u32 x → is_u32 y → (x +u y <? x) = true ↔ 4294967296 <= x + y.
Proof.
  intros Hx Hy. rewrite u32_add_wrap, Z.ltb_lt by done.
  unfold is_u32 in *. zcase; lia.
Qed.

Lemma u32_wraps_eqb x y :
  is_u32 x → is_u32 y → (x +u y <? x) = (4294967296 <=? x + y).
Proof.
  intros Hx Hy. apply eq_bool_prop_intro. rewrite !Is_true_true, u32_wraps_iff, Z.leb_le by done.
  done.
Qed.

(** Clearing the low [k] bits of a 32-bit value rounds it down to a
    multiple of [2^k]; the masks of the code have this form. *)
Lemma land_mask_down x k :
  is_u32 x → 0 <= k <= 32 →
  Z.land x (4294967296 - 2 ^ k) = x / 2 ^ k * 2 ^ k.
Proof.
  intros Hx Hk.
  rewrite <- Z.shiftr_div_pow2, <- Z.shiftl_mul_pow2 by lia.
  replace (4294967296 - 2 ^ k) with (Z.shiftl (Z.ones (32 - k)) k).
  2: { rewrite Z.shiftl_mul_pow2, Z.ones_equiv by lia.
       rewrite Z.mul_pred_l, <- Z.pow_add_r by lia.
       replace (32 - k + k) with 32 by lia. lia. }
  apply Z.bits_inj'. intros n Hn.
  rewrite Z.land_spec.
  destruct (Z.ltb_spec n k).
  - rewrite !Z.shiftl_spec_low by lia. by rewrite andb_false_r.
  - rewrite !Z.shiftl_spec_high, Z.shiftr_spec by lia.
    replace (n - k + k) with n by lia.
    destruct (Z.ltb_spec n 32).
    + rewrite Z.ones_spec_low by lia. apply andb_true_r.
    + rewrite Z.ones_spec_high by lia. rewrite andb_false_r.
      symmetry. apply Z.testbit_false; [lia|].
      rewrite Z.div_small; [done|].
      split; [destruct Hx; lia|].
      apply Z.lt_le_trans with (2 ^ 32); [apply Hx|].
      apply Z.pow_le_mono_r; lia.
Qed.

Lemma land_page_mask x :
  is_u32 x → Z.land x PAGE_MASK = x / 4096 * 4096.
Proof. intros Hx. exact (land_mask_down x 12 Hx ltac:(lia)). Qed.

(* ------------------------------------------------------------------ *)
(** ** Generic lemmas on lists *)

Section lists.
Context {A : Type}.

Lemma filter_all (P : A → Prop) `{!∀ x, Decision (P x)} (l : list A) :
  Forall P l → filter P l = l.
Proof.
  induction 1 as [|x l Hx _ IH]; [done|].
  by rewrite filter_cons_True, IH.
Qed.

(** The first element that satisfies a boolean test: a C loop that walks a
    list and breaks. *)
Lemma find_Some_split (f : A → bool) (l : list A) x :
  List.find f l = Some x →
  ∃ l1 l2, l = l1 ++ x :: l2 ∧ f x = true ∧ Forall (λ y, f y = false) l1.
Proof.
  induction l as [|y l IH]; simpl; [done|].
  destruct (f y) eqn:E; intros H; simplify_eq.
  - by exists [], l.
  - destruct (IH H) as (l1 & l2 & -> & Hx & Hl1).
    exists (y :: l1), l2. repeat split; auto.
Qed.

Lemma find_None_Forall (f : A → bool) (l : list A) :
  List.find f l = None ↔ Forall (λ y, f y = false) l.
Proof.
  induction l as [|y l IH]; simpl; [by split|].
  rewrite Forall_cons. destruct (f y); [split; [done|intros [? _]; done]|].
  rewrite IH. tauto.
Qed.

(** [list_del] on a list without repetitions. *)
Lemma remove_split `{EqDecision A} (l1 l2 : list A) (x : A) :
  NoDup (l1 ++ x :: l2) → filter (.≠ x) (l1 ++ x :: l2) = l1 ++ l2.
Proof.
  intros H. apply NoDup_app in H as (H1 & Hd & H2).
  apply NoDup_cons in H2 as [Hx H2].
  rewrite filter_app, filter_cons_False by (intros ?; done).
  f_equal.
  - apply filter_all, Forall_forall. intros y Hy ->. apply (Hd x Hy). left.
  - apply filter_all, Forall_forall. by intros y Hy ->.
Qed.
End lists.
