(* ===== verification/DList.v ===== *)
(** * Intrusive circular doubly linked lists (include/lib/list.h)

    Every kernel object carries [list_node] fields and every collection is a
    head node, so the lists of the kernel are circular chains of nodes in one
    store.  The operations below are the pointer code; [dlist] says which
    sequence of nodes a head stands for, and the theorems show that
    [list_add], [list_del] and the two iteration macros are insertion,
    removal and traversal of that sequence.  The other files may therefore
    hold a list head as a Rocq list: [list_add(x, head)] is [x :: l] and
    [list_del(x)] is the removal of [x]. *)

From S2P Require Import Prelude.
From stdpp Require Import base tactics list gmap.
From Stdlib Require Import ZArith Lia.

Open Scope Z_scope.

Record list_node := mk_node { prev : Z; next : Z }.

(** The nodes in memory, by address. *)
Abbreviation node_store := (gmap Z list_node).

(** ** The operations *)

Definition list_init (node : Z) (st : node_store) : node_store :=
  <[node := mk_node node node]> st.

(** [p->next = v] and [p->prev = v]; [None] when [p] is no node. *)
Definition set_next (p v : Z) (st : node_store) : option node_store :=
  nd ← st !! p; Some (<[p := mk_node (prev nd) v]> st).
Definition set_prev (p v : Z) (st : node_store) : option node_store :=
  nd ← st !! p; Some (<[p := mk_node v (next nd)]> st).

Definition list_add (new_node head : Z) (st : node_store) : option node_store :=
  if (new_node =? 0) || (head =? 0) then Some st else
  hd ← st !! head;
  let st := <[new_node := mk_node head (next hd)]> st in
  hd ← st !! head;
  st ← set_prev (next hd) new_node st;
  set_next head new_node st.

Definition list_del (node : Z) (st : node_store) : option node_store :=
  if node =? 0 then Some st else
  nd ← st !! node;
  st ← set_next (prev nd) (next nd) st;
  nd ← st !! node;
  st ← set_prev (next nd) (prev nd) st;
  Some (list_init node st).

Definition list_prev (node : Z) (st : node_store) : option Z :=
  if node =? 0 then Some 0 else prev <$> st !! node.
Definition list_next (node : Z) (st : node_store) : option Z :=
  if node =? 0 then Some 0 else next <$> st !! node.

Definition list_empty (head : Z) (st : node_store) : option bool :=
  nd ← st !! head; Some (next nd =? head).

(** [list_for_each(pos, head)]: the nodes visited, in order.  The fuel bounds
    the number of visits; a chain that does not come back to its head within
    it gives [None]. *)
Fixpoint walk (fuel : nat) (pos head : Z) (st : node_store) : option (list Z) :=
  if pos =? head then Some [] else
  match fuel with
  | O => None
  | S fuel =>
      nd ← st !! pos;
      rest ← walk fuel (next nd) head st;
      Some (pos :: rest)
  end.

Definition list_for_each (fuel : nat) (head : Z) (st : node_store) : option (list Z) :=
  nd ← st !! head; walk fuel (next nd) head st.

(** [list_for_each_safe(pos, n, head)] with a loop body that may delete
    [pos]: the successor is read before the body runs. *)
Fixpoint walk_safe (body : Z → node_store → option node_store)
    (fuel : nat) (pos n head : Z) (st : node_store) : option node_store :=
  if pos =? head then Some st else
  match fuel with
  | O => None
  | S fuel =>
      st ← body pos st;
      nd ← st !! n;
      walk_safe body fuel n (next nd) head st
  end.

Definition list_for_each_safe (body : Z → node_store → option node_store)
    (fuel : nat) (head : Z) (st : node_store) : option node_store :=
  hd ← st !! head;
  nd ← st !! next hd;
  walk_safe body fuel (next hd) (next nd) head st.

(** ** The sequence a head stands for *)

Definition nxt (st : node_store) (p : Z) : option Z := next <$> st !! p.
Definition prv (st : node_store) (p : Z) : option Z := prev <$> st !! p.

(** [seg st p l q]: following [next] from [p] passes through exactly [l] and
    then reaches [q], and the [prev] pointers run back along the same path. *)
Fixpoint seg (st : node_store) (p : Z) (l : list Z) (q : Z) : Prop :=
  match l with
  | [] => nxt st p = Some q ∧ prv st q = Some p
  | x :: l => nxt st p = Some x ∧ prv st x = Some p ∧ seg st x l q
  end.

Definition dlist (st : node_store) (head : Z) (l : list Z) : Prop :=
  0 ∉ head :: l ∧ NoDup (head :: l) ∧ seg st head l head.

(** ** Segments *)

Lemma seg_app st p l1 x l2 q :
  seg st p (l1 ++ x :: l2) q ↔ seg st p l1 x ∧ seg st x l2 q.
Proof.
  revert p. induction l1 as [|y l1 IH]; intros p; simpl; [tauto|].
  rewrite IH. tauto.
Qed.

Lemma seg_ext st st' p l q :
  (∀ k, k ∈ p :: l → nxt st' k = nxt st k) →
  (∀ k, k ∈ l ++ [q] → prv st' k = prv st k) →
  seg st p l q → seg st' p l q.
Proof.
  revert p. induction l as [|x l IH]; intros p Hn Hp; simpl.
  - intros [H1 H2]. by rewrite Hn, Hp by set_solver.
  - intros (H1 & H2 & H3). rewrite Hn, Hp by set_solver.
    repeat split; [done..|]. apply IH; [set_solver..|done].
Qed.

(** The node that follows [p] on the way to [q]. *)
Definition first_of (l : list Z) (q : Z) : Z := default q (head l).

Lemma seg_nxt st p l q : seg st p l q → nxt st p = Some (first_of l q).
Proof. destruct l; simpl; naive_solver. Qed.

Lemma seg_prv_first st p l q : seg st p l q → prv st (first_of l q) = Some p.
Proof. destruct l; simpl; naive_solver. Qed.

(** Redirecting the start of a segment: only the link into its first node
    changes. *)
Lemma seg_relink st st' p p' l q :
  seg st p l q → NoDup (l ++ [q]) → p' ∉ l →
  nxt st' p' = Some (first_of l q) → prv st' (first_of l q) = Some p' →
  (∀ k, k ∈ l → nxt st' k = nxt st k) →
  (∀ k, k ∈ tail (l ++ [q]) → prv st' k = prv st k) →
  seg st' p' l q.
Proof.
  intros Hseg Hnd Hp' Hn Hp Hext Hext'. destruct l as [|x l]; simpl in *; [done|].
  destruct Hseg as (_ & _ & Hseg). repeat split; [done..|].
  by apply (seg_ext st).
Qed.

(** The predecessor of a cut in the cycle. *)
Lemma dlist_cut st h l1 l2 :
  dlist st h (l1 ++ l2) →
  ∃ p, last (h :: l1) = Some p ∧ seg st p l2 h ∧
    ((l1 = [] ∧ p = h) ∨ ∃ l1', l1 = l1' ++ [p] ∧ seg st h l1' p).
Proof.
  intros (_ & _ & Hs). destruct l1 as [|p l1' _] using rev_ind.
  - exists h. auto.
  - exists p. rewrite <- app_assoc in Hs. apply seg_app in Hs as [H1 H2].
    split; [|split; [done|right; by exists l1']].
    rewrite app_comm_cons. by rewrite last_snoc.
Qed.

(** ** What the pointer code does to [next] and [prev] *)

Lemma list_add_links st n p y :
  n ≠ 0 → p ≠ 0 → nxt st p = Some y → is_Some (prv st y) → n ≠ p → n ≠ y →
  ∃ st', list_add n p st = Some st' ∧
    (∀ k, nxt st' k = if decide (k = n) then Some y
                      else if decide (k = p) then Some n else nxt st k) ∧
    (∀ k, prv st' k = if decide (k = n) then Some p
                      else if decide (k = y) then Some n else prv st k) ∧
    (∀ k, k ≠ n → k ≠ p → k ≠ y → st' !! k = st !! k).
Proof.
  intros Hn0 Hp0 Hy [z Hz] Hnp Hny. unfold list_add, set_next, set_prev.
  rewrite (proj2 (Z.eqb_neq n 0)), (proj2 (Z.eqb_neq p 0)) by done. simpl.
  unfold nxt, prv in *.
  destruct (st !! p) as [np|] eqn:Ep; simplify_eq/=.
  rewrite lookup_insert_ne, Ep by done. simpl.
  destruct (st !! next np) as [ny|] eqn:Ey; simplify_eq/=.
  rewrite (lookup_insert_ne _ n (next np)), Ey by done. simpl.
  rewrite lookup_insert. case_decide as Hyp; simpl.
  - eexists. split; [done|]. rewrite Hyp, Ep in Ey. simplify_eq.
    split; [|split]; intros k; intros; rewrite !lookup_insert;
      repeat case_decide; simplify_eq/=; try done; by rewrite ?Ep.
  - rewrite lookup_insert_ne, Ep by done. simpl. eexists. split; [done|].
    split; [|split]; intros k; intros; rewrite !lookup_insert;
      repeat case_decide; simplify_eq/=; try done; by rewrite ?Ep, ?Ey.
Qed.

Lemma list_del_links st x a b :
  x ≠ 0 → prv st x = Some a → nxt st x = Some b → x ≠ a → x ≠ b →
  is_Some (nxt st a) → is_Some (prv st b) →
  ∃ st', list_del x st = Some st' ∧
    (∀ k, nxt st' k = if decide (k = x) then Some x
                      else if decide (k = a) then Some b else nxt st k) ∧
    (∀ k, prv st' k = if decide (k = x) then Some x
                      else if decide (k = b) then Some a else prv st k) ∧
    (∀ k, k ≠ x → k ≠ a → k ≠ b → st' !! k = st !! k).
Proof.
  intros Hx0 Ha Hb Hxa Hxb [na Hna] [nb Hnb]. unfold list_del, set_next, set_prev.
  rewrite (proj2 (Z.eqb_neq x 0)) by done. unfold nxt, prv in *.
  destruct (st !! x) as [nx|] eqn:Ex; simplify_eq/=.
  destruct (st !! prev nx) as [pa|] eqn:Ea; simplify_eq/=.
  rewrite lookup_insert_ne, Ex by done. simpl.
  destruct (st !! next nx) as [pb|] eqn:Eb; simplify_eq/=.
  rewrite lookup_insert. case_decide as Hab; simpl.
  - eexists. split; [done|]. unfold list_init. rewrite Hab, Eb in Ea. simplify_eq.
    split; [|split]; intros k; intros; rewrite !lookup_insert;
      repeat case_decide; simplify_eq/=; try done; by rewrite ?Eb.
  - rewrite Eb. simpl. eexists. split; [done|]. unfold list_init.
    split; [|split]; intros k; intros; rewrite !lookup_insert;
      repeat case_decide; simplify_eq/=; try done; by rewrite ?Ea, ?Eb.
Qed.

(** ** The operations implement their sequence counterparts *)

Lemma list_init_dlist st h : h ≠ 0 → dlist (list_init h st) h [].
Proof.
  intros Hh. unfold list_init. repeat split.
  - set_solver.
  - apply NoDup_singleton.
  - unfold nxt. by rewrite lookup_insert_eq.
  - unfold prv. by rewrite lookup_insert_eq.
Qed.

Lemma first_of_elem l q : first_of l q ∈ l ++ [q].
Proof. destruct l; left. Qed.

Lemma first_of_tail l q : NoDup (l ++ [q]) → first_of l q ∉ tail (l ++ [q]).
Proof. destruct l; simpl; [by intros _ ?%elem_of_nil|]. by intros [? _]%NoDup_cons. Qed.

Lemma tail_elem (l : list Z) k : k ∈ tail l → k ∈ l.
Proof. destruct l; [done|]. by right. Qed.

(** Membership facts at a cut of the cycle. *)
Lemma dlist_cut_disjoint st h l1 l2 p :
  dlist st h (l1 ++ l2) → last (h :: l1) = Some p →
  p ∉ l2 ∧ NoDup (l2 ++ [h]) ∧
  (∀ l1', l1 = l1' ++ [p] → p ∉ h :: l1' ∧ first_of l2 h ∉ l1' ++ [p]).
Proof.
  intros (_ & Hnd & _) Hp. apply NoDup_cons in Hnd as [Hh Hnd].
  rewrite elem_of_app in Hh. apply NoDup_app in Hnd as (Hnd1 & Hdis & Hnd2).
  apply last_Some_elem_of, elem_of_cons in Hp.
  split; [intros Hin; destruct Hp as [->|Hp]; [by auto|by apply (Hdis p)]|].
  split.
  { apply NoDup_app. split; [done|]. split; [|apply NoDup_singleton].
    intros x Hx ->%list_elem_of_singleton. auto. }
  intros l1' ->. apply NoDup_app in Hnd1 as (Hnd1 & Hdis1 & _).
  rewrite elem_of_app in Hh. split.
  - intros [->|Hin]%elem_of_cons; [apply Hh; left; right; left|].
    by apply (Hdis1 p Hin); left.
  - destruct l2 as [|y l2]; simpl; intros Hin.
    + apply Hh. left. by apply elem_of_app in Hin.
    + apply (Hdis y Hin). left.
Qed.

Lemma list_add_dlist st h l1 l2 p n :
  dlist st h (l1 ++ l2) → last (h :: l1) = Some p →
  n ≠ 0 → n ∉ h :: l1 ++ l2 →
  ∃ st', list_add n p st = Some st' ∧ dlist st' h (l1 ++ n :: l2) ∧
    (∀ k, k ∉ n :: h :: l1 ++ l2 → st' !! k = st !! k).
Proof.
  intros Hd Hp Hn0 Hn. pose proof Hd as (H0 & Hnd & _).
  destruct (dlist_cut_disjoint _ _ _ _ _ Hd Hp) as (Hpl2 & Hnd2 & Hl1').
  destruct (dlist_cut _ _ _ _ Hd) as (p' & Hp' & Hseg & Hpre). simplify_eq.
  assert (p ∈ h :: l1) as Hpin by (by apply last_Some_elem_of in Hp).
  pose proof (first_of_elem l2 h) as Hyin. pose proof (first_of_tail _ _ Hnd2) as Hyt.
  pose proof (seg_nxt _ _ _ _ Hseg) as Hpy. pose proof (seg_prv_first _ _ _ _ Hseg) as Hyp.
  remember (first_of l2 h) as y eqn:Ey. clear Hd Hp.
  assert (n ≠ y) as Hny by (clear -Hn Hyin; set_solver).
  assert (n ≠ p) as Hnp by (clear -Hn Hpin; set_solver).
  destruct (list_add_links st n p y) as (st' & Hst & Hnx & Hpv & Hfr);
    [done|clear -H0 Hpin; set_solver|done|by exists p|done..|].
  exists st'. split; [done|].
  split; [|intros k Hk; apply Hfr; clear -Hk Hpin Hyin; set_solver].
  assert (seg st' p (n :: l2) h) as Hseg'.
  { simpl. rewrite Hnx, Hpv.
    rewrite (decide_False (P := p = n)) by done. rewrite !decide_True by done.
    repeat split; [done..|]. eapply seg_relink; [exact Hseg|done|..].
    - clear -Hn; set_solver.
    - by rewrite Hnx, decide_True, Ey.
    - by rewrite Hpv, <- Ey, decide_False, decide_True.
    - intros k Hk. rewrite Hnx, !decide_False; [done|..]; clear -Hk Hpl2 Hn; set_solver.
    - intros k Hk. rewrite Hpv, !decide_False; [done|..];
        [congruence|apply tail_elem in Hk; clear -Hk Hn; set_solver]. }
  split; [clear -H0 Hn0; set_solver|]. split.
  { clear -Hnd Hn. change (NoDup ((h :: l1) ++ n :: l2)).
    rewrite <- Permutation_middle. apply NoDup_cons. by split. }
  destruct Hpre as [[-> ->]|(l1' & -> & Hl1)]; [done|].
  destruct (Hl1' _ eq_refl) as [Hpl1 Hyl1].
  rewrite <- app_assoc. simpl. apply seg_app. split; [|done].
  apply (seg_ext st); [| |done]; intros k Hk.
  - rewrite Hnx, !decide_False; [done|..]; clear -Hk Hpl1 Hn; set_solver.
  - rewrite Hpv, !decide_False; [done|..]; clear -Hk Hyl1 Hn; set_solver.
Qed.

(** The neighbours of a node in the cycle. *)
Lemma dlist_around st h l1 x l2 :
  dlist st h (l1 ++ x :: l2) →
  ∃ a, a ∈ h :: l1 ∧ prv st x = Some a ∧ nxt st a = Some x ∧ seg st x l2 h ∧
    x ∉ h :: l1 ∧ x ∉ l2 ++ [h] ∧ a ∉ x :: l2 ∧ NoDup (l2 ++ [h]) ∧
    ((l1 = [] ∧ a = h) ∨
     ∃ l1', l1 = l1' ++ [a] ∧ seg st h l1' a ∧ a ∉ h :: l1' ∧
            first_of l2 h ∉ l1' ++ [a]).
Proof.
  intros Hd. pose proof Hd as (_ & Hnd & _).
  assert (dlist st h ((l1 ++ [x]) ++ l2)) as Hd' by (by rewrite <- app_assoc).
  destruct (dlist_cut _ _ _ _ Hd') as (x' & Hx' & Hseg & _).
  rewrite app_comm_cons, last_snoc in Hx'. injection Hx' as <-.
  destruct (dlist_cut_disjoint _ _ _ _ x Hd') as (_ & _ & Hx1);
    [by rewrite app_comm_cons, last_snoc|].
  destruct (Hx1 _ eq_refl) as [Hxl1 Hbl1].
  destruct (dlist_cut _ _ _ _ Hd) as (a & Ha & Hseg0 & Hpre).
  destruct (dlist_cut_disjoint _ _ _ _ _ Hd Ha) as (Hal & Hndl & Hl1').
  simpl in Hseg0. destruct Hseg0 as (Hax & Hxa & _).
  apply NoDup_cons in Hndl as [Hxl Hndl]. apply last_Some_elem_of in Ha.
  exists a. repeat split; try done.
  destruct Hpre as [?|(l1' & -> & Hl1)]; [by left|right].
  destruct (Hl1' _ eq_refl) as [Hpl1 _]. exists l1'. repeat split; try done.
  intros Hin. apply Hbl1. apply elem_of_app. by left.
Qed.

Lemma list_del_dlist st h l1 x l2 :
  dlist st h (l1 ++ x :: l2) →
  ∃ st', list_del x st = Some st' ∧ dlist st' h (l1 ++ l2) ∧
    st' !! x = Some (mk_node x x) ∧
    (∀ k, k ∉ h :: l1 ++ x :: l2 → st' !! k = st !! k).
Proof.
  intros Hd. pose proof Hd as (H0 & Hnd & _).
  destruct (dlist_around _ _ _ _ _ Hd)
    as (a & Hain & Hxa & Hax & Hseg & Hxl1 & Hxl & Hal & Hndl & Hpre).
  pose proof (first_of_elem l2 h) as Hbin. pose proof (first_of_tail _ _ Hndl) as Hbt.
  pose proof (seg_nxt _ _ _ _ Hseg) as Hxb. pose proof (seg_prv_first _ _ _ _ Hseg) as Hbx.
  remember (first_of l2 h) as b eqn:Eb. clear Hd.
  destruct (list_del_links st x a b) as (st' & Hst & Hnx & Hpv & Hfr);
    [clear -H0; set_solver|done|done|clear -Hal; set_solver|
     clear -Hxl Hbin; set_solver|by exists x|by exists x|].
  exists st'. split; [done|]. split; [|split].
  - assert (seg st' a l2 h) as Hseg'.
    { eapply seg_relink; [exact Hseg|done|clear -Hal; set_solver|..].
      - rewrite Hnx, <- Eb, decide_False, decide_True; [done..|]. clear -Hxl1 Hain; set_solver.
      - rewrite Hpv, <- Eb, decide_False, decide_True; [done..|]. clear -Hxl Hbin; set_solver.
      - intros k Hk. rewrite Hnx, !decide_False; [done|..]; clear -Hk Hal Hxl; set_solver.
      - intros k Hk. rewrite Hpv, !decide_False; [done|congruence|].
        apply tail_elem in Hk. clear -Hk Hxl; set_solver. }
    split; [clear -H0; set_solver|]. split.
    { clear -Hnd. rewrite app_comm_cons in Hnd |- *.
      rewrite <- Permutation_middle in Hnd. by apply NoDup_cons in Hnd as [_ ?]. }
    destruct Hpre as [[-> ->]|(l1' & -> & Hl1 & Hpl1 & Hbl1)]; [done|].
    rewrite <- app_assoc. simpl. apply seg_app. split; [|done].
    apply (seg_ext st); [| |done]; intros k Hk.
    + rewrite Hnx, !decide_False; [done|..]; clear -Hk Hpl1 Hxl1; set_solver.
    + rewrite Hpv, !decide_False; [done|..]; clear -Hk Hbl1 Hxl1; set_solver.
  - specialize (Hnx x). specialize (Hpv x). rewrite decide_True in Hnx, Hpv by done.
    unfold nxt, prv in *. destruct (st' !! x) as [[? ?]|]; simplify_eq/=; done.
  - intros k Hk. apply Hfr; clear -Hk Hain Hbin; set_solver.
Qed.

Lemma dlist_empty st h l : dlist st h l → list_empty h st = Some (bool_decide (l = [])).
Proof.
  intros (_ & Hnd & Hs). apply seg_nxt in Hs. unfold nxt, list_empty in *.
  destruct (st !! h) as [nd|]; simplify_eq/=. f_equal. rewrite Hs.
  unfold first_of. destruct l as [|x l]; simpl; [apply Z.eqb_refl|].
  apply Z.eqb_neq. intros ->. apply NoDup_cons in Hnd as [Hh _]. apply Hh. left.
Qed.

(** ** Iteration *)

Lemma walk_seg st fuel p l q :
  seg st p l q → q ∉ l → (length l <= fuel)%nat →
  walk fuel (first_of l q) q st = Some l.
Proof.
  revert p fuel. induction l as [|x l IH]; intros p fuel Hs Hq Hf.
  - unfold first_of; simpl. destruct fuel; simpl; by rewrite Z.eqb_refl.
  - destruct fuel as [|fuel]; simpl in Hf; [lia|]. destruct Hs as (_ & _ & Hs).
    unfold first_of; simpl. rewrite (proj2 (Z.eqb_neq x q)) by set_solver.
    apply not_elem_of_cons in Hq as [_ Hq].
    pose proof (seg_nxt _ _ _ _ Hs) as Hn. unfold nxt in Hn.
    destruct (st !! x) as [nd|]; simplify_eq/=. rewrite Hn.
    by rewrite (IH x fuel Hs Hq) by lia.
Qed.


Lemma list_for_each_dlist st h l fuel :
  dlist st h l → (length l <= fuel)%nat → list_for_each fuel h st = Some l.
Proof.
  intros (_ & [Hh _]%NoDup_cons & Hs) Hf. unfold list_for_each.
  pose proof (seg_nxt _ _ _ _ Hs) as Hn. unfold nxt in Hn.
  destruct (st !! h) as [nd|]; simplify_eq/=. rewrite Hn.
  by apply (walk_seg _ _ h).
Qed.

(** The body of a loop that deletes the nodes failing a test. *)
Definition delete_unless (keep : Z → bool) (pos : Z) (st : node_store) : option node_store :=
  if keep pos then Some st else list_del pos st.

Lemma delete_unless_dlist keep st h l1 x l2 :
  dlist st h (l1 ++ x :: l2) →
  ∃ st', delete_unless keep x st = Some st' ∧
    dlist st' h ((if keep x then l1 ++ [x] else l1) ++ l2).
Proof.
  intros Hd. unfold delete_unless. destruct (keep x).
  - exists st. by rewrite <- app_assoc.
  - destruct (list_del_dlist _ _ _ _ _ Hd) as (st' & H1 & H2 & _). by exists st'.
Qed.

Lemma walk_safe_dlist keep st h l1 l2 fuel :
  dlist st h (l1 ++ l2) → (length l2 <= fuel)%nat →
  ∃ st', walk_safe (delete_unless keep) fuel (first_of l2 h)
           (first_of (tail (l2 ++ [h])) (default h (nxt st h))) h st = Some st' ∧
    dlist st' h (l1 ++ List.filter keep l2).
Proof.
  revert st l1 fuel. induction l2 as [|x l2 IH]; intros st l1 fuel Hd Hf.
  - exists st. split; [|done]. destruct fuel; simpl; by rewrite Z.eqb_refl.
  - destruct fuel as [|fuel]; simpl in Hf; [lia|].
    assert (x ≠ h) as Hxh.
    { destruct Hd as (_ & [Hh _]%NoDup_cons & _). clear -Hh. set_solver. }
    destruct (delete_unless_dlist keep _ _ _ _ _ Hd) as (st1 & Hb & Hd1).
    destruct (IH st1 _ fuel Hd1 ltac:(lia)) as (st2 & Hw & Hd2).
    exists st2. change (first_of (x :: l2) h) with x. cbn [walk_safe].
    rewrite (proj2 (Z.eqb_neq x h)), Hb by done. cbn -[walk_safe]. split.
    + destruct l2 as [|y l2]; unfold first_of in *; simpl in *.
      * destruct (nxt st1 h) as [z|] eqn:Ez; unfold nxt in Ez.
        -- destruct (st1 !! h) as [nd|]; simplify_eq/=. done.
        -- destruct Hd1 as (_ & _ & Hs). apply seg_nxt in Hs. unfold nxt in Hs. congruence.
      * destruct Hd1 as (_ & _ & Hs).
        apply seg_app in Hs as [_ Hs]. apply seg_nxt in Hs. unfold nxt in Hs.
        destruct (st1 !! y) as [nd|]; simplify_eq/=. rewrite Hs.
        destruct l2; done.
    + destruct (keep x); [|done]. by rewrite <- app_assoc in Hd2.
Qed.

Lemma list_for_each_safe_dlist keep st h l fuel :
  dlist st h l → (length l <= fuel)%nat →
  ∃ st', list_for_each_safe (delete_unless keep) fuel h st = Some st' ∧
    dlist st' h (List.filter keep l).
Proof.
  intros Hd Hf. destruct (walk_safe_dlist keep st h [] l fuel Hd Hf) as (st' & Hw & Hd').
  exists st'. split; [|done]. unfold list_for_each_safe.
  pose proof Hd as (_ & _ & Hs). pose proof (seg_nxt _ _ _ _ Hs) as Hn.
  rewrite Hn in Hw. unfold nxt in Hn.
  destruct (st !! h) as [nd|]; simplify_eq/=. rewrite Hn.
  destruct l as [|x l]; unfold first_of in *; simpl in *.
  - destruct Hs as [Hs _]. unfold nxt in Hs. destruct (st !! h); simplify_eq/=.
    rewrite Hs. done.
  - destruct Hs as (_ & _ & Hs). apply seg_nxt in Hs. unfold nxt in Hs.
    destruct (st !! x) as [ndx|]; simplify_eq/=. rewrite Hs. by destruct l.
Qed.

(** ** Frames and bounds *)

(** Only the nodes of a list matter to it. *)
Lemma dlist_ext st st' h l :
  (∀ k, k ∈ h :: l → st' !! k = st !! k) → dlist st h l → dlist st' h l.
Proof.
  intros He (H0 & Hnd & Hs). split_and!; [done..|].
  apply (seg_ext st); [..|done]; intros k Hk; unfold nxt, prv; rewrite He; [done| |done|].
  - done.
  - clear -Hk. set_solver.
Qed.

Lemma seg_in_store st p l q k : seg st p l q → k ∈ l → is_Some (st !! k).
Proof.
  revert p. induction l as [|x l IH]; intros p; simpl; [by rewrite elem_of_nil|].
  intros (_ & Hp & Hs) [->|Hk]%elem_of_cons; [|by eapply IH].
  unfold prv in Hp. destruct (st !! x); [done|discriminate].
Qed.

(** The store is a bound on the length of a walk. *)
Lemma dlist_length st h l : dlist st h l → (length l <= size st)%nat.
Proof.
  intros (_ & [_ Hnd]%NoDup_cons & Hs).
  rewrite <- (size_list_to_set (C := gset Z) l), <- (size_dom (D := gset Z) st) by done.
  apply subseteq_size. intros k Hk%elem_of_list_to_set. apply elem_of_dom.
  by eapply seg_in_store.
Qed.

(** The successor and the predecessor of a node in the middle. *)
Lemma dlist_next st h l1 x l2 :
  dlist st h (l1 ++ x :: l2) → nxt st x = Some (first_of l2 h).
Proof.
  intros (_ & _ & Hs). apply seg_app in Hs as [_ Hs]. by eapply seg_nxt.
Qed.

Lemma dlist_prev st h l1 x l2 :
  dlist st h (l1 ++ x :: l2) → prv st x = Some (default h (last l1)).
Proof.
  intros Hd. destruct (dlist_around _ _ _ _ _ Hd) as (a & _ & Hp & _ & _ & _ & _ & _ & _ & Hl).
  rewrite Hp. destruct Hl as [[-> ->]|(l1' & -> & _)]; [done|]. by rewrite last_snoc.
Qed.

Lemma dlist_first st h l : dlist st h l → nxt st h = Some (first_of l h).
Proof. intros (_ & _ & Hs). by eapply seg_nxt. Qed.

(** ** Properties *)

(** A store that holds the head 100 and the nodes 1, 2, 3. *)
Definition demo_store : node_store :=
  <[100 := mk_node 3 1]> (<[1 := mk_node 100 2]> (<[2 := mk_node 1 3]>
    (<[3 := mk_node 2 100]> ∅))).

Lemma demo_dlist : dlist demo_store 100 [1; 2; 3].
Proof. split_and!; [set_solver|apply (bool_decide_unpack _); vm_compute; exact I|by repeat split]. Qed.

(** C28: the pointer code of list.h implements sequences.  On a head that
    stands for [l]: adding a node puts it in front; deleting a node of the
    list removes exactly that node and leaves it linked to itself; neither
    touches a node outside the list; the emptiness test and the iteration
    macro read [l]. *)
Theorem list_ops_refine_sequence st h l :
  dlist st h l →
  (∀ n, n ≠ 0 → n ∉ h :: l →
     ∃ st', list_add n h st = Some st' ∧ dlist st' h (n :: l) ∧
       ∀ k, k ∉ n :: h :: l → st' !! k = st !! k) ∧
  (∀ l1 x l2, l = l1 ++ x :: l2 →
     ∃ st', list_del x st = Some st' ∧ dlist st' h (l1 ++ l2) ∧
       st' !! x = Some (mk_node x x) ∧ ∀ k, k ∉ h :: l → st' !! k = st !! k) ∧
  list_empty h st = Some (bool_decide (l = [])) ∧
  list_for_each (size st) h st = Some l.
Proof.
  intros Hd. split_and!.
  - intros n Hn0 Hn. by apply (list_add_dlist st h [] l h n).
  - intros l1 x l2 ->. by apply list_del_dlist.
  - by apply dlist_empty.
  - apply list_for_each_dlist; [done|]. by eapply dlist_length.
Qed.

Lemma list_ops_refine_sequence_witness :
  dlist demo_store 100 [1; 2; 3] ∧
  ∃ st', list_del 2 demo_store = Some st' ∧ dlist st' 100 [1; 3].
Proof.
  split; [exact demo_dlist|].
  destruct (list_ops_refine_sequence demo_store 100 [1; 2; 3] demo_dlist) as (_ & Hdel & _).
  destruct (Hdel [1] 2 [3] eq_refl) as (st' & H & Hd & _). exists st'. split; [exact H|exact Hd].
Defined.

(** [list_for_each_safe] visits every node although its body deletes the
    current one: a loop that deletes the nodes failing a test ends with
    exactly the nodes that pass it, in order, within as many iterations as
    there are nodes. *)
Theorem list_for_each_safe_filters keep st h l :
  dlist st h l →
  ∃ st', list_for_each_safe (delete_unless keep) (length l) h st = Some st' ∧
    dlist st' h (List.filter keep l).
Proof. intros Hd. by apply list_for_each_safe_dlist. Qed.

Lemma list_for_each_safe_filters_witness :
  ∃ st', list_for_each_safe (delete_unless Z.odd) 3 100 demo_store = Some st' ∧
    dlist st' 100 [1; 3].
Proof. exact (list_for_each_safe_filters Z.odd demo_store 100 [1; 2; 3] demo_dlist). Defined.
