(* ===== verification/Spinlock.v ===== *)
(** * Spinlocks (kernel/sync/spinlock.c, the IRQ-flag helpers of
      arch/i386/arch_irq.h)

    The kernel owns one static table of 1024 locks; [spinlock_alloc] hands out
    the first invalid entry and [spinlock_release] invalidates it.  A lock
    pointer is an index into the table, [None] the null pointer.  The last two
    sections put the operations in a concurrent setting: several agents that
    race for one lock, and one CPU on which an interrupt handler takes the
    lock the interrupted code uses. *)

From S2P Require Import Prelude.
From stdpp Require Import base tactics list relations.
From Stdlib Require Import ZArith Lia.

Open Scope Z_scope.

Inductive lock_state := LOCK_INVALID | LOCK_UNLOCKED | LOCK_LOCKED.

#[export] Instance lock_state_eq_dec : EqDecision lock_state.
Proof. solve_decision. Defined.

Definition SPIN_LOCK_MAX_COUNT : nat := 1024.

(** [static spinlock spinlocks[SPIN_LOCK_MAX_COUNT] = {0}]. *)
Abbreviation lock_table := (list lock_state).
Definition spinlocks_boot : lock_table := replicate SPIN_LOCK_MAX_COUNT LOCK_INVALID.

(** ** Allocation *)

(** The scan of [spinlock_alloc] from index [i]. *)
Fixpoint spinlock_scan (i : nat) (tab : lock_table) : option nat :=
  match tab with
  | [] => None
  | s :: tab => if decide (s = LOCK_INVALID) then Some i else spinlock_scan (S i) tab
  end.

Definition spinlock_alloc : M lock_table (option nat) := λ tab,
  match spinlock_scan 0 tab with
  | Some i => Ret (Some i) (<[i := LOCK_UNLOCKED]> tab)
  | None => Ret None tab
  end.

Definition spinlock_release (lock : option nat) : M lock_table unit := λ tab,
  match lock with
  | None => Ret tt tab
  | Some i => Ret tt (<[i := LOCK_INVALID]> tab)
  end.

(** ** Locking *)

(** [__atomic_exchange_n(&lock->state, v)]. *)
Definition atomic_exchange (i : nat) (v : lock_state) : M lock_table lock_state := λ tab,
  match tab !! i with
  | Some old => Ret old (<[i := v]> tab)
  | None => Fault
  end.

(** One CPU, nobody else to release the lock: an exchange that returns
    [LOCK_LOCKED] is repeated for ever. *)
Definition spinlock_lock (lock : option nat) : M lock_table Z :=
  match lock with
  | None => mret E_INVAL
  | Some i =>
      old ← atomic_exchange i LOCK_LOCKED;
      if decide (old = LOCK_LOCKED) then spin else mret 0
  end.

(** [!__atomic_compare_exchange_n(&lock->state, &(LOCK_UNLOCKED), LOCK_LOCKED)]. *)
Definition spinlock_trylock (lock : option nat) : M lock_table Z :=
  match lock with
  | None => mret E_INVAL
  | Some i => λ tab,
      match tab !! i with
      | Some LOCK_UNLOCKED => Ret 0 (<[i := LOCK_LOCKED]> tab)
      | Some _ => Ret 1 tab
      | None => Fault
      end
  end.

Definition spinlock_unlock (lock : option nat) : M lock_table Z :=
  match lock with
  | None => mret E_INVAL
  | Some i => λ tab,
      match tab !! i with
      | Some _ => Ret 0 (<[i := LOCK_UNLOCKED]> tab)
      | None => Fault
      end
  end.

(** ** The interrupt flag *)

(** EFLAGS and the current privilege level; bit 9 of EFLAGS is IF. *)
Record cpu := mk_cpu { eflags : Z; ring3 : bool }.
Definition EFLAGS_IF : Z := 9.

Definition interrupts_on (c : cpu) : bool := Z.testbit (eflags c) EFLAGS_IF.

(** [arch_irq_save]: read EFLAGS; [cli] unless at CPL3. *)
Definition arch_irq_save (c : cpu) : Z * cpu :=
  (eflags c, if ring3 c then c else mk_cpu (Z.clearbit (eflags c) EFLAGS_IF) false).

(** [arch_irq_restore]: POPF.  At CPL3 with IOPL 0 it leaves IF alone. *)
Definition arch_irq_restore (saved : Z) (c : cpu) : cpu :=
  mk_cpu (if ring3 c
          then (if interrupts_on c then Z.setbit saved EFLAGS_IF
                else Z.clearbit saved EFLAGS_IF)
          else saved) (ring3 c).

Definition spinlock_lock_irqsave (lock : option nat) : M (cpu * lock_table) Z := λ s,
  let '(saved, c) := arch_irq_save s.1 in
  match spinlock_lock lock s.2 with
  | Ret _ tab => Ret saved (c, tab)
  | Spin => Spin
  | Fault => Fault
  end.

Definition spinlock_unlock_irqrestore (lock : option nat) (saved : Z)
    : M (cpu * lock_table) unit := λ s,
  match spinlock_unlock lock s.2 with
  | Ret _ tab => Ret tt (arch_irq_restore saved s.1, tab)
  | Spin => Spin
  | Fault => Fault
  end.

#[global] Arguments spinlock_lock : simpl never.

(** ** Lemmas: allocation *)

Lemma spinlock_scan_Some i tab j :
  spinlock_scan i tab = Some j →
  ∃ k, j = (i + k)%nat ∧ tab !! k = Some LOCK_INVALID ∧
    ∀ k', (k' < k)%nat → tab !! k' ≠ Some LOCK_INVALID.
Proof.
  revert i. induction tab as [|s tab IH]; intros i; simpl; [done|].
  case_decide as Hs; intros H; simplify_eq.
  - exists 0%nat. split; [lia|]. split; [done|]. intros k' Hk'. lia.
  - destruct (IH _ H) as (k & -> & Hk & Hmin). exists (S k).
    split; [lia|]. split; [done|]. intros [|k'] Hk'; simpl; [congruence|].
    apply Hmin. lia.
Qed.

Lemma spinlock_scan_None i tab :
  spinlock_scan i tab = None → Forall (.≠ LOCK_INVALID) tab.
Proof.
  revert i. induction tab as [|s tab IH]; intros i; simpl; [done|].
  case_decide; [done|]. intros H'%IH. by constructor.
Qed.

(** ** Lemmas: one agent *)

Lemma spinlock_lock_free tab i s :
  tab !! i = Some s → s ≠ LOCK_LOCKED →
  spinlock_lock (Some i) tab = Ret 0 (<[i := LOCK_LOCKED]> tab).
Proof.
  intros Hi Hs. unfold spinlock_lock, atomic_exchange, mbind, M_bind.
  rewrite Hi. by rewrite decide_False.
Qed.

Lemma spinlock_lock_held tab i :
  tab !! i = Some LOCK_LOCKED → spinlock_lock (Some i) tab = Spin.
Proof.
  intros Hi. unfold spinlock_lock, atomic_exchange, mbind, M_bind.
  rewrite Hi. by rewrite decide_True.
Qed.

Lemma spinlock_unlock_eq tab i :
  (i < length tab)%nat →
  spinlock_unlock (Some i) tab = Ret 0 (<[i := LOCK_UNLOCKED]> tab).
Proof. intros [s Hs]%lookup_lt_is_Some. simpl. by rewrite Hs. Qed.

(** A critical section entered on an unlocked lock leaves the table as it
    found it. *)
Lemma lock_unlock_id tab i :
  tab !! i = Some LOCK_UNLOCKED →
  (spinlock_lock (Some i) ;; spinlock_unlock (Some i)) tab = Ret 0 tab.
Proof.
  intros Hi. pose proof (lookup_lt_Some _ _ _ Hi).
  rewrite (bind_Ret _ _ _ _ _ (spinlock_lock_free _ _ _ Hi ltac:(done))).
  rewrite spinlock_unlock_eq by (by rewrite length_insert).
  by rewrite list_insert_insert_eq, list_insert_id.
Qed.

(** ** The bracket of a critical section

    A body that runs between [spinlock_lock] and [spinlock_unlock] on a free
    lock sees the lock held; afterwards the lock table is as it was. *)
Section bracket.
Context {S : Type} `{!Contains S lock_table}.

Lemma with_lock {A} i (s : S) (m : M S A) a s1 :
  part s !! i = Some LOCK_UNLOCKED →
  m (set_part (<[i := LOCK_LOCKED]> (part s)) s) = Ret a s1 →
  part s1 = <[i := LOCK_LOCKED]> (part s) →
  (zoom (spinlock_lock (Some i));; a ← m; zoom (spinlock_unlock (Some i));; mret a) s
  = Ret a (set_part (part s) s1).
Proof.
  intros Hl Hm Hs1. pose proof (lookup_lt_Some _ _ _ Hl).
  rewrite (bind_Ret _ _ _ _ _
    (zoom_Ret _ _ _ _ (spinlock_lock_free _ _ _ Hl ltac:(done)))).
  rewrite (bind_Ret _ _ _ _ _ Hm).
  erewrite bind_Ret; [|apply zoom_Ret; rewrite Hs1; apply spinlock_unlock_eq;
                       by rewrite length_insert].
  by rewrite list_insert_insert_eq, list_insert_id.
Qed.

(** The same for a body without an answer. *)
Lemma with_lock_tt i (s : S) (m : M S unit) s1 :
  part s !! i = Some LOCK_UNLOCKED →
  m (set_part (<[i := LOCK_LOCKED]> (part s)) s) = Ret tt s1 →
  part s1 = <[i := LOCK_LOCKED]> (part s) →
  (zoom (spinlock_lock (Some i));; m;; zoom (spinlock_unlock (Some i));; mret tt) s
  = Ret tt (set_part (part s) s1).
Proof.
  intros Hl Hm Hs1. pose proof (with_lock i s m tt s1 Hl Hm Hs1) as E. rewrite <- E.
  rewrite !(bind_Ret _ _ _ _ _
    (zoom_Ret _ _ _ _ (spinlock_lock_free _ _ _ Hl ltac:(done)))).
  by rewrite !(bind_Ret _ _ _ _ _ Hm).
Qed.
End bracket.

(** A state with the CPU's flags and the lock table has the lock table. *)
Lemma pair_eta {A B} (p : A * B) : (p.1, p.2) = p.
Proof. by destruct p. Qed.

#[export] Instance irq_locks {S} `{!Contains S (cpu * lock_table)} :
  Contains S lock_table | 10.
Proof.
  refine {| part := λ s : S, (part s : cpu * lock_table).2;
            set_part := λ t s, set_part ((part s : cpu * lock_table).1, t) s |}.
  - intros a s. by rewrite part_set.
  - intros a b s. by rewrite part_set, set_part_set.
  - intros s. by rewrite pair_eta, set_part_id.
Defined.

(** Saving and restoring EFLAGS around a section gives the flags back. *)
Lemma irq_save_restore c :
  arch_irq_restore (arch_irq_save c).1 (arch_irq_save c).2 = c.
Proof.
  unfold arch_irq_restore, arch_irq_save. destruct c as [f [|]]; [|done].
  unfold interrupts_on. cbn [ring3 eflags fst snd]. f_equal.
  apply Z.bits_inj. intros k. destruct (Z.testbit f EFLAGS_IF) eqn:E.
  - destruct (decide (k = EFLAGS_IF)) as [->|]; [by rewrite Z.setbit_eq|].
    by rewrite Z.setbit_neq by (done || congruence).
  - destruct (decide (k = EFLAGS_IF)) as [->|]; [by rewrite Z.clearbit_eq|].
    by rewrite Z.clearbit_neq by congruence.
Qed.

Section irq_bracket.
Context {S : Type} `{!Contains S (cpu * lock_table)}.

(** The state inside an irqsave section on lock [i]. *)
Definition irq_locked (i : nat) (m : cpu * lock_table) : cpu * lock_table :=
  ((arch_irq_save m.1).2, <[i := LOCK_LOCKED]> m.2).

Lemma lock_irqsave_free i (s : S) :
  (part s).2 !! i = Some LOCK_UNLOCKED →
  zoom (spinlock_lock_irqsave (Some i)) s
  = Ret (eflags (part s).1) (set_part (irq_locked i (part s)) s).
Proof.
  intros Hl. apply zoom_Ret. unfold spinlock_lock_irqsave.
  by rewrite (spinlock_lock_free _ _ _ Hl ltac:(done)).
Qed.

Lemma unlock_irqrestore_held i (s0 s1 : S) :
  (part s0).2 !! i = Some LOCK_UNLOCKED → part s1 = irq_locked i (part s0) →
  zoom (spinlock_unlock_irqrestore (Some i) (eflags (part s0).1)) s1
  = Ret tt (set_part (part s0) s1).
Proof.
  intros Hl Hs1. apply zoom_Ret. rewrite Hs1. unfold spinlock_unlock_irqrestore, irq_locked.
  pose proof (lookup_lt_Some _ _ _ Hl).
  cbn [fst snd]. rewrite spinlock_unlock_eq by (by rewrite length_insert).
  rewrite list_insert_insert_eq, list_insert_id by done.
  pose proof (irq_save_restore (part s0).1) as E. cbn [arch_irq_save fst] in E.
  by rewrite E, pair_eta.
Qed.
End irq_bracket.

(** ** Several agents racing for one lock *)

Inductive phase := Idle | Waiting | Holding.

Section race.
Context (l : nat).

(** One atomic access to the lock at a time, in any order.  A [Waiting] agent
    is inside the loop of [spinlock_lock]; only a holder unlocks. *)
Inductive race_step : lock_table * list phase → lock_table * list phase → Prop :=
  | race_call tab ph i :
      ph !! i = Some Idle → race_step (tab, ph) (tab, <[i := Waiting]> ph)
  | race_exchange tab ph i old tab' :
      ph !! i = Some Waiting →
      atomic_exchange l LOCK_LOCKED tab = Ret old tab' →
      race_step (tab, ph)
        (tab', <[i := if decide (old = LOCK_LOCKED) then Waiting else Holding]> ph)
  | race_trylock tab ph i r tab' :
      ph !! i = Some Idle →
      spinlock_trylock (Some l) tab = Ret r tab' →
      race_step (tab, ph) (tab', <[i := if r =? 0 then Holding else Idle]> ph)
  | race_unlock tab ph i r tab' :
      ph !! i = Some Holding →
      spinlock_unlock (Some l) tab = Ret r tab' →
      race_step (tab, ph) (tab', <[i := Idle]> ph).

Definition race_init (s : lock_table * list phase) : Prop :=
  s.1 !! l = Some LOCK_UNLOCKED ∧ Forall (eq Idle) s.2.

Definition race_inv (s : lock_table * list phase) : Prop :=
  (s.1 !! l = Some LOCK_UNLOCKED ∧ ∀ i, s.2 !! i ≠ Some Holding) ∨
  (s.1 !! l = Some LOCK_LOCKED ∧
   ∃ h, s.2 !! h = Some Holding ∧ ∀ i, s.2 !! i = Some Holding → i = h).

Lemma race_init_inv s : race_init s → race_inv s.
Proof.
  intros [Hl Hf]. left. split; [done|]. intros i Hi.
  rewrite Forall_lookup in Hf. by specialize (Hf _ _ Hi).
Qed.

(** An agent that holds neither before nor after a step does not matter. *)
Lemma race_inv_phase tab ph i p p' :
  race_inv (tab, ph) → ph !! i = Some p → p ≠ Holding → p' ≠ Holding →
  race_inv (tab, <[i := p']> ph).
Proof.
  unfold race_inv; simpl. intros Hinv Hi Hp Hp'.
  assert (∀ j, <[i := p']> ph !! j = Some Holding ↔ ph !! j = Some Holding) as Heq.
  { intros j. destruct (decide (i = j)) as [<-|Hj].
    - rewrite list_lookup_insert_eq by (by eapply lookup_lt_Some). naive_solver.
    - by rewrite list_lookup_insert_ne. }
  setoid_rewrite Heq. done.
Qed.

Lemma race_inv_acquire tab ph i p :
  (∀ j, ph !! j ≠ Some Holding) → ph !! i = Some p → is_Some (tab !! l) →
  race_inv (<[l := LOCK_LOCKED]> tab, <[i := Holding]> ph).
Proof.
  intros Hnone Hi Hl. right. simpl. split.
  { apply list_lookup_insert_eq. by apply lookup_lt_is_Some. }
  exists i. split.
  { apply list_lookup_insert_eq. by eapply lookup_lt_Some. }
  intros j. destruct (decide (i = j)) as [<-|Hj]; [done|].
  rewrite list_lookup_insert_ne by done. intros Hj'. by destruct (Hnone j).
Qed.

Lemma race_step_inv s s' : race_step s s' → race_inv s → race_inv s'.
Proof.
  destruct 1 as [tab ph i Hi|tab ph i old tab' Hi Hx|tab ph i r tab' Hi Hx
                |tab ph i r tab' Hi Hx]; intros Hinv.
  - by apply (race_inv_phase _ _ _ Idle).
  - unfold atomic_exchange in Hx. destruct (tab !! l) as [s|] eqn:Hl; simplify_eq.
    case_decide as Hold.
    + subst. rewrite list_insert_id by done. by apply (race_inv_phase _ _ _ Waiting).
    + destruct Hinv as [[_ Hn]|[Hl' _]]; simpl in *; [|congruence].
      by apply (race_inv_acquire _ _ _ Waiting); [|rewrite ?Hl..].
  - simpl in Hx. destruct (tab !! l) as [[]|] eqn:Hl; simplify_eq; simpl.
    + by apply (race_inv_phase _ _ _ Idle).
    + destruct Hinv as [[_ Hn]|[Hl' _]]; simpl in *; [|congruence].
      by apply (race_inv_acquire _ _ _ Idle); [|rewrite ?Hl..].
    + by apply (race_inv_phase _ _ _ Idle).
  - simpl in Hx. destruct (tab !! l) as [s|] eqn:Hl; simplify_eq.
    destruct Hinv as [[_ Hn]|[_ (h & Hh & Huniq)]]; simpl in *; [by destruct (Hn i)|].
    left. simpl. split; [apply list_lookup_insert_eq; by eapply lookup_lt_Some|].
    intros j. destruct (decide (i = j)) as [<-|Hj].
    + rewrite list_lookup_insert_eq by (by eapply lookup_lt_Some). done.
    + rewrite list_lookup_insert_ne by done. intros Hj'.
      apply Huniq in Hj'. apply Huniq in Hi. congruence.
Qed.

Lemma race_reachable_inv s s' : race_init s → rtc race_step s s' → race_inv s'.
Proof.
  intros Hi%race_init_inv Hr. induction Hr as [|s1 s2 s3 Hs _ IH]; [done|].
  apply IH. by eapply race_step_inv.
Qed.
End race.

(** ** One CPU with an interrupt handler *)

(** The handler between interrupt entry and [iret], with the CPU state the
    interrupt gate pushed. *)
Inductive isr_phase := Out | Entered (c : cpu) | Inside (c : cpu) | Leaving (c : cpu).

Record uni := mk_uni {
  u_cpu : cpu;
  u_tab : lock_table;
  u_main : option Z;     (* saved EFLAGS while the mainline holds the lock *)
  u_isr : isr_phase;
}.

Section single_cpu.
Context (l : nat).

Inductive uni_step : uni → uni → Prop :=
  | uni_run c tab c' :       (* mainline code outside the critical section *)
      uni_step (mk_uni c tab None Out) (mk_uni c' tab None Out)
  | uni_lock c tab saved c' tab' :
      ring3 c = false →
      spinlock_lock_irqsave (Some l) (c, tab) = Ret saved (c', tab') →
      uni_step (mk_uni c tab None Out) (mk_uni c' tab' (Some saved) Out)
  | uni_unlock c tab saved c' tab' :
      spinlock_unlock_irqrestore (Some l) saved (c, tab) = Ret tt (c', tab') →
      uni_step (mk_uni c tab (Some saved) Out) (mk_uni c' tab' None Out)
  | uni_interrupt c tab m :  (* an interrupt gate: IF is cleared, CPL is 0 *)
      interrupts_on c = true →
      uni_step (mk_uni c tab m Out)
        (mk_uni (mk_cpu (Z.clearbit (eflags c) EFLAGS_IF) false) tab m (Entered c))
  | uni_isr_lock c tab m c0 r tab' :
      spinlock_lock (Some l) tab = Ret r tab' →
      uni_step (mk_uni c tab m (Entered c0)) (mk_uni c tab' m (Inside c0))
  | uni_isr_unlock c tab m c0 r tab' :
      spinlock_unlock (Some l) tab = Ret r tab' →
      uni_step (mk_uni c tab m (Inside c0)) (mk_uni c tab' m (Leaving c0))
  | uni_iret c tab m c0 :
      uni_step (mk_uni c tab m (Leaving c0)) (mk_uni c0 tab m Out).

Definition uni_init (s : uni) : Prop :=
  u_tab s !! l = Some LOCK_UNLOCKED ∧ u_main s = None ∧ u_isr s = Out.

(** The lock is held by the mainline with interrupts off and no handler
    running, or by the handler, or by nobody. *)
Definition uni_inv (s : uni) : Prop :=
  match u_main s, u_isr s with
  | Some _, Out => u_tab s !! l = Some LOCK_LOCKED ∧ interrupts_on (u_cpu s) = false
  | Some _, _ => False
  | None, Inside _ => u_tab s !! l = Some LOCK_LOCKED
  | None, _ => u_tab s !! l = Some LOCK_UNLOCKED
  end.

Lemma arch_irq_save_off c : ring3 c = false → interrupts_on (arch_irq_save c).2 = false.
Proof.
  intros Hr. unfold arch_irq_save, interrupts_on. rewrite Hr.
  cbn [snd eflags]. apply Z.clearbit_eq.
Qed.

Lemma uni_step_inv s s' : uni_step s s' → uni_inv s → uni_inv s'.
Proof.
  destruct 1 as [| c tab saved c' tab' Hr Hl|c tab saved c' tab' Hl| c tab m Hi
                |c tab m c0 r tab' Hl|c tab m c0 r tab' Hl|];
    unfold uni_inv; simpl in *; try done.
  - intros Htab. unfold spinlock_lock_irqsave in Hl. simpl in Hl.
    rewrite (spinlock_lock_free _ _ _ Htab ltac:(done)) in Hl. simplify_eq.
    split; [apply list_lookup_insert_eq; by eapply lookup_lt_Some|].
    exact (arch_irq_save_off _ Hr).
  - intros [Htab _]. unfold spinlock_unlock_irqrestore in Hl. simpl in Hl.
    rewrite Htab in Hl. simplify_eq. apply list_lookup_insert_eq.
    by eapply lookup_lt_Some.
  - intros Hinv. destruct m; [|done]. destruct Hinv as [_ Hoff]. congruence.
  - intros Hinv. destruct m; [done|].
    rewrite (spinlock_lock_free _ _ _ Hinv ltac:(done)) in Hl. simplify_eq.
    apply list_lookup_insert_eq. by eapply lookup_lt_Some.
  - intros Hinv. destruct m; [done|]. rewrite Hinv in Hl. simplify_eq.
    apply list_lookup_insert_eq. by eapply lookup_lt_Some.
  - intros Hinv. by destruct m.
Qed.

Lemma uni_reachable_inv s s' : uni_init s → rtc uni_step s s' → uni_inv s'.
Proof.
  intros (Ht & Hm & Hi) Hr.
  assert (uni_inv s) as Hinv by (unfold uni_inv; by rewrite Hm, Hi).
  clear Ht Hm Hi. induction Hr as [|s1 s2 s3 Hs _ IH]; [done|].
  apply IH. by eapply uni_step_inv.
Qed.
End single_cpu.

(** ** Properties *)

(** [spinlock_alloc] always returns; it gives the lowest entry that nobody
    owns, so a new lock is different from every live one and no live lock
    changes state, and it gives null exactly when all entries are live. *)
Theorem spinlock_alloc_fresh tab :
  ∃ r tab', spinlock_alloc tab = Ret r tab' ∧
  match r with
  | Some i =>
      tab !! i = Some LOCK_INVALID ∧ tab' !! i = Some LOCK_UNLOCKED ∧
      (∀ j, (j < i)%nat → tab !! j ≠ Some LOCK_INVALID) ∧
      (∀ j s, tab !! j = Some s → s ≠ LOCK_INVALID → j ≠ i ∧ tab' !! j = Some s)
  | None => tab' = tab ∧ Forall (.≠ LOCK_INVALID) tab
  end.
Proof.
  unfold spinlock_alloc. destruct (spinlock_scan 0 tab) as [i|] eqn:Hs; do 2 eexists;
    (split; [done|]).
  - apply spinlock_scan_Some in Hs as (k & -> & Hk & Hmin). simpl.
    split; [done|]. split; [apply list_lookup_insert_eq; by eapply lookup_lt_Some|].
    split; [done|]. intros j s Hj Hne.
    assert (j ≠ k) by congruence. by rewrite list_lookup_insert_ne.
  - split; [done|]. by eapply spinlock_scan_None.
Qed.

(** C27: mutual exclusion.  Whatever order the atomic exchanges, trylocks and
    unlocks of any number of agents take, at most one agent holds the lock,
    and the lock word says whether one does. *)
Theorem spinlock_mutual_exclusion l s s' :
  race_init l s → rtc (race_step l) s s' →
  (∀ i j, s'.2 !! i = Some Holding → s'.2 !! j = Some Holding → i = j) ∧
  (s'.1 !! l = Some LOCK_LOCKED ↔ ∃ i, s'.2 !! i = Some Holding).
Proof.
  intros Hi Hr. destruct (race_reachable_inv l s s' Hi Hr) as [[Hl Hn]|[Hl (h & Hh & Hu)]].
  - split; [intros i j Hh; by destruct (Hn i)|]. rewrite Hl. split; [done|].
    intros [i Hh]. by destruct (Hn i).
  - split; [intros i j H1%Hu H2%Hu; congruence|]. rewrite Hl. split; [|done].
    intros _. by exists h.
Qed.

Lemma spinlock_mutual_exclusion_witness :
  race_init 1 ([LOCK_INVALID; LOCK_UNLOCKED], [Idle; Idle]) ∧
  ([LOCK_INVALID; LOCK_LOCKED] !! 1%nat = Some LOCK_LOCKED ↔
     ∃ i, [Holding; Waiting] !! i = Some Holding).
Proof.
  assert (race_init 1 ([LOCK_INVALID; LOCK_UNLOCKED], [Idle; Idle])) as Hi
    by (split; [done|repeat constructor]).
  split; [exact Hi|].
  refine (proj2 (spinlock_mutual_exclusion 1 _ ([LOCK_INVALID; LOCK_LOCKED],
    [Holding; Waiting]) Hi _)).
  eapply rtc_l; [by apply (race_call 1 _ _ 0%nat)|].
  eapply rtc_l; [by apply (race_call 1 _ _ 1%nat)|].
  eapply rtc_l; [by eapply (race_exchange 1 _ _ 0%nat)|].
  eapply rtc_l; [by eapply (race_exchange 1 _ _ 1%nat)|].
  apply rtc_refl.
Defined.

(** on one CPU, when the mainline takes a lock only through the irq-save
    variant, an interrupt handler that runs [spinlock_lock] on the same lock
    never spins: the acquisition returns at the first exchange. *)
Theorem spinlock_isr_acquire_returns l s s' c0 :
  uni_init l s → rtc (uni_step l) s s' → u_isr s' = Entered c0 →
  spinlock_lock (Some l) (u_tab s') = Ret 0 (<[l := LOCK_LOCKED]> (u_tab s')).
Proof.
  intros Hi Hr He. pose proof (uni_reachable_inv l s s' Hi Hr) as Hinv.
  unfold uni_inv in Hinv. rewrite He in Hinv. destruct (u_main s'); [done|].
  by eapply spinlock_lock_free.
Qed.

Lemma spinlock_isr_acquire_returns_witness :
  spinlock_lock (Some 0%nat) [LOCK_UNLOCKED] = Ret 0 [LOCK_LOCKED].
Proof.
  refine (spinlock_isr_acquire_returns 0 (mk_uni (mk_cpu 514 false) [LOCK_UNLOCKED] None Out)
    (mk_uni (mk_cpu 2 false) [LOCK_UNLOCKED] None (Entered (mk_cpu 514 false)))
    (mk_cpu 514 false) _ _ eq_refl); [by repeat split|].
  eapply rtc_l; [exact (uni_lock 0 (mk_cpu 514 false) [LOCK_UNLOCKED] 514 (mk_cpu 2 false)
    [LOCK_LOCKED] eq_refl eq_refl)|].
  eapply rtc_l; [exact (uni_unlock 0 (mk_cpu 2 false) [LOCK_LOCKED] 514 (mk_cpu 514 false)
    [LOCK_UNLOCKED] eq_refl)|].
  eapply rtc_l; [exact (uni_interrupt 0 (mk_cpu 514 false) [LOCK_UNLOCKED] None eq_refl)|].
  apply rtc_refl.
Defined.
