(* ===== verification/Allocator.v ===== *)
(** * What the kernel expects of its heap (the contract of kmalloc/kfree in
      include/mm/heap.h)

    Every kernel component builds its objects with [kmalloc] and destroys
    them with [kfree].  [Allocator] states what those components may rely on:
    an address handed out is non-zero and different from every address in
    use, and stays in use until it is freed.  Heap.v proves that heap.c keeps
    this promise; the files of the other components are proved against the
    interface alone. *)

From S2P Require Import Prelude.
From stdpp Require Import base tactics list gmap.
From Stdlib Require Import ZArith Lia.

Open Scope Z_scope.

Class Allocator (A : Type) := {
  kmalloc : Z → M A Z;
  kfree : Z → M A unit;
  (** [owns a L]: the heap is consistent and [L] are the addresses in use. *)
  owns : A → gset Z → Prop;
  kmalloc_ok : ∀ a L n, owns a L → is_u32 n →
    (∃ a', kmalloc n a = Ret 0 a' ∧ owns a' L)
    ∨ (∃ p a', kmalloc n a = Ret p a' ∧ 0 < p < 4294967296 ∧ p ∉ L ∧ owns a' ({[p]} ∪ L));
  kfree_ok : ∀ a L p, owns a L → p ∈ L →
    ∃ a', kfree p a = Ret tt a' ∧ owns a' (L ∖ {[p]});
  kfree_null : ∀ a, kfree 0 a = Ret tt a;
  owns_nonzero : ∀ a L, owns a L → 0 ∉ L;
}.

#[global] Arguments kmalloc : simpl never.
#[global] Arguments kfree : simpl never.

(** Freeing a list of addresses in use, as the teardown loops do. *)
Section free_all.
Context {A : Type} `{!Allocator A}.

Fixpoint free_all (ps : list Z) : M A unit :=
  match ps with
  | [] => mret tt
  | p :: ps => kfree p;; free_all ps
  end.

Lemma free_all_ok a L ps :
  owns a L → NoDup ps → list_to_set ps ⊆ L →
  ∃ a', free_all ps a = Ret tt a' ∧ owns a' (L ∖ list_to_set ps).
Proof.
  revert a L. induction ps as [|p ps IH]; intros a L Ho Hnd Hsub; simpl in *.
  - exists a. split; [done|]. by rewrite difference_empty_L.
  - apply NoDup_cons in Hnd as [Hp Hnd].
    destruct (kfree_ok a L p Ho) as (a1 & H1 & Ho1); [set_solver|].
    destruct (IH a1 _ Ho1 Hnd) as (a2 & H2 & Ho2); [set_solver|].
    exists a2. split; [by rewrite (bind_Ret _ _ _ _ _ H1)|].
    by replace (L ∖ ({[p]} ∪ list_to_set ps)) with (L ∖ {[p]} ∖ list_to_set ps) by set_solver.
Qed.
End free_all.

(** A heap of sixteen slots: the state is the set of addresses in use. *)
Definition slots : list Z := map (λ i, 4096 * Z.of_nat (S i)) (seq 0 16).

Definition slot_alloc : M (gset Z) Z := λ a,
  match List.find (λ p, bool_decide (p ∉ a)) slots with
  | Some p => Ret p ({[p]} ∪ a)
  | None => Ret 0 a
  end.

#[export] Instance slot_heap : Allocator (gset Z).
Proof.
  refine {| kmalloc _ := slot_alloc;
            kfree p := if p =? 0 then mret tt else modify (.∖ {[p]});
            owns a L := a = L ∧ 0 ∉ L |}.
  - intros a L n [-> H0] _. unfold slot_alloc. destruct (List.find _ slots) as [p|] eqn:E.
    + right. apply List.find_some in E as [Hin Hp%bool_decide_eq_true].
      apply in_map_iff in Hin as (i & <- & Hi%in_seq). exists (4096 * Z.of_nat (S i)), ({[4096 * Z.of_nat (S i)]} ∪ L).
      split_and!; [done|lia|lia|done|done|set_solver by lia].
    + left. by exists L.
  - intros a L p [-> H0] Hp. exists (L ∖ {[p]}).
    rewrite (proj2 (Z.eqb_neq p 0)) by (by intros ->). split; [done|]. split; [done|set_solver].
  - done.
  - intros a L [_ H]. exact H.
Defined.
