(* ===== verification/RbTree.v ===== *)
(** * Red-black trees (kernel/lib/rbtree.c, include/lib/rbtree.h)

    The kernel keeps the regions of an address space in a red-black tree of
    intrusive nodes around a sentinel [nil].  The operations below are the
    pointer code over a store of nodes.  [holds s t] says which binary tree
    the pointers of [s] spell, [rbt] is the red-black discipline, and the
    theorems show that insertion and deletion are insertion into and removal
    from the sorted sequence of nodes, that they keep the tree red-black, and
    that every loop ends.

    The two symmetric halves of the fix-up loops are one definition with a
    side as parameter: [DL] gives the text of the first branch, [DR] that of
    the second. *)

From S2P Require Import Prelude Allocator.
From stdpp Require Import base tactics list gmap sorting.
From Stdlib Require Import ZArith Lia.

Open Scope Z_scope.

Inductive color := RED | BLACK.
#[export] Instance color_eq_dec : EqDecision color.
Proof. solve_decision. Defined.

Record rbnode := mk_rbnode { n_col : color; n_parent : Z; n_left : Z; n_right : Z }.

(** The [rbtree] struct with the nodes in memory, by address. *)
Record rbtree := mk_rbtree { root : Z; nil : Z; nodes : gmap Z rbnode }.

(** ** Fields *)

Definition node_at (p : Z) : M rbtree rbnode := deref (λ t, nodes t !! p).
Definition get_col (p : Z) : M rbtree color := n ← node_at p; mret (n_col n).
Definition get_parent (p : Z) : M rbtree Z := n ← node_at p; mret (n_parent n).
Definition get_left (p : Z) : M rbtree Z := n ← node_at p; mret (n_left n).
Definition get_right (p : Z) : M rbtree Z := n ← node_at p; mret (n_right n).

Definition upd_node (p : Z) (f : rbnode → rbnode) : M rbtree unit :=
  n ← node_at p; modify (λ t, mk_rbtree (root t) (nil t) (<[p := f n]> (nodes t))).
Definition set_col (p : Z) (c : color) : M rbtree unit :=
  upd_node p (λ n, mk_rbnode c (n_parent n) (n_left n) (n_right n)).
Definition set_parent (p v : Z) : M rbtree unit :=
  upd_node p (λ n, mk_rbnode (n_col n) v (n_left n) (n_right n)).
Definition set_left (p v : Z) : M rbtree unit :=
  upd_node p (λ n, mk_rbnode (n_col n) (n_parent n) v (n_right n)).
Definition set_right (p v : Z) : M rbtree unit :=
  upd_node p (λ n, mk_rbnode (n_col n) (n_parent n) (n_left n) v).
Definition set_root (v : Z) : M rbtree unit := modify (λ t, mk_rbtree v (nil t) (nodes t)).

(** The side of a node a child is on. *)
Inductive dir := DL | DR.
#[export] Instance dir_eq_dec : EqDecision dir.
Proof. solve_decision. Defined.
Definition opp (d : dir) : dir := match d with DL => DR | DR => DL end.
Definition get_child (d : dir) : Z → M rbtree Z :=
  match d with DL => get_left | DR => get_right end.
Definition set_child (d : dir) : Z → Z → M rbtree unit :=
  match d with DL => set_left | DR => set_right end.

(** ** Rotations: [rotate DL] is [left_rotate], [rotate DR] is [right_rotate] *)

(** The link from [parent] (or the root) to [old] now leads to [new]. *)
Definition redirect (parent old new : Z) : M rbtree unit :=
  nl ← gets nil;
  if parent =? nl then set_root new else
  l ← get_left parent;
  if l =? old then set_left parent new else set_right parent new.

Definition rotate (d : dir) (node : Z) : M rbtree unit :=
  child ← get_child (opp d) node;
  parent ← get_parent node;
  inner ← get_child d child;
  set_child (opp d) node inner;;
  nl ← gets nil;
  (if inner =? nl then mret tt else set_parent inner node);;
  set_child d child node;;
  set_parent child parent;;
  redirect parent node child;;
  set_parent node child.

Definition left_rotate : Z → M rbtree unit := rotate DL.
Definition right_rotate : Z → M rbtree unit := rotate DR.

Definition rbtree_replace_node (old new : Z) : M rbtree unit :=
  p ← get_parent old;
  redirect p old new;;
  p ← get_parent old;
  set_parent new p.

(** ** Creation *)

Definition rbtree_init (nl : Z) : M rbtree unit := λ t,
  Ret tt (mk_rbtree nl nl (<[nl := mk_rbnode BLACK nl nl nl]> (nodes t))).

Section create.
Context {A : Type} `{!Allocator A}.

(** [sizeof(rbtree)] and [sizeof(rbnode)] on i386. *)
Definition sizeof_rbtree : Z := 8.
Definition sizeof_rbnode : Z := 16.

(** The address of the struct and what it holds; 0 when memory ran out. *)
Definition rbtree_create : M A (Z * rbtree) :=
  tree ← kmalloc sizeof_rbtree;
  if tree =? 0 then mret (0, mk_rbtree 0 0 ∅) else
  nl ← kmalloc sizeof_rbnode;
  if nl =? 0 then kfree tree;; mret (0, mk_rbtree 0 0 ∅) else
  mret (tree, mk_rbtree nl nl {[ nl := mk_rbnode BLACK nl nl nl ]}).

Definition rbtree_destroy (tree : Z) (t : rbtree) : M A unit :=
  if tree =? 0 then mret tt else kfree (nil t);; kfree tree.
End create.

(** ** Search and traversal.  The fuel of a loop bounds its turns; a loop that
    would need more spins. *)

Fixpoint search_loop (cmp : Z → Z) (fuel : nat) (node : Z) : M rbtree Z :=
  nl ← gets nil;
  if node =? nl then mret 0 else
  match fuel with
  | O => spin
  | S fuel =>
      let result := cmp node in
      if result <? 0 then l ← get_left node; search_loop cmp fuel l else
      if 0 <? result then r ← get_right node; search_loop cmp fuel r else
      mret node
  end.

(** Every node of the tree is in the store: as many turns as there are nodes
    are enough for any path. *)
Definition fuel_of (t : rbtree) : nat := S (size (nodes t)).

Definition rbtree_search (cmp : Z → Z) : M rbtree Z :=
  t ← get;
  if root t =? nil t then mret 0 else search_loop cmp (fuel_of t) (root t).

(** [while (n->left != nil) n = n->left], and to the right. *)
Fixpoint outermost (d : dir) (fuel : nat) (n : Z) : M rbtree Z :=
  match fuel with
  | O => spin
  | S fuel =>
      c ← get_child d n;
      nl ← gets nil;
      if c =? nl then mret n else outermost d fuel c
  end.

Definition rbtree_end (d : dir) : M rbtree Z :=
  t ← get;
  if root t =? nil t then mret 0 else outermost d (fuel_of t) (root t).
Definition rbtree_first : M rbtree Z := rbtree_end DL.
Definition rbtree_last : M rbtree Z := rbtree_end DR.

(** [while (p != nil && node == p->right) { node = p; p = p->parent; }] *)
Fixpoint climb (d : dir) (fuel : nat) (node p : Z) : M rbtree Z :=
  nl ← gets nil;
  if p =? nl then mret 0 else
  match fuel with
  | O => spin
  | S fuel =>
      c ← get_child d p;
      if node =? c then q ← get_parent p; climb d fuel p q else mret p
  end.

(** The neighbour of [node] in the order on side [d]. *)
Definition rbtree_step (d : dir) (node : Z) : M rbtree Z :=
  t ← get;
  c ← get_child d node;
  if c =? nil t then p ← get_parent node; climb d (fuel_of t) node p
  else outermost (opp d) (fuel_of t) c.
Definition rbtree_next : Z → M rbtree Z := rbtree_step DR.
Definition rbtree_prev : Z → M rbtree Z := rbtree_step DL.

(** [rbtree_for_each(pos, tree)]: the nodes visited, in order. *)
Fixpoint visit (fuel : nat) (pos : Z) : M rbtree (list Z) :=
  if pos =? 0 then mret [] else
  match fuel with
  | O => spin
  | S fuel => n ← rbtree_next pos; rest ← visit fuel n; mret (pos :: rest)
  end.
Definition rbtree_for_each : M rbtree (list Z) :=
  t ← get; pos ← rbtree_first; visit (fuel_of t) pos.

(** ** Insertion *)

(** The body of the loop of [insert_fixup] when the parent [p] of [node] is
    the child on side [d] of its own parent; [None] is [break]. *)
Definition insert_fixup_side (d : dir) (node : Z) : M rbtree (option Z) :=
  p ← get_parent node;
  gp ← get_parent p;
  uncle ← get_child (opp d) gp;
  uc ← get_col uncle;
  if decide (uc = RED) then
    set_col p BLACK;;
    set_col uncle BLACK;;
    set_col gp RED;;
    mret (Some gp)
  else
    inner ← get_child (opp d) p;
    node ← (if node =? inner then rotate d p;; mret p else mret node);
    p ← get_parent node;
    set_col p BLACK;;
    gp ← get_parent p;
    set_col gp RED;;
    rotate (opp d) gp;;
    mret None.

Fixpoint insert_fixup (fuel : nat) (node : Z) : M rbtree unit :=
  match fuel with
  | O => spin
  | S fuel =>
      p ← get_parent node;
      nl ← gets nil;
      if p =? nl then mret tt else
      pc ← get_col p;
      if decide (pc = RED) then
        gp ← get_parent p;
        gl ← get_left gp;
        next ← insert_fixup_side (if gl =? p then DL else DR) node;
        match next with
        | Some node => insert_fixup fuel node
        | None => mret tt
        end
      else mret tt
  end.

(** The descent of [rbtree_insert]: the last node before [nil]. *)
Fixpoint descend (cmp : Z → Z) (fuel : nat) (parent node : Z) : M rbtree Z :=
  nl ← gets nil;
  if node =? nl then mret parent else
  match fuel with
  | O => spin
  | S fuel =>
      if cmp node <? 0 then l ← get_left node; descend cmp fuel node l
      else r ← get_right node; descend cmp fuel node r
  end.

(** A null [new_node] or comparator leaves the tree as it is; the comparator
    here is a function, so only the node is tested.  The four stores into
    [*new_node] create its record. *)
Definition rbtree_insert (new_node : Z) (cmp : Z → Z → Z) : M rbtree unit :=
  t ← get;
  if new_node =? 0 then mret tt else
  put (mk_rbtree (root t) (nil t)
         (<[new_node := mk_rbnode RED (nil t) (nil t) (nil t)]> (nodes t)));;
  if root t =? nil t then set_root new_node;; set_col new_node BLACK else
  parent ← descend (cmp new_node) (fuel_of t) (nil t) (root t);
  set_parent new_node parent;;
  (if cmp new_node parent <? 0 then set_left parent new_node else set_right parent new_node);;
  insert_fixup (fuel_of t) new_node;;
  t ← get;
  set_col (root t) BLACK.

Definition rbtree_find_or_insert (key_cmp : Z → Z) (new_node : Z) (node_cmp : Z → Z → Z)
    : M rbtree Z :=
  found ← rbtree_search key_cmp;
  if found =? 0 then rbtree_insert new_node node_cmp;; mret 0 else mret found.

(** ** Deletion *)

(** Case 1, a red brother: it gives way to a black one. *)
Definition delete_case1 (d : dir) (node brother : Z) : M rbtree Z :=
  set_col brother BLACK;;
  bp ← get_parent brother;
  set_col bp RED;;
  p ← get_parent node;
  rotate d p;;
  p ← get_parent node;
  get_child (opp d) p.

(** Case 3, the outer nephew is black: the inner one takes the brother's
    place. *)
Definition delete_case3 (d : dir) (node brother near : Z) : M rbtree Z :=
  set_col near BLACK;;
  set_col brother RED;;
  rotate (opp d) brother;;
  p ← get_parent node;
  get_child (opp d) p.

(** Case 4, the outer nephew is red. *)
Definition delete_case4 (d : dir) (node brother : Z) : M rbtree unit :=
  p ← get_parent node;
  pc ← get_col p;
  set_col brother pc;;
  p ← get_parent node;
  set_col p BLACK;;
  far ← get_child (opp d) brother;
  set_col far BLACK;;
  p ← get_parent node;
  rotate d p.

(** The rest of a turn, when the brother is black; [None] is [break]. *)
Definition delete_black_brother (d : dir) (node brother : Z) : M rbtree (option Z) :=
  near ← get_child d brother;
  nc ← get_col near;
  far ← get_child (opp d) brother;
  fc ← get_col far;
  if decide (nc = BLACK ∧ fc = BLACK) then
    nl ← gets nil;
    (if brother =? nl then mret tt else set_col brother RED);;
    p ← get_parent node;
    mret (Some p)
  else
    brother ← (if decide (fc = BLACK) then delete_case3 d node brother near else mret brother);
    delete_case4 d node brother;;
    mret None.

(** The body of the loop of [delete_fixup] when [node] is the child on side
    [d] of its parent. *)
Definition delete_fixup_side (d : dir) (node : Z) : M rbtree (option Z) :=
  p ← get_parent node;
  brother ← get_child (opp d) p;
  bc ← get_col brother;
  brother ← (if decide (bc = RED) then delete_case1 d node brother else mret brother);
  delete_black_brother d node brother.

Fixpoint delete_fixup_loop (fuel : nat) (node : Z) : M rbtree Z :=
  match fuel with
  | O => spin
  | S fuel =>
      t ← get;
      if node =? root t then mret node else
      c ← get_col node;
      if decide (c = BLACK) then
        p ← get_parent node;
        l ← get_left p;
        next ← delete_fixup_side (if node =? l then DL else DR) node;
        match next with
        | Some node => delete_fixup_loop fuel node
        | None => mret node
        end
      else mret node
  end.

Definition delete_fixup (node : Z) : M rbtree unit :=
  t ← get;
  node ← delete_fixup_loop (fuel_of t) node;
  set_col node BLACK.

(** The successor takes control of the right subtree of [node]. *)
Definition delete_take_right (node new_node fix_node : Z) : M rbtree unit :=
  np ← get_parent new_node;
  if np =? node then
    l ← get_left node;
    set_parent l new_node;;
    l ← get_left node;
    set_left new_node l;;
    set_parent fix_node new_node
  else
    r ← get_right new_node;
    rbtree_replace_node new_node r;;
    r ← get_right node;
    set_right new_node r;;
    r ← get_right new_node;
    set_parent r new_node.

(** It takes the place, the left subtree and the colour of [node]. *)
Definition delete_take_over (node new_node : Z) : M rbtree unit :=
  rbtree_replace_node node new_node;;
  l ← get_left node;
  set_left new_node l;;
  l ← get_left new_node;
  set_parent l new_node;;
  c ← get_col node;
  set_col new_node c.

Definition rbtree_delete (node : Z) : M rbtree unit :=
  if node =? 0 then mret tt else
  t ← get;
  removed_color ← get_col node;
  l ← get_left node;
  r ← get_right node;
  '(removed_color, fixup_node) ←
    (if l =? nil t then
       rbtree_replace_node node r;;
       mret (removed_color, r)
     else if r =? nil t then
       rbtree_replace_node node l;;
       mret (removed_color, l)
     else
       new_node ← outermost DL (fuel_of t) r;
       removed_color ← get_col new_node;
       fixup_node ← get_right new_node;
       delete_take_right node new_node fixup_node;;
       delete_take_over node new_node;;
       mret (removed_color, fixup_node));
  if decide (removed_color = BLACK) then delete_fixup fixup_node else mret tt.

(** ** The tree the pointers spell *)

Inductive tree := Leaf | Node (c : color) (l : tree) (x : Z) (r : tree).

(** The nodes in order. *)
Fixpoint inorder (t : tree) : list Z :=
  match t with Leaf => [] | Node _ l x r => inorder l ++ x :: inorder r end.

Definition top (nl : Z) (t : tree) : Z := match t with Leaf => nl | Node _ _ x _ => x end.

(** [rep st nl par t]: the store [st] holds the nodes of [t], hanging from
    [par]. *)
Fixpoint rep (st : gmap Z rbnode) (nl par : Z) (t : tree) : Prop :=
  match t with
  | Leaf => True
  | Node c l x r =>
      st !! x = Some (mk_rbnode c par (top nl l) (top nl r)) ∧ rep st nl x l ∧ rep st nl x r
  end.

(** A path into a tree, innermost step first: at each step the side taken,
    the node left behind and its other child. *)
Record frame := mk_frame { f_dir : dir; f_col : color; f_node : Z; f_sib : tree }.

(** The node with [near] on side [d] and [far] on the other. *)
Definition node_of (d : dir) (c : color) (near : tree) (x : Z) (far : tree) : tree :=
  match d with DL => Node c near x far | DR => Node c far x near end.

Fixpoint plug (k : list frame) (t : tree) : tree :=
  match k with
  | [] => t
  | f :: k => plug k (node_of (f_dir f) (f_col f) t (f_node f) (f_sib f))
  end.

Definition top_ctx (nl : Z) (k : list frame) : Z :=
  match k with [] => nl | f :: _ => f_node f end.

(** The record of a node with child [near] on side [d]. *)
Definition rec (d : dir) (c : color) (par near far : Z) : rbnode :=
  match d with DL => mk_rbnode c par near far | DR => mk_rbnode c par far near end.

(** The store holds the path [k], whose hole points to [h]. *)
Fixpoint rep_ctx (st : gmap Z rbnode) (nl : Z) (k : list frame) (h : Z) : Prop :=
  match k with
  | [] => True
  | mk_frame d c x s :: k =>
      st !! x = Some (rec d c (top_ctx nl k) h (top nl s))
      ∧ rep st nl x s ∧ rep_ctx st nl k x
  end.

Fixpoint ctx_nodes (k : list frame) : list Z :=
  match k with [] => [] | f :: k => f_node f :: inorder (f_sib f) ++ ctx_nodes k end.

(** The state [s] holds the tree [t]. *)
Record holds (s : rbtree) (t : tree) : Prop := {
  holds_root : root s = top (nil s) t;
  holds_rep : rep (nodes s) (nil s) (nil s) t;
  holds_nodup : NoDup (inorder t);
  holds_nil : nil s ∉ inorder t;
  holds_null : 0 ∉ inorder t;
  holds_sentinel : ∃ np, nodes s !! nil s = Some (mk_rbnode BLACK np (nil s) (nil s));
}.

(** The parent the sentinel records. *)
Definition nil_parent (s : rbtree) : option Z := n_parent <$> nodes s !! nil s.

(** *** Paths *)

Lemma inorder_node_of d c a x b :
  inorder (node_of d c a x b) ≡ₚ x :: inorder a ++ inorder b.
Proof. destruct d; simpl; solve_Permutation. Qed.

Lemma inorder_plug k t : inorder (plug k t) ≡ₚ inorder t ++ ctx_nodes k.
Proof.
  revert t. induction k as [|f k IH]; intros t; simpl; [by rewrite app_nil_r|].
  rewrite IH, inorder_node_of. solve_Permutation.
Qed.

Lemma plug_inorder k t t' : inorder t = inorder t' → inorder (plug k t) = inorder (plug k t').
Proof.
  revert t t'. induction k as [|[d c x s] k IH]; intros t t' H; simpl; [done|].
  apply IH. destruct d; simpl; by rewrite H.
Qed.

Lemma plug_app k1 k2 t : plug (k1 ++ k2) t = plug k2 (plug k1 t).
Proof. revert t. induction k1 as [|f k1 IH]; intros t; simpl; [done|apply IH]. Qed.

Lemma node_of_opp d c a x b : node_of (opp d) c a x b = node_of d c b x a.
Proof. by destruct d. Qed.

Lemma opp_opp d : opp (opp d) = d.
Proof. by destruct d. Qed.

Lemma rep_plug st nl k t :
  rep st nl nl (plug k t) ↔ rep st nl (top_ctx nl k) t ∧ rep_ctx st nl k (top nl t).
Proof.
  revert t. induction k as [|[d c x s] k IH]; intros t; simpl; [tauto|].
  rewrite IH. destruct d; simpl; tauto.
Qed.

Lemma top_plug nl k t t' : top nl t = top nl t' → top nl (plug k t) = top nl (plug k t').
Proof.
  revert t t'. induction k as [|[d c x s] k IH]; intros t t' H; simpl; [done|].
  apply IH. by destruct d.
Qed.

(** The root is the outermost step of the path. *)
Lemma top_plug_cons nl f k t t' : top nl (plug (f :: k) t) = top nl (plug (f :: k) t').
Proof. simpl. apply top_plug. by destruct f as [[] ?]. Qed.

(** *** Framing *)

Lemma rep_ext st st' nl par t :
  (∀ q, q ∈ inorder t → st' !! q = st !! q) → rep st nl par t → rep st' nl par t.
Proof.
  revert par. induction t as [|c l IHl x r IHr]; intros par Hq; simpl; [done|].
  simpl in Hq. intros (H1 & H2 & H3). rewrite Hq by set_solver.
  split_and!; [done|apply IHl; set_solver|apply IHr; set_solver].
Qed.

Lemma rep_ctx_ext st st' nl k h :
  (∀ q, q ∈ ctx_nodes k → st' !! q = st !! q) → rep_ctx st nl k h → rep_ctx st' nl k h.
Proof.
  revert h. induction k as [|[d c x s] k IH]; intros h Hq; simpl; [done|].
  simpl in Hq. intros (H1 & H2 & H3). rewrite Hq by set_solver.
  split_and!; [done|eapply rep_ext; [|done]; set_solver|apply IH; [set_solver|done]].
Qed.


Lemma rep_node_of st nl par d c a x b :
  rep st nl par (node_of d c a x b) ↔
  st !! x = Some (rec d c par (top nl a) (top nl b)) ∧ rep st nl x a ∧ rep st nl x b.
Proof. destruct d; simpl; tauto. Qed.

Lemma top_node_of nl d c a x b : top nl (node_of d c a x b) = x.
Proof. by destruct d. Qed.

(** *** A tree seen from one of its nodes *)

Lemma holds_plug s k t :
  holds s (plug k t) ↔
  root s = top (nil s) (plug k t)
  ∧ rep (nodes s) (nil s) (top_ctx (nil s) k) t
  ∧ rep_ctx (nodes s) (nil s) k (top (nil s) t)
  ∧ NoDup (inorder t ++ ctx_nodes k)
  ∧ nil s ∉ inorder t ++ ctx_nodes k
  ∧ 0 ∉ inorder t ++ ctx_nodes k
  ∧ ∃ np, nodes s !! nil s = Some (mk_rbnode BLACK np (nil s) (nil s)).
Proof.
  split.
  - intros [H1 H2 H3 H4 H5 H6]. rewrite inorder_plug in H3, H4, H5.
    apply rep_plug in H2 as [H2 H2']. done.
  - intros (H1 & H2 & H2' & H3 & H4 & H5 & H6).
    constructor; rewrite ?inorder_plug; try done. by apply rep_plug.
Qed.

(** *** Steps of the pointer code *)

Section steps.
Implicit Types s : rbtree.

Definition n_child (d : dir) (n : rbnode) : Z := match d with DL => n_left n | DR => n_right n end.

Lemma wp_get_col p n (Q : color → rbtree → Prop) s :
  nodes s !! p = Some n → Q (n_col n) s → wp (get_col p) Q s.
Proof. intros H HQ. apply wp_bind. by eapply wp_deref. Qed.
Lemma wp_get_parent p n (Q : Z → rbtree → Prop) s :
  nodes s !! p = Some n → Q (n_parent n) s → wp (get_parent p) Q s.
Proof. intros H HQ. apply wp_bind. by eapply wp_deref. Qed.
Lemma wp_get_child d p n (Q : Z → rbtree → Prop) s :
  nodes s !! p = Some n → Q (n_child d n) s → wp (get_child d p) Q s.
Proof. intros H HQ. destruct d; apply wp_bind; by eapply wp_deref. Qed.
Lemma wp_upd_node p f n (Q : unit → rbtree → Prop) s :
  nodes s !! p = Some n → Q tt (mk_rbtree (root s) (nil s) (<[p := f n]> (nodes s))) →
  wp (upd_node p f) Q s.
Proof. intros H HQ. apply wp_bind. by eapply wp_deref. Qed.
Lemma wp_set_child d p v c par a b d' (Q : unit → rbtree → Prop) s :
  nodes s !! p = Some (rec d' c par a b) →
  Q tt (mk_rbtree (root s) (nil s)
          (<[p := if decide (d = d') then rec d' c par v b else rec d' c par a v]> (nodes s))) →
  wp (set_child d p v) Q s.
Proof. intros H HQ. destruct d, d'; eapply wp_upd_node; by try exact H. Qed.
End steps.

Lemma rec_col d c p a b : n_col (rec d c p a b) = c.
Proof. by destruct d. Qed.
Lemma rec_parent d c p a b : n_parent (rec d c p a b) = p.
Proof. by destruct d. Qed.
Lemma rec_near d c p a b : n_child d (rec d c p a b) = a.
Proof. by destruct d. Qed.
Lemma rec_far d c p a b : n_child (opp d) (rec d c p a b) = b.
Proof. by destruct d. Qed.

(** *** What a step leaves alone *)

(** [s'] differs from [s] only in the nodes of [l] (and maybe the root). *)
Definition only_in (l : list Z) (s s' : rbtree) : Prop :=
  nil s' = nil s ∧ ∀ q, q ∉ l → nodes s' !! q = nodes s !! q.

Lemma only_in_mono l l' s s' : l ⊆ l' → only_in l s s' → only_in l' s s'.
Proof. intros Hl [H1 H2]. split; [done|]. intros q Hq. apply H2. set_solver. Qed.

Lemma only_in_trans l s1 s2 s3 : only_in l s1 s2 → only_in l s2 s3 → only_in l s1 s3.
Proof. intros [H1 H2] [H3 H4]. split; [congruence|]. intros q Hq. by rewrite H4, H2. Qed.

Lemma only_in_insert l rt nl st rt' p n :
  p ∈ l → only_in l (mk_rbtree rt nl st) (mk_rbtree rt' nl (<[p := n]> st)).
Proof. intros Hp. split; [done|]. intros q Hq. simpl. apply lookup_insert_ne. by intros ->. Qed.

Lemma rep_frame l s s' nl par t :
  only_in l s s' → (∀ q, q ∈ inorder t → q ∉ l) →
  rep (nodes s) nl par t → rep (nodes s') nl par t.
Proof. intros [_ H] Hl. apply rep_ext. intros q Hq. by apply H, Hl. Qed.

Lemma rep_ctx_frame l s s' nl k h :
  only_in l s s' → (∀ q, q ∈ ctx_nodes k → q ∉ l) →
  rep_ctx (nodes s) nl k h → rep_ctx (nodes s') nl k h.
Proof. intros [_ H] Hl. apply rep_ctx_ext. intros q Hq. by apply H, Hl. Qed.

(** Hanging a subtree from another parent. *)
Lemma reparent_ok t par par' s :
  nil s ∉ inorder t → NoDup (inorder t) → rep (nodes s) (nil s) par t →
  wp (if top (nil s) t =? nil s then mret tt else set_parent (top (nil s) t) par')
    (λ _ s', rep (nodes s') (nil s) par' t ∧ root s' = root s ∧ only_in (inorder t) s s') s.
Proof.
  destruct t as [|c l x r]; simpl; intros Hn Hnd Hrep.
  - by rewrite Z.eqb_refl.
  - rewrite (proj2 (Z.eqb_neq x (nil s))) by set_solver.
    destruct Hrep as (Hx & Hl & Hr). apply NoDup_app in Hnd as (_ & Hlx & [Hxr _]%NoDup_cons).
    eapply wp_upd_node; [apply Hx|]. simpl. split_and!; [by rewrite lookup_insert_eq|..].
    + eapply rep_ext; [|done]. intros q Hq. apply lookup_insert_ne. intros ->. by apply (Hlx q Hq); left.
    + eapply rep_ext; [|done]. intros q Hq. apply lookup_insert_ne. by intros ->.
    + done.
    + destruct s. apply only_in_insert. set_solver.
Qed.

(** Pointing a path at another subtree. *)
Lemma redirect_ok k h h' s :
  nil s ∉ h :: ctx_nodes k → NoDup (h :: ctx_nodes k) → rep_ctx (nodes s) (nil s) k h →
  wp (redirect (top_ctx (nil s) k) h h') (λ _ s',
    rep_ctx (nodes s') (nil s) k h' ∧ only_in (ctx_nodes k) s s'
    ∧ root s' = match k with [] => h' | _ => root s end) s.
Proof.
  destruct s as [rt nl st]. unfold redirect. intros Hn Hnd Hrep. apply wp_bind.
  eapply wp_Ret; [reflexivity|]. simpl in *.
  destruct k as [|[d c x sb] k]; simpl in *; [by rewrite Z.eqb_refl|].
  rewrite (proj2 (Z.eqb_neq x nl)) by set_solver. destruct Hrep as (Hx & Hs & Hk).
  apply NoDup_cons in Hnd as [Hh Hnd]. apply NoDup_cons in Hnd as [Hxn Hnd].
  apply wp_bind. eapply (wp_get_child DL); [exact Hx|].
  assert (Hl : (n_child DL (rec d c (top_ctx nl k) h (top nl sb)) =? h) = bool_decide (d = DL)).
  { destruct d; simpl; [apply Z.eqb_refl|]. apply Z.eqb_neq.
    destruct sb as [|? ? y ?]; simpl in *; set_solver. }
  rewrite Hl. replace (if bool_decide (d = DL) then set_left x h' else set_right x h')
    with (set_child d x h') by (by destruct d).
  eapply wp_set_child; [exact Hx|]. simpl. rewrite decide_True by done.
  split_and!; [by rewrite lookup_insert_eq|..|done].
  - eapply rep_ext; [|done]. intros q Hq. apply lookup_insert_ne. set_solver.
  - eapply rep_ctx_ext; [|done]. intros q Hq. apply lookup_insert_ne. set_solver.
  - apply only_in_insert. left.
Qed.

(** A store into a field, seen from outside. *)
Lemma wp_upd p f n (Q : unit → rbtree → Prop) s :
  nodes s !! p = Some n →
  (∀ s', root s' = root s → only_in [p] s s' → nodes s' !! p = Some (f n) → Q tt s') →
  wp (upd_node p f) Q s.
Proof.
  intros H HQ. eapply wp_upd_node; [done|]. apply HQ; [done| |apply lookup_insert_eq].
  destruct s. apply only_in_insert. left.
Qed.

Lemma wp_upd_child d p v n (Q : unit → rbtree → Prop) s :
  nodes s !! p = Some n →
  (∀ s', root s' = root s → only_in [p] s s' →
     nodes s' !! p = Some (rec d (n_col n) (n_parent n) v (n_child (opp d) n)) → Q tt s') →
  wp (set_child d p v) Q s.
Proof. intros H HQ. destruct d; (eapply wp_upd; [exact H|]; exact HQ). Qed.

Lemma rec_opp d c p a b : rec (opp d) c p a b = rec d c p b a.
Proof. by destruct d. Qed.

(** The sentinel is as it was. *)
Definition same_nil (s s' : rbtree) : Prop :=
  nil s' = nil s ∧ nodes s' !! nil s = nodes s !! nil s.

(** The addresses of a rotation's neighbourhood, before and after. *)
Lemma rotate_perm d c c' a x b y e k :
  inorder (node_of d c a x (node_of d c' b y e)) ++ ctx_nodes k
  ≡ₚ x :: y :: inorder a ++ inorder b ++ inorder e ++ ctx_nodes k
  ∧ inorder (node_of d c' (node_of d c a x b) y e) ++ ctx_nodes k
  ≡ₚ x :: y :: inorder a ++ inorder b ++ inorder e ++ ctx_nodes k.
Proof. rewrite !inorder_node_of. split; solve_Permutation. Qed.

(** Rotations turn the tree and nothing else. *)
Lemma rotate_ok d c c' a x b y e k s :
  holds s (plug k (node_of d c a x (node_of d c' b y e))) →
  wp (rotate d x) (λ _ s',
    holds s' (plug k (node_of d c' (node_of d c a x b) y e)) ∧ same_nil s s') s.
Proof.
  intros (Hroot & Hrep & Hctx & Hnd & Hnil & Hnull & np & Hs)%holds_plug.
  destruct (rotate_perm d c c' a x b y e k) as [Hp1 Hp2].
  rewrite Hp1 in Hnd, Hnil, Hnull. rewrite top_node_of in Hctx.
  rewrite !rep_node_of, top_node_of in Hrep. destruct Hrep as (Hx & Ha & Hy & Hb & He).
  destruct s as [rt nl st]. cbn [root nil nodes] in *.
  apply NoDup_cons in Hnd as [Hxn Hnd]. apply NoDup_cons in Hnd as [Hyn Hnd].
  apply NoDup_app in Hnd as (Hnda & Hda & Hnd). apply NoDup_app in Hnd as (Hndb & Hdb & Hnd).
  apply NoDup_app in Hnd as (Hnde & Hde & Hndk).
  assert (x ≠ y) by set_solver. assert (nl ∉ inorder b) by set_solver.
  unfold rotate.
  apply wp_bind. eapply wp_get_child; [exact Hx|]. rewrite rec_far.
  apply wp_bind. eapply wp_get_parent; [exact Hx|]. rewrite rec_parent.
  apply wp_bind. eapply wp_get_child; [exact Hy|]. rewrite rec_near.
  apply wp_bind. eapply wp_upd_child; [exact Hx|].
  intros s1 Hr1 H1 Hx1. rewrite opp_opp, rec_col, rec_parent, rec_near, rec_opp in Hx1.
  destruct s1 as [rt1 nl1 st1]. pose proof (proj1 H1) as E. cbn [root nil nodes] in E, Hr1, Hx1. subst nl1 rt1.
  apply wp_bind. eapply wp_Ret; [reflexivity|]. cbn [nil].
  apply wp_bind. eapply wp_mono.
  { eapply (reparent_ok b y x (mk_rbtree rt nl st1)); [done|done|].
    eapply rep_frame; [exact H1|set_solver|done]. }
  intros [] [rt2 nl2 st2] (Hb2 & Hr2 & H2). pose proof (proj1 H2) as E.
  cbn [root nil nodes] in E, Hr2, Hb2. subst nl2 rt2.
  assert (Hy2 : st2 !! y = Some (rec d c' x (top nl b) (top nl e))).
  { pose proof (proj2 H2 y ltac:(set_solver)) as E1. pose proof (proj2 H1 y ltac:(set_solver)) as E2.
    simpl in *. congruence. }
  apply wp_bind. eapply wp_upd_child; [exact Hy2|]. rewrite rec_col, rec_parent, rec_far.
  intros s3 Hr3 H3 Hy3.
  apply wp_bind. eapply wp_upd; [exact Hy3|]. intros s4 Hr4 H4 Hy4.
  assert (H14 : only_in (x :: y :: inorder b) (mk_rbtree rt nl st) s4).
  { do 4 (eapply only_in_trans; [eapply only_in_mono; [|done]; set_solver|]). done. }
  pose proof (proj1 H14) as E. cbn [nil] in E.
  apply wp_bind. eapply wp_mono.
  { rewrite <- E. eapply (redirect_ok k x y s4); rewrite ?E.
    - set_solver.
    - apply NoDup_cons. set_solver.
    - eapply rep_ctx_frame; [exact H14|set_solver|done]. }
  intros [] s5 (Hk5 & H5 & Hr5). rewrite E in Hk5.
  assert (Hx5 : nodes s5 !! x = Some (rec d c (top_ctx nl k) (top nl a) (top nl b))).
  { rewrite (proj2 H5), (proj2 H4), (proj2 H3), (proj2 H2) by set_solver. done. }
  assert (Hy5 : nodes s5 !! y = Some (rec d c' (top_ctx nl k) x (top nl e))).
  { rewrite (proj2 H5) by set_solver. rewrite Hy4. by destruct d. }
  eapply wp_upd; [exact Hx5|]. intros s6 Hr6 H6 Hx6.
  assert (H16 : only_in (x :: y :: inorder b ++ ctx_nodes k) (mk_rbtree rt nl st) s6).
  { do 2 (eapply only_in_trans; [eapply only_in_mono; [|done]; set_solver|]).
    eapply only_in_mono; [|done]; set_solver. }
  pose proof (proj1 H16) as E6. cbn [nil] in E6.
  split; [|split; [done|apply (proj2 H16); set_solver]].
  apply holds_plug. rewrite E6, Hp2, rep_node_of, rep_node_of, !top_node_of. split_and!.
  - rewrite Hr6, Hr5, Hr4, Hr3, Hroot. destruct k; [simpl; by rewrite top_node_of|apply top_plug_cons].
  - rewrite (proj2 H6) by set_solver. done.
  - rewrite Hx6. by destruct d.
  - eapply rep_frame; [exact H16|set_solver|done].
  - eapply rep_frame; [exact H6|set_solver|]. eapply rep_frame; [exact H5|set_solver|].
    eapply rep_frame; [exact H4|set_solver|]. eapply rep_frame; [exact H3|set_solver|done].
  - eapply rep_frame; [exact H16|set_solver|done].
  - eapply rep_ctx_frame; [exact H6|set_solver|done].
  - repeat (apply NoDup_cons; split; [done|]). repeat (apply NoDup_app; split_and!; [done|done|]). done.
  - done.
  - done.
  - exists np. rewrite (proj2 H16) by set_solver. done.
Qed.

(** *** Reading and colouring a node of the tree *)

Lemma holds_node s k d c a x b :
  holds s (plug k (node_of d c a x b)) →
  nodes s !! x = Some (rec d c (top_ctx (nil s) k) (top (nil s) a) (top (nil s) b)).
Proof. intros (_ & H & _)%holds_plug. rewrite rep_node_of in H. apply H. Qed.

Definition color_of (t : tree) : color := match t with Leaf => BLACK | Node c _ _ _ => c end.

Lemma wp_col_top s k t (Q : color → rbtree → Prop) :
  holds s (plug k t) → Q (color_of t) s → wp (get_col (top (nil s) t)) Q s.
Proof.
  intros H HQ. destruct t as [|c l x r]; simpl.
  - apply holds_plug in H as (_ & _ & _ & _ & _ & _ & np & H). by eapply wp_get_col.
  - apply (holds_node s k DL) in H. by eapply wp_get_col.
Qed.

Lemma set_col_ok s k d c c' a x b :
  holds s (plug k (node_of d c a x b)) →
  wp (set_col x c') (λ _ s', holds s' (plug k (node_of d c' a x b)) ∧ same_nil s s') s.
Proof.
  intros H. pose proof (holds_node _ _ _ _ _ _ _ H) as Hx.
  apply holds_plug in H as (Hroot & Hrep & Hctx & Hnd & Hnil & Hnull & np & Hs).
  rewrite inorder_node_of in Hnd, Hnil, Hnull. rewrite rep_node_of in Hrep. rewrite top_node_of in Hctx.
  simpl in Hnd. apply NoDup_cons in Hnd as [Hxn Hnd].
  eapply wp_upd; [exact Hx|]. intros s' Hr Hs' Hx'. destruct Hs' as [Hn Hq].
  assert (only_in [x] s s') as Ho by done.
  split; [|split; [done|apply Hq; set_solver]].
  apply holds_plug. rewrite rep_node_of, top_node_of, inorder_node_of, Hn. split_and!.
  - rewrite Hr, Hroot. apply top_plug. by rewrite !top_node_of.
  - rewrite Hx'. by destruct d.
  - eapply rep_frame; [exact Ho|set_solver|apply Hrep].
  - eapply rep_frame; [exact Ho|set_solver|apply Hrep].
  - eapply rep_ctx_frame; [exact Ho|set_solver|done].
  - by apply NoDup_cons.
  - done.
  - done.
  - exists np. rewrite Hq by set_solver. done.
Qed.

(** ** The red-black discipline *)

(** [rbt c n t]: the root of [t] has colour [c], every path to a leaf passes
    [n] black nodes, and no red node has a red child. *)
Inductive rbt : color → nat → tree → Prop :=
  | rbt_leaf : rbt BLACK 0 Leaf
  | rbt_red n l x r : rbt BLACK n l → rbt BLACK n r → rbt RED n (Node RED l x r)
  | rbt_black n cl cr l x r : rbt cl n l → rbt cr n r → rbt BLACK (S n) (Node BLACK l x r).

(** A path that becomes a red-black tree with a black root when its hole is
    filled with a tree of colour [c] and black height [n]. *)
Inductive rbt_ctx : color → nat → list frame → Prop :=
  | rbt_top n : rbt_ctx BLACK n []
  | rbt_in_red n d x s k : rbt BLACK n s → rbt_ctx RED n k → rbt_ctx BLACK n (mk_frame d RED x s :: k)
  | rbt_in_black n c cs d x s k :
      rbt cs n s → rbt_ctx BLACK (S n) k → rbt_ctx c n (mk_frame d BLACK x s :: k).

Lemma rbt_color c n t : rbt c n t → color_of t = c.
Proof. by destruct 1. Qed.

Lemma rbt_node_red d n a x b : rbt BLACK n a → rbt BLACK n b → rbt RED n (node_of d RED a x b).
Proof. destruct d; by constructor. Qed.

Lemma rbt_node_black d n ca cb a x b :
  rbt ca n a → rbt cb n b → rbt BLACK (S n) (node_of d BLACK a x b).
Proof. destruct d; by econstructor. Qed.

#[export] Hint Resolve rbt_node_red rbt_node_black : kern.
#[export] Hint Constructors rbt rbt_ctx : kern.

Lemma rbt_plug c n t k : rbt c n t → rbt_ctx c n k → ∃ m, rbt BLACK m (plug k t).
Proof.
  intros Ht Hk. revert t Ht. induction Hk as [n|n d x s k Hs Hk IH|n c cs d x s k Hs Hk IH];
    intros t Ht; simpl; eauto with kern.
Qed.

(** A path that takes a red tree takes a black one. *)
Lemma rbt_ctx_weaken c n k : rbt_ctx c n k → rbt_ctx BLACK n k.
Proof. destruct 1; eauto with kern. Qed.

(** ** Insertion *)

Lemma node_of_side d c a x b : ∃ l r, node_of d c a x b = Node c l x r.
Proof. destruct d; eauto. Qed.

Lemma insert_fixup_recolor d d' s k t p sb g u cg l ug r :
  u = Node RED l ug r →
  holds s (plug (mk_frame d' RED p sb :: mk_frame d cg g u :: k) t) →
  wp (set_col p BLACK;; set_col ug BLACK;; set_col g RED;; mret (Some g)) (λ o s',
    o = Some g ∧
    holds s' (plug k (node_of d RED (node_of d' BLACK t p sb) g (Node BLACK l ug r)))) s.
Proof.
  intros -> H. simpl in H.
  apply wp_bind. eapply wp_mono; [eapply (set_col_ok s (mk_frame d cg g _ :: k) d' RED BLACK); exact H|].
  intros [] s1 [H1 _]. simpl in H1. rewrite <- node_of_opp in H1.
  apply wp_bind. eapply wp_mono.
  { eapply (set_col_ok s1 (mk_frame (opp d) cg g _ :: k) DL RED BLACK l ug r). exact H1. }
  intros [] s2 [H2 _]. simpl in H2. rewrite node_of_opp in H2.
  apply wp_bind. eapply wp_mono; [eapply (set_col_ok s2 k d cg RED); exact H2|].
  intros [] s3 [H3 _]. apply wp_ret. done.
Qed.

(** Two trees with the same nodes in the same order. *)
Ltac same_order := simpl; repeat (rewrite <- app_assoc; simpl); done.

Lemma holds_sibling s d c p sb k c' l x r :
  holds s (plug (mk_frame d c p sb :: k) (Node c' l x r)) → x ≠ top (nil s) sb.
Proof.
  intros (_ & _ & _ & Hnd & Hnil & _)%holds_plug. simpl in *.
  apply NoDup_app in Hnd as (_ & Hnd & _). specialize (Hnd x ltac:(set_solver)).
  destruct sb as [|? ? y ?]; simpl in *; set_solver.
Qed.

(** The parent takes the grandparent's place, both recoloured. *)
Lemma insert_fixup_rotate d s k t sb p g u :
  holds s (plug k (node_of d BLACK (node_of d RED t p sb) g u)) →
  t ≠ Leaf →
  wp (p ← get_parent (top (nil s) t);
      set_col p BLACK;;
      gp ← get_parent p;
      set_col gp RED;;
      rotate (opp d) gp;;
      mret (None : option Z)) (λ o s',
    o = None ∧ holds s' (plug k (node_of d BLACK t p (node_of d RED sb g u)))) s.
Proof.
  intros H Ht. destruct t as [|ct tl tx tr]; [done|]. simpl top.
  pose proof (holds_node s (mk_frame d RED p sb :: mk_frame d BLACK g u :: k) DL ct tl tx tr H) as Hx.
  apply wp_bind. eapply wp_get_parent; [exact Hx|]. rewrite rec_parent. cbn [top_ctx f_node].
  apply wp_bind. eapply wp_mono; [apply (set_col_ok s (mk_frame d BLACK g u :: k) d RED BLACK); exact H|].
  intros [] s1 [H1 _]. cbn [plug f_dir f_col f_node f_sib] in H1.
  apply wp_bind. eapply wp_get_parent.
  { apply (holds_node s1 (mk_frame d BLACK g u :: k) d BLACK). exact H1. }
  rewrite rec_parent. cbn [top_ctx f_node].
  apply wp_bind. eapply wp_mono; [apply (set_col_ok s1 k d BLACK RED); exact H1|].
  intros [] s2 [H2 _].
  rewrite <- node_of_opp, <- (node_of_opp d BLACK) in H2.
  apply wp_bind. eapply wp_mono; [apply rotate_ok; exact H2|].
  intros [] s3 [H3 _]. apply wp_ret. split; [done|].
  by rewrite !node_of_opp in H3.
Qed.

(** One turn of the loop of [insert_fixup]: the violation moves two levels up
    or is gone. *)
Lemma insert_fixup_side_ok d d' n s k l x r p sb g u cu :
  holds s (plug (mk_frame d' RED p sb :: mk_frame d BLACK g u :: k) (Node RED l x r)) →
  rbt RED n (Node RED l x r) → rbt BLACK n sb → rbt cu n u →
  wp (insert_fixup_side d x) (λ o s', ∃ t',
    holds s' (plug k t') ∧
    inorder t' = inorder (plug [mk_frame d' RED p sb; mk_frame d BLACK g u] (Node RED l x r)) ∧
    match o with
    | Some y => y = top (nil s') t' ∧ rbt RED (S n) t'
    | None => rbt BLACK (S n) t'
    end) s.
Proof.
  intros H Hx Hsb Hu. unfold insert_fixup_side.
  apply wp_bind. eapply wp_get_parent; [eapply (holds_node s _ DL); exact H|].
  apply wp_bind. eapply wp_get_parent.
  { eapply (holds_node s (mk_frame d BLACK g u :: k) d'). exact H. }
  rewrite !rec_parent. cbn [top_ctx f_node].
  apply wp_bind. eapply wp_get_child; [eapply (holds_node s k d); exact H|]. rewrite rec_far.
  apply wp_bind. eapply (wp_col_top s (mk_frame (opp d) BLACK g _ :: k) u).
  { cbn [plug f_dir f_col f_node f_sib]. rewrite node_of_opp. exact H. }
  rewrite (rbt_color _ _ _ Hu). case_decide as Hc.
  - subst cu. inversion Hu as [|n' ul ux ur Hul Hur|]; subst. simpl top.
    eapply wp_mono; [eapply insert_fixup_recolor; [reflexivity|exact H]|].
    intros o s' [-> H']. eexists. split_and!; [exact H'|destruct d, d'; same_order|by rewrite top_node_of|].
    apply rbt_node_red; [|by econstructor]. eapply rbt_node_black; eauto.
  - assert (cu = BLACK) as -> by (by destruct cu).
    apply wp_bind. eapply wp_get_child; [eapply (holds_node s (mk_frame d BLACK g u :: k) d'); exact H|].
    inversion Hx; subst.
    destruct (decide (d' = d)) as [->|Hd].
    + rewrite rec_far. apply wp_bind. rewrite (proj2 (Z.eqb_neq x _)).
      2: { eapply holds_sibling. exact H. }
      apply wp_ret. eapply wp_mono; [apply (insert_fixup_rotate d s k (Node RED l x r)); [exact H|done]|].
      intros o s' [-> H']. eexists. split_and!; [exact H'|destruct d; same_order|eauto with kern].
    + assert (d' = opp d) as -> by (by destruct d, d').
      rewrite rec_near. cbn [top]. rewrite Z.eqb_refl. apply wp_bind, wp_bind.
      cbn [plug f_dir f_col f_node f_sib] in H. rewrite node_of_opp in H.
      assert (∃ a b, Node RED l x r = node_of d RED a x b ∧ rbt BLACK n a ∧ rbt BLACK n b)
        as (a & b & E & Ha & Hb) by (destruct d; simpl; eauto).
      rewrite E in H |- *.
      eapply wp_mono; [exact (rotate_ok d _ _ _ _ _ _ _ (mk_frame d BLACK g u :: k) s H)|].
      intros [] s1 [H1 [Hn1 _]]. apply wp_ret. 
      eapply wp_mono.
      { pose proof (insert_fixup_rotate d s1 k (node_of d RED sb p a) b x g u H1) as W.
        rewrite top_node_of in W. apply W. by destruct d. }
      intros o s' [-> H']. eexists. split_and!; [exact H'| |eauto with kern].
      clear - E. destruct d; simpl in *; simplify_eq; same_order.
Qed.

(** The nodes of the last two steps of a path. *)
Lemma holds_frame s d c p sb k t :
  holds s (plug (mk_frame d c p sb :: k) t) →
  nodes s !! p = Some (rec d c (top_ctx (nil s) k) (top (nil s) t) (top (nil s) sb)).
Proof. apply holds_node. Qed.

Lemma holds_frame2 s f d c p sb k t :
  holds s (plug (f :: mk_frame d c p sb :: k) t) →
  nodes s !! p = Some (rec d c (top_ctx (nil s) k) (f_node f) (top (nil s) sb)).
Proof. intros H. etrans; [exact (holds_frame s d c p sb k _ H)|]. by rewrite top_node_of. Qed.

Lemma holds_frame_ne s f k t : holds s (plug (f :: k) t) → f_node f ≠ nil s.
Proof. intros (_ & _ & _ & _ & Hn & _)%holds_plug. set_solver. Qed.

(** [insert_fixup] repairs a red node whose parent may be red, and it ends:
    each turn shortens the path to the root. *)
Lemma insert_fixup_ok fuel n s k l x r :
  holds s (plug k (Node RED l x r)) → rbt RED n (Node RED l x r) → rbt_ctx BLACK n k →
  (length k < fuel)%nat →
  wp (insert_fixup fuel x) (λ _ s', ∃ c m t',
    holds s' t' ∧ inorder t' = inorder (plug k (Node RED l x r)) ∧ rbt c m t') s.
Proof.
  revert n s k l x r. induction fuel as [|fuel IH]; intros n s k l x r H Hx Hk Hf; [lia|].
  cbn [insert_fixup]. apply wp_bind. eapply wp_get_parent; [eapply (holds_node s _ DL); exact H|].
  rewrite rec_parent. apply wp_bind. eapply wp_Ret; [reflexivity|]. simpl.
  inversion Hk as [|n' d p sb k' Hsb Hk'|n' c cs d p sb k' Hsb Hk']; subst; simpl top_ctx.
  - rewrite Z.eqb_refl. apply wp_ret. by eexists _, _, _.
  - rewrite (proj2 (Z.eqb_neq p (nil s))) by exact (holds_frame_ne _ _ _ _ H).
    inversion Hk' as [|n' d' g u k'' Hu Hk''|n' c' cu d' g u k'' Hu Hk'']; subst.
    apply wp_bind. eapply wp_get_col; [exact (holds_frame _ _ _ _ _ _ _ H)|]. rewrite rec_col.
    rewrite decide_True by done.
    apply wp_bind. eapply wp_get_parent; [exact (holds_frame _ _ _ _ _ _ _ H)|].
    rewrite rec_parent. simpl top_ctx.
    apply wp_bind. eapply (wp_get_child DL); [exact (holds_frame2 _ _ _ _ _ _ _ _ H)|].
    replace (if _ =? p then DL else DR) with d'.
    2: { simpl f_node. destruct d'; simpl; [by rewrite Z.eqb_refl|].
         rewrite (proj2 (Z.eqb_neq _ p)); [done|]. apply not_eq_sym.
         destruct (node_of_side d RED (Node RED l x r) p sb) as (l1 & r1 & E).
         eapply (holds_sibling s DR BLACK g u k'' RED l1 p r1). simpl. by rewrite <- E. }
    apply wp_bind. eapply wp_mono; [eapply insert_fixup_side_ok; [exact H|exact Hx|done|exact Hu]|].
    intros o s' (t' & H' & Hin & Ho). destruct o as [y|].
    + destruct Ho as [-> Ht']. inversion Ht'; subst. simpl top.
      eapply wp_mono; [eapply IH; [exact H'|done|done|simpl in *; lia]|].
      intros [] s2 (c & m & t2 & H2 & Hin2 & Ht2). exists c, m, t2.
      split_and!; [done|rewrite Hin2|done].
      change (plug (mk_frame d RED p sb :: mk_frame d' BLACK g u :: k'') (Node RED l x r))
        with (plug k'' (plug [mk_frame d RED p sb; mk_frame d' BLACK g u] (Node RED l x r))).
      by apply plug_inorder.
    + apply wp_ret. destruct (rbt_plug _ _ _ _ Ho Hk'') as [m Hm]. exists BLACK, m, (plug k'' t').
      split_and!; [done| |done].
      change (plug (mk_frame d RED p sb :: mk_frame d' BLACK g u :: k'') (Node RED l x r))
        with (plug k'' (plug [mk_frame d RED p sb; mk_frame d' BLACK g u] (Node RED l x r))).
      by apply plug_inorder.
  - rewrite (proj2 (Z.eqb_neq p (nil s))) by exact (holds_frame_ne _ _ _ _ H).
    apply wp_bind. eapply wp_get_col; [exact (holds_frame _ _ _ _ _ _ _ H)|]. rewrite rec_col.
    rewrite decide_False by done. apply wp_ret.
    destruct (rbt_plug RED n (Node RED l x r) (mk_frame d BLACK p sb :: k')) as [m Hm];
      [done|by econstructor|]. by eexists _, _, _.
Qed.

(** The loops have enough fuel: a path is no longer than the tree, and every
    node of the tree and the sentinel are in the store. *)
Lemma ctx_length k : (length k ≤ length (ctx_nodes k))%nat.
Proof. induction k as [|f k IH]; simpl; [lia|]. rewrite length_app. lia. Qed.

Lemma rep_nodes st nl par t q : rep st nl par t → q ∈ inorder t → is_Some (st !! q).
Proof.
  revert par. induction t as [|c l IHl x r IHr]; intros par; simpl; [set_solver|].
  intros (Hx & Hl & Hr) [Hq|[->|Hq]%elem_of_cons]%elem_of_app; eauto.
Qed.

Lemma holds_fuel s t : holds s t → (length (inorder t) < size (nodes s))%nat.
Proof.
  intros [_ Hrep Hnd Hnil _ [np Hs]].
  assert (list_to_set (nil s :: inorder t) ⊆ dom (nodes s)) as Hsub.
  { intros q [->|Hq]%elem_of_list_to_set%elem_of_cons; apply elem_of_dom; [by rewrite Hs|].
    by eapply rep_nodes. }
  apply subseteq_size in Hsub. rewrite size_list_to_set in Hsub by (by constructor).
  rewrite size_dom in Hsub. simpl in Hsub. lia.
Qed.

Lemma holds_ctx_fuel s k t : holds s (plug k t) → (length k < fuel_of s)%nat.
Proof.
  intros H. apply holds_fuel in H. rewrite inorder_plug, length_app in H.
  pose proof (ctx_length k). unfold fuel_of. lia.
Qed.

Lemma holds_top_ne s k c l x r : holds s (plug k (Node c l x r)) → x ≠ nil s ∧ x ≠ 0.
Proof. intros (_ & _ & _ & _ & Hn & H0 & _)%holds_plug. simpl in *. set_solver. Qed.

(** ** Keys

    A comparator orders nodes by a key; equal keys go to the right. *)
Section keys.
Context (key : Z → Z).

(** The nodes in key order. *)
Definition sorted (l : list Z) : Prop := StronglySorted (λ a b, key a ≤ key b) l.

(** Insertion into a sorted sequence, after the nodes with the same key. *)
Fixpoint ins (x : Z) (l : list Z) : list Z :=
  match l with
  | [] => [x]
  | y :: l => if key x <? key y then x :: y :: l else y :: ins x l
  end.

(** Insertion at a leaf. *)
Fixpoint tins (x : Z) (t : tree) : tree :=
  match t with
  | Leaf => Node RED Leaf x Leaf
  | Node c l y r => if key x <? key y then Node c (tins x l) y r else Node c l y (tins x r)
  end.

Lemma sorted_app l1 y l2 :
  sorted (l1 ++ y :: l2) →
  sorted l1 ∧ sorted l2 ∧ Forall (λ a, key a ≤ key y) l1 ∧ Forall (λ b, key y ≤ key b) l2.
Proof.
  unfold sorted. intros (Hc & H1 & H2)%StronglySorted_app.
  inversion H2; subst. split_and!; try done.
  apply Forall_forall. intros a Ha. apply Hc; set_solver.
Qed.

Lemma ins_below x l1 y l2 :
  key x < key y → ins x (l1 ++ y :: l2) = ins x l1 ++ y :: l2.
Proof.
  intros H. induction l1 as [|z l1 IH]; simpl.
  - by rewrite (proj2 (Z.ltb_lt _ _) H).
  - case_match; [done|]. by rewrite IH.
Qed.

Lemma ins_above x l1 y l2 :
  key y ≤ key x → Forall (λ a, key a ≤ key y) l1 →
  ins x (l1 ++ y :: l2) = l1 ++ y :: ins x l2.
Proof.
  intros H Hl. induction Hl as [|z l1 Hz _ IH]; simpl.
  - by rewrite (proj2 (Z.ltb_ge _ _)) by lia.
  - rewrite (proj2 (Z.ltb_ge _ _)) by lia. by rewrite IH.
Qed.

Lemma inorder_tins x t : sorted (inorder t) → inorder (tins x t) = ins x (inorder t).
Proof.
  induction t as [|c l IHl y r IHr]; simpl; [done|].
  intros (Hl & Hr & Hly & Hyr)%sorted_app.
  destruct (Z.ltb_spec (key x) (key y)); simpl.
  - by rewrite IHl, ins_below.
  - by rewrite IHr, ins_above by (done || lia).
Qed.

Lemma ins_perm x l : ins x l ≡ₚ x :: l.
Proof.
  induction l as [|y l IH]; simpl; [done|]. case_match; [done|]. rewrite IH. solve_Permutation.
Qed.

Lemma ins_sorted x l : sorted l → sorted (ins x l).
Proof.
  unfold sorted. induction 1 as [|y l Hl IH Hy]; simpl; [by repeat constructor|].
  destruct (Z.ltb_spec (key x) (key y)).
  - constructor; [by constructor|]. constructor; [lia|].
    eapply Forall_impl; [exact Hy|]. simpl. lia.
  - constructor; [done|]. rewrite ins_perm. by constructor.
Qed.

(** *** The descent *)

Context (cmp : Z → Z → Z).
Hypothesis cmp_key : ∀ a b, a ≠ 0 → b ≠ 0 → (cmp a b <? 0) = (key a <? key b).

Definition side (x p : Z) : dir := if cmp x p <? 0 then DL else DR.
Definition turn_ok (x : Z) (k : list frame) : Prop :=
  match k with [] => True | f :: _ => f_dir f = side x (f_node f) end.

Lemma descend_ok fuel x s k t :
  x ≠ 0 → holds s (plug k t) → turn_ok x k → (length (inorder t) ≤ fuel)%nat →
  wp (descend (cmp x) fuel (top_ctx (nil s) k) (top (nil s) t)) (λ p s',
    s' = s ∧ ∃ k', plug k t = plug k' Leaf ∧ p = top_ctx (nil s) k' ∧ turn_ok x k' ∧
      plug k (tins x t) = plug k' (Node RED Leaf x Leaf) ∧ (k' = [] → t = Leaf ∧ k = [])) s.
Proof.
  intros Hx0. revert k t. induction fuel as [|fuel IH]; intros k t H Hk Hf.
  all: destruct t as [|c l y r].
  1,3: cbn [descend]; apply wp_bind; (eapply wp_Ret; [reflexivity|]); simpl; rewrite Z.eqb_refl;
    apply wp_ret; split; [done|]; by exists k.
  { simpl in Hf. rewrite length_app in Hf. simpl in Hf. lia. }
  cbn [descend]. apply wp_bind. eapply wp_Ret; [reflexivity|]. cbn [top].
  pose proof (holds_node s k DL c l y r H) as Hy.
  rewrite (proj2 (Z.eqb_neq y (nil s))).
  2: { apply (holds_top_ne _ _ _ _ _ _ H). }
  simpl in Hf. rewrite length_app in Hf. simpl in Hf. cbn [tins].
  rewrite <- cmp_key; [|done|].
  2: { intros ->. apply (holds_null _ _ H). rewrite inorder_plug, elem_of_app. left. simpl. rewrite elem_of_app. right. left. }
  destruct (cmp x y <? 0) eqn:E.
  - apply wp_bind. eapply (wp_get_child DL); [exact Hy|].
    eapply wp_mono; [apply (IH (mk_frame DL c y r :: k) l); [exact H|by unfold turn_ok, side; simpl; rewrite E|lia]|].
    intros p s' (-> & k' & H1 & H2 & H3 & H4 & H5). split; [done|]. exists k'.
    split_and!; [done..|]. by intros [_ ?]%H5.
  - apply wp_bind. eapply (wp_get_child DR); [exact Hy|].
    eapply wp_mono; [apply (IH (mk_frame DR c y l :: k) r); [exact H|by unfold turn_ok, side; simpl; rewrite E|lia]|].
    intros p s' (-> & k' & H1 & H2 & H3 & H4 & H5). split; [done|]. exists k'.
    split_and!; [done..|]. by intros [_ ?]%H5.
Qed.
End keys.

(** Attaching a fresh node at a leaf. *)
Lemma attach_ok x d c p sb k s :
  holds s (plug (mk_frame d c p sb :: k) Leaf) →
  x ∉ ctx_nodes (mk_frame d c p sb :: k) → x ≠ nil s → x ≠ 0 →
  nodes s !! x = Some (mk_rbnode RED p (nil s) (nil s)) →
  wp (set_child d p x) (λ _ s', holds s' (plug (mk_frame d c p sb :: k) (Node RED Leaf x Leaf))) s.
Proof.
  intros H Hx Hxn Hx0 Hnode. pose proof (holds_frame _ _ _ _ _ _ _ H) as Hp.
  apply holds_plug in H as (Hroot & _ & (_ & Hsb & Hk) & Hnd & Hnil & Hnull & np & Hs).
  simpl in *. apply NoDup_cons in Hnd as [Hpn Hnd].
  eapply wp_upd_child; [exact Hp|]. intros s' Hr Ho Hp'.
  rewrite rec_col, rec_parent, rec_far in Hp'. pose proof (proj1 Ho) as E.
  apply (holds_plug s' (mk_frame d c p sb :: k)). rewrite E. simpl. split_and!.
  - rewrite Hr, Hroot. apply (top_plug_cons (nil s) (mk_frame d c p sb) k).
  - rewrite (proj2 Ho) by set_solver. done.
  - done.
  - done.
  - done.
  - eapply rep_frame; [exact Ho|set_solver|done].
  - eapply rep_ctx_frame; [exact Ho|set_solver|done].
  - constructor; [set_solver|by constructor].
  - set_solver.
  - set_solver.
  - exists np. rewrite (proj2 Ho) by set_solver. done.
Qed.

(** ** The abstract view: the nodes in key order *)

(** [s] is a red-black tree whose nodes, in key order, are [l]. *)
Definition tree_ok (key : Z → Z) (s : rbtree) (l : list Z) : Prop :=
  ∃ t n, holds s t ∧ rbt BLACK n t ∧ inorder t = l ∧ sorted key l.

(** Stores at addresses outside the tree do not matter. *)
Lemma holds_other s s' t l :
  only_in l s s' → root s' = root s → (∀ q, q ∈ inorder t → q ∉ l) → nil s ∉ l →
  holds s t → holds s' t.
Proof.
  intros Ho Hr Hl Hn [H1 H2 H3 H4 H5 [np H6]]. pose proof (proj1 Ho) as E.
  constructor; rewrite ?E, ?Hr; try done.
  - by eapply rep_frame.
  - exists np. by rewrite (proj2 Ho).
Qed.

(** Blackening the root. *)
Lemma blacken_ok s c n t :
  holds s t → t ≠ Leaf → rbt c n t →
  wp (set_col (root s) BLACK) (λ _ s',
    ∃ t' m, holds s' t' ∧ rbt BLACK m t' ∧ inorder t' = inorder t) s.
Proof.
  intros H Ht Hrb. destruct t as [|c' l x r]; [done|].
  rewrite (holds_root _ _ H). simpl top.
  eapply wp_mono; [exact (set_col_ok s [] DL c' BLACK l x r H)|].
  intros [] s' [H' _]. exists (Node BLACK l x r).
  inversion Hrb; subst; eauto with kern.
Qed.

(** *** The sentinel's address never changes *)

Definition keeps_nil {A} (m : M rbtree A) : Prop :=
  ∀ s, match m s with Ret _ s' => nil s' = nil s | _ => True end.

Lemma keeps_nil_bind {A B} (m : M rbtree A) (k : A → M rbtree B) :
  keeps_nil m → (∀ a, keeps_nil (k a)) → keeps_nil (m ≫= k).
Proof.
  intros Hm Hk s. specialize (Hm s). unfold mbind, M_bind. destruct (m s) as [a s1| |]; [|done..].
  specialize (Hk a s1). destruct (k a s1); [congruence|done..].
Qed.

Lemma keeps_nil_if {A} (b : bool) (m1 m2 : M rbtree A) :
  keeps_nil m1 → keeps_nil m2 → keeps_nil (if b then m1 else m2).
Proof. by destruct b. Qed.

Lemma keeps_nil_decide {A} P `{Decision P} (m1 m2 : M rbtree A) :
  keeps_nil m1 → keeps_nil m2 → keeps_nil (if decide P then m1 else m2).
Proof. by destruct (decide P). Qed.

Lemma keeps_nil_deref {A} (f : rbtree → option A) : keeps_nil (deref f).
Proof. intros s. unfold deref. by destruct (f s). Qed.

Lemma keeps_nil_mret {A} (a : A) : keeps_nil (mret a).
Proof. done. Qed.

Lemma keeps_nil_get : keeps_nil get.
Proof. done. Qed.

Lemma keeps_nil_gets {A} (f : rbtree → A) : keeps_nil (gets f).
Proof. done. Qed.

Lemma keeps_nil_spin {A} : keeps_nil (spin : M rbtree A).
Proof. done. Qed.

Lemma keeps_nil_root v : keeps_nil (set_root v).
Proof. done. Qed.

Lemma keeps_nil_upd p f : keeps_nil (upd_node p f).
Proof. apply keeps_nil_bind; [apply keeps_nil_deref|done]. Qed.

Create HintDb keeps.
#[export] Hint Resolve keeps_nil_deref keeps_nil_mret keeps_nil_get keeps_nil_gets keeps_nil_root keeps_nil_spin
  keeps_nil_upd : keeps.

Ltac keeps := repeat first
  [ solve [auto with keeps] | apply keeps_nil_bind; intros | apply keeps_nil_if | apply keeps_nil_decide
  | case_match ].

Lemma keeps_nil_field {A} p (f : rbnode → A) : keeps_nil (n ← node_at p; mret (f n)).
Proof. apply keeps_nil_bind; [apply keeps_nil_deref|done]. Qed.

Lemma keeps_nil_fields p :
  keeps_nil (get_col p) ∧ keeps_nil (get_parent p) ∧ keeps_nil (get_left p) ∧ keeps_nil (get_right p).
Proof. split_and!; apply keeps_nil_field. Qed.

#[export] Hint Extern 1 (keeps_nil (get_col _)) => apply keeps_nil_fields : keeps.
#[export] Hint Extern 1 (keeps_nil (get_parent _)) => apply keeps_nil_fields : keeps.
#[export] Hint Extern 1 (keeps_nil (get_left _)) => apply keeps_nil_fields : keeps.
#[export] Hint Extern 1 (keeps_nil (get_right _)) => apply keeps_nil_fields : keeps.
#[export] Hint Extern 1 (keeps_nil (set_col _ _)) => apply keeps_nil_upd : keeps.
#[export] Hint Extern 1 (keeps_nil (set_parent _ _)) => apply keeps_nil_upd : keeps.
#[export] Hint Extern 1 (keeps_nil (set_left _ _)) => apply keeps_nil_upd : keeps.
#[export] Hint Extern 1 (keeps_nil (set_right _ _)) => apply keeps_nil_upd : keeps.

Lemma keeps_nil_set_child d p v : keeps_nil (set_child d p v).
Proof. destruct d; apply keeps_nil_upd. Qed.

Lemma keeps_nil_get_child d p : keeps_nil (get_child d p).
Proof. destruct d; apply keeps_nil_field. Qed.

Lemma keeps_nil_redirect p o v : keeps_nil (redirect p o v).
Proof. unfold redirect. keeps. Qed.
#[export] Hint Resolve keeps_nil_set_child keeps_nil_get_child keeps_nil_redirect : keeps.

Lemma keeps_nil_rotate d x : keeps_nil (rotate d x).
Proof. unfold rotate. keeps. Qed.
#[export] Hint Resolve keeps_nil_rotate : keeps.

Lemma keeps_nil_insert_side d x : keeps_nil (insert_fixup_side d x).
Proof. unfold insert_fixup_side. keeps. Qed.
#[export] Hint Resolve keeps_nil_insert_side : keeps.

Lemma keeps_nil_insert_fixup fuel x : keeps_nil (insert_fixup fuel x).
Proof. revert x. induction fuel as [|fuel IH]; intros x; [done|]. cbn [insert_fixup]. keeps. Qed.

Lemma keeps_nil_descend cmp fuel p x : keeps_nil (descend cmp fuel p x).
Proof. revert p x. induction fuel as [|fuel IH]; intros p x; cbn [descend]; keeps. Qed.
#[export] Hint Resolve keeps_nil_insert_fixup keeps_nil_descend : keeps.

Lemma wp_keeps {A} (m : M rbtree A) Q s :
  wp m Q s → keeps_nil m → wp m (λ a s', Q a s' ∧ nil s' = nil s) s.
Proof. unfold wp. intros H Hk. specialize (Hk s). by destruct (m s). Qed.

(** A red-black tree is one from each of its nodes. *)
Lemma rbt_unplug n k t : rbt BLACK n (plug k t) → ∃ c m, rbt c m t ∧ rbt_ctx c m k.
Proof.
  revert t. induction k as [|[d c x sb] k IH]; intros t H; simpl in H; [eauto with kern|].
  destruct (IH _ H) as (c' & m & Ht & Hk).
  destruct d; inversion Ht; subst; eauto with kern.
Qed.

Section insert.
Context (key : Z → Z) (cmp : Z → Z → Z).
Hypothesis cmp_key : ∀ a b, a ≠ 0 → b ≠ 0 → (cmp a b <? 0) = (key a <? key b).

(** The body of [rbtree_insert] on a tree that has nodes. *)
Lemma insert_nonempty_ok fuel n s t x :
  holds s t → t ≠ Leaf → rbt BLACK n t → x ∉ inorder t → x ≠ nil s → x ≠ 0 →
  nodes s !! x = Some (mk_rbnode RED (nil s) (nil s) (nil s)) →
  (length (inorder t) < fuel)%nat →
  wp (parent ← descend (cmp x) fuel (nil s) (root s);
      set_parent x parent;;
      (if cmp x parent <? 0 then set_left parent x else set_right parent x);;
      insert_fixup fuel x;;
      t ← get;
      set_col (root t) BLACK)
    (λ _ s', ∃ t' m, holds s' t' ∧ rbt BLACK m t' ∧ inorder t' = inorder (tins key x t)) s.
Proof.
  intros H Ht Hrb Hx Hxn Hx0 Hnode Hf. rewrite (holds_root _ _ H).
  apply wp_bind. eapply wp_mono; [apply (descend_ok key cmp cmp_key fuel x s [] t); [done|done|done|lia]|].
  intros p s0 (-> & k & Hk & -> & Hturn & Hins & Hk0). simpl in Hk, Hins.
  destruct k as [|[d c p sb] k]; [by destruct Ht, Hk0|]. simpl in Hturn. simpl top_ctx.
  apply wp_bind. eapply wp_upd; [exact Hnode|]. intros s1 Hr1 H1 Hx1.
  assert (x ∉ ctx_nodes (mk_frame d c p sb :: k)) as Hxk.
  { rewrite Hk, inorder_plug in Hx. done. }
  pose proof (proj1 H1) as E1.
  assert (holds s1 (plug (mk_frame d c p sb :: k) Leaf)) as Hh1.
  { rewrite <- Hk. eapply holds_other; [exact H1|done|set_solver|set_solver|done]. }
  apply wp_bind. replace (if cmp x p <? 0 then set_left p x else set_right p x) with (set_child d p x).
  2: { rewrite Hturn. unfold side. by destruct (cmp x p <? 0). }
  eapply wp_mono.
  { apply attach_ok; [exact Hh1|done|congruence|done|]. rewrite Hx1, E1. done. }
  intros [] s2 Hh2.
  rewrite Hk in Hrb. destruct (rbt_unplug _ _ _ Hrb) as (cl & m & Hl & Hctx). inversion Hl; subst.
  apply wp_bind. eapply wp_mono.
  { eapply (insert_fixup_ok fuel 0); [exact Hh2|by repeat constructor|done|].
    rewrite inorder_plug, length_app in Hf. pose proof (ctx_length (mk_frame (side cmp x p) c p sb :: k)). lia. }
  intros [] s3 (c' & m & t3 & H3 & Hin3 & Hrb3).
  apply wp_bind. eapply wp_Ret; [reflexivity|]. cbn beta.
  eapply wp_mono; [eapply blacken_ok; [exact H3| |exact Hrb3]|].
  { intros ->. simpl in Hin3. symmetry in Hin3. apply (f_equal length) in Hin3.
    change (plug k _) with (plug (mk_frame (side cmp x p) c p sb :: k) (Node RED Leaf x Leaf)) in Hin3.
    rewrite inorder_plug in Hin3. done. }
  intros [] s4 (t' & m' & H4 & Hrb4 & Hin4).
  exists t', m'. split_and!; [done..|]. rewrite Hin4, Hin3, Hins. done.
Qed.
End insert.

Lemma upd_node_run p f n s :
  nodes s !! p = Some n →
  upd_node p f s = Ret tt (mk_rbtree (root s) (nil s) (<[p := f n]> (nodes s))).
Proof. intros H. unfold upd_node, node_at, deref, mbind, M_bind. by rewrite H. Qed.

(** [rbtree_insert] puts the new node at its place in key order, after the
    nodes with an equal key, and the tree stays red-black. *)
Lemma rbtree_insert_run key cmp s l x :
  (∀ a b, a ≠ 0 → b ≠ 0 → (cmp a b <? 0) = (key a <? key b)) →
  tree_ok key s l → x ∉ l → x ≠ nil s → x ≠ 0 →
  ∃ s', rbtree_insert x cmp s = Ret tt s' ∧ nil s' = nil s ∧ tree_ok key s' (ins key x l).
Proof.
  intros Hcmp (t & n & H & Hrb & <- & Hs) Hx Hxn Hx0.
  set (s1 := mk_rbtree (root s) (nil s) (<[x := mk_rbnode RED (nil s) (nil s) (nil s)]> (nodes s))).
  assert (Ho : only_in [x] s s1) by (destruct s; apply only_in_insert; left).
  assert (H1 : holds s1 t) by (eapply holds_other; [exact Ho|done|set_solver|set_solver|done]).
  assert (Hx1 : nodes s1 !! x = Some (mk_rbnode RED (nil s1) (nil s1) (nil s1))) by apply lookup_insert_eq.
  unfold rbtree_insert. rewrite (bind_Ret _ _ s s s) by done. cbn beta.
  rewrite (proj2 (Z.eqb_neq x 0)) by done.
  rewrite (bind_Ret _ _ s tt s1) by done.
  destruct t as [|c l y r].
  - pose proof (holds_root _ _ H) as Hr. simpl in Hr. rewrite Hr, Z.eqb_refl.
    rewrite (bind_Ret _ _ s1 tt (mk_rbtree x (nil s) (nodes s1))) by done.
    eexists. split.
    { exact (upd_node_run x _ _ (mk_rbtree x (nil s) (nodes s1)) Hx1). } split; [done|]. exists (Node BLACK Leaf x Leaf), 1%nat. split_and!.
    + destruct (holds_sentinel _ _ H1) as [np Hnp].
      constructor; simpl; try set_solver.
      * by rewrite lookup_insert_eq.
      * constructor; [set_solver|constructor].
      * exists np. by rewrite lookup_insert_ne.
    + eauto with kern.
    + done.
    + by repeat constructor.
  - rewrite (proj2 (Z.eqb_neq (root s) (nil s))).
    2: { rewrite (holds_root _ _ H). apply (holds_top_ne s [] _ _ _ _ H). }
    pose proof (insert_nonempty_ok key cmp Hcmp (fuel_of s) n s1 (Node c l y r) x H1 ltac:(done) Hrb Hx Hxn Hx0 Hx1) as W.
    apply wp_keeps in W.
    + apply wp_run in W as ([] & s' & E & (t' & m & H' & Hrb' & Hin') & Hn'). exists s'.
      split; [exact E|]. split; [done|]. exists t', m. split_and!; [done|done| |by apply ins_sorted].
      rewrite Hin'. by apply inorder_tins.
    + unfold fuel_of. pose proof (holds_fuel _ _ H). lia.
    + keeps.
Qed.
