(* ===== verification/RbDelete.v ===== *)
(** * Deletion from red-black trees (kernel/lib/rbtree.c)

    The proof that [rbtree_delete] removes its node and keeps the red-black
    discipline: the turns of [delete_fixup] ([delete_fixup_ok]), the splicing
    of a node with at most one subtree ([splice_ok]), the successor taking
    the place of a node with two ([takeover_ok]), and their composition
    ([rbtree_delete_run]). *)

From stdpp Require Import base tactics list gmap sorting.
From Stdlib Require Import ZArith Lia.
From S2P Require Import Prelude Allocator RbTree.

Open Scope Z_scope.

(** ** The loop of [delete_fixup] *)

(** A subtree whose paths lack one black node: black, or with a red root that
    only has to be blackened. *)
Definition rbt_weak (n : nat) (t : tree) : Prop :=
  rbt BLACK n t ∨ ∃ cl cr l x r, t = Node RED l x r ∧ rbt cl n l ∧ rbt cr n r.

(** When the subtree in the hole is empty, the sentinel stands for it and
    records the parent. *)
Definition hole_ok (s : rbtree) (k : list frame) (t : tree) : Prop :=
  t = Leaf → nil_parent s = Some (top_ctx (nil s) k).

Lemma wp_parent_top s k t (Q : Z → rbtree → Prop) :
  holds s (plug k t) → hole_ok s k t → Q (top_ctx (nil s) k) s →
  wp (get_parent (top (nil s) t)) Q s.
Proof.
  intros H Hh HQ. destruct t as [|c l x r]; simpl.
  - specialize (Hh eq_refl). unfold nil_parent in Hh. apply fmap_Some in Hh as (n & Hn & E).
    eapply wp_get_parent; [done|]. by rewrite <- E.
  - eapply wp_get_parent; [exact (holds_node s k DL c l x r H)|]. done.
Qed.

Lemma wp_col_near s k d c a x b (Q : color → rbtree → Prop) :
  holds s (plug k (node_of d c a x b)) → Q (color_of a) s → wp (get_col (top (nil s) a)) Q s.
Proof. intros H. by apply (wp_col_top s (mk_frame d c x b :: k)). Qed.

Lemma wp_col_far s k d c a x b (Q : color → rbtree → Prop) :
  holds s (plug k (node_of d c a x b)) → Q (color_of b) s → wp (get_col (top (nil s) b)) Q s.
Proof. rewrite <- node_of_opp. apply wp_col_near. Qed.

Lemma hole_ok_same s s' k k' t :
  same_nil s s' → top_ctx (nil s) k' = top_ctx (nil s) k → hole_ok s k t → hole_ok s' k' t.
Proof. intros [E1 E2] Hk H Ht. specialize (H Ht). unfold nil_parent in *. by rewrite E1, E2, H, Hk. Qed.

Lemma same_nil_trans s1 s2 s3 : same_nil s1 s2 → same_nil s2 s3 → same_nil s1 s3.
Proof. intros [E1 E2] [E3 E4]. split; [congruence|]. rewrite E1 in E4. congruence. Qed.

(** Colouring the root of a sibling. *)
Lemma set_col_far s k d c a x d' c1 c2 l y r :
  holds s (plug k (node_of d c a x (node_of d' c1 l y r))) →
  wp (set_col y c2) (λ _ s',
    holds s' (plug k (node_of d c a x (node_of d' c2 l y r))) ∧ same_nil s s') s.
Proof.
  intros H. rewrite <- node_of_opp in H.
  eapply wp_mono; [exact (set_col_ok s (mk_frame (opp d) c x a :: k) d' c1 c2 l y r H)|].
  intros [] s' [H' Hn]. cbn [plug f_dir f_col f_node f_sib] in H'. by rewrite node_of_opp in H'.
Qed.

Lemma delete_case1_ok d s k t p near b far :
  holds s (plug (mk_frame d BLACK p (node_of d RED near b far) :: k) t) →
  hole_ok s (mk_frame d BLACK p (node_of d RED near b far) :: k) t →
  wp (delete_case1 d (top (nil s) t) b) (λ b' s',
    holds s' (plug (mk_frame d RED p near :: mk_frame d BLACK b far :: k) t) ∧
    same_nil s s' ∧ b' = top (nil s) near) s.
Proof.
  intros H Hh. unfold delete_case1. cbn [plug f_dir f_col f_node f_sib] in *.
  apply wp_bind. eapply wp_mono; [exact (set_col_far _ _ _ _ _ _ _ RED BLACK _ _ _ H)|].
  intros [] s1 [H1 N1]. assert (E1 := proj1 N1).
  apply wp_bind. eapply wp_get_parent.
  { eapply (holds_node s1 (mk_frame (opp d) BLACK p t :: k) d BLACK near b far).
    cbn [plug f_dir f_col f_node f_sib]. rewrite node_of_opp. exact H1. }
  rewrite rec_parent. cbn [top_ctx f_node].
  apply wp_bind. eapply wp_mono; [exact (set_col_ok _ _ _ BLACK RED _ _ _ H1)|].
  intros [] s2 [H2 N2]. pose proof (same_nil_trans _ _ _ N1 N2) as N12.
  apply wp_bind. rewrite <- (proj1 N12).
  eapply (wp_parent_top s2 (mk_frame d RED p (node_of d BLACK near b far) :: k) t); [exact H2| |].
  { by eapply hole_ok_same. }
  cbn [top_ctx f_node].
  apply wp_bind. eapply wp_mono; [exact (rotate_ok _ _ _ _ _ _ _ _ _ _ H2)|].
  intros [] s3 [H3 N3]. pose proof (same_nil_trans _ _ _ N12 N3) as N13.
  apply wp_bind. rewrite (proj1 N12), <- (proj1 N13).
  eapply (wp_parent_top s3 (mk_frame d RED p near :: mk_frame d BLACK b far :: k) t); [exact H3| |].
  { by eapply hole_ok_same. }
  cbn [top_ctx f_node].
  eapply wp_get_child; [exact (holds_frame s3 d RED p near (mk_frame d BLACK b far :: k) t H3)|].
  rewrite rec_far. done.
Qed.

Lemma delete_case3_ok d s k cp t p a x e b far :
  holds s (plug (mk_frame d cp p (node_of d BLACK (node_of d RED a x e) b far) :: k) t) →
  hole_ok s (mk_frame d cp p (node_of d BLACK (node_of d RED a x e) b far) :: k) t →
  wp (delete_case3 d (top (nil s) t) b x) (λ b' s',
    holds s' (plug (mk_frame d cp p (node_of d BLACK a x (node_of d RED e b far)) :: k) t) ∧
    same_nil s s' ∧ b' = x) s.
Proof.
  intros H Hh. unfold delete_case3. cbn [plug f_dir f_col f_node f_sib] in *.
  rewrite <- node_of_opp in H.
  apply wp_bind. eapply wp_mono.
  { exact (set_col_ok s (mk_frame d BLACK b far :: mk_frame (opp d) cp p t :: k) d RED BLACK a x e H). }
  intros [] s1 [H1 N1].
  apply wp_bind. eapply wp_mono.
  { exact (set_col_ok s1 (mk_frame (opp d) cp p t :: k) d BLACK RED _ b far H1). }
  intros [] s2 [H2 N2]. pose proof (same_nil_trans _ _ _ N1 N2) as N12.
  cbn [plug f_dir f_col f_node f_sib] in H2.
  rewrite <- (node_of_opp d RED), <- (node_of_opp d BLACK) in H2.
  apply wp_bind. eapply wp_mono.
  { exact (rotate_ok _ _ _ _ _ _ _ _ (mk_frame (opp d) cp p t :: k) _ H2). }
  intros [] s3 [H3 N3]. pose proof (same_nil_trans _ _ _ N12 N3) as N13.
  cbn [plug f_dir f_col f_node f_sib] in H3. rewrite !node_of_opp in H3.
  apply wp_bind. rewrite <- (proj1 N13).
  eapply (wp_parent_top s3 (mk_frame d cp p (node_of d BLACK a x (node_of d RED e b far)) :: k) t);
    [exact H3|by eapply hole_ok_same|]. cbn [top_ctx f_node].
  eapply wp_get_child; [exact (holds_frame s3 d cp p _ k t H3)|].
  rewrite rec_far, top_node_of. done.
Qed.

Lemma delete_case4_ok d s k cp t p near b c y far :
  holds s (plug (mk_frame d cp p (node_of d BLACK near b (node_of d RED c y far)) :: k) t) →
  hole_ok s (mk_frame d cp p (node_of d BLACK near b (node_of d RED c y far)) :: k) t →
  wp (delete_case4 d (top (nil s) t) b) (λ _ s',
    holds s' (plug (mk_frame d BLACK p near :: mk_frame d cp b (node_of d BLACK c y far) :: k) t) ∧
    same_nil s s') s.
Proof.
  intros H Hh. unfold delete_case4.
  apply wp_bind. eapply wp_parent_top; [exact H|exact Hh|]. cbn [top_ctx f_node].
  apply wp_bind. eapply wp_get_col; [exact (holds_frame s d cp p _ k t H)|]. rewrite rec_col.
  cbn [plug f_dir f_col f_node f_sib] in H.
  apply wp_bind. eapply wp_mono; [exact (set_col_far _ _ _ _ _ _ _ BLACK cp _ _ _ H)|].
  intros [] s1 [H1 N1]. rewrite <- (proj1 N1).
  apply wp_bind. eapply (wp_parent_top s1 (mk_frame d cp p _ :: k) t);
    [exact H1|by eapply hole_ok_same|]. cbn [top_ctx f_node].
  apply wp_bind. eapply wp_mono; [exact (set_col_ok s1 k d cp BLACK _ p _ H1)|].
  intros [] s2 [H2 N2]. pose proof (same_nil_trans _ _ _ N1 N2) as N12.
  pose proof H2 as H2'. rewrite <- node_of_opp in H2'.
  apply wp_bind. eapply wp_get_child.
  { exact (holds_node s2 (mk_frame (opp d) BLACK p t :: k) d cp near b _ H2'). }
  rewrite rec_far, top_node_of.
  apply wp_bind. eapply wp_mono.
  { exact (set_col_far s2 (mk_frame (opp d) BLACK p t :: k) d cp near b d RED BLACK c y far H2'). }
  intros [] s3 [H3 N3]. pose proof (same_nil_trans _ _ _ N12 N3) as N13.
  cbn [plug f_dir f_col f_node f_sib] in H3. rewrite node_of_opp in H3.
  rewrite (proj1 N1), <- (proj1 N13).
  apply wp_bind. eapply (wp_parent_top s3 (mk_frame d BLACK p _ :: k) t);
    [exact H3|by eapply hole_ok_same|]. cbn [top_ctx f_node].
  eapply wp_mono; [exact (rotate_ok _ _ _ _ _ _ _ _ _ _ H3)|].
  intros [] s4 [H4 N4]. split; [exact H4|by eapply same_nil_trans].
Qed.

(** The state of the fix-up loop: the subtree in the hole lacks one black
    node, or the tree is whole again. *)
Definition deficit (s : rbtree) (k : list frame) (t : tree) : Prop :=
  holds s (plug k t) ∧ hole_ok s k t ∧ ∃ n, rbt_weak n t ∧ rbt_ctx BLACK (S n) k.

Definition repaired (s : rbtree) (k : list frame) (t : tree) : Prop :=
  holds s (plug k t) ∧ ∃ n, rbt BLACK n t ∧ rbt_ctx BLACK n k.

(** What a turn establishes: the hole moves to the parent (and lacks a black
    node there), or the tree is repaired. *)
Definition turn_post (k : list frame) (cp : color) (t : tree) (whole : list Z)
    (o : option Z) (s' : rbtree) : Prop :=
  match o with
  | Some y => ∃ t', y = top (nil s') t' ∧ deficit s' k t' ∧ inorder (plug k t') = whole ∧
      t' ≠ Leaf ∧ color_of t' = cp
  | None => ∃ k', repaired s' k' t ∧ inorder (plug k' t) = whole
  end.

Lemma rbt_red_node d n t : rbt RED n t →
  ∃ a x b, t = node_of d RED a x b ∧ rbt BLACK n a ∧ rbt BLACK n b.
Proof. inversion 1; subst. destruct d; simpl; eauto 10. Qed.

Lemma rbt_black_node d n t : rbt BLACK (S n) t →
  ∃ ca cb a x b, t = node_of d BLACK a x b ∧ rbt ca n a ∧ rbt cb n b.
Proof. inversion 1; subst. destruct d; simpl; eauto 10. Qed.

Lemma inorder_sib d c t x sb sb' :
  inorder sb = inorder sb' → inorder (node_of d c t x sb) = inorder (node_of d c t x sb').
Proof. intros H. destruct d; simpl; by rewrite H. Qed.

Lemma inorder_rotate d c c' c1 c2 a x b y e :
  inorder (node_of d c' (node_of d c a x b) y e) = inorder (node_of d c1 a x (node_of d c2 b y e)).
Proof. destruct d; same_order. Qed.

(** What a path asks of its hole depends on the shape of the siblings only. *)
Lemma rbt_frame_sib c n d cp p p' sb sb' k cs :
  rbt_ctx c n (mk_frame d cp p sb :: k) → rbt cs n sb → rbt cs n sb' →
  rbt_ctx c n (mk_frame d cp p' sb' :: k).
Proof.
  intros Hk Hs Hs'. pose proof (rbt_color _ _ _ Hs) as <-.
  inversion Hk as [|? ? ? ? ? Hr|? ? ? ? ? ? ? Hb]; subst.
  - rewrite (rbt_color _ _ _ Hr) in Hs'. eauto with kern.
  - eauto with kern.
Qed.

(** Case 4 ends the loop. *)
Lemma delete_last_ok d n s k cp t p sb near b far c :
  holds s (plug (mk_frame d cp p (node_of d BLACK near b far) :: k) t) →
  hole_ok s (mk_frame d cp p (node_of d BLACK near b far) :: k) t →
  rbt BLACK n t → rbt_ctx BLACK (S n) (mk_frame d cp p (node_of d BLACK near b far) :: k) →
  rbt c n near → rbt RED n far →
  inorder (node_of d BLACK near b far) = inorder sb →
  wp (delete_case4 d (top (nil s) t) b;; mret None)
    (turn_post k cp t (inorder (plug (mk_frame d cp p sb :: k) t))) s.
Proof.
  intros H Hh Ht Hk Hnear Hfar Hin.
  destruct (rbt_red_node d n far Hfar) as (a & y & e & -> & Ha & He).
  apply wp_bind. eapply wp_mono; [exact (delete_case4_ok _ _ _ _ _ _ _ _ _ _ _ H Hh)|].
  intros [] s2 [H2 N2]. apply wp_ret.
  exists (mk_frame d BLACK p near :: mk_frame d cp b (node_of d BLACK a y e) :: k).
  split; [split; [exact H2|]|].
  - exists n. split; [done|]. inversion Hk; subst; eauto 10 with kern.
  - cbn [plug f_dir f_col f_node f_sib]. apply plug_inorder. etrans; [apply (inorder_rotate d BLACK cp cp BLACK)|].
    apply inorder_sib. etrans; [|exact Hin]. by destruct d.
Qed.

Lemma delete_black_brother_ok d s k cp t p sb n :
  holds s (plug (mk_frame d cp p sb :: k) t) → hole_ok s (mk_frame d cp p sb :: k) t →
  rbt BLACK n t → rbt BLACK (S n) sb → rbt_ctx BLACK (S n) (mk_frame d cp p sb :: k) →
  wp (delete_black_brother d (top (nil s) t) (top (nil s) sb))
     (turn_post k cp t (inorder (plug (mk_frame d cp p sb :: k) t))) s.
Proof.
  intros H Hh Ht Hsb Hk. destruct (rbt_black_node d n sb Hsb) as (cn & cf & near & b & far & -> & Hnear & Hfar).
  rewrite top_node_of. unfold delete_black_brother.
  pose proof H as H'. cbn [plug f_dir f_col f_node f_sib] in H'. rewrite <- node_of_opp in H'.
  pose proof (holds_node s (mk_frame (opp d) cp p t :: k) d BLACK near b far H') as Hb.
  apply wp_bind. eapply wp_get_child; [exact Hb|]. rewrite rec_near.
  apply wp_bind. eapply (wp_col_near s (mk_frame (opp d) cp p t :: k)); [exact H'|].
  apply wp_bind. eapply wp_get_child; [exact Hb|]. rewrite rec_far.
  apply wp_bind. eapply (wp_col_far s (mk_frame (opp d) cp p t :: k)); [exact H'|].
  rewrite (rbt_color _ _ _ Hnear), (rbt_color _ _ _ Hfar).
  case_decide as Hc.
  - (* case 2 *)
    destruct Hc as [-> ->].
    apply wp_bind. eapply wp_Ret; [reflexivity|]. cbn beta.
    rewrite (proj2 (Z.eqb_neq b (nil s))).
    2: { exact (holds_frame_ne s (mk_frame d BLACK b far) (mk_frame (opp d) cp p t :: k) near H'). }
    apply wp_bind. eapply wp_mono.
    { exact (set_col_far s k d cp t p d BLACK RED near b far H). }
    intros [] s1 [H1 N1]. rewrite <- (proj1 N1).
    apply wp_bind. eapply (wp_parent_top s1 (mk_frame d cp p _ :: k) t);
      [exact H1|by eapply hole_ok_same|]. apply wp_ret.
    exists (node_of d cp t p (node_of d RED near b far)). cbn [top_ctx f_node].
    split_and!; [by rewrite top_node_of| |cbn [plug f_dir f_col f_node f_sib]; apply plug_inorder; by destruct d|by destruct d..].
    split; [exact H1|]. split; [by destruct d|].
    inversion Hk; subst; eexists; (split; [|by try eapply rbt_ctx_weaken]).
    + right. destruct d; simpl; eauto 10 with kern.
    + left. eauto with kern.
  - (* cases 3 and 4 *)
    apply wp_bind. case_decide as Hf.
    + subst cf. assert (cn = RED) as -> by (destruct cn; naive_solver).
      destruct (rbt_red_node d n near Hnear) as (a & x & e & -> & Ha & He).
      rewrite top_node_of.
      eapply wp_mono; [exact (delete_case3_ok _ _ _ _ _ _ _ _ _ _ _ H Hh)|].
      intros b' s1 (H1 & N1 & ->). rewrite <- (proj1 N1).
      eapply (delete_last_ok d n s1 k cp t p _ a x (node_of d RED e b far));
        [exact H1|by eapply hole_ok_same|done|eapply rbt_frame_sib; [exact Hk|exact Hsb|eauto with kern]|exact Ha|eauto with kern|].
      destruct d; same_order.
    + assert (cf = RED) as -> by (by destruct cf). apply wp_ret.
      by eapply (delete_last_ok d n s k cp t p _ near b far).
Qed.

(** One turn of the loop of [delete_fixup]. *)
Lemma delete_fixup_side_ok d s k cp t p sb n :
  holds s (plug (mk_frame d cp p sb :: k) t) → hole_ok s (mk_frame d cp p sb :: k) t →
  rbt BLACK n t → rbt_ctx BLACK (S n) (mk_frame d cp p sb :: k) →
  wp (delete_fixup_side d (top (nil s) t)) (λ o s',
    match o with
    | Some y => ∃ k' t', y = top (nil s') t' ∧ t' ≠ Leaf ∧ deficit s' k' t' ∧
        inorder (plug k' t') = inorder (plug (mk_frame d cp p sb :: k) t) ∧
        (k' = k ∨ color_of t' = RED)
    | None => ∃ k', repaired s' k' t ∧ inorder (plug k' t) = inorder (plug (mk_frame d cp p sb :: k) t)
    end) s.
Proof.
  intros H Hh Ht Hk. unfold delete_fixup_side.
  apply wp_bind. eapply wp_parent_top; [exact H|exact Hh|]. cbn [top_ctx f_node].
  apply wp_bind. eapply wp_get_child; [exact (holds_frame s d cp p sb k t H)|]. rewrite rec_far.
  apply wp_bind. eapply wp_col_far; [exact H|].
  apply wp_bind. case_decide as Hc.
  - inversion Hk as [|? ? ? ? ? Hsb|? ? cs ? ? ? ? Hsb Hk']; subst;
      rewrite (rbt_color _ _ _ Hsb) in Hc; [done|subst cs].
    destruct (rbt_red_node d _ _ Hsb) as (near & b & far & -> & Hn & Hf). rewrite top_node_of.
    eapply wp_mono; [exact (delete_case1_ok _ _ _ _ _ _ _ _ H Hh)|].
    intros b' s1 (H1 & N1 & ->). rewrite <- (proj1 N1).
    eapply wp_mono; [eapply (delete_black_brother_ok d s1 (mk_frame d BLACK b far :: k) RED t p near n);
      [exact H1|by eapply hole_ok_same|done|done|eauto with kern]|].
    assert (Hin : inorder (plug (mk_frame d RED p near :: mk_frame d BLACK b far :: k) t) =
      inorder (plug (mk_frame d BLACK p (node_of d RED near b far) :: k) t)).
    { cbn [plug f_dir f_col f_node f_sib]. apply plug_inorder. by apply inorder_rotate. }
    rewrite Hin. intros [y|] s2; simpl.
    + intros (t' & -> & Hd & Hin' & Hl & Hcol). exists (mk_frame d BLACK b far :: k), t'. split_and!; try done.
      by right.
    + done.
  - apply wp_ret.
    assert (rbt BLACK (S n) sb) as Hsb.
    { inversion Hk as [|? ? ? ? ? Hsb|? ? cs ? ? ? ? Hsb Hk']; subst; [done|].
      rewrite (rbt_color _ _ _ Hsb) in Hc. by destruct cs. }
    eapply wp_mono; [by eapply (delete_black_brother_ok d s k cp t p sb n)|].
    intros [y|] s2; simpl; [|done]. intros (t' & -> & Hd & Hin' & Hl & Hcol). exists k, t'. split_and!; auto.
Qed.

Lemma keeps_nil_delete_side d x : keeps_nil (delete_fixup_side d x).
Proof. unfold delete_fixup_side, delete_black_brother, delete_case1, delete_case3, delete_case4. keeps. Qed.
#[export] Hint Resolve keeps_nil_delete_side : keeps.

Lemma keeps_nil_delete_loop fuel x : keeps_nil (delete_fixup_loop fuel x).
Proof. revert x. induction fuel as [|fuel IH]; intros x; cbn [delete_fixup_loop]; keeps. Qed.
#[export] Hint Resolve keeps_nil_delete_loop : keeps.

Lemma top_plug_in nl f k t : top nl (plug (f :: k) t) ∈ ctx_nodes (f :: k).
Proof.
  revert f t. induction k as [|g k IH]; intros [d c x sb] t; simpl.
  - rewrite top_node_of. left.
  - right. apply elem_of_app. right. apply IH.
Qed.

(** The node in the hole is the root exactly when the path is empty. *)
Lemma holds_is_root s k t :
  holds s (plug k t) → (top (nil s) t =? root s) = match k with [] => true | _ => false end.
Proof.
  intros H. rewrite (holds_root _ _ H). destruct k as [|f k]; [apply Z.eqb_refl|].
  apply Z.eqb_neq. pose proof (top_plug_in (nil s) f k t) as Hin. intros E. rewrite <- E in Hin.
  apply holds_plug in H as (_ & _ & _ & Hnd & Hnil & _).
  destruct t as [|c l x r]; cbn [top] in Hin; [set_solver|].
  apply NoDup_app in Hnd as (_ & Hnd & _). apply (Hnd x); [simpl; set_solver|done].
Qed.

Lemma delete_fixup_loop_ok fuel s k t :
  deficit s k t → (0 < fuel)%nat ∧ color_of t = RED ∨ (length k < fuel)%nat →
  wp (delete_fixup_loop fuel (top (nil s) t)) (λ p s', ∃ k' t',
    p = top (nil s') t' ∧ inorder (plug k' t') = inorder (plug k t) ∧
    (repaired s' k' t' ∨ deficit s' k' t' ∧ (k' = [] ∨ color_of t' = RED))) s.
Proof.
  revert s k t. induction fuel as [|fuel IH]; intros s k t Hd Hf; [lia|].
  pose proof Hd as (H & Hh & n & Ht & Hk). cbn [delete_fixup_loop].
  apply wp_bind. eapply wp_Ret; [reflexivity|]. cbn beta. rewrite (holds_is_root s k t H).
  destruct k as [|[d cp p sb] k].
  { apply wp_ret. exists [], t. split_and!; auto. }
  apply wp_bind. eapply (wp_col_top s (mk_frame d cp p sb :: k) t); [exact H|].
  case_decide as Hc.
  2: { apply wp_ret. exists (mk_frame d cp p sb :: k), t. split_and!; [done..|]. right.
       split; [done|]. right. by destruct (color_of t). }
  destruct Ht as [Ht|(? & ? & ? & ? & ? & -> & _)]; [|done].
  apply wp_bind. eapply wp_parent_top; [exact H|exact Hh|]. cbn [top_ctx f_node].
  apply wp_bind. eapply (wp_get_child DL); [exact (holds_frame s d cp p sb k t H)|].
  replace (if top (nil s) t =? _ then DL else DR) with d.
  2: { destruct d; simpl; [by rewrite Z.eqb_refl|].
       destruct (Z.eqb_spec (top (nil s) t) (top (nil s) sb)) as [E|]; [|done]. exfalso.
       assert (sb ≠ Leaf) as Hsb by (inversion Hk as [|? ? ? ? ? X|? ? ? ? ? ? ? X]; subst; by inversion X).
       destruct sb as [|cs sl y sr]; [done|].
       destruct t as [|ct l x r].
       - apply holds_plug in H as (_ & _ & _ & _ & Hnil & _). simpl in *. set_solver.
       - by apply (holds_sibling _ _ _ _ _ _ _ _ _ _ H). }
  apply wp_bind. eapply wp_mono; [apply wp_keeps, keeps_nil_delete_side; by eapply delete_fixup_side_ok|].
  intros [y|] s1 [Hpost Hn]; revert Hpost.
  - intros (k' & t' & -> & Hl & Hd' & Hin & Hk').
    eapply wp_mono; [apply (IH s1 k' t' Hd')|].
    { destruct Hf as [[_ Hf]|Hf]; [congruence|]. simpl in Hf.
      destruct Hk' as [->|Hr]; [right; lia|left; split; [lia|done]]. }
    intros q s2 (k2 & t2 & -> & Hin2 & Hor). exists k2, t2. split_and!; [done|congruence|done].
  - intros (k' & Hr & Hin). apply wp_ret. exists k', t. split_and!; [by rewrite Hn|done|by left].
Qed.

Definition blacken (t : tree) : tree :=
  match t with Leaf => Leaf | Node _ l x r => Node BLACK l x r end.

Lemma set_col_top_ok s k t :
  holds s (plug k t) →
  wp (set_col (top (nil s) t) BLACK) (λ _ s', holds s' (plug k (blacken t))) s.
Proof.
  intros H. destruct t as [|c l x r]; simpl.
  - pose proof (holds_sentinel _ _ H) as [np Hs].
    eapply wp_upd; [exact Hs|]. intros s' Hr Ho Hs'. simpl in Hs'.
    pose proof (proj1 Ho) as E.
    destruct H as [H1 H2 H3 H4 H5 H6]. constructor; rewrite ?E; try done.
    + by rewrite Hr.
    + eapply rep_frame; [exact Ho| |done]. intros q Hq ->%list_elem_of_singleton. done.
    + by exists np.
  - eapply wp_mono; [exact (set_col_ok s k DL c BLACK l x r H)|]. by intros [] s' [H' _].
Qed.

Lemma delete_fixup_ok s k t :
  deficit s k t →
  wp (delete_fixup (top (nil s) t)) (λ _ s', ∃ t' n,
    holds s' t' ∧ rbt BLACK n t' ∧ inorder t' = inorder (plug k t)) s.
Proof.
  intros Hd. unfold delete_fixup. apply wp_bind. eapply wp_Ret; [reflexivity|]. cbn beta.
  apply wp_bind. eapply wp_mono.
  { apply (delete_fixup_loop_ok (fuel_of s) s k t Hd). right. eapply holds_ctx_fuel. apply Hd. }
  intros p s1 (k' & t' & -> & Hin & Hor).
  eapply wp_mono; [apply (set_col_top_ok s1 k' t'); destruct Hor as [[H _]|[[H _] _]]; exact H|].
  intros [] s2 H2. exists (plug k' (blacken t')).
  assert (∃ n, rbt BLACK n (plug k' (blacken t'))) as [n Hn].
  { destruct Hor as [(_ & n & Ht & Hk)|((_ & _ & n & Ht & Hk) & Hend)].
    - replace (blacken t') with t' by (by inversion Ht). by eapply rbt_plug.
    - destruct Ht as [Ht|(cl & cr & l & x & r & -> & Hl & Hr)].
      + destruct Hend as [->|Hc]; [|by rewrite (rbt_color _ _ _ Ht) in Hc].
        exists n. simpl. by inversion Ht; subst; eauto with kern.
      + eapply rbt_plug; [|exact Hk]. simpl. eauto with kern. }
  exists n. split_and!; [done|done|]. rewrite <- Hin. apply plug_inorder. by destruct t'.
Qed.

(** ** Splicing a node out *)

Lemma node_of_cases d t : t = Leaf ∨ ∃ c a x b, t = node_of d c a x b.
Proof. destruct t as [|c l x r]; [by left|right]. destruct d; simpl; eauto. Qed.

(** The walk to one end of a subtree. *)
Lemma outermost_ok d fuel s k t :
  holds s (plug k t) → t ≠ Leaf → (length (inorder t) ≤ fuel)%nat →
  wp (outermost d fuel (top (nil s) t)) (λ y s', s' = s ∧ ∃ k2 c far,
    t = plug k2 (node_of d c Leaf y far) ∧ Forall (λ f, f_dir f = d) k2) s.
Proof.
  revert k t. induction fuel as [|fuel IH]; intros k t H Ht Hf.
  { by destruct t; simpl in Hf; [|rewrite length_app in Hf; simpl in Hf; lia]. }
  destruct (node_of_cases d t) as [->|(c & a & x & b & ->)]; [done|]. rewrite top_node_of.
  cbn [outermost]. apply wp_bind. eapply wp_get_child; [exact (holds_node s k d c a x b H)|].
  rewrite rec_near. apply wp_bind. eapply wp_Ret; [reflexivity|]. cbn beta.
  rewrite inorder_node_of in Hf. simpl in Hf. rewrite length_app in Hf.
  destruct a as [|ca la y ra]; cbn [top].
  - rewrite Z.eqb_refl. apply wp_ret. split; [done|]. by exists [], c, b.
  - rewrite (proj2 (Z.eqb_neq y (nil s))).
    2: { apply (holds_top_ne s (mk_frame d c x b :: k) ca la y ra H). }
    eapply wp_mono; [apply (IH (mk_frame d c x b :: k) (Node ca la y ra)); [exact H|done|lia]|].
    intros q s' (-> & k2 & c2 & far & E & Hk2). split; [done|].
    exists (k2 ++ [mk_frame d c x b]), c2, far. rewrite plug_app, E. split; [done|].
    apply Forall_app. by split; [|repeat constructor].
Qed.

(** [rbtree_replace_node] of a node by one of its subtrees: the path now leads
    to the subtree, and the sentinel records the path when it is empty. *)
Lemma replace_ok s k old n q t :
  nil s ∉ old :: ctx_nodes k ++ inorder t → NoDup (old :: ctx_nodes k ++ inorder t) →
  (∃ np, nodes s !! nil s = Some (mk_rbnode BLACK np (nil s) (nil s))) →
  nodes s !! old = Some n → n_parent n = top_ctx (nil s) k →
  rep_ctx (nodes s) (nil s) k old → rep (nodes s) (nil s) q t →
  wp (rbtree_replace_node old (top (nil s) t)) (λ _ s',
    rep_ctx (nodes s') (nil s) k (top (nil s) t) ∧ rep (nodes s') (nil s) (top_ctx (nil s) k) t ∧
    only_in (nil s :: ctx_nodes k ++ inorder t) s s' ∧
    root s' = match k with [] => top (nil s) t | _ => root s end ∧
    (∃ np, nodes s' !! nil s = Some (mk_rbnode BLACK np (nil s) (nil s))) ∧ hole_ok s' k t) s.
Proof.
  intros Hnil Hnd [np Hs] Hold Hpar Hctx Hrep. unfold rbtree_replace_node.
  apply NoDup_cons in Hnd as [Hold' Hnd]. apply NoDup_app in Hnd as (Hndk & Hdisj & Hndt).
  apply wp_bind. eapply wp_get_parent; [exact Hold|]. rewrite Hpar.
  apply wp_bind. eapply wp_mono.
  { apply (redirect_ok k old (top (nil s) t) s); [set_solver| |done]. constructor; [set_solver|done]. }
  intros [] s1 (Hctx1 & H1 & Hr1). pose proof (proj1 H1) as E1.
  apply wp_bind. eapply wp_get_parent; [rewrite (proj2 H1) by set_solver; exact Hold|]. rewrite Hpar.
  assert (Hrep1 : rep (nodes s1) (nil s) q t) by (eapply rep_frame; [exact H1|set_solver|done]).
  assert (Hs1 : nodes s1 !! nil s = Some (mk_rbnode BLACK np (nil s) (nil s))).
  { rewrite (proj2 H1) by set_solver. done. }
  destruct t as [|c l x r].
  - eapply wp_upd; [exact Hs1|]. intros s2 Hr2 H2 Hs2. simpl in Hs2. split_and!.
    + eapply rep_ctx_frame; [exact H2|set_solver|done].
    + done.
    + eapply only_in_trans; [eapply only_in_mono; [|exact H1]|eapply only_in_mono; [|exact H2]]; set_solver.
    + congruence.
    + by eexists.
    + intros _. pose proof (proj1 H2) as E2. unfold nil_parent. by rewrite E2, E1, Hs2.
  - eapply wp_mono.
    { pose proof (reparent_ok (Node c l x r) q (top_ctx (nil s) k) s1) as W. rewrite E1 in W.
      simpl top in W. rewrite (proj2 (Z.eqb_neq x (nil s))) in W by (simpl in *; set_solver).
      apply W; [set_solver|done|done]. }
    intros [] s2 (Hrep2 & Hr2 & H2). split_and!.
    + eapply rep_ctx_frame; [exact H2|set_solver|done].
    + done.
    + eapply only_in_trans; [eapply only_in_mono; [|exact H1]|eapply only_in_mono; [|exact H2]]; set_solver.
    + congruence.
    + exists np. rewrite (proj2 H2) by set_solver. done.
    + done.
Qed.

(** Removing a node with one subtree [t]. *)
Lemma splice_ok s k d c z t :
  holds s (plug k (node_of d c Leaf z t)) →
  wp (rbtree_replace_node z (top (nil s) t)) (λ _ s',
    nil s' = nil s ∧ holds s' (plug k t) ∧ hole_ok s' k t ∧
    (∀ q, q ∉ nil s :: ctx_nodes k ++ inorder t → nodes s' !! q = nodes s !! q)) s.
Proof.
  intros H. pose proof (holds_node _ _ _ _ _ _ _ H) as Hz.
  apply holds_plug in H as (Hroot & Hrep & Hctx & Hnd & Hnil & Hnull & Hs).
  rewrite inorder_node_of in Hnd, Hnil, Hnull. simpl in Hnd, Hnil, Hnull.
  rewrite top_node_of in Hctx. rewrite rep_node_of in Hrep. destruct Hrep as (_ & _ & Hrep).
  assert (Hp : inorder t ++ ctx_nodes k ≡ₚ ctx_nodes k ++ inorder t) by solve_Permutation.
  eapply wp_mono.
  { eapply (replace_ok s k z _ z t); [set_solver| |done|exact Hz|by rewrite rec_parent|done|done].
    by rewrite <- Hp. }
  intros [] s' (Hctx' & Hrep' & Ho & Hr & Hs' & Hh). pose proof (proj1 Ho) as E.
  split_and!; [done| |done|exact (proj2 Ho)]. apply NoDup_cons in Hnd as [_ Hnd].
  apply holds_plug. rewrite E. split_and!; try done; [|set_solver..].
  rewrite Hr. destruct k as [|f k]; [done|]. rewrite Hroot. apply top_plug_cons.
Qed.

(** The successor [y] takes the place of [z]: the tail of the last branch of
    [rbtree_delete]. *)
Lemma takeover_ok s k c l z zr y cy py ly r q :
  root s = top (nil s) (plug k (Node c l z Leaf)) →
  NoDup (z :: y :: inorder l ++ inorder r ++ ctx_nodes k) →
  nil s ∉ z :: y :: inorder l ++ inorder r ++ ctx_nodes k →
  0 ∉ y :: inorder l ++ inorder r ++ ctx_nodes k →
  (∃ np, nodes s !! nil s = Some (mk_rbnode BLACK np (nil s) (nil s))) →
  nodes s !! z = Some (mk_rbnode c (top_ctx (nil s) k) (top (nil s) l) zr) →
  nodes s !! y = Some (mk_rbnode cy py ly (top (nil s) r)) →
  l ≠ Leaf → rep (nodes s) (nil s) q l → rep (nodes s) (nil s) y r → rep_ctx (nodes s) (nil s) k z →
  wp (delete_take_over z y) (λ _ s', holds s' (plug k (Node c l y r)) ∧ same_nil s s') s.
Proof.
  intros Hroot Hnd Hnil Hnull [np Hs] Hz Hy Hl Hrl Hrr Hctx.
  apply NoDup_cons in Hnd as [Hzn Hnd]. apply NoDup_cons in Hnd as [Hyn Hnd].
  apply NoDup_app in Hnd as (Hndl & Hdl & Hnd). apply NoDup_app in Hnd as (Hndr & Hdr & Hndk).
  unfold delete_take_over, rbtree_replace_node. apply wp_bind.
  apply wp_bind. eapply wp_get_parent; [exact Hz|]. cbn [n_parent].
  apply wp_bind. eapply wp_mono.
  { apply (redirect_ok k z y s); [set_solver|constructor; [set_solver|done]|done]. }
  intros [] s1 (Hctx1 & H1 & Hr1). pose proof (proj1 H1) as E1.
  apply wp_bind. eapply wp_get_parent; [rewrite (proj2 H1) by set_solver; exact Hz|]. cbn [n_parent].
  eapply wp_upd; [rewrite (proj2 H1) by set_solver; exact Hy|]. intros s2 Hr2 H2 Hy2. cbn in Hy2.
  apply wp_bind. eapply (wp_get_child DL).
  { rewrite (proj2 H2), (proj2 H1) by set_solver. exact Hz. }
  cbn [n_child n_left].
  apply wp_bind. eapply wp_upd; [exact Hy2|]. intros s3 Hr3 H3 Hy3. cbn in Hy3.
  apply wp_bind. eapply (wp_get_child DL); [exact Hy3|]. cbn [n_child n_left].
  assert (H03 : only_in (y :: ctx_nodes k) s s3).
  { do 2 (eapply only_in_trans; [eapply only_in_mono; [|done]; set_solver|]).
    eapply only_in_mono; [|done]; set_solver. }
  pose proof (proj1 H03) as E3.
  apply wp_bind. eapply wp_mono.
  { pose proof (reparent_ok l q y s3) as W. rewrite E3 in W.
    rewrite (proj2 (Z.eqb_neq (top (nil s) l) (nil s))) in W.
    - apply W; [set_solver|done|]. eapply rep_frame; [exact H03|set_solver|done].
    - destruct l; [done|]. simpl in *. set_solver. }
  intros [] s4 (Hrl4 & Hr4 & H4).
  apply wp_bind. eapply wp_get_col.
  { rewrite (proj2 H4), (proj2 H03) by set_solver. exact Hz. }
  cbn [n_col].
  eapply wp_upd; [rewrite (proj2 H4) by set_solver; exact Hy3|]. intros s5 Hr5 H5 Hy5. cbn in Hy5.
  assert (H35 : only_in (y :: inorder l) s3 s5).
  { eapply only_in_trans; [eapply only_in_mono; [|done]; set_solver|].
    eapply only_in_mono; [|done]; set_solver. }
  pose proof (proj1 H35) as E5. rewrite E3 in E5.
  assert (Hnil5 : nodes s5 !! nil s = nodes s !! nil s).
  { rewrite (proj2 H35), (proj2 H03) by set_solver. done. }
  split; [|by split].
  apply holds_plug. rewrite E5. simpl. split_and!.
  - rewrite Hr5, Hr4, Hr3, Hr2, Hr1. destruct k; [done|]. rewrite Hroot. apply top_plug_cons.
  - exact Hy5.
  - eapply rep_frame; [exact H5|set_solver|done].
  - eapply rep_frame; [exact H35|set_solver|]. eapply rep_frame; [exact H03|set_solver|done].
  - eapply rep_ctx_frame; [exact H35|set_solver|].
    eapply rep_ctx_frame; [exact H3|set_solver|]. eapply rep_ctx_frame; [exact H2|set_solver|done].
  - rewrite <- app_assoc. apply NoDup_app. split_and!; [done|set_solver|].
    constructor; [set_solver|]. apply NoDup_app. split_and!; done.
  - set_solver.
  - set_solver.
  - exists np. by rewrite Hnil5.
Qed.

(** What [delete_take_over] finds. *)
Definition ready (s0 s : rbtree) (k : list frame) (c : color) (l : tree) (z y : Z) (r : tree) : Prop :=
  nil s = nil s0 ∧ root s = root s0 ∧
  (∃ zr, nodes s !! z = Some (mk_rbnode c (top_ctx (nil s0) k) (top (nil s0) l) zr)) ∧
  (∃ cy py ly, nodes s !! y = Some (mk_rbnode cy py ly (top (nil s0) r))) ∧
  (∃ np, nodes s !! nil s0 = Some (mk_rbnode BLACK np (nil s0) (nil s0))) ∧
  (∃ q, rep (nodes s) (nil s0) q l) ∧ rep (nodes s) (nil s0) y r ∧ rep_ctx (nodes s) (nil s0) k z.

(** The successor is the right child. *)
Lemma take_right_child_ok s k c l z c2 y ry :
  holds s (plug k (Node c l z (Node c2 Leaf y ry))) → l ≠ Leaf →
  wp (delete_take_right z y (top (nil s) ry)) (λ _ s',
    ready s s' k c l z y ry ∧ (ry = Leaf → nil_parent s' = Some y)) s.
Proof.
  intros H Hl. pose proof (holds_node s k DL c l z (Node c2 Leaf y ry) H) as Hz. simpl in Hz.
  pose proof (holds_node s (mk_frame DR c z l :: k) DL c2 Leaf y ry H) as Hy. simpl in Hy.
  apply holds_plug in H as (Hroot & (_ & Hrl & _ & _ & Hrr) & Hctx & Hnd & Hnil & Hnull & np & Hs).
  simpl in *. rewrite <- app_assoc in Hnd. simpl in Hnd. apply NoDup_app in Hnd as (Hndl & Hdl & Hnd).
  apply NoDup_cons in Hnd as [Hzn Hnd]. apply NoDup_cons in Hnd as [Hyn Hnd].
  apply NoDup_app in Hnd as (Hndr & Hdr & Hndk).
  unfold delete_take_right. apply wp_bind. eapply wp_get_parent; [exact Hy|]. cbn [n_parent].
  rewrite Z.eqb_refl.
  apply wp_bind. eapply (wp_get_child DL); [exact Hz|]. cbn [n_child n_left].
  apply wp_bind. eapply wp_mono.
  { pose proof (reparent_ok l z y s) as W.
    rewrite (proj2 (Z.eqb_neq (top (nil s) l) (nil s))) in W.
    - apply W; [set_solver|done|done].
    - destruct l; [done|]. simpl in *. set_solver. }
  intros [] s1 (Hrl1 & Hr1 & H1). pose proof (proj1 H1) as E1.
  assert (Hz1 : nodes s1 !! z = nodes s !! z) by (apply (proj2 H1); set_solver).
  assert (Hy1 : nodes s1 !! y = nodes s !! y) by (apply (proj2 H1); set_solver).
  apply wp_bind. eapply (wp_get_child DL); [rewrite Hz1; exact Hz|]. cbn [n_child n_left].
  apply wp_bind. eapply wp_upd; [rewrite Hy1; exact Hy|]. intros s2 Hr2 H2 Hy2. cbn in Hy2.
  assert (H02 : only_in (y :: inorder l) s s2).
  { eapply only_in_trans; [eapply only_in_mono; [|done]; set_solver|].
    eapply only_in_mono; [|done]; set_solver. }
  pose proof (proj1 H02) as E2.
  assert (Hs2 : nodes s2 !! nil s = nodes s !! nil s) by (apply (proj2 H02); set_solver).
  destruct ry as [|cr rl x rr]; simpl top.
  - eapply wp_upd; [rewrite Hs2; exact Hs|]. intros s3 Hr3 H3 Hs3. cbn in Hs3.
    assert (H03 : only_in (nil s :: y :: inorder l) s s3).
    { eapply only_in_trans; [eapply only_in_mono; [|exact H02]; set_solver|].
      eapply only_in_mono; [|exact H3]; set_solver. }
    split; [|intros _; unfold nil_parent; by rewrite (proj1 H03), Hs3].
    split_and!; [exact (proj1 H03)|congruence| | | | |done|].
    + rewrite (proj2 H03) by set_solver. by eexists.
    + rewrite (proj2 H3) by set_solver. by do 3 eexists.
    + by eexists.
    + exists y. eapply rep_frame; [exact H3|set_solver|]. eapply rep_frame; [exact H2|set_solver|done].
    + eapply rep_ctx_frame; [exact H03|set_solver|done].
  - eapply wp_mono.
    { pose proof (reparent_ok (Node cr rl x rr) y y s2) as W. rewrite E2 in W. simpl top in W.
      rewrite (proj2 (Z.eqb_neq x (nil s))) in W by (simpl in *; set_solver).
      apply W; [set_solver|done|]. eapply rep_frame; [exact H02|set_solver|done]. }
    intros [] s3 (Hrr3 & Hr3 & H3). split; [|done].
    split_and!; [by rewrite (proj1 H3)|congruence| | | | |done|].
    + rewrite (proj2 H3), (proj2 H02) by set_solver. by eexists.
    + rewrite (proj2 H3) by set_solver. by do 3 eexists.
    + exists np. rewrite (proj2 H3), Hs2 by set_solver. done.
    + exists y. eapply rep_frame; [exact H3|set_solver|]. eapply rep_frame; [exact H2|set_solver|done].
    + eapply rep_ctx_frame; [exact H3|set_solver|]. eapply rep_ctx_frame; [exact H02|set_solver|done].
Qed.

(** The successor is deeper. *)
Lemma take_right_deep_ok s k c l z f k2 c2 y ry :
  holds s (plug k (Node c l z (plug (f :: k2) (Node c2 Leaf y ry)))) →
  wp (delete_take_right z y (top (nil s) ry)) (λ _ s',
    ready s s' k c l z y (plug (f :: k2) ry) ∧ (ry = Leaf → nil_parent s' = Some (f_node f))) s.
Proof.
  intros H. remember ((f :: k2) ++ mk_frame DR c z l :: k) as kk eqn:Ekk.
  assert (Hplug : ∀ t, plug k (Node c l z (plug (f :: k2) t)) = plug kk t).
  { intros t. by rewrite Ekk, plug_app. }
  rewrite Hplug in H. pose proof (holds_node s kk DL c2 Leaf y ry H) as Hy. simpl in Hy.
  pose proof (holds_root _ _ H) as Hroot.
  pose proof (holds_nodup _ _ H) as Hnd. rewrite inorder_plug in Hnd. simpl in Hnd.
  apply NoDup_cons in Hnd as [Hyn _].
  pose proof (holds_nil _ _ H) as Hnil. rewrite inorder_plug in Hnil. simpl in Hnil.
  assert (f_node f ≠ z) as Hfz.
  { pose proof (holds_nodup _ _ H) as Hnd. rewrite inorder_plug in Hnd.
    apply NoDup_app in Hnd as (_ & _ & Hnd). rewrite Ekk in Hnd. simpl in Hnd.
    apply NoDup_cons in Hnd as [Hnd _]. intros E. apply Hnd. clear - E. subst z.
    apply elem_of_app. right. induction k2 as [|g k2 IH]; simpl; [left|].
    right. apply elem_of_app. by right. }
  unfold delete_take_right. apply wp_bind. eapply wp_get_parent; [exact Hy|]. cbn [n_parent].
  rewrite Ekk at 1. cbn [top_ctx app f_node]. rewrite (proj2 (Z.eqb_neq _ _) Hfz).
  apply wp_bind. eapply (wp_get_child DR); [exact Hy|]. cbn [n_child n_right].
  apply wp_bind. eapply wp_mono; [exact (splice_ok s kk DL c2 y ry H)|].
  intros [] s1 (E1 & H1 & Hh1 & Hq1).
  assert (Hy1 : nodes s1 !! y = nodes s !! y) by (apply Hq1; set_solver).
  rewrite <- Hplug in H1.
  pose proof (holds_node s1 k DL c l z (plug (f :: k2) ry) H1) as Hz1. cbn [rec] in Hz1.
  pose proof (holds_root _ _ H1) as Hroot1. rewrite Hplug in Hroot1.
  apply holds_plug in H1 as (_ & Hrep & Hctx & Hnd & _ & _ & np & Hs1).
  rewrite E1 in Hrep, Hctx, Hs1, Hz1, Hroot1.
  change (inorder (Node c l z (plug (f :: k2) ry)))
    with (inorder l ++ z :: inorder (plug (f :: k2) ry)) in Hnd.
  assert (Hperm : inorder ry ++ ctx_nodes kk ≡ₚ
    inorder l ++ z :: inorder (plug (f :: k2) ry) ++ ctx_nodes k).
  { rewrite <- inorder_plug, <- Hplug, inorder_plug. simpl. by rewrite <- app_assoc. }
  rewrite Hperm in Hyn, Hnil.
  destruct Hrep as (_ & Hrl & Hrr). set (r := plug (f :: k2) ry) in *. cbn [top] in Hctx.
  rewrite <- app_assoc in Hnd. simpl in Hnd. apply NoDup_app in Hnd as (Hndl & Hdl & Hnd).
  apply NoDup_cons in Hnd as [Hzn Hnd]. apply NoDup_app in Hnd as (Hndr & Hdr & Hndk).
  apply wp_bind. eapply (wp_get_child DR); [exact Hz1|]. cbn [n_child n_right].
  apply wp_bind. eapply wp_upd; [rewrite Hy1; exact Hy|]. intros s2 Hr2 H2 Hy2. cbn in Hy2.
  pose proof (proj1 H2) as E2. rewrite E1 in E2.
  apply wp_bind. eapply (wp_get_child DR); [exact Hy2|]. cbn [n_child n_right].
  eapply wp_mono.
  { pose proof (reparent_ok r z y s2) as W. rewrite E2 in W.
    rewrite (proj2 (Z.eqb_neq (top (nil s) r) (nil s))) in W.
    - apply W; [set_solver|done|]. eapply rep_frame; [exact H2|set_solver|done].
    - pose proof (top_plug_in (nil s) f k2 ry) as Hin. fold r in Hin. intros E. rewrite E in Hin.
      apply Hnil. unfold r. rewrite inorder_plug. set_solver. }
  intros [] s3 (Hr3 & Hroot3 & H3). pose proof (proj1 H3) as E3. rewrite E2 in E3.
  assert (Hnil3 : nodes s3 !! nil s = nodes s1 !! nil s).
  { rewrite (proj2 H3), (proj2 H2) by set_solver. done. }
  split; [split_and!|].
  - done.
  - rewrite Hroot3, Hr2, Hroot1, Hroot. rewrite Ekk. apply top_plug_cons.
  - rewrite (proj2 H3), (proj2 H2) by set_solver. eexists. exact Hz1.
  - rewrite (proj2 H3) by set_solver. by do 3 eexists.
  - exists np. by rewrite Hnil3.
  - exists z. eapply rep_frame; [exact H3|set_solver|]. eapply rep_frame; [exact H2|set_solver|done].
  - done.
  - eapply rep_ctx_frame; [exact H3|set_solver|]. eapply rep_ctx_frame; [exact H2|set_solver|done].
  - intros Hry. specialize (Hh1 Hry). unfold nil_parent in *. rewrite E1 in Hh1.
    by rewrite E3, Hnil3, Hh1, Ekk.
Qed.

(** ** Deletion *)

(** What is left where a node of colour [c] was taken out. *)
Definition removed_ok (c : color) (n : nat) (t : tree) : Prop :=
  match c with RED => rbt BLACK n t | BLACK => ∃ m ct, n = S m ∧ rbt ct m t end.

Lemma rbt_removed d c c' n z t : rbt c' n (node_of d c Leaf z t) → c' = c ∧ removed_ok c n t.
Proof. destruct d; inversion 1; subst; simpl; eauto. Qed.

Lemma fix_removed_ok s k c n t :
  holds s (plug k t) → hole_ok s k t → removed_ok c n t → rbt_ctx c n k →
  wp (if decide (c = BLACK) then delete_fixup (top (nil s) t) else mret tt) (λ _ s', ∃ t' m,
    holds s' t' ∧ rbt BLACK m t' ∧ inorder t' = inorder (plug k t)) s.
Proof.
  intros H Hh Hrem Hk. destruct c; simpl in Hrem.
  - rewrite decide_False by done. apply wp_ret.
    destruct (rbt_plug _ _ _ _ Hrem (rbt_ctx_weaken _ _ _ Hk)) as [m Hm]. by exists (plug k t), m.
  - rewrite decide_True by done. destruct Hrem as (m & ct & -> & Ht).
    apply delete_fixup_ok. split; [done|]. split; [done|]. exists m. split; [|done].
    destruct ct; [right|by left]. inversion Ht; subst. eauto 10.
Qed.

(** The renamed node on a path does not matter to the discipline. *)
Lemma rbt_ctx_rename c n k2 d c' z y l k :
  rbt_ctx c n (k2 ++ mk_frame d c' z l :: k) → rbt_ctx c n (k2 ++ mk_frame d c' y l :: k).
Proof.
  revert c n. induction k2 as [|f k2 IH]; intros c n H; simpl in *; inversion H; subst; eauto with kern.
Qed.

Lemma locate z t : z ∈ inorder t → ∃ k c l r, t = plug k (Node c l z r).
Proof.
  induction t as [|c l IHl x r IHr]; simpl; [set_solver|].
  intros [Hz|[->|Hz]%elem_of_cons]%elem_of_app.
  - destruct (IHl Hz) as (k & c' & l' & r' & ->). exists (k ++ [mk_frame DL c x r]), c', l', r'.
    by rewrite plug_app.
  - by exists [], c, l, r.
  - destruct (IHr Hz) as (k & c' & l' & r' & ->). exists (k ++ [mk_frame DR c x l]), c', l', r'.
    by rewrite plug_app.
Qed.

(** The nodes before and after the hole of a path. *)
Fixpoint ctx_split (k : list frame) : list Z * list Z :=
  match k with
  | [] => ([], [])
  | mk_frame d _ x s :: k =>
      let '(a, b) := ctx_split k in
      match d with DL => (a, x :: inorder s ++ b) | DR => (a ++ inorder s ++ [x], b) end
  end.

Lemma inorder_ctx k t : inorder (plug k t) = (ctx_split k).1 ++ inorder t ++ (ctx_split k).2.
Proof.
  revert t. induction k as [|[d c x s] k IH]; intros t; simpl; [by rewrite app_nil_r|].
  rewrite IH. destruct (ctx_split k) as [a b]. destruct d; simpl; by rewrite <- ?app_assoc; simpl; rewrite <- ?app_assoc.
Qed.

Lemma inorder_removed k c l z r t :
  NoDup (inorder (plug k (Node c l z r))) → inorder t = inorder l ++ inorder r →
  inorder (plug k t) = filter (.≠ z) (inorder (plug k (Node c l z r))).
Proof.
  rewrite !inorder_ctx. intros Hnd ->. simpl in *. set (a := (ctx_split k).1) in *. set (b := (ctx_split k).2) in *.
  replace (a ++ (inorder l ++ z :: inorder r) ++ b) with ((a ++ inorder l) ++ z :: (inorder r ++ b))
    in Hnd |- * by (by rewrite <- !app_assoc).
  rewrite remove_split by done. by rewrite <- !app_assoc.
Qed.

(** Nothing comes before the leftmost node. *)
Lemma leftmost_ctx k : Forall (λ f, f_dir f = DL) k → (ctx_split k).1 = [].
Proof.
  induction 1 as [|[d c x s] k Hd _ IH]; simpl in *; [done|]. subst d. by destruct (ctx_split k).
Qed.

(** The branch of [rbtree_delete] for a node with two subtrees. *)
Lemma delete_two_ok fuel s k c l z r :
  holds s (plug k (Node c l z r)) → l ≠ Leaf → r ≠ Leaf →
  (∃ c' n, rbt c' n (Node c l z r) ∧ rbt_ctx c' n k) →
  (length (inorder r) ≤ fuel)%nat →
  wp (new_node ← outermost DL fuel (top (nil s) r);
      removed_color ← get_col new_node;
      fixup_node ← get_right new_node;
      delete_take_right z new_node fixup_node;;
      delete_take_over z new_node;;
      mret (removed_color, fixup_node)) (λ '(rc, p) s', ∃ k' n t,
    p = top (nil s') t ∧ holds s' (plug k' t) ∧ hole_ok s' k' t ∧ removed_ok rc n t ∧ rbt_ctx rc n k' ∧
    inorder (plug k' t) = filter (.≠ z) (inorder (plug k (Node c l z r)))) s.
Proof.
  intros H Hl Hr (c' & n & Hrb & Hk) Hf.
  pose proof (holds_root _ _ H) as Hroot.
  pose proof (holds_nodup _ _ H) as Hnd0.
  apply wp_bind. eapply wp_mono; [apply (outermost_ok DL fuel s (mk_frame DR c z l :: k) r H Hr Hf)|].
  intros y s0 (-> & k2 & c2 & ry & -> & Hk2). cbn [node_of] in *.
  assert (Hplug : plug k (Node c l z (plug k2 (Node c2 Leaf y ry)))
    = plug (k2 ++ mk_frame DR c z l :: k) (Node c2 Leaf y ry)) by (by rewrite plug_app).
  pose proof H as H'. rewrite Hplug in H'.
  pose proof (holds_node s _ DL c2 Leaf y ry H') as Hy. simpl in Hy.
  apply wp_bind. eapply wp_get_col; [exact Hy|]. cbn [n_col].
  apply wp_bind. eapply (wp_get_child DR); [exact Hy|]. cbn [n_child n_right].
  apply wp_bind. eapply wp_mono with (P := λ _ s', ready s s' k c l z y (plug k2 ry) ∧
    (ry = Leaf → nil_parent s' = Some (top_ctx (nil s') (k2 ++ mk_frame DR c y l :: k)))).
  { destruct k2 as [|f k2].
    - by apply (take_right_child_ok s k c l z c2 y ry).
    - by apply (take_right_deep_ok s k c l z f k2 c2 y ry). }
  intros [] s1 [(E1 & Hr1 & (zr & Hz1) & (cy & py & ly & Hy1) & Hs1 & (q & Hrl) & Hrr & Hctx) Hh].
  rewrite <- E1 in Hz1, Hy1, Hs1, Hrl, Hrr, Hctx. rewrite <- Hr1, <- E1 in Hroot.
  assert (Hperm : inorder (plug k (Node c l z (plug k2 (Node c2 Leaf y ry)))) ≡ₚ
    z :: y :: inorder l ++ inorder (plug k2 ry) ++ ctx_nodes k).
  { rewrite inorder_plug. simpl. rewrite !(inorder_plug k2). simpl. solve_Permutation. }
  pose proof (holds_nil _ _ H) as Hnil. pose proof (holds_null _ _ H) as Hnull.
  rewrite Hperm in Hnd0, Hnil, Hnull.
  apply wp_bind. eapply wp_mono.
  { eapply (takeover_ok s1 k c l z zr y cy py ly (plug k2 ry) q); try done.
    - rewrite Hroot. by apply top_plug.
    - by rewrite E1.
    - set_solver. }
  intros [] s2 [H2 N2]. apply wp_ret.
  assert (Hplug' : ∀ x t, plug k (Node c l x (plug k2 t)) = plug (k2 ++ mk_frame DR c x l :: k) t)
    by (intros; by rewrite plug_app).
  rewrite Hplug' in H2.
  destruct (rbt_plug _ _ _ _ Hrb Hk) as [m Hm]. rewrite Hplug in Hm.
  destruct (rbt_unplug _ _ _ Hm) as (cr & n' & Hy' & Hk').
  apply (rbt_removed DL) in Hy' as [-> Hrem].
  exists (k2 ++ mk_frame DR c y l :: k), n', ry. split_and!; try done.
  - by rewrite (proj1 N2), E1.
  - intros Hry. specialize (Hh Hry). unfold nil_parent in *.
    rewrite (proj1 N2), (proj2 N2), Hh. done.
  - by eapply rbt_ctx_rename.
  - rewrite <- Hplug'. etrans; [|apply (inorder_removed k c l z _ (Node c l y (plug k2 ry)))].
    + done.
    + apply (holds_nodup _ _ H).
    + simpl. by rewrite !inorder_ctx, (leftmost_ctx k2 Hk2).
Qed.

Lemma delete_one_ok s k d c z t :
  holds s (plug k (node_of d c Leaf z t)) →
  (∃ c' n, rbt c' n (node_of d c Leaf z t) ∧ rbt_ctx c' n k) →
  wp (rbtree_replace_node z (top (nil s) t);; mret (c, top (nil s) t)) (λ '(rc, p) s', ∃ k' n t',
    p = top (nil s') t' ∧ holds s' (plug k' t') ∧ hole_ok s' k' t' ∧ removed_ok rc n t' ∧ rbt_ctx rc n k' ∧
    inorder (plug k' t') = filter (.≠ z) (inorder (plug k (node_of d c Leaf z t)))) s.
Proof.
  intros H (c' & n & Hrb & Hk). pose proof (holds_nodup _ _ H) as Hnd.
  apply rbt_removed in Hrb as [-> Hrem].
  apply wp_bind. eapply wp_mono; [exact (splice_ok s k d c z t H)|].
  intros [] s1 (E1 & H1 & Hh1 & _). apply wp_ret. exists k, n, t. rewrite E1. split_and!; try done.
  destruct d; (eapply inorder_removed; [done|]); simpl; by rewrite ?app_nil_r.
Qed.

Lemma keeps_nil_replace x y : keeps_nil (rbtree_replace_node x y).
Proof. unfold rbtree_replace_node. keeps. Qed.

Lemma keeps_nil_outermost d fuel x : keeps_nil (outermost d fuel x).
Proof. revert x. induction fuel as [|fuel IH]; intros x; cbn [outermost]; keeps. Qed.
#[export] Hint Resolve keeps_nil_replace keeps_nil_outermost : keeps.

Lemma keeps_nil_delete z : keeps_nil (rbtree_delete z).
Proof. unfold rbtree_delete, delete_take_right, delete_take_over, delete_fixup. keeps. Qed.

Lemma sorted_filter key z l : sorted key l → sorted key (filter (.≠ z) l).
Proof.
  unfold sorted. induction 1 as [|x l Hl IH Hx]; [constructor|].
  rewrite filter_cons. case_decide; [|done]. constructor; [done|].
  apply Forall_forall. intros y [_ Hy]%list_elem_of_filter. by eapply Forall_forall in Hx.
Qed.

(** [rbtree_delete] takes exactly its node out of the sequence, and the tree
    stays red-black. *)
Lemma rbtree_delete_run key s l z :
  tree_ok key s l → z ∈ l →
  ∃ s', rbtree_delete z s = Ret tt s' ∧ nil s' = nil s ∧ tree_ok key s' (filter (.≠ z) l).
Proof.
  intros (t & n & H & Hrb & <- & Hs) Hz. destruct (locate z t Hz) as (k & c & l & r & ->).
  destruct (rbt_unplug _ _ _ Hrb) as (c' & m & Ht & Hk).
  pose proof (holds_node s k DL c l z r H) as Hnode. simpl in Hnode.
  cut (wp (rbtree_delete z) (λ _ s', ∃ t' m, holds s' t' ∧ rbt BLACK m t' ∧
    inorder t' = filter (.≠ z) (inorder (plug k (Node c l z r)))) s).
  { intros W. eapply wp_keeps in W; [|apply keeps_nil_delete].
    apply wp_run in W as ([] & s' & E & (t' & m' & H' & Hrb' & Hin) & En).
    exists s'. split_and!; [done|done|]. exists t', m'. split_and!; [done..|].
    by apply sorted_filter. }
  unfold rbtree_delete. rewrite (proj2 (Z.eqb_neq z 0)) by apply (holds_top_ne s k c l z r H).
  apply wp_bind. eapply wp_Ret; [reflexivity|]. cbn beta.
  apply wp_bind. eapply wp_get_col; [exact Hnode|]. cbn [n_col].
  apply wp_bind. eapply (wp_get_child DL); [exact Hnode|]. cbn [n_child n_left].
  apply wp_bind. eapply (wp_get_child DR); [exact Hnode|]. cbn [n_child n_right].
  assert (Htop : ∀ d c' a b, holds s (plug (mk_frame d c' z b :: k) a) → (top (nil s) a =? nil s) = match a with Leaf => true | _ => false end).
  { intros d cc a b Ha. destruct a as [|ca la x ra]; [apply Z.eqb_refl|].
    apply Z.eqb_neq, (holds_top_ne _ _ _ _ _ _ Ha). }
  rewrite (Htop DL c l r H), (Htop DR c r l H).
  apply wp_bind. eapply wp_mono with (P := λ '(rc, p) s', ∃ k' n t',
    p = top (nil s') t' ∧ holds s' (plug k' t') ∧ hole_ok s' k' t' ∧ removed_ok rc n t' ∧ rbt_ctx rc n k' ∧
    inorder (plug k' t') = filter (.≠ z) (inorder (plug k (Node c l z r)))).
  - destruct l as [|cl ll x lr].
    + apply (delete_one_ok s k DL c z r H). by exists c', m.
    + destruct r as [|cr rl y rr].
      * apply (delete_one_ok s k DR c z _ H). by exists c', m.
      * apply delete_two_ok; [done..|by exists c', m|].
        pose proof (holds_fuel _ _ H) as Hf. rewrite inorder_plug in Hf. unfold fuel_of.
        change (inorder (Node c ?a z ?b)) with (inorder a ++ z :: inorder b) in Hf.
        rewrite !length_app in Hf. cbn [length] in Hf. lia.
  - intros [rc p] s1 (k' & n' & t' & -> & H1 & Hh1 & Hrem & Hk' & Hin).
    eapply wp_mono; [exact (fix_removed_ok s1 k' rc n' t' H1 Hh1 Hrem Hk')|].
    intros [] s2 (t2 & m2 & H2 & Hrb2 & Hin2). exists t2, m2. split_and!; [done|done|congruence].
Qed.
