(* ===== verification/RbOrder.v ===== *)
(** * Red-black trees as sorted sequences (kernel/lib/rbtree.c,
      include/lib/rbtree.h)

    What a client sees of a tree is the sequence of its nodes in key order
    ([tree_ok]).  Insertion and deletion refine the operations on sequences;
    search finds a node the comparator accepts; first, last, next, prev and
    the iteration macro walk the sequence; the height is logarithmic. *)

From stdpp Require Import base tactics list gmap sorting.
From Stdlib Require Import ZArith Lia.
From S2P Require Import Prelude Allocator RbTree RbDelete.

Open Scope Z_scope.

(** ** Height *)

Fixpoint height (t : tree) : nat :=
  match t with Leaf => 0 | Node _ l _ r => S (max (height l) (height r)) end.

Lemma rbt_height c n t :
  rbt c n t → (height t ≤ 2 * n + (if decide (c = RED) then 1 else 0))%nat.
Proof.
  induction 1 as [|n l x r Hl IHl Hr IHr|n cl cr l x r Hl IHl Hr IHr]; simpl in *;
    repeat case_decide; try done; lia.
Qed.

Lemma rbt_size c n t : rbt c n t → (2 ^ n ≤ S (length (inorder t)))%nat.
Proof.
  induction 1; simpl in *; rewrite ?length_app; simpl; lia.
Qed.

Lemma height_length t : (height t ≤ length (inorder t))%nat.
Proof. induction t; simpl; rewrite ?length_app; simpl; lia. Qed.

Lemma rbt_height_log n t :
  rbt BLACK n t → (height t ≤ 2 * Nat.log2 (S (length (inorder t))))%nat.
Proof.
  intros H. pose proof (rbt_height _ _ _ H) as Hh. pose proof (rbt_size _ _ _ H) as Hs.
  rewrite decide_False in Hh by done. apply Nat.log2_le_mono in Hs. rewrite Nat.log2_pow2 in Hs by lia. lia.
Qed.

(** ** Search *)

(** A comparator that is positive before its target, zero on it and negative
    after it. *)
Definition monotone (cmp : Z → Z) (l : list Z) : Prop :=
  StronglySorted (λ a b, Z.sgn (cmp b) ≤ Z.sgn (cmp a)) l.

Lemma monotone_split cmp l1 x l2 :
  monotone cmp (l1 ++ x :: l2) →
  monotone cmp l1 ∧ monotone cmp l2 ∧
  (cmp x < 0 → Forall (λ q, cmp q ≠ 0) (x :: l2)) ∧ (0 < cmp x → Forall (λ q, cmp q ≠ 0) (l1 ++ [x])).
Proof.
  unfold monotone. intros (Hc & H1 & H2)%StronglySorted_app. inversion H2 as [|? ? H3 H4]; subst.
  split_and!; [done|done|..].
  - intros Hx. constructor; [lia|]. eapply Forall_impl; [exact H4|]. simpl. intros q Hq. lia.
  - intros Hx. apply Forall_app. split; [|by constructor; [lia|]].
    apply Forall_forall. intros q Hq. specialize (Hc q x Hq ltac:(left)). lia.
Qed.

Lemma search_loop_ok cmp fuel s k t :
  holds s (plug k t) → monotone cmp (inorder t) → (height t ≤ fuel)%nat →
  wp (search_loop cmp fuel (top (nil s) t)) (λ p s', s' = s ∧
    ((p = 0 ∧ Forall (λ q, cmp q ≠ 0) (inorder t)) ∨ (p ∈ inorder t ∧ cmp p = 0))) s.
Proof.
  revert k t. induction fuel as [|fuel IH]; intros k t H Hm Hf.
  all: destruct t as [|c l x r].
  1,3: cbn [search_loop]; apply wp_bind; (eapply wp_Ret; [reflexivity|]); simpl; rewrite Z.eqb_refl;
    apply wp_ret; split; [done|]; left; by split.
  { simpl in Hf. lia. }
  simpl in Hf. pose proof (holds_node s k DL c l x r H) as Hx.
  cbn [search_loop]. apply wp_bind. eapply wp_Ret; [reflexivity|]. cbn [top].
  rewrite (proj2 (Z.eqb_neq x (nil s))) by apply (holds_top_ne _ _ _ _ _ _ H).
  apply monotone_split in Hm as (Hml & Hmr & Hneg & Hpos). cbn [inorder].
  destruct (Z.ltb_spec (cmp x) 0) as [Hlt|Hge].
  - apply wp_bind. eapply (wp_get_child DL); [exact Hx|].
    eapply wp_mono; [apply (IH (mk_frame DL c x r :: k) l); [exact H|done|lia]|].
    intros p s' (-> & [[-> Hp]|[Hp Hc]]); (split; [done|]); [left|right].
    + split; [done|]. apply Forall_app. auto.
    + split; [|done]. apply elem_of_app. by left.
  - destruct (Z.ltb_spec 0 (cmp x)) as [Hgt|Hle].
    + apply wp_bind. eapply (wp_get_child DR); [exact Hx|].
      eapply wp_mono; [apply (IH (mk_frame DR c x l :: k) r); [exact H|done|lia]|].
      intros p s' (-> & [[-> Hp]|[Hp Hc]]); (split; [done|]); [left|right].
      * split; [done|]. rewrite (cons_middle x), (assoc_L (++)). apply Forall_app. auto.
      * split; [|done]. apply elem_of_app. right. by right.
    + apply wp_ret. split; [done|]. right. split; [|lia]. apply elem_of_app. right. left.
Qed.

(** More fuel does not change an answer. *)
Lemma search_loop_more cmp f f' n s p s' :
  search_loop cmp f n s = Ret p s' → (f ≤ f')%nat → search_loop cmp f' n s = Ret p s'.
Proof.
  revert f' n. induction f as [|f IH]; intros f' n E Hle.
  - destruct f'; [done|]. cbn [search_loop] in *. rewrite (bind_Ret _ _ s (nil s) s) in E by done. rewrite (bind_Ret _ _ s (nil s) s) by done.
    by destruct (n =? nil s).
  - destruct f' as [|f']; [lia|]. cbn [search_loop] in *.
    rewrite (bind_Ret _ _ s (nil s) s) in E by done. rewrite (bind_Ret _ _ s (nil s) s) by done. destruct (n =? nil s); [done|].
    unfold get_left, get_right, node_at, deref, mbind, M_bind in *.
    repeat case_match; try done; unfold mret, M_ret in *; simplify_eq; apply IH; (done || lia).
Qed.

Lemma rbtree_search_loop cmp s : rbtree_search cmp s = search_loop cmp (fuel_of s) (root s) s.
Proof.
  unfold rbtree_search. rewrite (bind_Ret _ _ s s s) by done.
  destruct (root s =? nil s) eqn:E; [|done].
  unfold fuel_of. cbn [search_loop]. rewrite (bind_Ret _ _ s (nil s) s) by done. by rewrite E.
Qed.

(** The loop with any fuel that covers the height, so also with the fuel of
    [rbtree_search]. *)
Lemma search_loop_run key cmp fuel s l :
  tree_ok key s l → monotone cmp l → (2 * Nat.log2 (S (length l)) ≤ fuel)%nat →
  ∃ p, search_loop cmp fuel (root s) s = Ret p s ∧
    ((p = 0 ∧ Forall (λ q, cmp q ≠ 0) l) ∨ (p ≠ 0 ∧ p ∈ l ∧ cmp p = 0)).
Proof.
  intros (t & n & H & Hrb & <- & _) Hm Hf. rewrite (holds_root _ _ H).
  pose proof (rbt_height_log _ _ Hrb) as Hh.
  assert (W := search_loop_ok cmp fuel s [] t H Hm ltac:(lia)).
  apply wp_run in W as (p & s' & E & -> & Hp). exists p. split; [done|].
  destruct Hp as [Hp|[Hp Hc]]; [by left|right]. split_and!; [|done|done].
  intros ->. by apply (holds_null _ _ H).
Qed.

Lemma rbtree_search_run key cmp s l :
  tree_ok key s l → monotone cmp l →
  ∃ p, rbtree_search cmp s = Ret p s ∧
    ((p = 0 ∧ Forall (λ q, cmp q ≠ 0) l) ∨ (p ≠ 0 ∧ p ∈ l ∧ cmp p = 0)).
Proof.
  intros Hok Hm. pose proof Hok as (t & n & H & Hrb & <- & _). pose proof (holds_root _ _ H) as Hr.
  pose proof (holds_fuel _ _ H) as Hf. pose proof (height_length t) as Hh.
  assert (W := search_loop_ok cmp (fuel_of s) s [] t H Hm ltac:(unfold fuel_of; lia)).
  apply wp_run in W as (p & s' & E & -> & Hp). cbn [plug] in E. rewrite <- Hr in E.
  unfold rbtree_search. rewrite (bind_Ret _ _ s s s) by done. cbn beta.
  destruct (Z.eqb_spec (root s) (nil s)) as [E0|E0].
  - exists 0. split; [done|]. left. split; [done|]. destruct t; [done|].
    simpl in Hr. apply (holds_top_ne s []) in H as [? _]. congruence.
  - exists p. split; [done|]. destruct Hp as [Hp|[Hp Hc]]; [by left|right].
    split_and!; [|done|done]. intros ->. by apply (holds_null _ _ H).
Qed.

(** ** Walking the sequence *)

(** The first element on the far end of side [d]. *)
Definition end_of (d : dir) (l : list Z) : Z :=
  default 0 (match d with DL => head l | DR => last l end).

(** What lies beyond the hole of a path on side [d]. *)
Definition beyond (d : dir) (k : list frame) : list Z :=
  match d with DL => (ctx_split k).1 | DR => (ctx_split k).2 end.

Lemma end_of_plug d k c y far :
  Forall (λ f, f_dir f = d) k → end_of d (inorder (plug k (node_of d c Leaf y far))) = y.
Proof.
  intros Hk. rewrite inorder_ctx. assert (beyond d k = []) as Hb.
  { induction Hk as [|[d' c' x s] k Hd _ IH]; [by destruct d|]. simpl in Hd. subst d'.
    destruct d; simpl in *; by destruct (ctx_split k). }
  destruct d; simpl in *.
  - by rewrite Hb.
  - unfold end_of. by rewrite Hb, app_nil_r, (assoc_L (++)), last_snoc.
Qed.

Lemma rbtree_end_run key d s l : tree_ok key s l → rbtree_end d s = Ret (end_of d l) s.
Proof.
  intros (t & n & H & _ & <- & _). unfold rbtree_end.
  rewrite (bind_Ret _ _ s s s) by done. cbn beta. pose proof (holds_root _ _ H) as Hr.
  assert (t = Leaf ∨ t ≠ Leaf) as [->|Ht] by (destruct t; auto).
  { simpl in Hr. rewrite Hr, Z.eqb_refl. by destruct d. }
  rewrite Hr, (proj2 (Z.eqb_neq _ _)).
  2: { destruct t; [done|]. apply (holds_top_ne s [] _ _ _ _ H). }
  pose proof (outermost_ok d (fuel_of s) s [] t H Ht) as W.
  apply wp_run in W as (p & s' & E & -> & k2 & c & far & -> & Hk2).
  2: { pose proof (holds_fuel _ _ H). unfold fuel_of. lia. }
  rewrite E. by rewrite end_of_plug.
Qed.

Lemma climb_ok d fuel s k c l x r :
  holds s (plug k (Node c l x r)) → (length k ≤ fuel)%nat →
  climb d fuel x (top_ctx (nil s) k) s = Ret (end_of (opp d) (beyond d k)) s.
Proof.
  revert fuel c l x r. induction k as [|[d' cp p sb] k IH]; intros fuel c l x r H Hf.
  - cbn [top_ctx]. destruct fuel; cbn [climb]; rewrite (bind_Ret _ _ s (nil s) s) by done;
      rewrite Z.eqb_refl; by destruct d.
  - cbn [top_ctx f_node]. destruct fuel as [|fuel]; [simpl in Hf; lia|]. cbn [climb].
    rewrite (bind_Ret _ _ s (nil s) s) by done.
    rewrite (proj2 (Z.eqb_neq p (nil s))) by exact (holds_frame_ne _ _ _ _ H).
    pose proof (holds_frame _ _ _ _ _ _ _ H) as Hp. cbn [top] in Hp.
    assert (Hchild : get_child d p s = Ret (if decide (d' = d) then x else top (nil s) sb) s).
    { destruct d, d'; simpl in *; unfold get_left, get_right, node_at, deref, mbind, M_bind; by rewrite Hp. }
    rewrite (bind_Ret _ _ _ _ _ Hchild).
    destruct (decide (d' = d)) as [->|Hd].
    + rewrite Z.eqb_refl. rewrite (bind_Ret _ _ s (top_ctx (nil s) k) s).
      2: { unfold get_parent, node_at, deref, mbind, M_bind. rewrite Hp. by rewrite rec_parent. }
      destruct (node_of_side d cp (Node c l x r) p sb) as (l1 & r1 & E).
      rewrite (IH fuel cp l1 p r1); [|cbn [plug f_dir f_col f_node f_sib] in H; by rewrite <- E|simpl in Hf; lia].
      f_equal. destruct d; simpl; by destruct (ctx_split k).
    + rewrite (proj2 (Z.eqb_neq x _)) by exact (holds_sibling _ _ _ _ _ _ _ _ _ _ H).
      f_equal. destruct d, d'; try done; simpl; destruct (ctx_split k); simpl; [|done].
      unfold end_of. simpl. by rewrite (assoc_L (++)), last_snoc.
Qed.

Lemma split_unique (x : Z) l1 l2 l1' l2' :
  l1 ++ x :: l2 = l1' ++ x :: l2' → x ∉ l1 → x ∉ l1' → l1 = l1' ∧ l2 = l2'.
Proof.
  revert l1'. induction l1 as [|y l1 IH]; intros [|y' l1'] E H1 H1'; simplify_list_eq; try set_solver.
Qed.

(** Seen from the node [x], the sequence is what lies before and after it. *)
Lemma holds_around s t l1 x l2 :
  holds s t → inorder t = l1 ++ x :: l2 →
  ∃ k c l r, t = plug k (Node c l x r) ∧ l1 = (ctx_split k).1 ++ inorder l ∧ l2 = inorder r ++ (ctx_split k).2.
Proof.
  intros H Hin. destruct (locate x t) as (k & c & l & r & ->); [rewrite Hin; set_solver|].
  exists k, c, l, r. split; [done|]. pose proof (holds_nodup _ _ H) as Hnd. pose proof Hnd as Hnd'.
  rewrite Hin in Hnd. rewrite inorder_ctx in Hin, Hnd'. simpl in Hin, Hnd'.
  rewrite <- !(assoc_L (++)) in Hin, Hnd'. simpl in Hin, Hnd'. rewrite (assoc_L (++)) in Hin, Hnd'.
  apply NoDup_app in Hnd as (_ & Hnd & _). apply NoDup_app in Hnd' as (_ & Hnd' & _).
  symmetry in Hin. apply split_unique in Hin; [done|..].
  - intros Hx. apply (Hnd x Hx). left.
  - intros Hx. apply (Hnd' x Hx). left.
Qed.

Lemma end_of_near d l1 l2 :
  match d with DL => l1 | DR => l2 end ≠ [] →
  end_of d (l1 ++ l2) = end_of d (match d with DL => l1 | DR => l2 end).
Proof.
  unfold end_of. destruct d; intros Hl; [by destruct l1|].
  destruct l2 as [|z l2 _] using rev_ind; [done|]. by rewrite (assoc_L (++)), !last_snoc.
Qed.

(** [rbtree_next] and [rbtree_prev]. *)
Lemma rbtree_step_run key d s l1 x l2 :
  tree_ok key s (l1 ++ x :: l2) →
  rbtree_step d x s = Ret (end_of (opp d) (match d with DL => l1 | DR => l2 end)) s.
Proof.
  intros (t & n & H & _ & Hin & _).
  destruct (holds_around _ _ _ _ _ H Hin) as (k & c & l & r & -> & -> & ->). clear Hin.
  pose proof (holds_ctx_fuel _ _ _ H) as Hf. pose proof (holds_fuel _ _ H) as Hf'.
  assert (∃ a b, Node c l x r = node_of d c a x b ∧ a = match d with DL => l | DR => r end)
    as (a & b & E & Ea) by (destruct d; simpl; eauto).
  unfold rbtree_step. rewrite (bind_Ret _ _ s s s) by done. cbn beta.
  rewrite (bind_Ret _ _ s (top (nil s) a) s).
  2: { rewrite E in H. pose proof (holds_node _ _ _ _ _ _ _ H) as Hx.
       destruct d; unfold get_child, get_left, get_right, node_at, deref, mbind, M_bind; by rewrite Hx. }
  assert (a = Leaf ∨ a ≠ Leaf) as [->|Ha] by (destruct a; auto).
  - cbn [top]. rewrite Z.eqb_refl. rewrite (bind_Ret _ _ s (top_ctx (nil s) k) s).
    2: { pose proof (holds_node s k DL c l x r H) as Hx.
         unfold get_parent, node_at, deref, mbind, M_bind. by rewrite Hx. }
    rewrite (climb_ok d (fuel_of s) s k c l x r H) by lia. f_equal.
    destruct d; simpl; subst; simpl; by rewrite ?app_nil_r.
  - rewrite E in H. rewrite (proj2 (Z.eqb_neq _ _)).
    2: { destruct a; [done|]. apply (holds_top_ne s (mk_frame d c x b :: k) _ _ _ _ H). }
    pose proof (outermost_ok (opp d) (fuel_of s) s (mk_frame d c x b :: k) a H Ha) as W.
    apply wp_run in W as (y & s' & Ey & -> & k2 & c2 & far & Ea' & Hk2).
    2: { rewrite inorder_plug, E, inorder_node_of in Hf'.
         simpl in Hf'. rewrite !length_app in Hf'. unfold fuel_of. lia. }
    rewrite Ey. f_equal. pose proof (end_of_plug (opp d) k2 c2 y far Hk2) as Hy. rewrite <- Ea' in Hy.
    assert (inorder a ≠ []) by (destruct a; [done|]; simpl; by destruct (inorder a1)).
    destruct d; subst a; simpl in *.
    + by rewrite (end_of_near DR).
    + by rewrite (end_of_near DL).
Qed.

(** The iteration macro visits the sequence. *)
Lemma visit_run key s l1 l2 fuel :
  tree_ok key s (l1 ++ l2) → 0 ∉ l2 → (length l2 ≤ fuel)%nat →
  visit fuel (end_of DL l2) s = Ret l2 s.
Proof.
  revert l1 fuel. induction l2 as [|x l2 IH]; intros l1 fuel H H0 Hf.
  - unfold end_of. simpl. by destruct fuel.
  - destruct fuel as [|fuel]; simpl in Hf; [lia|]. change (end_of DL (x :: l2)) with x. cbn [visit].
    rewrite (proj2 (Z.eqb_neq x 0)) by set_solver.
    rewrite (bind_Ret _ _ _ _ _ (rbtree_step_run key DR s l1 x l2 H)). cbn [opp].
    rewrite (bind_Ret _ _ s l2 s); [done|]. apply (IH (l1 ++ [x])); [|set_solver|lia].
    by rewrite <- (assoc_L (++)).
Qed.

Lemma tree_ok_null key s l : tree_ok key s l → 0 ∉ l ∧ (length l < size (nodes s))%nat.
Proof. intros (t & n & H & _ & <- & _). split; [by apply (holds_null s)|by apply holds_fuel]. Qed.

Lemma rbtree_for_each_run key s l : tree_ok key s l → rbtree_for_each s = Ret l s.
Proof.
  intros H. pose proof (tree_ok_null _ _ _ H) as [H0 Hf]. unfold rbtree_for_each.
  rewrite (bind_Ret _ _ s s s) by done. cbn beta.
  unfold rbtree_first. rewrite (bind_Ret _ _ _ _ _ (rbtree_end_run key DL s l H)).
  apply (visit_run key s [] l); [done|done|unfold fuel_of; lia].
Qed.


(** ** Trees from their creation on *)

Lemma fresh_tree_ok key nl st : tree_ok key (mk_rbtree nl nl (<[nl := mk_rbnode BLACK nl nl nl]> st)) [].
Proof.
  exists Leaf, 0%nat. split_and!; [|constructor|done|constructor].
  constructor; simpl; try set_solver; [constructor|]. exists nl. apply lookup_insert_eq.
Qed.

Lemma rbtree_create_run {A} `{!Allocator A} key (a : A) L :
  owns a L →
  ∃ p t a', rbtree_create a = Ret (p, t) a' ∧
    ((p = 0 ∧ owns a' L) ∨
     (p ≠ 0 ∧ p ∉ L ∧ nil t ∉ L ∧ p ≠ nil t ∧ tree_ok key t [] ∧ owns a' ({[p; nil t]} ∪ L))).
Proof.
  intros Ho. unfold rbtree_create.
  destruct (kmalloc_ok a L sizeof_rbtree Ho ltac:(done)) as [(a1 & E1 & Ho1)|(p & a1 & E1 & Hp & HpL & Ho1)];
    rewrite (bind_Ret _ _ _ _ _ E1).
  { simpl. eexists _, _, _. split; [done|by left]. }
  rewrite (proj2 (Z.eqb_neq p 0)) by lia.
  destruct (kmalloc_ok a1 _ sizeof_rbnode Ho1 ltac:(done)) as [(a2 & E2 & Ho2)|(q & a2 & E2 & Hq & HqL & Ho2)];
    rewrite (bind_Ret _ _ _ _ _ E2).
  - destruct (kfree_ok a2 _ p Ho2) as (a3 & E3 & Ho3); [set_solver|].
    simpl. rewrite (bind_Ret _ _ _ _ _ E3). eexists _, _, _. split; [done|]. left. split; [done|].
    replace L with (({[p]} ∪ L) ∖ {[p]}) by set_solver. done.
  - rewrite (proj2 (Z.eqb_neq q 0)) by lia. eexists _, _, _. split; [done|]. right. simpl.
    split_and!; [lia|done|set_solver|set_solver|apply (fresh_tree_ok key q ∅)|].
    replace ({[p; q]} ∪ L) with ({[q]} ∪ ({[p]} ∪ L)) by set_solver. done.
Qed.

(** A client's history on one tree. *)
Inductive rbop := Ins (x : Z) | Del (x : Z).

Definition run_op (cmp : Z → Z → Z) (o : rbop) : M rbtree unit :=
  match o with Ins x => rbtree_insert x cmp | Del x => rbtree_delete x end.

Fixpoint run_ops (cmp : Z → Z → Z) (os : list rbop) : M rbtree unit :=
  match os with [] => mret tt | o :: os => run_op cmp o;; run_ops cmp os end.

(** The history on a sorted sequence. *)
Definition spec_op (key : Z → Z) (l : list Z) (o : rbop) : list Z :=
  match o with Ins x => ins key x l | Del x => filter (.≠ x) l end.

(** Only nodes that are not on the tree are inserted, only nodes on it are
    deleted. *)
Fixpoint legal (key : Z → Z) (nl : Z) (l : list Z) (os : list rbop) : Prop :=
  match os with
  | [] => True
  | o :: os =>
      match o with Ins x => x ∉ l ∧ x ≠ nl ∧ x ≠ 0 | Del x => x ∈ l end
      ∧ legal key nl (spec_op key l o) os
  end.

Lemma run_ops_ok key cmp os s l :
  (∀ a b, a ≠ 0 → b ≠ 0 → (cmp a b <? 0) = (key a <? key b)) →
  tree_ok key s l → legal key (nil s) l os →
  ∃ s', run_ops cmp os s = Ret tt s' ∧ nil s' = nil s ∧ tree_ok key s' (foldl (spec_op key) l os).
Proof.
  intros Hcmp. revert s l. induction os as [|o os IH]; intros s l Hok Hleg; simpl; [by exists s|].
  destruct Hleg as [Ho Hleg].
  assert (∃ s1, run_op cmp o s = Ret tt s1 ∧ nil s1 = nil s ∧ tree_ok key s1 (spec_op key l o))
    as (s1 & E1 & En & Hok1).
  { destruct o as [x|x]; simpl in *; [|by apply rbtree_delete_run].
    destruct Ho as (? & ? & ?). by apply rbtree_insert_run. }
  rewrite <- En in Hleg. destruct (IH s1 _ Hok1 Hleg) as (s2 & E2 & En2 & Hok2).
  exists s2. rewrite (bind_Ret _ _ _ _ _ E1). split_and!; [done|congruence|done].
Qed.

(** ** The theorems *)

(** C9: A tree refines a sorted sequence: after any legal history of
    insertions and deletions on a tree fresh from [rbtree_init], every
    operation has returned, the pointers form a red-black search tree (no red
    node under a red one, equally many black nodes on every path) whose nodes
    in order are the sequence that sorted insertion and removal compute, and
    [rbtree_for_each] visits exactly that sequence. *)
Theorem rbtree_refines_sequence key cmp os nl s0 :
  (∀ a b, a ≠ 0 → b ≠ 0 → (cmp a b <? 0) = (key a <? key b)) → legal key nl [] os →
  ∃ s', (rbtree_init nl;; run_ops cmp os) s0 = Ret tt s' ∧
    tree_ok key s' (foldl (spec_op key) [] os) ∧
    rbtree_for_each s' = Ret (foldl (spec_op key) [] os) s'.
Proof.
  intros Hcmp Hleg.
  destruct (run_ops_ok key cmp os _ [] Hcmp (fresh_tree_ok key nl (nodes s0)) Hleg) as (s' & E & _ & Hok).
  exists s'. split_and!; [|done|by eapply rbtree_for_each_run].
  by rewrite (bind_Ret (rbtree_init nl) _ s0 tt _ eq_refl).
Qed.

(** C10: Searching a tree of [n] nodes follows at most [2 * log2 (n + 1)] links:
    with that much fuel the loop of [rbtree_search] returns, and the answer is
    a node the comparator accepts, or 0 when it accepts none. *)
Theorem rbtree_search_logarithmic key cmp s l :
  tree_ok key s l → monotone cmp l →
  ∃ p, search_loop cmp (2 * Nat.log2 (S (length l))) (root s) s = Ret p s ∧
    rbtree_search cmp s = Ret p s ∧
    (p = 0 ↔ ∀ q, q ∈ l → cmp q ≠ 0) ∧ (p ≠ 0 → p ∈ l ∧ cmp p = 0).
Proof.
  intros Hok Hm. destruct (search_loop_run key cmp _ s l Hok Hm (le_n _)) as (p & E & Hp).
  exists p. split_and!; [done|..].
  - rewrite (rbtree_search_loop cmp s).
    destruct (search_loop_run key cmp (Nat.max (2 * Nat.log2 (S (length l))) (fuel_of s)) s l Hok Hm)
      as (p1 & E1 & _); [lia|].
    pose proof (search_loop_more _ _ (Nat.max (2 * Nat.log2 (S (length l))) (fuel_of s)) _ _ _ _ E ltac:(lia)) as E2.
    destruct (rbtree_search_run key cmp s l Hok Hm) as (p' & E' & _). rewrite rbtree_search_loop in E'.
    pose proof (search_loop_more _ _ (Nat.max (2 * Nat.log2 (S (length l))) (fuel_of s)) _ _ _ _ E' ltac:(lia)) as E3.
    congruence.
  - split; [intros ->; destruct Hp as [[_ Hp]|[Hp _]]; [|done]|].
    + by apply Forall_forall.
    + intros Hall. destruct Hp as [[-> _]|(_ & Hin & Hc)]; [done|]. by destruct (Hall p Hin).
  - intros Hp0. destruct Hp as [[-> _]|(_ & Hin & Hc)]; done.
Qed.

(** [rbtree_next] and [rbtree_prev] are inverse to each other and follow
    the key order: between two neighbours each leads to the other, and at the
    ends, which [rbtree_first] and [rbtree_last] return, they give 0. *)
Theorem rbtree_next_prev_inverse key s l1 x y l2 :
  tree_ok key s (l1 ++ x :: y :: l2) →
  rbtree_next x s = Ret y s ∧ rbtree_prev y s = Ret x s ∧
  (rbtree_first ≫= rbtree_prev) s = Ret 0 s ∧ (rbtree_last ≫= rbtree_next) s = Ret 0 s.
Proof.
  intros H. unfold rbtree_next, rbtree_prev, rbtree_first, rbtree_last.
  rewrite (rbtree_step_run key DR s l1 x (y :: l2) H).
  rewrite (bind_Ret _ _ _ _ _ (rbtree_end_run key DL s _ H)), (bind_Ret _ _ _ _ _ (rbtree_end_run key DR s _ H)).
  split; [done|]. split.
  { rewrite (rbtree_step_run key DL s (l1 ++ [x]) y l2) by (by rewrite <- (assoc_L (++))).
    unfold end_of. simpl. by rewrite last_snoc. }
  split.
  - destruct (l1 ++ x :: y :: l2) as [|z l] eqn:E; [by destruct l1|].
    exact (rbtree_step_run key DL s [] z l H).
  - destruct (exists_last (l := l1 ++ x :: y :: l2)) as (l & z & E); [by destruct l1|].
    rewrite E in H |- *. unfold end_of. rewrite last_snoc. exact (rbtree_step_run key DR s l z [] H).
Qed.

(** ** A concrete tree: nodes keyed by their address *)

Definition demo_ops : list rbop :=
  [Ins 50; Ins 30; Ins 70; Ins 20; Ins 40; Ins 60; Ins 80; Ins 10; Del 30; Del 80].

Definition demo_tree : rbtree :=
  match (rbtree_init 8;; run_ops Z.sub demo_ops) (mk_rbtree 0 0 ∅) with
  | Ret _ s => s | _ => mk_rbtree 0 0 ∅ end.

Lemma sub_orders a b : a ≠ 0 → b ≠ 0 → (a - b <? 0) = (a <? b).
Proof. intros _ _. destruct (Z.ltb_spec a b), (Z.ltb_spec (a - b) 0); lia. Qed.

Lemma demo_legal : legal id 8 [] demo_ops.
Proof. simpl. repeat split; vm_compute; set_solver by lia. Qed.

Lemma demo_tree_ok : tree_ok id demo_tree [10; 20; 40; 50; 60; 70].
Proof.
  destruct (run_ops_ok id Z.sub demo_ops _ [] sub_orders (fresh_tree_ok id 8 ∅) demo_legal)
    as (s' & E & _ & Hok).
  assert (s' = demo_tree) as <-; [|exact Hok].
  assert (Some s' = Some demo_tree); [|congruence].
  transitivity (match run_ops Z.sub demo_ops (mk_rbtree 8 8 (<[8 := mk_rbnode BLACK 8 8 8]> ∅)) with
                | Ret _ s => Some s | _ => None end); [by rewrite E|].
  vm_compute. reflexivity.
Qed.

(** The example runs: the sixth node found, none found. *)
Example demo_search :
  rbtree_search (λ q, 60 - q) demo_tree = Ret 60 demo_tree ∧
  rbtree_search (λ q, 30 - q) demo_tree = Ret 0 demo_tree.
Proof. split; vm_compute; reflexivity. Qed.

Lemma rbtree_refines_sequence_witness :
  legal id 8 [] demo_ops ∧
  ∃ s', (rbtree_init 8;; run_ops Z.sub demo_ops) (mk_rbtree 0 0 ∅) = Ret tt s' ∧
    tree_ok id s' [10; 20; 40; 50; 60; 70] ∧ rbtree_for_each s' = Ret [10; 20; 40; 50; 60; 70] s'.
Proof.
  split; [exact demo_legal|].
  exact (rbtree_refines_sequence id Z.sub demo_ops 8 (mk_rbtree 0 0 ∅) sub_orders demo_legal).
Defined.

Lemma rbtree_search_logarithmic_witness :
  monotone (λ q, 60 - q) [10; 20; 40; 50; 60; 70] ∧
  ∃ p, search_loop (λ q, 60 - q) (2 * Nat.log2 7) (root demo_tree) demo_tree = Ret p demo_tree ∧
    rbtree_search (λ q, 60 - q) demo_tree = Ret p demo_tree ∧
    (p = 0 ↔ ∀ q, q ∈ [10; 20; 40; 50; 60; 70] → 60 - q ≠ 0) ∧
    (p ≠ 0 → p ∈ [10; 20; 40; 50; 60; 70] ∧ 60 - p = 0).
Proof.
  assert (monotone (λ q, 60 - q) [10; 20; 40; 50; 60; 70]) as Hm
    by (repeat constructor; vm_compute; discriminate).
  split; [exact Hm|]. exact (rbtree_search_logarithmic id (λ q, 60 - q) demo_tree _ demo_tree_ok Hm).
Defined.

Lemma rbtree_next_prev_inverse_witness :
  rbtree_next 40 demo_tree = Ret 50 demo_tree ∧ rbtree_prev 50 demo_tree = Ret 40 demo_tree ∧
  (rbtree_first ≫= rbtree_prev) demo_tree = Ret 0 demo_tree ∧
  (rbtree_last ≫= rbtree_next) demo_tree = Ret 0 demo_tree.
Proof. exact (rbtree_next_prev_inverse id demo_tree [10; 20] 40 50 [60; 70] demo_tree_ok). Defined.
