(* ===== verification/Pmm.v ===== *)
(** * Physical memory manager (kernel/mm/pmm.c)

    A bitmap with one bit per 4 KB page, stored in physical memory itself,
    just below the pages it manages.  The model keeps physical memory as a
    function from addresses to bytes and the bitmap at its address in it, so
    that zeroing a page and updating the bitmap act on the same memory.
    [free_block] is the abstract view (which page frames are free); the
    lemmas show that every operation is the expected change of that view,
    that the counter of free pages is the number of free frames, and that
    zeroing a handed-out page never touches the bitmap. *)

From S2P Require Import Prelude Spinlock.
From stdpp Require Import base tactics list.
From Stdlib Require Import ZArith Lia.

Open Scope Z_scope.

Record pmm := mk_pmm {
  ram : Z → Z;
  bitmap_4k : Z;
  total_blocks : Z;
  free_blocks : Z;
  pmm_lock : option nat;
  pmm_initialized : bool;
  pmm_locks : lock_table;
}.

Definition block_size : Z := 4096.

Definition DIV_ROUND_UP (n d : Z) : Z := u32 (n + d - 1) / d.
Definition PAGE_ALIGN (x : Z) : Z := Z.land (u32 (x + PAGE_SIZE - 1)) PAGE_MASK.

Definition set_ram (s : pmm) (r : Z → Z) : pmm :=
  mk_pmm r (bitmap_4k s) (total_blocks s) (free_blocks s) (pmm_lock s)
    (pmm_initialized s) (pmm_locks s).
Definition set_free_blocks (s : pmm) (n : Z) : pmm :=
  mk_pmm (ram s) (bitmap_4k s) (total_blocks s) n (pmm_lock s)
    (pmm_initialized s) (pmm_locks s).
Definition set_pmm_lock (s : pmm) (l : option nat) : pmm :=
  mk_pmm (ram s) (bitmap_4k s) (total_blocks s) (free_blocks s) l
    (pmm_initialized s) (pmm_locks s).
Definition set_pmm_locks (s : pmm) (t : lock_table) : pmm :=
  mk_pmm (ram s) (bitmap_4k s) (total_blocks s) (free_blocks s) (pmm_lock s)
    (pmm_initialized s) t.
Definition set_pmm_initialized (s : pmm) (b : bool) : pmm :=
  mk_pmm (ram s) (bitmap_4k s) (total_blocks s) (free_blocks s) (pmm_lock s)
    b (pmm_locks s).
Definition set_geometry (s : pmm) (bm total : Z) : pmm :=
  mk_pmm (ram s) bm total (free_blocks s) (pmm_lock s) (pmm_initialized s)
    (pmm_locks s).

#[export] Instance pmm_lock_table : Contains pmm lock_table.
Proof.
  refine {| part := pmm_locks; set_part := λ t s, set_pmm_locks s t |}; try done.
  by intros [].
Defined.

(** [memset] of kernel/lib/string.c. *)
Definition memset (dest chr size : Z) (r : Z → Z) : Z → Z := λ a,
  if (dest <=? a) && (a <? dest + size) then u8 chr else r a.

Definition store (a v : Z) (r : Z → Z) : Z → Z := λ x, if x =? a then v else r x.

(** ** The bitmap *)

Definition bitmap_byte (block : Z) (s : pmm) : Z := ram s (bitmap_4k s + block / 8).

Definition bitmap_set (block : Z) (s : pmm) : pmm :=
  set_ram s (store (bitmap_4k s + block / 8)
    (u8 (Z.lor (bitmap_byte block s) (u8 (Z.shiftl 1 (block mod 8))))) (ram s)).

Definition bitmap_clear (block : Z) (s : pmm) : pmm :=
  set_ram s (store (bitmap_4k s + block / 8)
    (u8 (Z.land (bitmap_byte block s) (u8 (Z.lnot (Z.shiftl 1 (block mod 8)))))) (ram s)).

Definition bitmap_test (block : Z) (s : pmm) : Z :=
  Z.land (Z.shiftr (bitmap_byte block s) (block mod 8)) 1.

(** ** The operations *)

(** [for (i = first; ...; i++) body], [n] iterations. *)
Fixpoint for_blocks (n : nat) (i : Z) (body : Z → pmm → pmm) (s : pmm) : pmm :=
  match n with
  | O => s
  | S n => for_blocks n (i + 1) body (body i s)
  end.

Definition release_block (i : Z) (s : pmm) : pmm :=
  let s := bitmap_clear i s in set_free_blocks s (free_blocks s +u 1).
Definition reserve_block (i : Z) (s : pmm) : pmm :=
  let s := bitmap_set i s in set_free_blocks s (free_blocks s -u 1).

(** First block after the bitmap. *)
Definition reserve_blocks (s : pmm) : Z :=
  u32 (bitmap_4k s / block_size
       + DIV_ROUND_UP (DIV_ROUND_UP (total_blocks s) 8) block_size).

(** What the locked part of [pmm_init] computes from a state whose geometry
    has been set. *)
Definition init_bitmap (s : pmm) : pmm :=
  let s := set_ram s (memset (bitmap_4k s) 255 (DIV_ROUND_UP (total_blocks s) 8) (ram s)) in
  let s := set_free_blocks s 0 in
  for_blocks (Z.to_nat (total_blocks s - reserve_blocks s)) (reserve_blocks s) release_block s.

Definition pmm_init (total_memory bitmap_pa : Z) : M pmm unit :=
  s ← get;
  if pmm_initialized s then mret tt else
  if bitmap_pa =? 0 then mret tt else
  l ← zoom spinlock_alloc;
  modify (λ s, set_pmm_lock s l);;
  match l with
  | None => mret tt
  | Some _ =>
      zoom (spinlock_lock l);;
      modify (λ s, set_pmm_initialized
        (init_bitmap (set_geometry s (PAGE_ALIGN bitmap_pa) (total_memory / block_size)))
        true);;
      zoom (spinlock_unlock l);;
      mret tt
  end.

Definition pmm_mark_used (paddr size : Z) : M pmm unit :=
  s ← get;
  if negb (pmm_initialized s) || (paddr =? 0) || (size =? 0) then mret tt else
  zoom (spinlock_lock (pmm_lock s));;
  let block := paddr / block_size in
  let end_block := u32 (paddr + size + block_size - 1) / block_size in
  let end_block := if total_blocks s <? end_block then total_blocks s else end_block in
  modify (for_blocks (Z.to_nat (end_block - block)) block
    (λ i s, if bitmap_test i s =? 0 then reserve_block i s else s));;
  zoom (spinlock_unlock (pmm_lock s));;
  mret tt.

(** The search loop of [pmm_alloc_page], with [n] blocks left from [i]. *)
Fixpoint alloc_page_loop (n : nat) (i : Z) : M pmm Z :=
  match n with
  | O => mret 0
  | S n =>
      s ← get;
      if bitmap_test i s =? 0 then
        modify (λ s,
          let s := reserve_block i s in
          set_ram s (memset (u32 (i * block_size)) 0 block_size (ram s)));;
        mret (u32 (i * block_size))
      else alloc_page_loop n (i + 1)
  end.

Definition pmm_alloc_page : M pmm Z :=
  s ← get;
  if negb (pmm_initialized s) then mret 0 else
  zoom (spinlock_lock (pmm_lock s));;
  pa ← alloc_page_loop (Z.to_nat (total_blocks s)) 0;
  zoom (spinlock_unlock (pmm_lock s));;
  mret pa.

Definition pmm_free_page (paddr : Z) : M pmm unit :=
  s ← get;
  let block := paddr / block_size in
  if negb (pmm_initialized s) || (total_blocks s <=? block) then mret tt else
  zoom (spinlock_lock (pmm_lock s));;
  modify (λ s, if bitmap_test block s =? 0 then s else release_block block s);;
  zoom (spinlock_unlock (pmm_lock s));;
  mret tt.

Definition pmm_get_free_page_count : M pmm Z :=
  s ← get;
  if negb (pmm_initialized s) then mret 0 else
  zoom (spinlock_lock (pmm_lock s));;
  blocks ← gets free_blocks;
  zoom (spinlock_unlock (pmm_lock s));;
  mret blocks.

(** The run found by [pmm_alloc_pages] is marked, counted and zeroed. *)
Definition commit_run (start num_pages : Z) (s : pmm) : pmm :=
  let s := for_blocks (Z.to_nat (start +u num_pages - start)) start bitmap_set s in
  let s := set_free_blocks s (free_blocks s -u num_pages) in
  set_ram s (memset (u32 (start * block_size)) 0 (u32 (num_pages * block_size)) (ram s)).

(** The search loop of [pmm_alloc_pages]: [found] free blocks in a row end
    just before [i], the first of them [start]. *)
Fixpoint alloc_pages_loop (num_pages : Z) (n : nat) (i start found : Z) : M pmm Z :=
  match n with
  | O => mret 0
  | S n =>
      s ← get;
      if bitmap_test i s =? 0 then
        let start := if found =? 0 then i else start in
        let found := found +u 1 in
        if found =? num_pages then
          modify (commit_run start num_pages);;
          mret (u32 (start * block_size))
        else alloc_pages_loop num_pages n (i + 1) start found
      else alloc_pages_loop num_pages n (i + 1) start 0
  end.

Definition pmm_alloc_pages (num_pages : Z) : M pmm Z :=
  s ← get;
  if negb (pmm_initialized s) || (num_pages =? 0) then mret 0 else
  zoom (spinlock_lock (pmm_lock s));;
  pa ← alloc_pages_loop num_pages (Z.to_nat (total_blocks s)) 0 0 0;
  zoom (spinlock_unlock (pmm_lock s));;
  mret pa.

Definition pmm_free_pages (paddr num_pages : Z) : M pmm unit :=
  s ← get;
  if negb (pmm_initialized s) || (num_pages =? 0) then mret tt else
  let start_block := paddr / block_size in
  zoom (spinlock_lock (pmm_lock s));;
  modify (for_blocks (Z.to_nat (start_block +u num_pages - start_block)) start_block
    (λ i s, if (i <? total_blocks s) && negb (bitmap_test i s =? 0)
            then release_block i s else s));;
  zoom (spinlock_unlock (pmm_lock s));;
  mret tt.

(** Evaluation on a machine of 64 pages with the bitmap at page 2. *)
Definition pmm_boot : pmm := mk_pmm (λ _, 0) 0 0 0 None false spinlocks_boot.

(** ** The abstract view: which page frames are free *)

Definition free_block (s : pmm) (b : Z) : bool := bitmap_test b s =? 0.

(** How many of the first [n] blocks are free. *)
Fixpoint count_free (f : Z → bool) (n : nat) : Z :=
  match n with
  | O => 0
  | S n => count_free f n + Z.b2z (f (Z.of_nat n))
  end.

(** A block as the bitmap sees it: its bit in its byte. *)
Lemma bitmap_test_bit s b :
  0 <= b → bitmap_test b s = Z.b2z (Z.testbit (bitmap_byte b s) (b mod 8)).
Proof.
  intros Hb. unfold bitmap_test. pose proof (Z.mod_pos_bound b 8 ltac:(lia)).
  rewrite Z.testbit_spec' by lia.
  change 1 with (Z.ones 1). rewrite Z.land_ones by lia.
  by rewrite Z.shiftr_div_pow2 by lia.
Qed.

Lemma free_block_bit s b :
  0 <= b → free_block s b = negb (Z.testbit (bitmap_byte b s) (b mod 8)).
Proof.
  intros Hb. unfold free_block. rewrite bitmap_test_bit by done.
  by destruct (Z.testbit _ _).
Qed.

Lemma u8_testbit x k : 0 <= k < 8 → Z.testbit (u8 x) k = Z.testbit x k.
Proof.
  intros Hk. unfold u8. change 256 with (2 ^ 8).
  by rewrite Z.mod_pow2_bits_low by lia.
Qed.

Lemma one_shifted_bit k j : 0 <= k → 0 <= j → Z.testbit (Z.shiftl 1 k) j = (j =? k).
Proof.
  intros Hk Hj. rewrite Z.shiftl_mul_pow2, Z.mul_1_l by lia.
  rewrite Z.pow2_bits_eqb by lia. apply Z.eqb_sym.
Qed.

(** Two different blocks that share a byte have different bits. *)
Lemma same_byte_bits b b2 : b / 8 = b2 / 8 → b ≠ b2 → b2 mod 8 ≠ b mod 8.
Proof.
  intros Hd Hne Hm. apply Hne.
  rewrite (Z.div_mod b 8), (Z.div_mod b2 8) by lia. congruence.
Qed.

Lemma free_block_set s b b2 :
  0 <= b → 0 <= b2 →
  free_block (bitmap_set b s) b2 = if decide (b = b2) then false else free_block s b2.
Proof.
  intros Hb Hb2. rewrite !free_block_bit by done. unfold bitmap_byte, bitmap_set, store. simpl.
  pose proof (Z.mod_pos_bound b 8 ltac:(lia)). pose proof (Z.mod_pos_bound b2 8 ltac:(lia)).
  destruct (Z.eqb_spec (bitmap_4k s + b2 / 8) (bitmap_4k s + b / 8)) as [He|He].
  - rewrite !u8_testbit, Z.lor_spec, u8_testbit, one_shifted_bit by lia.
    unfold bitmap_byte. rewrite <- He. case_decide as Hd.
    + subst. by rewrite Z.eqb_refl, orb_true_r.
    + rewrite (proj2 (Z.eqb_neq _ _)), orb_false_r; [done|].
      apply same_byte_bits; [lia|done].
  - by rewrite decide_False by congruence.
Qed.

Lemma free_block_clear s b b2 :
  0 <= b → 0 <= b2 →
  free_block (bitmap_clear b s) b2 = if decide (b = b2) then true else free_block s b2.
Proof.
  intros Hb Hb2. rewrite !free_block_bit by done. unfold bitmap_byte, bitmap_clear, store. simpl.
  pose proof (Z.mod_pos_bound b 8 ltac:(lia)). pose proof (Z.mod_pos_bound b2 8 ltac:(lia)).
  destruct (Z.eqb_spec (bitmap_4k s + b2 / 8) (bitmap_4k s + b / 8)) as [He|He].
  - rewrite !u8_testbit, Z.land_spec, u8_testbit, Z.lnot_spec, one_shifted_bit by lia.
    unfold bitmap_byte. rewrite <- He. case_decide as Hd.
    + subst. by rewrite Z.eqb_refl, andb_false_r.
    + rewrite (proj2 (Z.eqb_neq _ _)); [by rewrite andb_true_r|].
      apply same_byte_bits; [lia|done].
  - by rewrite decide_False by congruence.
Qed.

(** Flipping one block changes the count by one. *)
Lemma count_free_ext f g n :
  (∀ b, 0 <= b < Z.of_nat n → f b = g b) → count_free f n = count_free g n.
Proof.
  induction n as [|n IH]; intros H; simpl; [done|].
  rewrite IH, (H (Z.of_nat n)) by (intros; try apply H; lia). done.
Qed.

Lemma count_free_flip f g b n :
  0 <= b < Z.of_nat n → (∀ x, 0 <= x → x ≠ b → f x = g x) →
  count_free g n = count_free f n - Z.b2z (f b) + Z.b2z (g b).
Proof.
  intros Hb Hfg. induction n as [|n IH]; [lia|]. simpl.
  destruct (decide (b = Z.of_nat n)) as [->|Hne].
  - rewrite (count_free_ext g f) by (intros; symmetry; apply Hfg; lia). lia.
  - rewrite IH, <- (Hfg (Z.of_nat n)) by (congruence || lia). lia.
Qed.

Lemma count_free_bound f n : 0 <= count_free f n <= Z.of_nat n.
Proof. induction n as [|n IH]; simpl; [lia|]. destruct (f (Z.of_nat n)); simpl; lia. Qed.

(** ** The invariant *)

Definition bitmap_bytes (s : pmm) : Z := DIV_ROUND_UP (total_blocks s) 8.

(** The allocator is up, the counter counts, and everything below the end of
    the bitmap is in use. *)
Record pmm_core (s : pmm) : Prop := {
  wf_init : pmm_initialized s = true;
  wf_total : 0 <= total_blocks s < 1048576;
  wf_bitmap : 4096 <= bitmap_4k s < 4294967296 ∧ bitmap_4k s mod 4096 = 0 ∧
              bitmap_4k s + bitmap_bytes s <= 4294967296;
  wf_reserved : ∀ b, 0 <= b < total_blocks s → b < reserve_blocks s → free_block s b = false;
  wf_count : free_blocks s = count_free (free_block s) (Z.to_nat (total_blocks s));
}.

(** Between operations the lock is free as well. *)
Record pmm_wf (s : pmm) : Prop := {
  wf_core : pmm_core s;
  wf_lock : ∃ i, pmm_lock s = Some i ∧ pmm_locks s !! i = Some LOCK_UNLOCKED;
}.

Lemma pmm_core_set_locks s t : pmm_core s → pmm_core (set_pmm_locks s t).
Proof. by intros []. Qed.

#[export] Hint Resolve wf_init wf_core pmm_core_set_locks : kern.

(** *** What a change of the bitmap leaves alone *)

Record pmm_frame (s t : pmm) : Prop := {
  fr_bitmap : bitmap_4k t = bitmap_4k s;
  fr_total : total_blocks t = total_blocks s;
  fr_lock : pmm_lock t = pmm_lock s;
  fr_init : pmm_initialized t = pmm_initialized s;
  fr_locks : pmm_locks t = pmm_locks s;
  fr_ram : ∀ a, ¬ (bitmap_4k s <= a < bitmap_4k s + bitmap_bytes s) → ram t a = ram s a;
}.

Lemma pmm_frame_refl s : pmm_frame s s.
Proof. by constructor. Qed.

Lemma pmm_frame_trans s t u : pmm_frame s t → pmm_frame t u → pmm_frame s u.
Proof.
  intros H1 H2. destruct H1, H2. constructor; try congruence.
  intros a Ha. rewrite fr_ram1, fr_ram0; [done..|].
  unfold bitmap_bytes. rewrite fr_bitmap0, fr_total0. done.
Qed.

Lemma bitmap_bytes_val s :
  0 <= total_blocks s <= 1048576 → bitmap_bytes s = (total_blocks s + 7) / 8.
Proof.
  intros H. unfold bitmap_bytes, DIV_ROUND_UP. rewrite u32_small; [f_equal; lia|].
  unfold is_u32. lia.
Qed.

Lemma bitmap_byte_inside s b :
  0 <= b < total_blocks s → total_blocks s <= 1048576 → 0 <= b / 8 < bitmap_bytes s.
Proof.
  intros Hb Ht. rewrite bitmap_bytes_val by lia.
  split; [apply Z.div_pos; lia|].
  apply Z.div_lt_upper_bound; [lia|].
  pose proof (Z.mul_succ_div_gt (total_blocks s + 7) 8 ltac:(lia)). lia.
Qed.

Lemma store_frame s b v :
  0 <= b < total_blocks s → total_blocks s <= 1048576 →
  pmm_frame s (set_ram s (store (bitmap_4k s + b / 8) v (ram s))).
Proof.
  intros Hb Ht. pose proof (bitmap_byte_inside s b Hb Ht).
  constructor; try done. intros a Ha. simpl. unfold store. zcase; [lia|done].
Qed.

Lemma reserve_blocks_val s :
  0 <= total_blocks s <= 1048576 → 0 <= bitmap_4k s < 4294967296 →
  reserve_blocks s = bitmap_4k s / 4096 + (bitmap_bytes s + 4095) / 4096.
Proof.
  intros Ht Hb. unfold reserve_blocks. fold (bitmap_bytes s). unfold DIV_ROUND_UP, block_size.
  rewrite bitmap_bytes_val by done.
  assert (0 <= (total_blocks s + 7) / 8 <= 131073).
  { split; [apply Z.div_pos; lia|apply Z.div_le_upper_bound; lia]. }
  rewrite (u32_small (_ + 4096 - 1)) by (unfold is_u32; lia).
  replace (_ + 4096 - 1) with ((total_blocks s + 7) / 8 + 4095) by lia.
  apply u32_small. unfold is_u32.
  split; [apply Z.add_nonneg_nonneg; apply Z.div_pos; lia|].
  assert (bitmap_4k s / 4096 < 1048576) by (apply Z.div_lt_upper_bound; lia).
  assert (((total_blocks s + 7) / 8 + 4095) / 4096 <= 1048576) by (apply Z.div_le_upper_bound; lia).
  lia.
Qed.

(** A block past the reserved ones lies above the bitmap. *)
Lemma reserved_above s b :
  pmm_core s → reserve_blocks s <= b → bitmap_4k s + bitmap_bytes s <= b * 4096.
Proof.
  intros Hwf Hb. destruct (wf_bitmap s Hwf) as (H1 & H2 & H3).
  pose proof (wf_total s Hwf).
  assert (0 <= bitmap_bytes s).
  { rewrite bitmap_bytes_val by lia. apply Z.div_pos; lia. }
  rewrite reserve_blocks_val in Hb by lia.
  pose proof (Z.div_mod (bitmap_4k s) 4096 ltac:(lia)).
  pose proof (Z.mul_succ_div_gt (bitmap_bytes s + 4095) 4096 ltac:(lia)). lia.
Qed.

Lemma free_block_unreserved s b :
  pmm_core s → 0 <= b < total_blocks s → free_block s b = true → reserve_blocks s <= b.
Proof.
  intros Hwf Hb Hf. destruct (Z.lt_ge_cases b (reserve_blocks s)); [|done].
  by rewrite (wf_reserved s Hwf) in Hf by lia.
Qed.

Lemma free_block_above s b :
  pmm_core s → 0 <= b < total_blocks s → free_block s b = true →
  bitmap_4k s + bitmap_bytes s <= b * 4096.
Proof. intros. by apply reserved_above, free_block_unreserved. Qed.

(** *** One block taken, one block given back *)

Lemma bitmap_set_frame s b :
  0 <= b < total_blocks s → total_blocks s <= 1048576 → pmm_frame s (bitmap_set b s).
Proof. apply store_frame. Qed.

Lemma reserve_block_frame s b :
  0 <= b < total_blocks s → total_blocks s <= 1048576 → pmm_frame s (reserve_block b s).
Proof. intros Hb Ht. by destruct (bitmap_set_frame s b Hb Ht). Qed.

Lemma release_block_frame s b :
  0 <= b < total_blocks s → total_blocks s <= 1048576 → pmm_frame s (release_block b s).
Proof.
  intros Hb Ht. unfold release_block, bitmap_clear.
  by destruct (store_frame s b
    (u8 (Z.land (bitmap_byte b s) (u8 (Z.lnot (Z.shiftl 1 (b mod 8)))))) Hb Ht).
Qed.

(** The set of free blocks that remains when the blocks [lo..hi-1] are taken,
    and the one that results when they are given back. *)
Definition minus_run (f : Z → bool) (lo hi : Z) (b : Z) : bool :=
  f b && negb ((lo <=? b) && (b <? hi)).
Definition plus_run (f : Z → bool) (lo hi : Z) (b : Z) : bool :=
  f b || ((lo <=? b) && (b <? hi)).

Lemma count_free_u32 f n : Z.of_nat n <= 1048576 → is_u32 (count_free f n).
Proof. intros. pose proof (count_free_bound f n). unfold is_u32. lia. Qed.

(** [free_blocks] stays the number of free blocks. *)
Lemma reserve_block_count s b :
  0 <= b < total_blocks s → total_blocks s <= 1048576 → free_block s b = true →
  free_blocks s = count_free (free_block s) (Z.to_nat (total_blocks s)) →
  free_blocks (reserve_block b s)
  = count_free (free_block (reserve_block b s)) (Z.to_nat (total_blocks s)).
Proof.
  intros Hb Ht Hf Hc. simpl. rewrite Hc.
  assert (count_free (free_block (reserve_block b s)) (Z.to_nat (total_blocks s))
    = count_free (free_block s) (Z.to_nat (total_blocks s)) - 1) as ->.
  { rewrite (count_free_ext _ (λ x, if decide (b = x) then false else free_block s x))
      by (intros x Hx; apply free_block_set; lia).
    rewrite (count_free_flip (free_block s) _ b); [|lia|].
    - rewrite Hf, decide_True by done. simpl. lia.
    - intros x _ Hx. by rewrite decide_False by congruence. }
  apply u32_small.
  assert (1 <= count_free (free_block s) (Z.to_nat (total_blocks s))).
  { rewrite (count_free_flip (λ x, if decide (b = x) then false else free_block s x)
      (free_block s) b), Hf, decide_True; [|done|lia|].
    - pose proof (count_free_bound (λ x, if decide (b = x) then false else free_block s x)
        (Z.to_nat (total_blocks s))). simpl. lia.
    - intros x _ Hx. by rewrite decide_False by congruence. }
  pose proof (count_free_bound (free_block s) (Z.to_nat (total_blocks s))).
  unfold is_u32. lia.
Qed.

Lemma release_block_count s b :
  0 <= b < total_blocks s → total_blocks s <= 1048576 → free_block s b = false →
  free_blocks s = count_free (free_block s) (Z.to_nat (total_blocks s)) →
  free_blocks (release_block b s)
  = count_free (free_block (release_block b s)) (Z.to_nat (total_blocks s)).
Proof.
  intros Hb Ht Hf Hc. simpl. rewrite Hc.
  assert (count_free (free_block (release_block b s)) (Z.to_nat (total_blocks s))
    = count_free (free_block s) (Z.to_nat (total_blocks s)) + 1) as ->.
  { rewrite (count_free_ext _ (λ x, if decide (b = x) then true else free_block s x))
      by (intros x Hx; apply free_block_clear; lia).
    rewrite (count_free_flip (free_block s) _ b); [|lia|].
    - rewrite Hf, decide_True by done. simpl. lia.
    - intros x _ Hx. by rewrite decide_False by congruence. }
  apply u32_small. pose proof (count_free_bound (free_block s) (Z.to_nat (total_blocks s))).
  unfold is_u32. lia.
Qed.

(** *** Loops over blocks *)

Lemma for_blocks_ind (I : Z → pmm → Prop) body n i s :
  I i s →
  (∀ j t, i <= j < i + Z.of_nat n → I j t → I (j + 1) (body j t)) →
  I (i + Z.of_nat n) (for_blocks n i body s).
Proof.
  revert i s. induction n as [|n IH]; intros i s Hi Hstep; simpl.
  - by rewrite Z.add_0_r.
  - replace (i + Z.of_nat (S n)) with (i + 1 + Z.of_nat n) by lia.
    apply IH; [apply Hstep; [lia|done]|]. intros j t Hj. apply Hstep. lia.
Qed.

(** What a loop that takes or gives back blocks has done so far. *)
Record progress (s : pmm) (f : Z → bool) (t : pmm) : Prop := {
  pr_frame : pmm_frame s t;
  pr_free : ∀ b, 0 <= b → free_block t b = f b;
  pr_count : free_blocks t = count_free (free_block t) (Z.to_nat (total_blocks s));
}.

Lemma minus_run_S f lo j b :
  lo <= j → minus_run f lo (j + 1) b = if decide (j = b) then false else minus_run f lo j b.
Proof.
  intros Hj. unfold minus_run. case_decide.
  - subst. replace (lo <=? b) with true by (symmetry; lia).
    replace (b <? b + 1) with true by (symmetry; lia). by rewrite andb_false_r.
  - replace (b <? j + 1) with (b <? j) by (destruct (b <? j) eqn:E; lia). done.
Qed.

Lemma plus_run_S f lo j b :
  lo <= j → plus_run f lo (j + 1) b = if decide (j = b) then true else plus_run f lo j b.
Proof.
  intros Hj. unfold plus_run. case_decide.
  - subst. replace (lo <=? b) with true by (symmetry; lia).
    replace (b <? b + 1) with true by (symmetry; lia). by rewrite orb_true_r.
  - replace (b <? j + 1) with (b <? j) by (destruct (b <? j) eqn:E; lia). done.
Qed.

Lemma run_empty f lo b : minus_run f lo lo b = f b ∧ plus_run f lo lo b = f b.
Proof.
  unfold minus_run, plus_run.
  replace ((lo <=? b) && (b <? lo)) with false by (symmetry; apply andb_false_iff; lia).
  by rewrite andb_true_r, orb_false_r.
Qed.

Lemma progress_reserve s f lo j t :
  0 <= lo <= j → j < total_blocks s → total_blocks s <= 1048576 →
  progress s (minus_run f lo j) t →
  progress s (minus_run f lo (j + 1))
    (if bitmap_test j t =? 0 then reserve_block j t else t).
Proof.
  intros Hlo Hj Ht [Hfr Hfree Hc].
  pose proof (fr_total _ _ Hfr) as Htot. rewrite <- Htot in Hc.
  fold (free_block t j). destruct (free_block t j) eqn:E; split.
  - eapply pmm_frame_trans; [done|]. apply reserve_block_frame; lia.
  - intros b Hb. rewrite minus_run_S, <- Hfree by lia. apply free_block_set; lia.
  - rewrite <- Htot. apply reserve_block_count; [lia..|done|done].
  - done.
  - intros b Hb. rewrite minus_run_S by lia.
    case_decide; [by subst|by apply Hfree].
  - by rewrite <- Htot.
Qed.

Lemma progress_release s f lo j t :
  0 <= lo <= j → j < total_blocks s → total_blocks s <= 1048576 →
  progress s (plus_run f lo j) t →
  progress s (plus_run f lo (j + 1))
    (if bitmap_test j t =? 0 then t else release_block j t).
Proof.
  intros Hlo Hj Ht [Hfr Hfree Hc].
  pose proof (fr_total _ _ Hfr) as Htot. rewrite <- Htot in Hc.
  fold (free_block t j). destruct (free_block t j) eqn:E; split.
  - done.
  - intros b Hb. rewrite plus_run_S by lia.
    case_decide; [by subst|by apply Hfree].
  - by rewrite <- Htot.
  - eapply pmm_frame_trans; [done|]. apply release_block_frame; lia.
  - intros b Hb. rewrite plus_run_S, <- Hfree by lia. apply free_block_clear; lia.
  - rewrite <- Htot. apply release_block_count; [lia..|done|done].
Qed.

Lemma progress_start s f :
  (∀ b, 0 <= b → free_block s b = f b) →
  free_blocks s = count_free (free_block s) (Z.to_nat (total_blocks s)) →
  progress s f s.
Proof. intros. split; [apply pmm_frame_refl|done..]. Qed.

(** The loop of [pmm_mark_used]. *)
Lemma mark_loop s lo hi :
  0 <= lo → hi <= total_blocks s → total_blocks s <= 1048576 → lo <= hi →
  free_blocks s = count_free (free_block s) (Z.to_nat (total_blocks s)) →
  progress s (minus_run (free_block s) lo hi)
    (for_blocks (Z.to_nat (hi - lo)) lo
       (λ i s, if bitmap_test i s =? 0 then reserve_block i s else s) s).
Proof.
  intros Hlo Hhi Ht Hle Hc.
  replace hi with (lo + Z.of_nat (Z.to_nat (hi - lo))) at 1 by lia.
  apply (for_blocks_ind (λ j, progress s (minus_run (free_block s) lo j))).
  - apply progress_start; [|done]. intros b _. symmetry. apply run_empty.
  - intros j t Hj. apply progress_reserve; lia.
Qed.

(** The loop of [pmm_free_pages]. *)
Lemma free_loop s lo hi :
  0 <= lo <= hi → 0 <= total_blocks s <= 1048576 →
  free_blocks s = count_free (free_block s) (Z.to_nat (total_blocks s)) →
  progress s (plus_run (free_block s) lo (hi `min` total_blocks s))
    (for_blocks (Z.to_nat (hi - lo)) lo
       (λ i s, if (i <? total_blocks s) && negb (bitmap_test i s =? 0)
               then release_block i s else s) s).
Proof.
  intros Hlo Ht Hc.
  replace hi with (lo + Z.of_nat (Z.to_nat (hi - lo))) at 1 by lia.
  apply (for_blocks_ind (λ j, progress s (plus_run (free_block s) lo (j `min` total_blocks s)))).
  - apply progress_start; [|done]. intros b _. symmetry.
    unfold plus_run. replace ((lo <=? b) && _) with false by (symmetry; lia).
    apply orb_false_r.
  - intros j t Hj Hp. rewrite (fr_total _ _ (pr_frame _ _ _ Hp)).
    destruct (Z.ltb_spec j (total_blocks s)); simpl.
    + rewrite (Z.min_l (j + 1)), (Z.min_l j) in * by lia.
      pose proof (progress_release s _ lo j t ltac:(lia) ltac:(lia) ltac:(lia) Hp).
      by destruct (bitmap_test j t =? 0).
    + by rewrite (Z.min_r (j + 1)), (Z.min_r j) in * by lia.
Qed.

(** The loop of [pmm_init], over blocks that are all in use. *)
Lemma init_loop s lo hi :
  0 <= lo → lo <= hi <= total_blocks s → total_blocks s <= 1048576 →
  free_blocks s = count_free (free_block s) (Z.to_nat (total_blocks s)) →
  (∀ b, lo <= b < hi → free_block s b = false) →
  progress s (plus_run (free_block s) lo hi)
    (for_blocks (Z.to_nat (hi - lo)) lo release_block s).
Proof.
  intros Hlo Hhi Ht Hc Hused.
  replace hi with (lo + Z.of_nat (Z.to_nat (hi - lo))) at 1 by lia.
  apply (for_blocks_ind (λ j, progress s (plus_run (free_block s) lo j))).
  - apply progress_start; [|done]. intros b _. symmetry. apply run_empty.
  - intros j t Hj Hp.
    pose proof (progress_release s _ lo j t ltac:(lia) ltac:(lia) ltac:(lia) Hp) as Hp'.
    fold (free_block t j) in Hp'. rewrite (pr_free _ _ _ Hp) in Hp' by lia.
    unfold plus_run at 2 in Hp'. rewrite Hused in Hp' by lia.
    by replace ((lo <=? j) && (j <? j)) with false in Hp' by (symmetry; lia).
Qed.

(** The marking loop of [pmm_alloc_pages], which leaves the counter for
    later. *)
Record taken (s : pmm) (lo hi : Z) (t : pmm) : Prop := {
  tk_frame : pmm_frame s t;
  tk_counter : free_blocks t = free_blocks s;
  tk_free : ∀ b, 0 <= b → free_block t b = minus_run (free_block s) lo hi b;
  tk_count : count_free (free_block t) (Z.to_nat (total_blocks s))
             = count_free (free_block s) (Z.to_nat (total_blocks s)) - (hi - lo);
}.

Lemma set_loop s lo hi :
  0 <= lo → lo <= hi <= total_blocks s → total_blocks s <= 1048576 →
  (∀ b, lo <= b < hi → free_block s b = true) →
  taken s lo hi (for_blocks (Z.to_nat (hi - lo)) lo bitmap_set s).
Proof.
  intros Hlo Hhi Ht Hfree.
  replace hi with (lo + Z.of_nat (Z.to_nat (hi - lo))) at 1 by lia.
  apply (for_blocks_ind (taken s lo)).
  - split; [apply pmm_frame_refl|done| |lia]. intros b _. symmetry. apply run_empty.
  - intros j t Hj [Hfr Hn Hf Hc]. pose proof (fr_total _ _ Hfr) as Htot.
    assert (free_block t j = true) as Htj.
    { rewrite Hf by lia. unfold minus_run. rewrite Hfree by lia. simpl. lia. }
    split.
    + eapply pmm_frame_trans; [done|]. apply bitmap_set_frame; lia.
    + done.
    + intros b Hb. rewrite minus_run_S, <- Hf by lia. apply free_block_set; lia.
    + rewrite (count_free_flip (free_block t) _ j), Htj; [|lia|].
      * rewrite free_block_set, decide_True by (lia || done). simpl. lia.
      * intros x Hx Hne. by rewrite free_block_set, decide_False by (congruence || lia).
Qed.

(** *** First fit *)

Definition free_run (f : Z → bool) (b n : Z) : Prop := ∀ x, b <= x < b + n → f x = true.

(** The loop returns the lowest free run of [np] blocks, committed, or 0 when
    there is none. *)
Lemma alloc_pages_loop_spec s np n i start found :
  0 <= i → i + Z.of_nat n = total_blocks s → total_blocks s <= 1048576 →
  0 <= found < np → found <= i → (found ≠ 0 → start = i - found) →
  (∀ x, i - found <= x < i → free_block s x = true) →
  (∀ b, 0 <= b < i - found → ∃ x, b <= x < b + np ∧ free_block s x = false) →
  (alloc_pages_loop np n i start found s = Ret 0 s ∧
   ∀ b, 0 <= b → b + np <= total_blocks s → ¬ free_run (free_block s) b np)
  ∨ ∃ b, 0 <= b ∧ b + np <= total_blocks s ∧ free_run (free_block s) b np ∧
      (∀ b', 0 <= b' < b → ¬ free_run (free_block s) b' np) ∧
      alloc_pages_loop np n i start found s
      = Ret (u32 (b * block_size)) (commit_run b np s).
Proof.
  revert i start found. induction n as [|n IH]; intros i start found Hi Hn Ht Hf Hfi Hs Hrun Hlow.
  - left. split; [done|]. intros b Hb Hbn Hr.
    destruct (Hlow b) as (x & Hx & Hux); [lia|]. rewrite (Hr x Hx) in Hux. done.
  - cbn [alloc_pages_loop]. unfold get, mbind, M_bind. fold (free_block s i).
    destruct (free_block s i) eqn:E.
    + set (start' := if found =? 0 then i else start).
      assert (start' = i - found) as Hs'.
      { unfold start'. zcase; [lia|]. by apply Hs. }
      rewrite (u32_small (found + 1)) by (unfold is_u32; lia).
      destruct (Z.eqb_spec (found + 1) np) as [He|He].
      * right. exists (i - found). rewrite Hs'. split_and!; [lia|lia| |..|done].
        -- intros x Hx. destruct (decide (x = i)) as [->|]; [done|]. apply Hrun. lia.
        -- intros b' Hb' Hr. destruct (Hlow b') as (x & Hx & Hux); [lia|].
           by rewrite (Hr x Hx) in Hux.
      * apply IH; try lia.
        -- intros x Hx. destruct (decide (x = i)) as [->|]; [done|]. apply Hrun. lia.
        -- intros b Hb. apply Hlow. lia.
    + apply IH; try lia. intros b Hb.
      destruct (Z.lt_ge_cases b (i - found)); [by apply Hlow; lia|].
      exists i. split; [lia|done].
Qed.

(** Zeroing above the bitmap does not change which blocks are free. *)
Lemma zero_page_free s pa n b :
  0 <= b < total_blocks s → total_blocks s <= 1048576 →
  bitmap_4k s + bitmap_bytes s <= pa →
  free_block (set_ram s (memset pa 0 n (ram s))) b = free_block s b.
Proof.
  intros Hb Ht Hpa. pose proof (bitmap_byte_inside s b Hb Ht).
  rewrite !free_block_bit by lia. f_equal. f_equal.
  unfold bitmap_byte, memset. simpl.
  by replace ((pa <=? _) && _) with false by (symmetry; lia).
Qed.

Lemma bitmap_bytes_ext s t : total_blocks t = total_blocks s → bitmap_bytes t = bitmap_bytes s.
Proof. unfold bitmap_bytes. by intros ->. Qed.

Lemma reserve_blocks_ext s t :
  bitmap_4k t = bitmap_4k s → total_blocks t = total_blocks s →
  reserve_blocks t = reserve_blocks s.
Proof. unfold reserve_blocks. by intros -> ->. Qed.

(** A change that keeps the geometry and takes no reserved block out of use
    keeps the invariant. *)
Lemma pmm_core_frame s t :
  pmm_core s → bitmap_4k t = bitmap_4k s → total_blocks t = total_blocks s →
  pmm_initialized t = pmm_initialized s →
  (∀ b, 0 <= b < total_blocks s → b < reserve_blocks s → free_block t b = false) →
  free_blocks t = count_free (free_block t) (Z.to_nat (total_blocks s)) →
  pmm_core t.
Proof.
  intros [H1 H2 H3 H4 H5] Hb Ht Hi Hr Hc. split.
  - congruence.
  - by rewrite Ht.
  - by rewrite (bitmap_bytes_ext s), Hb.
  - rewrite (reserve_blocks_ext s), Ht by done. done.
  - by rewrite Ht.
Qed.

(** What [commit_run] does to a state with a free run. *)
Record committed (s : pmm) (b np : Z) (t : pmm) : Prop := {
  cm_core : pmm_core t;
  cm_geometry : bitmap_4k t = bitmap_4k s ∧ total_blocks t = total_blocks s;
  cm_lock : pmm_lock t = pmm_lock s ∧ pmm_locks t = pmm_locks s;
  cm_free : ∀ x, 0 <= x < total_blocks s → free_block t x = minus_run (free_block s) b (b + np) x;
  cm_counter : free_blocks t = free_blocks s - np;
  cm_zero : ∀ a, b * 4096 <= a < (b + np) * 4096 → ram t a = 0;
  cm_ram : ∀ a, ¬ (b * 4096 <= a < (b + np) * 4096) →
    ¬ (bitmap_4k s <= a < bitmap_4k s + bitmap_bytes s) → ram t a = ram s a;
}.

Lemma commit_run_spec s b np :
  pmm_core s → 0 <= b → 0 < np → b + np <= total_blocks s →
  free_run (free_block s) b np → committed s b np (commit_run b np s).
Proof.
  intros Hwf Hb Hnp Hend Hrun. pose proof (wf_total s Hwf) as Ht.
  pose proof (free_block_above s b Hwf ltac:(lia) (Hrun b ltac:(lia))) as Habove.
  unfold commit_run, block_size.
  rewrite (u32_small (b + np)), (u32_small (b * 4096)), (u32_small (np * 4096))
    by (unfold is_u32; lia).
  pose proof (set_loop s b (b + np) Hb ltac:(lia) ltac:(lia) Hrun) as Htk.
  set (t := for_blocks _ _ _ _) in *. destruct Htk as [Hfr Hn Hf Hc]. destruct Hfr.
  pose proof (count_free_bound (free_block t) (Z.to_nat (total_blocks s))) as Hcb.
  rewrite Hn, (wf_count s Hwf), u32_small by (unfold is_u32; lia).
  match goal with |- committed _ _ _ ?t2 => set (T := t2) end.
  assert (∀ x, 0 <= x < total_blocks s → free_block T x = minus_run (free_block s) b (b + np) x)
    as Hfree.
  { intros x Hx. rewrite <- Hf by lia.
    rewrite <- (zero_page_free t (b * 4096) (np * 4096) x); [reflexivity|lia..|].
    rewrite (bitmap_bytes_ext s), fr_bitmap0 by done. lia. }
  split; try done.
  - apply (pmm_core_frame s); try done.
    + intros x Hx Hr. rewrite Hfree by lia. unfold minus_run.
      by rewrite (wf_reserved s Hwf).
    + simpl. replace np with (b + np - b) at 1 by lia. rewrite <- Hc.
      apply count_free_ext. intros x Hx. rewrite Hfree, Hf by lia. done.
  - simpl. by rewrite (wf_count s Hwf).
  - intros a Ha. simpl. unfold memset. by replace ((_ <=? _) && _) with true by (symmetry; lia).
  - intros a Ha Hbm. simpl. unfold memset. replace ((_ <=? _) && _) with false by (symmetry; lia).
    by apply fr_ram0.
Qed.

(** *** The operations under the invariant *)

Lemma committed_unlocked s b np t l :
  committed (set_pmm_locks s l) b np t → committed s b np (set_pmm_locks t (pmm_locks s)).
Proof. intros [H1 H2 [H3 _] H4 H5 H6 H7]. split; try done. by apply pmm_core_set_locks. Qed.

Lemma wf_same_lock s t :
  pmm_wf s → pmm_core t → pmm_lock t = pmm_lock s → pmm_locks t = pmm_locks s → pmm_wf t.
Proof. intros [_ Hl] Hc H1 H2. split; [done|]. by rewrite H1, H2. Qed.

Lemma alloc_pages_open s np i :
  pmm_wf s → 0 < np → pmm_lock s = Some i →
  pmm_alloc_pages np s =
  (zoom (spinlock_lock (Some i));;
   pa ← alloc_pages_loop np (Z.to_nat (total_blocks s)) 0 0 0;
   zoom (spinlock_unlock (Some i));; mret pa) s.
Proof.
  intros Hwf Hnp Hl. unfold pmm_alloc_pages. unfold get at 1. rewrite (bind_Ret _ _ _ s s) by done.
  rewrite (wf_init s), Hl by auto with kern.
  by replace (negb true || (np =? 0)) with false by (symmetry; simpl; lia).
Qed.

Lemma alloc_pages_spec s np :
  pmm_wf s → 0 < np < 4294967296 →
  (pmm_alloc_pages np s = Ret 0 s ∧
   ∀ b, 0 <= b → b + np <= total_blocks s → ¬ free_run (free_block s) b np)
  ∨ ∃ b t, pmm_alloc_pages np s = Ret (b * 4096) t ∧ 0 < b ∧ b + np <= total_blocks s ∧
      free_run (free_block s) b np ∧ (∀ b', 0 <= b' < b → ¬ free_run (free_block s) b' np) ∧
      committed s b np t.
Proof.
  intros Hwf Hnp. destruct (wf_lock s Hwf) as (i & Hl & Hfree).
  rewrite (alloc_pages_open s np i) by (done || lia).
  set (sl := set_pmm_locks s (<[i:=LOCK_LOCKED]> (pmm_locks s))).
  assert (pmm_core sl) as Hcl by (by apply pmm_core_set_locks, wf_core).
  pose proof (wf_total sl Hcl).
  destruct (alloc_pages_loop_spec sl np (Z.to_nat (total_blocks s)) 0 0 0)
    as [[Hres Hno]|(b & Hb & Hend & Hrun & Hlow & Hres)]; try (simpl in *; lia).
  - left. split; [|done]. etrans; [by eapply (with_lock i s); [|exact Hres|]|].
    destruct s; done.
  - right. pose proof (commit_run_spec sl b np Hcl Hb ltac:(lia) Hend Hrun) as Hcm.
    exists b, (set_pmm_locks (commit_run b np sl) (pmm_locks s)). split_and!; try done.
    + etrans; [by eapply (with_lock i s); [|exact Hres|apply Hcm]|].
      unfold block_size. rewrite u32_small by (unfold is_u32; lia). done.
    + pose proof (free_block_above sl b Hcl ltac:(lia) (Hrun b ltac:(lia))).
      destruct (wf_bitmap sl Hcl) as (? & _ & _).
      pose proof (bitmap_bytes_val sl ltac:(lia)).
      pose proof (Z.div_pos (total_blocks sl + 7) 8 ltac:(lia) ltac:(lia)). lia.
    + by eapply committed_unlocked.
Qed.

Lemma free_pages_eq s pa np :
  pmm_wf s → 0 < np → 0 <= pa / 4096 → pa / 4096 + np < 4294967296 →
  ∃ t, pmm_free_pages pa np s = Ret tt t ∧
    progress s (plus_run (free_block s) (pa / 4096) ((pa / 4096 + np) `min` total_blocks s)) t.
Proof.
  intros Hwf Hnp Hlo Hhi. destruct (wf_lock s Hwf) as (i & Hl & Hfree).
  unfold pmm_free_pages. unfold get at 1. rewrite (bind_Ret _ _ _ s s) by done.
  rewrite (wf_init s), Hl by auto with kern.
  replace (negb true || (np =? 0)) with false by (symmetry; simpl; lia).
  cbv zeta. unfold block_size. rewrite u32_small by (unfold is_u32; lia).
  set (sl := set_pmm_locks s (<[i:=LOCK_LOCKED]> (pmm_locks s))).
  assert (pmm_core sl) as Hcl by (by apply pmm_core_set_locks, wf_core). pose proof (wf_total sl Hcl).
  pose proof (free_loop sl (pa / 4096) (pa / 4096 + np) ltac:(lia) ltac:(lia) (wf_count sl Hcl))
    as [[F1 F2 F3 F4 F5 F6] Hf Hc].
  eexists. split; [by apply (with_lock i s (modify _) tt)|]. by split; [split|..].
Qed.

Lemma progress_wf s f t :
  pmm_wf s → progress s f t →
  (∀ b, 0 <= b < total_blocks s → b < reserve_blocks s → f b = false) → pmm_wf t.
Proof.
  intros Hwf [[F1 F2 F3 F4 F5 F6] Hf Hc] Hr. apply (wf_same_lock s); try done.
  apply (pmm_core_frame s); try done; [by apply wf_core|].
  intros b Hb Hrb. rewrite Hf by lia. by apply Hr.
Qed.

(** Blocks that are already free are skipped. *)
Lemma for_blocks_id n i body s : (∀ j, i <= j < i + Z.of_nat n → body j s = s) →
  for_blocks n i body s = s.
Proof.
  revert i. induction n as [|n IH]; intros i H; simpl; [done|].
  rewrite H by lia. apply IH. intros j Hj. apply H. lia.
Qed.

Lemma free_pages_again s pa np :
  pmm_wf s → 0 < np → 0 <= pa / 4096 → pa / 4096 + np < 4294967296 →
  (∀ b, pa / 4096 <= b < pa / 4096 + np → b < total_blocks s → free_block s b = true) →
  pmm_free_pages pa np s = Ret tt s.
Proof.
  intros Hwf Hnp Hlo Hhi Hfree. destruct (wf_lock s Hwf) as (i & Hl & Hul).
  unfold pmm_free_pages. unfold get at 1. rewrite (bind_Ret _ _ _ s s) by done.
  rewrite (wf_init s), Hl by auto with kern.
  replace (negb true || (np =? 0)) with false by (symmetry; simpl; lia).
  cbv zeta. unfold block_size. rewrite u32_small by (unfold is_u32; lia).
  set (sl := set_pmm_locks s (<[i:=LOCK_LOCKED]> (pmm_locks s))).
  set (body := λ (j : Z) (s : pmm), if (j <? total_blocks s) && negb (bitmap_test j s =? 0)
               then release_block j s else s).
  assert (for_blocks (Z.to_nat (pa / 4096 + np - pa / 4096)) (pa / 4096) body sl = sl) as E.
  { apply for_blocks_id. intros j Hj. unfold body. destruct (Z.ltb_spec j (total_blocks sl)) as [Hj'|];
      [|done]. fold (free_block sl j). change (free_block sl j) with (free_block s j).
    by rewrite Hfree by (simpl in *; lia). }
  etrans; [by eapply (with_lock i s (modify _) tt); [|exact (f_equal (Ret tt) E)|]|].
  by destruct s.
Qed.

(** The state [pmm_init] builds before it releases any block: the bitmap, in
    place, all ones. *)
Lemma all_used s b :
  total_blocks s <= 1048576 → 0 <= b < total_blocks s →
  free_block (set_ram s (memset (bitmap_4k s) 255 (bitmap_bytes s) (ram s))) b = false.
Proof.
  intros Ht Hb. pose proof (bitmap_byte_inside s b Hb Ht).
  pose proof (Z.mod_pos_bound b 8 ltac:(lia)).
  rewrite free_block_bit by lia. unfold bitmap_byte, memset. simpl.
  replace ((_ <=? _) && _) with true by (symmetry; lia).
  change (u8 255) with (Z.ones 8). by rewrite Z.ones_spec_low by lia.
Qed.

Lemma count_none f n : (∀ b, 0 <= b < Z.of_nat n → f b = false) → count_free f n = 0.
Proof.
  intros H. rewrite (count_free_ext f (λ _, false)) by done. clear.
  induction n as [|n IH]; simpl; [done|]. by rewrite IH.
Qed.

Lemma PAGE_ALIGN_up x :
  0 <= x → x + 4095 < 4294967296 → x <= PAGE_ALIGN x <= x + 4095 ∧ PAGE_ALIGN x mod 4096 = 0.
Proof.
  intros Hx Hs. unfold PAGE_ALIGN, PAGE_SIZE. rewrite (u32_small (x + 4096 - 1)), land_page_mask
    by (unfold is_u32; lia).
  pose proof (Z.div_mod (x + 4096 - 1) 4096 ltac:(lia)).
  pose proof (Z.mod_pos_bound (x + 4096 - 1) 4096 ltac:(lia)).
  split; [lia|]. apply Z.mod_mul. lia.
Qed.

Lemma init_bitmap_spec s :
  0 <= total_blocks s <= 1048576 → 0 <= reserve_blocks s →
  let t := init_bitmap s in
  bitmap_4k t = bitmap_4k s ∧ total_blocks t = total_blocks s ∧ pmm_lock t = pmm_lock s ∧
  pmm_locks t = pmm_locks s ∧
  (∀ b, 0 <= b < total_blocks s → free_block t b = (reserve_blocks s <=? b)) ∧
  free_blocks t = count_free (free_block t) (Z.to_nat (total_blocks s)).
Proof.
  intros Ht Hr. unfold init_bitmap. fold (bitmap_bytes s).
  set (s1 := set_ram s (memset (bitmap_4k s) 255 (bitmap_bytes s) (ram s))).
  set (s2 := set_free_blocks s1 0).
  assert (∀ b, 0 <= b < total_blocks s → free_block s2 b = false) as Hused
    by (intros b Hb; apply (all_used s b); lia).
  assert (free_blocks s2 = count_free (free_block s2) (Z.to_nat (total_blocks s2))) as Hc.
  { rewrite count_none; [done|]. intros b Hb. apply Hused. simpl in Hb. lia. }
  change (reserve_blocks s2) with (reserve_blocks s).
  change (total_blocks s2) with (total_blocks s).
  destruct (Z.le_gt_cases (reserve_blocks s) (total_blocks s)) as [Hle|Hgt].
  - destruct (init_loop s2 (reserve_blocks s) (total_blocks s)) as [[? ? ? ? ? ?] Hf Hc'];
      simpl; [lia|lia|lia|done|intros b Hb; apply Hused; lia|].
    split_and!; try done. intros b Hb. rewrite Hf by lia. unfold plus_run. rewrite Hused by lia.
    simpl. destruct (Z.leb_spec (reserve_blocks s) b); simpl; lia.
  - replace (Z.to_nat (total_blocks s - reserve_blocks s)) with 0%nat by lia. simpl.
    split_and!; try done. intros b Hb. rewrite Hused by lia. symmetry. lia.
Qed.

(** The alloc loop for one page is the loop for runs of one page. *)
Lemma alloc_page_loop_run n i start s :
  0 <= i → i + Z.of_nat n < 1048576 →
  alloc_page_loop n i s = alloc_pages_loop 1 n i start 0 s.
Proof.
  revert i start. induction n as [|n IH]; intros i start Hi Hn; [done|].
  cbn [alloc_page_loop alloc_pages_loop]. unfold get, mbind, M_bind.
  destruct (bitmap_test i s =? 0); [|apply IH; lia].
  change (0 =? 0) with true. change (0 +u 1 =? 1) with true. cbv iota zeta.
  unfold commit_run. rewrite (u32_small (i + 1)) by (unfold is_u32; lia).
  by replace (Z.to_nat (i + 1 - i)) with 1%nat by lia.
Qed.

(** [pmm_init] from a machine with a lock left, and room for the bitmap. *)
Lemma pmm_init_result s mem pa i :
  pmm_initialized s = false → spinlock_scan 0 (pmm_locks s) = Some i →
  is_u32 mem → 0 < pa → pa + 139264 <= 4294967296 →
  ∃ t, pmm_init mem pa s = Ret tt t ∧ pmm_wf t ∧ total_blocks t = mem / 4096 ∧
    bitmap_4k t = PAGE_ALIGN pa ∧
    (∀ b, 0 <= b < total_blocks t → free_block t b = (reserve_blocks t <=? b)).
Proof.
  intros Hi Hscan Hmem Hpa Hroom. unfold is_u32 in Hmem.
  destruct (PAGE_ALIGN_up pa ltac:(lia) ltac:(lia)) as [Hal Hmod].
  assert (4096 <= PAGE_ALIGN pa) as Hlow.
  { destruct (Z.lt_ge_cases (PAGE_ALIGN pa) 4096); [|done].
    rewrite Z.mod_small in Hmod by lia. lia. }
  assert (0 <= mem / 4096 < 1048576) as Htot
    by (split; [apply Z.div_pos; lia|apply Z.div_lt_upper_bound; lia]).
  unfold pmm_init. unfold get at 1. rewrite (bind_Ret _ _ _ s s), Hi by done.
  replace (pa =? 0) with false by (symmetry; lia).
  erewrite bind_Ret; [|apply zoom_Ret; unfold spinlock_alloc;
    cbn [part pmm_lock_table]; by rewrite Hscan].
  set (s1 := set_pmm_locks s (<[i:=LOCK_UNLOCKED]> (pmm_locks s))).
  rewrite (bind_Ret _ _ _ tt (set_pmm_lock s1 (Some i))) by done.
  set (s2 := set_pmm_lock s1 (Some i)).
  assert (pmm_locks s2 !! i = Some LOCK_UNLOCKED) as Hul.
  { simpl. apply list_lookup_insert_eq. apply spinlock_scan_Some in Hscan as (k & -> & Hk & _).
    by eapply lookup_lt_Some. }
  set (f := λ s, set_pmm_initialized (init_bitmap _) true).
  set (sl := set_pmm_locks s2 (<[i:=LOCK_LOCKED]> (pmm_locks s2))).
  set (s3 := set_geometry sl (PAGE_ALIGN pa) (mem / block_size)).
  assert (bitmap_bytes s3 <= 131072) as Hbb.
  { rewrite bitmap_bytes_val by (simpl; unfold block_size; lia). simpl.
    apply Z.lt_succ_r, Z.div_lt_upper_bound; unfold block_size; lia. }
  destruct (init_bitmap_spec s3) as (B1 & B2 & B3 & B4 & B5 & B6);
    [simpl; unfold block_size; lia|apply u32_range|].
  assert (reserve_blocks (f sl) = reserve_blocks s3) as Hres by (by apply reserve_blocks_ext).
  eexists. split; [by apply (with_lock i s2 (modify f) tt (f sl))|].
  split; [split; [apply pmm_core_set_locks; split|]|]; simpl.
  - done.
  - fold s3. rewrite B2. simpl. unfold block_size. lia.
  - fold s3. rewrite (bitmap_bytes_ext s3), B1 by exact B2. simpl. lia.
  - fold s3. rewrite B2, Hres. intros b Hb Hb'.
    change (free_block (init_bitmap s3) b = false). rewrite B5 by done. lia.
  - fold s3. by rewrite B2, B6.
  - fold s3. exists i. by rewrite B3.
  - fold s3. rewrite B1, B2. split_and!; [done..|].
    intros b Hb. change (free_block (init_bitmap s3) b = (reserve_blocks (f sl) <=? b)).
    by rewrite Hres, B5.
Qed.

(** A machine of 64 frames with its bitmap at frame 2. *)
Definition pmm_small : pmm :=
  match pmm_init 262144 8192 pmm_boot with Ret _ s => s | _ => pmm_boot end.

Lemma pmm_small_wf : pmm_wf pmm_small.
Proof.
  destruct (pmm_init_result pmm_boot 262144 8192 0) as (t & Ht & Hwf & _);
    [done|done|unfold is_u32; lia|lia|lia|].
  unfold pmm_small. by rewrite Ht.
Qed.

Lemma mark_used_result s paddr size :
  pmm_wf s → 0 < paddr → 0 < size → paddr + size + 4095 < 4294967296 →
  ∃ t, pmm_mark_used paddr size s = Ret tt t ∧
    progress s (minus_run (free_block s) (paddr / 4096)
                  (((paddr + size + 4095) / 4096) `min` total_blocks s)) t.
Proof.
  intros Hwf Hp Hs Hsum. destruct (wf_lock s Hwf) as (i & Hl & Hul).
  unfold pmm_mark_used. unfold get at 1. rewrite (bind_Ret _ _ _ s s) by done.
  rewrite (wf_init s), Hl by auto with kern.
  replace (negb true || (paddr =? 0) || (size =? 0)) with false by (symmetry; simpl; lia).
  unfold block_size. replace (paddr + size + 4096 - 1) with (paddr + size + 4095) by lia.
  rewrite u32_small by (unfold is_u32; lia). cbv iota zeta.
  replace (if total_blocks s <? _ then _ else _)
    with (((paddr + size + 4095) / 4096) `min` total_blocks s) by (zcase; lia).
  set (lo := paddr / 4096). set (hi := _ `min` _).
  set (sl := set_pmm_locks s (<[i:=LOCK_LOCKED]> (pmm_locks s))).
  assert (pmm_core sl) as Hcl by (by apply pmm_core_set_locks, wf_core).
  pose proof (wf_total sl Hcl) as Ht. simpl in Ht.
  assert (0 <= lo) by (apply Z.div_pos; lia).
  eexists. split; [eapply (with_lock i s (modify _) tt); [done|reflexivity|]|].
  - destruct (Z.le_gt_cases lo hi) as [Hle|Hgt].
    + by destruct (mark_loop sl lo hi ltac:(lia) ltac:(simpl; lia) ltac:(simpl; lia) Hle
        (wf_count sl Hcl)) as [[] _ _].
    + by replace (Z.to_nat (hi - lo)) with 0%nat by lia.
  - destruct (Z.le_gt_cases lo hi) as [Hle|Hgt].
    + destruct (mark_loop sl lo hi ltac:(lia) ltac:(simpl; lia) ltac:(simpl; lia) Hle
        (wf_count sl Hcl)) as [[] Hf Hc].
      by split; [split|..].
    + replace (Z.to_nat (hi - lo)) with 0%nat by lia. simpl.
      split; [by split| |exact (wf_count sl Hcl)].
      intros b Hb. unfold minus_run. replace ((lo <=? b) && _) with false by (symmetry; lia).
      by rewrite andb_true_r.
Qed.

(** ** Properties *)

(** C7: on a well-formed allocator [pmm_alloc_pages] returns, and is first fit:
    it returns 0 and changes nothing exactly when no run of [np] free frames
    exists; otherwise it returns the address of the lowest such run, which
    lies above the bitmap, is afterwards in use, counted and zeroed, with
    every other frame, and every byte outside that run and the bitmap, as
    before; and the allocator is well-formed again. *)
Theorem pmm_alloc_pages_first_fit s np :
  pmm_wf s → 0 < np < 4294967296 →
  (pmm_alloc_pages np s = Ret 0 s ∧
   ∀ b, 0 <= b → b + np <= total_blocks s → ¬ free_run (free_block s) b np)
  ∨ ∃ b t, pmm_alloc_pages np s = Ret (b * 4096) t ∧ pmm_wf t ∧
      0 < b ∧ b + np <= total_blocks s ∧
      free_run (free_block s) b np ∧ (∀ b', 0 <= b' < b → ¬ free_run (free_block s) b' np) ∧
      committed s b np t.
Proof.
  intros Hwf Hnp. destruct (alloc_pages_spec s np Hwf Hnp) as [H|(b & t & H)]; [by left|].
  right. exists b, t. destruct H as (? & ? & ? & ? & ? & Hcm). split_and!; try done.
  apply (wf_same_lock s); by apply Hcm || done.
Qed.

(** [pmm_alloc_page] is [pmm_alloc_pages(1)]: same result and same final
    state, whatever the state of the bitmap. *)
Theorem pmm_alloc_page_is_one_page_run s :
  total_blocks s < 1048576 → pmm_alloc_page s = pmm_alloc_pages 1 s.
Proof.
  intros Ht. unfold pmm_alloc_page, pmm_alloc_pages, get, mbind, M_bind.
  change (1 =? 0) with false. rewrite orb_false_r.
  destruct (negb (pmm_initialized s)); [done|].
  destruct (zoom (spinlock_lock (pmm_lock s)) s); [|done..].
  destruct (Z.lt_ge_cases (total_blocks s) 0).
  - by replace (Z.to_nat (total_blocks s)) with 0%nat by lia.
  - by rewrite (alloc_page_loop_run _ 0 0) by lia.
Qed.

(** what [pmm_alloc_pages] hands out, [pmm_free_pages] takes back: the set
    of free frames and the counter are those before the allocation, the
    allocator is well-formed, and freeing the same run a second time changes
    nothing. *)
Theorem pmm_alloc_free_roundtrip s np pa t :
  pmm_wf s → 0 < np < 4294967296 → pmm_alloc_pages np s = Ret pa t → pa ≠ 0 →
  ∃ u, pmm_free_pages pa np t = Ret tt u ∧ pmm_wf u ∧
    (∀ b, 0 <= b < total_blocks s → free_block u b = free_block s b) ∧
    free_blocks u = free_blocks s ∧ pmm_free_pages pa np u = Ret tt u.
Proof.
  intros Hwf Hnp Hal Hpa. pose proof (wf_total s (wf_core s Hwf)).
  destruct (alloc_pages_spec s np Hwf Hnp)
    as [[H0 _]|(b & t' & Hal' & Hb & Hend & Hrun & _ & Hcm)]; [congruence|].
  rewrite Hal in Hal'. injection Hal' as -> <-.
  destruct Hcm as [Hcore [Hbm Htot] [Hlk Hlks] Hfree _ _ _].
  assert (pmm_wf t) as Hwft by (by apply (wf_same_lock s)).
  assert (b * 4096 / 4096 = b) as Hdiv by (apply Z.div_mul; lia).
  destruct (free_pages_eq t (b * 4096) np Hwft ltac:(lia) ltac:(lia) ltac:(lia)) as (u & Hu & Hp).
  rewrite Hdiv, Htot, Z.min_l in Hp by lia.
  assert (∀ x, 0 <= x < total_blocks s → free_block u x = free_block s x) as Hback.
  { intros x Hx. rewrite (pr_free _ _ _ Hp) by lia. unfold plus_run. rewrite Hfree by lia.
    unfold minus_run. destruct ((b <=? x) && (x <? b + np)) eqn:E; simpl.
    - rewrite orb_true_r. symmetry. apply Hrun. lia.
    - by rewrite andb_true_r, orb_false_r. }
  assert (pmm_wf u) as Hwfu.
  { apply (progress_wf t _ u Hwft Hp). rewrite Htot, (reserve_blocks_ext s t) by done.
    intros x Hx Hxr. rewrite <- (pr_free _ _ _ Hp), Hback by lia.
    by apply (wf_reserved s (wf_core s Hwf)). }
  assert (total_blocks u = total_blocks s) as Htu by (rewrite (fr_total t u); [done|apply Hp]).
  exists u. split_and!; try done.
  - rewrite (wf_count u), (wf_count s), Htu by (by apply wf_core).
    apply count_free_ext. intros x Hx. apply Hback. lia.
  - apply free_pages_again; rewrite ?Hdiv, ?Htu; try (done || lia).
    intros x Hx Hxt. rewrite Hback by lia. apply Hrun. lia.
Qed.

Lemma pmm_alloc_pages_first_fit_witness :
  ∃ t, pmm_alloc_pages 5 pmm_small = Ret 12288 t ∧ pmm_wf t.
Proof.
  destruct (pmm_alloc_pages_first_fit pmm_small 5 pmm_small_wf ltac:(lia))
    as [[H _]|(b & t & H & Hwf & _)].
  - assert (match pmm_alloc_pages 5 pmm_small with Ret a _ => a | _ => 1 end = 12288) as E
      by (vm_compute; reflexivity). rewrite H in E. discriminate E.
  - exists t. split; [|exact Hwf].
    assert (match pmm_alloc_pages 5 pmm_small with Ret a _ => a | _ => 1 end = 12288) as E
      by (vm_compute; reflexivity). rewrite H in E |- *. cbn in E. by rewrite E.
Defined.

Lemma pmm_alloc_page_is_one_page_run_witness :
  total_blocks pmm_small = 64 ∧ pmm_alloc_page pmm_small = pmm_alloc_pages 1 pmm_small.
Proof.
  split; [vm_compute; reflexivity|].
  apply (pmm_alloc_page_is_one_page_run pmm_small). vm_compute. reflexivity.
Defined.

Definition pmm_small_after : pmm :=
  match pmm_alloc_pages 5 pmm_small with Ret _ t => t | _ => pmm_small end.

Lemma pmm_alloc_free_roundtrip_witness :
  ∃ u, pmm_free_pages 12288 5 pmm_small_after = Ret tt u ∧ free_blocks u = free_blocks pmm_small.
Proof.
  destruct (pmm_alloc_free_roundtrip pmm_small 5 12288 pmm_small_after pmm_small_wf)
    as (u & Hu & _ & _ & Hc & _); [lia|vm_compute; reflexivity|lia|].
  exists u. split; [exact Hu|exact Hc].
Defined.

(** [pmm_init] on an uninitialised allocator builds a well-formed one: its
    bitmap starts at the next page boundary, and exactly the frames after
    the bitmap are free. *)
Theorem pmm_init_frees_above_bitmap s mem pa i :
  pmm_initialized s = false → spinlock_scan 0 (pmm_locks s) = Some i →
  is_u32 mem → 0 < pa → pa + 139264 <= 4294967296 →
  ∃ t, pmm_init mem pa s = Ret tt t ∧ pmm_wf t ∧ total_blocks t = mem / 4096 ∧
    bitmap_4k t = PAGE_ALIGN pa ∧
    (∀ b, 0 <= b < total_blocks t →
       free_block t b = true ↔ bitmap_4k t + bitmap_bytes t <= b * 4096) ∧
    pmm_init mem pa t = Ret tt t.
Proof.
  intros Hi Hscan Hmem Hpa Hroom.
  destruct (pmm_init_result s mem pa i Hi Hscan Hmem Hpa Hroom) as (t & Ht & Hwf & H1 & H2 & H3).
  exists t. split_and!; try done.
  - intros b Hb. split; [by apply free_block_above, Hb; apply wf_core|].
    intros Hab. rewrite H3 by done. apply Z.leb_le.
    destruct (wf_bitmap t (wf_core t Hwf)) as (? & ? & ?).
    pose proof (wf_total t (wf_core t Hwf)).
    rewrite reserve_blocks_val by lia.
    pose proof (Z.div_mod (bitmap_4k t) 4096 ltac:(lia)).
    assert ((bitmap_bytes t + 4095) / 4096 <= b - bitmap_4k t / 4096); [|lia].
    apply Z.lt_succ_r, Z.div_lt_upper_bound; lia.
  - unfold pmm_init, get, mbind, M_bind. by rewrite (wf_init t (wf_core t Hwf)).
Qed.

Lemma pmm_init_frees_above_bitmap_witness :
  ∃ t, pmm_init 262144 8192 pmm_boot = Ret tt t ∧ pmm_wf t.
Proof.
  destruct (pmm_init_frees_above_bitmap pmm_boot 262144 8192 0) as (t & Ht & Hwf & _);
    [reflexivity|vm_compute; reflexivity|unfold is_u32; lia|lia|lia|].
  by exists t.
Defined.

(** [pmm_mark_used] reserves every frame a boot module touches and no
    other, keeps the allocator well-formed, and writes nothing but the
    bitmap, so the module's bytes survive and no later allocation returns
    its frames. *)
Theorem pmm_mark_used_protects s paddr size :
  pmm_wf s → 0 < paddr → 0 < size → paddr + size + 4095 < 4294967296 →
  ∃ t, pmm_mark_used paddr size s = Ret tt t ∧ pmm_wf t ∧
    (∀ a, paddr <= a < paddr + size → a / 4096 < total_blocks s →
       free_block t (a / 4096) = false) ∧
    (∀ b, 0 <= b < total_blocks s → (b + 1) * 4096 <= paddr ∨ paddr + size <= b * 4096 →
       free_block t b = free_block s b) ∧
    (∀ a, ¬ (bitmap_4k s <= a < bitmap_4k s + bitmap_bytes s) → ram t a = ram s a).
Proof.
  intros Hwf Hp Hs Hsum.
  destruct (mark_used_result s paddr size Hwf Hp Hs Hsum) as (t & Ht & Hpr).
  exists t. pose proof (Z.div_mod paddr 4096 ltac:(lia)).
  pose proof (Z.mod_pos_bound paddr 4096 ltac:(lia)).
  split_and!; [done| | | |apply Hpr].
  - apply (progress_wf s _ t Hwf Hpr). intros b Hb Hr. unfold minus_run.
    by rewrite (wf_reserved s (wf_core s Hwf)).
  - intros a Ha Hat. rewrite (pr_free _ _ _ Hpr) by (apply Z.div_pos; lia).
    unfold minus_run. replace (_ <=? _) with true by (symmetry; apply Z.leb_le, Z.div_le_mono; lia).
    replace (a / 4096 <? _) with true; [by rewrite andb_false_r|]. symmetry. apply Z.ltb_lt.
    assert (a / 4096 < (paddr + size + 4095) / 4096); [|lia].
    apply Z.lt_le_trans with ((a + 4096) / 4096); [|apply Z.div_le_mono; lia].
    replace (a + 4096) with (a + 1 * 4096) by lia. rewrite Z.div_add by lia. lia.
  - intros b Hb Hout. rewrite (pr_free _ _ _ Hpr) by lia. unfold minus_run.
    replace ((_ <=? b) && _) with false; [by rewrite andb_true_r|]. symmetry. apply andb_false_iff.
    destruct Hout as [Ho|Ho]; [left|right]; apply Z.leb_gt || apply Z.ltb_ge.
    + apply Z.lt_le_trans with (b + 1); [lia|]. by apply Z.div_le_lower_bound; lia.
    + assert ((paddr + size + 4095) / 4096 <= b); [|lia].
      apply Z.lt_succ_r, Z.div_lt_upper_bound; lia.
Qed.

Lemma pmm_mark_used_protects_witness :
  ∃ t, pmm_mark_used 20000 9000 pmm_small = Ret tt t ∧ pmm_wf t ∧ free_block t 7 = false.
Proof.
  destruct (pmm_mark_used_protects pmm_small 20000 9000 pmm_small_wf) as (t & Ht & Hwf & Hused & _);
    [lia..|]. exists t. split_and!; [exact Ht|exact Hwf|].
  apply (Hused 28999); [lia|vm_compute; reflexivity].
Defined.
