(* ===== verification/CString.v ===== *)
(** * Strings, memory blocks and formatted output (kernel/lib/string.c)

    A C string that is only read is the list of its bytes before the
    terminator; a pointer into it is a suffix, [*p] is the first byte (0 at
    the end) and moving past the terminator is an error ([None]).  Memory that
    is written is a function from addresses to bytes.  The arguments of a
    variadic call are a list.  [None] is undefined behaviour of the C code:
    reading past the terminator of the format, taking an argument that is not
    there, or writing past a local array. *)

From Stdlib Require Import ZArith Lia Ascii String.
From stdpp Require Import base tactics list option.
From S2P Require Import Prelude Spinlock Pmm.

Open Scope Z_scope.

(** ** Characters *)

Definition ch (a : ascii) : Z := Z.of_N (N_of_ascii a).
Definition bytes_of (s : string) : list Z := map ch (list_ascii_of_string s).

Definition is_digit (c : Z) : bool := (ch "0" <=? c) && (c <=? ch "9").

(** [*p], and [p++] for a pointer that is not at the terminator. *)
Definition peek (p : list Z) : Z := hd 0 p.
Definition step (p : list Z) : option (list Z) :=
  match p with [] => None | _ :: p => Some p end.

(** ** strlen, strcmp *)

Fixpoint strlen (s : list Z) : Z :=
  match s with [] => 0 | _ :: p => strlen p + 1 end.

(** [while ( *s1 != 0 && *s1 == *s2)], then the difference of the bytes. *)
Fixpoint strcmp (s1 s2 : list Z) : Z :=
  match s1, s2 with
  | c1 :: p1, c2 :: p2 => if c1 =? c2 then strcmp p1 p2 else c1 - c2
  | _, _ => peek s1 - peek s2
  end.

(** ** Memory blocks *)

Fixpoint memcpy_loop (n : nat) (i dest src : Z) (m : Z → Z) : Z → Z :=
  match n with
  | O => m
  | S n => memcpy_loop n (i + 1) dest src (store (dest + i) (m (src + i)) m)
  end.
Definition memcpy (dest src size : Z) (m : Z → Z) : Z → Z := memcpy_loop (Z.to_nat size) 0 dest src m.

Fixpoint memset_loop (n : nat) (i dest chr : Z) (m : Z → Z) : Z → Z :=
  match n with
  | O => m
  | S n => memset_loop n (i + 1) dest chr (store (dest + i) (u8 chr) m)
  end.
Definition memset (dest chr size : Z) (m : Z → Z) : Z → Z := memset_loop (Z.to_nat size) 0 dest chr m.

(** ** Numerals *)

(** [while (n > 0) { temp[index++] = digit; n /= base; }] with [room] bytes of
    [temp] left. *)
Fixpoint digits_loop (chr : Z → Z) (base : Z) (room : nat) (n : Z) (temp : list Z) : option (list Z) :=
  if 0 <? n then
    match room with
    | O => None
    | S room => digits_loop chr base room (n / base) (temp ++ [chr (n mod base)])
    end
  else Some temp.

Definition digit_char (a digit : Z) : Z := if digit <? 10 then ch "0" + digit else a + (digit - 10).

(** The bytes of the result; the terminator is not part of it.  [itoa] writes
    none. *)
Definition itoa (num base : Z) : option (list Z) :=
  if (base <? 2) || (36 <? base) then Some [] else
  let is_negative := (num <? 0) && (base =? 10) in
  let n := if is_negative then u32 (- num) else u32 num in
  if n =? 0 then Some [ch "0"] else
  temp ← digits_loop (digit_char (ch "a")) base 32 n [];
  if is_negative
  then (if (length temp <? 32)%nat then Some (reverse (temp ++ [ch "-"])) else None)
  else Some (reverse temp).

Definition utox (num : Z) (uppercase : bool) : option (list Z) :=
  if num =? 0 then Some [ch "0"] else
  temp ← digits_loop (digit_char (if uppercase then ch "A" else ch "a")) 16 16 num [];
  Some (reverse temp).

Definition utoa (num : Z) : option (list Z) :=
  if num =? 0 then Some [ch "0"] else
  temp ← digits_loop (λ d, ch "0" + d) 10 32 num [];
  Some (reverse temp).

(** ** The output cursor of vsnprintf *)

Record out := mk_out { o_mem : Z → Z; o_cur : Z; o_rem : Z; o_written : Z }.

(** [*current++ = c; written++; remaining--]. *)
Definition emit (c : Z) (o : out) : out :=
  mk_out (store (o_cur o) c (o_mem o)) (o_cur o +u 1) (o_rem o - 1) (i32 (o_written o + 1)).
Definition put (c : Z) (o : out) : out := if 0 <? o_rem o then emit c o else o.

(** [while (width > 0)]. *)
Fixpoint pad_loop (n : nat) (c : Z) (o : out) : out :=
  match n with O => o | S n => pad_loop n c (put c o) end.
Definition pad_output (width c : Z) (o : out) : out := pad_loop (Z.to_nat width) c o.

(** [while (len > 0 && *p != 0)] over the bytes of the string. *)
Fixpoint copy_string (s : list Z) (len : nat) (o : out) : out :=
  match s, len with
  | c :: s, S len => copy_string s len (put c o)
  | _, _ => o
  end.

Definition pad_string_output (s : list Z) (width precision : Z) (o : out) : out :=
  let len := strlen s in
  let len := if (0 <=? precision) && (precision <? len) then precision else len in
  let padding := width - len in
  let o := if 0 <? padding then pad_output padding (ch " ") o else o in
  copy_string s (Z.to_nat len) o.

(** [for (i = 0; i < len && remaining > 0; i++)] over a converted number. *)
Fixpoint copy_number (buffer : list Z) (o : out) : out :=
  match buffer with
  | [] => o
  | c :: buffer => if 0 <? o_rem o then copy_number buffer (emit c o) else o
  end.

(** [if (remaining > 1)]: both bytes of a prefix or none. *)
Definition prefix (x : Z) (o : out) : out :=
  if 1 <? o_rem o then emit x (emit (ch "0") o) else o.

(** ** Conversion specifications *)

Record spec := mk_spec {
  zeropad : bool; leftalign : bool; showsign : bool; altform : bool; width : Z; precision : Z }.

Definition is_flag (c : Z) : bool :=
  (c =? ch "0") || (c =? ch "-") || (c =? ch "+") || (c =? ch " ") || (c =? ch "#").

Fixpoint parse_flags (sp : spec) (fmt : list Z) : spec * list Z :=
  match fmt with
  | c :: rest =>
      if is_flag c then
        parse_flags
          (if c =? ch "0" then mk_spec true (leftalign sp) (showsign sp) (altform sp) (width sp) (precision sp)
           else if c =? ch "-" then mk_spec (zeropad sp) true (showsign sp) (altform sp) (width sp) (precision sp)
           else if c =? ch "+" then mk_spec (zeropad sp) (leftalign sp) true (altform sp) (width sp) (precision sp)
           else if c =? ch "#" then mk_spec (zeropad sp) (leftalign sp) (showsign sp) true (width sp) (precision sp)
           else sp) rest
      else (sp, fmt)
  | [] => (sp, [])
  end.

(** [while digit: acc = acc * 10 + digit], a signed 32-bit accumulator. *)
Fixpoint parse_number (acc : Z) (fmt : list Z) : Z * list Z :=
  match fmt with
  | c :: rest => if is_digit c then parse_number (i32 (acc * 10 + (c - ch "0"))) rest else (acc, fmt)
  | [] => (acc, [])
  end.

(** Flags, width, precision and the skipped length modifier. *)
Definition parse_spec (fmt : list Z) : spec * list Z :=
  let '(sp, fmt) := parse_flags (mk_spec false false false false (-1) (-1)) fmt in
  let '(w, fmt) := if is_digit (peek fmt) then parse_number 0 fmt else (-1, fmt) in
  let '(p, fmt) :=
    match fmt with
    | c :: rest => if c =? ch "." then parse_number 0 rest else (-1, fmt)
    | [] => (-1, [])
    end in
  let fmt := match fmt with
             | c :: rest => if (c =? ch "l") || (c =? ch "h") then rest else fmt
             | [] => []
             end in
  (mk_spec (zeropad sp) (leftalign sp) (showsign sp) (altform sp) w p, fmt).

(** Arguments: words and strings; a null string prints as [(null)]. *)
Inductive arg := Word (z : Z) | Str (s : option (list Z)).
Definition take_word (args : list arg) : option (Z * list arg) :=
  match args with Word z :: args => Some (z, args) | _ => None end.
Definition take_str (args : list arg) : option (list Z * list arg) :=
  match args with
  | Str (Some s) :: args => Some (s, args)
  | Str None :: args => Some (bytes_of "(null)", args)
  | _ => None
  end.

(** The padding on the left, before the sign or prefix: [padding] is 0 after
    it was written. *)
Definition pad_left (sp : spec) (padding : Z) (o : out) : Z * out :=
  if negb (leftalign sp) && negb (zeropad sp) && (0 <? padding)
  then (0, pad_output padding (ch " ") o) else (padding, o).
Definition pad_zero (sp : spec) (padding : Z) (o : out) : Z * out :=
  if zeropad sp && (0 <? padding) then (0, pad_output padding (ch "0") o) else (padding, o).
Definition pad_right (sp : spec) (padding : Z) (o : out) : out :=
  if leftalign sp && (0 <? padding) then pad_output padding (ch " ") o else o.

(** [case 'd'].  Without a sign a 0 is stored at [*current] and [current]
    stays. *)
Definition put_sign (is_negative show : bool) (o : out) : out :=
  if 0 <? o_rem o then
    if is_negative then emit (ch "-") o else
    if show then emit (ch "+") o else
    mk_out (store (o_cur o) 0 (o_mem o)) (o_cur o) (o_rem o) (o_written o)
  else o.

Definition put_int (sp : spec) (num : Z) (o : out) : option out :=
  let is_negative := num <? 0 in
  let abs_num := if is_negative then u32 (- num) else u32 num in
  buffer ← utoa abs_num;
  let len := Z.of_nat (length buffer) in
  let sign_len := if is_negative || showsign sp then 1 else 0 in
  let total_len := len + sign_len in
  let padding := if total_len <? width sp then width sp - total_len else 0 in
  let '(padding, o) := pad_left sp padding o in
  let o := put_sign is_negative (showsign sp) o in
  let '(padding, o) := pad_zero sp padding o in
  let o := copy_number buffer o in
  Some (pad_right sp padding o).

(** [case 'u']. *)
Definition put_uint (sp : spec) (num : Z) (o : out) : option out :=
  buffer ← utoa num;
  let len := Z.of_nat (length buffer) in
  let padding := if len <? width sp then width sp - len else 0 in
  let '(padding, o) := pad_left sp padding o in
  let '(padding, o) := pad_zero sp padding o in
  let o := copy_number buffer o in
  Some (pad_right sp padding o).

(** [case 'x'], [case 'X']. *)
Definition put_hex (sp : spec) (num : Z) (upper : bool) (o : out) : option out :=
  buffer ← utox num upper;
  let len := Z.of_nat (length buffer) in
  let alt := altform sp && negb (num =? 0) in
  let prefix_len := if alt then 2 else 0 in
  let padding := if len + prefix_len <? width sp then width sp - len - prefix_len else 0 in
  let '(padding, o) := pad_left sp padding o in
  let o := if alt then prefix (if upper then ch "X" else ch "x") o else o in
  let '(padding, o) := pad_zero sp padding o in
  let o := copy_number buffer o in
  Some (pad_right sp padding o).

(** [case 'c']. *)
Definition put_char (sp : spec) (c : Z) (o : out) : out :=
  let padding := width sp - 1 in
  let o := if negb (leftalign sp) && (0 <? padding) then pad_output padding (ch " ") o else o in
  let o := put c o in
  if leftalign sp && (0 <? padding) then pad_output padding (ch " ") o else o.

(** [case 'p']. *)
Definition put_pointer (num : Z) (o : out) : option out :=
  buffer ← utox num false;
  let len := Z.of_nat (length buffer) in
  let o := prefix (ch "x") o in
  let padding := if len <? 8 then 8 - len else 0 in
  let o := if (0 <? padding) && (0 <? o_rem o) then pad_output padding (ch "0") o else o in
  Some (copy_number buffer o).

(** The switch on the specifier [c]; the bytes of an argument are converted to
    the type the case takes. *)
Definition put_spec (sp : spec) (c : Z) (args : list arg) (o : out) : option (out * list arg) :=
  if c =? ch "s" then
    '(s, args) ← take_str args; Some (pad_string_output s (width sp) (precision sp) o, args)
  else if (c =? ch "d") || (c =? ch "i") then
    '(z, args) ← take_word args; o ← put_int sp (i32 z) o; Some (o, args)
  else if c =? ch "u" then
    '(z, args) ← take_word args; o ← put_uint sp (u32 z) o; Some (o, args)
  else if (c =? ch "x") || (c =? ch "X") then
    '(z, args) ← take_word args; o ← put_hex sp (u32 z) (c =? ch "X") o; Some (o, args)
  else if c =? ch "c" then
    '(z, args) ← take_word args; Some (put_char sp (u8 z) o, args)
  else if c =? ch "p" then
    '(z, args) ← take_word args; o ← put_pointer (u32 z) o; Some (o, args)
  else if c =? ch "%" then Some (put (ch "%") o, args)
  else
    let o := put (ch "%") o in
    Some (if c =? 0 then o else put c o, args).

(** ** vsnprintf *)

(** The main loop; every turn consumes a byte of the format. *)
Fixpoint format_loop (fuel : nat) (fmt : list Z) (args : list arg) (o : out) : option (out * list arg) :=
  match fuel with
  | O => None
  | S fuel =>
      match fmt with
      | [] => Some (o, args)
      | c :: rest =>
          if c =? ch "%" then
            let '(sp, fmt) := parse_spec rest in
            '(o, args) ← put_spec sp (peek fmt) args o;
            fmt ← step fmt;
            format_loop fuel fmt args o
          else format_loop fuel rest args (put c o)
      end
  end.

(** The length estimate of a call with [size] 0: [room] is what is left of the
    255 bytes that strings are counted up to. *)
Definition count_spec (c : Z) (args : list arg) (room written : Z) : option (Z * Z * list arg) :=
  if c =? ch "s" then
    '(s, args) ← take_str args;
    let n := Z.min (strlen s) room in Some (room - n, written + n, args)
  else if (c =? ch "d") || (c =? ch "i") || (c =? ch "u") || (c =? ch "x") || (c =? ch "X")
          || (c =? ch "c") || (c =? ch "p") then
    '(_, args) ← take_word args; Some (room, written + 10, args)
  else if c =? ch "%" then Some (room, written + 1, args)
  else Some (room, written, args).

Fixpoint count_loop (fuel : nat) (fmt : list Z) (args : list arg) (room written : Z) : option Z :=
  match fuel with
  | O => None
  | S fuel =>
      match fmt with
      | [] => Some written
      | c :: rest =>
          if c =? ch "%" then
            let '(_, fmt) := parse_spec rest in
            '(room, written, args) ← count_spec (peek fmt) args room written;
            fmt ← step fmt;
            count_loop fuel fmt args room written
          else count_loop fuel rest args room (written + 1)
      end
  end.

Definition vsnprintf (str size : Z) (fmt : list Z) (args : list arg) (m : Z → Z) : option (Z * (Z → Z)) :=
  if size =? 0 then n ← count_loop (S (length fmt)) fmt args 255 0; Some (n, m) else
  '(o, _) ← format_loop (S (length fmt)) fmt args (mk_out m str (size - 1) 0);
  Some (o_written o, store (o_cur o) 0 (o_mem o)).

Definition snprintf : Z → Z → list Z → list arg → (Z → Z) → option (Z * (Z → Z)) := vsnprintf.

(** ** What the string and block functions compute *)

Lemma strlen_length s : strlen s = Z.of_nat (length s).
Proof. induction s as [|c s IH]; [done|]. simpl. lia. Qed.

(** [strcmp] is 0 exactly on equal strings, and its sign is antisymmetric. *)
Lemma strcmp_eq s1 s2 :
  Forall (λ c, 0 < c) s1 → Forall (λ c, 0 < c) s2 → strcmp s1 s2 = 0 ↔ s1 = s2.
Proof.
  intros H1. revert s2. induction H1 as [|c1 s1 Hc1 _ IH]; intros s2 H2; destruct H2 as [|c2 s2 Hc2 H2]; simpl.
  - done.
  - split; [lia|done].
  - split; [lia|done].
  - destruct (Z.eqb_spec c1 c2) as [->|Hne].
    + rewrite IH by done. split; [by intros ->|by intros [= ->]].
    + split; [lia|intros [= -> _]; lia].
Qed.

Lemma strcmp_antisym s1 s2 : strcmp s2 s1 = - strcmp s1 s2.
Proof.
  revert s2. induction s1 as [|c1 s1 IH]; intros [|c2 s2]; simpl; try lia.
  rewrite (Z.eqb_sym c2 c1). destruct (Z.eqb_spec c1 c2); [apply IH|lia].
Qed.

(** The loop of [memset] sets the block that Pmm.v's [memset] describes. *)
Lemma memset_loop_at n i dest chr m a :
  memset_loop n i dest chr m a =
  if (dest + i <=? a) && (a <? dest + i + Z.of_nat n) then u8 chr else m a.
Proof.
  revert i m. induction n as [|n IH]; intros i m; cbn [memset_loop].
  - replace (_ && _) with false; [done|]. symmetry. apply andb_false_iff. rewrite Z.leb_gt, Z.ltb_ge. lia.
  - rewrite IH. unfold store. destruct (Z.eqb_spec a (dest + i)) as [->|Hne].
    + replace ((dest + (i + 1) <=? dest + i) && _) with false by (symmetry; apply andb_false_iff; left; lia).
      by rewrite (proj2 (Z.leb_le _ _)), (proj2 (Z.ltb_lt _ _)) by lia.
    + replace ((dest + (i + 1) <=? a) && (a <? dest + (i + 1) + Z.of_nat n))
        with ((dest + i <=? a) && (a <? dest + i + Z.of_nat (S n))); [done|].
      apply eq_bool_prop_intro. rewrite !andb_True, !Is_true_true, !Z.leb_le, !Z.ltb_lt. lia.
Qed.

Lemma memset_eq dest chr size m a : 0 <= size → memset dest chr size m a = Pmm.memset dest chr size m a.
Proof. intros H. unfold memset. rewrite memset_loop_at. unfold Pmm.memset. by rewrite Z.add_0_r, Z2Nat.id. Qed.

(** [memcpy] copies when the destination does not lie inside the source
    behind its start; it copies forwards. *)
Lemma memcpy_loop_at n i dest src m a :
  dest <= src ∨ src + i + Z.of_nat n <= dest + i →
  memcpy_loop n i dest src m a =
  if (dest + i <=? a) && (a <? dest + i + Z.of_nat n) then m (src + (a - dest)) else m a.
Proof.
  revert i m. induction n as [|n IH]; intros i m Hd; cbn [memcpy_loop].
  - replace (_ && _) with false; [done|]. symmetry. apply andb_false_iff. rewrite Z.leb_gt, Z.ltb_ge. lia.
  - rewrite IH by lia. unfold store.
    destruct ((dest + (i + 1) <=? a) && (a <? dest + (i + 1) + Z.of_nat n)) eqn:E.
    + zprop. rewrite (proj2 (Z.leb_le _ _)), (proj2 (Z.ltb_lt _ _)) by lia. simpl.
      rewrite (proj2 (Z.eqb_neq _ _)) by lia. done.
    + destruct (Z.eqb_spec a (dest + i)) as [->|Hne].
      * rewrite (proj2 (Z.leb_le _ _)), (proj2 (Z.ltb_lt _ _)) by lia. simpl. f_equal. lia.
      * replace ((dest + i <=? a) && (a <? dest + i + Z.of_nat (S n))) with false; [done|].
        symmetry. apply andb_false_iff in E. apply andb_false_iff. rewrite !Z.leb_gt, !Z.ltb_ge in *. lia.
Qed.

(** ** Numerals: reading back what was written *)

(** The value of a digit character, letters in either case. *)
Definition digit_val (c : Z) : Z :=
  if is_digit c then c - ch "0" else
  if (ch "a" <=? c) && (c <=? ch "z") then c - ch "a" + 10 else c - ch "A" + 10.

Definition value (base : Z) (ds : list Z) : Z := foldl (λ a c, a * base + digit_val c) 0 ds.

(** The value of an optional minus sign and digits. *)
Definition signed_value (base : Z) (ds : list Z) : Z :=
  match ds with
  | c :: rest => if c =? ch "-" then - value base rest else value base ds
  | [] => 0
  end.

Lemma value_snoc base ds c : value base (ds ++ [c]) = value base ds * base + digit_val c.
Proof. unfold value. by rewrite foldl_app. Qed.

Lemma digit_char_val a d : 0 <= d < 36 → a = ch "a" ∨ a = ch "A" → digit_val (digit_char a d) = d.
Proof.
  intros Hd Ha. unfold digit_char, digit_val, is_digit.
  change (ch "0") with 48. change (ch "9") with 57. change (ch "z") with 122.
  destruct Ha as [->| ->]; change (ch "a") with 97; change (ch "A") with 65.
  all: destruct (Z.ltb_spec d 10); repeat (zcase; simpl); lia.
Qed.

(** The loop stores the digits from the lowest on and never leaves [temp]
    when the number is below [base ^ room]. *)
Lemma digits_loop_ok chr base room n temp :
  2 <= base → 0 <= n < base ^ Z.of_nat room →
  (∀ d, 0 <= d < base → digit_val (chr d) = d) →
  ∃ ds, digits_loop chr base room n temp = Some (temp ++ ds) ∧ value base (reverse ds) = n ∧
    (∀ k, n < base ^ Z.of_nat k → (length ds ≤ k)%nat) ∧
    Forall (λ c, ∃ d, 0 <= d < base ∧ c = chr d) ds ∧ (0 < n → ds ≠ []).
Proof.
  intros Hb Hn Hchr. revert n temp Hn. induction room as [|room IH]; intros n temp Hn; cbn [digits_loop].
  - rewrite Z.pow_0_r in Hn. assert (n = 0) as -> by lia. simpl. exists [].
    rewrite app_nil_r. split_and!; try done. intros. simpl. lia.
  - destruct (Z.ltb_spec 0 n) as [H|H].
    2: { assert (n = 0) as -> by lia. exists []. rewrite app_nil_r. split_and!; try done. intros. simpl. lia. }
    rewrite Nat2Z.inj_succ, Z.pow_succ_r in Hn by lia.
    destruct (IH (n / base) (temp ++ [chr (n mod base)])) as (ds & E & Hv & Hl & Hc & _).
    { split; [apply Z.div_pos; lia|]. apply Z.div_lt_upper_bound; lia. }
    pose proof (Z.mod_pos_bound n base ltac:(lia)) as Hm.
    exists (chr (n mod base) :: ds). rewrite E, <- (assoc_L (++)). split_and!; try done.
    + rewrite reverse_cons, value_snoc, Hv, Hchr by done. pose proof (Z.div_mod n base ltac:(lia)). lia.
    + intros [|k] Hk; [rewrite Z.pow_0_r in Hk; lia|]. simpl. rewrite Nat2Z.inj_succ, Z.pow_succ_r in Hk by lia.
      specialize (Hl k). apply le_n_S, Hl, Z.div_lt_upper_bound; lia.
    + constructor; [by exists (n mod base)|done].
Qed.

(** *** The conversions *)

(** What a conversion of [n] to [base] promises: digits that read back as
    [n], at least one and at most [k]. *)
Definition numeral_of (base : Z) (k : nat) (n : Z) (ds : list Z) : Prop :=
  value base ds = n ∧ (0 < length ds ≤ k)%nat ∧ Forall (λ c, 48 <= c <= 122) ds.

Lemma digits_numeral chr base room k n :
  2 <= base <= 36 → (∀ d, 0 <= d < base → digit_val (chr d) = d ∧ 48 <= chr d <= 122) →
  0 < n < base ^ Z.of_nat k → (k ≤ room)%nat →
  ∃ ds, digits_loop chr base room n [] = Some ds ∧ numeral_of base k n (reverse ds).
Proof.
  intros Hb Hchr Hn Hk.
  destruct (digits_loop_ok chr base room n []) as (ds & E & Hv & Hl & Hc & H0); [lia| |apply Hchr|].
  { split; [lia|]. eapply Z.lt_le_trans; [apply Hn|]. apply Z.pow_le_mono_r; lia. }
  exists ds. split; [done|]. split_and!; [done| | |].
  - rewrite length_reverse. specialize (H0 ltac:(lia)). destruct ds; [done|simpl; lia].
  - rewrite length_reverse. apply Hl. lia.
  - apply Forall_reverse. eapply Forall_impl; [|exact Hc]. intros c (d & Hd & ->). by apply Hchr.
Qed.

Lemma zero_numeral base k : (0 < k)%nat → numeral_of base k 0 [ch "0"].
Proof. intros Hk. split_and!; [done|simpl; lia|simpl; lia|]. repeat constructor; vm_compute; congruence. Qed.

Lemma utoa_ok n : is_u32 n → ∃ ds, utoa n = Some ds ∧ numeral_of 10 10 n ds.
Proof.
  intros Hn. unfold utoa, is_u32 in *. destruct (Z.eqb_spec n 0) as [->|Hn0].
  { eexists. split; [done|]. apply zero_numeral. lia. }
  destruct (digits_numeral (λ d, ch "0" + d) 10 32 10 n) as (ds & E & H); [lia| |lia|lia|].
  - intros d Hd. change (ch "0") with 48. split; [|lia]. unfold digit_val, is_digit.
    change (ch "0") with 48. change (ch "9") with 57.
    rewrite (proj2 (Z.leb_le _ _)), (proj2 (Z.leb_le (48 + d) 57)) by lia. simpl. lia.
  - rewrite E. by eexists.
Qed.

Lemma digit_char_ok a d : a = ch "a" ∨ a = ch "A" → 0 <= d < 36 →
  digit_val (digit_char a d) = d ∧ 48 <= digit_char a d <= 122.
Proof.
  intros Ha Hd. split; [by apply digit_char_val|]. unfold digit_char. change (ch "0") with 48.
  destruct Ha as [->| ->]; [change (ch "a") with 97|change (ch "A") with 65]; zcase; lia.
Qed.

Lemma utox_ok n up : is_u32 n → ∃ ds, utox n up = Some ds ∧ numeral_of 16 8 n ds.
Proof.
  intros Hn. unfold utox, is_u32 in *. destruct (Z.eqb_spec n 0) as [->|Hn0].
  { eexists. split; [done|]. apply zero_numeral. lia. }
  destruct (digits_numeral (digit_char (if up then ch "A" else ch "a")) 16 16 8 n) as (ds & E & H); [lia| |lia|lia|].
  - intros d Hd. apply digit_char_ok; [destruct up; auto|lia].
  - rewrite E. by eexists.
Qed.

Lemma itoa_ok num base :
  -2147483648 <= num <= 2147483647 → 2 <= base <= 36 →
  ∃ ds, itoa num base = Some ds ∧
    signed_value base ds = (if base =? 10 then num else u32 num) ∧ (0 < length ds ≤ 32)%nat.
Proof.
  intros Hnum Hb. unfold itoa. rewrite (proj2 (Z.ltb_ge base 2)), (proj2 (Z.ltb_ge 36 base)) by lia. cbn [orb].
  assert (Hplain : ∀ ds, Forall (λ c, 48 <= c <= 122) ds → signed_value base ds = value base ds).
  { intros [|c ds] H; [done|]. inversion H; subst. simpl. rewrite (proj2 (Z.eqb_neq _ _)); [done|].
    change (ch "-") with 45. lia. }
  assert (Hdig : ∀ n, 0 < n < 4294967296 → ∃ ds,
    digits_loop (digit_char (ch "a")) base 32 n [] = Some ds ∧ numeral_of base 32 n (reverse ds)).
  { intros n Hn. apply digits_numeral; [lia| | |lia].
    - intros d Hd. apply digit_char_ok; [by left|lia].
    - split; [lia|]. apply Z.lt_le_trans with (2 ^ 32); [apply Hn|]. apply Z.pow_le_mono_l. lia. }
  destruct (Z.ltb_spec num 0) as [Hneg|Hpos], (Z.eqb_spec base 10) as [->|Hb10]; cbn [andb].
  - rewrite u32_small by (unfold is_u32; lia). rewrite (proj2 (Z.eqb_neq _ 0)) by lia.
    destruct (digits_numeral (digit_char (ch "a")) 10 32 10 (- num)) as (ds & -> & Hv & [_ Hl] & _);
      [lia|intros d Hd; apply digit_char_ok; [by left|lia]|lia|lia|].
    simpl. rewrite length_reverse in Hl. rewrite (proj2 (Nat.ltb_lt _ _)) by lia.
    eexists. split; [done|]. rewrite reverse_snoc. simpl. rewrite Hv, length_reverse. lia.
  - pose proof (u32_range num) as Hr. unfold is_u32 in Hr. destruct (Z.eqb_spec (u32 num) 0) as [E0|E0].
    { eexists. split; [done|]. rewrite E0. split; [reflexivity|simpl; lia]. }
    destruct (Hdig (u32 num) ltac:(lia)) as (ds & -> & Hv & Hl & Hf). simpl. eexists. split; [done|].
    by rewrite Hplain.
  - rewrite (u32_small num) by (unfold is_u32; lia). destruct (Z.eqb_spec num 0) as [->|E0].
    { eexists. split; [done|]. split; [reflexivity|simpl; lia]. }
    destruct (Hdig num ltac:(lia)) as (ds & -> & Hv & Hl & Hf). simpl. eexists. split; [done|]. by rewrite Hplain.
  - rewrite (u32_small num) by (unfold is_u32; lia). destruct (Z.eqb_spec num 0) as [->|E0].
    { eexists. split; [done|]. split; [reflexivity|simpl; lia]. }
    destruct (Hdig num ltac:(lia)) as (ds & -> & Hv & Hl & Hf). simpl. eexists. split; [done|]. by rewrite Hplain.
Qed.

(** Checks of the model against known outputs. *)
Definition demo_print (size : Z) (fmt : string) (args : list arg) : option (Z * list Z) :=
  '(n, m) ← vsnprintf 1000 size (bytes_of fmt) args (λ _, 255);
  Some (n, map (λ i, m (1000 + Z.of_nat i)) (seq 0 (S (Z.to_nat n)))).

Example print_signed :
  demo_print 64 "%d:%5u|%-5d|%05d|%+d" [Word 7; Word 42; Word (-3); Word (-42); Word 9]
  = Some (22, bytes_of "7:   42|-3   |-0042|+9" ++ [0]).
Proof. vm_compute. reflexivity. Qed.

Example print_hex :
  demo_print 64 "%#x %X %p %s%%" [Word 255; Word 48879; Word 4096; Str None]
  = Some (28, bytes_of "0xff BEEF 0x00001000 (null)" ++ [ch "%"; 0]).
Proof. vm_compute. reflexivity. Qed.

Example print_truncated :
  demo_print 8 "hello %s" [Str (Some (bytes_of "world"))] = Some (7, bytes_of "hello w" ++ [0]).
Proof. vm_compute. reflexivity. Qed.
