(* ===== verification/CFormat.v ===== *)
(** * Formatted output stays in its buffer (kernel/lib/string.c, vsnprintf)

    [render] is a reference for the conversions: it lays the parts of a
    conversion out as lists and knows nothing of buffers.  [vsnprintf] is
    shown to write only inside its buffer, to terminate the string, and to
    produce what [render] says whenever that fits. *)

From Stdlib Require Import ZArith Lia Ascii String.
From stdpp Require Import base tactics list option.
From S2P Require Import Prelude Spinlock Pmm CString.

Open Scope Z_scope.

Definition zlen {A} (l : list A) : Z := Z.of_nat (length l).

(** ** The reference *)

(** [k] copies, none when [k] is negative. *)
Definition copies (k c : Z) : list Z := replicate (Z.to_nat k) c.

(** A number with its sign or prefix [pre] in a field: zeros go between the
    two, blanks before or behind. *)
Definition layout (sp : spec) (pre ds : list Z) : list Z :=
  let k := width sp - zlen pre - zlen ds in
  if zeropad sp then pre ++ copies k (ch "0") ++ ds else
  if leftalign sp then pre ++ ds ++ copies k (ch " ") else
  copies k (ch " ") ++ pre ++ ds.

Definition render_int (sp : spec) (num : Z) : option (list Z) :=
  ds ← utoa (Z.abs num);
  Some (layout sp (if num <? 0 then [ch "-"] else if showsign sp then [ch "+"] else []) ds).

Definition render_uint (sp : spec) (num : Z) : option (list Z) :=
  ds ← utoa num; Some (layout sp [] ds).

Definition render_hex (sp : spec) (num : Z) (upper : bool) : option (list Z) :=
  ds ← utox num upper;
  Some (layout sp (if altform sp && negb (num =? 0) then [ch "0"; if upper then ch "X" else ch "x"] else []) ds).

Definition render_pointer (num : Z) : option (list Z) :=
  ds ← utox num false; Some ([ch "0"; ch "x"] ++ copies (8 - zlen ds) (ch "0") ++ ds).

(** Strings are right-aligned, whatever the flags say. *)
Definition render_string (sp : spec) (s : list Z) : list Z :=
  let s := if 0 <=? precision sp then take (Z.to_nat (precision sp)) s else s in
  copies (width sp - zlen s) (ch " ") ++ s.

Definition render_char (sp : spec) (c : Z) : list Z :=
  if leftalign sp then [c] ++ copies (width sp - 1) (ch " ") else copies (width sp - 1) (ch " ") ++ [c].

Definition render_spec (sp : spec) (c : Z) (args : list arg) : option (list Z * list arg) :=
  if c =? ch "s" then '(s, args) ← take_str args; Some (render_string sp s, args)
  else if (c =? ch "d") || (c =? ch "i") then '(z, args) ← take_word args; l ← render_int sp (i32 z); Some (l, args)
  else if c =? ch "u" then '(z, args) ← take_word args; l ← render_uint sp (u32 z); Some (l, args)
  else if (c =? ch "x") || (c =? ch "X") then
    '(z, args) ← take_word args; l ← render_hex sp (u32 z) (c =? ch "X"); Some (l, args)
  else if c =? ch "c" then '(z, args) ← take_word args; Some (render_char sp (u8 z), args)
  else if c =? ch "p" then '(z, args) ← take_word args; l ← render_pointer (u32 z); Some (l, args)
  else if c =? ch "%" then Some ([ch "%"], args)
  else Some ([ch "%"; c], args).

(** A format whose last conversion has no specifier is an error. *)
Fixpoint render (fuel : nat) (fmt : list Z) (args : list arg) : option (list Z) :=
  match fuel with
  | O => None
  | S fuel =>
      match fmt with
      | [] => Some []
      | c :: rest =>
          if c =? ch "%" then
            let '(sp, fmt) := parse_spec rest in
            match fmt with
            | [] => None
            | c :: rest => '(l, args) ← render_spec sp c args; l' ← render fuel rest args; Some (l ++ l')
            end
          else l ← render fuel rest args; Some (c :: l)
      end
  end.

(** ** The cursor and what it wrote *)

Section cursor.
Context (base n : Z) (m0 : Z → Z).
Hypothesis Hbase : 0 <= base ∧ base + n < 4294967296.
Hypothesis Hn : 0 <= n < 2147483647.

Record shows (o : out) (l : list Z) : Prop := {
  sh_cur : o_cur o = base + zlen l;
  sh_rem : o_rem o = n - zlen l;
  sh_room : zlen l <= n;
  sh_written : o_written o = zlen l;
  sh_bytes : ∀ i c, l !! i = Some c → o_mem o (base + Z.of_nat i) = c;
  sh_frame : ∀ a, ¬ (base <= a <= base + n) → o_mem o a = m0 a;
}.

(** [f] appends the bytes [cs] if they fit. *)
Definition writes (f : out → out) (cs : list Z) : Prop :=
  ∀ o l, shows o l → ∃ l', shows (f o) l' ∧ (zlen l + zlen cs <= n → l' = l ++ cs).

Lemma zlen_app {A} (l k : list A) : zlen (l ++ k) = zlen l + zlen k.
Proof. unfold zlen. rewrite length_app. lia. Qed.

Lemma emit_shows c o l : shows o l → zlen l < n → shows (emit c o) (l ++ [c]).
Proof.
  intros [H1 H2 H3 H4 H5 H6] Hlt. assert (0 <= zlen l) by (unfold zlen; lia). constructor; simpl.
  - rewrite H1, zlen_app. change (zlen [c]) with 1. rewrite u32_small by (unfold is_u32; lia). lia.
  - rewrite H2, zlen_app. change (zlen [c]) with 1. lia.
  - rewrite zlen_app. change (zlen [c]) with 1. lia.
  - rewrite H4, zlen_app. change (zlen [c]) with 1. rewrite i32_small by lia. lia.
  - intros i x Hi. unfold store. rewrite H1. destruct (Z.eqb_spec (base + Z.of_nat i) (base + zlen l)) as [E|E].
    + assert (i = length l) as -> by (unfold zlen in E; lia).
      rewrite lookup_app_r, Nat.sub_diag in Hi by lia. by injection Hi.
    + apply lookup_snoc_Some in Hi as [[_ Hi]|[Hi _]]; [by apply H5|]. unfold zlen in E. lia.
  - intros a Ha. unfold store. rewrite H1. rewrite (proj2 (Z.eqb_neq _ _)) by lia. by apply H6.
Qed.

Lemma put_writes c : writes (put c) [c].
Proof.
  intros o l H. unfold put. rewrite (sh_rem _ _ H). destruct (Z.ltb_spec 0 (n - zlen l)).
  - exists (l ++ [c]). split; [|done]. apply emit_shows; [done|lia].
  - exists l. split; [done|]. change (zlen [c]) with 1. lia.
Qed.

Lemma writes_id : writes id [].
Proof. intros o l H. exists l. by rewrite app_nil_r. Qed.

Lemma writes_comp f g a b : writes f a → writes g b → writes (λ o, g (f o)) (a ++ b).
Proof.
  intros Hf Hg o l H. destruct (Hf o l H) as (l1 & H1 & E1). destruct (Hg _ _ H1) as (l2 & H2 & E2).
  exists l2. split; [done|]. rewrite zlen_app. intros Hle. assert (0 <= zlen b) by (unfold zlen; lia).
  rewrite E1 in E2 by lia. rewrite E2 by (rewrite zlen_app; lia). by rewrite (assoc_L (++)).
Qed.

Lemma writes_if (b : bool) f g a a' :
  writes f a → writes g a' → writes (λ o, if b then f o else g o) (if b then a else a').
Proof. by destruct b. Qed.

Lemma pad_writes k c : writes (pad_output k c) (copies k c).
Proof.
  unfold pad_output, copies. induction (Z.to_nat k) as [|j IH]; [apply writes_id|].
  exact (writes_comp (put c) (pad_loop j c) [c] _ (put_writes c) IH).
Qed.

Lemma copy_number_writes ds : writes (copy_number ds) ds.
Proof.
  induction ds as [|c ds IH]; [apply writes_id|]. intros o l H. cbn [copy_number]. rewrite (sh_rem _ _ H).
  destruct (Z.ltb_spec 0 (n - zlen l)).
  - destruct (IH _ _ (emit_shows c o l H ltac:(lia))) as (l' & Hl' & E'). exists l'. split; [done|].
    rewrite zlen_app in E'. change (zlen [c]) with 1 in E'. rewrite <- (assoc_L (++)) in E'.
    unfold zlen in *. simpl. intros Hle. apply E'. lia.
  - exists l. split; [done|]. unfold zlen in *. simpl. lia.
Qed.

Lemma copy_string_writes s len : writes (copy_string s len) (take len s).
Proof.
  revert len. induction s as [|c s IH]; intros [|len]; try apply writes_id.
  exact (writes_comp (put c) (copy_string s len) [c] _ (put_writes c) (IH len)).
Qed.

Lemma prefix_writes x : writes (prefix x) [ch "0"; x].
Proof.
  intros o l H. unfold prefix. rewrite (sh_rem _ _ H). destruct (Z.ltb_spec 1 (n - zlen l)).
  - exists (l ++ [ch "0"; x]). split; [|done].
    replace (l ++ [ch "0"; x]) with ((l ++ [ch "0"]) ++ [x]) by (by rewrite <- (assoc_L (++))).
    apply emit_shows; [apply emit_shows; [done|lia]|]. rewrite zlen_app. change (zlen [ch "0"]) with 1. lia.
  - exists l. split; [done|]. change (zlen [ch "0"; x]) with 2. lia.
Qed.

Lemma sign_writes neg show :
  writes (put_sign neg show) (if neg then [ch "-"] else if show then [ch "+"] else []).
Proof.
  intros o l H. unfold put_sign. rewrite (sh_rem _ _ H). destruct (Z.ltb_spec 0 (n - zlen l)).
  - destruct neg; [|destruct show].
    + exists (l ++ [ch "-"]). split; [|done]. apply emit_shows; [done|lia].
    + exists (l ++ [ch "+"]). split; [|done]. apply emit_shows; [done|lia].
    + exists l. rewrite app_nil_r. split; [|done]. destruct H as [H1 H2 H3 H4 H5 H6]. constructor; simpl; try done.
      * intros i c Hi. unfold store. rewrite H1. rewrite (proj2 (Z.eqb_neq _ _)); [by apply H5|].
        apply lookup_lt_Some in Hi. unfold zlen. lia.
      * intros a Ha. unfold store. rewrite H1. rewrite (proj2 (Z.eqb_neq _ _)); [by apply H6|]. unfold zlen in *. lia.
  - exists l. split; [done|]. destruct neg; [|destruct show]; unfold zlen in *; simpl; try lia.
    by rewrite app_nil_r.
Qed.

(** ** Conversions *)

(** What the cases for numbers have in common: [f] writes the sign or prefix. *)
Definition number_out (sp : spec) (f : out → out) (ds : list Z) (padding : Z) (o : out) : out :=
  let '(padding, o) := pad_left sp padding o in
  let '(padding, o) := pad_zero sp padding (f o) in
  pad_right sp padding (copy_number ds o).

Lemma number_out_Some sp f ds padding o :
  (let '(padding, o) := pad_left sp padding o in
   let '(padding, o) := pad_zero sp padding (f o) in
   Some (pad_right sp padding (copy_number ds o))) = Some (number_out sp f ds padding o).
Proof. unfold number_out. destruct (pad_left sp padding o) as [p o']. by destruct (pad_zero sp p (f o')). Qed.

Lemma number_writes sp f pre ds padding :
  writes f pre → padding = Z.max 0 (width sp - zlen pre - zlen ds) →
  writes (number_out sp f ds padding) (layout sp pre ds).
Proof.
  intros Hf Hp. unfold number_out, pad_left, pad_zero, pad_right, layout.
  assert (Hc : ∀ c, copies padding c = copies (width sp - zlen pre - zlen ds) c).
  { intros c. unfold copies. f_equal. lia. }
  pose proof (copy_number_writes ds) as Hds. pose proof (pad_writes padding (ch "0")) as Hz.
  pose proof (pad_writes padding (ch " ")) as Hb. rewrite Hc in Hz, Hb.
  pose proof (writes_comp _ _ _ _ Hf Hds) as Hfd. pose proof (writes_comp _ _ _ _ Hf (writes_comp _ _ _ _ Hz Hds)) as Hfzd.
  pose proof (writes_comp _ _ _ _ Hb Hfd) as Hbfd. pose proof (writes_comp _ _ _ _ Hfd Hb) as Hfdb.
  rewrite <- (assoc_L (++)) in Hfdb. intros o l Hs. destruct (0 <? padding) eqn:E.
  - destruct (zeropad sp), (leftalign sp); cbn [negb andb]; rewrite ?E; cbn [andb].
    + exact (Hfzd o l Hs).
    + exact (Hfzd o l Hs).
    + exact (Hfdb o l Hs).
    + exact (Hbfd o l Hs).
  - assert (E0 : ∀ c, copies (width sp - zlen pre - zlen ds) c = []).
    { intros c. unfold copies. zprop. by replace (Z.to_nat _) with 0%nat by lia. }
    rewrite !E0, ?app_nil_l, ?app_nil_r.
    destruct (zeropad sp), (leftalign sp); cbn [negb andb]; rewrite ?E; cbn [andb]; rewrite ?E; exact (Hfd o l Hs).
Qed.

Lemma i32_range z : -2147483648 <= i32 z <= 2147483647.
Proof. unfold i32. pose proof (u32_range z) as H. unfold is_u32 in H. zcase; lia. Qed.

Lemma strlen_zlen s : strlen s = zlen s.
Proof. apply strlen_length. Qed.

Lemma pad_if_writes k c : writes (λ o, if 0 <? k then pad_output k c o else o) (copies k c).
Proof.
  destruct (Z.ltb_spec 0 k) as [H|H]; [apply pad_writes|]. unfold copies.
  replace (Z.to_nat k) with 0%nat by lia. apply writes_id.
Qed.

Lemma string_writes sp s : writes (pad_string_output s (width sp) (precision sp)) (render_string sp s).
Proof.
  unfold pad_string_output, render_string. rewrite strlen_zlen.
  set (s' := if 0 <=? precision sp then take (Z.to_nat (precision sp)) s else s).
  set (len := if (0 <=? precision sp) && (precision sp <? zlen s) then precision sp else zlen s).
  assert (zlen s' = len ∧ take (Z.to_nat len) s = s') as [E1 E2].
  { unfold s', len, zlen. destruct (Z.leb_spec 0 (precision sp)); cbn [andb].
    - destruct (Z.ltb_spec (precision sp) (Z.of_nat (length s))).
      + rewrite length_take. split; [lia|done].
      + rewrite Nat2Z.id, take_ge by lia. rewrite take_ge by lia. done.
    - rewrite Nat2Z.id, take_ge by lia. done. }
  rewrite E1, <- E2. exact (writes_comp _ _ _ _ (pad_if_writes (width sp - len) (ch " ")) (copy_string_writes s _)).
Qed.

Lemma int_writes sp num l :
  -2147483648 <= num <= 2147483647 → render_int sp num = Some l →
  ∃ f, (∀ o, put_int sp num o = Some (f o)) ∧ writes f l.
Proof.
  intros Hnum. unfold render_int, put_int.
  replace (if num <? 0 then u32 (- num) else u32 num) with (Z.abs num).
  2: { zcase; rewrite u32_small by (unfold is_u32; lia); lia. }
  destruct (utoa (Z.abs num)) as [ds|]; [|done]. simpl. intros [= <-]. 
  eexists. split; [intros o; apply (number_out_Some sp (put_sign (num <? 0) (showsign sp)))|].
  apply number_writes; [apply sign_writes|].
  unfold zlen. destruct (num <? 0), (showsign sp); cbn [orb length]; zcase; lia.
Qed.

Lemma uint_writes sp num l :
  render_uint sp num = Some l → ∃ f, (∀ o, put_uint sp num o = Some (f o)) ∧ writes f l.
Proof.
  unfold render_uint, put_uint. destruct (utoa num) as [ds|]; [|done]. simpl. intros [= <-].
  eexists. split; [intros o; apply (number_out_Some sp id)|]. apply number_writes; [apply writes_id|].
  unfold zlen. cbn [length]. zcase; lia.
Qed.

Lemma hex_writes sp num up l :
  render_hex sp num up = Some l → ∃ f, (∀ o, put_hex sp num up o = Some (f o)) ∧ writes f l.
Proof.
  unfold render_hex, put_hex. destruct (utox num up) as [ds|]; [|done]. simpl. intros [= <-].
  eexists. split.
  { intros o. exact (number_out_Some sp (λ o, if altform sp && negb (num =? 0)
      then prefix (if up then ch "X" else ch "x") o else o) ds _ o). }
  apply (number_writes sp (λ o, if altform sp && negb (num =? 0) then prefix (if up then ch "X" else ch "x") o else o)).
  - apply (writes_if _ (prefix (if up then ch "X" else ch "x")) id); [apply prefix_writes|apply writes_id].
  - unfold zlen. destruct (altform sp && negb (num =? 0)); cbn [length]; zcase; lia.
Qed.

Lemma pointer_writes num l :
  render_pointer num = Some l → ∃ f, (∀ o, put_pointer num o = Some (f o)) ∧ writes f l.
Proof.
  unfold render_pointer, put_pointer. destruct (utox num false) as [ds|]; [|done]. simpl. intros [= <-].
  eexists. split; [intros o; reflexivity|]. cbn beta.
  set (padding := if Z.of_nat (length ds) <? 8 then 8 - Z.of_nat (length ds) else 0).
  assert (writes (λ o, if (0 <? padding) && (0 <? o_rem o) then pad_output padding (ch "0") o else o)
    (copies (8 - zlen ds) (ch "0"))) as Hpad.
  { replace (copies (8 - zlen ds) (ch "0")) with (copies padding (ch "0")).
    2: { unfold copies, padding, zlen. f_equal. zcase; lia. }
    intros o l H. destruct (0 <? padding) eqn:Ep; cbn [andb].
    - destruct (Z.ltb_spec 0 (o_rem o)) as [Hr|Hr]; [by apply pad_writes|]. exists l. split; [done|].
      rewrite (sh_rem _ _ H) in Hr. unfold copies, zlen in *. rewrite length_replicate. zprop. lia.
    - exists l. split; [done|]. zprop. unfold copies. replace (Z.to_nat padding) with 0%nat by lia.
      intros _. by rewrite app_nil_r. }
  exact (writes_comp _ _ _ _ (prefix_writes (ch "x")) (writes_comp _ _ _ _ Hpad (copy_number_writes ds))).
Qed.

Lemma char_writes sp c : writes (put_char sp c) (render_char sp c).
Proof.
  unfold put_char, render_char. pose proof (pad_if_writes (width sp - 1) (ch " ")) as Hp. pose proof (put_writes c) as Hc.
  destruct (leftalign sp); cbn [negb andb].
  - exact (writes_comp _ _ _ _ Hc Hp).
  - exact (writes_comp _ _ _ _ Hp Hc).
Qed.

(** The switch: each conversion appends its rendering. *)
Lemma put_spec_writes sp c args l args' :
  c ≠ 0 → render_spec sp c args = Some (l, args') →
  ∃ f, (∀ o, put_spec sp c args o = Some (f o, args')) ∧ writes f l.
Proof.
  intros Hc. unfold render_spec, put_spec.
  destruct (c =? ch "s").
  { destruct (take_str args) as [[s a]|]; [|done]. simpl. intros [= <- <-].
    eexists. split; [intros o; reflexivity|]. apply string_writes. }
  assert (Hword : ∀ (conv : Z → Z) r p, (∀ z x, r (conv z) = Some x → ∃ f, (∀ o, p (conv z) o = Some (f o)) ∧ writes f x) →
    ('(z, args) ← take_word args; x ← r (conv z); Some (x, args)) = Some (l, args') →
    ∃ f, (∀ o : out, ('(z, args) ← take_word args; o ← p (conv z) o; Some (o, args)) = Some (f o, args')) ∧ writes f l).
  { intros conv r p Hrp. destruct (take_word args) as [[z a]|]; [|done]. simpl.
    destruct (r (conv z)) as [x|] eqn:Er; [|done]. simpl. intros [= <- <-].
    destruct (Hrp z x Er) as (f & Hf & Hw). exists f. split; [|done]. intros o. by rewrite Hf. }
  destruct ((c =? ch "d") || (c =? ch "i")).
  { apply (Hword i32). intros z x. apply int_writes, i32_range. }
  destruct (c =? ch "u"); [apply (Hword u32); intros z x; apply uint_writes|].
  destruct ((c =? ch "x") || (c =? ch "X")).
  { apply (Hword u32 (λ z, render_hex sp z (c =? ch "X")) (λ z, put_hex sp z (c =? ch "X"))). intros z x. apply hex_writes. }
  destruct (c =? ch "c").
  { destruct (take_word args) as [[z a]|]; [|done]. simpl. intros [= <- <-].
    eexists. split; [intros o; reflexivity|]. apply char_writes. }
  destruct (c =? ch "p"); [apply (Hword u32); intros z x; apply pointer_writes|].
  destruct (c =? ch "%").
  { intros [= <- <-]. eexists. split; [intros o; reflexivity|]. apply put_writes. }
  intros [= <- <-]. eexists. split; [intros o; reflexivity|]. rewrite (proj2 (Z.eqb_neq c 0)) by done.
  exact (writes_comp (put (ch "%")) (put c) [ch "%"] [c] (put_writes _) (put_writes _)).
Qed.

(** ** The loop *)

(** The rest of the format is a suffix of it. *)
Definition shrinks (rest fmt : list Z) : Prop :=
  (length rest ≤ length fmt)%nat ∧ ∀ P : Z → Prop, Forall P fmt → Forall P rest.

Lemma shrinks_refl fmt : shrinks fmt fmt.
Proof. by split. Qed.

Lemma shrinks_cons c rest fmt : shrinks rest fmt → shrinks rest (c :: fmt).
Proof. intros [H1 H2]. split; [simpl; lia|]. intros P HP. inversion HP; auto. Qed.

Lemma shrinks_trans a b c : shrinks a b → shrinks b c → shrinks a c.
Proof. intros [H1 H2] [H3 H4]. split; [lia|auto]. Qed.

Lemma parse_flags_shrinks sp fmt : shrinks (parse_flags sp fmt).2 fmt.
Proof.
  revert sp. induction fmt as [|c fmt IH]; intros sp; simpl; [apply shrinks_refl|].
  destruct (is_flag c); [apply shrinks_cons, IH|apply shrinks_refl].
Qed.

Lemma parse_number_shrinks acc fmt : shrinks (parse_number acc fmt).2 fmt.
Proof.
  revert acc. induction fmt as [|c fmt IH]; intros acc; simpl; [apply shrinks_refl|].
  destruct (is_digit c); [apply shrinks_cons, IH|apply shrinks_refl].
Qed.

Lemma parse_spec_shrinks fmt : shrinks (parse_spec fmt).2 fmt.
Proof.
  unfold parse_spec. set (sp0 := mk_spec _ _ _ _ _ _).
  pose proof (parse_flags_shrinks sp0 fmt) as H1. destruct (parse_flags sp0 fmt) as [sp f1]. simpl in H1.
  assert (H2 : shrinks (if is_digit (peek f1) then parse_number 0 f1 else (-1, f1)).2 f1).
  { destruct (is_digit (peek f1)); [apply parse_number_shrinks|apply shrinks_refl]. }
  destruct (if is_digit (peek f1) then parse_number 0 f1 else (-1, f1)) as [w f2]. simpl in H2.
  assert (H3 : shrinks (match f2 with c :: rest => if c =? ch "." then parse_number 0 rest else (-1, f2)
                                  | [] => (-1, []) end).2 f2).
  { destruct f2 as [|c f2]; [apply shrinks_refl|]. destruct (c =? ch "."); [|apply shrinks_refl].
    apply shrinks_cons, parse_number_shrinks. }
  destruct (match f2 with c :: rest => _ | [] => _ end) as [p f3]. simpl in H3 |- *.
  assert (H4 : shrinks (match f3 with c :: rest => if (c =? ch "l") || (c =? ch "h") then rest else f3 | [] => [] end) f3).
  { destruct f3 as [|c f3]; [apply shrinks_refl|]. destruct (_ || _); [|apply shrinks_refl].
    apply shrinks_cons, shrinks_refl. }
  eapply shrinks_trans; [exact H4|]. eapply shrinks_trans; [exact H3|]. by eapply shrinks_trans.
Qed.

Lemma format_loop_writes fuel fmt args l :
  Forall (λ c, c ≠ 0) fmt → render fuel fmt args = Some l →
  ∃ f args', (∀ o, format_loop fuel fmt args o = Some (f o, args')) ∧ writes f l.
Proof.
  revert fmt args l. induction fuel as [|fuel IH]; intros fmt args l Hf; [done|]. cbn [render format_loop].
  destruct fmt as [|c rest]; [intros [= <-]; exists id, args; split; [done|apply writes_id]|].
  inversion Hf as [|? ? Hc Hrest]; subst. destruct (c =? ch "%").
  - pose proof (parse_spec_shrinks rest) as [_ Hs]. destruct (parse_spec rest) as [sp fmt]. simpl in Hs.
    specialize (Hs _ Hrest). destruct fmt as [|x fmt]; [done|]. inversion Hs as [|? ? Hx Hfmt]; subst.
    destruct (render_spec sp x args) as [[l1 a1]|] eqn:E1; [|done]. simpl.
    destruct (render fuel fmt a1) as [l2|] eqn:E2; [|done]. simpl. intros [= <-].
    destruct (put_spec_writes sp x args l1 a1 Hx E1) as (f1 & Hf1 & Hw1).
    destruct (IH fmt a1 l2 Hfmt E2) as (f2 & a2 & Hf2 & Hw2).
    exists (λ o, f2 (f1 o)), a2. split; [|by apply writes_comp]. intros o. rewrite Hf1. simpl. apply Hf2.
  - destruct (render fuel rest args) as [l2|] eqn:E2; [|done]. simpl. intros [= <-].
    destruct (IH rest args l2 Hrest E2) as (f2 & a2 & Hf2 & Hw2).
    exists (λ o, f2 (put c o)), a2. split; [intros o; apply Hf2|].
    exact (writes_comp (put c) f2 [c] l2 (put_writes c) Hw2).
Qed.
End cursor.

(** One more than the length of the format is enough fuel for the reference,
    and so for the loop. *)
Lemma render_fuel k fuel fmt args :
  (length fmt < k)%nat → (length fmt < fuel)%nat → render fuel fmt args = render k fmt args.
Proof.
  revert k fmt args. induction fuel as [|fuel IH]; intros [|k] fmt args Hk Hf; try lia. cbn [render].
  destruct fmt as [|c rest]; [done|]. simpl in Hk, Hf. destruct (c =? ch "%"); [|by rewrite (IH k) by lia].
  pose proof (parse_spec_shrinks rest) as [Hs _]. destruct (parse_spec rest) as [sp fmt]. simpl in Hs.
  destruct fmt as [|x fmt]; [done|]. simpl in Hs. destruct (render_spec sp x args) as [[l1 a1]|]; [|done].
  simpl. by rewrite (IH k) by lia.
Qed.

(** The rendering of a format. *)
Definition rendering (fmt : list Z) (args : list arg) : option (list Z) := render (S (length fmt)) fmt args.

(** ** The theorems *)

(** C19: [vsnprintf] on a format and arguments that have a rendering returns; it
    changes no byte outside its buffer of [size] bytes, it returns the number
    of bytes before the terminator, which it writes, and that number is below
    [size]; and when the rendering fits, the buffer holds exactly the
    rendering and the result is its length. *)
Theorem vsnprintf_stays_in_buffer str size fmt args m l :
  0 < size < 2147483648 → 0 <= str → str + size <= 4294967296 →
  Forall (λ c, c ≠ 0) fmt → rendering fmt args = Some l →
  ∃ n m', vsnprintf str size fmt args m = Some (n, m') ∧
    0 <= n < size ∧ m' (str + n) = 0 ∧
    (∀ a, ¬ (str <= a < str + size) → m' a = m a) ∧
    (zlen l < size → n = zlen l ∧ ∀ i c, l !! i = Some c → m' (str + Z.of_nat i) = c).
Proof.
  intros Hsize Hstr Hend Hf Hr.
  destruct (format_loop_writes str (size - 1) m ltac:(lia) ltac:(lia) _ _ _ _ Hf Hr) as (f & args' & E & Hw).
  destruct (Hw (mk_out m str (size - 1) 0) []) as (l' & H & Hl).
  { constructor; try done; unfold zlen; simpl; lia. }
  unfold vsnprintf. rewrite (proj2 (Z.eqb_neq size 0)), E by lia. simpl. destruct H as [H1 H2 H3 H4 H5 H6].
  assert (0 <= zlen l') by (unfold zlen; lia). eexists _, _. split; [reflexivity|]. rewrite H4, H1. split_and!; try lia.
  - unfold store. by rewrite Z.eqb_refl.
  - intros a Ha. unfold store. rewrite (proj2 (Z.eqb_neq _ _)) by lia. apply H6. lia.
  - intros Hfit. rewrite Hl in * by (unfold zlen in *; simpl; lia). simpl in *. split; [done|].
    intros i c Hi. unfold store. rewrite (proj2 (Z.eqb_neq _ _)); [by apply H5|].
    apply lookup_lt_Some in Hi. unfold zlen. lia.
Qed.

(** A numeral reads back as the number it was made from: the decimal and
    hexadecimal conversions of an unsigned word, and the signed conversion to
    any base (which treats only base 10 as signed), return, never leave their
    local array, and have at least one and at most 10, 8 and 32 bytes. *)
Theorem numerals_roundtrip n num base up :
  is_u32 n → -2147483648 <= num <= 2147483647 → 2 <= base <= 36 →
  (∃ ds, utoa n = Some ds ∧ value 10 ds = n ∧ (0 < length ds ≤ 10)%nat) ∧
  (∃ ds, utox n up = Some ds ∧ value 16 ds = n ∧ (0 < length ds ≤ 8)%nat) ∧
  (∃ ds, itoa num base = Some ds ∧ signed_value base ds = (if base =? 10 then num else u32 num) ∧
     (0 < length ds ≤ 32)%nat).
Proof.
  intros Hn Hnum Hb. destruct (utoa_ok n Hn) as (d1 & E1 & V1 & L1 & _).
  destruct (utox_ok n up Hn) as (d2 & E2 & V2 & L2 & _). split; [eauto|]. split; [eauto|]. by apply itoa_ok.
Qed.

(** ** Witnesses *)

Lemma vsnprintf_stays_in_buffer_witness :
  ∃ n m', vsnprintf 1000 32 (bytes_of "pid %d at %08x") [Word (-7); Word 48879] (λ _, 255) = Some (n, m') ∧
    0 <= n < 32 ∧ m' (1000 + n) = 0 ∧
    (∀ a, ¬ (1000 <= a < 1000 + 32) → m' a = 255) ∧
    (zlen (bytes_of "pid -7 at 0000beef") < 32 → n = zlen (bytes_of "pid -7 at 0000beef") ∧
     ∀ i c, bytes_of "pid -7 at 0000beef" !! i = Some c → m' (1000 + Z.of_nat i) = c).
Proof.
  apply (vsnprintf_stays_in_buffer 1000 32 (bytes_of "pid %d at %08x") [Word (-7); Word 48879] (λ _, 255)
    (bytes_of "pid -7 at 0000beef")); [lia|lia|lia|vm_compute; repeat constructor; lia|vm_compute; reflexivity].
Defined.

Lemma numerals_roundtrip_witness :
  (∃ ds, utoa 4096 = Some ds ∧ value 10 ds = 4096 ∧ (0 < length ds ≤ 10)%nat) ∧
  (∃ ds, utox 4096 true = Some ds ∧ value 16 ds = 4096 ∧ (0 < length ds ≤ 8)%nat) ∧
  (∃ ds, itoa (-2147483648) 10 = Some ds ∧
     signed_value 10 ds = (if 10 =? 10 then -2147483648 else u32 (-2147483648)) ∧ (0 < length ds ≤ 32)%nat).
Proof. apply (numerals_roundtrip 4096 (-2147483648) 10 true); [split; lia|lia|lia]. Defined.

(** A format that ends in the middle of a conversion has no rendering: the code
    steps past its terminator. *)
Example trailing_percent :
  rendering (bytes_of "100%") [] = None ∧ vsnprintf 1000 32 (bytes_of "100%") [] (λ _, 255) = None.
Proof. split; vm_compute; reflexivity. Qed.
