(* ===== verification/Paging.v ===== *)
(** * Page directories and page tables (arch/i386/paging.c, paging.h)

    The two-level tables of the i386 with 4 MB pages.  Directories and tables
    are 4 KB pages of a pool reserved by the linker script; the code reads and
    writes them through the identity map.  The model keeps the words of those
    pages as a function from word addresses to entries, and [translate] is the
    walk the processor makes.  The lemmas show what each operation does to
    the translation of every address: mapping a 4 KB page changes that page
    only, also when a 4 MB page has to be split first.  The TLB is not
    modelled: the code invalidates the page it changes. *)

From S2P Require Import Prelude Spinlock Pmm.
From stdpp Require Import base tactics list.
From Stdlib Require Import ZArith Lia.

Open Scope Z_scope.

(** ** Entries (paging.h) *)

(** The bit fields of [pde] and [pte]; bit 7 is [page_size] in a directory
    entry and [pat] in a table entry. *)
Record entry := mk_entry {
  present : bool; rw : bool; user : bool; pwt : bool; pcd : bool;
  accessed : bool; dirty : bool; page_size : bool; global : bool;
  avail : Z; paddr : Z }.

(** [raw = 0]. *)
Definition entry0 : entry :=
  mk_entry false false false false false false false false false 0 0.

(** The union: the 32-bit value and its fields. *)
Definition entry_of_raw (r : Z) : entry :=
  mk_entry (Z.testbit r 0) (Z.testbit r 1) (Z.testbit r 2) (Z.testbit r 3) (Z.testbit r 4)
    (Z.testbit r 5) (Z.testbit r 6) (Z.testbit r 7) (Z.testbit r 8)
    (Z.land (Z.shiftr r 9) 7) (Z.shiftr r 12).

Definition raw_of_entry (e : entry) : Z :=
  Z.b2z (present e) + 2 * Z.b2z (rw e) + 4 * Z.b2z (user e) + 8 * Z.b2z (pwt e)
  + 16 * Z.b2z (pcd e) + 32 * Z.b2z (accessed e) + 64 * Z.b2z (dirty e)
  + 128 * Z.b2z (page_size e) + 256 * Z.b2z (global e) + 512 * avail e + 4096 * paddr e.

Definition PTE_PRESENT : Z := 1.
Definition PTE_RW : Z := 2.
Definition PTE_USER : Z := 4.
Definition PTE_KERNEL : Z := Z.lor PTE_PRESENT PTE_RW.
Definition PTE_USER_PAGE : Z := Z.lor (Z.lor PTE_PRESENT PTE_RW) PTE_USER.

(** [(flags & (1 << i)) ? 1 : 0]. *)
Definition flag (i flags : Z) : bool := Z.testbit flags i.

Definition PD_INDEX (va : Z) : Z := Z.land (Z.shiftr va 22) 1023.
Definition PT_INDEX (va : Z) : Z := Z.land (Z.shiftr va 12) 1023.
Definition IS_4MB_ALIGN (x : Z) : bool := Z.land x (4194304 - 1) =? 0.
Definition IS_4KB_ALIGN (x : Z) : bool := Z.land x (4096 - 1) =? 0.

Definition USER_HEAP_BASE : Z := 3221225472.   (* 0xC0000000 *)
Definition USER_HEAP_END : Z := 3238002688.    (* 0xC1000000 *)
Definition USER_ANON_BASE : Z := 3489660928.   (* 0xD0000000 *)
Definition USER_SPACE_TOP : Z := 4026531840.   (* 0xF0000000 *)

(** ** Linker symbols (linker.ld) and the static page directory

    The pool of paging structures lies between the static data and the PMM
    bitmap. *)
Class Layout := {
  page_table_base : Z;
  pdes_addr : Z;
  pmm_bitmap_start : Z;
  pdes_aligned : pdes_addr mod 4096 = 0;
  base_aligned : page_table_base mod 4096 = 0;
  pdes_below : 0 < pdes_addr ∧ pdes_addr + 4096 <= page_table_base;
  pool_below : page_table_base + 8388608 <= pmm_bitmap_start < 4294967296;
}.

Section paging.
Context {LY : Layout}.

Definition VMM_PDE_ALLOC_BASE : Z := page_table_base.
Definition VMM_PDE_ALLOC_SIZE : Z := 8 * 1024 * 1024.
Definition VMM_PDE_ALLOC_END : Z := page_table_base + 8388608.
Definition PAGING_POOL_SLOTS : Z := VMM_PDE_ALLOC_SIZE / PAGE_SIZE.

(** ** State: the statics of paging.c, the words of the paging structures, and
    CR3 and CR0.PG *)
Record pg := mk_pg {
  g_mem : Z → entry;
  paging_lock : option nat;
  paging_pool_lock : option nat;
  paging_pool_used : list Z;
  kernel_pdir_phys : Z;
  g_cr3 : Z;
  g_paging : bool;
  g_locks : lock_table;
}.

Definition set_mem (m : Z → entry) (s : pg) : pg :=
  mk_pg m (paging_lock s) (paging_pool_lock s) (paging_pool_used s) (kernel_pdir_phys s)
    (g_cr3 s) (g_paging s) (g_locks s).
Definition set_used (u : list Z) (s : pg) : pg :=
  mk_pg (g_mem s) (paging_lock s) (paging_pool_lock s) u (kernel_pdir_phys s)
    (g_cr3 s) (g_paging s) (g_locks s).
Definition set_cr3 (v : Z) (s : pg) : pg :=
  mk_pg (g_mem s) (paging_lock s) (paging_pool_lock s) (paging_pool_used s) (kernel_pdir_phys s)
    v (g_paging s) (g_locks s).
Definition set_g_locks (t : lock_table) (s : pg) : pg :=
  mk_pg (g_mem s) (paging_lock s) (paging_pool_lock s) (paging_pool_used s) (kernel_pdir_phys s)
    (g_cr3 s) (g_paging s) t.

#[export] Instance pg_lock_table : Contains pg lock_table.
Proof.
  refine {| part := g_locks; set_part := set_g_locks |}; try done. by intros [].
Defined.

(** [p[i]] of a directory or table at [p], and a store to it. *)
Definition slot (p i : Z) : Z := p + 4 * i.
Definition read_entry (p i : Z) : M pg entry := gets (λ s, g_mem s (slot p i)).
Definition write_entry (p i : Z) (e : entry) : M pg unit :=
  modify (λ s, set_mem (λ a, if a =? slot p i then e else g_mem s a) s).

(** [memset(p, 0, PAGE_SIZE)]. *)
Definition clear_page (p : Z) : M pg unit :=
  modify (λ s, set_mem (λ a, if (p <=? a) && (a <? p + PAGE_SIZE) then entry0 else g_mem s a) s).

(** ** The pool of paging structures *)

Definition pool_word (s : pg) (i : Z) : Z := default 0 (paging_pool_used s !! Z.to_nat (i / 32)).
Definition pool_mark (i : Z) (s : pg) : pg :=
  set_used (<[Z.to_nat (i / 32) := Z.lor (pool_word s i) (Z.shiftl 1 (i mod 32))]> (paging_pool_used s)) s.
Definition pool_unmark (i : Z) (s : pg) : pg :=
  set_used (<[Z.to_nat (i / 32) := Z.ldiff (pool_word s i) (Z.shiftl 1 (i mod 32))]> (paging_pool_used s)) s.

(** The scan from slot [i], [n] slots to go; 0 when all are in use. *)
Fixpoint pool_scan (n : nat) (i : Z) : M pg Z :=
  match n with
  | O => mret 0
  | S n =>
      s ← get;
      if Z.land (pool_word s i) (Z.shiftl 1 (i mod 32)) =? 0 then
        modify (pool_mark i);;
        let pa := VMM_PDE_ALLOC_BASE +u i *u PAGE_SIZE in
        clear_page pa;;
        mret pa
      else pool_scan n (i + 1)
  end.

Definition arch_paging_pool_alloc : M pg Z :=
  s ← get;
  match paging_pool_lock s with
  | None => mret 0
  | Some _ =>
      zoom (spinlock_lock (paging_pool_lock s));;
      pa ← pool_scan (Z.to_nat PAGING_POOL_SLOTS) 0;
      zoom (spinlock_unlock (paging_pool_lock s));;
      mret pa
  end.

Definition arch_paging_pool_free (pa : Z) : M pg unit :=
  s ← get;
  match paging_pool_lock s with
  | None => mret tt
  | Some _ =>
      if (pa <? VMM_PDE_ALLOC_BASE) || (VMM_PDE_ALLOC_END <=? pa) then mret tt else
      let i := (pa - VMM_PDE_ALLOC_BASE) / PAGE_SIZE in
      zoom (spinlock_lock (paging_pool_lock s));;
      modify (pool_unmark i);;
      zoom (spinlock_unlock (paging_pool_lock s));;
      mret tt
  end.

Definition ptbl_of_pde (e : entry) : Z := u32 (Z.shiftl (paddr e) 12).

(** ** 4 MB pages *)

Definition arch_map_4mb (cr3 va pa flags : Z) : M pg unit :=
  let pde_index := PD_INDEX va in
  if 1024 <=? pde_index then mret tt else
  if cr3 =? 0 then mret tt else
  if negb (IS_4MB_ALIGN va) || negb (IS_4MB_ALIGN pa) then mret tt else
  s ← get;
  zoom (spinlock_lock (paging_lock s));;
  write_entry cr3 pde_index
    (mk_entry (flag 0 flags) (flag 1 flags) (flag 2 flags) (flag 3 flags) (flag 4 flags)
       false false true (flag 8 flags) 0 (Z.shiftr pa 12));;
  zoom (spinlock_unlock (paging_lock s));;
  mret tt.

Definition arch_unmap_4mb (cr3 va : Z) : M pg unit :=
  let pde_index := PD_INDEX va in
  if 1024 <=? pde_index then mret tt else
  if cr3 =? 0 then mret tt else
  s ← get;
  zoom (spinlock_lock (paging_lock s));;
  write_entry cr3 pde_index entry0;;
  zoom (spinlock_unlock (paging_lock s));;
  mret tt.

(** The table entry [i] of a split 4 MB page [p] that was reachable from
    ring 3 when [orig_user]; [paddr] is a 20-bit field. *)
Definition split_pte (p : entry) (orig_user : bool) (i : Z) : entry :=
  mk_entry (present p) (rw p) orig_user (pwt p) (pcd p) false false false (global p) 0
    ((paddr p + i) mod 1048576).

Fixpoint split_fill (n : nat) (i : Z) (ptl : Z) (p : entry) (orig_user : bool) : M pg unit :=
  match n with
  | O => mret tt
  | S n => write_entry ptl i (split_pte p orig_user i);; split_fill n (i + 1) ptl p orig_user
  end.

Definition with_user (b : bool) (e : entry) : entry :=
  mk_entry (present e) (rw e) b (pwt e) (pcd e) (accessed e) (dirty e) (page_size e) (global e)
    (avail e) (paddr e).

(** [p] is [&dir[index]]. *)
Definition split_4mb_pde (dir index user_accessible : Z) : M pg Z :=
  p ← read_entry dir index;
  if negb (present p) || negb (page_size p) then mret (-1) else
  ptl ← arch_paging_pool_alloc;
  if ptl =? 0 then mret E_NOMEM else
  let orig_user := user p in
  p ← read_entry dir index;
  (if negb (user_accessible =? 0) && negb (user p)
   then write_entry dir index (with_user true p) else mret tt);;
  p ← read_entry dir index;
  split_fill 1024 0 ptl p orig_user;;
  p ← read_entry dir index;
  write_entry dir index
    (mk_entry true true (user p) (pwt p) (pcd p) (accessed p) (dirty p) false (global p) (avail p)
       (Z.shiftr ptl 12));;
  mret 0.

(** ** 4 KB pages *)

(** Make the directory entry lead to a table: split a 4 MB page, or allocate
    an empty table. *)
Definition ensure_table (cr3 pde_index flags : Z) : M pg Z :=
  e ← read_entry cr3 pde_index;
  r ← (if present e && page_size e
       then split_4mb_pde cr3 pde_index (Z.land flags PTE_USER) else mret 0);
  if negb (r =? 0) then mret E_NOMEM else
  e ← read_entry cr3 pde_index;
  if present e then mret 0 else
  pt_pa ← arch_paging_pool_alloc;
  if pt_pa =? 0 then mret E_NOMEM else
  write_entry cr3 pde_index
    (mk_entry true true (flag 2 flags) false false false false false false 0 (Z.shiftr pt_pa 12));;
  clear_page pt_pa;;
  mret 0.

Definition map_4kb_locked (cr3 va pa flags : Z) : M pg Z :=
  let pde_index := PD_INDEX va in
  let pte_index := PT_INDEX va in
  r ← ensure_table cr3 pde_index flags;
  if negb (r =? 0) then mret r else
  e ← read_entry cr3 pde_index;
  write_entry (ptbl_of_pde e) pte_index
    (mk_entry (flag 0 flags) (flag 1 flags) (flag 2 flags) false false false false false false 0
       (Z.shiftr pa 12));;
  mret 0.

Definition arch_map_4kb (cr3 va pa flags : Z) : M pg Z :=
  if (1024 <=? PD_INDEX va) || (1024 <=? PT_INDEX va) then mret E_INVAL else
  if cr3 =? 0 then mret E_INVAL else
  s ← get;
  zoom (spinlock_lock (paging_lock s));;
  r ← map_4kb_locked cr3 va pa flags;
  zoom (spinlock_unlock (paging_lock s));;
  mret r.

Definition unmap_4kb_locked (cr3 va : Z) : M pg unit :=
  let pde_index := PD_INDEX va in
  let pte_index := PT_INDEX va in
  e ← read_entry cr3 pde_index;
  if negb (present e) then mret tt else
  let ptbl := ptbl_of_pde e in
  t ← read_entry ptbl pte_index;
  if negb (present t) then mret tt else
  if va <? USER_HEAP_BASE then
    write_entry ptbl pte_index
      (entry_of_raw (Z.lor (Z.lor (Z.land va PAGE_MASK) PTE_PRESENT) PTE_RW))
  else write_entry ptbl pte_index entry0.

Definition arch_unmap_4kb (cr3 va : Z) : M pg unit :=
  if (1024 <=? PD_INDEX va) || (1024 <=? PT_INDEX va) then mret tt else
  if cr3 =? 0 then mret tt else
  s ← get;
  zoom (spinlock_lock (paging_lock s));;
  unmap_4kb_locked cr3 va;;
  zoom (spinlock_unlock (paging_lock s));;
  mret tt.

(** ** Ranges: [for (pa = start; pa < end; pa += step)], a 32-bit counter.  No
    range has more turns than the fuel unless the counter wraps around and the
    loop never ends. *)
Fixpoint range_loop (body : Z → M pg unit) (step : Z) (fuel : nat) (pa end_pa : Z) : M pg unit :=
  if end_pa <=? pa then mret tt else
  match fuel with
  | O => spin
  | S fuel => body pa;; range_loop body step fuel (pa +u step) end_pa
  end.

Definition arch_map_4mb_range (cr3 start_pa end_pa flags : Z) : M pg unit :=
  if cr3 =? 0 then mret tt else
  if negb (IS_4MB_ALIGN start_pa) || negb (IS_4MB_ALIGN end_pa) then mret tt else
  range_loop (λ pa, arch_map_4mb cr3 pa pa flags) 4194304 1024 start_pa end_pa.

Definition arch_map_4kb_range (cr3 start_pa end_pa flags : Z) : M pg unit :=
  if cr3 =? 0 then mret tt else
  if negb (IS_4KB_ALIGN start_pa) || negb (IS_4KB_ALIGN end_pa) then mret tt else
  range_loop (λ pa, arch_map_4kb cr3 pa pa flags;; mret tt) 4096 (Z.to_nat 1048576) start_pa end_pa.

(** ** Address spaces *)

Definition arch_load_cr3 (pdir_phys : Z) : M pg unit := modify (set_cr3 pdir_phys).
Definition arch_get_cr3 : M pg Z := gets g_cr3.

Definition arch_enable_paging : M pg unit :=
  modify (λ s, mk_pg (g_mem s) (paging_lock s) (paging_pool_lock s) (paging_pool_used s)
    (kernel_pdir_phys s) (g_cr3 s) true (g_locks s)).

Fixpoint clone_loop (n : nat) (i new_pde kern_pde : Z) : M pg unit :=
  match n with
  | O => mret tt
  | S n =>
      e ← read_entry kern_pde i;
      write_entry new_pde i e;;
      clone_loop n (i + 1) new_pde kern_pde
  end.

Definition arch_clone_kernel_pde (pde_pa : Z) : M pg Z :=
  if pde_pa =? 0 then mret 0 else
  s ← get;
  clone_loop 1024 0 pde_pa (kernel_pdir_phys s);;
  mret pde_pa.

Fixpoint destroy_loop (n : nat) (i pdes kern_pdes : Z) : M pg unit :=
  match n with
  | O => mret tt
  | S n =>
      e ← read_entry pdes i;
      k ← read_entry kern_pdes i;
      (if negb (present e) then mret tt else
       if paddr e =? paddr k then mret tt else
       arch_paging_pool_free (u32 (Z.shiftl (paddr e) 12));;
       write_entry pdes i entry0);;
      destroy_loop n (i + 1) pdes kern_pdes
  end.

Definition arch_destroy_address_space (pdir_phys : Z) : M pg unit :=
  s ← get;
  if (pdir_phys =? 0) || (pdir_phys =? kernel_pdir_phys s) then mret tt else
  destroy_loop (Z.to_nat (Z.shiftr USER_SPACE_TOP 22)) 0 pdir_phys (kernel_pdir_phys s).

(** ** Bootstrap *)

(** Steps 1 to 4 of [arch_paging_init]: the identity map of all memory in the
    static directory, made the master directory and loaded. *)
Definition paging_init_directory (total_memory : Z) : M pg unit :=
  clear_page pdes_addr;;
  arch_map_4mb_range pdes_addr 0 16777216 PTE_KERNEL;;
  range_loop (λ addr, arch_map_4mb pdes_addr addr addr PTE_KERNEL) 4194304 1024 16777216 total_memory;;
  arch_load_cr3 pdes_addr;;
  arch_enable_paging;;
  modify (λ s, mk_pg (g_mem s) (paging_lock s) (paging_pool_lock s) (paging_pool_used s)
    pdes_addr (g_cr3 s) (g_paging s) (g_locks s)).

(** The loop that backs the user heap with the frames from [hp_pa] on. *)
Fixpoint map_user_heap (n : nat) (i hp_pa : Z) : M pg unit :=
  match n with
  | O => mret tt
  | S n =>
      arch_map_4kb pdes_addr (USER_HEAP_BASE +u i *u PAGE_SIZE) (hp_pa +u i *u PAGE_SIZE) PTE_USER_PAGE;;
      map_user_heap n (i + 1) hp_pa
  end.

(** [arch_paging_init] before it hands over to [pmm_init]: the locks, then the
    directory. *)
Definition paging_init_locks : M pg Z :=
  l ← zoom spinlock_alloc;
  modify (λ s, mk_pg (g_mem s) l (paging_pool_lock s) (paging_pool_used s) (kernel_pdir_phys s)
    (g_cr3 s) (g_paging s) (g_locks s));;
  match l with
  | None => mret 1
  | Some _ =>
      l ← zoom spinlock_alloc;
      modify (λ s, mk_pg (g_mem s) (paging_lock s) l (paging_pool_used s) (kernel_pdir_phys s)
        (g_cr3 s) (g_paging s) (g_locks s));;
      match l with None => mret 1 | Some _ => mret 0 end
  end.

(** [hp_pa] is the answer of [pmm_alloc_pages], which runs in between together
    with [pmm_init] and the reservation of the boot modules (Pmm.v). *)
Definition arch_paging_init (total_memory hp_pa : Z) : M pg unit :=
  r ← paging_init_locks;
  if negb (r =? 0) then mret tt else
  paging_init_directory total_memory;;
  if hp_pa =? 0 then mret tt else
  map_user_heap (Z.to_nat (Z.shiftr (USER_HEAP_END - USER_HEAP_BASE) 12)) 0 hp_pa.

(** ** What the processor makes of the tables *)

Record xlat := mk_xlat { x_pa : Z; x_user : bool; x_rw : bool }.

(** The walk: a 4 MB page, or a table and its entry; an access needs the
    rights of both levels. *)
Definition translate (s : pg) (cr3 va : Z) : option xlat :=
  let e := g_mem s (slot cr3 (PD_INDEX va)) in
  if negb (present e) then None else
  if page_size e then
    Some (mk_xlat (paddr e / 1024 * 4194304 + va mod 4194304) (user e) (rw e))
  else
    let t := g_mem s (slot (ptbl_of_pde e) (PT_INDEX va)) in
    if negb (present t) then None else
    Some (mk_xlat (paddr t * 4096 + va mod 4096) (user e && user t) (rw e && rw t)).

(** ** Indices and pages *)

Lemma PD_INDEX_div va : is_u32 va → PD_INDEX va = va / 4194304.
Proof.
  intros H. unfold PD_INDEX. rewrite Z.shiftr_div_pow2 by lia.
  change 1023 with (Z.ones 10). rewrite Z.land_ones by lia. apply Z.mod_small. unfold is_u32 in H.
  change (2 ^ 22) with 4194304. change (2 ^ 10) with 1024. split; [apply Z.div_pos; lia|].
  apply Z.div_lt_upper_bound; lia.
Qed.

Lemma PT_INDEX_div va : PT_INDEX va = va / 4096 mod 1024.
Proof.
  unfold PT_INDEX. rewrite Z.shiftr_div_pow2 by lia.
  change 1023 with (Z.ones 10). by rewrite Z.land_ones by lia.
Qed.

Lemma PD_INDEX_range va : 0 <= PD_INDEX va < 1024.
Proof.
  unfold PD_INDEX. change 1023 with (Z.ones 10). rewrite Z.land_ones by lia. apply Z.mod_pos_bound. lia.
Qed.

Lemma PT_INDEX_range va : 0 <= PT_INDEX va < 1024.
Proof. rewrite PT_INDEX_div. apply Z.mod_pos_bound. lia. Qed.

(** Two addresses have the same indices exactly when they are on one page. *)
Lemma same_page va va' :
  is_u32 va → is_u32 va' →
  PD_INDEX va = PD_INDEX va' → PT_INDEX va = PT_INDEX va' → va / 4096 = va' / 4096.
Proof.
  intros H H'. rewrite !PD_INDEX_div, !PT_INDEX_div by done. intros E1 E2.
  change 4194304 with (4096 * 1024) in E1. rewrite <- !Z.div_div in E1 by lia.
  rewrite (Z.div_mod (va / 4096) 1024), (Z.div_mod (va' / 4096) 1024) by lia. congruence.
Qed.

(** Distinct entries of pages do not overlap. *)
Lemma slot_inj p q i j :
  p mod 4096 = 0 → q mod 4096 = 0 → 0 <= i < 1024 → 0 <= j < 1024 →
  slot p i = slot q j → p = q ∧ i = j.
Proof.
  unfold slot. intros Hp Hq Hi Hj E.
  rewrite (Z.div_mod p 4096), (Z.div_mod q 4096) in E |- * by lia. rewrite Hp, Hq in E |- *. lia.
Qed.

(** ** The pool *)

Definition pool_page (i : Z) : Z := page_table_base + i * 4096.
Definition slot_used (s : pg) (i : Z) : bool := Z.testbit (pool_word s i) (i mod 32).

(** The pool is ready: its lock exists and is free, the bitmap has its size. *)
Definition pool_ok (s : pg) : Prop :=
  length (paging_pool_used s) = 64%nat ∧
  ∃ l, paging_pool_lock s = Some l ∧ g_locks s !! l = Some LOCK_UNLOCKED.

Lemma pool_page_facts i :
  0 <= i < 2048 →
  pool_page i mod 4096 = 0 ∧ is_u32 (pool_page i) ∧ 0 < pool_page i ∧ pool_page i ≠ pdes_addr.
Proof.
  intros Hi. pose proof base_aligned. pose proof pdes_below. pose proof pool_below.
  unfold pool_page, is_u32. split_and!; try lia.
  rewrite Z.add_mod, Z.mod_mul, H, Z.add_0_r, Z.mod_0_l by lia. done.
Qed.

Lemma pool_page_u32 i : 0 <= i < 2048 → VMM_PDE_ALLOC_BASE +u i *u PAGE_SIZE = pool_page i.
Proof.
  intros Hi. pose proof (pool_page_facts i Hi) as (_ & H & _).
  unfold PAGE_SIZE. rewrite (u32_small (i * 4096)) by (unfold is_u32; lia). by apply u32_small.
Qed.

Lemma pool_page_inj i j : pool_page i = pool_page j → i = j.
Proof. unfold pool_page. lia. Qed.

Lemma testbit_one n k : 0 <= n → 0 <= k → Z.testbit (Z.shiftl 1 k) n = (n =? k).
Proof.
  intros Hn Hk. rewrite Z.shiftl_1_l. destruct (Z.eqb_spec n k) as [->|Hne].
  - by apply Z.pow2_bits_true.
  - apply Z.pow2_bits_false. lia.
Qed.

(** The bit test of the code. *)
Lemma land_bit w k : 0 <= k → (Z.land w (Z.shiftl 1 k) =? 0) = negb (Z.testbit w k).
Proof.
  intros Hk. destruct (Z.testbit w k) eqn:E; simpl.
  - apply Z.eqb_neq. intros E0. assert (Z.testbit (Z.land w (Z.shiftl 1 k)) k = true) as T.
    { by rewrite Z.land_spec, E, testbit_one, Z.eqb_refl. }
    by rewrite E0, Z.bits_0 in T.
  - apply Z.eqb_eq, Z.bits_inj'. intros n Hn. rewrite Z.land_spec, Z.bits_0, testbit_one by lia.
    destruct (Z.eqb_spec n k) as [->|]; [by rewrite E|apply andb_false_r].
Qed.

Lemma bit_index i j : 0 <= i → 0 <= j → i / 32 = j / 32 → i mod 32 = j mod 32 → i = j.
Proof. intros. rewrite (Z.div_mod i 32), (Z.div_mod j 32) by lia. congruence. Qed.

Lemma pool_set_spec f s i j w :
  length (paging_pool_used s) = 64%nat → 0 <= i < 2048 → 0 <= j < 2048 →
  w = Z.lor (pool_word s i) (Z.shiftl 1 (i mod 32)) ∧ f = orb ∨
  w = Z.ldiff (pool_word s i) (Z.shiftl 1 (i mod 32)) ∧ f = (λ a b, a && negb b) →
  slot_used (set_used (<[Z.to_nat (i / 32) := w]> (paging_pool_used s)) s) j
  = f (slot_used s j) (bool_decide (j = i)).
Proof.
  intros Hlen Hi Hj Hw. unfold slot_used, pool_word at 1. simpl.
  assert (0 <= i mod 32 < 32) by (apply Z.mod_pos_bound; lia).
  assert (0 <= j mod 32 < 32) by (apply Z.mod_pos_bound; lia).
  assert (0 <= i / 32 < 64) by (split; [apply Z.div_pos|apply Z.div_lt_upper_bound]; lia).
  assert (0 <= j / 32) by (apply Z.div_pos; lia).
  destruct (decide (j / 32 = i / 32)) as [E|E].
  - rewrite E, list_lookup_insert_eq by lia. simpl.
    assert (pool_word s j = pool_word s i) as Ew by (unfold pool_word; by rewrite E).
    rewrite Ew.
    assert ((j mod 32 =? i mod 32) = bool_decide (j = i)) as <-.
    { destruct (Z.eqb_spec (j mod 32) (i mod 32)); symmetry.
      - apply bool_decide_eq_true. apply bit_index; (done || lia).
      - apply bool_decide_eq_false. congruence. }
    destruct Hw as [[-> ->]|[-> ->]].
    + by rewrite Z.lor_spec, testbit_one by lia.
    + by rewrite Z.ldiff_spec, testbit_one by lia.
  - rewrite list_lookup_insert_ne by (intros ?; apply E; lia).
    rewrite bool_decide_eq_false_2 by (by intros ->). change (default 0 _) with (pool_word s j).
    destruct Hw as [[_ ->]|[_ ->]]; by destruct (Z.testbit (pool_word s j) (j mod 32)).
Qed.

Lemma mark_used s i j :
  length (paging_pool_used s) = 64%nat → 0 <= i < 2048 → 0 <= j < 2048 →
  slot_used (pool_mark i s) j = slot_used s j || bool_decide (j = i).
Proof. intros. apply (pool_set_spec orb); auto. Qed.

Lemma unmark_used s i j :
  length (paging_pool_used s) = 64%nat → 0 <= i < 2048 → 0 <= j < 2048 →
  slot_used (pool_unmark i s) j = slot_used s j && negb (bool_decide (j = i)).
Proof. intros. apply (pool_set_spec (λ a b, a && negb b)); auto. Qed.

(** The state after slot [i] was handed out: marked and cleared. *)
Definition taken_slot (i : Z) (s : pg) : pg :=
  set_mem (λ a, if (pool_page i <=? a) && (a <? pool_page i + PAGE_SIZE) then entry0 else g_mem s a)
    (pool_mark i s).

Lemma pool_scan_run n i s :
  0 <= i → i + Z.of_nat n = 2048 →
  (∃ j, i <= j < 2048 ∧ slot_used s j = false ∧ (∀ k, i <= k < j → slot_used s k = true) ∧
     pool_scan n i s = Ret (pool_page j) (taken_slot j s))
  ∨ ((∀ k, i <= k < 2048 → slot_used s k = true) ∧ pool_scan n i s = Ret 0 s).
Proof.
  revert i. induction n as [|n IH]; intros i Hi Hn.
  { right. split; [lia|done]. }
  cbn [pool_scan]. rewrite (bind_Ret _ _ s s s) by done.
  assert (0 <= i mod 32) by (apply Z.mod_pos_bound; lia).
  rewrite land_bit by done. change (Z.testbit (pool_word s i) (i mod 32)) with (slot_used s i).
  destruct (slot_used s i) eqn:E; simpl.
  - destruct (IH (i + 1)) as [(j & Hj & Hf & Hu & Er)|[Hu Er]]; [lia|lia|left|right].
    + exists j. split_and!; [lia|lia|done| |done]. intros k Hk. destruct (decide (k = i)) as [->|]; [done|].
      apply Hu. lia.
    + split; [|done]. intros k Hk. destruct (decide (k = i)) as [->|]; [done|]. apply Hu. lia.
  - left. exists i. split_and!; [lia|lia|done|lia|].
    by rewrite pool_page_u32 by lia.
Qed.

(** [arch_paging_pool_alloc] hands out the lowest free slot, cleared, and
    returns 0 only when there is none. *)
Lemma pool_alloc_run s :
  pool_ok s →
  (∃ i, 0 <= i < 2048 ∧ slot_used s i = false ∧ (∀ k, 0 <= k < i → slot_used s k = true) ∧
     arch_paging_pool_alloc s = Ret (pool_page i) (taken_slot i s))
  ∨ ((∀ k, 0 <= k < 2048 → slot_used s k = true) ∧ arch_paging_pool_alloc s = Ret 0 s).
Proof.
  intros (Hlen & l & Hl & Hfree). unfold arch_paging_pool_alloc.
  rewrite (bind_Ret _ _ s s s) by done. rewrite Hl.
  set (s1 := set_g_locks (<[l := LOCK_LOCKED]> (g_locks s)) s).
  destruct (pool_scan_run (Z.to_nat PAGING_POOL_SLOTS) 0 s1) as [(i & Hi & Hf & Hu & Er)|[Hu Er]];
    [lia|done|left; exists i; split_and!; try done; try lia|right; split; [done|]].
  - etrans; [eapply (with_lock l s); [exact Hfree|exact Er|done]|]. by destruct s.
  - etrans; [eapply (with_lock l s); [exact Hfree|exact Er|done]|]. by destruct s.
Qed.

Lemma pool_free_run s i :
  pool_ok s → 0 <= i < 2048 →
  arch_paging_pool_free (pool_page i) s = Ret tt (pool_unmark i s).
Proof.
  intros (Hlen & l & Hl & Hfree) Hi. unfold arch_paging_pool_free.
  rewrite (bind_Ret _ _ s s s) by done. rewrite Hl.
  assert ((pool_page i <? VMM_PDE_ALLOC_BASE) || (VMM_PDE_ALLOC_END <=? pool_page i) = false) as ->.
  { unfold pool_page, VMM_PDE_ALLOC_BASE, VMM_PDE_ALLOC_END. apply orb_false_iff.
    split; [apply Z.ltb_ge|apply Z.leb_gt]; lia. }
  replace ((pool_page i - VMM_PDE_ALLOC_BASE) / PAGE_SIZE) with i.
  2: { unfold pool_page, VMM_PDE_ALLOC_BASE, PAGE_SIZE.
       replace (page_table_base + i * 4096 - page_table_base) with (i * 4096) by lia.
       by rewrite Z.div_mul. }
  etrans; [eapply (with_lock_tt l s); [exact Hfree|reflexivity|done]|]. by destruct s.
Qed.

(** Addresses outside the pool (the frames of 4 MB pages) are ignored. *)
Lemma pool_free_outside s pa :
  pool_ok s → ¬ (page_table_base <= pa < page_table_base + 8388608) →
  arch_paging_pool_free pa s = Ret tt s.
Proof.
  intros (Hlen & l & Hl & Hfree) Hpa. unfold arch_paging_pool_free.
  rewrite (bind_Ret _ _ s s s) by done. rewrite Hl.
  assert ((pa <? VMM_PDE_ALLOC_BASE) || (VMM_PDE_ALLOC_END <=? pa) = true) as ->; [|done].
  unfold VMM_PDE_ALLOC_BASE, VMM_PDE_ALLOC_END. apply orb_true_iff. rewrite Z.ltb_lt, Z.leb_le. lia.
Qed.

(** ** Well-formed directories *)

(** A page of the pool that is in use. *)
Definition table_page (s : pg) (t : Z) : Prop :=
  ∃ i, 0 <= i < 2048 ∧ t = pool_page i ∧ slot_used s i = true.

Definition dir_entry (s : pg) (d i : Z) : entry := g_mem s (slot d i).

(** Entry [i] of [d] leads to a table. *)
Definition has_table (s : pg) (d i : Z) : Prop :=
  present (dir_entry s d i) = true ∧ page_size (dir_entry s d i) = false.

Record dir_wf (s : pg) (d : Z) : Prop := {
  dir_page : d = pdes_addr ∨ table_page s d;
  dir_table : ∀ i, 0 <= i < 1024 → has_table s d i →
    rw (dir_entry s d i) = true ∧ table_page s (ptbl_of_pde (dir_entry s d i))
    ∧ ptbl_of_pde (dir_entry s d i) ≠ d;
  dir_large : ∀ i, 0 <= i < 1024 → present (dir_entry s d i) = true →
    page_size (dir_entry s d i) = true →
    paddr (dir_entry s d i) mod 1024 = 0 ∧ 0 <= paddr (dir_entry s d i) < 1048576;
  dir_distinct : ∀ i j, 0 <= i < 1024 → 0 <= j < 1024 → i ≠ j → has_table s d i → has_table s d j →
    ptbl_of_pde (dir_entry s d i) ≠ ptbl_of_pde (dir_entry s d j);
}.

Lemma dir_aligned s d : d = pdes_addr ∨ table_page s d → d mod 4096 = 0 ∧ 0 < d.
Proof.
  intros [->|(i & Hi & -> & _)].
  - pose proof pdes_aligned. pose proof pdes_below. lia.
  - destruct (pool_page_facts i Hi) as (? & _ & ? & _). done.
Qed.

Lemma ptbl_of_pool e i : 0 <= i < 2048 → paddr e = Z.shiftr (pool_page i) 12 → ptbl_of_pde e = pool_page i.
Proof.
  intros Hi E. destruct (pool_page_facts i Hi) as (Ha & Hu & _). unfold ptbl_of_pde. rewrite E.
  rewrite Z.shiftr_div_pow2, Z.shiftl_mul_pow2 by lia. change (2 ^ 12) with 4096.
  rewrite <- (u32_small _ Hu) at 2. f_equal.
  rewrite (Z.div_mod (pool_page i) 4096) at 2 by lia. rewrite Ha. lia.
Qed.

(** ** Installing a table *)

(** Everything but the memory and the pool's bitmap. *)
Definition same_regs (s s1 : pg) : Prop :=
  paging_lock s1 = paging_lock s ∧ paging_pool_lock s1 = paging_pool_lock s ∧
  kernel_pdir_phys s1 = kernel_pdir_phys s ∧ g_cr3 s1 = g_cr3 s ∧ g_paging s1 = g_paging s ∧
  g_locks s1 = g_locks s.

(** Slot [k] became a table with the entries [f], reached through entry [i] of
    [d], which is now [e]; nothing else changed. *)
Record installed (s s1 : pg) (d i k : Z) (e : entry) (f : Z → entry) : Prop := {
  in_entry : g_mem s1 (slot d i) = e;
  in_table : ∀ j, 0 <= j < 1024 → g_mem s1 (slot (pool_page k) j) = f j;
  in_other : ∀ a, a ≠ slot d i → ¬ (pool_page k <= a < pool_page k + 4096) → g_mem s1 a = g_mem s a;
  in_used : paging_pool_used s1 = paging_pool_used (pool_mark k s);
  in_regs : same_regs s s1;
}.

(** A directory or table that is live: no fresh table is one of these. *)
Definition live (s : pg) (p : Z) : Prop := p = pdes_addr ∨ table_page s p.

Lemma live_outside s p k j :
  live s p → 0 <= k < 2048 → slot_used s k = false → 0 <= j < 1024 →
  ¬ (pool_page k <= slot p j < pool_page k + 4096).
Proof.
  intros Hp Hk Hu Hj. unfold slot, pool_page. destruct Hp as [->|(i & Hi & -> & Hi')].
  - pose proof pdes_below. lia.
  - unfold pool_page. assert (i ≠ k) by (by intros ->; rewrite Hu in Hi'). lia.
Qed.

Lemma live_slot_inj s p q i j :
  live s p → live s q → 0 <= i < 1024 → 0 <= j < 1024 → slot p i = slot q j → p = q ∧ i = j.
Proof.
  intros Hp Hq Hi Hj. apply dir_aligned in Hp as [Hp _], Hq as [Hq _]. by apply slot_inj.
Qed.

Lemma installed_live s s1 d i k e f p j :
  installed s s1 d i k e f → live s p → live s d → 0 <= i < 1024 → 0 <= k < 2048 →
  slot_used s k = false → 0 <= j < 1024 → p ≠ d ∨ j ≠ i →
  g_mem s1 (slot p j) = g_mem s (slot p j).
Proof.
  intros Hin Hp Hd Hi Hk Hu Hj Hne. apply (in_other _ _ _ _ _ _ _ Hin).
  - intros E. destruct (live_slot_inj s p d j i Hp Hd Hj Hi E). tauto.
  - by eapply live_outside.
Qed.

Lemma installed_used s s1 d i k e f j :
  installed s s1 d i k e f → length (paging_pool_used s) = 64%nat → 0 <= k < 2048 → 0 <= j < 2048 →
  slot_used s1 j = slot_used s j || bool_decide (j = k).
Proof.
  intros Hin Hlen Hk Hj. rewrite <- mark_used by done. unfold slot_used, pool_word.
  by rewrite (in_used _ _ _ _ _ _ _ Hin).
Qed.

Lemma installed_pool_ok s s1 d i k e f : installed s s1 d i k e f → pool_ok s → pool_ok s1.
Proof.
  intros Hin (Hlen & l & Hl & Hfree). destruct (in_regs _ _ _ _ _ _ _ Hin) as (_ & E1 & _ & _ & _ & E2).
  split; [|exists l; by rewrite E1, E2].
  rewrite (in_used _ _ _ _ _ _ _ Hin). simpl. by rewrite length_insert.
Qed.

Lemma installed_table_page s s1 d i k e f p :
  installed s s1 d i k e f → length (paging_pool_used s) = 64%nat → 0 <= k < 2048 →
  table_page s p → table_page s1 p.
Proof.
  intros Hin Hlen Hk (j & Hj & -> & Hu). exists j. split_and!; [lia|lia|done|].
  rewrite (installed_used _ _ _ _ _ _ _ _ Hin) by done. by rewrite Hu.
Qed.

Lemma installed_dir_wf s s1 d i k e f :
  installed s s1 d i k e f → pool_ok s → dir_wf s d → 0 <= i < 1024 → 0 <= k < 2048 →
  slot_used s k = false →
  present e = true → page_size e = false → rw e = true → paddr e = Z.shiftr (pool_page k) 12 →
  dir_wf s1 d ∧ has_table s1 d i ∧ ptbl_of_pde (dir_entry s1 d i) = pool_page k.
Proof.
  intros Hin [Hlen _] Hwf Hi Hk Hu He1 He2 He3 He4. pose proof (dir_page _ _ Hwf) as Hd.
  assert (Hsame : ∀ j, 0 <= j < 1024 → j ≠ i → dir_entry s1 d j = dir_entry s d j).
  { intros j Hj Hne. eapply installed_live; eauto. }
  assert (Hei : dir_entry s1 d i = e) by apply (in_entry _ _ _ _ _ _ _ Hin).
  assert (Ht : ptbl_of_pde e = pool_page k) by (by apply ptbl_of_pool).
  assert (Hnew : ∀ p, live s p → pool_page k ≠ p).
  { intros p Hp E. apply (live_outside s p k 0 Hp Hk Hu ltac:(lia)). unfold slot. lia. }
  assert (Hup : ∀ p, table_page s p → table_page s1 p) by (intros; by eapply installed_table_page).
  assert (Hk1 : table_page s1 (pool_page k)).
  { exists k. split_and!; [lia|lia|done|]. rewrite (installed_used _ _ _ _ _ _ _ _ Hin) by done.
    rewrite (bool_decide_eq_true_2 (k = k)) by done. apply orb_true_r. }
  split; [|by rewrite Hei; split; [split; rewrite Hei|]]. constructor.
  - destruct Hd; auto.
  - intros j Hj [Hp Hps]. destruct (decide (j = i)) as [->|Hne].
    + rewrite Hei, Ht. auto.
    + rewrite Hsame in * by done.
      destruct (dir_table _ _ Hwf j Hj) as (? & ? & ?); [by split|]. auto.
  - intros j Hj Hp Hps. destruct (decide (j = i)) as [->|Hne].
    + rewrite Hei in Hps. congruence.
    + rewrite Hsame in * by done. by apply (dir_large _ _ Hwf).
  - assert (Hold : ∀ j, 0 <= j < 1024 → j ≠ i → has_table s1 d j → pool_page k ≠ ptbl_of_pde (dir_entry s1 d j)).
    { intros j Hj Hne Hj'. unfold has_table in Hj'. rewrite Hsame in * by done. apply Hnew. right.
      by apply (dir_table _ _ Hwf j Hj). }
    intros j1 j2 Hj1 Hj2 Hne H1 H2.
    destruct (decide (j1 = i)) as [->|]; [rewrite Hei, Ht; by apply Hold|].
    destruct (decide (j2 = i)) as [->|]; [rewrite Hei, Ht; by apply not_eq_sym, Hold|].
    unfold has_table in H1, H2. rewrite (Hsame j1) in * by done. rewrite (Hsame j2) in * by done.
    by apply (dir_distinct _ _ Hwf).
Qed.

(** ** Translation after a change *)

(** The walk reads one entry of the directory and one of the table. *)
Lemma translate_ext s s1 d va :
  dir_entry s1 d (PD_INDEX va) = dir_entry s d (PD_INDEX va) →
  (has_table s d (PD_INDEX va) →
   g_mem s1 (slot (ptbl_of_pde (dir_entry s d (PD_INDEX va))) (PT_INDEX va))
   = g_mem s (slot (ptbl_of_pde (dir_entry s d (PD_INDEX va))) (PT_INDEX va))) →
  translate s1 d va = translate s d va.
Proof.
  unfold translate, has_table, dir_entry. intros -> Ht.
  destruct (present _); simpl; [|done]. destruct (page_size _); simpl; [done|]. by rewrite Ht.
Qed.

Lemma translate_table s d va :
  has_table s d (PD_INDEX va) →
  translate s d va =
    let e := dir_entry s d (PD_INDEX va) in
    let t := g_mem s (slot (ptbl_of_pde e) (PT_INDEX va)) in
    if present t then Some (mk_xlat (paddr t * 4096 + va mod 4096) (user e && user t) (rw e && rw t))
    else None.
Proof.
  unfold translate, has_table, dir_entry. intros [-> ->]. simpl. by destruct (present _).
Qed.

Lemma installed_translate s s1 d i k e f va :
  installed s s1 d i k e f → pool_ok s → dir_wf s d → 0 <= i < 1024 → 0 <= k < 2048 →
  slot_used s k = false → present e = true → page_size e = false →
  paddr e = Z.shiftr (pool_page k) 12 →
  (PD_INDEX va = i → translate s d va =
     if present (f (PT_INDEX va))
     then Some (mk_xlat (paddr (f (PT_INDEX va)) * 4096 + va mod 4096)
                  (user e && user (f (PT_INDEX va))) (rw e && rw (f (PT_INDEX va))))
     else None) →
  translate s1 d va = translate s d va.
Proof.
  intros Hin [Hlen _] Hwf Hi Hk Hu He1 He2 He4 Hva. pose proof (dir_page _ _ Hwf) as Hd.
  destruct (decide (PD_INDEX va = i)) as [E|Hne].
  - rewrite (Hva E). rewrite translate_table.
    2: { unfold has_table, dir_entry. rewrite E, (in_entry _ _ _ _ _ _ _ Hin). done. }
    unfold dir_entry. rewrite E, (in_entry _ _ _ _ _ _ _ Hin). cbv zeta.
    rewrite (ptbl_of_pool e k) by done.
    by rewrite (in_table _ _ _ _ _ _ _ Hin) by apply PT_INDEX_range.
  - pose proof (PD_INDEX_range va). apply translate_ext.
    + eapply installed_live; eauto.
    + intros Ht. destruct (dir_table _ _ Hwf _ ltac:(done) Ht) as (_ & Htp & Htd).
      eapply installed_live; [exact Hin|by right|done|done|done|done|apply PT_INDEX_range|by left].
Qed.

(** *** Splitting a 4 MB page *)

Lemma split_fill_run n i ptl p u s :
  0 <= i →
  ∃ m, split_fill n i ptl p u s = Ret tt (set_mem m s) ∧
    (∀ j, i <= j < i + Z.of_nat n → m (slot ptl j) = split_pte p u j) ∧
    (∀ a, (∀ j, i <= j < i + Z.of_nat n → a ≠ slot ptl j) → m a = g_mem s a).
Proof.
  revert i s. induction n as [|n IH]; intros i s Hi.
  - exists (g_mem s). split_and!; [by destruct s|lia|done].
  - cbn [split_fill]. rewrite (bind_Ret (write_entry ptl i _) _ s _ _ eq_refl).
    destruct (IH (i + 1) (set_mem (λ a, if a =? slot ptl i then split_pte p u i else g_mem s a) s))
      as (m & E & Hm & Ho); [lia|].
    exists m. split_and!; [exact E|..].
    + intros j Hj. destruct (decide (j = i)) as [->|]; [|apply Hm; lia].
      rewrite Ho; [simpl; by rewrite Z.eqb_refl|]. intros j' Hj'. unfold slot. lia.
    + intros a Ha. rewrite Ho; [|intros j Hj; apply Ha; lia]. simpl.
      rewrite (proj2 (Z.eqb_neq _ _)); [done|]. apply Ha. lia.
Qed.

(** The page the code had as one 4 MB page, seen as 1024 entries. *)
Lemma split_translation p u i va :
  present p = true → paddr p mod 1024 = 0 → 0 <= paddr p < 1048576 → is_u32 va → i = PT_INDEX va →
  paddr (split_pte p u i) * 4096 + va mod 4096 = paddr p / 1024 * 4194304 + va mod 4194304.
Proof.
  intros _ Hp Hr Hva ->. pose proof (PT_INDEX_range va) as Hi. simpl.
  assert (paddr p <= 1048576 - 1024).
  { rewrite (Z.div_mod (paddr p) 1024) in Hr |- * by lia. rewrite Hp in *. lia. }
  rewrite Z.mod_small by lia. rewrite PT_INDEX_div in *.
  rewrite (Z.div_mod (paddr p) 1024) at 1 by lia. rewrite Hp.
  change 4194304 with (4096 * 1024) at 2. rewrite Z.rem_mul_r by lia. lia.
Qed.

(** The table behind entry [i] of [d] was free before and is all that was
    taken from the pool. *)
Definition fresh_table (s s1 : pg) (d i : Z) : Prop :=
  ¬ has_table s d i ∧ ∃ k, 0 <= k < 2048 ∧ slot_used s k = false ∧
    paddr (dir_entry s1 d i) = Z.shiftr (pool_page k) 12 ∧
    ptbl_of_pde (dir_entry s1 d i) = pool_page k ∧
    ∀ j, 0 <= j < 2048 → slot_used s1 j = slot_used s j || bool_decide (j = k).

Lemma fresh_not_live s s1 d i : fresh_table s s1 d i → ¬ live s (ptbl_of_pde (dir_entry s1 d i)).
Proof.
  intros (_ & k & Hk & Hu & _ & -> & _) Hl. apply (live_outside s _ k 0 Hl Hk Hu ltac:(lia)). unfold slot. lia.
Qed.

(** A table was made: by splitting, allocating, or because it was there. *)
Record ready_table (s s1 : pg) (d i flags : Z) : Prop := {
  rt_pool : pool_ok s1;
  rt_wf : dir_wf s1 d;
  rt_table : has_table s1 d i;
  rt_translate : ∀ va, is_u32 va → translate s1 d va = translate s d va;
  rt_user : user (dir_entry s1 d i) =
    if present (dir_entry s d i) && negb (page_size (dir_entry s d i)) then user (dir_entry s d i)
    else flag 2 flags || (present (dir_entry s d i) && user (dir_entry s d i));
  rt_live : ∀ p j, live s p → p ≠ d ∨ j ≠ i → 0 <= j < 1024 → g_mem s1 (slot p j) = g_mem s (slot p j);
  rt_grow : ∀ p, live s p → live s1 p;
  rt_fresh : has_table s d i ∧ s1 = s ∨ fresh_table s s1 d i;
  rt_regs : same_regs s s1;
}.

Lemma installed_ready s s1 d i k e f flags :
  installed s s1 d i k e f → pool_ok s → dir_wf s d → 0 <= i < 1024 → 0 <= k < 2048 →
  slot_used s k = false → ¬ has_table s d i →
  present e = true → page_size e = false → rw e = true → paddr e = Z.shiftr (pool_page k) 12 →
  user e = flag 2 flags || (present (dir_entry s d i) && user (dir_entry s d i)) →
  (∀ va, is_u32 va → PD_INDEX va = i → translate s d va =
     if present (f (PT_INDEX va))
     then Some (mk_xlat (paddr (f (PT_INDEX va)) * 4096 + va mod 4096)
                  (user e && user (f (PT_INDEX va))) (rw e && rw (f (PT_INDEX va))))
     else None) →
  ready_table s s1 d i flags.
Proof.
  intros Hin Hok Hwf Hi Hk Hu Hno He1 He2 He3 He4 Hus Htr.
  destruct (installed_dir_wf _ _ _ _ _ _ _ Hin Hok Hwf Hi Hk Hu He1 He2 He3 He4) as (Hwf1 & Ht1 & Hp1).
  pose proof (dir_page _ _ Hwf) as Hd. constructor; try done.
  - by eapply installed_pool_ok.
  - intros va Hva. eapply installed_translate; eauto.
  - unfold dir_entry at 1. rewrite (in_entry _ _ _ _ _ _ _ Hin), Hus.
    destruct (present (dir_entry s d i)) eqn:E1, (page_size (dir_entry s d i)) eqn:E2; try done.
    by destruct Hno.
  - intros p j Hp Hne Hj. eapply installed_live; eauto.
  - intros p [->|Hp]; [by left|right]. destruct Hok as [Hlen _]. by eapply installed_table_page.
  - right. split; [done|]. exists k. split_and!; [lia|lia|done| |done|].
    + unfold dir_entry. by rewrite (in_entry _ _ _ _ _ _ _ Hin).
    + intros j Hj. destruct Hok. by eapply installed_used.
  - apply (in_regs _ _ _ _ _ _ _ Hin).
Qed.

Lemma read_bind {A} p i (k : entry → M pg A) s :
  (read_entry p i ≫= k) s = k (g_mem s (slot p i)) s.
Proof. done. Qed.

Lemma write_bind {A} p i e (k : unit → M pg A) s :
  (write_entry p i e ≫= k) s = k tt (set_mem (λ a, if a =? slot p i then e else g_mem s a) s).
Proof. done. Qed.

(** The directory entry is outside a page just taken from the pool. *)
Lemma taken_live s k p j :
  live s p → 0 <= k < 2048 → slot_used s k = false → 0 <= j < 1024 →
  g_mem (taken_slot k s) (slot p j) = g_mem s (slot p j).
Proof.
  intros Hp Hk Hu Hj. pose proof (live_outside s p k j Hp Hk Hu Hj) as Ho. simpl. unfold PAGE_SIZE.
  destruct (Z.leb_spec (pool_page k) (slot p j)), (Z.ltb_spec (slot p j) (pool_page k + 4096)); try done. lia.
Qed.

Lemma slot_in_page p j : 0 <= j < 1024 → p <= slot p j < p + 4096.
Proof. unfold slot. lia. Qed.

Lemma taken_cleared s k j : 0 <= j < 1024 → g_mem (taken_slot k s) (slot (pool_page k) j) = entry0.
Proof.
  intros Hj. pose proof (slot_in_page (pool_page k) j Hj). simpl. unfold PAGE_SIZE.
  destruct (Z.leb_spec (pool_page k) (slot (pool_page k) j)), (Z.ltb_spec (slot (pool_page k) j) (pool_page k + 4096));
    (done || lia).
Qed.

Lemma with_user_eq e b : user e = b → with_user b e = e.
Proof. intros <-. by destruct e. Qed.

Lemma split_run s d i ua :
  pool_ok s → dir_wf s d → 0 <= i < 1024 →
  present (dir_entry s d i) = true → page_size (dir_entry s d i) = true →
  ((∀ k, 0 <= k < 2048 → slot_used s k = true) ∧ split_4mb_pde d i ua s = Ret E_NOMEM s) ∨
  ∃ k s1, 0 <= k < 2048 ∧ slot_used s k = false ∧ split_4mb_pde d i ua s = Ret 0 s1 ∧
    installed s s1 d i k
      (let p := dir_entry s d i in
       mk_entry true true (negb (ua =? 0) || user p) (pwt p) (pcd p) (accessed p) (dirty p) false
         (global p) (avail p) (Z.shiftr (pool_page k) 12))
      (split_pte (dir_entry s d i) (user (dir_entry s d i))).
Proof.
  intros Hok Hwf Hi Hp Hps. pose proof (dir_page _ _ Hwf) as Hd. unfold split_4mb_pde.
  rewrite read_bind. change (g_mem s (slot d i)) with (dir_entry s d i). rewrite Hp, Hps. cbn [negb orb].
  destruct (pool_alloc_run s Hok) as [(k & Hk & Hu & _ & E)|[Hall E]];
    rewrite (bind_Ret _ _ _ _ _ E); [right|by left].
  destruct (pool_page_facts k Hk) as (Hka & _ & Hk0 & _).
  rewrite (proj2 (Z.eqb_neq (pool_page k) 0)) by lia. rewrite read_bind, taken_live by done.
  change (g_mem s (slot d i)) with (dir_entry s d i).
  set (b := negb (ua =? 0) && negb (user (dir_entry s d i))).
  set (s1 := if b then set_mem (λ a, if a =? slot d i then with_user true (dir_entry s d i)
                                     else g_mem (taken_slot k s) a) (taken_slot k s) else taken_slot k s).
  rewrite (bind_Ret _ _ _ tt s1) by (unfold s1; by destruct b).
  assert (He1 : g_mem s1 (slot d i) = with_user (negb (ua =? 0) || user (dir_entry s d i)) (dir_entry s d i)).
  { unfold s1, b. destruct (ua =? 0), (user (dir_entry s d i)) eqn:Eu; simpl; rewrite ?Z.eqb_refl; try done.
    all: rewrite (with_user_eq _ _ Eu); exact (taken_live s k d i Hd Hk Hu Hi). }
  rewrite read_bind, He1.
  destruct (split_fill_run 1024 0 (pool_page k) (with_user (negb (ua =? 0) || user (dir_entry s d i)) (dir_entry s d i))
    (user (dir_entry s d i)) s1 ltac:(lia)) as (m & Ef & Hm & Ho).
  rewrite (bind_Ret _ _ _ _ _ Ef).
  assert (Hmd : m (slot d i) = with_user (negb (ua =? 0) || user (dir_entry s d i)) (dir_entry s d i)).
  { rewrite Ho, He1; [done|]. intros j Hj E'. pose proof (live_outside s d k i Hd Hk Hu Hi) as Hn.
    rewrite E' in Hn. apply Hn, slot_in_page. lia. }
  rewrite read_bind. cbn [g_mem set_mem]. rewrite Hmd. rewrite write_bind. cbn [g_mem set_mem].
  eexists k, _. split_and!; [lia|lia|done|reflexivity|]. constructor; cbn [g_mem set_mem].
  - rewrite Z.eqb_refl. done.
  - intros j Hj. rewrite (proj2 (Z.eqb_neq _ _)).
    + rewrite Hm by lia. by destruct (dir_entry s d i).
    + intros E'. pose proof (live_outside s d k i Hd Hk Hu Hi) as Hn. rewrite <- E' in Hn. by apply Hn, slot_in_page.
  - intros a Ha Hout. rewrite (proj2 (Z.eqb_neq _ _)) by done. rewrite Ho.
    + unfold s1. assert (g_mem (taken_slot k s) a = g_mem s a) as Et.
      { simpl. unfold PAGE_SIZE. destruct (Z.leb_spec (pool_page k) a), (Z.ltb_spec a (pool_page k + 4096)); try done. lia. }
      destruct b; [|done]. cbn [g_mem set_mem]. by rewrite (proj2 (Z.eqb_neq _ _)) by done.
    + intros j Hj ->. apply Hout, slot_in_page. lia.
  - clear Ef. unfold s1. destruct b; reflexivity.
  - clear Ef. unfold s1, same_regs. destruct b; repeat split.
Qed.

(** An absent entry gets an empty table. *)
Lemma ensure_absent_ok s d i flags :
  pool_ok s → dir_wf s d → 0 <= i < 1024 → present (dir_entry s d i) = false →
  let m := (r ← mret 0;
    if negb (r =? 0) then mret E_NOMEM else
    e ← read_entry d i;
    if present e then mret 0 else
    pt_pa ← arch_paging_pool_alloc;
    if pt_pa =? 0 then mret E_NOMEM else
    write_entry d i
      (mk_entry true true (flag 2 flags) false false false false false false 0 (Z.shiftr pt_pa 12));;
    clear_page pt_pa;;
    mret 0) s in
  (m = Ret E_NOMEM s ∧ (∀ k, 0 <= k < 2048 → slot_used s k = true)) ∨
  ∃ s1, m = Ret 0 s1 ∧ ready_table s s1 d i flags.
Proof.
  intros Hok Hwf Hi Hp. pose proof (dir_page _ _ Hwf) as Hd. cbv zeta.
  rewrite bind_ret. cbn [negb Z.eqb]. rewrite read_bind. fold (dir_entry s d i). rewrite Hp.
  destruct (pool_alloc_run s Hok) as [(k & Hk & Hu & _ & E)|[Hall E]];
    rewrite (bind_Ret _ _ _ _ _ E); [right|by left].
  destruct (pool_page_facts k Hk) as (Hka & _ & Hk0 & _).
  rewrite (proj2 (Z.eqb_neq (pool_page k) 0)) by lia. rewrite write_bind.
  eexists. split; [reflexivity|].
  eapply (installed_ready s _ d i k
    (mk_entry true true (flag 2 flags) false false false false false false 0 (Z.shiftr (pool_page k) 12))
    (λ _, entry0)); [|done..| |done|done|done|done|by rewrite Hp, orb_false_r|].
  2: { intros [? _]. congruence. }
  2: { intros va _ <-. simpl. unfold translate. fold (dir_entry s d (PD_INDEX va)). by rewrite Hp. }
  pose proof (live_outside s d k i Hd Hk Hu Hi) as Hn.
  assert (Hpg : ∀ a, (pool_page k <=? a) && (a <? pool_page k + PAGE_SIZE) = true ↔
    pool_page k <= a < pool_page k + 4096).
  { intros a. rewrite andb_true_iff, Z.leb_le, Z.ltb_lt. done. }
  constructor; simpl; try done.
  - destruct (_ && _) eqn:Ea; [by apply Hpg in Ea|]. by rewrite Z.eqb_refl.
  - intros j Hj. rewrite (proj2 (Hpg _)) by (by apply slot_in_page). done.
  - intros a Ha Ho. destruct (_ && _) eqn:Ea; [by apply Hpg in Ea|].
    rewrite (proj2 (Z.eqb_neq _ _)) by done. done.
Qed.

Lemma ensure_table_ok s d i flags :
  pool_ok s → dir_wf s d → 0 <= i < 1024 →
  (ensure_table d i flags s = Ret E_NOMEM s ∧ (∀ k, 0 <= k < 2048 → slot_used s k = true)) ∨
  ∃ s1, ensure_table d i flags s = Ret 0 s1 ∧ ready_table s s1 d i flags.
Proof.
  intros Hok Hwf Hi. pose proof (dir_page _ _ Hwf) as Hd. unfold ensure_table. rewrite read_bind.
  change (g_mem s (slot d i)) with (dir_entry s d i).
  destruct (present (dir_entry s d i)) eqn:Hp, (page_size (dir_entry s d i)) eqn:Hps; cbn [andb].
  - (* a 4 MB page *)
    destruct (split_run s d i (Z.land flags PTE_USER) Hok Hwf Hi Hp Hps)
      as [[Hall E]|(k & s1 & Hk & Hu & E & Hin)]; rewrite (bind_Ret _ _ _ _ _ E); [by left|right].
    cbn [negb Z.eqb]. rewrite read_bind, (in_entry _ _ _ _ _ _ _ Hin). cbn [present].
    exists s1. split; [done|].
    destruct (dir_large _ _ Hwf i Hi Hp Hps) as [Hal Hra].
    assert (Hfl : negb (Z.land flags PTE_USER =? 0) = flag 2 flags).
    { change PTE_USER with (Z.shiftl 1 2). rewrite land_bit by lia. apply negb_involutive. }
    eapply installed_ready; [exact Hin|done..| |done|done|done|done|cbv zeta; cbn [user]; by rewrite Hfl, Hp|].
    { intros [_ Hno]. congruence. }
    intros va Hva <-. unfold translate. fold (dir_entry s d (PD_INDEX va)). rewrite Hp, Hps. cbn [negb].
    rewrite <- (split_translation _ (user (dir_entry s d (PD_INDEX va))) (PT_INDEX va)) by done.
    simpl. rewrite Hp. do 2 f_equal. by destruct (user (dir_entry s d (PD_INDEX va))), (Z.land flags PTE_USER =? 0).
  - (* a table *)
    right. exists s. rewrite bind_ret. cbn [negb Z.eqb]. rewrite read_bind. fold (dir_entry s d i). rewrite Hp.
    split; [done|]. constructor; try done. { by rewrite Hp, Hps. } by left.
  - by apply ensure_absent_ok.
  - by apply ensure_absent_ok.
Qed.

(** ** One entry of a table *)

Definition set_pte (t i : Z) (e : entry) (s : pg) : pg :=
  set_mem (λ a, if a =? slot t i then e else g_mem s a) s.

Lemma set_pte_ok s d i va e :
  pool_ok s → dir_wf s d → i = PD_INDEX va → has_table s d i →
  let s2 := set_pte (ptbl_of_pde (dir_entry s d i)) (PT_INDEX va) e s in
  pool_ok s2 ∧ dir_wf s2 d ∧ (∀ j, 0 <= j < 1024 → dir_entry s2 d j = dir_entry s d j) ∧
  (present e = false ∧ translate s2 d va = None ∨
   present e = true ∧ translate s2 d va =
     Some (mk_xlat (paddr e * 4096 + va mod 4096) (user (dir_entry s d i) && user e) (rw e))) ∧
  (∀ va', is_u32 va → is_u32 va' → va' / 4096 ≠ va / 4096 → translate s2 d va' = translate s d va').
Proof.
  intros Hok Hwf -> Ht. pose proof (PD_INDEX_range va) as Hi. pose proof (dir_page _ _ Hwf) as Hd.
  destruct (dir_table _ _ Hwf _ Hi Ht) as (Hrw & Htp & Htd). set (t := ptbl_of_pde (dir_entry s d (PD_INDEX va))) in *.
  cbv zeta.
  assert (Hother : ∀ p j, live s p → 0 <= j < 1024 → p ≠ t ∨ j ≠ PT_INDEX va →
    g_mem (set_pte t (PT_INDEX va) e s) (slot p j) = g_mem s (slot p j)).
  { intros p j Hp Hj Hne. simpl. rewrite (proj2 (Z.eqb_neq _ _)); [done|]. intros E.
    destruct (live_slot_inj s p t j (PT_INDEX va) Hp (or_intror Htp) Hj (PT_INDEX_range va) E). tauto. }
  assert (Hde : ∀ j, 0 <= j < 1024 → dir_entry (set_pte t (PT_INDEX va) e s) d j = dir_entry s d j).
  { intros j Hj. apply Hother; [done|done|by left; apply not_eq_sym]. }
  assert (Hht : ∀ j, 0 <= j < 1024 → has_table (set_pte t (PT_INDEX va) e s) d j → has_table s d j).
  { intros j Hj. unfold has_table. by rewrite Hde. }
  split; [exact Hok|]. split.
  { constructor.
    - exact Hd.
    - intros j Hj Hjt%Hht; [|done]. rewrite !Hde by done. by apply (dir_table _ _ Hwf).
    - intros j Hj. rewrite !Hde by done. by apply (dir_large _ _ Hwf).
    - intros j1 j2 Hj1 Hj2 Hne H1%Hht H2%Hht; [|done..]. rewrite !Hde by done. by apply (dir_distinct _ _ Hwf). }
  split; [done|]. split.
  - rewrite translate_table by (unfold has_table; by rewrite Hde). rewrite Hde by done. cbv zeta. fold t.
    replace (g_mem (set_pte t (PT_INDEX va) e s) (slot t (PT_INDEX va))) with e by (simpl; by rewrite Z.eqb_refl).
    rewrite Hrw. destruct (present e); [right|left]; done.
  - intros va' Hva Hva' Hne. pose proof (PD_INDEX_range va'). apply translate_ext; [by apply Hde|].
    intros Ht'. destruct (dir_table _ _ Hwf _ ltac:(done) Ht') as (_ & Htp' & _).
    apply Hother; [by right|apply PT_INDEX_range|].
    destruct (decide (PD_INDEX va' = PD_INDEX va)) as [E|E].
    + right. intros E'. apply Hne. by apply same_page.
    + left. by apply (dir_distinct _ _ Hwf).
Qed.

(** Another directory does not see a change in a table it does not share. *)
Lemma set_pte_other s d' t i e :
  dir_wf s d' → live s t → 0 <= i < 1024 → t ≠ d' →
  (∀ j, 0 <= j < 1024 → has_table s d' j → ptbl_of_pde (dir_entry s d' j) ≠ t) →
  ∀ va, translate (set_pte t i e s) d' va = translate s d' va.
Proof.
  intros Hwf Ht Hi Htd Hno va. pose proof (PD_INDEX_range va).
  assert (Hother : ∀ p j, live s p → 0 <= j < 1024 → p ≠ t →
    g_mem (set_pte t i e s) (slot p j) = g_mem s (slot p j)).
  { intros p j Hp Hj Hne. simpl. rewrite (proj2 (Z.eqb_neq _ _)); [done|]. intros E.
    destruct (live_slot_inj s p t j i Hp Ht Hj Hi E). done. }
  apply translate_ext.
  - apply Hother; [apply (dir_page _ _ Hwf)|done|by apply not_eq_sym].
  - intros Hj. apply Hother; [right; by apply (dir_table _ _ Hwf)|apply PT_INDEX_range|by apply Hno].
Qed.

Lemma ready_other s s1 d d' i flags :
  ready_table s s1 d i flags → dir_wf s d' → d ≠ d' → 0 <= i < 1024 →
  (∀ j, 0 <= j < 1024 → has_table s d' j → ptbl_of_pde (dir_entry s d' j) ≠ d) →
  (∀ j, 0 <= j < 1024 → dir_entry s1 d' j = dir_entry s d' j) ∧
  dir_wf s1 d' ∧ ∀ va, translate s1 d' va = translate s d' va.
Proof.
  intros Hr Hwf Hne Hi Hno. pose proof (dir_page _ _ Hwf) as Hd'.
  assert (Hde : ∀ j, 0 <= j < 1024 → dir_entry s1 d' j = dir_entry s d' j).
  { intros j Hj. apply (rt_live _ _ _ _ _ Hr); [done|by left; apply not_eq_sym|done]. }
  assert (Hht : ∀ j, 0 <= j < 1024 → has_table s1 d' j → has_table s d' j).
  { intros j Hj. unfold has_table. by rewrite Hde. }
  assert (Hup : ∀ p, table_page s p → table_page s1 p).
  { intros p Hp. destruct (rt_grow _ _ _ _ _ Hr p (or_intror Hp)) as [->|]; [|done].
    destruct Hp as (k & Hk & E & _). destruct (pool_page_facts k Hk) as (_ & _ & _ & Hk'). congruence. }
  split; [done|]. split.
  - constructor.
    + destruct Hd' as [->|]; [by left|right; auto].
    + intros j Hj Hjt%Hht; [|done]. rewrite !Hde by done.
      destruct (dir_table _ _ Hwf j Hj Hjt) as (? & ? & ?). auto.
    + intros j Hj. rewrite !Hde by done. by apply (dir_large _ _ Hwf).
    + intros j1 j2 Hj1 Hj2 Hne' H1%Hht H2%Hht; [|done..]. rewrite !Hde by done. by apply (dir_distinct _ _ Hwf).
  - intros va. pose proof (PD_INDEX_range va). apply translate_ext; [by apply Hde|].
    intros Ht. apply (rt_live _ _ _ _ _ Hr).
    + right. by apply (dir_table _ _ Hwf).
    + left. by apply Hno.
    + apply PT_INDEX_range.
Qed.

(** ** The locked operations *)

(** Both locks exist, are different and free. *)
Definition pg_ok (s : pg) : Prop :=
  pool_ok s ∧ ∃ l, paging_lock s = Some l ∧ g_locks s !! l = Some LOCK_UNLOCKED ∧ paging_pool_lock s ≠ Some l.

Definition locked_pg (l : nat) (s : pg) : pg := set_g_locks (<[l := LOCK_LOCKED]> (g_locks s)) s.

Lemma locked_pool_ok s l : pool_ok s → paging_pool_lock s ≠ Some l → pool_ok (locked_pg l s).
Proof.
  intros (Hlen & l' & Hl' & Hf) Hne. split; [done|]. exists l'. split; [done|]. simpl.
  rewrite list_lookup_insert_ne; [done|]. congruence.
Qed.

(** Neither the tables nor the pool depend on the locks. *)
Lemma dir_wf_locks t s d : dir_wf (set_g_locks t s) d ↔ dir_wf s d.
Proof. split; intros []; constructor; done. Qed.

(** No table of [d'] is the page [p]. *)
Definition no_table_is (s : pg) (d' p : Z) : Prop :=
  ∀ j, 0 <= j < 1024 → has_table s d' j → ptbl_of_pde (dir_entry s d' j) ≠ p.

(** [d'] shares nothing that mapping [va] in [d] can write: it is another
    directory, and neither [d] nor the table of [d] for [va] is its table. *)
Definition apart (s : pg) (d d' va : Z) : Prop :=
  d' ≠ d ∧ no_table_is s d' d ∧
  (has_table s d (PD_INDEX va) →
   no_table_is s d' (ptbl_of_pde (dir_entry s d (PD_INDEX va))) ∧
   d' ≠ ptbl_of_pde (dir_entry s d (PD_INDEX va))).

(** Ring 3 reaches a page of [va] mapped for it, unless the entry already led
    to a table closed to it. *)
Definition opens (s : pg) (d va : Z) : bool :=
  let e := dir_entry s d (PD_INDEX va) in
  negb (present e && negb (page_size e)) || user e.

Record mapped (s s' : pg) (d va pa flags : Z) : Prop := {
  mp_ok : pg_ok s';
  mp_wf : dir_wf s' d;
  mp_here : translate s' d va =
    if flag 0 flags
    then Some (mk_xlat (pa / 4096 * 4096 + va mod 4096) (opens s d va && flag 2 flags) (flag 1 flags))
    else None;
  mp_else : ∀ va', is_u32 va' → va' / 4096 ≠ va / 4096 → translate s' d va' = translate s d va';
  mp_apart : ∀ d', dir_wf s d' → apart s d d' va →
    dir_wf s' d' ∧ ∀ va', translate s' d' va' = translate s d' va';
  mp_regs : same_regs s s';
  mp_entries : ∀ p j, live s p → 0 <= j < 1024 → p ≠ d ∨ j ≠ PD_INDEX va →
    p ≠ ptbl_of_pde (dir_entry s' d (PD_INDEX va)) → g_mem s' (slot p j) = g_mem s (slot p j);
  mp_grow : ∀ p, live s p → live s' p;
  mp_table : has_table s' d (PD_INDEX va);
  mp_fresh : has_table s d (PD_INDEX va) ∧ paging_pool_used s' = paging_pool_used s ∧
      dir_entry s' d (PD_INDEX va) = dir_entry s d (PD_INDEX va)
    ∨ fresh_table s s' d (PD_INDEX va);
}.

Lemma map_4kb_locked_ok s d va pa flags :
  pool_ok s → dir_wf s d → is_u32 va →
  (map_4kb_locked d va pa flags s = Ret E_NOMEM s ∧ ∀ k, 0 <= k < 2048 → slot_used s k = true) ∨
  ∃ s1, ready_table s s1 d (PD_INDEX va) flags ∧
    map_4kb_locked d va pa flags s =
      Ret 0 (set_pte (ptbl_of_pde (dir_entry s1 d (PD_INDEX va))) (PT_INDEX va)
        (mk_entry (flag 0 flags) (flag 1 flags) (flag 2 flags) false false false false false false 0
           (Z.shiftr pa 12)) s1).
Proof.
  intros Hok Hwf Hva. unfold map_4kb_locked.
  destruct (ensure_table_ok s d (PD_INDEX va) flags Hok Hwf (PD_INDEX_range va)) as [[E Hall]|(s1 & E & Hr)];
    rewrite (bind_Ret _ _ _ _ _ E); [by left|right].
  exists s1. split; [done|]. cbn [negb Z.eqb]. by rewrite read_bind.
Qed.

(** Entries of live pages other than the written one are as they were. *)
Lemma dir_wf_set_pte_other s d' t i e :
  dir_wf s d' → live s t → 0 <= i < 1024 → t ≠ d' → dir_wf (set_pte t i e s) d'.
Proof.
  intros Hwf Ht Hi Hne. pose proof (dir_page _ _ Hwf) as Hd'.
  assert (Hde : ∀ j, 0 <= j < 1024 → dir_entry (set_pte t i e s) d' j = dir_entry s d' j).
  { intros j Hj. unfold dir_entry. simpl. rewrite (proj2 (Z.eqb_neq _ _)); [done|]. intros E.
    destruct (live_slot_inj s d' t j i Hd' Ht Hj Hi E). congruence. }
  assert (Hht : ∀ j, 0 <= j < 1024 → has_table (set_pte t i e s) d' j → has_table s d' j).
  { intros j Hj. unfold has_table. by rewrite Hde. }
  constructor.
  - exact Hd'.
  - intros j Hj Hjt%Hht; [|done]. rewrite !Hde by done. by apply (dir_table _ _ Hwf).
  - intros j Hj. rewrite !Hde by done. by apply (dir_large _ _ Hwf).
  - intros j1 j2 Hj1 Hj2 Hne' H1%Hht H2%Hht; [|done..]. rewrite !Hde by done. by apply (dir_distinct _ _ Hwf).
Qed.

Lemma mapped_apart s s1 d d' va e :
  ready_table s s1 d (PD_INDEX va) e → dir_wf s d → dir_wf s d' → apart s d d' va → ∀ x,
  let s2 := set_pte (ptbl_of_pde (dir_entry s1 d (PD_INDEX va))) (PT_INDEX va) x s1 in
  dir_wf s2 d' ∧ ∀ va', translate s2 d' va' = translate s d' va'.
Proof.
  intros Hr Hwf Hwf' (Hne & Hno & Htab) x. pose proof (PD_INDEX_range va) as Hi.
  destruct (ready_other s s1 d d' (PD_INDEX va) e Hr Hwf' ltac:(by apply not_eq_sym) Hi Hno) as (Hde & Hwf1 & Htr).
  set (t := ptbl_of_pde (dir_entry s1 d (PD_INDEX va))). cbv zeta.
  assert (live s1 t) as Hlt.
  { right. by apply (dir_table _ _ (rt_wf _ _ _ _ _ Hr) _ Hi (rt_table _ _ _ _ _ Hr)). }
  assert (t ≠ d' ∧ no_table_is s d' t) as [Htd Hnt].
  { destruct (rt_fresh _ _ _ _ _ Hr) as [[Hht ->]|Hfr%fresh_not_live].
    - destruct (Htab Hht). split; [by apply not_eq_sym|done].
    - split; [intros E; apply Hfr; fold t; rewrite E; apply (dir_page _ _ Hwf')|].
      intros j Hj Hjt E. apply Hfr. fold t. rewrite <- E. right. by apply (dir_table _ _ Hwf'). }
  split; [by apply dir_wf_set_pte_other; [..|apply PT_INDEX_range|]|].
  intros va'. rewrite <- (Htr va'). apply set_pte_other; [done|done|apply PT_INDEX_range|done|].
  intros j Hj Hjt. unfold has_table in Hjt. rewrite Hde in Hjt |- * by done. by apply Hnt.
Qed.

Lemma ready_mapped s s1 d va pa flags :
  pg_ok s → ready_table s s1 d (PD_INDEX va) flags → dir_wf s d → is_u32 va → is_u32 pa →
  mapped s (set_pte (ptbl_of_pde (dir_entry s1 d (PD_INDEX va))) (PT_INDEX va)
        (mk_entry (flag 0 flags) (flag 1 flags) (flag 2 flags) false false false false false false 0
           (Z.shiftr pa 12)) s1) d va pa flags.
Proof.
  intros [_ (l & Hl & Hf & Hne)] Hr Hwf Hva Hpa.
  destruct (set_pte_ok s1 d _ va (mk_entry (flag 0 flags) (flag 1 flags) (flag 2 flags) false false
    false false false false 0 (Z.shiftr pa 12)) (rt_pool _ _ _ _ _ Hr) (rt_wf _ _ _ _ _ Hr) eq_refl
    (rt_table _ _ _ _ _ Hr)) as (Hp2 & Hwf2 & Hde2 & Hhere & Helse).
  destruct (rt_regs _ _ _ _ _ Hr) as (R1 & R2 & R3 & R4 & R5 & R6).
  constructor.
  - split; [done|]. exists l. simpl. by rewrite R1, R2, R6.
  - done.
  - cbn [present paddr user rw] in Hhere. destruct Hhere as [[-> ->]|[-> ->]]; [done|]. rewrite Z.shiftr_div_pow2 by lia. change (2 ^ 12) with 4096.
    do 2 f_equal. rewrite (rt_user _ _ _ _ _ Hr). unfold opens.
    destruct (present (dir_entry s d (PD_INDEX va))), (page_size (dir_entry s d (PD_INDEX va))),
      (user (dir_entry s d (PD_INDEX va))), (flag 2 flags); done.
  - intros va' Hva' Hn. rewrite Helse by done. by apply (rt_translate _ _ _ _ _ Hr).
  - intros d' Hwf' Hap. by apply (mapped_apart s s1 d d' va flags).
  - done.
  - rewrite Hde2 by apply PD_INDEX_range. intros p j Hp Hj Hne' Hpt. simpl. rewrite (proj2 (Z.eqb_neq _ _)).
    + by apply (rt_live _ _ _ _ _ Hr).
    + intros E. destruct (live_slot_inj s1 p (ptbl_of_pde (dir_entry s1 d (PD_INDEX va))) j (PT_INDEX va));
        [by apply (rt_grow _ _ _ _ _ Hr)| |done|apply PT_INDEX_range|done|done].
      right. apply (dir_table _ _ (rt_wf _ _ _ _ _ Hr)); [apply PD_INDEX_range|apply (rt_table _ _ _ _ _ Hr)].
  - apply (rt_grow _ _ _ _ _ Hr).
  - unfold has_table. rewrite Hde2 by apply PD_INDEX_range. apply (rt_table _ _ _ _ _ Hr).
  - rewrite Hde2 by apply PD_INDEX_range.
    destruct (rt_fresh _ _ _ _ _ Hr) as [[Hht ->]|Hfr]; [by left|right].
    destruct Hfr as (? & k & ? & ? & ? & ? & ?). split; [done|]. exists k.
    rewrite Hde2 by apply PD_INDEX_range. done.
Qed.

(** What holds of the tables under the lock holds after its release. *)
Lemma ready_unlock l s s1 d i flags :
  pool_ok s → ready_table (locked_pg l s) s1 d i flags →
  ready_table s (set_g_locks (g_locks s) s1) d i flags.
Proof.
  intros Hok [H1 H2 H3 H4 H5 H6 H7 H8 (R1 & R2 & R3 & R4 & R5 & R6)]. constructor; try done.
  - destruct Hok as (_ & l' & Hl' & Hf'). split; [apply H1|]. exists l'. simpl. by rewrite R2.
  - by apply dir_wf_locks.
  - destruct H8 as [[Ht ->]|Hn]; [left|right; exact Hn]. split; [done|]. by destruct s.
Qed.

(** [arch_map_4kb] on a well-formed directory: the page is mapped, or the pool
    is exhausted and nothing changed. *)
Lemma arch_map_4kb_run s d va pa flags :
  pg_ok s → dir_wf s d → is_u32 va → is_u32 pa →
  (arch_map_4kb d va pa flags s = Ret E_NOMEM s ∧ ∀ k, 0 <= k < 2048 → slot_used s k = true) ∨
  ∃ s', arch_map_4kb d va pa flags s = Ret 0 s' ∧ mapped s s' d va pa flags.
Proof.
  intros [Hpool (l & Hl & Hf & Hne)] Hwf Hva Hpa. unfold arch_map_4kb.
  pose proof (PD_INDEX_range va) as H1. pose proof (PT_INDEX_range va) as H2.
  rewrite (proj2 (Z.leb_gt 1024 (PD_INDEX va))), (proj2 (Z.leb_gt 1024 (PT_INDEX va))) by lia. cbn [orb].
  rewrite (proj2 (Z.eqb_neq d 0)) by (pose proof (dir_aligned s d (dir_page _ _ Hwf)); lia).
  rewrite (bind_Ret _ _ s s s) by done. rewrite Hl.
  destruct (map_4kb_locked_ok (locked_pg l s) d va pa flags) as [[E Hall]|(s1 & Hr & E)];
    [by apply locked_pool_ok|by apply dir_wf_locks|done|left|right].
  - split; [|exact Hall]. etrans; [eapply (with_lock l s); [exact Hf|exact E|done]|]. by destruct s.
  - destruct (rt_regs _ _ _ _ _ Hr) as (R1 & R2 & R3 & R4 & R5 & R6).
    eexists. split; [eapply (with_lock l s); [exact Hf|exact E|]; exact R6|].
    apply (ready_mapped s (set_g_locks (g_locks s) s1)); [by split; [|exists l]| |done..].
    by apply (ready_unlock l).
Qed.

(** ** Unmapping *)

(** Above the identity band the entry is cleared; a page that is not mapped
    stays so. *)
Lemma arch_unmap_4kb_run s d va :
  pg_ok s → dir_wf s d → is_u32 va → USER_HEAP_BASE <= va →
  (present (dir_entry s d (PD_INDEX va)) = true → page_size (dir_entry s d (PD_INDEX va)) = false) →
  ∃ s', arch_unmap_4kb d va s = Ret tt s' ∧ pg_ok s' ∧ dir_wf s' d ∧ translate s' d va = None ∧
    (∀ va', is_u32 va' → va' / 4096 ≠ va / 4096 → translate s' d va' = translate s d va') ∧
    (∀ d', dir_wf s d' → apart s d d' va → dir_wf s' d' ∧ ∀ va', translate s' d' va' = translate s d' va') ∧
    (∀ j, 0 <= j < 1024 → dir_entry s' d j = dir_entry s d j) ∧
    (∀ p j, live s p → 0 <= j < 1024 →
       (has_table s d (PD_INDEX va) → p ≠ ptbl_of_pde (dir_entry s d (PD_INDEX va))) →
       g_mem s' (slot p j) = g_mem s (slot p j)) ∧
    paging_pool_used s' = paging_pool_used s ∧ same_regs s s'.
Proof.
  intros Hpg Hwf Hva Hb Hns. pose proof Hpg as [Hpool (l & Hl & Hf & Hne)]. unfold arch_unmap_4kb.
  pose proof (PD_INDEX_range va) as H1. pose proof (PT_INDEX_range va) as H2.
  rewrite (proj2 (Z.leb_gt 1024 (PD_INDEX va))), (proj2 (Z.leb_gt 1024 (PT_INDEX va))) by lia. cbn [orb].
  rewrite (proj2 (Z.eqb_neq d 0)) by (pose proof (dir_aligned s d (dir_page _ _ Hwf)); lia).
  rewrite (bind_Ret _ _ s s s) by done. rewrite Hl.
  set (e := dir_entry s d (PD_INDEX va)).
  assert (Hbody : unmap_4kb_locked d va (locked_pg l s) =
    Ret tt (if present e && present (g_mem s (slot (ptbl_of_pde e) (PT_INDEX va)))
            then set_pte (ptbl_of_pde e) (PT_INDEX va) entry0 (locked_pg l s) else locked_pg l s)).
  { unfold unmap_4kb_locked. rewrite read_bind. change (g_mem (locked_pg l s) (slot d (PD_INDEX va))) with e.
    destruct (present e); cbn [negb andb]; [|done]. rewrite read_bind.
    change (g_mem (locked_pg l s)) with (g_mem s).
    destruct (present (g_mem s (slot (ptbl_of_pde e) (PT_INDEX va)))); cbn [negb]; [|done].
    by rewrite (proj2 (Z.ltb_ge va USER_HEAP_BASE)) by lia. }
  eexists. split.
  { eapply (with_lock_tt l s); [exact Hf|exact Hbody|]. by destruct (_ && _). }
  destruct (present e) eqn:Hp; cbn [andb].
  2: { replace (set_part (part s) (locked_pg l s)) with s by (by destruct s). split_and!; try done.
       unfold translate. fold (dir_entry s d (PD_INDEX va)). fold e. by rewrite Hp. }
  assert (Ht : has_table s d (PD_INDEX va)) by (split; [done|by apply Hns]).
  destruct (present (g_mem s (slot (ptbl_of_pde e) (PT_INDEX va)))) eqn:Hpt.
  2: { replace (set_part (part s) (locked_pg l s)) with s by (by destruct s). split_and!; try done.
       rewrite translate_table by done. cbv zeta. fold e. by rewrite Hpt. }
  replace (set_part (part s) (set_pte (ptbl_of_pde e) (PT_INDEX va) entry0 (locked_pg l s)))
    with (set_pte (ptbl_of_pde e) (PT_INDEX va) entry0 s) by (by destruct s).
  destruct (set_pte_ok s d _ va entry0 Hpool Hwf eq_refl Ht) as (Hp2 & Hwf2 & Hde & Hhere & Helse).
  fold e in Hp2, Hwf2, Hde, Hhere, Helse. split_and!; try done.
  - by destruct Hhere as [[_ ?]|[? _]].
  - intros va' Hva' Hn. by apply Helse.
  - intros d' Hwf' (Hdd & _ & Htab). destruct (Htab Ht) as [Hnt Htd].
    assert (live s (ptbl_of_pde e)) by (right; by apply (dir_table _ _ Hwf)).
    split; [by apply dir_wf_set_pte_other; [..|apply not_eq_sym]|].
    apply set_pte_other; [done|done|done|by apply not_eq_sym|done].
  - intros p j Hpl Hj Hpt'. simpl. rewrite (proj2 (Z.eqb_neq _ _)); [done|]. intros E.
    destruct (live_slot_inj s p (ptbl_of_pde e) j (PT_INDEX va) Hpl) as [? _];
      [right; by apply (dir_table _ _ Hwf)|done|done|done|]. by apply Hpt'.
Qed.

(** ** Cloning the master directory *)

Lemma clone_loop_run n i d k s :
  0 <= i → i + Z.of_nat n <= 1024 → d mod 4096 = 0 → k mod 4096 = 0 → d ≠ k →
  ∃ m, clone_loop n i d k s = Ret tt (set_mem m s) ∧
    (∀ j, i <= j < i + Z.of_nat n → m (slot d j) = g_mem s (slot k j)) ∧
    (∀ a, (∀ j, i <= j < i + Z.of_nat n → a ≠ slot d j) → m a = g_mem s a).
Proof.
  revert i s. induction n as [|n IH]; intros i s Hi Hn Hd Hk Hne.
  - exists (g_mem s). split_and!; [by destruct s|lia|done].
  - cbn [clone_loop]. rewrite read_bind, write_bind.
    destruct (IH (i + 1) (set_mem (λ a, if a =? slot d i then g_mem s (slot k i) else g_mem s a) s))
      as (m & E & Hm & Ho); [lia|lia|done..|].
    exists m. split_and!; [exact E|..].
    + intros j Hj. destruct (decide (j = i)) as [->|].
      * rewrite Ho; [simpl; by rewrite Z.eqb_refl|]. intros j' Hj'. unfold slot. lia.
      * rewrite Hm by lia. simpl. rewrite (proj2 (Z.eqb_neq _ _)); [done|].
        intros E'. destruct (slot_inj k d j i) as [? _]; [done|done|lia|lia|done|congruence].
    + intros a Ha. rewrite Ho; [|intros j Hj; apply Ha; lia]. simpl.
      rewrite (proj2 (Z.eqb_neq _ _)); [done|]. apply Ha. lia.
Qed.

(** A fresh page of the pool becomes a directory that translates every address
    like the master. *)
Lemma arch_clone_run s d :
  dir_wf s (kernel_pdir_phys s) → table_page s d → d ≠ kernel_pdir_phys s →
  no_table_is s (kernel_pdir_phys s) d →
  ∃ s', arch_clone_kernel_pde d s = Ret d s' ∧ dir_wf s' d ∧ dir_wf s' (kernel_pdir_phys s) ∧
    (∀ j, 0 <= j < 1024 → dir_entry s' d j = dir_entry s (kernel_pdir_phys s) j) ∧
    (∀ p j, live s p → p ≠ d → 0 <= j < 1024 → g_mem s' (slot p j) = g_mem s (slot p j)) ∧
    (∀ va, translate s' d va = translate s (kernel_pdir_phys s) va) ∧
    paging_pool_used s' = paging_pool_used s ∧ same_regs s s'.
Proof.
  intros Hwf Hd Hne Hno. set (k := kernel_pdir_phys s) in *.
  destruct (dir_aligned s d (or_intror Hd)) as [Hda Hd0]. destruct (dir_aligned s k (dir_page _ _ Hwf)) as [Hka _].
  unfold arch_clone_kernel_pde. rewrite (proj2 (Z.eqb_neq d 0)) by lia.
  rewrite (bind_Ret _ _ s s s) by done. fold k.
  destruct (clone_loop_run 1024 0 d k s ltac:(lia) ltac:(lia) Hda Hka Hne) as (m & E & Hm & Ho).
  rewrite (bind_Ret _ _ _ _ _ E). exists (set_mem m s). split; [reflexivity|]. clear E.
  assert (Hlive : ∀ p j, live s p → p ≠ d → 0 <= j < 1024 → m (slot p j) = g_mem s (slot p j)).
  { intros p j Hp Hpd Hj. apply Ho. intros j' Hj' E'.
    destruct (live_slot_inj s p d j j' Hp (or_intror Hd) Hj ltac:(lia) E'). done. }
  assert (Hdd : ∀ j, 0 <= j < 1024 → dir_entry (set_mem m s) d j = dir_entry s k j).
  { intros j Hj. apply Hm. lia. }
  assert (Hkk : ∀ j, 0 <= j < 1024 → dir_entry (set_mem m s) k j = dir_entry s k j).
  { intros j Hj. apply Hlive; [apply (dir_page _ _ Hwf)|by apply not_eq_sym|done]. }
  split_and!.
  - constructor.
    + by right.
    + intros j Hj Ht. unfold has_table in Ht. rewrite Hdd in Ht |- * by done.
      destruct (dir_table _ _ Hwf j Hj Ht) as (? & ? & _). split_and!; [done|done|]. by apply Hno.
    + intros j Hj. rewrite Hdd by done. by apply (dir_large _ _ Hwf).
    + intros j1 j2 Hj1 Hj2 Hn H1 H2. unfold has_table in H1, H2.
      rewrite (Hdd j1), (Hdd j2) in * by done. by apply (dir_distinct _ _ Hwf).
  - constructor.
    + apply (dir_page _ _ Hwf).
    + intros j Hj Ht. unfold has_table in Ht. rewrite Hkk in Ht |- * by done. by apply (dir_table _ _ Hwf).
    + intros j Hj. rewrite Hkk by done. by apply (dir_large _ _ Hwf).
    + intros j1 j2 Hj1 Hj2 Hn H1 H2. unfold has_table in H1, H2.
      rewrite (Hkk j1), (Hkk j2) in * by done. by apply (dir_distinct _ _ Hwf).
  - done.
  - done.
  - intros va. pose proof (PD_INDEX_range va) as Hi. unfold translate.
    fold (dir_entry (set_mem m s) d (PD_INDEX va)) (dir_entry s k (PD_INDEX va)). rewrite Hdd by done.
    destruct (present (dir_entry s k (PD_INDEX va))) eqn:E1; cbn [negb]; [|done].
    destruct (page_size (dir_entry s k (PD_INDEX va))) eqn:E2; [done|].
    assert (Ht : has_table s k (PD_INDEX va)) by done.
    cbn [g_mem set_mem]. rewrite Hlive; [done| |by apply Hno|apply PT_INDEX_range].
    right. by apply (dir_table _ _ Hwf).
  - done.
  - done.
Qed.

End paging.
