(* ===== verification/PageSpaces.v ===== *)
(** * Address spaces over the page tables (arch/i386/paging.c)

    The life of a process's page directory: a page of the pool, cloned from
    the master directory, filled by [arch_map_4kb], emptied by
    [arch_destroy_address_space] and given back.  [child s0 s d] relates the
    state [s] with the directory [d] to the state [s0] before it was made:
    its entries are the master's or lead to tables of its own, and the pool
    lost exactly the directory and those tables. *)

From S2P Require Import Prelude Spinlock Pmm Paging.
From stdpp Require Import base tactics list.
From Stdlib Require Import ZArith Lia.

Open Scope Z_scope.

Section spaces.
Context {LY : Layout}.

(** The master directory maps nothing between the user heap and the top of
    user space. *)
Definition master_ok (s : pg) : Prop :=
  dir_wf s (kernel_pdir_phys s) ∧
  ∀ j, 772 <= j < 960 → dir_entry s (kernel_pdir_phys s) j = entry0.

(** Entry [j] of [d] leads to a table that was not there in [s0]. *)
Definition own (s0 s : pg) (d j : Z) : Prop :=
  772 <= j < 960 ∧ has_table s d j ∧ ¬ live s0 (ptbl_of_pde (dir_entry s d j)).

Record child (s0 s : pg) (d : Z) : Prop := {
  ch_pg : pg_ok s;
  ch_master0 : master_ok s0;
  ch_pdir : kernel_pdir_phys s = kernel_pdir_phys s0;
  ch_kwf : dir_wf s (kernel_pdir_phys s0);
  ch_wf : dir_wf s d;
  ch_page : table_page s d;
  ch_new : ¬ live s0 d;
  ch_master : ∀ j, 0 <= j < 1024 →
    dir_entry s (kernel_pdir_phys s0) j = dir_entry s0 (kernel_pdir_phys s0) j;
  ch_entry : ∀ j, 0 <= j < 1024 →
    dir_entry s d j = dir_entry s0 (kernel_pdir_phys s0) j ∨ own s0 s d j;
  ch_used : ∀ i, 0 <= i < 2048 →
    slot_used s i = true ↔
    slot_used s0 i = true ∨ pool_page i = d ∨
    ∃ j, own s0 s d j ∧ ptbl_of_pde (dir_entry s d j) = pool_page i;
}.

Lemma child_live s0 s d p : child s0 s d → live s0 p → live s p.
Proof.
  intros Hc [->|(i & Hi & -> & Hu)]; [by left|right]. exists i. split_and!; [lia|lia|done|].
  apply (ch_used _ _ _ Hc); auto.
Qed.

Lemma child_kernel_live s0 s d : child s0 s d → live s0 (kernel_pdir_phys s0).
Proof. intros Hc. destruct (ch_master0 _ _ _ Hc) as [Hwf _]. apply (dir_page _ _ Hwf). Qed.

Lemma child_ne s0 s d : child s0 s d → d ≠ kernel_pdir_phys s0.
Proof. intros Hc ->. apply (ch_new _ _ _ Hc). by eapply child_kernel_live. Qed.

(** A table of the child is the master's (at the same index) or its own. *)
Lemma child_table s0 s d j :
  child s0 s d → 0 <= j < 1024 → has_table s d j →
  (has_table s0 (kernel_pdir_phys s0) j ∧ live s0 (ptbl_of_pde (dir_entry s d j))
     ∧ ptbl_of_pde (dir_entry s d j) ≠ kernel_pdir_phys s0) ∨ own s0 s d j.
Proof.
  intros Hc Hj Ht. destruct (ch_entry _ _ _ Hc j Hj) as [E|]; [left|by right].
  unfold has_table in *. rewrite E in *. destruct (ch_master0 _ _ _ Hc) as [Hwf _].
  destruct (dir_table _ _ Hwf j Hj Ht) as (_ & Htp & Hne). split_and!; try done; [apply Ht|apply Ht|by right].
Qed.

(** The master's tables are neither the child's directory nor its own tables. *)
Lemma child_master_table s0 s d p : child s0 s d → ¬ live s0 p → no_table_is s (kernel_pdir_phys s0) p.
Proof.
  intros Hc Hp j Hj Ht E. apply Hp. rewrite <- E. unfold has_table in Ht.
  rewrite (ch_master _ _ _ Hc) in * by done. destruct (ch_master0 _ _ _ Hc) as [Hwf _].
  right. by apply (dir_table _ _ Hwf j Hj).
Qed.

(** ** Making a directory: [vmm_create] allocates the page and clones *)

Definition create_space : M pg Z :=
  pa ← arch_paging_pool_alloc;
  if pa =? 0 then mret 0 else arch_clone_kernel_pde pa.

Lemma taken_pg_ok i s : pg_ok s → pg_ok (taken_slot i s).
Proof.
  intros [(Hlen & l & Hl & Hf) (l' & Hl' & Hf' & Hne)]. split; [|by exists l'].
  split; [|by exists l]. simpl. by rewrite length_insert.
Qed.

(** Taking a slot leaves the other directories as they were. *)
Lemma taken_dir_wf i s d :
  pool_ok s → 0 <= i < 2048 → slot_used s i = false → dir_wf s d →
  dir_wf (taken_slot i s) d ∧ (∀ j, 0 <= j < 1024 → dir_entry (taken_slot i s) d j = dir_entry s d j).
Proof.
  intros [Hlen _] Hi Hu Hwf.
  assert (Hde : ∀ j, 0 <= j < 1024 → dir_entry (taken_slot i s) d j = dir_entry s d j).
  { intros j Hj. apply taken_live; [apply (dir_page _ _ Hwf)|done..]. }
  assert (Htp : ∀ p, table_page s p → table_page (taken_slot i s) p).
  { intros p (x & Hx & -> & Hux). exists x. split_and!; [lia|lia|done|].
    change (slot_used (pool_mark i s) x = true). rewrite mark_used by done. by rewrite Hux. }
  split; [|done]. constructor.
  - destruct (dir_page _ _ Hwf); [by left|right; auto].
  - intros j Hj Ht. unfold has_table in Ht. rewrite Hde in * by done.
    destruct (dir_table _ _ Hwf j Hj Ht) as (? & ? & ?). auto.
  - intros j Hj. rewrite Hde by done. by apply (dir_large _ _ Hwf).
  - intros j1 j2 Hj1 Hj2 Hn H1 H2. unfold has_table in H1, H2.
    rewrite (Hde j1), (Hde j2) in * by done. by apply (dir_distinct _ _ Hwf).
Qed.

Lemma create_space_ok s :
  pg_ok s → master_ok s →
  (create_space s = Ret 0 s ∧ ∀ i, 0 <= i < 2048 → slot_used s i = true) ∨
  ∃ d s', create_space s = Ret d s' ∧ d ≠ 0 ∧ child s s' d ∧
    (∀ va, translate s' d va = translate s (kernel_pdir_phys s) va) ∧
    (∀ va, translate s' (kernel_pdir_phys s) va = translate s (kernel_pdir_phys s) va).
Proof.
  intros Hpg Hm. pose proof Hpg as [Hpool _]. pose proof Hm as [Hkwf Hhigh]. unfold create_space.
  destruct (pool_alloc_run s Hpool) as [(i & Hi & Hu & _ & E)|[Hall E]];
    rewrite (bind_Ret _ _ _ _ _ E); [right|by left].
  destruct (pool_page_facts i Hi) as (_ & _ & Hi0 & _). rewrite (proj2 (Z.eqb_neq (pool_page i) 0)) by lia.
  set (k := kernel_pdir_phys s) in *. set (d := pool_page i).
  destruct (taken_dir_wf i s k Hpool Hi Hu Hkwf) as [Hkwf1 Hke].
  assert (Hnl : ¬ live s d).
  { intros Hl. apply (live_outside s d i 0 Hl Hi Hu ltac:(lia)). unfold slot, d. lia. }
  assert (Hused : ∀ j, 0 <= j < 2048 → slot_used (taken_slot i s) j = slot_used s j || bool_decide (j = i)).
  { intros j Hj. apply mark_used; [apply Hpool|done|done]. }
  assert (Hd1 : table_page (taken_slot i s) d).
  { exists i. split_and!; [lia|lia|done|]. rewrite Hused by done.
    rewrite (bool_decide_eq_true_2 (i = i)) by done. apply orb_true_r. }
  assert (Hkd : d ≠ k) by (intros E'; apply Hnl; rewrite E'; apply (dir_page _ _ Hkwf)).
  assert (Hno : no_table_is (taken_slot i s) k d).
  { intros j Hj Ht E'. unfold has_table in Ht. rewrite Hke in * by done. apply Hnl. rewrite <- E'.
    right. by apply (dir_table _ _ Hkwf j Hj). }
  destruct (arch_clone_run (taken_slot i s) d) as (s' & E' & Hwf & Hkwf' & Hde & Hlv & Htr & Hus & Hrg);
    [exact Hkwf1|exact Hd1|exact Hkd|exact Hno|].
  change (kernel_pdir_phys (taken_slot i s)) with k in *.
  exists d, s'. split; [exact E'|]. split; [unfold d; lia|].
  assert (Hpg1 : pg_ok s').
  { destruct (taken_pg_ok i s Hpg) as [(Hlen & l & Hl & Hf) (l' & Hl' & Hf' & Hne)].
    destruct Hrg as (R1 & R2 & _ & _ & _ & R6). split; [split; [by rewrite Hus|]; exists l|exists l'];
      rewrite ?R1, ?R2, ?R6; done. }
  assert (Hsu : ∀ j, slot_used s' j = slot_used (taken_slot i s) j).
  { intros j. unfold slot_used, pool_word. by rewrite Hus. }
  split.
  - constructor; try done.
    + by destruct Hrg as (_ & _ & -> & _).
    + destruct Hd1 as (x & Hx & Ex & Hux). exists x. by rewrite Hsu.
    + intros j Hj. etrans; [|by apply Hke]. apply Hlv; [apply (dir_page _ _ Hkwf1)|by apply not_eq_sym|done].
    + intros j Hj. left. rewrite Hde by done. by apply Hke.
    + intros j Hj. rewrite Hsu, Hused by done. fold k. split.
      * intros [?|?%bool_decide_eq_true]%orb_true_iff; [by left|right; left]. unfold d. congruence.
      * intros [->|[E2|(x & (Hx & Ht & Hl) & _)]]; [done|..].
        -- apply orb_true_iff. right. apply bool_decide_eq_true. by apply pool_page_inj.
        -- exfalso. unfold has_table in Ht. rewrite Hde, Hke, Hhigh in Ht by lia. by destruct Ht.
  - assert (Hk0 : ∀ va, translate (taken_slot i s) k va = translate s k va).
    { intros va. apply translate_ext; [by apply Hke, PD_INDEX_range|].
      intros Ht. apply taken_live; [|done|done|apply PT_INDEX_range].
      right. apply (dir_table _ _ Hkwf); [apply PD_INDEX_range|done]. }
    split; intros va; [by rewrite Htr|]. rewrite <- Hk0. apply translate_ext.
    + apply Hlv; [apply (dir_page _ _ Hkwf1)|by apply not_eq_sym|apply PD_INDEX_range].
    + intros Ht. apply Hlv; [right; apply (dir_table _ _ Hkwf1); [apply PD_INDEX_range|done]| |apply PT_INDEX_range].
      apply Hno; [apply PD_INDEX_range|done].
Qed.

(** ** Mapping user pages *)

Lemma user_index va : USER_HEAP_END <= va < USER_SPACE_TOP → is_u32 va ∧ 772 <= PD_INDEX va < 960.
Proof.
  unfold USER_HEAP_END, USER_SPACE_TOP. intros H. assert (is_u32 va) as Hva by (unfold is_u32; lia).
  split; [done|]. rewrite PD_INDEX_div by done. split.
  - apply Z.div_le_lower_bound; lia.
  - apply Z.div_lt_upper_bound; lia.
Qed.

(** Mapping in the child is invisible to the master. *)
Lemma child_apart s0 s d va :
  child s0 s d → 772 <= PD_INDEX va < 960 → apart s d (kernel_pdir_phys s0) va.
Proof.
  intros Hc Hi. split_and!.
  - by apply not_eq_sym, (child_ne s0 s).
  - eapply child_master_table; [done|apply (ch_new _ _ _ Hc)].
  - intros Ht. destruct (child_table s0 s d (PD_INDEX va) Hc ltac:(lia) Ht) as [(Hk & _)|(_ & _ & Hn)].
    + destruct (ch_master0 _ _ _ Hc) as [_ Hhigh]. unfold has_table in Hk. rewrite Hhigh in Hk by lia. by destruct Hk.
    + split; [by eapply child_master_table|]. intros E. apply Hn. rewrite <- E. by eapply child_kernel_live.
Qed.

Lemma child_mapped s0 s s' d va pa flags :
  child s0 s d → 772 <= PD_INDEX va < 960 → mapped s s' d va pa flags → child s0 s' d.
Proof.
  intros Hc Hi Hm. set (i := PD_INDEX va) in *. set (k := kernel_pdir_phys s0).
  destruct (mp_apart _ _ _ _ _ _ Hm k (ch_kwf _ _ _ Hc) (child_apart _ _ _ _ Hc Hi)) as [Hkwf _].
  assert (Htd : ptbl_of_pde (dir_entry s' d i) ≠ d).
  { apply (dir_table _ _ (mp_wf _ _ _ _ _ _ Hm) i ltac:(lia) (mp_table _ _ _ _ _ _ Hm)). }
  assert (Hfresh : fresh_table s s' d i → ¬ live s0 (ptbl_of_pde (dir_entry s' d i))).
  { intros Hf%fresh_not_live Hl. by apply Hf, (child_live s0 s d). }
  assert (Hown' : own s0 s' d i).
  { split; [lia|]. split; [apply (mp_table _ _ _ _ _ _ Hm)|].
    destruct (mp_fresh _ _ _ _ _ _ Hm) as [(Ht & _ & Ee)|Hf]; [|by apply Hfresh].
    fold i in Ht, Ee. rewrite Ee. destruct (child_table s0 s d i Hc ltac:(lia) Ht) as [(Hk & _)|(_ & _ & Hn)]; [|done].
    destruct (ch_master0 _ _ _ Hc) as [_ Hhigh]. unfold has_table in Hk. rewrite Hhigh in Hk by lia. by destruct Hk. }
  assert (Hde : ∀ j, 0 <= j < 1024 → j ≠ i → dir_entry s' d j = dir_entry s d j).
  { intros j Hj Hne. apply (mp_entries _ _ _ _ _ _ Hm); [apply (dir_page _ _ (ch_wf _ _ _ Hc))|done|by right|].
    by apply not_eq_sym. }
  assert (Hown : ∀ j, j ≠ i → own s0 s' d j ↔ own s0 s d j).
  { intros j Hne. unfold own, has_table.
    split; intros (Hj & Ht & Hn); pose proof (Hde j ltac:(lia) Hne) as E; [rewrite E in Ht, Hn|rewrite E]; done. }
  assert (Hki : k ≠ ptbl_of_pde (dir_entry s' d i)).
  { intros E. apply (proj2 (proj2 Hown')). rewrite <- E. by eapply child_kernel_live. }
  constructor; try done.
  - apply (mp_ok _ _ _ _ _ _ Hm).
  - apply (ch_master0 _ _ _ Hc).
  - destruct (mp_regs _ _ _ _ _ _ Hm) as (_ & _ & -> & _). apply (ch_pdir _ _ _ Hc).
  - apply (mp_wf _ _ _ _ _ _ Hm).
  - destruct (mp_grow _ _ _ _ _ _ Hm d (dir_page _ _ (ch_wf _ _ _ Hc))) as [E|]; [|done].
    destruct (ch_page _ _ _ Hc) as (x & Hx & Ex & _). destruct (pool_page_facts x Hx) as (_ & _ & _ & Hx'). congruence.
  - apply (ch_new _ _ _ Hc).
  - intros j Hj. rewrite <- (ch_master _ _ _ Hc j Hj). fold k.
    apply (mp_entries _ _ _ _ _ _ Hm); [apply (dir_page _ _ (ch_kwf _ _ _ Hc))|done| |done].
    left. by apply not_eq_sym, (child_ne s0 s).
  - intros j Hj. destruct (decide (j = i)) as [->|Hne]; [by right|].
    rewrite Hde, Hown by done. by apply (ch_entry _ _ _ Hc).
  - intros x Hx. destruct (mp_fresh _ _ _ _ _ _ Hm) as [(Ht & Eu & Ee)|(Hno & y & Hy & Hyu & _ & Ey & Hall)].
    + assert (slot_used s' x = slot_used s x) as -> by (unfold slot_used, pool_word; by rewrite Eu).
      rewrite (ch_used _ _ _ Hc x Hx). fold i in Ee.
      assert (own s0 s d i) as Hoi.
      { unfold own, has_table in Hown' |- *. by rewrite Ee in Hown'. }
      split; (intros [?|[?|(j & Hj & Ej)]]; [by left|by right; left|right; right; exists j]);
        (destruct (decide (j = i)) as [->|Hne]; [by rewrite Ee in *|]);
        pose proof (Hde j ltac:(destruct Hj; lia) Hne) as E; (split; [by apply Hown|congruence]).
    + rewrite Hall by done. fold i in Hno, Ey. split.
      * intros [Hux|Hxy%bool_decide_eq_true]%orb_true_iff.
        -- apply (ch_used _ _ _ Hc x Hx) in Hux as [?|[?|(j & Hj & Ej)]]; [by left|by right; left|right; right].
           assert (j ≠ i) as Hne by (intros ->; destruct Hj as (_ & ? & _); done).
           exists j. rewrite Hde by (destruct Hj; lia). split; [by apply Hown|done].
        -- subst x. right. right. by exists i.
      * intros [?|[?|(j & Hj & Ej)]]; apply orb_true_iff.
        -- left. apply (ch_used _ _ _ Hc x Hx). by left.
        -- left. apply (ch_used _ _ _ Hc x Hx). right. by left.
        -- destruct (decide (j = i)) as [->|Hne].
           ++ right. apply bool_decide_eq_true. rewrite Ey in Ej. by apply pool_page_inj.
           ++ left. apply (ch_used _ _ _ Hc x Hx). right. right. exists j.
              rewrite Hde in Ej by (destruct Hj; lia). split; [by apply Hown|done].
Qed.

(** A list of requests, in order, until one fails. *)
Fixpoint map_pages (d : Z) (reqs : list (Z * Z * Z)) : M pg Z :=
  match reqs with
  | [] => mret 0
  | (va, pa, flags) :: reqs =>
      r ← arch_map_4kb d va pa flags;
      if negb (r =? 0) then mret r else map_pages d reqs
  end.

Definition user_request (r : Z * Z * Z) : Prop :=
  let '(va, pa, _) := r in USER_HEAP_END <= va < USER_SPACE_TOP ∧ is_u32 pa.

Lemma map_pages_ok s0 s d reqs :
  child s0 s d → Forall user_request reqs →
  ∃ r s', map_pages d reqs s = Ret r s' ∧ child s0 s' d ∧ same_regs s s' ∧
    ∀ va, translate s' (kernel_pdir_phys s0) va = translate s (kernel_pdir_phys s0) va.
Proof.
  intros Hc Hr. revert s Hc. induction Hr as [|[[va pa] flags] reqs [Hva Hpa] _ IH]; intros s Hc.
  - exists 0, s. by split_and!.
  - cbn [map_pages]. destruct (user_index va Hva) as [Hva' Hi].
    destruct (arch_map_4kb_run s d va pa flags (ch_pg _ _ _ Hc) (ch_wf _ _ _ Hc) Hva' Hpa)
      as [[E _]|(s1 & E & Hm)]; rewrite (bind_Ret _ _ _ _ _ E).
    + exists E_NOMEM, s. by split_and!.
    + destruct (IH s1 (child_mapped _ _ _ _ _ _ _ Hc Hi Hm)) as (r & s' & E' & Hc' & Hrg & Htr).
      exists r, s'. cbn [negb Z.eqb]. split_and!; try done.
      * destruct (mp_regs _ _ _ _ _ _ Hm) as (?&?&?&?&?&?), Hrg as (?&?&?&?&?&?).
        unfold same_regs. split_and!; congruence.
      * intros va2. rewrite Htr.
        by apply (mp_apart _ _ _ _ _ _ Hm _ (ch_kwf _ _ _ Hc) (child_apart _ _ _ _ Hc Hi)).
Qed.

(** ** Destroying a directory *)

(** After the loop of [arch_destroy_address_space] passed the entries below
    [i]: the tables of the entries in [P] found so far are back in the pool. *)
Record torn (P : Z → Prop) (s : pg) (d i : Z) (t : pg) : Prop := {
  to_pg : pg_ok t;
  to_regs : same_regs s t;
  to_mem : ∀ a, (∀ j, 0 <= j < i → a ≠ slot d j) → g_mem t a = g_mem s a;
  to_used : ∀ x, 0 <= x < 2048 →
    slot_used t x = true ↔ slot_used s x = true ∧
    ¬ ∃ j, 0 <= j < i ∧ P j ∧ ptbl_of_pde (dir_entry s d j) = pool_page x;
}.

Lemma torn_start P s d : pg_ok s → torn P s d 0 s.
Proof.
  intros H. constructor; [done|done|done|]. intros x Hx. split; [|tauto].
  intros Hu. split; [done|]. intros (j & Hj & _). lia.
Qed.

Lemma torn_skip P s d i t : torn P s d i t → ¬ P i → torn P s d (i + 1) t.
Proof.
  intros [H1 H2 H3 H4] Hn. constructor; try done.
  - intros a Ha. apply H3. intros j Hj. apply Ha. lia.
  - intros x Hx. rewrite (H4 x Hx). split; intros [Hu Hno]; (split; [done|]); intros (j & Hj & Ho & E).
    + destruct (decide (j = i)) as [->|]; [done|]. apply Hno. exists j. split_and!; (done || lia).
    + apply Hno. exists j. split_and!; (done || lia).
Qed.

Lemma torn_free P s d i t x :
  torn P s d i t → 0 <= i → P i → 0 <= x < 2048 → ptbl_of_pde (dir_entry s d i) = pool_page x →
  torn P s d (i + 1) (set_pte d i entry0 (pool_unmark x t)).
Proof.
  intros Ht Hi Ho Hx E. pose proof Ht as [[[Hlen Hl] Hl'] H2 H3 H4]. constructor.
  - split; [split; [simpl; by rewrite length_insert|exact Hl]|exact Hl'].
  - exact H2.
  - intros a Ha. cbn [set_pte set_mem g_mem pool_unmark set_used].
    rewrite (proj2 (Z.eqb_neq _ _)) by (apply Ha; lia). apply H3. intros j Hj. apply Ha. lia.
  - intros y Hy. change (slot_used (set_pte d i entry0 (pool_unmark x t)) y) with (slot_used (pool_unmark x t) y).
    rewrite unmark_used, andb_true_iff, (H4 y Hy), negb_true_iff, bool_decide_eq_false by done. split.
    + intros [[Hu Hno] Hne]. split; [done|]. intros (j & Hj & Hoj & Ej).
      destruct (decide (j = i)) as [->|].
      * apply Hne. apply pool_page_inj. congruence.
      * apply Hno. exists j. split_and!; (done || lia).
    + intros [Hu Hno]. split; [split; [done|]|].
      * intros (j & Hj & Hoj & Ej). apply Hno. exists j. split_and!; (done || lia).
      * intros ->. apply Hno. exists i. split_and!; (done || lia).
Qed.

(** The test of the loop on entry [i] decides [P], whose tables lie in the
    pool. *)
Definition finds (P : Z → Prop) (s : pg) (d k : Z) : Prop := ∀ i, 0 <= i < 960 →
  (P i ∧ present (dir_entry s d i) = true ∧ (paddr (dir_entry s d i) =? paddr (dir_entry s k i)) = false ∧
     ∃ x, 0 <= x < 2048 ∧ ptbl_of_pde (dir_entry s d i) = pool_page x) ∨
  ¬ P i ∧ (present (dir_entry s d i) = false ∨ (paddr (dir_entry s d i) =? paddr (dir_entry s k i)) = true).

Lemma destroy_loop_run P s d k : live s d → live s k → k ≠ d → finds P s d k → ∀ n i t,
  torn P s d i t → 0 <= i → i + Z.of_nat n = 960 → ∃ t', destroy_loop n i d k t = Ret tt t' ∧ torn P s d 960 t'.
Proof.
  intros Hd Hk Hne Hf. induction n as [|n IH]; intros i t Ht Hi Hn.
  { exists t. split; [done|]. by replace 960 with i by lia. }
  cbn [destroy_loop]. rewrite !read_bind.
  assert (Ee : g_mem t (slot d i) = dir_entry s d i).
  { apply (to_mem _ _ _ _ _ Ht). intros j Hj E. unfold slot in E. lia. }
  assert (Ek : g_mem t (slot k i) = dir_entry s k i).
  { apply (to_mem _ _ _ _ _ Ht). intros j Hj E. by destruct (live_slot_inj s _ _ i j Hk Hd ltac:(lia) ltac:(lia) E). }
  rewrite Ee, Ek. destruct (Hf i ltac:(lia)) as [(Ho & -> & -> & x & Hx & Ex)|[Hno Hor]].
  - cbn [negb]. change (u32 (Z.shiftl (paddr (dir_entry s d i)) 12)) with (ptbl_of_pde (dir_entry s d i)). rewrite Ex.
    rewrite (bind_Ret _ _ t tt (set_pte d i entry0 (pool_unmark x t))).
    + apply IH; [by apply (torn_free P s d i t x)|lia|lia].
    + rewrite (bind_Ret _ _ _ _ _ (pool_free_run t x (proj1 (to_pg _ _ _ _ _ Ht)) Hx)). done.
  - rewrite (bind_Ret _ _ t tt t).
    + apply IH; [by apply torn_skip|lia|lia].
    + destruct (present (dir_entry s d i)); [|done]. destruct Hor as [| ->]; done.
Qed.

(** In a child the loop finds exactly the own tables. *)
Lemma child_finds s0 s d : child s0 s d → finds (own s0 s d) s d (kernel_pdir_phys s0).
Proof.
  intros Hc i Hi. rewrite (ch_master _ _ _ Hc) by lia. destruct (ch_master0 _ _ _ Hc) as [Hwf Hhigh].
  destruct (ch_entry _ _ _ Hc i ltac:(lia)) as [E|Ho].
  - right. split; [|right; rewrite E; apply Z.eqb_refl].
    intros (Hr & Ht & Hn). unfold has_table in Ht. rewrite E, Hhigh in Ht by lia. by destruct Ht.
  - left. pose proof Ho as (Hr & Ht & Hn). split; [done|]. split; [apply Ht|].
    destruct (dir_table _ _ (ch_wf _ _ _ Hc) i ltac:(lia) Ht) as (_ & (x & Hx & Ex & _) & _). split; [|by exists x].
    apply Z.eqb_neq. intros E. rewrite Hhigh in E by lia.
    unfold ptbl_of_pde in Ex. rewrite E in Ex. destruct (pool_page_facts x Hx) as (_ & _ & Hx0 & _).
    change (u32 (Z.shiftl (paddr entry0) 12)) with 0 in Ex. lia.
Qed.

Lemma destroy_ok s0 s d :
  child s0 s d →
  ∃ t, (arch_destroy_address_space d;; arch_paging_pool_free d) s = Ret tt t ∧ pg_ok t ∧
    (∀ x, 0 <= x < 2048 → slot_used t x = slot_used s0 x) ∧
    ∀ va, translate t (kernel_pdir_phys s0) va = translate s (kernel_pdir_phys s0) va.
Proof.
  intros Hc. pose proof (ch_page _ _ _ Hc) as (y & Hy & -> & Hyu). destruct (pool_page_facts y Hy) as (_ & _ & Hy0 & _).
  destruct (destroy_loop_run _ s (pool_page y) (kernel_pdir_phys s0) (dir_page _ _ (ch_wf _ _ _ Hc)) (dir_page _ _ (ch_kwf _ _ _ Hc))
    (not_eq_sym (child_ne s0 s _ Hc)) (child_finds _ _ _ Hc) 960 0 s (torn_start _ _ _ (ch_pg _ _ _ Hc)) ltac:(lia) ltac:(lia)) as (t & E & Ht).
  exists (pool_unmark y t). split.
  { rewrite (bind_Ret _ _ s tt t).
    - by apply pool_free_run; [apply (to_pg _ _ _ _ _ Ht)|].
    - unfold arch_destroy_address_space. rewrite (bind_Ret _ _ s s s) by done.
      rewrite (ch_pdir _ _ _ Hc), (proj2 (Z.eqb_neq (pool_page y) 0)) by lia.
      rewrite (proj2 (Z.eqb_neq (pool_page y) _)) by (by apply (child_ne s0 s)). exact E. }
  clear E. destruct (to_pg _ _ _ _ _ Ht) as [[Hlen Hl] Hl'].
  split; [split; [split; [simpl; by rewrite length_insert|exact Hl]|exact Hl']|]. split.
  - intros x Hx. rewrite unmark_used by done. apply eq_bool_prop_intro.
    rewrite !Is_true_true, andb_true_iff, (to_used _ _ _ _ _ Ht x Hx), (ch_used _ _ _ Hc x Hx).
    rewrite negb_true_iff, bool_decide_eq_false. split.
    + intros [[[?|[E|(j & Hj & Ej)]] Hno] Hne]; [done|by destruct Hne; apply pool_page_inj|].
      destruct Hno. exists j. destruct Hj as (? & ? & ?). split_and!; (done || lia).
    + intros Hu. split; [split; [by left|]|].
      * intros (j & Hj & (_ & _ & Hn) & Ej). apply Hn. rewrite Ej. right. by exists x.
      * intros ->. apply (ch_new _ _ _ Hc). right. by exists y.
  - intros va. pose proof (PD_INDEX_range va) as Hi.
    assert (Hlv : ∀ p j, live s p → p ≠ pool_page y → 0 <= j < 1024 → g_mem t (slot p j) = g_mem s (slot p j)).
    { intros p j Hp Hne Hj. apply (to_mem _ _ _ _ _ Ht). intros j' Hj' E.
      destruct (live_slot_inj s p (pool_page y) j j' Hp (or_intror (ch_page _ _ _ Hc)) Hj ltac:(lia) E). done. }
    apply translate_ext.
    + apply Hlv; [apply (dir_page _ _ (ch_kwf _ _ _ Hc))|by apply not_eq_sym, (child_ne s0 s)|done].
    + intros Hht. apply Hlv; [right; by apply (dir_table _ _ (ch_kwf _ _ _ Hc))| |apply PT_INDEX_range].
      by eapply child_master_table; [exact Hc|apply (ch_new _ _ _ Hc)|..].
Qed.

(** ** The theorems *)

(** No page of the pool of paging structures is free. *)
Definition pool_exhausted (s : pg) : Prop := ∀ i, 0 <= i < 2048 → slot_used s i = true.

(** C11: [arch_map_4kb] on a well-formed directory either finds the pool of
    paging structures exhausted, answers [E_NOMEM] and changes nothing, or
    maps exactly the page of [va]: afterwards that page translates to the
    frame, writable when the flags say so (and to nothing when the flags lack
    the present bit); ring 3 reaches it when the flags say so and the directory
    entry was empty, a 4 MB page or already open to ring 3 ([opens]) - the call
    does not open an existing table that is closed to ring 3.  Every other page
    of the directory translates as before (also when a 4 MB page had to be
    split into 1024 entries), no directory that shares no table with it is
    affected, and the directory is well-formed. *)
Theorem arch_map_4kb_maps_one_page s d va pa flags :
  pg_ok s → dir_wf s d → is_u32 va → is_u32 pa →
  ∃ r s', arch_map_4kb d va pa flags s = Ret r s' ∧ pg_ok s' ∧ dir_wf s' d ∧
    (r = E_NOMEM ∧ s' = s ∧ pool_exhausted s ∨
     r = 0 ∧
     translate s' d va =
       (if flag 0 flags
        then Some (mk_xlat (pa / 4096 * 4096 + va mod 4096) (opens s d va && flag 2 flags) (flag 1 flags))
        else None) ∧
     (∀ va', is_u32 va' → va' / 4096 ≠ va / 4096 → translate s' d va' = translate s d va') ∧
     (∀ d', dir_wf s d' → apart s d d' va → ∀ va', translate s' d' va' = translate s d' va')).
Proof.
  intros Hpg Hwf Hva Hpa.
  destruct (arch_map_4kb_run s d va pa flags Hpg Hwf Hva Hpa) as [[E Hall]|(s' & E & Hm)].
  - exists E_NOMEM, s. split_and!; try done. by left.
  - exists 0, s'. split_and!; [done|apply (mp_ok _ _ _ _ _ _ Hm)|apply (mp_wf _ _ _ _ _ _ Hm)|right].
    split_and!; [done|apply (mp_here _ _ _ _ _ _ Hm)|apply (mp_else _ _ _ _ _ _ Hm)|].
    intros d' Hwf' Hap. apply (mp_apart _ _ _ _ _ _ Hm d' Hwf' Hap).
Qed.

(** C12: An address space leaks no paging structure: whatever user pages were
    mapped in a directory cloned from the master (also when a mapping failed
    half way), destroying it and freeing its page leaves the pool with exactly
    the pages it had before the directory was made, and the master directory
    translates every address as it did. *)
Theorem address_space_leaks_nothing s0 reqs :
  pg_ok s0 → master_ok s0 → Forall user_request reqs →
  ∃ s', (d ← create_space;
         if d =? 0 then mret tt else
         map_pages d reqs;; arch_destroy_address_space d;; arch_paging_pool_free d) s0 = Ret tt s' ∧
    (∀ x, 0 <= x < 2048 → slot_used s' x = slot_used s0 x) ∧
    ∀ va, translate s' (kernel_pdir_phys s0) va = translate s0 (kernel_pdir_phys s0) va.
Proof.
  intros Hpg Hm Hr.
  destruct (create_space_ok s0 Hpg Hm) as [[E _]|(d & s1 & E & Hd & Hc & _ & Htr1)]; rewrite (bind_Ret _ _ _ _ _ E).
  { by exists s0. }
  rewrite (proj2 (Z.eqb_neq d 0)) by done.
  destruct (map_pages_ok s0 s1 d reqs Hc Hr) as (r & s2 & E2 & Hc2 & _ & Htr2).
  rewrite (bind_Ret _ _ _ _ _ E2).
  destruct (destroy_ok s0 s2 d Hc2) as (s3 & E3 & _ & Hu & Htr3).
  exists s3. split_and!; [exact E3|done|]. intros va. by rewrite Htr3, Htr2.
Qed.
End spaces.

(** ** A concrete machine: the first 16 MB identity-mapped by 4 MB pages, an
    empty pool at 2 MB *)

#[export] Instance demo_layout : Layout.
Proof.
  refine {| page_table_base := 2097152; pdes_addr := 1056768; pmm_bitmap_start := 10485760 |};
    (reflexivity || lia).
Defined.

Definition demo_large (i : Z) : entry :=
  mk_entry true true false false false false false true false 0 (1024 * i).

Definition demo_pg : pg :=
  mk_pg (λ a, if a =? 1056768 then demo_large 0 else if a =? 1056772 then demo_large 1 else
              if a =? 1056776 then demo_large 2 else if a =? 1056780 then demo_large 3 else entry0)
    (Some 0%nat) (Some 1%nat) (replicate 64 0) 1056768 1056768 true [LOCK_UNLOCKED; LOCK_UNLOCKED].

Lemma demo_entry j :
  dir_entry demo_pg 1056768 j = entry0 ∨
  0 <= j < 4 ∧ dir_entry demo_pg 1056768 j = demo_large j.
Proof.
  unfold dir_entry, slot. simpl.
  destruct (Z.eqb_spec (1056768 + 4 * j) 1056768); [right; split; [lia|f_equal; lia]|].
  destruct (Z.eqb_spec (1056768 + 4 * j) 1056772); [right; split; [lia|f_equal; lia]|].
  destruct (Z.eqb_spec (1056768 + 4 * j) 1056776); [right; split; [lia|f_equal; lia]|].
  destruct (Z.eqb_spec (1056768 + 4 * j) 1056780); [right; split; [lia|f_equal; lia]|by left].
Qed.

Lemma demo_pg_ok : pg_ok demo_pg.
Proof. split; [split; [done|by exists 1%nat]|by exists 0%nat]. Qed.

Lemma demo_master : master_ok demo_pg.
Proof.
  assert (Hno : ∀ i, ¬ has_table demo_pg 1056768 i).
  { intros i [H1 H2]. destruct (demo_entry i) as [E|[_ E]]; rewrite E in H1, H2; done. }
  split; [constructor|].
  - by left.
  - intros i Hi Ht. by destruct (Hno i).
  - intros i Hi _ _. change (kernel_pdir_phys demo_pg) with 1056768.
    destruct (demo_entry i) as [->|[Hr ->]]; [done|]. simpl. split; [|lia].
    rewrite Z.mul_comm. by apply Z.mod_mul.
  - intros i j _ _ _ Ht. by destruct (Hno i).
  - intros j Hj. change (kernel_pdir_phys demo_pg) with 1056768.
    destruct (demo_entry j) as [E|[Hr _]]; [done|lia].
Qed.

(** A user page inside the 4 MB page at 4 MB: the page is split. *)
Lemma arch_map_4kb_maps_one_page_witness :
  ∃ r s', arch_map_4kb 1056768 4198400 8388608 PTE_USER_PAGE demo_pg = Ret r s' ∧ pg_ok s' ∧
    dir_wf s' 1056768 ∧
    (r = E_NOMEM ∧ s' = demo_pg ∧ pool_exhausted demo_pg ∨
     r = 0 ∧
     translate s' 1056768 4198400 =
       (if flag 0 PTE_USER_PAGE
        then Some (mk_xlat (8388608 / 4096 * 4096 + 4198400 mod 4096)
               (opens demo_pg 1056768 4198400 && flag 2 PTE_USER_PAGE) (flag 1 PTE_USER_PAGE))
        else None) ∧
     (∀ va', is_u32 va' → va' / 4096 ≠ 4198400 / 4096 →
        translate s' 1056768 va' = translate demo_pg 1056768 va') ∧
     (∀ d', dir_wf demo_pg d' → apart demo_pg 1056768 d' 4198400 →
        ∀ va', translate s' d' va' = translate demo_pg d' va')).
Proof.
  apply (arch_map_4kb_maps_one_page demo_pg 1056768 4198400 8388608 PTE_USER_PAGE);
    [exact demo_pg_ok|exact (proj1 demo_master)|split; lia|split; lia].
Defined.

Lemma address_space_leaks_nothing_witness :
  ∃ s', (d ← create_space;
         if d =? 0 then mret tt else
         map_pages d [(3489660928, 12582912, PTE_USER_PAGE)];;
         arch_destroy_address_space d;; arch_paging_pool_free d) demo_pg = Ret tt s' ∧
    (∀ x, 0 <= x < 2048 → slot_used s' x = slot_used demo_pg x) ∧
    ∀ va, translate s' (kernel_pdir_phys demo_pg) va = translate demo_pg (kernel_pdir_phys demo_pg) va.
Proof.
  apply (address_space_leaks_nothing demo_pg [(3489660928, 12582912, PTE_USER_PAGE)]);
    [exact demo_pg_ok|exact demo_master|].
  apply Forall_singleton. unfold user_request, USER_HEAP_END, USER_SPACE_TOP, is_u32. lia.
Defined.

(** A page for ring 3 beside one of the kernel: the table stays closed. *)
Example demo_closed :
  match (arch_map_4kb 1056768 3489660928 8388608 3;; arch_map_4kb 1056768 3489665024 8392704 PTE_USER_PAGE) demo_pg with
  | Ret r s => r = 0 ∧ translate s 1056768 3489665024 = Some (mk_xlat 8392704 false true)
  | _ => False
  end.
Proof. vm_compute. done. Qed.

(** The walk on the example: the split page goes to its frame, its neighbour
    stays on the identity map. *)
Example demo_split :
  match arch_map_4kb 1056768 4198400 8388608 PTE_USER_PAGE demo_pg with
  | Ret r s => r = 0 ∧ translate s 1056768 4198405 = Some (mk_xlat 8388613 true true)
               ∧ translate s 1056768 4202501 = Some (mk_xlat 4202501 false true)
  | _ => False
  end.
Proof. vm_compute. done. Qed.
