(* ===== verification/PageRuns.v ===== *)
(** * Runs of pages in one address space (the loops of kernel/mm/vmm.c over
      arch_map_4kb and arch_unmap_4kb)

    vmm.c maps and unmaps regions page by page.  [map_run] stops at the first
    page that cannot be mapped and says which one it was, [unmap_run] is the
    loop of every release and of every roll-back.  The lemmas give the
    translation of every address after a run, and show that an address space
    whose tables are its own ([isolated]) is not touched by runs in another
    one. *)

From S2P Require Import Prelude Spinlock Pmm Paging PageSpaces.
From stdpp Require Import base tactics list.
From Stdlib Require Import ZArith Lia.

Open Scope Z_scope.

Section runs.
Context {LY : Layout}.

(** [for (i = ..; i < n; i++) if (arch_map_4kb(cr3, va + i * PAGE_SIZE,
    pa + i * PAGE_SIZE, flags) != 0)]: [Some i] when page [i] failed. *)
Fixpoint map_run (n : nat) (cr3 va pa flags i : Z) : M pg (option Z) :=
  match n with
  | O => mret None
  | S n =>
      r ← arch_map_4kb cr3 (va +u i *u PAGE_SIZE) (pa +u i *u PAGE_SIZE) flags;
      if negb (r =? 0) then mret (Some i) else map_run n cr3 va pa flags (i + 1)
  end.

(** [for (i = ..; i < n; i++) arch_unmap_4kb(cr3, va + i * PAGE_SIZE)]. *)
Fixpoint unmap_run (n : nat) (cr3 va i : Z) : M pg unit :=
  match n with
  | O => mret tt
  | S n => arch_unmap_4kb cr3 (va +u i *u PAGE_SIZE);; unmap_run n cr3 va (i + 1)
  end.

(** ** What a process sees: the frame and the write permission of an address *)

Definition look (s : pg) (d va : Z) : option (Z * bool) :=
  (λ x, (x_pa x, x_rw x)) <$> translate s d va.

(** The directory is well-formed and has no 4 MB page above the user heap. *)
Record space_pg (s : pg) (d : Z) : Prop := {
  sg_ok : pg_ok s;
  sg_wf : dir_wf s d;
  sg_small : ∀ j, 772 <= j < 1024 → present (dir_entry s d j) = true → page_size (dir_entry s d j) = false;
}.

(** The tables of [d] above the user heap are not used by [d']. *)
Definition isolated (s : pg) (d d' : Z) : Prop :=
  d' ≠ d ∧ no_table_is s d' d ∧
  ∀ j, 772 <= j < 1024 → has_table s d j →
    no_table_is s d' (ptbl_of_pde (dir_entry s d j)) ∧ d' ≠ ptbl_of_pde (dir_entry s d j).

(** Two spaces that share at most tables of the kernel. *)
Definition separate (s : pg) (d d' : Z) : Prop :=
  dir_wf s d' ∧ isolated s d d' ∧ isolated s d' d.

(** The part of [d] below the user heap is as it was. *)
Definition low_kept (s s' : pg) (d : Z) : Prop := ∀ j, 0 <= j < 772 → dir_entry s' d j = dir_entry s d j.

(** What a step in [d] leaves alone. *)
Definition spares (s s' : pg) (d : Z) : Prop :=
  (same_regs s s' ∧ low_kept s s' d) ∧
  ∀ d', separate s d d' → separate s' d d' ∧
    (∀ j, 0 <= j < 1024 → dir_entry s' d' j = dir_entry s d' j) ∧
    ∀ va, translate s' d' va = translate s d' va.

Lemma spares_refl s d : spares s s d.
Proof. split; [done|]. by intros d' H. Qed.

Lemma same_regs_trans s1 s2 s3 : same_regs s1 s2 → same_regs s2 s3 → same_regs s1 s3.
Proof. intros (?&?&?&?&?&?) (?&?&?&?&?&?). unfold same_regs. split_and!; congruence. Qed.

Lemma spares_trans s1 s2 s3 d : spares s1 s2 d → spares s2 s3 d → spares s1 s3 d.
Proof.
  intros [[R1 K1] H1] [[R2 K2] H2]. split; [split; [by eapply same_regs_trans|intros j Hj; rewrite K2 by done; by apply K1]|].
  intros d' Hd'.
  destruct (H1 d' Hd') as (Hs1 & He1 & Ht1). destruct (H2 d' Hs1) as (Hs2 & He2 & Ht2).
  split_and!; [done|..]; intros; [rewrite He2 by done; by apply He1|by rewrite Ht2].
Qed.

Lemma high_index va : USER_HEAP_END <= va < 4294967296 → is_u32 va ∧ 772 <= PD_INDEX va < 1024.
Proof.
  unfold USER_HEAP_END. intros H. assert (is_u32 va) as Hva by (unfold is_u32; lia).
  split; [done|]. rewrite PD_INDEX_div by done. split.
  - apply Z.div_le_lower_bound; lia.
  - apply Z.div_lt_upper_bound; lia.
Qed.

Lemma isolated_apart s d d' va :
  isolated s d d' → 772 <= PD_INDEX va < 1024 → apart s d d' va.
Proof. intros (H1 & H2 & H3) Hi. split_and!; [done|done|]. by apply H3. Qed.

(** Separation survives a step of [d] that keeps the entries of [d'] and
    changes at most entry [i] of [d], to a table [d'] does not use. *)
Lemma separate_step s s' d d' i :
  separate s d d' → 772 <= i < 1024 → dir_wf s' d' →
  (∀ j, 0 <= j < 1024 → dir_entry s' d' j = dir_entry s d' j) →
  (∀ j, 0 <= j < 1024 → j ≠ i → dir_entry s' d j = dir_entry s d j) →
  (has_table s' d i → ¬ live s (ptbl_of_pde (dir_entry s' d i)) ∨ dir_entry s' d i = dir_entry s d i) →
  separate s' d d'.
Proof.
  intros (Hwf & (Hne & Hno & Htab) & (_ & Hno' & Htab')) Hi Hwf' He' He Hti.
  assert (Hlive : ∀ j, 0 <= j < 1024 → has_table s d' j → live s (ptbl_of_pde (dir_entry s d' j))).
  { intros j Hj Ht. right. by apply (dir_table _ _ Hwf). }
  assert (Hht : ∀ j, 0 <= j < 1024 → has_table s' d' j ↔ has_table s d' j).
  { intros j Hj. unfold has_table. by rewrite He'. }
  assert (Hold : ∀ j, 0 <= j < 1024 → has_table s' d j →
    (has_table s d j ∧ dir_entry s' d j = dir_entry s d j) ∨
    (j = i ∧ ¬ live s (ptbl_of_pde (dir_entry s' d j)))).
  { intros j Hj Ht. destruct (decide (j = i)) as [->|Hji].
    - destruct (Hti Ht) as [?|E]; [by right|left]. unfold has_table in *. by rewrite E in Ht.
    - left. unfold has_table in *. rewrite He in * by done. done. }
  split_and!; [done|split_and!|split_and!].
  - done.
  - intros j Hj Ht%Hht; [|done]. rewrite He' by done. by apply Hno.
  - intros j Hj Ht. destruct (Hold j ltac:(lia) Ht) as [[Ht0 ->]|[-> Hl]].
    + destruct (Htab j Hj Ht0) as [Hn Hd]. split; [|done].
      intros j' Hj' Ht'%Hht; [|done]. rewrite He' by done. by apply Hn.
    + split; [|intros E; apply Hl; rewrite <- E; apply (dir_page _ _ Hwf)].
      intros j' Hj' Ht'%Hht E; [|done]. apply Hl. rewrite <- E, He' by done. by apply Hlive.
  - by apply not_eq_sym.
  - intros j Hj Ht. destruct (Hold j Hj Ht) as [[Ht0 ->]|[-> Hl]]; [by apply Hno'|].
    intros E. apply Hl. rewrite E. apply (dir_page _ _ Hwf).
  - intros j Hj Ht%Hht; [|lia]. rewrite He' by lia. destruct (Htab' j Hj Ht) as [Hn Hd]. split; [|done].
    intros j' Hj' Ht'. destruct (Hold j' Hj' Ht') as [[Ht0 ->]|[-> Hl]]; [by apply Hn|].
    intros E. apply Hl. rewrite E. apply Hlive; [lia|done].
Qed.

(** ** One page *)

(** Two addresses on one small page. *)
Lemma translate_same_page s d va va' :
  has_table s d (PD_INDEX va) → is_u32 va → is_u32 va' → va' / 4096 = va / 4096 →
  translate s d va' =
    (λ x, mk_xlat (x_pa x - va mod 4096 + va' mod 4096) (x_user x) (x_rw x)) <$> translate s d va.
Proof.
  intros Ht Hva Hva' E. assert (PD_INDEX va' = PD_INDEX va) as Ei.
  { rewrite !PD_INDEX_div by done. change 4194304 with (4096 * 1024). rewrite <- !Z.div_div by lia. by rewrite E. }
  assert (PT_INDEX va' = PT_INDEX va) as Ej by (rewrite !PT_INDEX_div; by rewrite E).
  rewrite !translate_table by (by rewrite ?Ei). cbv zeta. rewrite Ei, Ej.
  match goal with |- context [if ?b then _ else _] => destruct b; [|done] end. simpl. do 2 f_equal. lia.
Qed.

Lemma map_one s d va pa flags :
  space_pg s d → USER_HEAP_END <= va < 4294967296 → is_u32 pa → flag 0 flags = true →
  (arch_map_4kb d va pa flags s = Ret E_NOMEM s) ∨
  ∃ s', arch_map_4kb d va pa flags s = Ret 0 s' ∧ space_pg s' d ∧ spares s s' d ∧
    ∀ va', is_u32 va' → look s' d va' =
      if va' / 4096 =? va / 4096 then Some (pa / 4096 * 4096 + va' mod 4096, flag 1 flags) else look s d va'.
Proof.
  intros [Hok Hwf Hsm] Hr Hpa Hf. destruct (high_index va Hr) as [Hva Hi].
  destruct (arch_map_4kb_run s d va pa flags Hok Hwf Hva Hpa) as [[E _]|(s' & E & Hm)]; [by left|right].
  exists s'. split; [done|].
  assert (Htd : ptbl_of_pde (dir_entry s' d (PD_INDEX va)) ≠ d).
  { apply (dir_table _ _ (mp_wf _ _ _ _ _ _ Hm) (PD_INDEX va) ltac:(lia) (mp_table _ _ _ _ _ _ Hm)). }
  assert (Hde : ∀ j, 0 <= j < 1024 → j ≠ PD_INDEX va → dir_entry s' d j = dir_entry s d j).
  { intros j Hj Hne. apply (mp_entries _ _ _ _ _ _ Hm); [apply (dir_page _ _ Hwf)|done|by right|by apply not_eq_sym]. }
  split_and!.
  - constructor; [apply (mp_ok _ _ _ _ _ _ Hm)|apply (mp_wf _ _ _ _ _ _ Hm)|].
    intros j Hj. destruct (decide (j = PD_INDEX va)) as [->|Hne].
    + intros _. apply (mp_table _ _ _ _ _ _ Hm).
    + rewrite Hde by (done || lia). by apply Hsm.
  - split; [split; [apply (mp_regs _ _ _ _ _ _ Hm)|intros j Hj; apply Hde; lia]|]. intros d' Hsep. pose proof Hsep as (Hwf' & Hiso & Hiso').
    destruct (mp_apart _ _ _ _ _ _ Hm d' Hwf' (isolated_apart _ _ _ _ Hiso Hi)) as [Hwf2 Htr].
    assert (Hfr : (dir_entry s' d (PD_INDEX va) = dir_entry s d (PD_INDEX va) ∧ has_table s d (PD_INDEX va))
      ∨ ¬ live s (ptbl_of_pde (dir_entry s' d (PD_INDEX va)))).
    { destruct (mp_fresh _ _ _ _ _ _ Hm) as [(? & _ & ?)|?%fresh_not_live]; [by left|by right]. }
    assert (Hde' : ∀ j, 0 <= j < 1024 → dir_entry s' d' j = dir_entry s d' j).
    { intros j Hj. apply (mp_entries _ _ _ _ _ _ Hm); [apply (dir_page _ _ Hwf')|done|left; apply Hiso|].
      destruct Hfr as [[-> Ht]|Hl]; [by apply Hiso|]. intros Ed. apply Hl. rewrite <- Ed. apply (dir_page _ _ Hwf'). }
    split_and!; [|done|done]. apply (separate_step s s' d d' (PD_INDEX va)); try done.
    intros _. destruct Hfr as [[? _]|?]; auto.
  - intros va' Hva'. unfold look. destruct (Z.eqb_spec (va' / 4096) (va / 4096)) as [E'|E'].
    + rewrite (translate_same_page s' d va va') by (done || apply (mp_table _ _ _ _ _ _ Hm)).
      rewrite (mp_here _ _ _ _ _ _ Hm), Hf. simpl. do 2 f_equal. lia.
    + by rewrite (mp_else _ _ _ _ _ _ Hm).
Qed.

Lemma unmap_one s d va :
  space_pg s d → USER_HEAP_END <= va < 4294967296 →
  ∃ s', arch_unmap_4kb d va s = Ret tt s' ∧ space_pg s' d ∧ spares s s' d ∧
    ∀ va', is_u32 va' → look s' d va' = if va' / 4096 =? va / 4096 then None else look s d va'.
Proof.
  intros [Hok Hwf Hsm] Hr. destruct (high_index va Hr) as [Hva Hi].
  destruct (arch_unmap_4kb_run s d va Hok Hwf Hva ltac:(unfold USER_HEAP_BASE, USER_HEAP_END in *; lia) (Hsm _ Hi))
    as (s' & E & Hok' & Hwf' & Hnone & Helse & Hap & Hde & Hmem & _ & Hrg).
  exists s'. split_and!; [done|constructor; try done|split; [split; [done|intros j Hj; apply Hde; lia]|]|].
  - intros j Hj. rewrite Hde by lia. by apply Hsm.
  - intros d' Hsep. pose proof Hsep as (Hwfd & Hiso & Hiso').
    destruct (Hap d' Hwfd (isolated_apart _ _ _ _ Hiso Hi)) as [Hwf2 Htr].
    assert (Hde' : ∀ j, 0 <= j < 1024 → dir_entry s' d' j = dir_entry s d' j).
    { intros j Hj. apply Hmem; [apply (dir_page _ _ Hwfd)|done|]. intros Ht. by apply Hiso. }
    split_and!; [|done|done]. apply (separate_step s s' d d' (PD_INDEX va)); try done.
    + intros j Hj _. by apply Hde.
    + intros _. right. apply Hde. lia.
  - intros va' Hva'. unfold look. destruct (Z.eqb_spec (va' / 4096) (va / 4096)) as [E'|E']; [|by rewrite Helse].
    destruct (present (dir_entry s' d (PD_INDEX va))) eqn:Hp.
    + rewrite (translate_same_page s' d va va'); [by rewrite Hnone| |done..]. split; [done|].
      rewrite Hde in Hp |- * by lia. by apply Hsm.
    + assert (PD_INDEX va' = PD_INDEX va) as Ei.
      { rewrite !PD_INDEX_div by done. change 4194304 with (4096 * 1024). rewrite <- !Z.div_div by lia. by rewrite E'. }
      unfold translate. rewrite Ei. unfold dir_entry in Hp. by rewrite Hp.
Qed.

(** ** Runs *)

(** The addresses of the pages [i] to [j - 1] of a run at [va]. *)
Definition in_run (va i j a : Z) : bool := (va + i * 4096 <=? a) && (a <? va + j * 4096).

Lemma run_page va i : va mod 4096 = 0 → 0 <= i → 0 <= va → va + i * 4096 < 4294967296 →
  va +u i *u PAGE_SIZE = va + i * 4096.
Proof.
  intros Ha Hi Hv Hlt. unfold PAGE_SIZE. rewrite (u32_small (i * 4096)) by (unfold is_u32; lia).
  apply u32_small. unfold is_u32. lia.
Qed.

Lemma page_of va i a :
  va mod 4096 = 0 → (a / 4096 =? (va + i * 4096) / 4096) = in_run va i (i + 1) a.
Proof.
  intros Ha. unfold in_run. rewrite Z.div_add by lia.
  pose proof (Z.div_mod va 4096 ltac:(lia)). pose proof (Z.div_mod a 4096 ltac:(lia)).
  pose proof (Z.mod_pos_bound a 4096 ltac:(lia)). apply eq_bool_prop_intro.
  rewrite andb_True, !Is_true_true, Z.eqb_eq, Z.leb_le, Z.ltb_lt. lia.
Qed.

Lemma in_run_cons va i j a : i < j → in_run va i j a = in_run va i (i + 1) a || in_run va (i + 1) j a.
Proof.
  intros H. apply eq_bool_prop_intro. unfold in_run.
  rewrite orb_True, !andb_True, !Is_true_true, !Z.leb_le, !Z.ltb_lt. lia.
Qed.

Lemma in_run_nil va i a : in_run va i i a = false.
Proof. apply not_true_iff_false. unfold in_run. rewrite andb_true_iff, Z.leb_le, Z.ltb_lt. lia. Qed.

Lemma map_run_ok n s d va pa flags i :
  space_pg s d → flag 0 flags = true → va mod 4096 = 0 → pa mod 4096 = 0 → 0 <= i →
  USER_HEAP_END <= va → va + (i + Z.of_nat n) * 4096 <= 4294967296 →
  0 <= pa → pa + (i + Z.of_nat n) * 4096 <= 4294967296 →
  ∃ r s', map_run n d va pa flags i s = Ret r s' ∧ space_pg s' d ∧ spares s s' d ∧
    (∀ k, r = Some k → i <= k < i + Z.of_nat n) ∧
    ∀ a, is_u32 a → look s' d a =
      if in_run va i (default (i + Z.of_nat n) r) a then Some (pa + (a - va), flag 1 flags) else look s d a.
Proof.
  intros Hs Hf Hva Hpa. revert s Hs i. induction n as [|n IH]; intros s Hs i Hi Hlo Hhi Hp0 Hp.
  - exists None, s. split_and!; [done|done|apply spares_refl|done|]. intros a Ha.
    simpl. rewrite Z.add_0_r, in_run_nil. done.
  - cbn [map_run]. rewrite !run_page by (unfold USER_HEAP_END in *; lia).
    destruct (map_one s d (va + i * 4096) (pa + i * 4096) flags Hs) as [E|(s1 & E & Hs1 & Hsp1 & Hl1)];
      [unfold USER_HEAP_END in *; lia|unfold is_u32; lia|done|..]; rewrite (bind_Ret _ _ _ _ _ E).
    + exists (Some i), s. split_and!; [done|done|apply spares_refl|intros k [= <-]; lia|].
      intros a Ha. simpl. by rewrite in_run_nil.
    + destruct (IH s1 Hs1 (i + 1)) as (r & s2 & E2 & Hs2 & Hsp2 & Hr & Hl2); [lia|lia|lia|lia|lia|].
      exists r, s2. split_and!; [done|done|by eapply spares_trans| |].
      * intros k Hk%Hr. lia.
      * intros a Ha. rewrite Hl2, Hl1, page_of by done.
        replace (default (i + Z.of_nat (S n)) r) with (default (i + 1 + Z.of_nat n) r) by (destruct r; simpl; lia).
        rewrite (in_run_cons va i (default (i + 1 + Z.of_nat n) r)).
        2: { destruct r as [k|]; simpl; [specialize (Hr k eq_refl)|]; lia. }
        destruct (in_run va (i + 1) _ a) eqn:E1; [by rewrite orb_true_r|]. rewrite orb_false_r.
        destruct (in_run va i (i + 1) a) eqn:E0; [|done]. unfold in_run in E0. zprop.
        do 2 f_equal. rewrite Z.div_add by lia.
        pose proof (Z.div_mod va 4096 ltac:(lia)). pose proof (Z.div_mod pa 4096 ltac:(lia)).
        pose proof (Z.div_mod a 4096 ltac:(lia)). pose proof (Z.mod_pos_bound a 4096 ltac:(lia)). lia.
Qed.

Lemma unmap_run_ok n s d va i :
  space_pg s d → va mod 4096 = 0 → 0 <= i →
  USER_HEAP_END <= va → va + (i + Z.of_nat n) * 4096 <= 4294967296 →
  ∃ s', unmap_run n d va i s = Ret tt s' ∧ space_pg s' d ∧ spares s s' d ∧
    ∀ a, is_u32 a → look s' d a = if in_run va i (i + Z.of_nat n) a then None else look s d a.
Proof.
  intros Hs Hva. revert s Hs i. induction n as [|n IH]; intros s Hs i Hi Hlo Hhi.
  - exists s. split_and!; [done|done|apply spares_refl|]. intros a Ha. simpl. rewrite Z.add_0_r, in_run_nil. done.
  - cbn [unmap_run]. rewrite run_page by (unfold USER_HEAP_END in *; lia).
    destruct (unmap_one s d (va + i * 4096) Hs) as (s1 & E & Hs1 & Hsp1 & Hl1); [unfold USER_HEAP_END in *; lia|].
    rewrite (bind_Ret _ _ _ _ _ E).
    destruct (IH s1 Hs1 (i + 1)) as (s2 & E2 & Hs2 & Hsp2 & Hl2); [lia|lia|lia|].
    exists s2. split_and!; [done|done|by eapply spares_trans|]. intros a Ha. rewrite Hl2, Hl1, page_of by done.
    replace (i + Z.of_nat (S n)) with (i + 1 + Z.of_nat n) by lia. rewrite (in_run_cons va i (i + 1 + Z.of_nat n)) by lia.
    destruct (in_run va (i + 1) _ a); [by rewrite orb_true_r|]. by rewrite orb_false_r.
Qed.
(** A run over unmapped pages is mapped as a whole, or a prefix of it is, and
    unmapping the prefix restores every translation. *)
Lemma map_or_roll n s d va pa flags :
  space_pg s d → flag 0 flags = true → va mod 4096 = 0 → pa mod 4096 = 0 →
  USER_HEAP_END <= va → va + Z.of_nat n * 4096 <= 4294967296 →
  0 <= pa → pa + Z.of_nat n * 4096 <= 4294967296 →
  (∀ a, in_run va 0 (Z.of_nat n) a = true → look s d a = None) →
  ∃ o s1, map_run n d va pa flags 0 s = Ret o s1 ∧
    match o with
    | None => space_pg s1 d ∧ spares s s1 d ∧ ∀ a, is_u32 a → look s1 d a =
        if in_run va 0 (Z.of_nat n) a then Some (pa + (a - va), flag 1 flags) else look s d a
    | Some i => ∃ s2, unmap_run (Z.to_nat i) d va 0 s1 = Ret tt s2 ∧ space_pg s2 d ∧ spares s s2 d ∧
        ∀ a, is_u32 a → look s2 d a = look s d a
    end.
Proof.
  intros Hs Hf Hva Hpa Hlo Hhi Hp0 Hp Hno.
  destruct (map_run_ok n s d va pa flags 0 Hs Hf Hva Hpa) as (o & s1 & E & Hs1 & Hsp & Hr & Hl); [lia..|].
  exists o, s1. split; [done|]. destruct o as [i|]; simpl in Hl; [|by split_and!].
  specialize (Hr i eq_refl).
  destruct (unmap_run_ok (Z.to_nat i) s1 d va 0 Hs1 Hva) as (s2 & E2 & Hs2 & Hsp2 & Hl2); [lia..|].
  exists s2. split_and!; [done|done|by eapply spares_trans|]. intros a Ha. rewrite Hl2, Hl by done.
  rewrite Z.add_0_l, Z2Nat.id by lia. destruct (in_run va 0 i a) eqn:E1; [|done].
  symmetry. apply Hno. unfold in_run in *. zprop. apply andb_true_iff. rewrite Z.leb_le, Z.ltb_lt. lia.
Qed.
End runs.
