(* ===== verification/UserMem.v ===== *)
(** * Validation of user pointers (arch/i386/mem.c)

    [arch_validate_user_range] walks the loaded page directory by hand before
    the kernel touches caller memory.  The walk is shown to agree with the
    processor's: it accepts a range exactly when the range lies in user space
    and ring 3 may access (or write) each of its bytes. *)

From S2P Require Import Prelude Spinlock Pmm Paging PageSpaces.
From stdpp Require Import base tactics list.
From Stdlib Require Import ZArith Lia.

Open Scope Z_scope.

Section usermem.
Context {LY : Layout}.

Definition PAGE_OFFSET (va : Z) : Z := Z.land va (PAGE_SIZE - 1).

(** The checks of one turn: the directory entry, then a 4 MB page or the table
    entry. *)
Definition page_permits (s : pg) (cr3 addr : Z) (for_write : bool) : bool :=
  let pde := g_mem s (slot cr3 (PD_INDEX addr)) in
  if negb (present pde) || negb (user pde) || (for_write && negb (rw pde)) then false else
  if page_size pde then
    if negb (user pde) || (for_write && negb (rw pde)) then false else true
  else
    let pte := g_mem s (slot (ptbl_of_pde pde) (PT_INDEX addr)) in
    if negb (present pte) || negb (user pte) || (for_write && negb (rw pte)) then false else true.

(** [while (n > 0)], one page per turn; the result is 1 or 0. *)
Fixpoint validate_loop (fuel : nat) (s : pg) (cr3 addr n : Z) (for_write : bool) : option Z :=
  if 0 <? n then
    match fuel with
    | O => None
    | S fuel =>
        if page_permits s cr3 addr for_write then
          let remain := PAGE_SIZE - PAGE_OFFSET addr in
          let remain := if n <? remain then n else remain in
          validate_loop fuel s cr3 (addr +u remain) (n - remain) for_write
        else Some 0
    end
  else Some 1.

(** A range of user space has at most [2^20] pages. *)
Definition arch_validate_user_range (user_addr n : Z) (for_write : bool) : M pg Z := λ s,
  if n =? 0 then Ret 1 s else
  if user_addr +u n <? user_addr then Ret 0 s else
  if (USER_SPACE_TOP <=? user_addr) || (USER_SPACE_TOP <? user_addr +u n) then Ret 0 s else
  match validate_loop (Z.to_nat 1048576) s (Z.land (g_cr3 s) PAGE_MASK) user_addr n for_write with
  | Some r => Ret r s
  | None => Spin
  end.

(** ** What ring 3 may do according to the processor's walk *)

Definition permits (s : pg) (d : Z) (for_write : bool) (va : Z) : bool :=
  match translate s d va with
  | Some x => x_user x && (negb for_write || x_rw x)
  | None => false
  end.

Lemma page_permits_eq s d va w : page_permits s d va w = permits s d w va.
Proof.
  unfold page_permits, permits, translate. set (e := g_mem s (slot d (PD_INDEX va))).
  destruct (present e); cbn [negb orb]; [|done].
  destruct (page_size e); [by destruct (user e), w, (rw e)|].
  set (t := g_mem s (slot (ptbl_of_pde e) (PT_INDEX va))).
  by destruct (present t), (user e), (user t), (rw e), (rw t), w.
Qed.

(** The bytes of one page have the same rights. *)
Lemma permits_same_page s d w va va' :
  is_u32 va → is_u32 va' → va' / 4096 = va / 4096 → permits s d w va' = permits s d w va.
Proof.
  intros Hva Hva' E. unfold permits, translate.
  assert (PD_INDEX va' = PD_INDEX va) as ->.
  { rewrite !PD_INDEX_div by done. change 4194304 with (4096 * 1024). rewrite <- !Z.div_div by lia. by rewrite E. }
  assert (PT_INDEX va' = PT_INDEX va) as -> by (rewrite !PT_INDEX_div; by rewrite E).
  destruct (negb _); [done|]. destruct (page_size _); [done|]. by destruct (negb _).
Qed.

Lemma page_offset_mod va : PAGE_OFFSET va = va mod 4096.
Proof. unfold PAGE_OFFSET, PAGE_SIZE. change (4096 - 1) with (Z.ones 12). by rewrite Z.land_ones by lia. Qed.

Lemma validate_loop_ok fuel s d addr n w :
  0 <= n → 0 <= addr → addr + n < 4294967296 → (0 < n → addr mod 4096 + n <= Z.of_nat fuel * 4096) →
  ∃ r, validate_loop fuel s d addr n w = Some r ∧ (r = 0 ∨ r = 1) ∧
    (r = 1 ↔ ∀ a, addr <= a < addr + n → permits s d w a = true).
Proof.
  revert addr n. induction fuel as [|fuel IH]; intros addr n Hn Ha Hend Hf; cbn [validate_loop].
  - pose proof (Z.mod_pos_bound addr 4096 ltac:(lia)).
    assert (n = 0) as -> by lia. exists 1.
    split_and!; [done|by right|]. split; [intros _ a Haa; lia|done].
  - destruct (Z.ltb_spec 0 n) as [Hpos|Hz].
    2: { exists 1. split_and!; [done|by right|]. split; [intros _ a Haa; lia|done]. }
    rewrite page_permits_eq, page_offset_mod. unfold PAGE_SIZE.
    pose proof (Z.mod_pos_bound addr 4096 ltac:(lia)) as Hm. pose proof (Z.div_mod addr 4096 ltac:(lia)) as Hd.
    destruct (permits s d w addr) eqn:Hp.
    2: { exists 0. split_and!; [done|by left|]. split; [done|]. intros Hall. rewrite Hall in Hp by lia. done. }
    set (remain := if n <? 4096 - addr mod 4096 then n else 4096 - addr mod 4096).
    assert (0 < remain <= n ∧ remain <= 4096 - addr mod 4096 ∧ (remain < n → remain = 4096 - addr mod 4096)) as (R1 & R2 & R3).
    { unfold remain. zcase; lia. }
    rewrite u32_small by (unfold is_u32; lia).
    destruct (IH (addr + remain) (n - remain)) as (r & E & Hr & Hiff); [lia|lia|lia| |].
    { intros Hne. rewrite R3 by lia. replace (addr + (4096 - addr mod 4096)) with ((addr / 4096 + 1) * 4096) by lia.
      rewrite Z.mod_mul by lia. specialize (Hf Hpos). lia. }
    exists r. split_and!; [done|done|]. rewrite Hiff. split.
    + intros Hall a Haa. destruct (Z.lt_ge_cases a (addr + remain)); [|apply Hall; lia].
      rewrite <- Hp. apply permits_same_page; [unfold is_u32; lia..|].
      symmetry. apply Z.div_unique with (a - addr / 4096 * 4096); lia.
    + intros Hall a Haa. apply Hall. lia.
Qed.
(** ** The check is the processor's *)

Lemma arch_validate_user_range_run s addr n w :
  is_u32 addr → is_u32 n → is_u32 (g_cr3 s) → g_cr3 s mod 4096 = 0 →
  ∃ r, arch_validate_user_range addr n w s = Ret r s ∧ (r = 0 ∨ r = 1) ∧
    (r = 1 ↔ n = 0 ∨ (addr + n <= USER_SPACE_TOP ∧
                      ∀ a, addr <= a < addr + n → permits s (g_cr3 s) w a = true)).
Proof.
  intros Ha Hn Hc Hal. unfold arch_validate_user_range.
  destruct (Z.eqb_spec n 0) as [->|Hz]; [exists 1; split_and!; [done|by right|split; [by left|done]]|].
  assert (∀ P : Prop, (P → False) → ∃ r, Ret 0 s = Ret r s ∧ (r = 0 ∨ r = 1) ∧ (r = 1 ↔ n = 0 ∨ P)) as Hno.
  { intros P HP. exists 0. split_and!; [done|by left|]. split; [done|]. intros [?|?]; [done|]. by destruct HP. }
  unfold is_u32, USER_SPACE_TOP in *.
  destruct (Z.lt_ge_cases (addr + n) 4294967296) as [Hsum|Hsum].
  2: { rewrite (proj2 (Z.ltb_lt _ _)); [apply Hno; lia|]. unfold u32.
       replace (addr + n) with (addr + n - 4294967296 + 1 * 4294967296) by lia.
       rewrite Z.mod_add, Z.mod_small; lia. }
  rewrite u32_small by (unfold is_u32; lia). rewrite (proj2 (Z.ltb_ge _ _)) by lia.
  destruct ((_ <=? addr) || _) eqn:Htop; [apply Hno; intros [? _]; lia|].
  rewrite land_page_mask by done.
  replace (g_cr3 s / 4096 * 4096) with (g_cr3 s) by (pose proof (Z.div_mod (g_cr3 s) 4096 ltac:(lia)); lia).
  destruct (validate_loop_ok (Z.to_nat 1048576) s (g_cr3 s) addr n w) as (r & -> & Hr & Hiff); [lia..| |].
  { pose proof (Z.mod_pos_bound addr 4096 ltac:(lia)). lia. }
  exists r. split_and!; [done|done|]. rewrite Hiff. split; [right; split; [lia|done]|by intros [?|[_ ?]]].
Qed.

(** C18: [arch_validate_user_range] always returns, changes nothing, and
    accepts a range exactly when it is empty or lies below the top of user
    space without wrapping and the processor's walk of the loaded directory
    lets ring 3 read (for a write: write) every byte of it. *)
Theorem arch_validate_user_range_exact s addr n w :
  is_u32 addr → is_u32 n → is_u32 (g_cr3 s) → g_cr3 s mod 4096 = 0 →
  ∃ r, arch_validate_user_range addr n w s = Ret r s ∧ (r = 0 ∨ r = 1) ∧
    (r = 1 ↔ n = 0 ∨ (addr + n <= USER_SPACE_TOP ∧
                      ∀ a, addr <= a < addr + n → permits s (g_cr3 s) w a = true)).
Proof. apply arch_validate_user_range_run. Qed.
End usermem.

(** A directory with a 4 MB user page at 16 MB: a range across two 4 KB pages
    of it is accepted. *)
Definition user_pg : pg :=
  set_mem (λ a, if a =? 1056784 then mk_entry true true true false false false false true false 0 4096
                else g_mem demo_pg a) demo_pg.

Lemma arch_validate_user_range_exact_witness :
  ∃ r, arch_validate_user_range 16781306 10 true user_pg = Ret r user_pg ∧ (r = 0 ∨ r = 1) ∧
    (r = 1 ↔ 10 = 0 ∨ (16781306 + 10 <= USER_SPACE_TOP ∧
                      ∀ a, 16781306 <= a < 16781306 + 10 → permits user_pg 1056768 true a = true)).
Proof.
  apply (arch_validate_user_range_exact user_pg 16781306 10 true); [split; lia|split; lia|split; simpl; lia|reflexivity].
Defined.

Example user_range_accepted : arch_validate_user_range 16781306 10 true user_pg = Ret 1 user_pg.
Proof. vm_compute. reflexivity. Qed.

Example kernel_range_refused : arch_validate_user_range 4198400 10 false user_pg = Ret 0 user_pg.
Proof. vm_compute. reflexivity. Qed.
