(* ===== verification/Syscall.v ===== *)
(** * The system-call table and the copies at the gate (kernel/syscall.c)

    The table is the list [syscall_header], newest entry first; an entry is an
    address of the kernel heap and the object there.  Slot 0 of the lock table
    is [syscall_lock], slot 1 [copy_lock].  Memory is the bytes of physical
    memory, reached through the loaded page directory: an access to an address
    that is not mapped faults.  Page tables are the entries of Paging.v; a page
    that holds one is not seen as bytes.  CR0.WP is never set, so ring 0 writes
    to any mapped page.  The registered handlers are a parameter: a handler is
    any function on the state, addressed by its function pointer. *)

From stdpp Require Import base tactics list gmap.
From Stdlib Require Import ZArith Lia.
From S2P Require Import Prelude Spinlock Allocator Pmm Paging PageSpaces UserMem.

Open Scope Z_scope.

Record syscall := mk_syscall { sc_handle : Z; sc_fn : Z; max_param_size : Z }.
Definition sizeof_syscall : Z := 20.
Definition SYSCALL_KBUF_MAX : Z := 512.

Section syscalls.
Context {LY : Layout} {A : Type} `{!Allocator A}.

Record sys := mk_sys {
  syscall_header : list (Z * syscall);
  y_irq : cpu * lock_table;
  y_heap : A;
  y_pg : pg;
  y_ram : Z → Z;
  (** The thread [thread_get_tid] names. *)
  y_tid : Z;
  (** CS in the frame of [curr_task_ctx]; [None] without a context or a frame. *)
  y_cs : option Z;
}.

Definition set_calls (x : list (Z * syscall)) (s : sys) : sys :=
  mk_sys x (y_irq s) (y_heap s) (y_pg s) (y_ram s) (y_tid s) (y_cs s).
Definition set_irq (x : cpu * lock_table) (s : sys) : sys :=
  mk_sys (syscall_header s) x (y_heap s) (y_pg s) (y_ram s) (y_tid s) (y_cs s).
Definition set_heap (x : A) (s : sys) : sys :=
  mk_sys (syscall_header s) (y_irq s) x (y_pg s) (y_ram s) (y_tid s) (y_cs s).
Definition set_pg (x : pg) (s : sys) : sys :=
  mk_sys (syscall_header s) (y_irq s) (y_heap s) x (y_ram s) (y_tid s) (y_cs s).
Definition set_ram (x : Z → Z) (s : sys) : sys :=
  mk_sys (syscall_header s) (y_irq s) (y_heap s) (y_pg s) x (y_tid s) (y_cs s).

#[export] Instance sys_irq : Contains sys (cpu * lock_table).
Proof. refine {| part := y_irq; set_part := set_irq |}; try done. by intros []. Defined.
#[local] Instance sys_heap : Contains sys A.
Proof. refine {| part := y_heap; set_part := set_heap |}; try done. by intros []. Defined.
#[local] Instance sys_pages : Contains sys pg.
Proof. refine {| part := y_pg; set_part := set_pg |}; try done. by intros []. Defined.

Definition izoom {B} (m : M (cpu * lock_table) B) : M sys B := @zoom _ _ sys_irq _ m.
Definition lzoom {B} (m : M lock_table B) : M sys B := @zoom _ _ irq_locks _ m.
Definition hzoom {B} (m : M A B) : M sys B := @zoom _ _ sys_heap _ m.
Definition gzoom {B} (m : M pg B) : M sys B := @zoom _ _ sys_pages _ m.

Definition syscall_lock : option nat := Some 0%nat.
Definition copy_lock : option nat := Some 1%nat.

(** [&syscall_kbuf], and the functions the table points to. *)
Context (syscall_kbuf : Z) (handlers : Z → Z → M sys Z).

(** ** Memory through the loaded directory *)

Definition phys (s : sys) (va : Z) : option Z := x_pa <$> translate (y_pg s) (g_cr3 (y_pg s)) va.

Definition load (va : Z) : M sys Z := λ s,
  match phys s va with Some p => Ret (y_ram s p) s | None => Fault end.
Definition poke (va v : Z) : M sys unit := λ s,
  match phys s va with Some p => Ret tt (set_ram (store p v (y_ram s)) s) | None => Fault end.

Fixpoint memcpy_loop (n : nat) (i dst src : Z) : M sys unit :=
  match n with
  | O => mret tt
  | S n => b ← load (src + i); poke (dst + i) b;; memcpy_loop n (i + 1) dst src
  end.
Definition memcpy (dst src n : Z) : M sys unit := memcpy_loop (Z.to_nat n) 0 dst src.

Fixpoint memset_loop (n : nat) (i dst chr : Z) : M sys unit :=
  match n with
  | O => mret tt
  | S n => poke (dst + i) (u8 chr);; memset_loop n (i + 1) dst chr
  end.
Definition memset (dst chr n : Z) : M sys unit := memset_loop (Z.to_nat n) 0 dst chr.

(** ** The table *)

(** [list_for_each] up to the entry with this number. *)
Definition find_call (h : Z) (l : list (Z * syscall)) : option (Z * syscall) :=
  List.find (λ e, sc_handle e.2 =? h) l.

Definition syscall_register (num fn max : Z) : M sys Z :=
  if (fn =? 0) || (num <? 0) then mret E_INVAL else
  sc ← hzoom (kmalloc sizeof_syscall);
  if sc =? 0 then mret E_NOMEM else
  lzoom (spinlock_lock syscall_lock);;
  l ← gets syscall_header;
  match find_call num l with
  | Some _ =>
      lzoom (spinlock_unlock syscall_lock);;
      hzoom (kfree sc);;
      mret E_EXISTS
  | None =>
      modify (λ s, set_calls ((sc, mk_syscall num fn max) :: syscall_header s) s);;
      lzoom (spinlock_unlock syscall_lock);;
      mret num
  end.

(** [list_del] of the first entry with this number. *)
Fixpoint unlink_call (h : Z) (l : list (Z * syscall)) : list (Z * syscall) :=
  match l with
  | [] => []
  | e :: l => if sc_handle e.2 =? h then l else e :: unlink_call h l
  end.

Definition syscall_unregister (handle : Z) : M sys Z :=
  if handle <? 0 then mret E_INVAL else
  lzoom (spinlock_lock syscall_lock);;
  l ← gets syscall_header;
  match find_call handle l with
  | Some e =>
      modify (λ s, set_calls (unlink_call handle (syscall_header s)) s);;
      hzoom (kfree e.1);;
      lzoom (spinlock_unlock syscall_lock);;
      mret 0
  | None =>
      lzoom (spinlock_unlock syscall_lock);;
      mret E_NOTFOUND
  end.

(** [list_for_each_safe]: unlink and free every entry, first one first. *)
Fixpoint exit_loop (l : list (Z * syscall)) : M sys unit :=
  match l with
  | [] => mret tt
  | e :: l =>
      modify (λ s, set_calls l s);;
      hzoom (kfree e.1);;
      exit_loop l
  end.
Definition syscall_exit : M sys unit :=
  lzoom (spinlock_lock syscall_lock);;
  l ← gets syscall_header;
  exit_loop l;;
  lzoom (spinlock_unlock syscall_lock);;
  mret tt.

(** ** Copies to and from the caller *)

Definition copy_from_user (dst user_src n : Z) : M sys Z :=
  if (dst =? 0) || (user_src =? 0) then mret E_FAULT else
  eflags ← izoom (spinlock_lock_irqsave copy_lock);
  ok ← gzoom (arch_validate_user_range user_src n false);
  (if negb (ok =? 0) then memcpy dst user_src n else mret tt);;
  izoom (spinlock_unlock_irqrestore copy_lock eflags);;
  mret (if negb (ok =? 0) then 0 else E_FAULT).

Definition copy_to_user (user_dst src n : Z) : M sys Z :=
  if (user_dst =? 0) || (src =? 0) then mret E_FAULT else
  eflags ← izoom (spinlock_lock_irqsave copy_lock);
  ok ← gzoom (arch_validate_user_range user_dst n true);
  (if negb (ok =? 0) then memcpy user_dst src n else mret tt);;
  izoom (spinlock_unlock_irqrestore copy_lock eflags);;
  mret (if negb (ok =? 0) then 0 else E_FAULT).

(** ** Dispatch *)

Definition gate_caller_ring3 : M sys bool :=
  gets (λ s, match y_cs s with Some cs => Z.land cs 3 =? 3 | None => false end).

(** After the handler: the write-back, unless the caller was switched away. *)
Definition deliver (arg kbuf n : Z) (kmalloc_buf : bool) (tid_before cr3_before ret : Z) : M sys Z :=
  tid ← gets y_tid;
  cr3 ← gzoom arch_get_cr3;
  if (tid =? tid_before) && (cr3 =? cr3_before) then
    r ← copy_to_user arg kbuf n;
    let ret := if negb (r =? 0) && (ret =? 0) then E_FAULT else ret in
    (if kmalloc_buf then hzoom (kfree kbuf) else mret tt);;
    mret ret
  else mret ret.

Definition call_from_ring3 (sc : syscall) (arg size : Z) : M sys Z :=
  let n := if size <? max_param_size sc then size else max_param_size sc in
  let buf_size := if max_param_size sc =? 0 then 1 else max_param_size sc in
  let kmalloc_buf := SYSCALL_KBUF_MAX <? buf_size in
  kbuf ← (if kmalloc_buf then hzoom (kmalloc buf_size) else mret syscall_kbuf);
  if kbuf =? 0 then mret E_NOMEM else
  memset kbuf 0 buf_size;;
  r ← copy_from_user kbuf arg n;
  if negb (r =? 0) then
    (if kmalloc_buf then hzoom (kfree kbuf) else mret tt);;
    mret E_FAULT
  else
    tid_before ← gets y_tid;
    cr3_before ← gzoom arch_get_cr3;
    ret ← handlers (sc_fn sc) kbuf;
    deliver arg kbuf n kmalloc_buf tid_before cr3_before ret.

(** [(u32)sc->handle != handle]: a registered number is not negative. *)
Definition syscall_dispatch (handle arg size : Z) : M sys Z :=
  lzoom (spinlock_lock syscall_lock);;
  l ← gets syscall_header;
  lzoom (spinlock_unlock syscall_lock);;
  match List.find (λ e, u32 (sc_handle e.2) =? handle) l with
  | None => mret E_NOTFOUND
  | Some (_, sc) =>
      ring3 ← gate_caller_ring3;
      if ring3 : bool then call_from_ring3 sc arg size else handlers (sc_fn sc) arg
  end.

(** ** Lemmas: memory *)

(** Both locks are free and CR3 holds the address of a directory. *)
Definition ready (s : sys) : Prop :=
  (y_irq s).2 !! 0%nat = Some LOCK_UNLOCKED ∧ (y_irq s).2 !! 1%nat = Some LOCK_UNLOCKED ∧
  is_u32 (g_cr3 (y_pg s)) ∧ g_cr3 (y_pg s) mod 4096 = 0.

(** [m] bytes at [k] in the identity map of the kernel. *)
Definition buffer (s : sys) (k m : Z) : Prop :=
  0 < k ∧ ∀ i, 0 <= i < m → phys s (k + i) = Some (k + i).

(** Ring 3 may read (write) [n] bytes at [va]. *)
Definition may (s : sys) (w : bool) (va n : Z) : Prop :=
  n = 0 ∨ (va + n <= USER_SPACE_TOP ∧
           ∀ a, va <= a < va + n → permits (y_pg s) (g_cr3 (y_pg s)) w a = true).

(** None of the [n] bytes at [va] lies in the buffer. *)
Definition clear_of (s : sys) (va n k m : Z) : Prop :=
  ∀ i p, 0 <= i < n → phys s (va + i) = Some p → ¬ (k <= p < k + m).

Lemma may_phys s w va n i : may s w va n → 0 <= i < n → ∃ p, phys s (va + i) = Some p.
Proof.
  intros [->|[_ H]] Hi; [lia|]. specialize (H (va + i) ltac:(lia)). unfold permits in H. unfold phys.
  destruct (translate _ _ _) as [x|]; [|done]. by exists (x_pa x).
Qed.

Lemma memset_loop_run n i k c s :
  (∀ j, i <= j < i + Z.of_nat n → phys s (k + j) = Some (k + j)) →
  ∃ r, memset_loop n i k c s = Ret tt (set_ram r s) ∧
    ∀ a, r a = if (k + i <=? a) && (a <? k + i + Z.of_nat n) then u8 c else y_ram s a.
Proof.
  revert i s. induction n as [|n IH]; intros i s H; cbn [memset_loop].
  - exists (y_ram s). split; [by destruct s|]. intros a. rewrite (proj2 (andb_false_iff _ _)); [done|].
    rewrite Z.leb_gt, Z.ltb_ge. lia.
  - erewrite bind_Ret by (unfold poke; rewrite H by lia; reflexivity).
    destruct (IH (i + 1) (set_ram (store (k + i) (u8 c) (y_ram s)) s)) as (r & -> & Hr).
    { intros j Hj. apply (H j). lia. }
    exists r. split; [done|]. intros a. rewrite Hr. cbn [y_ram set_ram]. unfold store.
    replace (k + (i + 1) + Z.of_nat n) with (k + i + Z.of_nat (S n)) by lia.
    destruct (Z.eqb_spec a (k + i)) as [->|]; [by repeat zcase; try lia|].
    by repeat zcase; try lia.
Qed.

Lemma memset_run k c m s :
  buffer s k m → 0 <= m →
  ∃ r, memset k c m s = Ret tt (set_ram r s) ∧
    ∀ a, r a = if (k <=? a) && (a <? k + m) then u8 c else y_ram s a.
Proof.
  intros [_ H] Hm. destruct (memset_loop_run (Z.to_nat m) 0 k c s) as (r & E & Hr).
  { intros j Hj. apply H. lia. }
  exists r. split; [done|]. intros a. rewrite Hr. by rewrite Z.add_0_r, Z2Nat.id by lia.
Qed.

Lemma memcpy_loop_run n i dst src D F s :
  (∀ j, i <= j < i + Z.of_nat n → phys s (dst + j) = Some (D j) ∧ phys s (src + j) = Some (F j)) →
  (∀ j j', i <= j < i + Z.of_nat n → i <= j' < i + Z.of_nat n → D j ≠ F j') →
  (∀ j j', i <= j < i + Z.of_nat n → i <= j' < i + Z.of_nat n → D j = D j' → j = j') →
  ∃ r, memcpy_loop n i dst src s = Ret tt (set_ram r s) ∧
    (∀ j, i <= j < i + Z.of_nat n → r (D j) = y_ram s (F j)) ∧
    (∀ a, (∀ j, i <= j < i + Z.of_nat n → a ≠ D j) → r a = y_ram s a).
Proof.
  revert i s. induction n as [|n IH]; intros i s H Hap Hinj; cbn [memcpy_loop].
  - exists (y_ram s). split; [by destruct s|]. split; [lia|done].
  - destruct (H i) as [HD HF]; [lia|].
    erewrite bind_Ret by (unfold load; rewrite HF; reflexivity).
    erewrite bind_Ret by (unfold poke; rewrite HD; reflexivity).
    destruct (IH (i + 1) (set_ram (store (D i) (y_ram s (F i)) (y_ram s)) s)) as (r & -> & Hr & Hf).
    { intros j Hj. apply (H j). lia. }
    { intros j j' Hj Hj'. apply Hap; lia. }
    { intros j j' Hj Hj'. apply Hinj; lia. }
    exists r. split; [done|]. cbn [y_ram set_ram] in Hr, Hf. unfold store in Hr, Hf. split.
    + intros j Hj. destruct (Z.eq_dec j i) as [->|].
      * rewrite Hf; [by rewrite Z.eqb_refl|]. intros j Hj' E. apply Hinj in E; lia.
      * rewrite Hr by lia. destruct (Z.eqb_spec (F j) (D i)) as [E|]; [|done].
        symmetry in E. apply Hap in E; [done|lia..].
    + intros a Ha. rewrite Hf by (intros j Hj; apply Ha; lia).
      destruct (Z.eqb_spec a (D i)) as [E|]; [|done]. exfalso. by apply (Ha i); [lia|].
Qed.

(** ** Lemmas: the section of a copy *)

(** The bracket of both copies: validation and copy under [copy_lock] with
    interrupts off. *)
Lemma copy_section s w va n (m : M sys unit) :
  ready s → is_u32 va → is_u32 n →
  (may s w va n → ∃ r, m (set_irq (irq_locked 1 (y_irq s)) s) = Ret tt (set_ram r (set_irq (irq_locked 1 (y_irq s)) s))) →
  (may s w va n ∧ ∃ r, m (set_irq (irq_locked 1 (y_irq s)) s) = Ret tt (set_ram r (set_irq (irq_locked 1 (y_irq s)) s)) ∧
     (eflags ← izoom (spinlock_lock_irqsave copy_lock);
      ok ← gzoom (arch_validate_user_range va n w);
      (if negb (ok =? 0) then m else mret tt);;
      izoom (spinlock_unlock_irqrestore copy_lock eflags);;
      mret (if negb (ok =? 0) then 0 else E_FAULT)) s = Ret 0 (set_ram r s)) ∨
  (¬ may s w va n ∧
     (eflags ← izoom (spinlock_lock_irqsave copy_lock);
      ok ← gzoom (arch_validate_user_range va n w);
      (if negb (ok =? 0) then m else mret tt);;
      izoom (spinlock_unlock_irqrestore copy_lock eflags);;
      mret (if negb (ok =? 0) then 0 else E_FAULT)) s = Ret E_FAULT s).
Proof.
  intros Hr Hva Hn Hm. pose proof Hr as (L0 & L1 & Hc & Hal). set (s1 := set_irq (irq_locked 1 (y_irq s)) s).
  assert (E1 : izoom (spinlock_lock_irqsave copy_lock) s = Ret (eflags (y_irq s).1) s1)
    by (exact (@lock_irqsave_free sys sys_irq 1 s L1)).
  assert (E2 : ∀ r, izoom (spinlock_unlock_irqrestore copy_lock (eflags (y_irq s).1)) (set_ram r s1)
               = Ret tt (set_ram r s)).
  { intros r. etrans; [exact (@unlock_irqrestore_held sys sys_irq 1 s (set_ram r s1) L1 eq_refl)|].
    by destruct s. }
  destruct (arch_validate_user_range_run (y_pg s) va n w Hva Hn Hc Hal) as (ok & E & Hok & Hiff).
  assert (E3 : gzoom (arch_validate_user_range va n w) s1 = Ret ok s1) by (exact (zoom_Ret _ s1 _ _ E)).
  rewrite !(bind_Ret _ _ _ _ _ E1), !(bind_Ret _ _ _ _ _ E3). destruct Hok as [->| ->]; cbn [negb Z.eqb].
  - right. split; [intros H%Hiff; done|]. rewrite bind_ret.
    specialize (E2 (y_ram s)). replace (set_ram (y_ram s) s1) with s1 in E2 by (by destruct s).
    rewrite (bind_Ret _ _ _ _ _ E2). by destruct s.
  - left. destruct (Hm (proj1 Hiff eq_refl)) as (r & Er). split; [by apply Hiff|]. exists r. split; [done|].
    by rewrite (bind_Ret _ _ _ _ _ Er), (bind_Ret _ _ _ _ _ (E2 r)).
Qed.

Lemma set_ram_inj r r' s : @Ret sys unit tt (set_ram r s) = Ret tt (set_ram r' s) → r = r'.
Proof. intros E. injection E. done. Qed.

Lemma copy_from_user_run s dst src n m :
  ready s → is_u32 src → is_u32 n → n <= m → src ≠ 0 → buffer s dst m → clear_of s src n dst m →
  (may s false src n ∧ ∃ r, copy_from_user dst src n s = Ret 0 (set_ram r s) ∧
     (∀ i p, 0 <= i < n → phys s (src + i) = Some p → r (dst + i) = y_ram s p) ∧
     (∀ a, ¬ (dst <= a < dst + n) → r a = y_ram s a)) ∨
  (¬ may s false src n ∧ copy_from_user dst src n s = Ret E_FAULT s).
Proof.
  intros Hr Hs Hn Hm H0 [Hd Hbuf] Hclr. unfold copy_from_user.
  rewrite (proj2 (Z.eqb_neq dst 0)), (proj2 (Z.eqb_neq src 0)) by lia. cbn [orb].
  set (F := λ j, default 0 (phys s (src + j))).
  assert (Hcopy : may s false src n → ∃ r,
    memcpy dst src n (set_irq (irq_locked 1 (y_irq s)) s) = Ret tt (set_ram r (set_irq (irq_locked 1 (y_irq s)) s)) ∧
     (∀ i p, 0 <= i < n → phys s (src + i) = Some p → r (dst + i) = y_ram s p) ∧
     (∀ a, ¬ (dst <= a < dst + n) → r a = y_ram s a)).
  { intros Hmay. unfold is_u32 in Hn.
    destruct (memcpy_loop_run (Z.to_nat n) 0 dst src (λ j, dst + j) F (set_irq (irq_locked 1 (y_irq s)) s))
      as (r & E & Hc & Hf).
    - intros j Hj. split; [apply Hbuf; lia|]. destruct (may_phys s false src n j Hmay) as [p Hp]; [lia|].
      unfold F. rewrite Hp. exact Hp.
    - intros j j' Hj Hj' E. destruct (may_phys s false src n j' Hmay) as [p Hp]; [lia|].
      unfold F in E. rewrite Hp in E. apply (Hclr j' p); [lia|done|simpl in E; lia].
    - lia.
    - exists r. split_and!; [done| |].
      + intros i p Hi Hp. rewrite Hc by lia. unfold F. by rewrite Hp.
      + intros a Ha. apply Hf. lia. }
  destruct (copy_section s false src n (memcpy dst src n) Hr Hs Hn) as [(Hmay & r & E1 & E2)|[Hno E]].
  - intros Hmay. destruct (Hcopy Hmay) as (r & E & _). by exists r.
  - left. split; [done|]. exists r. destruct (Hcopy Hmay) as (r' & E & Hc). rewrite E1 in E.
    apply set_ram_inj in E as ->. done.
  - by right.
Qed.

(** Distinct bytes of the range lie at distinct physical addresses. *)
Definition unshared (s : sys) (va n : Z) : Prop :=
  ∀ i j p, 0 <= i < n → 0 <= j < n → phys s (va + i) = Some p → phys s (va + j) = Some p → i = j.

Lemma copy_to_user_run s dst src n m :
  ready s → is_u32 dst → is_u32 n → n <= m → dst ≠ 0 → buffer s src m → clear_of s dst n src m →
  unshared s dst n →
  (may s true dst n ∧ ∃ r, copy_to_user dst src n s = Ret 0 (set_ram r s) ∧
     (∀ i p, 0 <= i < n → phys s (dst + i) = Some p → r p = y_ram s (src + i)) ∧
     (∀ a, (∀ i, 0 <= i < n → phys s (dst + i) ≠ Some a) → r a = y_ram s a)) ∨
  (¬ may s true dst n ∧ copy_to_user dst src n s = Ret E_FAULT s).
Proof.
  intros Hr Hs Hn Hm H0 [Hd Hbuf] Hclr Hun. unfold copy_to_user.
  rewrite (proj2 (Z.eqb_neq dst 0)), (proj2 (Z.eqb_neq src 0)) by lia. cbn [orb].
  set (D := λ j, default 0 (phys s (dst + j))).
  assert (Hcopy : may s true dst n → ∃ r,
    memcpy dst src n (set_irq (irq_locked 1 (y_irq s)) s) = Ret tt (set_ram r (set_irq (irq_locked 1 (y_irq s)) s)) ∧
     (∀ i p, 0 <= i < n → phys s (dst + i) = Some p → r p = y_ram s (src + i)) ∧
     (∀ a, (∀ i, 0 <= i < n → phys s (dst + i) ≠ Some a) → r a = y_ram s a)).
  { intros Hmay. unfold is_u32 in Hn.
    assert (HD : ∀ j, 0 <= j < n → phys s (dst + j) = Some (D j)).
    { intros j Hj. destruct (may_phys s true dst n j Hmay Hj) as [p Hp]. unfold D. by rewrite Hp. }
    destruct (memcpy_loop_run (Z.to_nat n) 0 dst src D (λ j, src + j) (set_irq (irq_locked 1 (y_irq s)) s))
      as (r & E & Hc & Hf).
    - intros j Hj. split; [apply HD; lia|apply Hbuf; lia].
    - intros j j' Hj Hj' E. apply (Hclr j (D j)); [lia|apply HD; lia|lia].
    - intros j j' Hj Hj' E. apply (Hun j j' (D j)); [lia|lia|apply HD; lia|rewrite E; apply HD; lia].
    - exists r. split_and!; [done| |].
      + intros i p Hi Hp. rewrite HD in Hp by lia. injection Hp as <-. apply Hc. lia.
      + intros a Ha. apply Hf. intros j Hj ->. apply (Ha j); [lia|apply HD; lia]. }
  destruct (copy_section s true dst n (memcpy dst src n) Hr Hs Hn) as [(Hmay & r & E1 & E2)|[Hno E]].
  - intros Hmay. destruct (Hcopy Hmay) as (r & E & _). by exists r.
  - left. split; [done|]. exists r. destruct (Hcopy Hmay) as (r' & E & Hc). rewrite E1 in E.
    apply set_ram_inj in E as ->. done.
  - by right.
Qed.

(** ** Dispatch *)

Definition copied (sc : syscall) (size : Z) : Z :=
  if size <? max_param_size sc then size else max_param_size sc.
Definition buf_len (sc : syscall) : Z := if max_param_size sc =? 0 then 1 else max_param_size sc.

(** [syscall_lock] held, and given back. *)
Definition locked (s : sys) : sys := set_irq ((y_irq s).1, <[0%nat := LOCK_LOCKED]> (y_irq s).2) s.

Lemma lock_sys s :
  (y_irq s).2 !! 0%nat = Some LOCK_UNLOCKED → lzoom (spinlock_lock syscall_lock) s = Ret 0 (locked s).
Proof. intros L0. exact (@zoom_Ret sys lock_table irq_locks _ _ s _ _ (spinlock_lock_free _ 0 _ L0 ltac:(done))). Qed.

Lemma unlock_sys s s1 :
  (y_irq s).2 !! 0%nat = Some LOCK_UNLOCKED → y_irq s1 = y_irq (locked s) →
  lzoom (spinlock_unlock syscall_lock) s1 = Ret 0 (set_irq (y_irq s) s1).
Proof.
  intros L0 E. pose proof (lookup_lt_Some _ _ _ L0). unfold lzoom, syscall_lock.
  erewrite zoom_Ret; [|apply spinlock_unlock_eq; cbn; rewrite E; cbn; by rewrite length_insert].
  cbn. rewrite E. cbn. rewrite list_insert_insert_eq, list_insert_id by done. by destruct (y_irq s).
Qed.

Lemma dispatch_ring3 s h arg size e sc cs :
  ready s → List.find (λ e, u32 (sc_handle e.2) =? h) (syscall_header s) = Some (e, sc) →
  y_cs s = Some cs → Z.land cs 3 = 3 →
  syscall_dispatch h arg size s = call_from_ring3 sc arg size s.
Proof.
  intros (L0 & _) Hf Hcs H3. unfold syscall_dispatch.
  rewrite (bind_Ret _ _ _ _ _ (lock_sys s L0)). erewrite bind_Ret; [|reflexivity].
  rewrite (bind_Ret _ _ _ _ _ (unlock_sys s (locked s) L0 eq_refl)).
  change (syscall_header (locked s)) with (syscall_header s). rewrite Hf.
  unfold gate_caller_ring3. erewrite bind_Ret; [|reflexivity]. cbn [y_cs set_irq locked].
  rewrite Hcs, H3. cbn [Z.eqb Pos.eqb]. by destruct s.
Qed.

(** C16: A call from ring 3 through a handler whose parameters fit the static
    buffer.  The handler runs on the kernel's buffer, in a state that differs
    from the caller's only there: the buffer holds the first
    [min(size, max_param_size)] bytes of the caller's structure and zeros after
    them.  When the pointer is null or ring 3 may not read one of those bytes,
    the answer is E_FAULT, the handler does not run and nothing outside the
    buffer changes.  No branch faults on the caller's pointer. *)
Theorem ring3_handler_sees_a_copy s h arg size e sc cs :
  ready s → List.find (λ e, u32 (sc_handle e.2) =? h) (syscall_header s) = Some (e, sc) →
  y_cs s = Some cs → Z.land cs 3 = 3 → is_u32 arg → is_u32 size →
  0 <= max_param_size sc <= SYSCALL_KBUF_MAX →
  buffer s syscall_kbuf (buf_len sc) → clear_of s arg (copied sc size) syscall_kbuf (buf_len sc) →
  ∃ r, (∀ a, ¬ (syscall_kbuf <= a < syscall_kbuf + buf_len sc) → r a = y_ram s a) ∧
    ((arg = 0 ∨ ¬ may s false arg (copied sc size)) ∧ syscall_dispatch h arg size s = Ret E_FAULT (set_ram r s) ∨
     (arg ≠ 0 ∧ may s false arg (copied sc size)) ∧
     (∀ i, 0 <= i < buf_len sc →
        Some (r (syscall_kbuf + i)) = if i <? copied sc size then y_ram s <$> phys s (arg + i) else Some 0) ∧
     syscall_dispatch h arg size s =
       (ret ← handlers (sc_fn sc) syscall_kbuf;
        deliver arg syscall_kbuf (copied sc size) false (y_tid s) (g_cr3 (y_pg s)) ret) (set_ram r s)).
Proof.
  intros Hr Hf Hcs H3 Harg Hsz Hmax Hbuf Hclr. rewrite (dispatch_ring3 _ _ _ _ _ _ _ Hr Hf Hcs H3).
  unfold call_from_ring3. fold (copied sc size) (buf_len sc). unfold SYSCALL_KBUF_MAX in *.
  assert (Hlen : 0 < buf_len sc <= 512 ∧ 0 <= copied sc size <= buf_len sc).
  { unfold buf_len, copied, is_u32 in *. repeat zcase; lia. }
  rewrite (proj2 (Z.ltb_ge 512 (buf_len sc))) by lia. rewrite bind_ret.
  rewrite (proj2 (Z.eqb_neq syscall_kbuf 0)) by (destruct Hbuf; lia).
  destruct (memset_run syscall_kbuf 0 (buf_len sc) s Hbuf) as (r0 & E0 & Hr0); [lia|].
  rewrite (bind_Ret _ _ _ _ _ E0).
  assert (Hout : ∀ a, ¬ (syscall_kbuf <= a < syscall_kbuf + buf_len sc) → r0 a = y_ram s a).
  { intros a Ha. rewrite Hr0. by repeat zcase; try lia. }
  destruct (Z.eq_dec arg 0) as [->|H0].
  { exists r0. split; [done|]. left. split; [by left|]. unfold copy_from_user.
    by rewrite Z.eqb_refl, orb_true_r. }
  destruct (copy_from_user_run (set_ram r0 s) syscall_kbuf arg (copied sc size) (buf_len sc))
    as [(Hmay & r & E & Hc & Hfr)|[Hno E]]; [done|done|split; lia|lia|done|done|done| |].
  - exists r. cbn [y_ram set_ram] in Hc, Hfr. split; [intros a Ha; rewrite Hfr by lia; by apply Hout|].
    right. split; [done|]. split; [|by rewrite (bind_Ret _ _ _ _ _ E)].
    intros i Hi. destruct (Z.ltb_spec i (copied sc size)).
    + destruct (may_phys _ _ _ _ i Hmay) as [p Hp]; [lia|]. rewrite (Hc i p) by (done || lia).
      change (phys s (arg + i) = Some p) in Hp. rewrite Hp. cbn. f_equal. apply Hout. apply (Hclr i p); [lia|done].
    + rewrite Hfr, Hr0 by lia. f_equal. by repeat zcase; try lia.
  - exists r0. split; [done|]. left. split; [by right|]. by rewrite (bind_Ret _ _ _ _ _ E).
Qed.

(** C17: After the handler, its answer reaches the caller and the first [n]
    bytes of the buffer are written to the caller's structure and nowhere else;
    a structure ring 3 may not write is left alone and turns a success into
    E_FAULT; and when the handler switched to another thread or another
    directory, nothing at all is written. *)
Theorem write_back_only_to_the_caller s arg n m tid cr3 ret :
  ready s → is_u32 arg → arg ≠ 0 → is_u32 n → n <= m → buffer s syscall_kbuf m →
  clear_of s arg n syscall_kbuf m → unshared s arg n →
  ((y_tid s ≠ tid ∨ g_cr3 (y_pg s) ≠ cr3) ∧ deliver arg syscall_kbuf n false tid cr3 ret s = Ret ret s) ∨
  (y_tid s = tid ∧ g_cr3 (y_pg s) = cr3 ∧
   ((¬ may s true arg n ∧
     deliver arg syscall_kbuf n false tid cr3 ret s = Ret (if ret =? 0 then E_FAULT else ret) s) ∨
    (may s true arg n ∧ ∃ r, deliver arg syscall_kbuf n false tid cr3 ret s = Ret ret (set_ram r s) ∧
     (∀ i, 0 <= i < n → r <$> phys s (arg + i) = Some (y_ram s (syscall_kbuf + i))) ∧
     (∀ a, (∀ i, 0 <= i < n → phys s (arg + i) ≠ Some a) → r a = y_ram s a)))).
Proof.
  intros Hr Harg H0 Hn Hm Hbuf Hclr Hun. unfold deliver.
  erewrite bind_Ret; [|reflexivity].
  assert (E : gzoom arch_get_cr3 s = Ret (g_cr3 (y_pg s)) s) by (by destruct s).
  rewrite (bind_Ret _ _ _ _ _ E).
  destruct (Z.eqb_spec (y_tid s) tid) as [Ht|Ht]; [|by left; split; [left|]].
  destruct (Z.eqb_spec (g_cr3 (y_pg s)) cr3) as [Hc|Hc]; [|by left; split; [right|]]. cbn [andb].
  right. split; [done|]. split; [done|].
  destruct (copy_to_user_run s arg syscall_kbuf n m) as [(Hmay & r & E1 & Hw & Hf)|[Hno E1]]; try done.
  - right. split; [done|]. exists r. rewrite (bind_Ret _ _ _ _ _ E1). split_and!; [done| |done].
    intros i Hi. destruct (may_phys _ _ _ _ i Hmay Hi) as [p Hp]. rewrite Hp. cbn. f_equal. by apply Hw.
  - left. split; [done|]. rewrite (bind_Ret _ _ _ _ _ E1). done.
Qed.

(** ** The table *)

Lemma find_call_fresh p num fn max l :
  find_call num ((p, mk_syscall num fn max) :: l) = Some (p, mk_syscall num fn max).
Proof. unfold find_call. cbn. by rewrite Z.eqb_refl. Qed.

Lemma sys_heap_run {B} (m : M A B) s b a : m (y_heap s) = Ret b a → hzoom m s = Ret b (set_heap a s).
Proof. exact (zoom_Ret (A:=A) m s b a). Qed.

Lemma unregister_head s L p num fn max l :
  (y_irq s).2 !! 0%nat = Some LOCK_UNLOCKED → 0 <= num → syscall_header s = (p, mk_syscall num fn max) :: l →
  owns (y_heap s) L → p ∈ L →
  ∃ a, syscall_unregister num s = Ret 0 (set_heap a (set_calls l s)) ∧ owns a (L ∖ {[p]}).
Proof.
  clear handlers syscall_kbuf. intros L0 Hnum Hl Ho Hp. destruct (kfree_ok _ _ _ Ho Hp) as (a & E & Ho'). exists a. split; [|done].
  unfold syscall_unregister. rewrite (proj2 (Z.ltb_ge num 0)) by done.
  rewrite (bind_Ret _ _ _ _ _ (lock_sys s L0)). erewrite bind_Ret; [|reflexivity].
  change (syscall_header (locked s)) with (syscall_header s). rewrite Hl, find_call_fresh.
  erewrite bind_Ret; [|reflexivity].
  erewrite bind_Ret; [|apply sys_heap_run; exact E].
  erewrite bind_Ret; [|by apply (unlock_sys s)].
  cbn [syscall_header locked set_irq]. rewrite Hl. cbn [unlink_call snd sc_handle]. rewrite Z.eqb_refl. by destruct s.
Qed.

(** Registering a number either fails and leaves the table and the heap's
    contents as they were (E_NOMEM, or E_EXISTS exactly when the number is
    taken), or puts a fresh entry first, under which the number is then found;
    unregistering it gives the table and the heap back. *)
Theorem syscall_register_roundtrip s L num fn max :
  (y_irq s).2 !! 0%nat = Some LOCK_UNLOCKED → owns (y_heap s) L → fn ≠ 0 → 0 <= num →
  ∃ r s1, syscall_register num fn max s = Ret r s1 ∧ y_irq s1 = y_irq s ∧
    (syscall_header s1 = syscall_header s ∧ owns (y_heap s1) L ∧
       (r = E_NOMEM ∨ r = E_EXISTS ∧ is_Some (find_call num (syscall_header s))) ∨
     r = num ∧ find_call num (syscall_header s) = None ∧
     ∃ p, p ∉ L ∧ owns (y_heap s1) ({[p]} ∪ L) ∧
       find_call num (syscall_header s1) = Some (p, mk_syscall num fn max) ∧
       (∀ h, h ≠ num → find_call h (syscall_header s1) = find_call h (syscall_header s)) ∧
       ∃ s2, syscall_unregister num s1 = Ret 0 s2 ∧ syscall_header s2 = syscall_header s ∧
         owns (y_heap s2) L ∧ y_irq s2 = y_irq s).
Proof.
  clear handlers syscall_kbuf. intros L0 Ho Hfn Hnum. unfold syscall_register.
  rewrite (proj2 (Z.eqb_neq fn 0)), (proj2 (Z.ltb_ge num 0)) by done. cbn [orb].
  destruct (kmalloc_ok _ _ sizeof_syscall Ho ltac:(done)) as [(a & E & Ho1)|(p & a & E & Hp & Hfr & Ho1)].
  { erewrite bind_Ret; [|apply sys_heap_run; exact E]. exists E_NOMEM, (set_heap a s). split_and!; [done..|].
    left. split_and!; [done..|by left]. }
  erewrite bind_Ret; [|apply sys_heap_run; exact E]. rewrite (proj2 (Z.eqb_neq p 0)) by lia.
  rewrite (bind_Ret _ _ _ _ _ (lock_sys (set_heap a s) L0)). erewrite bind_Ret; [|reflexivity].
  change (syscall_header (locked (set_heap a s))) with (syscall_header s).
  destruct (find_call num (syscall_header s)) as [e|] eqn:Hf.
  - erewrite bind_Ret; [|by apply (unlock_sys (set_heap a s))].
    destruct (kfree_ok a _ p Ho1) as (a2 & E2 & Ho2); [set_solver|].
    erewrite bind_Ret; [|apply sys_heap_run; exact E2].
    eexists _, _. split; [reflexivity|]. split; [done|]. left. split; [done|].
    split; [by replace L with (({[p]} ∪ L) ∖ {[p]}) by set_solver|right; by split].
  - erewrite bind_Ret; [|reflexivity]. erewrite bind_Ret; [|by apply (unlock_sys (set_heap a s))].
    eexists _, _. split; [reflexivity|]. split; [done|]. right. split_and!; [done|done|].
    exists p. split_and!; [done|done|apply find_call_fresh| |].
    + intros h Hh. unfold find_call. cbn. by rewrite (proj2 (Z.eqb_neq num h)) by congruence.
    + match goal with |- ∃ s2, syscall_unregister _ ?s1 = _ ∧ _ =>
        destruct (unregister_head s1 ({[p]} ∪ L) p num fn max (syscall_header s)) as (a2 & E2 & Ho2) end;
        [exact L0|exact Hnum|reflexivity|exact Ho1|set_solver|].
      rewrite E2. eexists. split; [reflexivity|]. split_and!; [done| |done].
      cbn. by replace L with (({[p]} ∪ L) ∖ {[p]}) by set_solver.
Qed.
End syscalls.

(** ** A concrete call

    The buffer lies at 1 MB, the caller's 8 bytes across two pages at 16 MB;
    the one handler takes 12 bytes and increments the first. *)
Definition bump (fn k : Z) : M (sys (A := gset Z)) Z := b ← load k; poke k (b + 1);; mret 0.
Definition demo_call : syscall := mk_syscall 3 1 12.
Definition demo_sys : sys (A := gset Z) :=
  mk_sys [(4096, demo_call)] (mk_cpu 512 false, [LOCK_UNLOCKED; LOCK_UNLOCKED]) {[4096]} user_pg
    (λ a, a mod 256) 7 (Some 27).

Lemma demo_ready : ready demo_sys.
Proof. split_and!; [done|done|split; simpl; lia|done]. Qed.

Lemma demo_kernel_phys va : 0 <= va < 4194304 → phys demo_sys va = Some va.
Proof.
  intros H. unfold phys, translate. rewrite PD_INDEX_div by (unfold is_u32; lia). rewrite Z.div_small by lia.
  cbn -[Z.modulo]. by rewrite Z.mod_small by lia.
Qed.

Lemma demo_user va : 16777216 <= va < 20971520 →
  translate user_pg 1056768 va = Some (mk_xlat va true true).
Proof.
  intros H. unfold translate. rewrite PD_INDEX_div by (unfold is_u32; lia).
  replace (va / 4194304) with 4 by (apply Z.div_unique with (va - 16777216); lia).
  replace (va mod 4194304) with (va - 16777216) by (apply Z.mod_unique with 4; lia).
  change (g_mem user_pg (slot 1056768 4)) with
    (mk_entry true true true false false false false true false 0 4096).
  cbn [negb present page_size user rw paddr]. f_equal. f_equal. change (4096 / 1024 * 4194304) with 16777216. lia.
Qed.

Lemma demo_buffer : buffer demo_sys 1048576 12.
Proof. split; [lia|]. intros i Hi. apply demo_kernel_phys. lia. Qed.

Lemma demo_clear : clear_of demo_sys 16781308 8 1048576 12.
Proof.
  intros i p Hi Hp. unfold phys in Hp. cbn -[translate Z.add] in Hp. rewrite demo_user in Hp by lia.
  injection Hp as <-. lia.
Qed.

Lemma demo_unshared : unshared demo_sys 16781308 8.
Proof.
  intros i j p Hi Hj Hp Hq. unfold phys in Hp, Hq. cbn -[translate Z.add] in Hp, Hq.
  rewrite demo_user in Hp, Hq by lia. injection Hp as <-. injection Hq as Hq. lia.
Qed.

Lemma ring3_handler_sees_a_copy_witness :
  ∃ r, (∀ a, ¬ (1048576 <= a < 1048576 + 12) → r a = y_ram demo_sys a) ∧
    ((16781308 = 0 ∨ ¬ may demo_sys false 16781308 8) ∧
       syscall_dispatch 1048576 bump 3 16781308 8 demo_sys = Ret E_FAULT (set_ram r demo_sys) ∨
     (16781308 ≠ 0 ∧ may demo_sys false 16781308 8) ∧
     (∀ i, 0 <= i < 12 →
        Some (r (1048576 + i)) = if i <? 8 then y_ram demo_sys <$> phys demo_sys (16781308 + i) else Some 0) ∧
     syscall_dispatch 1048576 bump 3 16781308 8 demo_sys =
       (ret ← bump 1 1048576; deliver 16781308 1048576 8 false 7 1056768 ret) (set_ram r demo_sys)).
Proof.
  apply (ring3_handler_sees_a_copy 1048576 bump demo_sys 3 16781308 8 4096 demo_call 27);
    [exact demo_ready|reflexivity|reflexivity|reflexivity|split; lia|split; lia
    |unfold SYSCALL_KBUF_MAX; simpl; lia|exact demo_buffer|exact demo_clear].
Defined.

Lemma write_back_only_to_the_caller_witness :
  ((7 ≠ 7 ∨ 1056768 ≠ 1056768) ∧ deliver 16781308 1048576 8 false 7 1056768 0 demo_sys = Ret 0 demo_sys) ∨
  (7 = 7 ∧ 1056768 = 1056768 ∧
   ((¬ may demo_sys true 16781308 8 ∧
     deliver 16781308 1048576 8 false 7 1056768 0 demo_sys = Ret E_FAULT demo_sys) ∨
    (may demo_sys true 16781308 8 ∧ ∃ r,
     deliver 16781308 1048576 8 false 7 1056768 0 demo_sys = Ret 0 (set_ram r demo_sys) ∧
     (∀ i, 0 <= i < 8 → r <$> phys demo_sys (16781308 + i) = Some (y_ram demo_sys (1048576 + i))) ∧
     (∀ a, (∀ i, 0 <= i < 8 → phys demo_sys (16781308 + i) ≠ Some a) → r a = y_ram demo_sys a)))).
Proof.
  apply (write_back_only_to_the_caller 1048576 demo_sys 16781308 8 12 7 1056768 0);
    [exact demo_ready|split; lia|lia|split; lia|lia|exact demo_buffer|exact demo_clear|exact demo_unshared].
Defined.

Lemma syscall_register_roundtrip_witness :
  ∃ r s1, syscall_register 5 9 16 demo_sys = Ret r s1 ∧ y_irq s1 = y_irq demo_sys ∧
    (syscall_header s1 = syscall_header demo_sys ∧ owns (y_heap s1) {[4096]} ∧
       (r = E_NOMEM ∨ r = E_EXISTS ∧ is_Some (find_call 5 (syscall_header demo_sys))) ∨
     r = 5 ∧ find_call 5 (syscall_header demo_sys) = None ∧
     ∃ p, p ∉ ({[4096]} : gset Z) ∧ owns (y_heap s1) ({[p]} ∪ {[4096]}) ∧
       find_call 5 (syscall_header s1) = Some (p, mk_syscall 5 9 16) ∧
       (∀ h, h ≠ 5 → find_call h (syscall_header s1) = find_call h (syscall_header demo_sys)) ∧
       ∃ s2, syscall_unregister 5 s1 = Ret 0 s2 ∧ syscall_header s2 = syscall_header demo_sys ∧
         owns (y_heap s2) {[4096]} ∧ y_irq s2 = y_irq demo_sys).
Proof.
  apply (syscall_register_roundtrip demo_sys {[4096]} 5 9 16);
    [reflexivity|split; [reflexivity|apply (bool_decide_unpack _); vm_compute; exact I]|lia|lia].
Defined.

(** The whole call: the caller's first byte is incremented, its second is as it was. *)
Example demo_dispatch :
  match syscall_dispatch 1048576 bump 3 16781308 8 demo_sys with
  | Ret r s => r = 0 ∧ y_ram s 16781308 = 16781308 mod 256 + 1 ∧ y_ram s 16781309 = 16781309 mod 256
  | _ => False
  end.
Proof. vm_compute. done. Qed.
