(* ===== verification/Vmm.v ===== *)
(** * Virtual memory of a process (kernel/mm/vmm.c, include/mm/vmm.h)

    A [vmm_control_block] is a red-black tree of regions ordered by their
    first address, a page directory and a lock; it lies inside the process's
    control block and is addressed by it.  The state holds the control blocks
    and the regions by address, the kernel heap they come from, the frame
    allocator of pmm.c and the paging structures of paging.c.  Each of these
    sees its own slots of the static lock table.  The answers of [cap_check]
    (Capability.v) are an argument of the functions that ask for them. *)

From stdpp Require Import base tactics list gmap.
From Stdlib Require Import ZArith Lia.
From S2P Require Import Prelude Spinlock Allocator RbTree RbDelete RbOrder Pmm Paging PageSpaces PageRuns.

Open Scope Z_scope.

(** ** include/mm/vmm.h *)

(** [node] is the first field: a region and its node have one address. *)
Record vmm_region := mk_region {
  start_va : Z; rg_size : Z; rg_flags : Z; rg_pa : Z; own_phys : Z }.

Record vmm_control_block := mk_vcb {
  v_tree : Z; v_rb : rbtree; v_cr3 : Z; v_lock : option nat }.

Definition sizeof_vmm_region : Z := 36.

(** An error code as a pointer, and the test of such a pointer. *)
Definition VMM_ERR_PTR (err : Z) : Z := u32 err.
Definition VMM_PTR_ERR (p : Z) : Z := i32 p.
Definition VMM_IS_ERR (p : Z) : bool := u32 (-4095) <=? p.

Section vmm.
Context {LY : Layout} {A : Type} `{!Allocator A}.

Record vm := mk_vm {
  vcbs : gmap Z vmm_control_block;
  regions : gmap Z vmm_region;
  v_heap : A;
  v_frames : pmm;
  v_pg : pg;
  v_locks : lock_table;
}.

Definition set_vcbs (x : gmap Z vmm_control_block) (w : vm) : vm :=
  mk_vm x (regions w) (v_heap w) (v_frames w) (v_pg w) (v_locks w).
Definition set_regions (x : gmap Z vmm_region) (w : vm) : vm :=
  mk_vm (vcbs w) x (v_heap w) (v_frames w) (v_pg w) (v_locks w).
Definition set_v_heap (x : A) (w : vm) : vm :=
  mk_vm (vcbs w) (regions w) x (v_frames w) (v_pg w) (v_locks w).
Definition set_v_frames (x : pmm) (w : vm) : vm :=
  mk_vm (vcbs w) (regions w) (v_heap w) x (v_pg w) (v_locks w).
Definition set_v_pg (x : pg) (w : vm) : vm :=
  mk_vm (vcbs w) (regions w) (v_heap w) (v_frames w) x (v_locks w).
Definition set_v_locks (x : lock_table) (w : vm) : vm :=
  mk_vm (vcbs w) (regions w) (v_heap w) (v_frames w) (v_pg w) x.

#[local] Instance vm_heap : Contains vm A.
Proof. refine {| part := v_heap; set_part := set_v_heap |}; try done. by intros []. Defined.
#[local] Instance vm_frames : Contains vm pmm.
Proof. refine {| part := v_frames; set_part := set_v_frames |}; try done. by intros []. Defined.
#[local] Instance vm_pages : Contains vm pg.
Proof. refine {| part := v_pg; set_part := set_v_pg |}; try done. by intros []. Defined.
#[export] Instance vm_lock_table : Contains vm lock_table.
Proof. refine {| part := v_locks; set_part := set_v_locks |}; try done. by intros []. Defined.

(** The heap, the frames, the page tables, the locks. *)
Definition hzoom {B} (m : M A B) : M vm B := @zoom _ _ vm_heap _ m.
Definition fzoom {B} (m : M pmm B) : M vm B := @zoom _ _ vm_frames _ m.
Definition gzoom {B} (m : M pg B) : M vm B := @zoom _ _ vm_pages _ m.
Definition lzoom {B} (m : M lock_table B) : M vm B := @zoom _ _ vm_lock_table _ m.

Definition vcb_at (v : Z) : M vm vmm_control_block := deref (λ w, vcbs w !! v).
Definition region_at (p : Z) : M vm vmm_region := deref (λ w, regions w !! p).
Definition put_vcb (v : Z) (c : vmm_control_block) : M vm unit :=
  modify (λ w, set_vcbs (<[v := c]> (vcbs w)) w).

(** An operation on the tree of a control block. *)
Definition with_rb (t : rbtree) (c : vmm_control_block) : vmm_control_block :=
  mk_vcb (v_tree c) t (v_cr3 c) (v_lock c).
Definition on_tree {B} (v : Z) (m : M rbtree B) : M vm B := λ w,
  match vcbs w !! v with
  | None => Fault
  | Some c =>
      match m (v_rb c) with
      | Ret b t => Ret b (set_vcbs (<[v := with_rb t c]> (vcbs w)) w)
      | Spin => Spin
      | Fault => Fault
      end
  end.

(** [tree->root == tree->nil]. *)
Definition tree_empty (v : Z) : M vm bool := on_tree v (gets (λ t, root t =? nil t)).

(** ** Order of regions *)

Definition start_of (rg : gmap Z vmm_region) (p : Z) : Z :=
  match rg !! p with Some r => start_va r | None => 0 end.

Definition vmm_rbtree_node_cmp (rg : gmap Z vmm_region) (left right : Z) : Z :=
  if (left =? 0) || (right =? 0) then -1 else
  if start_of rg left <? start_of rg right then -1 else
  if start_of rg right <? start_of rg left then 1 else 0.

Definition vmm_rbtree_key_cmp (rg : gmap Z vmm_region) (key node : Z) : Z :=
  if (node =? 0) || (key =? 0) then -1 else
  match rg !! node with
  | None => -1
  | Some r =>
      if (start_va r <=? key) && (key <? start_va r +u rg_size r) then 0 else
      if key <? start_va r then -1 else 1
  end.

Definition tree_insert (v p : Z) : M vm unit :=
  w ← get; on_tree v (rbtree_insert p (vmm_rbtree_node_cmp (regions w))).

(** [kfree(region)]: the object is gone. *)
Definition free_region (p : Z) : M vm unit :=
  modify (λ w, set_regions (delete p (regions w)) w);; hzoom (kfree p).
Definition store_region (p : Z) (r : vmm_region) : M vm unit :=
  modify (λ w, set_regions (<[p := r]> (regions w)) w).

(** ** Creation and destruction of an address space *)

Definition vmm_switch (v : Z) : M vm unit :=
  if v =? 0 then mret tt else
  c ← vcb_at v;
  if v_cr3 c =? 0 then mret tt else gzoom (arch_load_cr3 (v_cr3 c)).

(** The failure paths leave the fields assigned so far in the control block. *)
Definition vmm_create (v user_accessible : Z) : M vm Z :=
  if v =? 0 then mret E_INVAL else
  c ← vcb_at v;
  lk ← lzoom spinlock_alloc;
  put_vcb v (mk_vcb (v_tree c) (v_rb c) (v_cr3 c) lk);;
  match lk with
  | None => mret E_NOMEM
  | Some _ =>
      r ← hzoom rbtree_create;
      put_vcb v (mk_vcb r.1 r.2 (v_cr3 c) lk);;
      if r.1 =? 0 then lzoom (spinlock_release lk);; mret E_NOMEM else
      pa ← gzoom arch_paging_pool_alloc;
      if pa =? 0 then
        hzoom (rbtree_destroy r.1 r.2);; lzoom (spinlock_release lk);; mret E_NOMEM
      else
      cr3 ← gzoom (arch_clone_kernel_pde pa);
      put_vcb v (mk_vcb r.1 r.2 cr3 lk);;
      if cr3 =? 0 then
        gzoom (arch_paging_pool_free pa);;
        hzoom (rbtree_destroy r.1 r.2);; lzoom (spinlock_release lk);; mret E_NOMEM
      else mret 0
  end.

(** [rbtree_for_each_safe] with the body of [vmm_destroy]: [n] is the node
    after [pos]. *)
Fixpoint destroy_regions (fuel : nat) (v cr3 pos n : Z) : M vm unit :=
  if pos =? 0 then mret tt else
  match fuel with
  | O => spin
  | S fuel =>
      r ← region_at pos;
      gzoom (unmap_run (Z.to_nat (rg_size r / PAGE_SIZE)) cr3 (start_va r) 0);;
      (if own_phys r =? 0 then mret tt else fzoom (pmm_free_pages (rg_pa r) (rg_size r / PAGE_SIZE)));;
      on_tree v (rbtree_delete pos);;
      free_region pos;;
      n' ← (if n =? 0 then mret 0 else on_tree v (rbtree_next n));
      destroy_regions fuel v cr3 n n'
  end.

Definition vmm_destroy (v : Z) : M vm unit :=
  if v =? 0 then mret tt else
  c ← vcb_at v;
  if v_cr3 c =? 0 then mret tt else
  lzoom (spinlock_lock (v_lock c));;
  (if v_tree c =? 0 then mret tt else
   pos ← on_tree v rbtree_first;
   n ← (if pos =? 0 then mret 0 else on_tree v (rbtree_next pos));
   destroy_regions (fuel_of (v_rb c)) v (v_cr3 c) pos n;;
   c' ← vcb_at v;
   hzoom (rbtree_destroy (v_tree c') (v_rb c'));;
   put_vcb v (mk_vcb 0 (v_rb c') (v_cr3 c') (v_lock c')));;
  gzoom (arch_destroy_address_space (v_cr3 c));;
  gzoom (arch_paging_pool_free (v_cr3 c));;
  c' ← vcb_at v;
  put_vcb v (mk_vcb (v_tree c') (v_rb c') 0 (v_lock c'));;
  lzoom (spinlock_unlock (v_lock c));;
  lzoom (spinlock_release (v_lock c)).

(** ** Choosing an address *)

(** [(va + PAGE_SIZE - 1) & ~(PAGE_SIZE - 1)]. *)
Definition align_up (va : Z) : Z := Z.land (u32 (va +u PAGE_SIZE - 1)) PAGE_MASK.

(** The loop over the regions that both allocators make: the end of the first
    region that is followed by a gap of [bytes] bytes, or the end of the last
    region; [None] when [too_big] finds an overflow. *)
Fixpoint pick_va (too_big : Z → bool) (bytes : Z) (fuel : nat) (v pos va : Z) : M vm (option Z) :=
  if pos =? 0 then mret (Some va) else
  match fuel with
  | O => spin
  | S fuel =>
      cur ← region_at pos;
      next_node ← on_tree v (rbtree_next pos);
      if negb (next_node =? 0) then
        next_region ← region_at next_node;
        let va := align_up (start_va cur +u rg_size cur) in
        if too_big va then mret None else
        if va +u bytes <=? start_va next_region then mret (Some va) else
        pos ← on_tree v (rbtree_next pos);
        pick_va too_big bytes fuel v pos va
      else
        if 4294967295 - rg_size cur <? start_va cur then mret None else
        let va := align_up (start_va cur +u rg_size cur) in
        if (va =? 0) || too_big va then mret None else mret (Some va)
  end.

(** The search and the anchor for an empty tree. *)
Definition choose_va (too_big : Z → bool) (bytes anchor v : Z) : M vm (option Z) :=
  c ← vcb_at v;
  e ← tree_empty v;
  va ← (if e : bool then mret (Some 0)
        else pos ← on_tree v rbtree_first; pick_va too_big bytes (fuel_of (v_rb c)) v pos 0);
  match va with
  | None => mret None
  | Some va => e ← tree_empty v; mret (Some (if e : bool then anchor else va))
  end.

(** [page_cnt > (0xffffffff - va) / PAGE_SIZE] and [size > 0xffffffff - va]. *)
Definition pages_too_many (page_cnt va : Z) : bool := (4294967295 - va) / PAGE_SIZE <? page_cnt.
Definition bytes_too_many (size va : Z) : bool := 4294967295 - va <? size.

(** ** Pages of a process *)

Definition vmm_alloc_pages (v page_cnt flags : Z) : M vm Z :=
  if v =? 0 then mret 0 else
  c ← vcb_at v;
  if (v_tree c =? 0) || (page_cnt =? 0) then mret 0 else
  pa ← fzoom (pmm_alloc_pages page_cnt);
  if pa =? 0 then mret 0 else
  region ← hzoom (kmalloc sizeof_vmm_region);
  if region =? 0 then fzoom (pmm_free_pages pa page_cnt);; mret 0 else
  r ← lzoom (spinlock_lock (v_lock c));
  if negb (r =? 0) then fzoom (pmm_free_pages pa page_cnt);; hzoom (kfree region);; mret 0 else
  ova ← choose_va (pages_too_many page_cnt) (page_cnt *u PAGE_SIZE) USER_ANON_BASE v;
  match ova with
  | None =>
      lzoom (spinlock_unlock (v_lock c));;
      fzoom (pmm_free_pages pa page_cnt);; hzoom (kfree region);; mret 0
  | Some va =>
      store_region region (mk_region va (PAGE_SIZE *u page_cnt) flags pa 1);;
      tree_insert v region;;
      lzoom (spinlock_unlock (v_lock c));;
      f ← gzoom (map_run (Z.to_nat ((PAGE_SIZE *u page_cnt) / PAGE_SIZE)) (v_cr3 c) va pa flags 0);
      match f with
      | None => mret va
      | Some i =>
          gzoom (unmap_run (Z.to_nat i) (v_cr3 c) va 0);;
          lzoom (spinlock_lock (v_lock c));;
          on_tree v (rbtree_delete region);;
          lzoom (spinlock_unlock (v_lock c));;
          fzoom (pmm_free_pages pa page_cnt);;
          free_region region;;
          mret 0
      end
  end.

(** [rbtree_for_each] that stops at the first region with [p]; 0 if none. *)
Fixpoint find_region (p : vmm_region → bool) (fuel : nat) (v pos : Z) : M vm Z :=
  if pos =? 0 then mret 0 else
  match fuel with
  | O => spin
  | S fuel =>
      r ← region_at pos;
      if p r then mret pos else
      next ← on_tree v (rbtree_next pos);
      find_region p fuel v next
  end.

Definition first_region (p : vmm_region → bool) (v : Z) : M vm Z :=
  c ← vcb_at v;
  pos ← on_tree v rbtree_first;
  find_region p (fuel_of (v_rb c)) v pos.

(** [start_va <= va && start_va + size > va]. *)
Definition covers (va : Z) (r : vmm_region) : bool :=
  (start_va r <=? va) && (va <? start_va r +u rg_size r).

Definition vmm_free_pages (v va : Z) : M vm unit :=
  if v =? 0 then mret tt else
  c ← vcb_at v;
  if v_tree c =? 0 then mret tt else
  e ← lzoom (spinlock_lock (v_lock c));
  if negb (e =? 0) then mret tt else
  node ← first_region (λ r, covers va r && negb (own_phys r =? 0)) v;
  (if node =? 0 then mret tt else
   r ← region_at node;
   gzoom (unmap_run (Z.to_nat (rg_size r / PAGE_SIZE)) (v_cr3 c) (start_va r) 0);;
   fzoom (pmm_free_pages (rg_pa r) (rg_size r / PAGE_SIZE));;
   on_tree v (rbtree_delete node);;
   free_region node);;
  lzoom (spinlock_unlock (v_lock c));;
  mret tt.

(** ** Mappings of given physical memory *)

(** The address and whether a place was found. *)
Definition vmm_mmap_reserve (v pa size flags : Z) : M vm (Z * bool) :=
  if v =? 0 then mret (0, false) else
  c ← vcb_at v;
  if v_tree c =? 0 then mret (0, false) else
  e ← lzoom (spinlock_lock (v_lock c));
  if negb (e =? 0) then mret (0, false) else
  ova ← choose_va (bytes_too_many size) size pa v;
  match ova with
  | None => lzoom (spinlock_unlock (v_lock c));; mret (0, false)
  | Some va =>
      region ← hzoom (kmalloc sizeof_vmm_region);
      if region =? 0 then lzoom (spinlock_unlock (v_lock c));; mret (0, false) else
      store_region region (mk_region va size flags pa 0);;
      tree_insert v region;;
      lzoom (spinlock_unlock (v_lock c));;
      mret (va, true)
  end.

(** Does [va .. va + size] leave the region or wrap around? *)
Definition beyond_region (va size : Z) (r : vmm_region) : bool :=
  (rg_size r <? size) || (va +u size <? va) || (start_va r +u rg_size r <? va +u size).

(** The error code, and the start and size of the region. *)
Definition vmm_mmap_release (v va size : Z) : M vm (Z * (Z * Z)) :=
  if v =? 0 then mret (E_INVAL, (0, 0)) else
  c ← vcb_at v;
  if v_tree c =? 0 then mret (E_INVAL, (0, 0)) else
  e ← lzoom (spinlock_lock (v_lock c));
  if negb (e =? 0) then mret (E_INVAL, (0, 0)) else
  node ← first_region (λ r, (own_phys r =? 0) && covers va r) v;
  if node =? 0 then lzoom (spinlock_unlock (v_lock c));; mret (E_INVAL, (0, 0)) else
  r ← region_at node;
  if beyond_region va size r then
    lzoom (spinlock_unlock (v_lock c));; mret (E_INVAL, (0, 0))
  else
  on_tree v (rbtree_delete node);;
  free_region node;;
  lzoom (spinlock_unlock (v_lock c));;
  mret (0, (start_va r, rg_size r)).

(** The error code, and the physical address, size and start of the region. *)
Definition vmm_lookup_region (proc va : Z) : M vm (Z * (Z * Z * Z)) :=
  if proc =? 0 then mret (E_INVAL, (0, 0, 0)) else
  c ← vcb_at proc;
  e ← lzoom (spinlock_lock (v_lock c));
  if negb (e =? 0) then mret (E_INVAL, (0, 0, 0)) else
  node ← first_region (covers va) proc;
  if node =? 0 then lzoom (spinlock_unlock (v_lock c));; mret (E_INVAL, (0, 0, 0)) else
  r ← region_at node;
  lzoom (spinlock_unlock (v_lock c));;
  mret (0, (rg_pa r, rg_size r, start_va r)).

(** [cap_check(proc, CAP_MAP_MEM, &mem)] for the fields of [mem]. *)
Context (cap_check : Z → Z → Z → Z → Z).

Definition vmm_map_memory (proc phys_addr size flags : Z) : M vm Z :=
  let aligned_pa := Z.land phys_addr PAGE_MASK in
  let offset := phys_addr -u aligned_pa in
  if proc =? 0 then mret (VMM_ERR_PTR E_INVAL) else
  if negb (cap_check proc phys_addr size flags =? 0) then mret (VMM_ERR_PTR E_PERM) else
  if (size =? 0) || (4294967295 -u offset -u (PAGE_SIZE - 1) <? size) then mret (VMM_ERR_PTR E_INVAL) else
  let aligned_sz := Z.land (size +u offset +u (PAGE_SIZE - 1)) PAGE_MASK in
  rv ← vmm_mmap_reserve proc aligned_pa aligned_sz flags;
  if negb rv.2 then mret (VMM_ERR_PTR E_NOMEM) else
  let va := rv.1 in
  c ← vcb_at proc;
  f ← gzoom (map_run (Z.to_nat (aligned_sz / PAGE_SIZE)) (v_cr3 c) va aligned_pa flags 0);
  match f with
  | None => mret (va +u offset)
  | Some i =>
      gzoom (unmap_run (Z.to_nat i) (v_cr3 c) va 0);;
      vmm_mmap_release proc va 0;;
      mret (VMM_ERR_PTR E_NOMEM)
  end.

(** [vs < rs + r->size && rs < vs + size]. *)
Definition overlaps (vs size : Z) (r : vmm_region) : bool :=
  (vs <? start_va r +u rg_size r) && (start_va r <? vs +u size).

Definition vmm_map_fixed (proc phys_addr vaddr size flags own : Z) : M vm Z :=
  if proc =? 0 then mret E_INVAL else
  if negb (Z.land phys_addr (PAGE_SIZE - 1) =? 0) || negb (Z.land vaddr (PAGE_SIZE - 1) =? 0)
  then mret E_INVAL else
  if (size =? 0) || negb (Z.land size (PAGE_SIZE - 1) =? 0) then mret E_INVAL else
  if negb (cap_check proc phys_addr size flags =? 0) then mret E_PERM else
  region ← hzoom (kmalloc sizeof_vmm_region);
  if region =? 0 then mret E_NOMEM else
  c ← vcb_at proc;
  e ← lzoom (spinlock_lock (v_lock c));
  if negb (e =? 0) then hzoom (kfree region);; mret E_INVAL else
  node ← first_region (overlaps vaddr size) proc;
  if negb (node =? 0) then
    lzoom (spinlock_unlock (v_lock c));; hzoom (kfree region);; mret E_EXISTS
  else
  store_region region (mk_region vaddr size flags phys_addr own);;
  tree_insert proc region;;
  lzoom (spinlock_unlock (v_lock c));;
  f ← gzoom (map_run (Z.to_nat (size / PAGE_SIZE)) (v_cr3 c) vaddr phys_addr flags 0);
  match f with
  | None => mret 0
  | Some i =>
      gzoom (unmap_run (Z.to_nat i) (v_cr3 c) vaddr 0);;
      lzoom (spinlock_lock (v_lock c));;
      on_tree proc (rbtree_delete region);;
      lzoom (spinlock_unlock (v_lock c));;
      free_region region;;
      mret E_LIMIT
  end.

Definition vmm_unmap_memory (proc virt_addr size : Z) : M vm Z :=
  if proc =? 0 then mret E_INVAL else
  lr ← vmm_lookup_region proc virt_addr;
  if negb (lr.1 =? 0) then mret E_NOTFOUND else
  let '(pa, pa_size, _) := lr.2 in
  if negb (cap_check proc pa pa_size 0 =? 0) then mret E_PERM else
  rl ← vmm_mmap_release proc virt_addr size;
  if negb (rl.1 =? 0) then mret E_INVAL else
  let '(va, region_size) := rl.2 in
  c ← vcb_at proc;
  gzoom (unmap_run (Z.to_nat (region_size / PAGE_SIZE)) (v_cr3 c) va 0);;
  mret 0.

Definition vmm_unmap_fixed (proc vaddr size : Z) : M vm Z :=
  if proc =? 0 then mret E_INVAL else
  c ← vcb_at proc;
  if v_tree c =? 0 then mret E_INVAL else
  lr ← vmm_lookup_region proc vaddr;
  if negb (lr.1 =? 0) then mret E_NOTFOUND else
  let '(pa, pa_size, _) := lr.2 in
  if negb (cap_check proc pa pa_size 0 =? 0) then mret E_PERM else
  e ← lzoom (spinlock_lock (v_lock c));
  if negb (e =? 0) then mret E_INVAL else
  node ← first_region (covers vaddr) proc;
  if node =? 0 then lzoom (spinlock_unlock (v_lock c));; mret E_NOTFOUND else
  r ← region_at node;
  if beyond_region vaddr size r then lzoom (spinlock_unlock (v_lock c));; mret E_INVAL else
  on_tree proc (rbtree_delete node);;
  free_region node;;
  lzoom (spinlock_unlock (v_lock c));;
  gzoom (unmap_run (Z.to_nat (rg_size r / PAGE_SIZE)) (v_cr3 c) (start_va r) 0);;
  (if own_phys r =? 0 then mret tt else fzoom (pmm_free_pages (rg_pa r) (rg_size r / PAGE_SIZE)));;
  mret 0.

(** ** Translation by the regions *)

Definition vmm_vcb_va_to_pa (v va : Z) : M vm Z :=
  if v =? 0 then mret 0 else
  c ← vcb_at v;
  if v_tree c =? 0 then mret 0 else
  lzoom (spinlock_lock (v_lock c));;
  w ← get;
  node ← on_tree v (rbtree_search (vmm_rbtree_key_cmp (regions w) va));
  pa ← (if node =? 0 then mret 0
        else r ← region_at node; mret (rg_pa r +u (va -u start_va r)));
  lzoom (spinlock_unlock (v_lock c));;
  mret pa.

Definition vmm_va_to_pa (proc va : Z) : M vm Z :=
  if proc =? 0 then mret 0 else vmm_vcb_va_to_pa proc va.
End vmm.

Arguments vm : clear implicits.
