(* ===== verification/VmmSpace.v ===== *)
(** * Address spaces as sequences of regions (kernel/mm/vmm.c)

    [space w L v c ns rs] relates the control block of process [v] to the
    regions [rs] in the order of their addresses (at the heap addresses [ns]):
    they do not overlap, and the page directory translates an address above
    the user heap exactly as the region that contains it says.  [world]
    collects what the processes share: the heap, the frames and who owns
    them. *)

From stdpp Require Import base tactics list gmap sorting.
From Stdlib Require Import ZArith Lia.
From S2P Require Import Prelude Spinlock Allocator RbTree RbDelete RbOrder Pmm Paging PageSpaces PageRuns Vmm.

Open Scope Z_scope.

(** ** Regions *)

Definition rg_end (r : vmm_region) : Z := start_va r + rg_size r.

Record region_ok (r : vmm_region) : Prop := {
  ro_start : start_va r mod 4096 = 0;
  ro_size : rg_size r mod 4096 = 0 ∧ 0 < rg_size r;
  ro_user : USER_HEAP_END <= start_va r;
  ro_end : rg_end r < 4294967296;
  ro_pa : rg_pa r mod 4096 = 0 ∧ 0 <= rg_pa r ∧ rg_pa r + rg_size r <= 4294967296;
  ro_present : flag 0 (rg_flags r) = true;
}.

(** In the order of their addresses, without overlap. *)
Definition ordered : list vmm_region → Prop := StronglySorted (λ r r', rg_end r <= start_va r').

(** What the regions say of an address. *)
Definition look_regions (rs : list vmm_region) (va : Z) : option (Z * bool) :=
  match List.find (covers va) rs with
  | Some r => Some (rg_pa r + (va - start_va r), flag 1 (rg_flags r))
  | None => None
  end.

(** First fit: the end of the first region that is followed by a gap of [n]
    bytes, the last one by what is left below 4 GB. *)
Fixpoint first_gap (n : Z) (rs : list vmm_region) : option Z :=
  match rs with
  | [] => None
  | r :: rest =>
      match rest with
      | [] => if rg_end r + n <=? 4294967295 then Some (rg_end r) else None
      | r' :: _ => if rg_end r + n <=? start_va r' then Some (rg_end r) else first_gap n rest
      end
  end.

Lemma region_bounds r : region_ok r →
  3238002688 <= start_va r ∧ start_va r < rg_end r ∧ rg_end r <= 4294963200 ∧ rg_end r mod 4096 = 0.
Proof.
  intros [H1 [H2 H3] H4 H5 _ _]. unfold USER_HEAP_END, rg_end in *.
  assert ((start_va r + rg_size r) mod 4096 = 0) as Hm.
  { rewrite Z.add_mod, H1, H2 by lia. done. }
  split_and!; [done|lia| |done]. pose proof (Z.div_mod (start_va r + rg_size r) 4096 ltac:(lia)). lia.
Qed.

Lemma region_end_u32 r : region_ok r → start_va r +u rg_size r = rg_end r.
Proof. intros H%region_bounds. unfold rg_end in *. apply u32_small. unfold is_u32. lia. Qed.

Lemma covers_iff va r : region_ok r → covers va r = true ↔ start_va r <= va < rg_end r.
Proof.
  intros H. unfold covers. rewrite region_end_u32 by done. rewrite andb_true_iff, Z.leb_le, Z.ltb_lt. done.
Qed.

Lemma align_up_id x : 0 <= x <= 4294963200 → x mod 4096 = 0 → align_up x = x.
Proof.
  intros Hx Hm. unfold align_up, PAGE_SIZE. assert (u32 (x +u 4096 - 1) = x + 4095) as ->.
  { destruct (decide (x = 4294963200)) as [->|]; [reflexivity|].
    rewrite (u32_small (x + 4096)) by (unfold is_u32; lia). rewrite u32_small by (unfold is_u32; lia). lia. }
  rewrite land_page_mask by (unfold is_u32; lia).
  pose proof (Z.div_mod x 4096 ltac:(lia)) as E.
  assert ((x + 4095) / 4096 = x / 4096) as ->; [|lia].
  symmetry. apply Z.div_unique with 4095; lia.
Qed.

(** *** First fit *)

Lemma ordered_app rs1 r rs2 :
  ordered (rs1 ++ r :: rs2) → Forall (λ q, rg_end q <= start_va r) rs1 ∧ Forall (λ q, rg_end r <= start_va q) rs2.
Proof.
  unfold ordered. intros (Hc & _ & H2)%StronglySorted_app. split.
  - apply Forall_forall. intros q Hq. apply Hc; [done|left].
  - by inversion H2.
Qed.

Lemma first_gap_none n rs e :
  Forall region_ok rs → ordered rs → Forall (λ r, e <= rg_end r) rs → 4294967295 < e + n → first_gap n rs = None.
Proof.
  intros Hok Ho He Hn. induction rs as [|r rs IH]; [done|].
  inversion Hok; inversion Ho; inversion He; subst. simpl. destruct rs as [|r' rs].
  - rewrite (proj2 (Z.leb_gt _ _)); [done|lia].
  - rewrite (proj2 (Z.leb_gt _ _)); [by apply IH|].
    match goal with H : Forall region_ok (r' :: _) |- _ => inversion H as [|? ? Hr']; subst end.
    apply region_bounds in Hr'. lia.
Qed.

(** The gap found is the end of a region, and free up to the next one. *)
Lemma first_gap_at n rs va :
  Forall region_ok rs → ordered rs → first_gap n rs = Some va →
  ∃ rs1 q rs2, rs = rs1 ++ q :: rs2 ∧ va = rg_end q ∧ va + n <= 4294967295 ∧
    Forall (λ r, va + n <= start_va r) rs2.
Proof.
  intros Hok Ho. induction rs as [|r rs IH]; [done|]. simpl.
  inversion Hok as [|? ? Hr Hrs]; inversion Ho as [|? ? Hors Hord]; subst.
  destruct rs as [|r' rs].
  - zcase; [|done]. intros [= <-]. by exists [], r, [].
  - zcase.
    + intros [= <-]. exists [], r, (r' :: rs). pose proof (region_bounds r' (Forall_inv Hrs)).
      split_and!; [done|done|lia|]. constructor; [done|].
      inversion Hors as [|? ? _ Hall]; subst. eapply Forall_impl; [exact Hall|]. simpl. lia.
    + intros E. destruct (IH Hrs Hors E) as (rs1 & q & rs2 & -> & -> & ? & ?).
      by exists (r :: rs1), q, rs2.
Qed.

(** A place for a new region: the ones before end below it, the ones after
    start above it. *)
Definition place (n va : Z) (rs1 rs2 : list vmm_region) : Prop :=
  va mod 4096 = 0 ∧ USER_HEAP_END <= va ∧ va + n <= 4294967295 ∧
  Forall (λ r, rg_end r <= va) rs1 ∧ Forall (λ r, va + n <= start_va r) rs2.

(** Where the allocators put a region of [n] bytes. *)
Definition choice (n anchor : Z) (rs : list vmm_region) : option Z :=
  match rs with [] => Some anchor | _ => first_gap n rs end.

Lemma first_gap_place n rs va :
  Forall region_ok rs → ordered rs → first_gap n rs = Some va →
  ∃ rs1 rs2, rs = rs1 ++ rs2 ∧ place n va rs1 rs2.
Proof.
  intros Hok Ho E. destruct (first_gap_at n rs va Hok Ho E) as (rs1 & q & rs2 & -> & -> & Hn & H2).
  exists (rs1 ++ [q]), rs2. rewrite <- (assoc_L (++)). split; [done|].
  apply Forall_app in Hok as [Hok1 Hok2]. inversion Hok2 as [|? ? Hq _]; subst.
  destruct (region_bounds q Hq) as (B1 & B2 & B3 & B4). destruct (ordered_app _ _ _ Ho) as [F1 _].
  unfold place, USER_HEAP_END. split_and!; [done|lia|lia| |done].
  apply Forall_app. split; [|by repeat constructor]. eapply Forall_impl; [exact F1|]. simpl. lia.
Qed.

(** A region in its place keeps the order. *)
Lemma place_ordered n va rs1 rs2 r :
  place n va rs1 rs2 → ordered (rs1 ++ rs2) → start_va r = va → rg_size r = n → ordered (rs1 ++ r :: rs2).
Proof.
  intros (_ & _ & _ & F1 & F2) Ho Hs Hn. unfold ordered in *. unfold rg_end in F1.
  induction rs1 as [|q rs1 IH]; simpl in *.
  - constructor; [done|]. unfold rg_end. rewrite Hs, Hn. done.
  - inversion Ho as [|? ? Ho' Hq]; inversion F1; subst. constructor; [by apply IH|].
    apply Forall_app in Hq as [? ?]. apply Forall_app. split; [done|]. by constructor.
Qed.

Section space.
Context {LY : Layout} {A : Type} `{!Allocator A}.
Notation vm := (vm A).

(** ** Steps of the parts of the state *)

Lemma hzoom_run {B} (m : M A B) (w : vm) b h : m (v_heap w) = Ret b h → hzoom m w = Ret b (set_v_heap h w).
Proof. exact (zoom_Ret (Contains0 := vm_heap) m w b h). Qed.
Lemma fzoom_run {B} (m : M pmm B) (w : vm) b f : m (v_frames w) = Ret b f → fzoom m w = Ret b (set_v_frames f w).
Proof. exact (zoom_Ret (Contains0 := vm_frames) m w b f). Qed.
Lemma gzoom_run {B} (m : M pg B) (w : vm) b g : m (v_pg w) = Ret b g → gzoom m w = Ret b (set_v_pg g w).
Proof. exact (zoom_Ret (Contains0 := vm_pages) m w b g). Qed.

Lemma lock_run (w : vm) l :
  v_locks w !! l = Some LOCK_UNLOCKED →
  lzoom (spinlock_lock (Some l)) w = Ret 0 (set_v_locks (<[l := LOCK_LOCKED]> (v_locks w)) w).
Proof. intros H. apply (zoom_Ret (Contains0 := vm_lock_table)). by apply spinlock_lock_free with LOCK_UNLOCKED. Qed.

Lemma unlock_run (w : vm) l :
  (l < length (v_locks w))%nat →
  lzoom (spinlock_unlock (Some l)) w = Ret 0 (set_v_locks (<[l := LOCK_UNLOCKED]> (v_locks w)) w).
Proof. intros H. apply (zoom_Ret (Contains0 := vm_lock_table)). by apply spinlock_unlock_eq. Qed.

Lemma vcb_run (w : vm) v c : vcbs w !! v = Some c → vcb_at v w = Ret c w.
Proof. exact (deref_Some (λ w, vcbs w !! v) w c). Qed.
Lemma region_run (w : vm) p r : regions w !! p = Some r → region_at p w = Ret r w.
Proof. exact (deref_Some (λ w, regions w !! p) w r). Qed.

Lemma on_tree_run {B} (m : M rbtree B) (w : vm) v c b t :
  vcbs w !! v = Some c → m (v_rb c) = Ret b t →
  on_tree v m w = Ret b (set_vcbs (<[v := with_rb t c]> (vcbs w)) w).
Proof. unfold on_tree. by intros -> ->. Qed.

(** Reading the tree changes nothing. *)
Lemma on_tree_read {B} (m : M rbtree B) (w : vm) v c b :
  vcbs w !! v = Some c → m (v_rb c) = Ret b (v_rb c) → on_tree v m w = Ret b w.
Proof.
  intros Hc Hm. rewrite (on_tree_run m w v c b _ Hc Hm). f_equal.
  destruct c. unfold with_rb. simpl. rewrite insert_id by done. by destruct w.
Qed.

(** ** The tree of a control block *)

Record tree_of (w : vm) (v : Z) (c : vmm_control_block) (ns : list Z) (rs : list vmm_region) : Prop := {
  tr_vcb : vcbs w !! v = Some c;
  tr_tree : tree_ok (start_of (regions w)) (v_rb c) ns;
  tr_regions : Forall2 (λ p r, regions w !! p = Some r) ns rs;
  tr_ok : Forall region_ok rs;
  tr_ord : ordered rs;
}.

Lemma tree_of_locks w v c ns rs t : tree_of w v c ns rs → tree_of (set_v_locks t w) v c ns rs.
Proof. by intros []. Qed.

Lemma tree_next w v c ns1 p ns2 rs :
  tree_of w v c (ns1 ++ p :: ns2) rs → on_tree v (rbtree_next p) w = Ret (end_of DL ns2) w.
Proof.
  intros H. apply (on_tree_read _ w v c); [apply (tr_vcb _ _ _ _ _ H)|].
  exact (rbtree_step_run _ DR _ ns1 p ns2 (tr_tree _ _ _ _ _ H)).
Qed.

Lemma tree_first w v c ns rs : tree_of w v c ns rs → on_tree v rbtree_first w = Ret (end_of DL ns) w.
Proof.
  intros H. apply (on_tree_read _ w v c); [apply (tr_vcb _ _ _ _ _ H)|].
  exact (rbtree_end_run _ DL _ ns (tr_tree _ _ _ _ _ H)).
Qed.

Lemma tree_empty_run w v c ns rs :
  tree_of w v c ns rs → tree_empty v w = Ret (bool_decide (rs = [])) w.
Proof.
  intros H. apply (on_tree_read _ w v c); [apply (tr_vcb _ _ _ _ _ H)|]. unfold gets. f_equal.
  pose proof (tr_tree _ _ _ _ _ H) as (t & n & Ht & _ & Hin & _). pose proof (tr_regions _ _ _ _ _ H) as H2.
  rewrite (holds_root _ _ Ht). destruct t as [|col a x b]; simpl in Hin.
  - subst ns. inversion H2; subst. by rewrite Z.eqb_refl.
  - simpl. rewrite (proj2 (Z.eqb_neq _ _)) by apply (holds_top_ne _ [] _ _ _ _ Ht).
    symmetry. apply bool_decide_eq_false. intros ->. inversion H2; subst. by destruct (inorder a).
Qed.

Lemma node_nonzero w v c ns rs p : tree_of w v c ns rs → p ∈ ns → p ≠ 0.
Proof. intros H Hp ->. by apply (tree_ok_null _ _ _ (tr_tree _ _ _ _ _ H)). Qed.

(** ** The search for a place *)

Lemma pick_run too_big n fuel w v c ns1 p ns2 rs1 r rs2 va0 :
  tree_of w v c (ns1 ++ p :: ns2) (rs1 ++ r :: rs2) → length ns1 = length rs1 →
  0 < n < 4294967296 →
  (∀ va, 0 <= va < 4294967296 → too_big va = (4294967295 <? va + n)) →
  (length ns2 < fuel)%nat →
  pick_va too_big n fuel v p va0 w = Ret (first_gap n (r :: rs2)) w.
Proof.
  intros H Hl Hn Htb. revert ns1 p ns2 rs1 r rs2 va0 H Hl.
  induction fuel as [|fuel IH]; intros ns1 p ns2 rs1 r rs2 va0 H Hl Hf; [lia|].
  pose proof (tr_regions _ _ _ _ _ H) as H2.
  apply Forall2_app_inv in H2 as [_ H2]; [|done]. inversion H2 as [|? ? ? ? Hp Htl]; subst.
  pose proof (tr_ok _ _ _ _ _ H) as Hok. apply Forall_app in Hok as [_ Hok].
  inversion Hok as [|? ? Hr Hoks]; subst.
  pose proof (tr_ord _ _ _ _ _ H) as Ho. apply StronglySorted_app in Ho as (_ & _ & Ho).
  pose proof (region_bounds r Hr) as (B1 & B2 & B3 & B4).
  cbn [pick_va]. rewrite (proj2 (Z.eqb_neq p 0)).
  2: { eapply node_nonzero; [exact H|]. apply elem_of_app. right. left. }
  rewrite (bind_Ret _ _ _ _ _ (region_run _ _ _ Hp)).
  rewrite (bind_Ret _ _ _ _ _ (tree_next _ _ _ _ _ _ _ H)).
  rewrite region_end_u32, align_up_id by (done || lia). rewrite Htb by lia.
  inversion Htl as [|q r' ns2' rs2' Hq Hrest]; subst.
  - unfold end_of. cbn [hd head opp negb Z.eqb]. simpl. unfold rg_end in *.
    rewrite (proj2 (Z.ltb_ge _ _)) by lia. rewrite (proj2 (Z.eqb_neq _ 0)) by lia. cbn [orb].
    destruct (Z.ltb_spec 4294967295 (start_va r + rg_size r + n)), (Z.leb_spec (start_va r + rg_size r + n) 4294967295);
      (done || lia).
  - change (end_of DL (q :: ns2')) with q. rewrite (proj2 (Z.eqb_neq q 0)).
    2: { eapply node_nonzero; [exact H|]. apply elem_of_app. right. right. left. }
    cbn [negb]. rewrite (bind_Ret _ _ _ _ _ (region_run _ _ _ Hq)). cbv zeta.
    pose proof (Forall_inv Hoks) as Hr'. pose proof (region_bounds r' Hr') as (C1 & C2 & C3 & C4).
    destruct (Z.ltb_spec 4294967295 (rg_end r + n)) as [Hbig|Hsm].
    { cbn [first_gap]. symmetry. apply (f_equal (λ o, Ret o w)).
      apply (first_gap_none n (r :: r' :: rs2') (rg_end r)); [by constructor|done| |lia].
      constructor; [done|]. inversion Ho as [|? ? _ Hall]; subst.
      apply Forall_forall. intros x Hx. rewrite Forall_forall in Hall, Hoks.
      specialize (Hall x Hx). specialize (Hoks x Hx). apply region_bounds in Hoks. lia. }
    rewrite (u32_small (rg_end r + n)) by (unfold is_u32; lia). cbn [first_gap].
    destruct (Z.leb_spec (rg_end r + n) (start_va r')); [done|].
    rewrite (bind_Ret _ _ _ _ _ (tree_next _ _ _ _ _ _ _ H)). change (end_of DL (q :: ns2')) with q.
    simpl in Hf. apply (IH (ns1 ++ [p]) q ns2' (rs1 ++ [r]) r' rs2').
    + by rewrite <- !(assoc_L (++)).
    + rewrite !length_app. simpl. lia.
    + lia.
Qed.

Lemma choose_run too_big n anchor w v c ns rs :
  tree_of w v c ns rs → 0 < n < 4294967296 →
  (∀ va, 0 <= va < 4294967296 → too_big va = (4294967295 <? va + n)) →
  choose_va too_big n anchor v w = Ret (choice n anchor rs) w.
Proof.
  intros H Hn Htb. unfold choose_va. rewrite (bind_Ret _ _ _ _ _ (vcb_run _ _ _ (tr_vcb _ _ _ _ _ H))).
  pose proof (tree_empty_run _ _ _ _ _ H) as He. rewrite (bind_Ret _ _ _ _ _ He).
  pose proof (tr_regions _ _ _ _ _ H) as H2. destruct rs as [|r rs].
  - cbn [bool_decide]. rewrite bool_decide_true by done. rewrite bind_ret. rewrite (bind_Ret _ _ _ _ _ He).
    by rewrite bool_decide_true.
  - rewrite bool_decide_false in * by done. inversion H2 as [|p ? ns' ? Hp Hr]; subst.
    assert (E : (pos ← on_tree v rbtree_first; pick_va too_big n (fuel_of (v_rb c)) v pos 0) w
      = Ret (first_gap n (r :: rs)) w).
    { rewrite (bind_Ret _ _ _ _ _ (tree_first _ _ _ _ _ H)).
      apply (pick_run too_big n _ w v c [] p ns' [] r rs 0 H); [done|done|done|].
      pose proof (tree_ok_null _ _ _ (tr_tree _ _ _ _ _ H)) as [_ Hlen]. simpl in Hlen. unfold fuel_of. lia. }
    rewrite (bind_Ret _ _ _ _ _ E). cbn [choice]. destruct (first_gap n (r :: rs)) as [va|]; [|done].
    by rewrite (bind_Ret _ _ _ _ _ He).
Qed.
(** ** Inserting and deleting a region *)

Lemma sorted_ext (key key' : Z → Z) l : (∀ x, x ∈ l → key' x = key x) → sorted key l → sorted key' l.
Proof.
  unfold sorted. intros He H. induction H as [|x l Hl IH Hx]; constructor.
  - apply IH. intros y Hy. apply He. by right.
  - rewrite Forall_forall in *. intros y Hy. rewrite !He; [by apply Hx|by right|left].
Qed.

Lemma tree_ok_ext (key key' : Z → Z) t l :
  (∀ x, x ∈ l → key' x = key x) → tree_ok key t l → tree_ok key' t l.
Proof. intros He (tr & n & H & Hr & Hi & Hs). exists tr, n. split_and!; try done. by eapply sorted_ext. Qed.

Lemma ins_between (key : Z → Z) p l1 l2 :
  Forall (λ x, key x <= key p) l1 → Forall (λ x, key p < key x) l2 →
  ins key p (l1 ++ l2) = l1 ++ p :: l2.
Proof.
  induction 1 as [|x l1 Hx _ IH]; intros H2; simpl.
  - destruct H2 as [|y l2 Hy _]; [done|]. simpl. by rewrite (proj2 (Z.ltb_lt _ _)).
  - rewrite (proj2 (Z.ltb_ge _ _)) by done. by rewrite IH.
Qed.

Lemma Forall2_app_split {X Y} (P : X → Y → Prop) l k1 k2 :
  Forall2 P l (k1 ++ k2) → ∃ l1 l2, l = l1 ++ l2 ∧ Forall2 P l1 k1 ∧ Forall2 P l2 k2.
Proof. intros (l1 & l2 & H1 & H2 & ->)%Forall2_app_inv_r. by exists l1, l2. Qed.

Lemma Forall2_start (P : Z → Prop) (Q : vmm_region → Prop) (rg : gmap Z vmm_region) ns rs :
  Forall2 (λ p r, rg !! p = Some r) ns rs → Forall Q rs →
  (∀ p r, rg !! p = Some r → Q r → P p) → Forall P ns.
Proof. intros H HQ HPQ. revert HQ. induction H; intros HQ; inversion HQ; subst; constructor; eauto. Qed.

Lemma regions_keep (rg rg' : gmap Z vmm_region) ns rs :
  (∀ q, q ∈ ns → rg' !! q = rg !! q) → Forall2 (λ p r, rg !! p = Some r) ns rs →
  Forall2 (λ p r, rg' !! p = Some r) ns rs.
Proof.
  intros He H. induction H as [|p r ns rs Hp _ IH]; constructor.
  - rewrite He; [done|left].
  - apply IH. intros q Hq. apply He. by right.
Qed.

Lemma start_keep (rg rg' : gmap Z vmm_region) (ns : list Z) :
  (∀ q, q ∈ ns → rg' !! q = rg !! q) → ∀ q, q ∈ ns → start_of rg' q = start_of rg q.
Proof. intros He q Hq. unfold start_of. by rewrite He. Qed.

(** A tree whose regions stay as they are. *)
Lemma tree_of_keep w w' v c ns rs :
  vcbs w' !! v = Some c → (∀ q, q ∈ ns → regions w' !! q = regions w !! q) →
  tree_of w v c ns rs → tree_of w' v c ns rs.
Proof.
  intros Hc Hk [H1 H2 H3 H4 H5]. constructor; try done.
  - eapply tree_ok_ext; [|done]. by apply start_keep.
  - by eapply regions_keep.
Qed.

Lemma node_cmp_key rg a b :
  a ≠ 0 → b ≠ 0 → (vmm_rbtree_node_cmp rg a b <? 0) = (start_of rg a <? start_of rg b).
Proof.
  intros Ha Hb. unfold vmm_rbtree_node_cmp. rewrite (proj2 (Z.eqb_neq a 0)), (proj2 (Z.eqb_neq b 0)) by done.
  cbn [orb]. destruct (start_of rg a <? start_of rg b); [done|]. by destruct (start_of rg b <? start_of rg a).
Qed.

Lemma start_of_Some rg p r : rg !! p = Some r → start_of rg p = start_va r.
Proof. unfold start_of. by intros ->. Qed.

(** The nodes of a tree have regions. *)
Lemma tree_region w v c ns rs p : tree_of w v c ns rs → p ∈ ns → is_Some (regions w !! p).
Proof.
  intros H Hp. apply list_elem_of_lookup in Hp as [i Hi].
  destruct (Forall2_lookup_l _ _ _ _ _ (tr_regions _ _ _ _ _ H) Hi) as (r & _ & Hr). by exists r.
Qed.

Lemma tree_insert_ok w v c ns rs1 rs2 n va p r :
  tree_of w v c ns (rs1 ++ rs2) → place n va rs1 rs2 → region_ok r → start_va r = va → rg_size r = n →
  regions w !! p = None → p ≠ nil (v_rb c) → p ≠ 0 →
  ∃ t ns1 ns2, (store_region p r;; tree_insert v p) w
      = Ret tt (set_vcbs (<[v := with_rb t c]> (vcbs w)) (set_regions (<[p := r]> (regions w)) w)) ∧
    nil t = nil (v_rb c) ∧ ns = ns1 ++ ns2 ∧ length ns1 = length rs1 ∧
    tree_of (set_vcbs (<[v := with_rb t c]> (vcbs w)) (set_regions (<[p := r]> (regions w)) w)) v
      (with_rb t c) (ns1 ++ p :: ns2) (rs1 ++ r :: rs2).
Proof.
  intros H Hpl Hr Hs Hn Hp Hpn Hp0. destruct (Forall2_app_split _ _ _ _ (tr_regions _ _ _ _ _ H)) as (ns1 & ns2 & -> & H1 & H2).
  assert (Hpns : p ∉ ns1 ++ ns2). { intros Hin. destruct (tree_region _ _ _ _ _ _ H Hin). congruence. }
  set (rg := <[p := r]> (regions w)).
  assert (Hk : ∀ x, x ∈ ns1 ++ ns2 → rg !! x = regions w !! x).
  { intros x Hx. apply lookup_insert_ne. by intros ->. }
  pose proof (tree_ok_ext _ _ _ _ (start_keep _ _ _ Hk) (tr_tree _ _ _ _ _ H)) as Ht.
  destruct (rbtree_insert_run (start_of rg) (vmm_rbtree_node_cmp rg) (v_rb c) _ p (node_cmp_key rg) Ht Hpns Hpn Hp0)
    as (t & E & En & Ht').
  assert (Hrgp : rg !! p = Some r) by apply lookup_insert_eq.
  assert (start_of rg p = va) as Hkp by (by rewrite (start_of_Some _ _ _ Hrgp)).
  apply (regions_keep _ rg) in H1; [|intros; apply Hk; apply elem_of_app; by left].
  apply (regions_keep _ rg) in H2; [|intros; apply Hk; apply elem_of_app; by right].
  pose proof (tr_ok _ _ _ _ _ H) as Hok. pose proof Hok as [Hok1 Hok2]%Forall_app.
  pose proof Hpl as (_ & _ & _ & P4 & P5). pose proof (region_bounds r Hr).
  exists t, ns1, ns2. split_and!; [|done|done|by eapply Forall2_length|constructor].
  - unfold store_region. rewrite (bind_Ret (modify _) _ w tt (set_regions rg w)) by done.
    unfold tree_insert. rewrite (bind_Ret _ _ _ (set_regions rg w) (set_regions rg w)) by done.
    exact (on_tree_run _ (set_regions rg w) v c tt t (tr_vcb _ _ _ _ _ H) E).
  - apply lookup_insert_eq.
  - simpl. fold rg. rewrite <- ins_between with (key := start_of rg); [done|..].
    + eapply (Forall2_start _ (λ q, region_ok q ∧ rg_end q <= va)); [exact H1|by apply Forall_and|].
      intros q k Hq [B%region_bounds ?]. rewrite (start_of_Some _ _ _ Hq), Hkp. lia.
    + eapply (Forall2_start _ (λ q, va + n <= start_va q)); [exact H2|done|].
      intros q k Hq ?. rewrite (start_of_Some _ _ _ Hq), Hkp. unfold rg_end in *. lia.
  - apply Forall2_app; [done|]. by constructor.
  - apply Forall_app. split; [done|]. by constructor.
  - eapply place_ordered; [done|apply (tr_ord _ _ _ _ _ H)|done|done].
Qed.

Lemma ordered_remove rs1 r rs2 : ordered (rs1 ++ r :: rs2) → ordered (rs1 ++ rs2).
Proof.
  unfold ordered. intros (Hc & H1 & H2)%StronglySorted_app. apply StronglySorted_app.
  inversion H2; subst. split_and!; try done. intros x y Hx Hy. apply Hc; [done|by right].
Qed.

Lemma tree_nodup w v c ns rs : tree_of w v c ns rs → NoDup ns ∧ nil (v_rb c) ∉ ns.
Proof. intros H. destruct (tr_tree _ _ _ _ _ H) as (t & n & Ht & _ & <- & _). split; apply Ht. Qed.

Lemma tree_delete_ok w v c ns1 p ns2 rs1 r rs2 :
  tree_of w v c (ns1 ++ p :: ns2) (rs1 ++ r :: rs2) → length ns1 = length rs1 →
  ∃ t, on_tree v (rbtree_delete p) w = Ret tt (set_vcbs (<[v := with_rb t c]> (vcbs w)) w) ∧
    nil t = nil (v_rb c) ∧
    ∀ w', vcbs w' !! v = Some (with_rb t c) → (∀ q, q ≠ p → regions w' !! q = regions w !! q) →
      tree_of w' v (with_rb t c) (ns1 ++ ns2) (rs1 ++ rs2).
Proof.
  intros H Hl. destruct (tree_nodup _ _ _ _ _ H) as [Hnd _].
  destruct (rbtree_delete_run _ _ _ p (tr_tree _ _ _ _ _ H)) as (t & E & En & Ht).
  { apply elem_of_app. right. left. }
  exists t. split_and!; [by apply on_tree_run; [apply (tr_vcb _ _ _ _ _ H)|]|done|]. intros w' Hc Hk.
  rewrite remove_split in Ht by done. apply NoDup_app in Hnd as (_ & Hd & [Hp2 _]%NoDup_cons).
  assert (Hk' : ∀ q, q ∈ ns1 ++ ns2 → regions w' !! q = regions w !! q).
  { intros q Hq. apply Hk. intros ->. apply elem_of_app in Hq as [Hq|Hq]; [|done]. apply (Hd p Hq). left. }
  pose proof (tr_regions _ _ _ _ _ H) as [H1 H2]%Forall2_app_inv; [|done]. inversion H2; subst.
  pose proof (tr_ok _ _ _ _ _ H) as [Hok1 Hok2]%Forall_app. inversion Hok2; subst. constructor.
  - done.
  - eapply tree_ok_ext; [|exact Ht]. by apply start_keep.
  - apply (regions_keep (regions w)); [done|]. by apply Forall2_app.
  - apply Forall_app. done.
  - eapply ordered_remove, (tr_ord _ _ _ _ _ H).
Qed.

End space.
