(* ===== verification/VmmOps.v ===== *)
(** * What the operations of vmm.c do to an address space

    The regions of a process, its page directory and the frames it owns agree
    ([space], [world]) and every operation keeps it so, also when it fails
    half-way and rolls back; other processes are not affected. *)

From stdpp Require Import base tactics list gmap sorting.
From Stdlib Require Import ZArith Lia.
From S2P Require Import Prelude Spinlock Allocator RbTree RbDelete RbOrder Pmm Paging PageSpaces PageRuns Vmm VmmSpace.

Open Scope Z_scope.

(** ** Frames *)

Definition same_geometry (f f' : pmm) : Prop :=
  bitmap_4k f' = bitmap_4k f ∧ total_blocks f' = total_blocks f.

(** Frame [x] belongs to the run of [n] frames from [b] on. *)
Definition in_frames (b n x : Z) : bool := (b <=? x) && (x <? b + n).

Lemma frames_alloc f n :
  pmm_wf f → 0 < n < 4294967296 →
  pmm_alloc_pages n f = Ret 0 f ∨
  ∃ b f', pmm_alloc_pages n f = Ret (b * 4096) f' ∧ 0 < b ∧ b + n <= total_blocks f ∧
    pmm_wf f' ∧ same_geometry f f' ∧
    (∀ x, b <= x < b + n → reserve_blocks f <= x ∧ free_block f x = true) ∧
    ∀ x, 0 <= x < total_blocks f → free_block f' x = free_block f x && negb (in_frames b n x).
Proof.
  intros Hwf Hn. destruct (alloc_pages_spec f n Hwf Hn) as [[E _]|(b & f' & E & Hb & Hend & Hrun & _ & Hcm)]; [by left|right].
  exists b, f'. destruct Hcm as [Hcore [Hbm Htot] [Hlk Hlks] Hfree _ _ _]. split_and!; try done.
  - by apply (wf_same_lock f).
  - intros x Hx. split; [|by apply Hrun]. apply free_block_unreserved; [by apply wf_core|lia|by apply Hrun].
Qed.

Lemma frames_free f b n :
  pmm_wf f → 0 < n → reserve_blocks f <= b → 0 <= b → b + n <= total_blocks f →
  ∃ f', pmm_free_pages (b * 4096) n f = Ret tt f' ∧ pmm_wf f' ∧ same_geometry f f' ∧
    ∀ x, 0 <= x < total_blocks f → free_block f' x = free_block f x || in_frames b n x.
Proof.
  intros Hwf Hn Hr Hb Hend. pose proof (wf_total f (wf_core f Hwf)).
  assert (b * 4096 / 4096 = b) as Hdiv by (apply Z.div_mul; lia).
  destruct (free_pages_eq f (b * 4096) n Hwf ltac:(lia) ltac:(lia) ltac:(lia)) as (f' & E & Hp).
  rewrite Hdiv, Z.min_l in Hp by lia. exists f'. split_and!; [done|..].
  - apply (progress_wf f _ f' Hwf Hp). intros x Hx Hxr. unfold plus_run.
    rewrite (wf_reserved f (wf_core f Hwf)) by lia. simpl. apply andb_false_iff. left. apply Z.leb_gt. lia.
  - by destruct Hp as [[F1 F2 F3 F4 F5 F6] _ _].
  - intros x Hx. by rewrite (pr_free _ _ _ Hp) by lia.
Qed.

(** ** The regions that translate *)

Lemma look_regions_insert rs1 r rs2 va :
  Forall region_ok (rs1 ++ r :: rs2) → ordered (rs1 ++ r :: rs2) →
  look_regions (rs1 ++ r :: rs2) va =
    if covers va r then Some (rg_pa r + (va - start_va r), flag 1 (rg_flags r))
    else look_regions (rs1 ++ rs2) va.
Proof.
  intros Hok Ho. destruct (ordered_app _ _ _ Ho) as [F1 _]. unfold look_regions.
  induction rs1 as [|q rs1 IH]; simpl in *.
  - by destruct (covers va r).
  - inversion Hok as [|? ? Hq Hok']; inversion Ho; inversion F1 as [|? ? Hqr F1']; subst.
    destruct (covers va q) eqn:Eq.
    + destruct (covers va r) eqn:Er; [|done]. apply covers_iff in Eq; [|done]. apply covers_iff in Er; [lia|].
      apply Forall_app in Hok' as [_ Hok']. by inversion Hok'.
    + by apply IH.
Qed.

Section ops.
Context {LY : Layout} {A : Type} `{!Allocator A}.
Notation vm := (vm A).

(** ** The invariants *)

(** [r] owns frame [b]. *)
Definition owns_frame (r : vmm_region) (b : Z) : Prop :=
  own_phys r ≠ 0 ∧ rg_pa r <= b * 4096 < rg_pa r + rg_size r.

(** A frame that was handed out and not given back. *)
Definition allocated (f : pmm) (b : Z) : Prop :=
  0 <= b < total_blocks f ∧ reserve_blocks f <= b ∧ free_block f b = false.

(** What the processes share; [L] are the heap addresses in use. *)
Record world (w : vm) (L : gset Z) : Prop := {
  wd_heap : owns (v_heap w) L;
  wd_regions : dom (regions w) ⊆ L;
  wd_frames : pmm_wf (v_frames w);
  wd_pg : pg_ok (v_pg w);
  wd_owned : ∀ p r b, regions w !! p = Some r → owns_frame r b → allocated (v_frames w) b;
  wd_apart : ∀ p p' r r' b, regions w !! p = Some r → regions w !! p' = Some r' → p ≠ p' →
    owns_frame r b → ¬ owns_frame r' b;
}.

Record space (w : vm) (L : gset Z) (v : Z) (c : vmm_control_block) (ns : list Z) (rs : list vmm_region) : Prop := {
  sp_tree : tree_of w v c ns rs;
  sp_live : v ≠ 0 ∧ v_tree c ≠ 0;
  sp_mem : v_tree c ∈ L ∧ nil (v_rb c) ∈ L ∧ regions w !! v_tree c = None ∧ regions w !! nil (v_rb c) = None;
  sp_lock : ∃ l, v_lock c = Some l ∧ v_locks w !! l = Some LOCK_UNLOCKED;
  sp_pg : space_pg (v_pg w) (v_cr3 c);
  sp_look : ∀ va, USER_HEAP_END <= va < 4294967296 → look (v_pg w) (v_cr3 c) va = look_regions rs va;
}.

(** The space of a process that the step of another one leaves alone. *)
Lemma space_other (w w' : vm) L L' d v c ns rs :
  space w L v c ns rs → vcbs w' !! v = vcbs w !! v →
  (∀ q, q ∈ ns → regions w' !! q = regions w !! q) → v_locks w' = v_locks w →
  spares (v_pg w) (v_pg w') d → pg_ok (v_pg w') → separate (v_pg w) d (v_cr3 c) →
  v_tree c ∈ L' → nil (v_rb c) ∈ L' → regions w' !! v_tree c = None → regions w' !! nil (v_rb c) = None →
  space w' L' v c ns rs.
Proof.
  intros [Ht Hl Hm Hk Hp Hlook] Hv Hr Hlk [_ Hsp] Hok Hsep H1 H2 H3 H4.
  destruct (Hsp _ Hsep) as ((Hwf & _ & _) & He & Htr). constructor; try done.
  - eapply tree_of_keep; [|exact Hr|exact Ht]. rewrite Hv. apply (tr_vcb _ _ _ _ _ Ht).
  - by rewrite Hlk.
  - constructor; [done|done|]. intros j Hj. rewrite He by lia. by apply (sg_small _ _ Hp).
  - intros va Hva. unfold look. rewrite Htr. by apply Hlook.
Qed.
(** Another process whose space is apart from that of [v]. *)
Definition beside (w : vm) (L : gset Z) (v : Z) (c : vmm_control_block) (ns : list Z)
    (v' : Z) (c' : vmm_control_block) (ns' : list Z) (rs' : list vmm_region) : Prop :=
  v' ≠ v ∧ space w L v' c' ns' rs' ∧ separate (v_pg w) (v_cr3 c) (v_cr3 c') ∧ ∀ p, p ∈ ns → p ∉ ns'.

(** The state after a step of [v]: its control block, the regions, the heap,
    the frames and the page tables may differ. *)
Definition stepped (w : vm) v c rg h f g : vm := mk_vm (<[v := c]> (vcbs w)) rg h f g (v_locks w).

(** A step of [v] from [w] to [w'], after which its control block is [c2]: the
    other control blocks are as before, so are the directories and translations
    of separate spaces, and a space apart from that of [v] stays one. *)
Definition spared (w : vm) (L : gset Z) (v : Z) (c : vmm_control_block) (ns : list Z)
    (w' : vm) (L' : gset Z) (c2 : vmm_control_block) (ns2 : list Z) : Prop :=
  (vcbs w' = <[v := c2]> (vcbs w) ∧ nil (v_rb c2) = nil (v_rb c) ∧ total_blocks (v_frames w') = total_blocks (v_frames w)) ∧
  spares (v_pg w) (v_pg w') (v_cr3 c) ∧
  ∀ v' c' ns' rs', beside w L v c ns v' c' ns' rs' → beside w' L' v c2 ns2 v' c' ns' rs'.

Lemma spared_trans w w1 w2 L L1 L2 v c c1 c2 ns ns1 ns2 :
  v_cr3 c1 = v_cr3 c → spared w L v c ns w1 L1 c1 ns1 → spared w1 L1 v c1 ns1 w2 L2 c2 ns2 →
  spared w L v c ns w2 L2 c2 ns2.
Proof.
  intros Ec ((E1 & N1 & T1) & S1 & B1) ((E2 & N2 & T2) & S2 & B2). rewrite Ec in S2. split; [split|split].
  - by rewrite E2, E1, insert_insert_eq.
  - split; congruence.
  - by eapply spares_trans.
  - intros v' c' ns' rs' H. by apply B2, B1.
Qed.

Lemma allocated_keep f f' b :
  same_geometry f f' → (0 <= b < total_blocks f → free_block f b = false → free_block f' b = false) →
  allocated f b → allocated f' b.
Proof.
  intros [Hb Ht] Hf (H1 & H2 & H3). unfold allocated. rewrite (reserve_blocks_ext f), Ht by done. auto.
Qed.

(** A step that leaves the regions as they were. *)
Lemma stepped_same w L v c ns rs t h f g :
  world w L → space w L v c ns rs → nil t = nil (v_rb c) →
  tree_of (stepped w v (with_rb t c) (regions w) h f g) v (with_rb t c) ns rs →
  owns h L → pmm_wf f → same_geometry (v_frames w) f →
  (∀ x, 0 <= x < total_blocks (v_frames w) → free_block f x = free_block (v_frames w) x) →
  space_pg g (v_cr3 c) → spares (v_pg w) g (v_cr3 c) →
  (∀ va, USER_HEAP_END <= va < 4294967296 → look g (v_cr3 c) va = look (v_pg w) (v_cr3 c) va) →
  let w' := stepped w v (with_rb t c) (regions w) h f g in
  world w' L ∧ space w' L v (with_rb t c) ns rs ∧
  spared w L v c ns w' L (with_rb t c) ns.
Proof.
  intros [W1 W2 W3 W4 W5 W6] [S1 S2 S3 S4 S5 S6] En Ht Hh Hf Hgeo Hfree Hg Hsp Hlook w'. split_and!.
  - constructor; try done; [apply (sg_ok _ _ Hg)|]. intros p r b Hp Hb.
    apply (allocated_keep (v_frames w)); [done| |by eapply W5]. intros Hx. by rewrite Hfree.
  - constructor; simpl; try done; [by rewrite En|]. intros va Hva. rewrite Hlook by done. by apply S6.
  - split; [by split_and!; [..|apply Hgeo]|split; [done|]]. intros v' c' ns' rs' (Hne & Hs & Hsep & Hd). pose proof (sp_mem _ _ _ _ _ _ Hs) as (M1 & M2 & M3 & M4). split_and!; try done.
    + eapply (space_other w); try done; [by apply lookup_insert_ne, not_eq_sym|apply (sg_ok _ _ Hg)].
    + by apply Hsp.
Qed.

(** A step that adds region [r] at a fresh address [p]. *)
Lemma stepped_grow w L v c ns rs1 rs2 t ns' p r h f g :
  world w L → space w L v c ns (rs1 ++ rs2) → nil t = nil (v_rb c) → p ∉ L → ns' ≡ₚ p :: ns →
  tree_of (stepped w v (with_rb t c) (<[p := r]> (regions w)) h f g) v (with_rb t c) ns' (rs1 ++ r :: rs2) →
  owns h ({[p]} ∪ L) → pmm_wf f → same_geometry (v_frames w) f →
  (∀ b, owns_frame r b → 0 <= b < total_blocks (v_frames w) ∧ reserve_blocks (v_frames w) <= b ∧
     free_block (v_frames w) b = true ∧ free_block f b = false) →
  (∀ x, 0 <= x < total_blocks (v_frames w) → free_block (v_frames w) x = false → free_block f x = false) →
  space_pg g (v_cr3 c) → spares (v_pg w) g (v_cr3 c) →
  (∀ va, USER_HEAP_END <= va < 4294967296 → look g (v_cr3 c) va =
     if covers va r then Some (rg_pa r + (va - start_va r), flag 1 (rg_flags r)) else look (v_pg w) (v_cr3 c) va) →
  let w' := stepped w v (with_rb t c) (<[p := r]> (regions w)) h f g in
  world w' ({[p]} ∪ L) ∧ space w' ({[p]} ∪ L) v (with_rb t c) ns' (rs1 ++ r :: rs2) ∧
  spared w L v c ns w' ({[p]} ∪ L) (with_rb t c) ns'.
Proof.
  intros [W1 W2 W3 W4 W5 W6] [S1 S2 S3 S4 S5 S6] En HpL Hns Ht Hh Hf Hgeo Hown Hkeep Hg Hsp Hlook w'.
  assert (Hold : ∀ q, q ∈ L → regions w' !! q = regions w !! q).
  { intros q Hq. apply lookup_insert_ne. by intros ->. }
  assert (Hdom : ∀ q x, regions w !! q = Some x → q ∈ L).
  { intros q x Hq. apply W2. by eapply elem_of_dom_2. }
  split_and!.
  - constructor; try done; [simpl; set_solver|apply (sg_ok _ _ Hg)|..].
    + intros q x b Hq Hb. simpl in Hq. apply lookup_insert_Some in Hq as [[<- <-]|[Hne Hq]].
      * destruct (Hown b Hb) as (? & ? & ? & ?). unfold allocated. simpl.
        rewrite (reserve_blocks_ext (v_frames w)) by apply Hgeo. destruct Hgeo as [_ ->]. done.
      * apply (allocated_keep (v_frames w)); [done|by apply Hkeep|by eapply W5].
    + intros q q' x x' b Hq Hq' Hne Hb Hb'. simpl in Hq, Hq'.
      apply lookup_insert_Some in Hq as [[<- <-]|[_ Hq]]; apply lookup_insert_Some in Hq' as [[<- <-]|[_ Hq']].
      * done.
      * destruct (Hown b Hb) as (_ & _ & Hfr & _). destruct (W5 _ _ _ Hq' Hb') as (_ & _ & ?). congruence.
      * destruct (Hown b Hb') as (_ & _ & Hfr & _). destruct (W5 _ _ _ Hq Hb) as (_ & _ & ?). congruence.
      * by eapply (W6 q q').
  - destruct S3 as (M1 & M2 & M3 & M4). constructor; simpl; try done.
    + rewrite En. split_and!; [set_solver|set_solver|..]; rewrite lookup_insert_ne; (done || by intros ->).
    + intros va Hva. rewrite Hlook, S6 by done. symmetry.
      apply look_regions_insert; [apply (tr_ok _ _ _ _ _ Ht)|apply (tr_ord _ _ _ _ _ Ht)].
  - split; [by split_and!; [..|apply Hgeo]|split; [done|]]. intros v' c' ns'' rs' (Hne & Hs & Hsep & Hd). pose proof (sp_mem _ _ _ _ _ _ Hs) as (M1 & M2 & M3 & M4).
    assert (Hin : ∀ q, q ∈ ns'' → q ∈ L).
    { intros q Hq. destruct (tree_region _ _ _ _ _ _ (sp_tree _ _ _ _ _ _ Hs) Hq) as [x Hx]. by eapply Hdom. }
    split_and!; [done| |by apply Hsp|].
    + eapply (space_other w); try done; [by apply lookup_insert_ne, not_eq_sym| |apply (sg_ok _ _ Hg)|set_solver|set_solver|..].
      * intros q Hq. by apply Hold, Hin.
      * by rewrite Hold.
      * by rewrite Hold.
    + intros q Hq. rewrite Hns, elem_of_cons in Hq. destruct Hq as [->|Hq]; [|by apply Hd]. intros Hq%Hin. done.
Qed.
(** ** Allocation *)

Lemma place_uncovered n va rs1 rs2 a :
  place n va rs1 rs2 → Forall region_ok (rs1 ++ rs2) → va <= a < va + n → look_regions (rs1 ++ rs2) a = None.
Proof.
  intros (_ & _ & _ & F1 & F2) [Hok1 Hok2]%Forall_app Ha. unfold look_regions.
  assert (List.find (covers a) (rs1 ++ rs2) = None) as ->; [|done].
  apply find_None_Forall, Forall_app. rewrite Forall_forall in F1, F2, Hok1, Hok2.
  split; apply Forall_forall; intros q Hq; apply not_true_is_false; intros Hc.
  - apply covers_iff in Hc; [|by apply Hok1]. specialize (F1 q Hq). lia.
  - apply covers_iff in Hc; [|by apply Hok2]. specialize (F2 q Hq). lia.
Qed.

Lemma choice_place n rs va :
  Forall region_ok rs → ordered rs → (rs = [] → n <= 805306367) →
  choice n USER_ANON_BASE rs = Some va → ∃ rs1 rs2, rs = rs1 ++ rs2 ∧ place n va rs1 rs2.
Proof.
  intros Hok Ho Hn E. destruct rs as [|r rs]; [|by apply first_gap_place].
  injection E as <-. exists [], []. split; [done|]. specialize (Hn eq_refl).
  unfold place, USER_ANON_BASE, USER_HEAP_END. by split_and!; [|lia|lia|constructor|constructor].
Qed.

(** The region of an allocation. *)
Definition anon (va n flags pa : Z) : vmm_region := mk_region va (n * 4096) flags pa 1.

Lemma anon_ok va n flags b rs1 rs2 :
  place (n * 4096) va rs1 rs2 → 0 < n → 0 < b → b + n < 1048576 → flag 0 flags = true →
  region_ok (anon va n flags (b * 4096)).
Proof.
  intros (P1 & P2 & P3 & _) Hn Hb Hend Hf. constructor; simpl; try done; unfold rg_end; simpl; try lia.
  - split; [apply Z.mod_mul; lia|lia].
  - split; [apply Z.mod_mul; lia|lia].
Qed.

Lemma anon_covers va n flags pa a :
  0 <= va → 0 <= n → va + n * 4096 < 4294967296 → covers a (anon va n flags pa) = in_run va 0 n a.
Proof.
  intros H1 H2 H3. unfold covers, in_run, anon. simpl. rewrite u32_small by (unfold is_u32; lia).
  by rewrite Z.add_0_r.
Qed.

Lemma pages_too_many_eq n va : 0 <= va → pages_too_many n va = (4294967295 <? va + n * 4096).
Proof.
  intros H. unfold pages_too_many, PAGE_SIZE. apply eq_bool_prop_intro. rewrite !Is_true_true, !Z.ltb_lt.
  split; intros H'.
  - pose proof (Z.mul_succ_div_gt (4294967295 - va) 4096 ltac:(lia)). lia.
  - apply Z.div_lt_upper_bound; lia.
Qed.

(** Frames given back right after they were taken. *)
Lemma frames_restored f b n f1 :
  pmm_wf f → 0 < n → 0 < b → b + n <= total_blocks f → pmm_wf f1 → same_geometry f f1 →
  (∀ x, b <= x < b + n → reserve_blocks f <= x ∧ free_block f x = true) →
  (∀ x, 0 <= x < total_blocks f → free_block f1 x = free_block f x && negb (in_frames b n x)) →
  ∃ f2, pmm_free_pages (b * 4096) n f1 = Ret tt f2 ∧ pmm_wf f2 ∧ same_geometry f f2 ∧
    ∀ x, 0 <= x < total_blocks f → free_block f2 x = free_block f x.
Proof.
  intros Hf Hn Hb Hend Hf1 [G1 G2] Hrun Hfree.
  destruct (frames_free f1 b n Hf1 Hn) as (f2 & E & Hf2 & [G3 G4] & Hfree2); [|lia|lia|].
  { rewrite (reserve_blocks_ext f) by done. apply Hrun. lia. }
  exists f2. split_and!; [done|done|split; congruence|]. intros x Hx. rewrite Hfree2, Hfree by lia.
  destruct (in_frames b n x) eqn:E'; simpl; [|by rewrite andb_true_r, orb_false_r].
  unfold in_frames in E'. zprop. destruct (Hrun x ltac:(lia)) as [_ ->]. done.
Qed.

(** What holds of [v] and of the other processes when nothing came of a request. *)
Definition unchanged (w : vm) (L : gset Z) v c ns rs (w' : vm) : Prop :=
  ∃ t, world w' L ∧ space w' L v (with_rb t c) ns rs ∧
    (∀ x, 0 <= x < total_blocks (v_frames w) → free_block (v_frames w') x = free_block (v_frames w) x) ∧
    spared w L v c ns w' L (with_rb t c) ns.

Lemma with_rb_id c : with_rb (v_rb c) c = c.
Proof. by destruct c. Qed.

Lemma unchanged_parts w L v c ns rs h f :
  world w L → space w L v c ns rs → owns h L → pmm_wf f → same_geometry (v_frames w) f →
  (∀ x, 0 <= x < total_blocks (v_frames w) → free_block f x = free_block (v_frames w) x) →
  unchanged w L v c ns rs (mk_vm (vcbs w) (regions w) h f (v_pg w) (v_locks w)).
Proof.
  intros Hw Hs Hh Hf Hg Hfree. exists (v_rb c). pose proof (sp_tree _ _ _ _ _ _ Hs) as Ht.
  pose proof (stepped_same w L v c ns rs (v_rb c) h f (v_pg w) Hw Hs eq_refl) as H.
  unfold stepped in H. rewrite with_rb_id, insert_id in H by apply (tr_vcb _ _ _ _ _ Ht). rewrite with_rb_id.
  destruct H as (H1 & H2 & H3);
    [by destruct Ht|done|done|done|done|apply (sp_pg _ _ _ _ _ _ Hs)|apply spares_refl|done|].
  by split_and!.
Qed.

Lemma relock (K : lock_table) l :
  K !! l = Some LOCK_UNLOCKED → <[l := LOCK_UNLOCKED]> (<[l := LOCK_LOCKED]> K) = K.
Proof. intros H. rewrite list_insert_insert_eq. by apply list_insert_id. Qed.
(** The last part of [vmm_alloc_pages]: the pages are mapped, or the region
    and its frames are given up again. *)
Lemma alloc_map_run w L v c ns1 ns2 rs1 rs2 t p va n flags b h f1 l :
  world w L → space w L v c (ns1 ++ ns2) (rs1 ++ rs2) → length ns1 = length rs1 → 0 < n → 0 < b → b + n <= total_blocks (v_frames w) →
  flag 0 flags = true → place (n * 4096) va rs1 rs2 → p ∉ L → nil t = nil (v_rb c) →
  v_lock c = Some l → v_locks w !! l = Some LOCK_UNLOCKED → owns h ({[p]} ∪ L) →
  pmm_wf f1 → same_geometry (v_frames w) f1 →
  (∀ x, b <= x < b + n → reserve_blocks (v_frames w) <= x ∧ free_block (v_frames w) x = true) →
  (∀ x, 0 <= x < total_blocks (v_frames w) →
     free_block f1 x = free_block (v_frames w) x && negb (in_frames b n x)) →
  let r := anon va n flags (b * 4096) in
  let w1 := stepped w v (with_rb t c) (<[p := r]> (regions w)) h f1 (v_pg w) in
  tree_of w1 v (with_rb t c) (ns1 ++ p :: ns2) (rs1 ++ r :: rs2) →
  ∃ x w', (f ← gzoom (map_run (Z.to_nat (n * 4096 / PAGE_SIZE)) (v_cr3 c) va (b * 4096) flags 0);
      match f with
      | None => mret va
      | Some i =>
          gzoom (unmap_run (Z.to_nat i) (v_cr3 c) va 0);;
          lzoom (spinlock_lock (v_lock c));;
          on_tree v (rbtree_delete p);;
          lzoom (spinlock_unlock (v_lock c));;
          fzoom (pmm_free_pages (b * 4096) n);;
          free_region p;;
          mret 0
      end) w1 = Ret x w' ∧
    (x = 0 ∧ unchanged w L v c (ns1 ++ ns2) (rs1 ++ rs2) w' ∨
     x = va ∧ v_frames w' = f1 ∧ world w' ({[p]} ∪ L) ∧
     space w' ({[p]} ∪ L) v (with_rb t c) (ns1 ++ p :: ns2) (rs1 ++ r :: rs2) ∧
     spared w L v c (ns1 ++ ns2) w' ({[p]} ∪ L) (with_rb t c) (ns1 ++ p :: ns2)).
Proof.
  intros Hw Hs Hlen Hn Hb Hend Hf Hpl HpL Hnil Hl Hul Hh Hf1 Hgeo Hrun Hfree r w1 Ht.
  pose proof Hpl as (P1 & P2 & P3 & _ & _). pose proof (wf_total _ (wf_core _ (wd_frames _ _ Hw))) as Htot.
  pose proof (tr_ok _ _ _ _ _ (sp_tree _ _ _ _ _ _ Hs)) as Hok.
  unfold PAGE_SIZE. rewrite Z.div_mul by lia.
  assert (Hcov : ∀ a, covers a r = in_run va 0 n a).
  { intros a. apply anon_covers; unfold USER_HEAP_END in *; lia. }
  destruct (map_or_roll (Z.to_nat n) (v_pg w) (v_cr3 c) va (b * 4096) flags (sp_pg _ _ _ _ _ _ Hs) Hf P1)
    as (o & g1 & Em & Ho); rewrite ?Z2Nat.id by lia; [apply Z.mod_mul; lia|done|lia|lia|lia|..].
  { intros a Ha. unfold in_run in Ha. zprop. unfold USER_HEAP_END in *.
    rewrite (sp_look _ _ _ _ _ _ Hs) by (unfold USER_HEAP_END; lia).
    eapply place_uncovered; [done|done|lia]. }
  rewrite Z2Nat.id in Ho by lia. rewrite (bind_Ret _ _ _ _ _ (gzoom_run _ w1 _ _ Em)). destruct o as [i|].
  - destruct Ho as (g2 & Eu & Hg2 & Hsp & Hlook). rewrite (bind_Ret _ _ _ _ _ (gzoom_run _ (set_v_pg g1 w1) _ _ Eu)).
    set (w2 := set_v_pg g2 (set_v_pg g1 w1)). rewrite Hl.
    rewrite (bind_Ret _ _ _ _ _ (lock_run w2 l Hul)).
    set (w3 := set_v_locks (<[l := LOCK_LOCKED]> (v_locks w2)) w2).
    destruct (tree_delete_ok w3 v (with_rb t c) ns1 p ns2 rs1 r rs2) as (t2 & Ed & En2 & Ht2); [by destruct Ht|done|].
    rewrite (bind_Ret _ _ _ _ _ Ed).
    rewrite (bind_Ret _ _ _ _ _ (unlock_run (set_vcbs _ w3) l ltac:(simpl; rewrite length_insert; by eapply lookup_lt_Some))).
    destruct (frames_restored (v_frames w) b n f1) as (f2 & Ef & Hf2 & Hg2' & Hfree2); try done; [apply Hw|].
    erewrite bind_Ret; [|apply fzoom_run; exact Ef].
    destruct (kfree_ok h ({[p]} ∪ L) p Hh ltac:(set_solver)) as (h2 & Ek & Hh2).
    unfold free_region. rewrite bind_assoc. rewrite (bind_Ret (modify _) _ _ tt _ eq_refl).
    erewrite bind_Ret; [|apply hzoom_run; exact Ek].
    eexists _, _. split; [reflexivity|left]. split; [done|].
    assert (Hrp : regions w !! p = None).
    { apply not_elem_of_dom. intros Hd. by apply HpL, (wd_regions _ _ Hw). }
    exists t2.
    match goal with |- world ?x _ ∧ _ => assert (x = stepped w v (with_rb t2 c) (regions w) h2 f2 g2) as -> end.
    { unfold stepped, set_v_heap, set_regions, set_v_frames, set_v_locks, set_vcbs. simpl.
      rewrite delete_insert_id, relock, insert_insert_eq by done. done. }
    destruct (stepped_same w L v c (ns1 ++ ns2) (rs1 ++ rs2) t2 h2 f2 g2) as (W' & S' & B'); try done.
    + by rewrite En2.
    + apply Ht2; [apply lookup_insert_eq|]. intros q Hq. simpl. by rewrite lookup_insert_ne.
    + replace L with (({[p]} ∪ L) ∖ {[p]}) by set_solver. done.
    + intros a Ha. apply Hlook. unfold is_u32, USER_HEAP_END in *. lia.
  - destruct Ho as (Hg1 & Hsp & Hlook). eexists _, _. split; [reflexivity|right]. split; [done|]. split; [done|].
    apply (stepped_grow w L v c (ns1 ++ ns2) rs1 rs2 t _ p r h f1 g1); try done.
    + by rewrite Permutation_middle.
    + by destruct Ht.
    + intros x [_ Hx]. simpl in Hx. destruct (Hrun x ltac:(lia)) as [? Hfx]. split_and!; [lia|lia|done|done|].
      rewrite Hfree, Hfx by lia. simpl. unfold in_frames. apply negb_false_iff, andb_true_iff. rewrite Z.leb_le, Z.ltb_lt. lia.
    + intros x Hx Hfx. rewrite Hfree, Hfx by done. done.
    + intros a Ha. rewrite Hlook by (unfold is_u32, USER_HEAP_END in *; lia). by rewrite Hcov.
Qed.
Lemma stepped_locks w v c rg h f g K : K = v_locks w →
  mk_vm (<[v := c]> (vcbs w)) rg h f g K = stepped w v c rg h f g.
Proof. by intros ->. Qed.

Lemma vmm_alloc_pages_run w L v c ns rs n flags :
  world w L → space w L v c ns rs → 0 < n < 4294967296 → flag 0 flags = true →
  (rs = [] → n <= 196607 ∨ total_blocks (v_frames w) <= 196608) →
  ∃ va w', vmm_alloc_pages v n flags w = Ret va w' ∧
    (va = 0 ∧ unchanged w L v c ns rs w' ∨
     ∃ p b t ns1 ns2 rs1 rs2, p ∉ L ∧ ns = ns1 ++ ns2 ∧ rs = rs1 ++ rs2 ∧ length ns1 = length rs1 ∧
       choice (n * 4096) USER_ANON_BASE rs = Some va ∧ place (n * 4096) va rs1 rs2 ∧
       world w' ({[p]} ∪ L) ∧
       space w' ({[p]} ∪ L) v (with_rb t c) (ns1 ++ p :: ns2) (rs1 ++ anon va n flags (b * 4096) :: rs2) ∧
       total_blocks (v_frames w') = total_blocks (v_frames w) ∧
       (∀ x, b <= x < b + n → free_block (v_frames w) x = true) ∧
       (∀ x, 0 <= x < total_blocks (v_frames w) →
          free_block (v_frames w') x = free_block (v_frames w) x && negb (in_frames b n x)) ∧
       spared w L v c ns w' ({[p]} ∪ L) (with_rb t c) (ns1 ++ p :: ns2)).
Proof.
  intros Hw Hs Hn Hf Hemp. pose proof (sp_tree _ _ _ _ _ _ Hs) as Ht. destruct (sp_live _ _ _ _ _ _ Hs) as [Hv0 Ht0].
  destruct (sp_lock _ _ _ _ _ _ Hs) as (l & Hl & Hul). pose proof (wf_total _ (wf_core _ (wd_frames _ _ Hw))) as Htot.
  unfold vmm_alloc_pages. rewrite (proj2 (Z.eqb_neq v 0)) by done.
  rewrite (bind_Ret _ _ _ _ _ (vcb_run _ _ _ (tr_vcb _ _ _ _ _ Ht))).
  rewrite (proj2 (Z.eqb_neq (v_tree c) 0)), (proj2 (Z.eqb_neq n 0)) by (done || lia). cbn [orb].
  destruct (frames_alloc (v_frames w) n (wd_frames _ _ Hw) Hn) as [E|(b & f1 & E & Hb & Hend & Hf1 & Hgeo & Hrun & Hfree)];
    rewrite (bind_Ret _ _ _ _ _ (fzoom_run _ w _ _ E)).
  { eexists 0, _. split; [reflexivity|left]. split; [done|].
    exact (unchanged_parts w L v c ns rs _ _ Hw Hs (wd_heap _ _ Hw) (wd_frames _ _ Hw) (conj eq_refl eq_refl) (λ _ _, eq_refl)). }
  rewrite (proj2 (Z.eqb_neq (b * 4096) 0)) by lia.
  destruct (frames_restored (v_frames w) b n f1 (wd_frames _ _ Hw) ltac:(lia) Hb Hend Hf1 Hgeo Hrun Hfree)
    as (f2 & Ef & Hf2 & Hg2 & Hfree2).
  destruct (kmalloc_ok (v_heap w) L sizeof_vmm_region (wd_heap _ _ Hw) ltac:(done))
    as [(h & Ek & Hh)|(p & h & Ek & Hp & HpL & Hh)];
    rewrite (bind_Ret _ _ _ _ _ (hzoom_run _ (set_v_frames f1 w) _ _ Ek)).
  { rewrite Z.eqb_refl. erewrite bind_Ret; [|apply fzoom_run; exact Ef].
    eexists 0, _. split; [reflexivity|left]. split; [done|].
    exact (unchanged_parts w L v c ns rs h f2 Hw Hs Hh Hf2 Hg2 Hfree2). }
  rewrite (proj2 (Z.eqb_neq p 0)) by lia. rewrite Hl.
  set (w1 := set_v_heap h (set_v_frames f1 w)). rewrite (bind_Ret _ _ _ _ _ (lock_run w1 l Hul)). cbn [negb Z.eqb].
  set (w2 := set_v_locks (<[l := LOCK_LOCKED]> (v_locks w1)) w1).
  unfold PAGE_SIZE. rewrite (u32_small (n * 4096)), (u32_small (4096 * n)), (Z.mul_comm 4096 n) by (unfold is_u32; lia).
  rewrite (bind_Ret _ _ _ _ _ (choose_run (pages_too_many n) (n * 4096) USER_ANON_BASE w2 v c ns rs
    ltac:(by destruct Ht) ltac:(lia) (λ va Hva, pages_too_many_eq n va (proj1 Hva)))).
  assert (Hlen : (l < length (v_locks w))%nat) by (by eapply lookup_lt_Some).
  destruct (choice (n * 4096) USER_ANON_BASE rs) as [va|] eqn:Ec.
  2: { rewrite (bind_Ret _ _ _ _ _ (unlock_run w2 l ltac:(simpl; by rewrite length_insert))).
       erewrite bind_Ret; [|apply fzoom_run; exact Ef].
       destruct (kfree_ok h ({[p]} ∪ L) p Hh ltac:(set_solver)) as (h2 & Ek2 & Hh2).
       erewrite bind_Ret; [|apply hzoom_run; exact Ek2].
       eexists 0, _. split; [reflexivity|left]. split; [done|].
       unfold set_v_heap, set_v_frames, set_v_locks. simpl. rewrite relock by done.
       apply (unchanged_parts w L v c ns rs h2 f2); try done. by replace L with (({[p]} ∪ L) ∖ {[p]}) by set_solver. }
  destruct (choice_place (n * 4096) rs va (tr_ok _ _ _ _ _ Ht) (tr_ord _ _ _ _ _ Ht) ltac:(intros; specialize (Hemp ltac:(done)); lia) Ec)
    as (rs1 & rs2 & -> & Hpl).
  assert (Hrp : regions w !! p = None).
  { apply not_elem_of_dom. intros Hd. by apply HpL, (wd_regions _ _ Hw). }
  destruct (tree_insert_ok w2 v c ns rs1 rs2 (n * 4096) va p (anon va n flags (b * 4096)))
    as (t & ns1 & ns2 & Ei & En & -> & Hln & Ht'); try done.
  { by destruct Ht. } { eapply anon_ok; (done || lia). } { intros ->. by apply HpL, (sp_mem _ _ _ _ _ _ Hs). } { lia. }
  rewrite <- bind_assoc. unfold anon in Ei. rewrite (bind_Ret _ _ _ _ _ Ei). fold (anon va n flags (b * 4096)).
  set (r := anon va n flags (b * 4096)) in *.
  assert (Eu : lzoom (spinlock_unlock (Some l))
      (set_vcbs (<[v := with_rb t c]> (vcbs w2)) (set_regions (<[p := r]> (regions w2)) w2))
    = Ret 0 (stepped w v (with_rb t c) (<[p := r]> (regions w)) h f1 (v_pg w))).
  { rewrite unlock_run by (simpl; by rewrite length_insert). f_equal.
    exact (stepped_locks w v _ (<[p := r]> (regions w)) h f1 (v_pg w) _ (relock _ _ Hul)). }
  rewrite (bind_Ret _ _ _ _ _ Eu). rewrite <- Hl.
  destruct (alloc_map_run w L v c ns1 ns2 rs1 rs2 t p va n flags b h f1 l Hw Hs Hln ltac:(lia) Hb Hend Hf Hpl HpL En Hl Hul
    Hh Hf1 Hgeo Hrun Hfree) as (x & w' & Em & Hres); [by destruct Ht'|].
  exists x, w'. split; [exact Em|]. destruct Hres as [[-> Hun]|(-> & Efr & Hw' & Hs' & Hbs)]; [by left|right].
  exists p, b, t, ns1, ns2, rs1, rs2. rewrite Efr. split_and!; try done; [apply Hgeo|]. intros y Hy. by apply Hrun.
Qed.
(** ** Finding a region *)

(** The node of the first region that [q] accepts. *)
Fixpoint find_node (q : vmm_region → bool) (ns : list Z) (rs : list vmm_region) : Z :=
  match ns, rs with
  | n :: ns, r :: rs => if q r then n else find_node q ns rs
  | _, _ => 0
  end.

Lemma find_region_run q fuel (w : vm) v c ns1 ns2 rs1 rs2 :
  tree_of w v c (ns1 ++ ns2) (rs1 ++ rs2) → length ns1 = length rs1 → (length ns2 ≤ fuel)%nat →
  find_region q fuel v (end_of DL ns2) w = Ret (find_node q ns2 rs2) w.
Proof.
  revert ns1 ns2 rs1 rs2. induction fuel as [|fuel IH]; intros ns1 ns2 rs1 rs2 H Hl Hf.
  all: pose proof (tr_regions _ _ _ _ _ H) as [_ H2]%Forall2_app_inv; [|done].
  all: destruct H2 as [|m k ns2 rs2 Hm H2]; [done|]; simpl in Hf.
  { lia. }
  change (end_of DL (m :: ns2)) with m. cbn [find_region find_node].
  rewrite (proj2 (Z.eqb_neq m 0)). 2: { eapply node_nonzero; [exact H|]. apply elem_of_app. right. left. }
  rewrite (bind_Ret _ _ _ _ _ (region_run _ _ _ Hm)). destruct (q k); [done|].
  rewrite (bind_Ret _ _ _ _ _ (tree_next _ _ _ _ _ _ _ H)).
  apply (IH (ns1 ++ [m]) ns2 (rs1 ++ [k]) rs2); [by rewrite <- !(assoc_L (++))|rewrite !length_app; simpl; lia|lia].
Qed.

Lemma first_region_run q (w : vm) v c ns rs :
  tree_of w v c ns rs → first_region q v w = Ret (find_node q ns rs) w.
Proof.
  intros H. unfold first_region. rewrite (bind_Ret _ _ _ _ _ (vcb_run _ _ _ (tr_vcb _ _ _ _ _ H))).
  rewrite (bind_Ret _ _ _ _ _ (tree_first _ _ _ _ _ H)).
  apply (find_region_run q _ w v c [] ns [] rs H); [done|].
  pose proof (tree_ok_null _ _ _ (tr_tree _ _ _ _ _ H)) as [_ ?]. unfold fuel_of. lia.
Qed.

Lemma find_node_hit q ns1 p ns2 rs1 r rs2 :
  length ns1 = length rs1 → Forall (λ k, q k = false) rs1 → q r = true →
  find_node q (ns1 ++ p :: ns2) (rs1 ++ r :: rs2) = p.
Proof.
  revert rs1. induction ns1 as [|n ns1 IH]; intros [|k rs1] Hl Hf Hq; try done; simpl.
  - by rewrite Hq.
  - inversion Hf as [|? ? Hk ?]; subst. rewrite Hk. simpl in Hl. apply IH; [lia|done|done].
Qed.

Lemma find_node_miss q ns rs : Forall (λ k, q k = false) rs → find_node q ns rs = 0.
Proof. intros H. revert ns. induction H as [|k rs Hk _ IH]; intros [|n ns]; try done. simpl. by rewrite Hk. Qed.

(** At most one region contains an address. *)
Lemma covers_unique rs1 r rs2 va :
  Forall region_ok (rs1 ++ r :: rs2) → ordered (rs1 ++ r :: rs2) → covers va r = true →
  Forall (λ k, covers va k = false) rs1 ∧ Forall (λ k, covers va k = false) rs2.
Proof.
  intros [H1 H2]%Forall_app Ho Hc. inversion H2 as [|? ? Hr Hok2]; subst. apply covers_iff in Hc; [|done].
  destruct (ordered_app _ _ _ Ho) as [F1 F2]. rewrite Forall_forall in F1, F2, H1, Hok2.
  split; apply Forall_forall; intros k Hk; apply not_true_is_false; intros Hk'; apply covers_iff in Hk'; auto.
  - specialize (F1 k Hk). lia.
  - specialize (F2 k Hk). lia.
Qed.

(** ** Removing a region *)

Lemma removed_place rs1 r rs2 :
  Forall region_ok (rs1 ++ r :: rs2) → ordered (rs1 ++ r :: rs2) → place (rg_size r) (start_va r) rs1 rs2.
Proof.
  intros [_ H2]%Forall_app Ho. inversion H2 as [|? ? Hr _]; subst. destruct (ordered_app _ _ _ Ho) as [F1 F2].
  pose proof (region_bounds r Hr) as (B1 & B2 & B3 & B4). unfold rg_end, USER_HEAP_END in *.
  unfold place. split_and!; [apply (ro_start _ Hr)|unfold USER_HEAP_END; lia|lia|done|done].
Qed.

Lemma stepped_shrink w L v c ns1 p ns2 rs1 r rs2 t h f g :
  world w L → space w L v c (ns1 ++ p :: ns2) (rs1 ++ r :: rs2) → length ns1 = length rs1 →
  nil t = nil (v_rb c) →
  tree_of (stepped w v (with_rb t c) (delete p (regions w)) h f g) v (with_rb t c) (ns1 ++ ns2) (rs1 ++ rs2) →
  owns h (L ∖ {[p]}) → pmm_wf f → same_geometry (v_frames w) f →
  (∀ x, 0 <= x < total_blocks (v_frames w) → ¬ owns_frame r x → free_block f x = free_block (v_frames w) x) →
  space_pg g (v_cr3 c) → spares (v_pg w) g (v_cr3 c) →
  (∀ va, USER_HEAP_END <= va < 4294967296 →
     look g (v_cr3 c) va = if covers va r then None else look (v_pg w) (v_cr3 c) va) →
  let w' := stepped w v (with_rb t c) (delete p (regions w)) h f g in
  world w' (L ∖ {[p]}) ∧ space w' (L ∖ {[p]}) v (with_rb t c) (ns1 ++ ns2) (rs1 ++ rs2) ∧
  spared w L v c (ns1 ++ p :: ns2) w' (L ∖ {[p]}) (with_rb t c) (ns1 ++ ns2).
Proof.
  intros [W1 W2 W3 W4 W5 W6] [S1 S2 S3 S4 S5 S6] Hlen En Ht Hh Hf Hgeo Hkeep Hg Hsp Hlook w'.
  assert (Hp : regions w !! p = Some r).
  { pose proof (tr_regions _ _ _ _ _ S1) as [_ H2]%Forall2_app_inv; [|done]. by inversion H2. }
  assert (Hne : ∀ q, regions w !! q = None → q ≠ p) by (intros q Hq ->; congruence).
  split_and!.
  - constructor; simpl; try done; [set_solver|apply (sg_ok _ _ Hg)|..].
    + intros q x b Hq Hb. apply lookup_delete_Some in Hq as [Hqp Hq].
      apply (allocated_keep (v_frames w)); [done| |by eapply W5]. intros Hx Hfx. rewrite Hkeep; [done|done|].
      intros Hr. by apply (W6 _ _ _ _ _ Hq Hp (not_eq_sym Hqp) Hb).
    + intros q q' x x' b [_ Hq]%lookup_delete_Some [_ Hq']%lookup_delete_Some. by apply (W6 q q').
  - destruct S3 as (M1 & M2 & M3 & M4). constructor; simpl; try done.
    + rewrite En. pose proof (Hne _ M3). pose proof (Hne _ M4).
      split_and!; [set_solver|set_solver|by apply lookup_delete_None; right..].
    + intros va Hva. rewrite Hlook, S6 by done.
      pose proof (tr_ok _ _ _ _ _ S1) as Hok. pose proof (tr_ord _ _ _ _ _ S1) as Ho.
      rewrite look_regions_insert by done. destruct (covers va r) eqn:Hc; [|done]. symmetry.
      eapply place_uncovered; [by apply removed_place|apply (tr_ok _ _ _ _ _ Ht)|].
      apply covers_iff in Hc; [done|]. apply Forall_app in Hok as [_ Hok]. by inversion Hok.
  - split; [by split_and!; [..|apply Hgeo]|split; [done|]]. intros v' c' ns' rs' (Hv & Hs & Hsep & Hd). pose proof (sp_mem _ _ _ _ _ _ Hs) as (M1 & M2 & M3 & M4).
    pose proof (Hne _ M3). pose proof (Hne _ M4). split_and!; [done| |by apply Hsp|].
    + eapply (space_other w); try done; [by apply lookup_insert_ne, not_eq_sym| |apply (sg_ok _ _ Hg)|set_solver|set_solver|..].
      * intros q Hq. simpl. apply lookup_delete_ne. intros <-. by apply (Hd p); [apply elem_of_app; right; left|].
      * simpl. by rewrite lookup_delete_ne by done.
      * simpl. by rewrite lookup_delete_ne by done.
    + intros q Hq. apply Hd. rewrite !elem_of_app, elem_of_cons in *. tauto.
Qed.
(** The pages and frames of a region, by number. *)
Lemma region_pages r : region_ok r →
  rg_size r = rg_size r / 4096 * 4096 ∧ rg_pa r = rg_pa r / 4096 * 4096 ∧
  0 < rg_size r / 4096 ∧ 0 <= rg_pa r / 4096.
Proof.
  intros [_ [H1 H2] _ _ (H3 & H4 & _) _].
  pose proof (Z.div_mod (rg_size r) 4096 ltac:(lia)). pose proof (Z.div_mod (rg_pa r) 4096 ltac:(lia)). lia.
Qed.

Lemma region_frames r x : region_ok r → own_phys r ≠ 0 →
  owns_frame r x ↔ in_frames (rg_pa r / 4096) (rg_size r / 4096) x = true.
Proof.
  intros H Ho. pose proof (region_pages r H). unfold owns_frame, in_frames.
  rewrite andb_true_iff, Z.leb_le, Z.ltb_lt. lia.
Qed.

(** Frame [x] belongs to a region that owns its frames. *)
Definition frame_of (x : Z) (r : vmm_region) : bool :=
  negb (own_phys r =? 0) && in_frames (rg_pa r / 4096) (rg_size r / 4096) x.

(** Giving back the frames of a region. *)
Lemma region_frames_free w L p r :
  world w L → regions w !! p = Some r → region_ok r → own_phys r ≠ 0 →
  ∃ f, pmm_free_pages (rg_pa r) (rg_size r / PAGE_SIZE) (v_frames w) = Ret tt f ∧ pmm_wf f ∧
    same_geometry (v_frames w) f ∧
    ∀ x, 0 <= x < total_blocks (v_frames w) → free_block f x =
      free_block (v_frames w) x || in_frames (rg_pa r / 4096) (rg_size r / 4096) x.
Proof.
  intros Hw Hp Hr Ho. pose proof (region_pages r Hr) as (E1 & E2 & B1 & B2).
  destruct (wd_owned _ _ Hw p r (rg_pa r / 4096) Hp) as (_ & Hres & _); [split; [done|lia]|].
  destruct (wd_owned _ _ Hw p r (rg_pa r / 4096 + rg_size r / 4096 - 1) Hp) as (Hlt & _ & _); [split; [done|lia]|].
  destruct (frames_free (v_frames w) (rg_pa r / 4096) (rg_size r / 4096)) as (f & E & Hf & Hg & Hx);
    [apply Hw|lia|lia|lia|lia|]. exists f. unfold PAGE_SIZE. rewrite <- E2 in E. done.
Qed.

Lemma region_unmap s d r :
  space_pg s d → region_ok r →
  ∃ s', unmap_run (Z.to_nat (rg_size r / PAGE_SIZE)) d (start_va r) 0 s = Ret tt s' ∧ space_pg s' d ∧
    spares s s' d ∧ ∀ a, is_u32 a → look s' d a = if covers a r then None else look s d a.
Proof.
  intros Hs Hr. pose proof (region_pages r Hr) as (E1 & _ & B1 & _). pose proof (region_bounds r Hr) as (B2 & B3 & B4 & _).
  unfold rg_end in *.
  destruct (unmap_run_ok (Z.to_nat (rg_size r / PAGE_SIZE)) s d (start_va r) 0 Hs (ro_start _ Hr)) as (s' & E & Hs' & Hsp & Hl);
    [lia|apply (ro_user _ Hr)|unfold PAGE_SIZE; lia|].
  exists s'. split_and!; [done..|]. intros a Ha. rewrite Hl by done. unfold PAGE_SIZE. rewrite Z2Nat.id by lia.
  assert (in_run (start_va r) 0 (0 + rg_size r / 4096) a = covers a r) as ->; [|done].
  unfold covers, in_run. rewrite u32_small by (unfold is_u32; lia). rewrite Z.add_0_l, <- E1. by rewrite Z.add_0_r.
Qed.

(** [vmm_free_pages] at an address of a region that owns its frames. *)
Lemma vmm_free_pages_run w L v c ns1 p ns2 rs1 r rs2 va :
  world w L → space w L v c (ns1 ++ p :: ns2) (rs1 ++ r :: rs2) → length ns1 = length rs1 →
  covers va r = true → own_phys r ≠ 0 →
  ∃ t w', vmm_free_pages v va w = Ret tt w' ∧ world w' (L ∖ {[p]}) ∧
    space w' (L ∖ {[p]}) v (with_rb t c) (ns1 ++ ns2) (rs1 ++ rs2) ∧
    (∀ x, 0 <= x < total_blocks (v_frames w) →
       free_block (v_frames w') x = free_block (v_frames w) x || in_frames (rg_pa r / 4096) (rg_size r / 4096) x) ∧
    spared w L v c (ns1 ++ p :: ns2) w' (L ∖ {[p]}) (with_rb t c) (ns1 ++ ns2).
Proof.
  intros Hw Hs Hlen Hc Ho. pose proof (sp_tree _ _ _ _ _ _ Hs) as Ht. destruct (sp_live _ _ _ _ _ _ Hs) as [Hv0 Ht0].
  destruct (sp_lock _ _ _ _ _ _ Hs) as (l & Hl & Hul). assert (Hlt : (l < length (v_locks w))%nat) by (by eapply lookup_lt_Some).
  pose proof (tr_ok _ _ _ _ _ Ht) as Hok. pose proof (tr_ord _ _ _ _ _ Ht) as Hord.
  assert (Hr : region_ok r) by (apply Forall_app in Hok as [_ Hok]; by inversion Hok).
  pose proof (tr_regions _ _ _ _ _ Ht) as [_ H2]%Forall2_app_inv; [|done]. inversion H2 as [|? ? ? ? Hp _]; subst.
  unfold vmm_free_pages. rewrite (proj2 (Z.eqb_neq v 0)) by done.
  rewrite (bind_Ret _ _ _ _ _ (vcb_run _ _ _ (tr_vcb _ _ _ _ _ Ht))).
  rewrite (proj2 (Z.eqb_neq (v_tree c) 0)) by done. rewrite Hl.
  rewrite (bind_Ret _ _ _ _ _ (lock_run w l Hul)). cbn [negb Z.eqb].
  set (w1 := set_v_locks (<[l := LOCK_LOCKED]> (v_locks w)) w).
  assert (Ht1 : tree_of w1 v c (ns1 ++ p :: ns2) (rs1 ++ r :: rs2)) by (by destruct Ht).
  rewrite (bind_Ret _ _ _ _ _ (first_region_run _ w1 v c _ _ Ht1)). rewrite find_node_hit; [|done| |].
  2: { eapply Forall_impl; [apply (covers_unique _ _ _ _ Hok Hord Hc)|]. intros k Hk. simpl in Hk. by rewrite Hk. }
  2: { rewrite Hc. by rewrite (proj2 (Z.eqb_neq _ 0)). }
  rewrite (proj2 (Z.eqb_neq p 0)).
  2: { eapply node_nonzero; [exact Ht|]. apply elem_of_app. right. left. }
  destruct (region_unmap (v_pg w) (v_cr3 c) r (sp_pg _ _ _ _ _ _ Hs) Hr) as (g & Eg & Hg & Hsp & Hlook).
  destruct (region_frames_free w L p r Hw Hp Hr Ho) as (f & Ef & Hf & Hgeo & Hfree).
  destruct (kfree_ok (v_heap w) L p (wd_heap _ _ Hw)) as (h & Ek & Hh).
  { apply (wd_regions _ _ Hw). by eapply elem_of_dom_2. }
  destruct (tree_delete_ok (set_v_frames f (set_v_pg g w1)) v c ns1 p ns2 rs1 r rs2) as (t & Ed & En & Ht2); [by destruct Ht|done|].
  rewrite !bind_assoc. rewrite (bind_Ret _ _ _ _ _ (region_run w1 _ _ Hp)).
  rewrite !bind_assoc. rewrite (bind_Ret _ _ _ _ _ (gzoom_run _ w1 _ _ Eg)).
  rewrite !bind_assoc. erewrite bind_Ret; [|apply fzoom_run; exact Ef].
  rewrite !bind_assoc. rewrite (bind_Ret _ _ _ _ _ Ed). unfold free_region. rewrite !bind_assoc.
  rewrite (bind_Ret (modify _) _ _ tt _ eq_refl). erewrite bind_Ret; [|apply hzoom_run; exact Ek].
  erewrite bind_Ret; [|apply unlock_run; simpl; by rewrite length_insert].
  exists t. eexists. split; [reflexivity|].
  match goal with |- world ?x _ ∧ _ => assert (x = stepped w v (with_rb t c) (delete p (regions w)) h f g) as -> end.
  { unfold stepped, set_v_heap, set_regions, set_v_frames, set_v_locks, set_vcbs. simpl. by rewrite relock by done. }
  destruct (stepped_shrink w L v c ns1 p ns2 rs1 r rs2 t h f g) as (W' & S' & B'); try done.
  - apply Ht2; [apply lookup_insert_eq|]. intros q Hq. simpl. by rewrite lookup_delete_ne.
  - intros x Hx Hn. rewrite Hfree by done. rewrite region_frames in Hn by done. apply not_true_is_false in Hn.
    rewrite Hn. by rewrite orb_false_r.
  - intros a Ha. apply Hlook. unfold is_u32, USER_HEAP_END in *. lia.
Qed.
(** ** Translation by the tree *)

Lemma key_cmp_sgn (rg : gmap Z vmm_region) va p r :
  p ≠ 0 → va ≠ 0 → region_ok r → rg !! p = Some r →
  vmm_rbtree_key_cmp rg va p = if covers va r then 0 else if va <? start_va r then -1 else 1.
Proof.
  intros Hp Hva Hr E. unfold vmm_rbtree_key_cmp. rewrite (proj2 (Z.eqb_neq p 0)), (proj2 (Z.eqb_neq va 0)) by done.
  rewrite E. done.
Qed.

Lemma key_cmp_monotone (rg : gmap Z vmm_region) va ns rs :
  va ≠ 0 → 0 ∉ ns → Forall2 (λ p r, rg !! p = Some r) ns rs → Forall region_ok rs → ordered rs →
  monotone (vmm_rbtree_key_cmp rg va) ns.
Proof.
  intros Hva H0 H2 Hok Ho. unfold monotone. induction H2 as [|p r ns rs Hp H2 IH]; [constructor|].
  inversion Hok as [|? ? Hr Hok']; inversion Ho as [|? ? Ho' Hord]; subst. constructor; [apply IH; set_solver|].
  apply Forall_forall. intros q Hq. assert (q ≠ 0 ∧ p ≠ 0) as [Hq0 Hp0] by (split; intros ->; set_solver).
  revert q Hq Hq0. rewrite <- Forall_forall.
  eapply (Forall2_start _ (λ k, region_ok k ∧ rg_end r <= start_va k)); [exact H2|by apply Forall_and|].
  - intros q k Hq [Hk Hle] Hq0. rewrite (key_cmp_sgn rg va p r), (key_cmp_sgn rg va q k) by done.
    pose proof (covers_iff va r Hr). pose proof (covers_iff va k Hk). pose proof (region_bounds r Hr).
    destruct (covers va r), (covers va k), (Z.ltb_spec va (start_va r)), (Z.ltb_spec va (start_va k)); simpl; try lia;
      exfalso; intuition lia.
Qed.
(** A node of the tree and its region, with what lies before and after. *)
Lemma tree_split (w : vm) v c ns rs p : tree_of w v c ns rs → p ∈ ns →
  ∃ ns1 ns2 rs1 r rs2, ns = ns1 ++ p :: ns2 ∧ rs = rs1 ++ r :: rs2 ∧ length ns1 = length rs1 ∧
    regions w !! p = Some r ∧ region_ok r.
Proof.
  intros H (ns1 & ns2 & ->)%list_elem_of_split.
  pose proof (tr_regions _ _ _ _ _ H) as (rs1 & k & H1 & H2 & ->)%Forall2_app_inv_l.
  inversion H2 as [|? r ? rs2 Hp _]; subst. exists ns1, ns2, rs1, r, rs2. split_and!; [done|done|by eapply Forall2_length|done|].
  pose proof (tr_ok _ _ _ _ _ H) as [_ Hok]%Forall_app. by inversion Hok.
Qed.

Lemma va_to_pa_run w L v c ns rs va :
  space w L v c ns rs → USER_HEAP_END <= va < 4294967296 →
  vmm_vcb_va_to_pa v va w = Ret (match look_regions rs va with Some (pa, _) => pa | None => 0 end) w.
Proof.
  intros Hs Hva. pose proof (sp_tree _ _ _ _ _ _ Hs) as Ht. destruct (sp_live _ _ _ _ _ _ Hs) as [Hv0 Ht0].
  destruct (sp_lock _ _ _ _ _ _ Hs) as (l & Hl & Hul). assert (Hlt : (l < length (v_locks w))%nat) by (by eapply lookup_lt_Some).
  unfold vmm_vcb_va_to_pa. rewrite (proj2 (Z.eqb_neq v 0)) by done.
  rewrite (bind_Ret _ _ _ _ _ (vcb_run _ _ _ (tr_vcb _ _ _ _ _ Ht))).
  rewrite (proj2 (Z.eqb_neq (v_tree c) 0)) by done. rewrite Hl.
  rewrite (bind_Ret _ _ _ _ _ (lock_run w l Hul)). set (w1 := set_v_locks (<[l := LOCK_LOCKED]> (v_locks w)) w).
  rewrite (bind_Ret _ _ _ w1 w1) by done.
  assert (va ≠ 0) as Hva0 by (unfold USER_HEAP_END in *; lia).
  pose proof (tree_ok_null _ _ _ (tr_tree _ _ _ _ _ Ht)) as [H0 _].
  destruct (rbtree_search_run _ (vmm_rbtree_key_cmp (regions w) va) _ _ (tr_tree _ _ _ _ _ Ht)
    (key_cmp_monotone _ _ _ _ Hva0 H0 (tr_regions _ _ _ _ _ Ht) (tr_ok _ _ _ _ _ Ht) (tr_ord _ _ _ _ _ Ht)))
    as (p & Es & Hp).
  rewrite (bind_Ret _ _ _ _ _ (on_tree_read _ w1 v c p (tr_vcb _ _ _ _ _ Ht) Es)).
  assert (Eu : ∀ x : Z, (lzoom (spinlock_unlock (Some l));; mret x) w1 = Ret x w).
  { intros x. rewrite (bind_Ret _ _ _ _ _ (unlock_run w1 l ltac:(simpl; by rewrite length_insert))).
    unfold set_v_locks. simpl. rewrite relock by done. by destruct w. }
  destruct Hp as [[-> Hnone]|(Hp0 & Hp & Hcmp)].
  - rewrite Z.eqb_refl. rewrite bind_ret, Eu. f_equal. unfold look_regions.
    assert (List.find (covers va) rs = None) as ->; [|done]. apply find_None_Forall.
    pose proof (tr_regions _ _ _ _ _ Ht) as H2. pose proof (tr_ok _ _ _ _ _ Ht) as Hok. clear Es Ht Hs Eu.
    induction H2 as [|q r ns rs Hq H2 IH]; [constructor|]. inversion Hok; inversion Hnone as [|? ? Hn ?]; subst.
    constructor; [|apply IH; [set_solver|done|done]].
    rewrite (key_cmp_sgn _ _ _ r) in Hn by (done || set_solver). by destruct (covers va r).
  - rewrite (proj2 (Z.eqb_neq p 0)) by done.
    destruct (tree_split _ _ _ _ _ _ Ht Hp) as (ns1 & ns2 & rs1 & r & rs2 & -> & -> & Hln & Hr & Hrok).
    rewrite (key_cmp_sgn _ _ _ r) in Hcmp by done.
    destruct (covers va r) eqn:Hc; [|by destruct (va <? start_va r)].
    rewrite bind_assoc, (bind_Ret _ _ _ _ _ (region_run w1 _ _ Hr)), bind_ret, Eu.
    rewrite look_regions_insert, Hc by apply Ht. f_equal. apply covers_iff in Hc; [|done].
    destruct (ro_pa _ Hrok) as (_ & ? & ?). unfold rg_end in Hc. unfold USER_HEAP_END in Hva.
    pose proof (ro_user _ Hrok). unfold USER_HEAP_END in *.
    rewrite (u32_small (va - _)) by (unfold is_u32; lia). apply u32_small. unfold is_u32. lia.
Qed.
(** ** The theorems *)

(** C13: [vmm_alloc_pages] on a consistent address space, with flags that have
    the present bit, always returns.  Either it gives 0 and nothing happened:
    the regions, the frames in use, the heap addresses in use and every
    translation are as before (also when a page table could not be allocated
    half-way).  Or it gives the first-fit address: page-aligned, above the user
    heap, its end not beyond 4 GB and overlapping no region; the pages are
    mapped to contiguous frames that no other region owns, and the space is
    consistent.  The spaces of other processes are not affected.  For the first
    region of a space the code does not check the end of the range: there the
    request is at most 196607 pages (the 768 MB above the anchor), or the
    machine has no more frames than that. *)
Theorem vmm_alloc_pages_finds_room w L v c ns rs n flags :
  world w L → space w L v c ns rs → 0 < n < 4294967296 → flag 0 flags = true →
  (rs = [] → n <= 196607 ∨ total_blocks (v_frames w) <= 196608) →
  ∃ va w', vmm_alloc_pages v n flags w = Ret va w' ∧
    (va = 0 ∧ unchanged w L v c ns rs w' ∨
     ∃ p pa t ns' rs1 rs2, choice (n * 4096) USER_ANON_BASE rs = Some va ∧
       va mod 4096 = 0 ∧ USER_HEAP_END <= va ∧ va + n * 4096 <= 4294967295 ∧
       Forall (λ r, rg_end r <= va ∨ va + n * 4096 <= start_va r) rs ∧
       (∀ a, va <= a < va + n * 4096 → look (v_pg w') (v_cr3 c) a = Some (pa + (a - va), flag 1 flags)) ∧
       rs = rs1 ++ rs2 ∧ world w' ({[p]} ∪ L) ∧
       space w' ({[p]} ∪ L) v (with_rb t c) ns' (rs1 ++ anon va n flags pa :: rs2) ∧
       spared w L v c ns w' ({[p]} ∪ L) (with_rb t c) ns').
Proof.
  intros Hw Hs Hn Hf He. destruct (vmm_alloc_pages_run w L v c ns rs n flags Hw Hs Hn Hf He)
    as (va & w' & E & [H|(p & b & t & ns1 & ns2 & rs1 & rs2 & _ & -> & -> & _ & Hc & Hpl & Hw' & Hs' & _ & _ & _ & Hb)]);
    exists va, w'; (split; [done|]); [by left|right].
  exists p, (b * 4096), t, (ns1 ++ p :: ns2), rs1, rs2. pose proof Hpl as (P1 & P2 & P3 & P4 & P5). split_and!; try done.
  - apply Forall_app. split; (eapply Forall_impl; [done|]); simpl; auto.
  - intros a Ha. pose proof (sp_tree _ _ _ _ _ _ Hs') as Ht. unfold USER_HEAP_END in *.
    rewrite (sp_look _ _ _ _ _ _ Hs') by (unfold USER_HEAP_END; lia). rewrite look_regions_insert by apply Ht.
    rewrite anon_covers by lia. unfold in_run. rewrite (proj2 (Z.leb_le _ _)), (proj2 (Z.ltb_lt _ _)) by lia. done.
Qed.

(** C14: The translation the kernel computes from the tree of regions
    ([vmm_va_to_pa], used to reach a new thread's stack) is the one the
    processor makes from the page tables, for every address above the user
    heap, and 0 where nothing is mapped. *)
Theorem vmm_va_to_pa_is_the_walk w L v c ns rs va :
  space w L v c ns rs → USER_HEAP_END <= va < 4294967296 →
  vmm_va_to_pa v va w =
    Ret (match translate (v_pg w) (v_cr3 c) va with Some x => x_pa x | None => 0 end) w.
Proof.
  intros Hs Hva. unfold vmm_va_to_pa. destruct (sp_live _ _ _ _ _ _ Hs) as [Hv0 _].
  rewrite (proj2 (Z.eqb_neq v 0)) by done. rewrite (va_to_pa_run w L v c ns rs va Hs Hva).
  rewrite <- (sp_look _ _ _ _ _ _ Hs va Hva). unfold look. by destruct (translate _ _ va).
Qed.

(** An allocation, and freeing the address it gave. *)
Lemma alloc_then_free w L v c ns rs n flags :
  world w L → space w L v c ns rs → 0 < n < 4294967296 → flag 0 flags = true →
  (rs = [] → n <= 196607 ∨ total_blocks (v_frames w) <= 196608) →
  ∃ va w1, vmm_alloc_pages v n flags w = Ret va w1 ∧
    (va = 0 ∧ unchanged w L v c ns rs w1 ∨
     va ≠ 0 ∧ ∃ w2, vmm_free_pages v va w1 = Ret tt w2 ∧ unchanged w L v c ns rs w2).
Proof.
  intros Hw Hs Hn Hf He. destruct (vmm_alloc_pages_run w L v c ns rs n flags Hw Hs Hn Hf He)
    as (va & w1 & E & [[-> H]|(p & b & t & ns1 & ns2 & rs1 & rs2 & HpL & -> & -> & Hlen & Hc & Hpl & Hw1 & Hs1 & Htot & Hrun & Hfree & Hb)]).
  { exists 0, w1. split; [done|]. by left. }
  pose proof Hpl as (P1 & P2 & P3 & _ & _). unfold USER_HEAP_END in P2.
  destruct (vmm_free_pages_run w1 _ v _ ns1 p ns2 rs1 _ rs2 va Hw1 Hs1 Hlen) as (t2 & w2 & E2 & Hw2 & Hs2 & Hfree2 & Hb2).
  { rewrite anon_covers by lia. unfold in_run. apply andb_true_iff. rewrite Z.leb_le, Z.ltb_lt. lia. }
  { done. }
  exists va, w1. split; [done|right]. split; [lia|]. exists w2. split; [done|].
  assert (({[p]} ∪ L) ∖ {[p]} = L) as EL by set_solver. rewrite EL in Hw2, Hs2.
  exists t2. split_and!; [done|done| |].
  - intros x Hx. rewrite Hfree2, Hfree by (rewrite ?Htot; lia). cbn [anon rg_pa rg_size].
    rewrite !Z.div_mul by lia. destruct (in_frames b n x) eqn:Ex; [|by rewrite andb_true_r, orb_false_r].
    rewrite orb_true_r. symmetry. apply Hrun. unfold in_frames in Ex. zprop. lia.
  - rewrite EL in Hb2. exact (spared_trans w w1 w2 _ _ _ v c (with_rb t c) (with_rb t2 (with_rb t c)) _ _ _ eq_refl Hb Hb2).
Qed.

(** C38: Allocating pages (under the conditions of [vmm_alloc_pages_finds_room])
    and freeing them again leaves nothing behind: the
    regions, the frames in use, the heap addresses in use and every
    translation are as they were before, in this process and in the others. *)
Theorem vmm_alloc_free_roundtrip w L v c ns rs n flags :
  world w L → space w L v c ns rs → 0 < n < 4294967296 → flag 0 flags = true →
  (rs = [] → n <= 196607 ∨ total_blocks (v_frames w) <= 196608) →
  ∃ va w', (va ← vmm_alloc_pages v n flags;
            (if va =? 0 then mret tt else vmm_free_pages v va);; mret va) w = Ret va w' ∧
    unchanged w L v c ns rs w'.
Proof.
  intros Hw Hs Hn Hf He. destruct (alloc_then_free w L v c ns rs n flags Hw Hs Hn Hf He) as (va & w1 & E & [[-> H]|(Hva & w2 & E2 & H)]);
    rewrite (bind_Ret _ _ _ _ _ E).
  - by exists 0, w1.
  - rewrite (proj2 (Z.eqb_neq va 0) Hva), (bind_Ret _ _ _ _ _ E2). by exists va, w2.
Qed.
End ops.

(** ** A concrete process: its control block at 64, no region yet *)

Definition demo_vcb : vmm_control_block :=
  mk_vcb 4096 (mk_rbtree 8192 8192 {[ 8192 := mk_rbnode BLACK 8192 8192 8192 ]}) 1056768 (Some 0%nat).

Definition demo_vm : vm (gset Z) :=
  mk_vm {[ 64 := demo_vcb ]} ∅ {[ 4096; 8192 ]} pmm_small demo_pg [LOCK_UNLOCKED].

Lemma demo_world : world demo_vm {[ 4096; 8192 ]}.
Proof.
  constructor.
  - split; [reflexivity|]. set_solver by lia.
  - change (dom (∅ : gmap Z vmm_region) ⊆ ({[4096; 8192]} : gset Z)). set_solver.
  - apply pmm_small_wf.
  - apply demo_pg_ok.
  - intros p r b Hp. change (regions demo_vm) with (∅ : gmap Z vmm_region) in Hp. by rewrite lookup_empty in Hp.
  - intros p p' r r' b Hp. change (regions demo_vm) with (∅ : gmap Z vmm_region) in Hp. by rewrite lookup_empty in Hp.
Qed.

Lemma demo_space : space demo_vm {[ 4096; 8192 ]} 64 demo_vcb [] [].
Proof.
  assert (Hz : ∀ j, 772 <= j < 1024 → dir_entry demo_pg 1056768 j = entry0).
  { intros j Hj. destruct (demo_entry j) as [?|[? _]]; [done|lia]. }
  constructor.
  - constructor; [reflexivity|apply (fresh_tree_ok _ 8192 ∅)|constructor..].
  - done.
  - change (regions demo_vm) with (∅ : gmap Z vmm_region). simpl. split_and!; [set_solver|set_solver|done|done].
  - by exists 0%nat.
  - constructor; [apply demo_pg_ok|apply demo_master|]. intros j Hj.
    change (present (dir_entry demo_pg 1056768 j) = true → page_size (dir_entry demo_pg 1056768 j) = false).
    by rewrite Hz.
  - intros va Hva. destruct (high_index va Hva) as [_ Hi]. unfold look.
    change (translate (v_pg demo_vm) (v_cr3 demo_vcb) va) with (translate demo_pg 1056768 va). unfold translate.
    fold (dir_entry demo_pg 1056768 (PD_INDEX va)). by rewrite Hz.
Qed.

Lemma vmm_alloc_pages_finds_room_witness :
  ∃ va w', vmm_alloc_pages 64 2 PTE_USER_PAGE demo_vm = Ret va w' ∧
    (va = 0 ∧ unchanged demo_vm {[ 4096; 8192 ]} 64 demo_vcb [] [] w' ∨
     ∃ p pa t ns' rs1 rs2, choice (2 * 4096) USER_ANON_BASE [] = Some va ∧
       va mod 4096 = 0 ∧ USER_HEAP_END <= va ∧ va + 2 * 4096 <= 4294967295 ∧
       Forall (λ r, rg_end r <= va ∨ va + 2 * 4096 <= start_va r) [] ∧
       (∀ a, va <= a < va + 2 * 4096 →
          look (v_pg w') (v_cr3 demo_vcb) a = Some (pa + (a - va), flag 1 PTE_USER_PAGE)) ∧
       [] = rs1 ++ rs2 ∧ world w' ({[p]} ∪ {[ 4096; 8192 ]}) ∧
       space w' ({[p]} ∪ {[ 4096; 8192 ]}) 64 (with_rb t demo_vcb) ns' (rs1 ++ anon va 2 PTE_USER_PAGE pa :: rs2) ∧
       spared demo_vm {[ 4096; 8192 ]} 64 demo_vcb [] w' ({[p]} ∪ {[ 4096; 8192 ]}) (with_rb t demo_vcb) ns').
Proof.
  apply (vmm_alloc_pages_finds_room demo_vm {[ 4096; 8192 ]} 64 demo_vcb [] [] 2 PTE_USER_PAGE);
    [exact demo_world|exact demo_space|lia|reflexivity|lia].
Defined.

(** After an allocation the first page of the region. *)
Lemma vmm_va_to_pa_is_the_walk_witness :
  ∃ va w', vmm_alloc_pages 64 2 PTE_USER_PAGE demo_vm = Ret va w' ∧
    vmm_va_to_pa 64 USER_ANON_BASE w' =
      Ret (match translate (v_pg w') (v_cr3 demo_vcb) USER_ANON_BASE with Some x => x_pa x | None => 0 end) w'.
Proof.
  destruct (vmm_alloc_pages_run demo_vm {[ 4096; 8192 ]} 64 demo_vcb [] [] 2 PTE_USER_PAGE demo_world demo_space
    ltac:(lia) eq_refl ltac:(lia)) as (va & w' & E & H). exists va, w'. split; [exact E|].
  destruct H as [(_ & t & _ & Hs & _)|(p & b & t & ns1 & ns2 & rs1 & rs2 & _ & _ & _ & _ & _ & _ & _ & Hs & _)];
    refine (vmm_va_to_pa_is_the_walk w' _ 64 (with_rb t demo_vcb) _ _ USER_ANON_BASE Hs _);
    unfold USER_ANON_BASE, USER_HEAP_END; lia.
Defined.

Lemma vmm_alloc_free_roundtrip_witness :
  ∃ va w', (va ← vmm_alloc_pages 64 2 PTE_USER_PAGE;
            (if va =? 0 then mret tt else vmm_free_pages 64 va);; mret va) demo_vm = Ret va w' ∧
    unchanged demo_vm {[ 4096; 8192 ]} 64 demo_vcb [] [] w'.
Proof.
  apply (vmm_alloc_free_roundtrip demo_vm {[ 4096; 8192 ]} 64 demo_vcb [] [] 2 PTE_USER_PAGE);
    [exact demo_world|exact demo_space|lia|reflexivity|lia].
Defined.

(** The allocation of the example succeeds, the pages are behind each other. *)
Example demo_alloc :
  match (va ← vmm_alloc_pages 64 2 PTE_USER_PAGE; pa ← vmm_va_to_pa 64 (va + 4100); mret (va, pa)) demo_vm with
  | Ret r w => r = (USER_ANON_BASE, 16388) ∧ look (v_pg w) 1056768 (USER_ANON_BASE + 4100) = Some (16388, true)
  | _ => False
  end.
Proof. vm_compute. done. Qed.
