(* ===== verification/VmmMap.v ===== *)
(** * Mappings of given physical memory (kernel/mm/vmm.c)

    [vmm_map_memory] and [vmm_unmap_memory] (shared memory), [vmm_map_fixed]
    and [vmm_unmap_fixed] (programs, device windows) on the consistent address
    spaces of VmmOps: what a window looks like afterwards, and that a request
    that fails half-way leaves nothing behind. *)

From stdpp Require Import base tactics list gmap sorting.
From Stdlib Require Import ZArith Lia.
From S2P Require Import Prelude Spinlock Allocator RbTree RbDelete RbOrder Pmm Paging PageSpaces PageRuns Vmm VmmSpace VmmOps.

Open Scope Z_scope.

(** A region over given frames. *)
Definition window (va n flags pa own : Z) : vmm_region := mk_region va (n * 4096) flags pa own.

Lemma window_ok va n flags pa own rs1 rs2 :
  place (n * 4096) va rs1 rs2 → 0 < n → flag 0 flags = true →
  pa mod 4096 = 0 → 0 <= pa → pa + n * 4096 <= 4294967296 → region_ok (window va n flags pa own).
Proof.
  intros (P1 & P2 & P3 & _) Hn Hf Hpa H0 Hend. constructor; simpl; try done; unfold rg_end; simpl; try lia.
  split; [apply Z.mod_mul; lia|lia].
Qed.

Lemma window_covers va n flags pa own a :
  0 <= va → 0 <= n → va + n * 4096 < 4294967296 → covers a (window va n flags pa own) = in_run va 0 n a.
Proof.
  intros H1 H2 H3. unfold covers, in_run, window. simpl. rewrite u32_small by (unfold is_u32; lia).
  by rewrite Z.add_0_r.
Qed.

Lemma bytes_too_many_eq n va : 0 <= va → bytes_too_many n va = (4294967295 <? va + n).
Proof. intros H. unfold bytes_too_many. apply eq_bool_prop_intro. rewrite !Is_true_true, !Z.ltb_lt. lia. Qed.

Section map.
Context {LY : Layout} {A : Type} `{!Allocator A}.
Notation vm := (vm A).

(** A process that can be worked on: its tree and its lock. *)
Record at_rest (w : vm) (v : Z) (c : vmm_control_block) (l : nat) : Prop := {
  ar_live : v ≠ 0 ∧ v_tree c ≠ 0;
  ar_vcb : vcbs w !! v = Some c;
  ar_lock : v_lock c = Some l;
  ar_free : v_locks w !! l = Some LOCK_UNLOCKED;
}.

Lemma space_rest (w : vm) L v c ns rs : space w L v c ns rs → ∃ l, at_rest w v c l.
Proof.
  intros Hs. destruct (sp_lock _ _ _ _ _ _ Hs) as (l & H1 & H2). exists l.
  constructor; [apply Hs|apply (tr_vcb _ _ _ _ _ (sp_tree _ _ _ _ _ _ Hs))|done|done].
Qed.

(** ** Looking a region up *)

Lemma find_node_covers (w : vm) v c ns rs va :
  tree_of w v c ns rs →
  match List.find (covers va) rs with
  | None => find_node (covers va) ns rs = 0
  | Some r => ∃ ns1 p ns2 rs1 rs2, ns = ns1 ++ p :: ns2 ∧ rs = rs1 ++ r :: rs2 ∧ length ns1 = length rs1 ∧
      find_node (covers va) ns rs = p ∧ regions w !! p = Some r ∧ p ≠ 0 ∧ covers va r = true
  end.
Proof.
  intros Ht. destruct (List.find (covers va) rs) as [r|] eqn:E.
  - apply List.find_some in E as [Hin Hc]. apply list_elem_of_In, list_elem_of_split in Hin as (rs1 & rs2 & ->).
    pose proof (tr_regions _ _ _ _ _ Ht) as (ns1 & k & H1 & H2 & ->)%Forall2_app_inv_r.
    inversion H2 as [|p ? ns2 ? Hp _]; subst. exists ns1, p, ns2, rs1, rs2.
    assert (length ns1 = length rs1) as Hl by (by eapply Forall2_length).
    split_and!; [done|done|done| |done| |done].
    + apply find_node_hit; [done| |done].
      exact (proj1 (covers_unique rs1 r rs2 va (tr_ok _ _ _ _ _ Ht) (tr_ord _ _ _ _ _ Ht) Hc)).
    + eapply node_nonzero; [exact Ht|]. apply elem_of_app. right. left.
  - apply find_node_miss. apply find_None_Forall in E. exact E.
Qed.

Lemma lookup_region_run (w : vm) L v c ns rs va :
  space w L v c ns rs →
  vmm_lookup_region v va w = Ret match List.find (covers va) rs with
    | Some r => (0, (rg_pa r, rg_size r, start_va r)) | None => (E_INVAL, (0, 0, 0)) end w.
Proof.
  intros Hs. destruct (space_rest _ _ _ _ _ _ Hs) as (l & [[Hv _] Hc Hl Hu]). pose proof (sp_tree _ _ _ _ _ _ Hs) as Ht.
  unfold vmm_lookup_region. rewrite (proj2 (Z.eqb_neq v 0)) by done.
  rewrite (bind_Ret _ _ _ _ _ (vcb_run _ _ _ Hc)), Hl. rewrite (bind_Ret _ _ _ _ _ (lock_run w l Hu)). cbn [negb Z.eqb].
  set (w1 := set_v_locks _ w). assert (Ht1 : tree_of w1 v c ns rs) by (by destruct Ht).
  rewrite (bind_Ret _ _ _ _ _ (first_region_run _ w1 v c _ _ Ht1)).
  assert (Eu : lzoom (spinlock_unlock (Some l)) w1 = Ret 0 w).
  { rewrite unlock_run by (simpl; rewrite length_insert; by eapply lookup_lt_Some).
    unfold set_v_locks. simpl. rewrite relock by done. by destruct w. }
  pose proof (find_node_covers w1 v c ns rs va Ht1) as Hf. destruct (List.find (covers va) rs) as [r|].
  - destruct Hf as (ns1 & p & ns2 & rs1 & rs2 & _ & _ & _ & -> & Hp & Hp0 & _). rewrite (proj2 (Z.eqb_neq p 0)) by done.
    by rewrite (bind_Ret _ _ _ _ _ (region_run w1 _ _ Hp)), (bind_Ret _ _ _ _ _ Eu).
  - rewrite Hf. cbn [Z.eqb]. by rewrite (bind_Ret _ _ _ _ _ Eu).
Qed.

(** ** Reserving and releasing *)

Lemma reserve_run (w : vm) L v c ns rs pa n flags :
  world w L → space w L v c ns rs → rs ≠ [] → 0 < n → n * 4096 < 4294967296 → flag 0 flags = true →
  pa mod 4096 = 0 → 0 <= pa → pa + n * 4096 <= 4294967296 →
  (∃ h, vmm_mmap_reserve v pa (n * 4096) flags w
     = Ret (0, false) (mk_vm (vcbs w) (regions w) h (v_frames w) (v_pg w) (v_locks w)) ∧ owns h L) ∨
  ∃ p va t h ns1 ns2 rs1 rs2, let r := window va n flags pa 0 in
    let w1 := stepped w v (with_rb t c) (<[p := r]> (regions w)) h (v_frames w) (v_pg w) in
    vmm_mmap_reserve v pa (n * 4096) flags w = Ret (va, true) w1 ∧
    p ∉ L ∧ owns h ({[p]} ∪ L) ∧ nil t = nil (v_rb c) ∧ ns = ns1 ++ ns2 ∧ rs = rs1 ++ rs2 ∧
    length ns1 = length rs1 ∧ first_gap (n * 4096) rs = Some va ∧ place (n * 4096) va rs1 rs2 ∧
    tree_of w1 v (with_rb t c) (ns1 ++ p :: ns2) (rs1 ++ r :: rs2).
Proof.
  intros Hw Hs Hne Hn Hsz Hf Hpa H0 Hend. destruct (space_rest _ _ _ _ _ _ Hs) as (l & [[Hv Ht0] Hc Hl Hu]).
  pose proof (sp_tree _ _ _ _ _ _ Hs) as Ht. assert (Hlt : (l < length (v_locks w))%nat) by (by eapply lookup_lt_Some).
  unfold vmm_mmap_reserve. rewrite (proj2 (Z.eqb_neq v 0)) by done.
  rewrite (bind_Ret _ _ _ _ _ (vcb_run _ _ _ Hc)), (proj2 (Z.eqb_neq (v_tree c) 0)), Hl by done.
  rewrite (bind_Ret _ _ _ _ _ (lock_run w l Hu)). cbn [negb Z.eqb]. set (w1 := set_v_locks _ w).
  rewrite (bind_Ret _ _ _ _ _ (choose_run (bytes_too_many (n * 4096)) (n * 4096) pa w1 v c ns rs
    ltac:(by destruct Ht) ltac:(lia) (λ va Hva, bytes_too_many_eq (n * 4096) va (proj1 Hva)))).
  assert (choice (n * 4096) pa rs = first_gap (n * 4096) rs) as -> by (by destruct rs).
  destruct (first_gap (n * 4096) rs) as [va|] eqn:Eg.
  2: { left. exists (v_heap w). split; [|apply Hw].
       rewrite (bind_Ret _ _ _ _ _ (unlock_run w1 l ltac:(simpl; by rewrite length_insert))).
       unfold set_v_locks. simpl. by rewrite relock by done. }
  destruct (kmalloc_ok (v_heap w) L sizeof_vmm_region (wd_heap _ _ Hw) ltac:(done))
    as [(h & Ek & Hh)|(p & h & Ek & Hp & HpL & Hh)]; rewrite (bind_Ret _ _ _ _ _ (hzoom_run _ w1 _ _ Ek)).
  { left. exists h. split; [|done]. rewrite Z.eqb_refl.
    rewrite (bind_Ret _ _ _ _ _ (unlock_run (set_v_heap h w1) l ltac:(simpl; by rewrite length_insert))).
    unfold set_v_locks, set_v_heap. simpl. by rewrite relock by done. }
  right. rewrite (proj2 (Z.eqb_neq p 0)) by lia.
  destruct (first_gap_place (n * 4096) rs va (tr_ok _ _ _ _ _ Ht) (tr_ord _ _ _ _ _ Ht) Eg) as (rs1 & rs2 & -> & Hpl).
  set (w2 := set_v_heap h w1).
  assert (Hrp : regions w !! p = None).
  { apply not_elem_of_dom. intros Hd. by apply HpL, (wd_regions _ _ Hw). }
  destruct (tree_insert_ok w2 v c ns rs1 rs2 (n * 4096) va p (window va n flags pa 0))
    as (t & ns1 & ns2 & Ei & En & -> & Hln & Ht'); try done.
  { by destruct Ht. } { by eapply window_ok. } { intros ->. by apply HpL, (sp_mem _ _ _ _ _ _ Hs). } { lia. }
  exists p, va, t, h, ns1, ns2, rs1, rs2. cbv zeta. split_and!; try done; [|by destruct Ht'].
  rewrite <- bind_assoc. unfold window in Ei. rewrite (bind_Ret _ _ _ _ _ Ei).
  erewrite bind_Ret; [|apply unlock_run; simpl; by rewrite length_insert].
  unfold mret, M_ret. f_equal. simpl.
  exact (stepped_locks w v _ (<[p := window va n flags pa 0]> (regions w)) h (v_frames w) (v_pg w) _ (relock _ _ Hu)).
Qed.

(** The node and the region leave the tree; the pages are still mapped. *)
Lemma release_run (w : vm) L v c l ns1 p ns2 rs1 r rs2 va size :
  at_rest w v c l → tree_of w v c (ns1 ++ p :: ns2) (rs1 ++ r :: rs2) → length ns1 = length rs1 →
  owns (v_heap w) L → p ∈ L → covers va r = true → own_phys r = 0 → beyond_region va size r = false →
  ∃ t h, vmm_mmap_release v va size w = Ret (0, (start_va r, rg_size r))
      (stepped w v (with_rb t c) (delete p (regions w)) h (v_frames w) (v_pg w)) ∧
    nil t = nil (v_rb c) ∧ owns h (L ∖ {[p]}) ∧
    ∀ w' : vm, vcbs w' !! v = Some (with_rb t c) → (∀ q, q ≠ p → regions w' !! q = regions w !! q) →
      tree_of w' v (with_rb t c) (ns1 ++ ns2) (rs1 ++ rs2).
Proof.
  intros [[Hv Ht0] Hc Hl Hu] Ht Hln Hh HpL Hcov Hown Hb.
  assert (Hlt : (l < length (v_locks w))%nat) by (by eapply lookup_lt_Some).
  unfold vmm_mmap_release. rewrite (proj2 (Z.eqb_neq v 0)) by done.
  rewrite (bind_Ret _ _ _ _ _ (vcb_run _ _ _ Hc)), (proj2 (Z.eqb_neq (v_tree c) 0)), Hl by done.
  rewrite (bind_Ret _ _ _ _ _ (lock_run w l Hu)). cbn [negb Z.eqb]. set (w1 := set_v_locks _ w).
  assert (Ht1 : tree_of w1 v c (ns1 ++ p :: ns2) (rs1 ++ r :: rs2)) by (by destruct Ht).
  rewrite (bind_Ret _ _ _ _ _ (first_region_run _ w1 v c _ _ Ht1)). rewrite find_node_hit; [|done| |].
  2: { eapply Forall_impl; [exact (proj1 (covers_unique rs1 r rs2 va (tr_ok _ _ _ _ _ Ht) (tr_ord _ _ _ _ _ Ht) Hcov))|]. intros k Hk. simpl in Hk.
       by rewrite Hk, andb_false_r. }
  2: { by rewrite Hcov, Hown. }
  rewrite (proj2 (Z.eqb_neq p 0)).
  2: { eapply node_nonzero; [exact Ht|]. apply elem_of_app. right. left. }
  pose proof (tr_regions _ _ _ _ _ Ht) as [_ H2]%Forall2_app_inv; [|done]. inversion H2 as [|? ? ? ? Hp _]; subst.
  rewrite (bind_Ret _ _ _ _ _ (region_run w1 _ _ Hp)), Hb.
  destruct (tree_delete_ok w1 v c ns1 p ns2 rs1 r rs2 Ht1 Hln) as (t & Ed & En & Ht2).
  rewrite (bind_Ret _ _ _ _ _ Ed). destruct (kfree_ok (v_heap w) L p Hh HpL) as (h & Ek & Hh').
  unfold free_region. rewrite bind_assoc, (bind_Ret (modify _) _ _ tt _ eq_refl).
  erewrite bind_Ret; [|apply hzoom_run; exact Ek].
  erewrite bind_Ret; [|apply unlock_run; simpl; by rewrite length_insert].
  exists t, h. split_and!; [|done|done|done].
  unfold mret, M_ret, stepped, set_v_heap, set_regions, set_v_locks, set_vcbs. simpl. by rewrite relock by done.
Qed.

(** ** Mapping and unmapping *)

(** The window is mapped, or it is given up again. *)
Definition grown (w : vm) (L : gset Z) v c ns1 ns2 rs1 rs2 p t r (w' : vm) : Prop :=
  world w' ({[p]} ∪ L) ∧ space w' ({[p]} ∪ L) v (with_rb t c) (ns1 ++ p :: ns2) (rs1 ++ r :: rs2) ∧
  spared w L v c (ns1 ++ ns2) w' ({[p]} ∪ L) (with_rb t c) (ns1 ++ p :: ns2).

(** A window whose frames are not the process's to free. *)
Lemma borrowed va n flags pa b : ¬ owns_frame (window va n flags pa 0) b.
Proof. by intros [H _]. Qed.

Lemma window_grown w L v c ns1 ns2 rs1 rs2 p t h va n flags pa g :
  world w L → space w L v c (ns1 ++ ns2) (rs1 ++ rs2) → p ∉ L → nil t = nil (v_rb c) → owns h ({[p]} ∪ L) →
  place (n * 4096) va rs1 rs2 → 0 <= n →
  let r := window va n flags pa 0 in
  tree_of (stepped w v (with_rb t c) (<[p := r]> (regions w)) h (v_frames w) (v_pg w)) v (with_rb t c)
    (ns1 ++ p :: ns2) (rs1 ++ r :: rs2) →
  space_pg g (v_cr3 c) → spares (v_pg w) g (v_cr3 c) →
  (∀ a, is_u32 a → look g (v_cr3 c) a =
     if in_run va 0 n a then Some (pa + (a - va), flag 1 flags) else look (v_pg w) (v_cr3 c) a) →
  grown w L v c ns1 ns2 rs1 rs2 p t r (stepped w v (with_rb t c) (<[p := r]> (regions w)) h (v_frames w) g).
Proof.
  intros Hw Hs HpL Hnil Hh (P1 & P2 & P3 & _) Hn r Ht Hg Hsp Hlook.
  apply (stepped_grow w L v c (ns1 ++ ns2) rs1 rs2 t _ p r h (v_frames w) g); try done.
  - by rewrite Permutation_middle.
  - by destruct Ht.
  - apply Hw.
  - intros b Hb. by apply borrowed in Hb.
  - intros a Ha. rewrite Hlook by (unfold is_u32, USER_HEAP_END in *; lia).
    unfold r. by rewrite window_covers by (unfold USER_HEAP_END in *; lia).
Qed.

Lemma unchanged_stepped w L v c ns rs t h g :
  world w L → space w L v c ns rs → nil t = nil (v_rb c) →
  tree_of (stepped w v (with_rb t c) (regions w) h (v_frames w) g) v (with_rb t c) ns rs →
  owns h L → space_pg g (v_cr3 c) → spares (v_pg w) g (v_cr3 c) →
  (∀ a, is_u32 a → look g (v_cr3 c) a = look (v_pg w) (v_cr3 c) a) →
  unchanged w L v c ns rs (stepped w v (with_rb t c) (regions w) h (v_frames w) g).
Proof.
  intros Hw Hs Hn Ht Hh Hg Hsp Hl. exists t.
  destruct (stepped_same w L v c ns rs t h (v_frames w) g Hw Hs Hn Ht Hh (wd_frames _ _ Hw) (conj eq_refl eq_refl)
    (λ _ _, eq_refl) Hg Hsp) as (H1 & H2 & H3); [|by split_and!].
  intros a Ha. apply Hl. unfold is_u32, USER_HEAP_END in *. lia.
Qed.

(** The whole pages of a range of bytes. *)
Definition pages_of (pa size : Z) : Z := (size + pa mod 4096 + 4095) / 4096.

Lemma pages_of_size pa size :
  is_u32 pa → 0 < size → pa + size <= 4294963200 →
  Z.land pa PAGE_MASK = pa / 4096 * 4096 ∧ pa -u (pa / 4096 * 4096) = pa mod 4096 ∧
  (4294967295 -u pa mod 4096 -u (PAGE_SIZE - 1) <? size) = false ∧
  Z.land (size +u pa mod 4096 +u (PAGE_SIZE - 1)) PAGE_MASK = pages_of pa size * 4096 ∧
  0 < pages_of pa size ∧ pages_of pa size * 4096 < 4294967296 ∧
  pa / 4096 * 4096 + pages_of pa size * 4096 <= 4294967296.
Proof.
  intros Hpa Hsz Hend. unfold is_u32 in Hpa. pose proof (Z.mod_pos_bound pa 4096 ltac:(lia)) as Hm.
  pose proof (Z.div_mod pa 4096 ltac:(lia)) as Hd. unfold PAGE_SIZE, pages_of.
  assert (size + pa mod 4096 + 4095 < 4294967296) as Hlt by lia.
  pose proof (Z.div_mod (size + pa mod 4096 + 4095) 4096 ltac:(lia)) as Hd2.
  pose proof (Z.mod_pos_bound (size + pa mod 4096 + 4095) 4096 ltac:(lia)) as Hm2.
  split_and!.
  - by apply land_page_mask.
  - rewrite u32_small by (unfold is_u32; lia). lia.
  - apply Z.ltb_ge. rewrite (u32_small (4294967295 - _)) by (unfold is_u32; lia).
    rewrite u32_small by (unfold is_u32; lia). lia.
  - rewrite (u32_small (size + _)) by (unfold is_u32; lia). rewrite u32_small by (unfold is_u32; lia).
    by rewrite land_page_mask by (unfold is_u32; lia).
  - lia.
  - lia.
  - lia.
Qed.

Lemma vmm_map_memory_run (cap : Z → Z → Z → Z → Z) (w : vm) L v c ns rs pa size flags :
  world w L → space w L v c ns rs → rs ≠ [] → flag 0 flags = true →
  is_u32 pa → 0 < size → pa + size <= 4294963200 → cap v pa size flags = 0 →
  ∃ x w', vmm_map_memory cap v pa size flags w = Ret x w' ∧
    (x = VMM_ERR_PTR E_NOMEM ∧ unchanged w L v c ns rs w' ∨
     ∃ p va t ns1 ns2 rs1 rs2, x = va + pa mod 4096 ∧ p ∉ L ∧ ns = ns1 ++ ns2 ∧ rs = rs1 ++ rs2 ∧
       length ns1 = length rs1 ∧ first_gap (pages_of pa size * 4096) rs = Some va ∧
       place (pages_of pa size * 4096) va rs1 rs2 ∧ v_frames w' = v_frames w ∧
       grown w L v c ns1 ns2 rs1 rs2 p t (window va (pages_of pa size) flags (pa / 4096 * 4096) 0) w').
Proof.
  intros Hw Hs Hne Hf Hpa Hsz Hend Hcap. destruct (space_rest _ _ _ _ _ _ Hs) as (l & Har).
  pose proof Har as [[Hv Ht0] Hc Hl Hu].
  destruct (pages_of_size pa size Hpa Hsz Hend) as (E1 & E2 & E3 & E4 & Hn & Hnn & Hpe). unfold is_u32 in Hpa.
  set (n := pages_of pa size) in *. set (apa := pa / 4096 * 4096) in *.
  pose proof (Z.div_mod pa 4096 ltac:(lia)) as Hdm. pose proof (Z.mod_pos_bound pa 4096 ltac:(lia)) as Hmb.
  assert (apa = pa - pa mod 4096) as Hapa by (unfold apa; lia).
  unfold vmm_map_memory. cbv zeta. rewrite E1, E2, E3, E4, (proj2 (Z.eqb_neq v 0)), Hcap, (proj2 (Z.eqb_neq size 0)) by lia.
  cbn [negb Z.eqb orb].
  assert (apa mod 4096 = 0) as Ham by (apply Z.mod_mul; lia).
  destruct (reserve_run w L v c ns rs apa n flags Hw Hs Hne Hn Hnn Hf Ham ltac:(lia) Hpe)
    as [(h & E & Hh)|(p & va & t & h & ns1 & ns2 & rs1 & rs2 & E & HpL & Hh & Hnil & -> & -> & Hln & Hfg & Hpl & Ht)];
    rewrite (bind_Ret _ _ _ _ _ E); cbn [fst snd negb].
  { eexists _, _. split; [reflexivity|left]. split; [done|].
    apply (unchanged_parts w L v c ns rs h (v_frames w)); try done. apply Hw. }
  set (w1 := stepped w v (with_rb t c) _ h (v_frames w) (v_pg w)) in *. pose proof Hpl as (P1 & P2 & P3 & _ & _).
  rewrite (bind_Ret _ _ _ (with_rb t c) w1) by (apply vcb_run, lookup_insert_eq). cbn [with_rb v_cr3].
  unfold PAGE_SIZE. rewrite Z.div_mul by lia.
  destruct (map_or_roll (Z.to_nat n) (v_pg w) (v_cr3 c) va apa flags (sp_pg _ _ _ _ _ _ Hs) Hf P1 Ham)
    as (o & g1 & Em & Ho); rewrite ?Z2Nat.id by lia; [done|lia|lia|lia|..].
  { intros a Ha. unfold in_run in Ha. zprop. unfold USER_HEAP_END in *.
    rewrite (sp_look _ _ _ _ _ _ Hs) by (unfold USER_HEAP_END; lia).
    eapply place_uncovered; [done|apply (tr_ok _ _ _ _ _ (sp_tree _ _ _ _ _ _ Hs))|lia]. }
  rewrite Z2Nat.id in Ho by lia. rewrite (bind_Ret _ _ _ _ _ (gzoom_run _ w1 _ _ Em)). destruct o as [i|].
  - destruct Ho as (g2 & Eu & Hg2 & Hsp & Hlook). rewrite (bind_Ret _ _ _ _ _ (gzoom_run _ (set_v_pg g1 w1) _ _ Eu)).
    set (w2 := set_v_pg g2 (set_v_pg g1 w1)).
    assert (Hwin : covers va (window va n flags apa 0) = true).
    { rewrite window_covers by (unfold USER_HEAP_END in *; lia). unfold in_run. apply andb_true_iff. rewrite Z.leb_le, Z.ltb_lt. lia. }
    destruct (release_run w2 ({[p]} ∪ L) v (with_rb t c) l ns1 p ns2 rs1 (window va n flags apa 0) rs2 va 0)
      as (t2 & h2 & Er & En2 & Hh2 & Ht2); try done.
    + constructor; [done|apply lookup_insert_eq|done|done].
    + by destruct Ht.
    + set_solver.
    + unfold beyond_region. simpl. rewrite Z.add_0_r.
      rewrite (u32_small va), (u32_small (va + _)) by (unfold is_u32, USER_HEAP_END in *; lia).
      apply orb_false_iff. rewrite orb_false_iff, !Z.ltb_ge. lia.
    + rewrite (bind_Ret _ _ _ _ _ Er). eexists _, _. split; [reflexivity|left]. split; [done|].
      assert (Hrp : regions w !! p = None).
      { apply not_elem_of_dom. intros Hd. by apply HpL, (wd_regions _ _ Hw). }
      match goal with |- unchanged _ _ _ _ _ _ ?x =>
        assert (x = stepped w v (with_rb t2 c) (regions w) h2 (v_frames w) g2) as -> end.
      { unfold stepped. simpl. rewrite delete_insert_id, insert_insert_eq by done. done. }
      apply unchanged_stepped; try done.
      * by rewrite En2.
      * apply Ht2; [apply lookup_insert_eq|]. intros q Hq. simpl. by rewrite lookup_insert_ne.
      * by replace L with (({[p]} ∪ L) ∖ {[p]}) by set_solver.
  - destruct Ho as (Hg1 & Hsp & Hlook). eexists _, _. split; [reflexivity|right].
    exists p, va, t, ns1, ns2, rs1, rs2. split_and!; try done.
    + apply u32_small. unfold is_u32, USER_HEAP_END in *. lia.
    + apply (window_grown w L v c ns1 ns2 rs1 rs2 p t h va n flags apa g1); (done || lia).
Qed.

Lemma find_covers rs1 r rs2 va :
  Forall region_ok (rs1 ++ r :: rs2) → ordered (rs1 ++ r :: rs2) → covers va r = true →
  List.find (covers va) (rs1 ++ r :: rs2) = Some r.
Proof.
  intros Hok Hord Hcov. destruct (covers_unique rs1 r rs2 va Hok Hord Hcov) as [F _].
  clear -F Hcov. induction F as [|k rs1 Hk _ IH]; simpl; [by rewrite Hcov|by rewrite Hk].
Qed.

(** [vmm_unmap_memory] at an address of a window. *)
Lemma vmm_unmap_memory_run (cap : Z → Z → Z → Z → Z) (w : vm) L v c ns1 p ns2 rs1 r rs2 va size :
  world w L → space w L v c (ns1 ++ p :: ns2) (rs1 ++ r :: rs2) → length ns1 = length rs1 →
  covers va r = true → own_phys r = 0 → beyond_region va size r = false → cap v (rg_pa r) (rg_size r) 0 = 0 →
  ∃ t w', vmm_unmap_memory cap v va size w = Ret 0 w' ∧ world w' (L ∖ {[p]}) ∧
    space w' (L ∖ {[p]}) v (with_rb t c) (ns1 ++ ns2) (rs1 ++ rs2) ∧ v_frames w' = v_frames w ∧
    spared w L v c (ns1 ++ p :: ns2) w' (L ∖ {[p]}) (with_rb t c) (ns1 ++ ns2).
Proof.
  intros Hw Hs Hln Hcov Hown Hb Hcap. destruct (space_rest _ _ _ _ _ _ Hs) as (l & Har).
  pose proof Har as [[Hv Ht0] Hc Hl Hu]. pose proof (sp_tree _ _ _ _ _ _ Hs) as Ht.
  pose proof (tr_ok _ _ _ _ _ Ht) as Hok. pose proof (tr_ord _ _ _ _ _ Ht) as Hord.
  assert (Hr : region_ok r) by (apply Forall_app in Hok as [_ Hok]; by inversion Hok).
  pose proof (tr_regions _ _ _ _ _ Ht) as [_ H2]%Forall2_app_inv; [|done]. inversion H2 as [|? ? ? ? Hp _]; subst.
  unfold vmm_unmap_memory. rewrite (proj2 (Z.eqb_neq v 0)) by done.
  rewrite (bind_Ret _ _ _ _ _ (lookup_region_run w L v c _ _ va Hs)).
  rewrite find_covers by done.
  cbn [fst snd negb Z.eqb]. rewrite Hcap. cbn [negb Z.eqb].
  destruct (release_run w L v c l ns1 p ns2 rs1 r rs2 va size Har Ht Hln (wd_heap _ _ Hw)) as (t & h & Er & En & Hh & Ht2);
    [apply (wd_regions _ _ Hw); by eapply elem_of_dom_2|done..|].
  rewrite (bind_Ret _ _ _ _ _ Er). cbn [fst snd negb Z.eqb]. set (w1 := stepped w v (with_rb t c) _ h _ _).
  rewrite (bind_Ret _ _ _ (with_rb t c) w1) by (apply vcb_run, lookup_insert_eq). cbn [with_rb v_cr3].
  destruct (region_unmap (v_pg w) (v_cr3 c) r (sp_pg _ _ _ _ _ _ Hs) Hr) as (g & Eg & Hg & Hsp & Hlook).
  rewrite (bind_Ret _ _ _ _ _ (gzoom_run _ w1 _ _ Eg)).
  destruct (stepped_shrink w L v c ns1 p ns2 rs1 r rs2 t h (v_frames w) g) as (W' & S' & B'); try done.
  - apply Ht2; [apply lookup_insert_eq|]. intros q Hq. simpl. by rewrite lookup_delete_ne.
  - apply Hw.
  - intros a Ha. apply Hlook. unfold is_u32, USER_HEAP_END in *. lia.
  - exists t. eexists. split_and!; [reflexivity|exact W'|exact S'|done|exact B'].
Qed.

(** ** Windows at a chosen address *)

Lemma overlaps_iff vs n r : region_ok r → 0 <= vs → 0 <= n → vs + n < 4294967296 →
  overlaps vs n r = true ↔ vs < rg_end r ∧ start_va r < vs + n.
Proof.
  intros Hr H0 Hn He. unfold overlaps. rewrite region_end_u32, (u32_small (vs + n)) by (done || unfold is_u32; lia).
  by rewrite andb_true_iff, !Z.ltb_lt.
Qed.

Lemma gap_place n va rs :
  Forall region_ok rs → ordered rs → va mod 4096 = 0 → USER_HEAP_END <= va → 0 < n → va + n <= 4294967295 →
  Forall (λ r, overlaps va n r = false) rs → ∃ rs1 rs2, rs = rs1 ++ rs2 ∧ place n va rs1 rs2.
Proof.
  intros Hok Ho H1 H2 Hn H3. assert (0 <= va) by (unfold USER_HEAP_END in *; lia). revert Hok Ho.
  induction rs as [|r rs IH]; intros Hok Ho Hno.
  - exists [], []. split; [done|]. by split_and!; [done|done|done|constructor|constructor].
  - inversion Hok as [|? ? Hr Hrs]; inversion Ho as [|? ? Ho' Hall]; inversion Hno as [|? ? Hov Hno']; subst.
    destruct (IH Hrs Ho' Hno') as (rs1 & rs2 & -> & (_ & _ & _ & F1 & F2)).
    apply not_true_iff_false in Hov. rewrite overlaps_iff in Hov by (done || lia).
    pose proof (region_bounds r Hr) as (B1 & B2 & _ & _).
    destruct (Z.le_gt_cases (rg_end r) va) as [Hle|Hgt].
    + exists (r :: rs1), rs2. split; [done|]. by split_and!; [done|done|done|constructor|done].
    + exists [], (r :: rs1 ++ rs2). split; [done|]. split_and!; [done|done|done|constructor|].
      assert (va + n <= start_va r) as Hb by lia. constructor; [done|].
      eapply Forall_impl; [exact Hall|]. simpl. intros q Hq. lia.
Qed.

Lemma find_node_spec q (w : vm) v c ns rs : tree_of w v c ns rs →
  (find_node q ns rs = 0 ∧ Forall (λ r, q r = false) rs) ∨
  (find_node q ns rs ≠ 0 ∧ Exists (λ r, q r = true) rs).
Proof.
  intros Ht. pose proof (tr_regions _ _ _ _ _ Ht) as H2.
  assert (H0 : ∀ m, m ∈ ns → m ≠ 0) by (intros m Hm; by eapply node_nonzero). clear Ht.
  induction H2 as [|m r ns rs Hm _ IH]; [by left|]. simpl. destruct (q r) eqn:Eq.
  - right. split; [apply H0; left|by left].
  - destruct IH as [[E F]|[E F]]; [intros x Hx; apply H0; by right|left|right]; split; try done; by constructor.
Qed.

(** The arguments [vmm_map_fixed] accepts. *)
Definition fixed_ok (pa va n : Z) : Prop :=
  pa mod 4096 = 0 ∧ is_u32 pa ∧ pa + n * 4096 <= 4294967296 ∧ va mod 4096 = 0 ∧ USER_HEAP_END <= va ∧
  0 < n ∧ va + n * 4096 <= 4294967295.

Lemma low_bits x : Z.land x (PAGE_SIZE - 1) = x mod 4096.
Proof. unfold PAGE_SIZE. change (4096 - 1) with (Z.ones 12). by rewrite Z.land_ones by lia. Qed.

Lemma vmm_map_fixed_run (cap : Z → Z → Z → Z → Z) (w : vm) L v c ns rs pa va n flags :
  world w L → space w L v c ns rs → flag 0 flags = true → fixed_ok pa va n → cap v pa (n * 4096) flags = 0 →
  ∃ x w', vmm_map_fixed cap v pa va (n * 4096) flags 0 w = Ret x w' ∧
    ((x = E_NOMEM ∨ x = E_LIMIT ∨ x = E_EXISTS ∧ Exists (λ r, overlaps va (n * 4096) r = true) rs) ∧
       unchanged w L v c ns rs w' ∨
     x = 0 ∧ ∃ p t ns1 ns2 rs1 rs2, p ∉ L ∧ ns = ns1 ++ ns2 ∧ rs = rs1 ++ rs2 ∧ length ns1 = length rs1 ∧
       place (n * 4096) va rs1 rs2 ∧ v_frames w' = v_frames w ∧
       grown w L v c ns1 ns2 rs1 rs2 p t (window va n flags pa 0) w').
Proof.
  intros Hw Hs Hf (Hpm & Hpu & Hpe & Hvm & Hve & Hn & Hend) Hcap. destruct (space_rest _ _ _ _ _ _ Hs) as (l & Har).
  pose proof Har as [[Hv Ht0] Hc Hl Hu]. unfold is_u32 in Hpu. pose proof (sp_tree _ _ _ _ _ _ Hs) as Ht.
  assert (Hlt : (l < length (v_locks w))%nat) by (by eapply lookup_lt_Some).
  unfold vmm_map_fixed. rewrite !low_bits, Hpm, Hvm, Z.mod_mul, Hcap by lia.
  rewrite (proj2 (Z.eqb_neq v 0)), (proj2 (Z.eqb_neq (n * 4096) 0)) by lia. cbn [negb Z.eqb orb].
  destruct (kmalloc_ok (v_heap w) L sizeof_vmm_region (wd_heap _ _ Hw) ltac:(done))
    as [(h & Ek & Hh)|(p & h & Ek & Hp & HpL & Hh)]; rewrite (bind_Ret _ _ _ _ _ (hzoom_run _ w _ _ Ek)).
  { rewrite Z.eqb_refl. eexists _, _. split; [reflexivity|left]. split; [by left|].
    apply (unchanged_parts w L v c ns rs h (v_frames w)); try done. apply Hw. }
  rewrite (proj2 (Z.eqb_neq p 0)) by lia. set (w0 := set_v_heap h w).
  rewrite (bind_Ret _ _ _ c w0), Hl by (by apply vcb_run).
  rewrite (bind_Ret _ _ _ _ _ (lock_run w0 l Hu)). cbn [negb Z.eqb]. set (w1 := set_v_locks _ w0).
  assert (Ht1 : tree_of w1 v c ns rs) by (by destruct Ht).
  rewrite (bind_Ret _ _ _ _ _ (first_region_run _ w1 v c _ _ Ht1)).
  destruct (find_node_spec (overlaps va (n * 4096)) w1 v c ns rs Ht1) as [[-> Hno]|[Hnz Hex]].
  2: { rewrite (proj2 (Z.eqb_neq _ 0)) by done. cbn [negb].
       rewrite (bind_Ret _ _ _ _ _ (unlock_run w1 l ltac:(simpl; by rewrite length_insert))).
       destruct (kfree_ok h ({[p]} ∪ L) p Hh ltac:(set_solver)) as (h2 & Ek2 & Hh2).
       erewrite bind_Ret; [|apply hzoom_run; exact Ek2].
       eexists _, _. split; [reflexivity|left]. split; [by right; right|].
       unfold set_v_heap, set_v_locks. simpl. rewrite relock by done.
       apply (unchanged_parts w L v c ns rs h2 (v_frames w)); try done; [|apply Hw].
       by replace L with (({[p]} ∪ L) ∖ {[p]}) by set_solver. }
  cbn [negb Z.eqb].
  destruct (gap_place (n * 4096) va rs (tr_ok _ _ _ _ _ Ht) (tr_ord _ _ _ _ _ Ht) Hvm Hve ltac:(lia) Hend Hno)
    as (rs1 & rs2 & -> & Hpl).
  assert (Hrp : regions w !! p = None).
  { apply not_elem_of_dom. intros Hd. by apply HpL, (wd_regions _ _ Hw). }
  destruct (tree_insert_ok w1 v c ns rs1 rs2 (n * 4096) va p (window va n flags pa 0))
    as (t & ns1 & ns2 & Ei & En & -> & Hln & Ht'); try done.
  { eapply window_ok; (done || lia). } { intros ->. by apply HpL, (sp_mem _ _ _ _ _ _ Hs). } { lia. }
  rewrite <- bind_assoc. unfold window in Ei. rewrite (bind_Ret _ _ _ _ _ Ei). fold (window va n flags pa 0).
  set (r := window va n flags pa 0) in *.
  assert (Eu : lzoom (spinlock_unlock (Some l))
      (set_vcbs (<[v := with_rb t c]> (vcbs w1)) (set_regions (<[p := r]> (regions w1)) w1))
    = Ret 0 (stepped w v (with_rb t c) (<[p := r]> (regions w)) h (v_frames w) (v_pg w))).
  { rewrite unlock_run by (simpl; by rewrite length_insert). f_equal.
    exact (stepped_locks w v _ (<[p := r]> (regions w)) h (v_frames w) (v_pg w) _ (relock _ _ Hu)). }
  rewrite (bind_Ret _ _ _ _ _ Eu). set (w2 := stepped w v _ _ h _ _).
  unfold PAGE_SIZE. rewrite Z.div_mul by lia.
  destruct (map_or_roll (Z.to_nat n) (v_pg w) (v_cr3 c) va pa flags (sp_pg _ _ _ _ _ _ Hs) Hf Hvm Hpm)
    as (o & g1 & Em & Ho); rewrite ?Z2Nat.id by lia; [done|lia|lia|lia|..].
  { intros a Ha. unfold in_run in Ha. zprop. unfold USER_HEAP_END in *.
    rewrite (sp_look _ _ _ _ _ _ Hs) by (unfold USER_HEAP_END; lia).
    eapply place_uncovered; [done|apply (tr_ok _ _ _ _ _ Ht)|lia]. }
  rewrite Z2Nat.id in Ho by lia. rewrite (bind_Ret _ _ _ _ _ (gzoom_run _ w2 _ _ Em)). destruct o as [i|].
  - destruct Ho as (g2 & Er & Hg2 & Hsp & Hlook). rewrite (bind_Ret _ _ _ _ _ (gzoom_run _ (set_v_pg g1 w2) _ _ Er)).
    set (w3 := set_v_pg g2 (set_v_pg g1 w2)). rewrite (bind_Ret _ _ _ _ _ (lock_run w3 l Hu)).
    set (w4 := set_v_locks _ w3).
    destruct (tree_delete_ok w4 v (with_rb t c) ns1 p ns2 rs1 r rs2) as (t2 & Ed & En2 & Ht2); [by destruct Ht'|done|].
    rewrite (bind_Ret _ _ _ _ _ Ed).
    rewrite (bind_Ret _ _ _ _ _ (unlock_run (set_vcbs _ w4) l ltac:(simpl; by rewrite length_insert))).
    destruct (kfree_ok h ({[p]} ∪ L) p Hh ltac:(set_solver)) as (h2 & Ek2 & Hh2).
    unfold free_region. rewrite bind_assoc, (bind_Ret (modify _) _ _ tt _ eq_refl).
    erewrite bind_Ret; [|apply hzoom_run; exact Ek2].
    eexists _, _. split; [reflexivity|left]. split; [by right; left|].
    match goal with |- unchanged _ _ _ _ _ _ ?x =>
      assert (x = stepped w v (with_rb t2 c) (regions w) h2 (v_frames w) g2) as -> end.
    { unfold stepped, set_v_heap, set_regions, set_v_locks, set_vcbs. simpl.
      rewrite delete_insert_id, relock, insert_insert_eq by done. done. }
    apply unchanged_stepped; try done.
    + by rewrite En2.
    + apply Ht2; [apply lookup_insert_eq|]. intros q Hq. simpl. by rewrite lookup_insert_ne.
    + by replace L with (({[p]} ∪ L) ∖ {[p]}) by set_solver.
  - destruct Ho as (Hg1 & Hsp & Hlook). eexists _, _. split; [reflexivity|right]. split; [done|].
    exists p, t, ns1, ns2, rs1, rs2. split_and!; try done.
    apply (window_grown w L v c ns1 ns2 rs1 rs2 p t h va n flags pa g1); try (done || lia). by destruct Ht'.
Qed.

Lemma vmm_unmap_fixed_run (cap : Z → Z → Z → Z → Z) (w : vm) L v c ns1 p ns2 rs1 r rs2 va size :
  world w L → space w L v c (ns1 ++ p :: ns2) (rs1 ++ r :: rs2) → length ns1 = length rs1 →
  covers va r = true → own_phys r = 0 → beyond_region va size r = false → cap v (rg_pa r) (rg_size r) 0 = 0 →
  ∃ t w', vmm_unmap_fixed cap v va size w = Ret 0 w' ∧ world w' (L ∖ {[p]}) ∧
    space w' (L ∖ {[p]}) v (with_rb t c) (ns1 ++ ns2) (rs1 ++ rs2) ∧ v_frames w' = v_frames w ∧
    spared w L v c (ns1 ++ p :: ns2) w' (L ∖ {[p]}) (with_rb t c) (ns1 ++ ns2).
Proof.
  intros Hw Hs Hln Hcov Hown Hb Hcap. destruct (space_rest _ _ _ _ _ _ Hs) as (l & [[Hv Ht0] Hc Hl Hu]).
  pose proof (sp_tree _ _ _ _ _ _ Hs) as Ht. assert (Hlt : (l < length (v_locks w))%nat) by (by eapply lookup_lt_Some).
  pose proof (tr_ok _ _ _ _ _ Ht) as Hok. pose proof (tr_ord _ _ _ _ _ Ht) as Hord.
  assert (Hr : region_ok r) by (apply Forall_app in Hok as [_ Hok]; by inversion Hok).
  pose proof (tr_regions _ _ _ _ _ Ht) as [_ H2]%Forall2_app_inv; [|done]. inversion H2 as [|? ? ? ? Hp _]; subst.
  unfold vmm_unmap_fixed. rewrite (proj2 (Z.eqb_neq v 0)) by done.
  rewrite (bind_Ret _ _ _ _ _ (vcb_run _ _ _ Hc)), (proj2 (Z.eqb_neq (v_tree c) 0)) by done.
  rewrite (bind_Ret _ _ _ _ _ (lookup_region_run w L v c _ _ va Hs)), find_covers by done.
  cbn [fst snd negb Z.eqb]. rewrite Hcap, Hl. cbn [negb Z.eqb].
  rewrite (bind_Ret _ _ _ _ _ (lock_run w l Hu)). cbn [negb Z.eqb]. set (w1 := set_v_locks _ w).
  assert (Ht1 : tree_of w1 v c (ns1 ++ p :: ns2) (rs1 ++ r :: rs2)) by (by destruct Ht).
  rewrite (bind_Ret _ _ _ _ _ (first_region_run _ w1 v c _ _ Ht1)).
  rewrite find_node_hit by (done || apply (covers_unique rs1 r rs2 va Hok Hord Hcov)).
  rewrite (proj2 (Z.eqb_neq p 0)).
  2: { eapply node_nonzero; [exact Ht|]. apply elem_of_app. right. left. }
  rewrite (bind_Ret _ _ _ _ _ (region_run w1 _ _ Hp)), Hb.
  destruct (tree_delete_ok w1 v c ns1 p ns2 rs1 r rs2 Ht1 Hln) as (t & Ed & En & Ht2).
  rewrite (bind_Ret _ _ _ _ _ Ed).
  destruct (kfree_ok (v_heap w) L p (wd_heap _ _ Hw)) as (h & Ek & Hh).
  { apply (wd_regions _ _ Hw). by eapply elem_of_dom_2. }
  unfold free_region. rewrite bind_assoc, (bind_Ret (modify _) _ _ tt _ eq_refl).
  erewrite bind_Ret; [|apply hzoom_run; exact Ek].
  erewrite bind_Ret; [|apply unlock_run; simpl; by rewrite length_insert].
  destruct (region_unmap (v_pg w) (v_cr3 c) r (sp_pg _ _ _ _ _ _ Hs) Hr) as (g & Eg & Hg & Hsp & Hlook).
  erewrite bind_Ret; [|apply gzoom_run; exact Eg]. rewrite Hown. cbn [Z.eqb].
  exists t. eexists. split; [reflexivity|].
  match goal with |- world ?x _ ∧ _ =>
    assert (x = stepped w v (with_rb t c) (delete p (regions w)) h (v_frames w) g) as -> end.
  { unfold stepped, set_v_pg, set_v_heap, set_regions, set_v_locks, set_vcbs. simpl. by rewrite relock by done. }
  destruct (stepped_shrink w L v c ns1 p ns2 rs1 r rs2 t h (v_frames w) g) as (W' & S' & B'); try done.
  - apply Ht2; [apply lookup_insert_eq|]. intros q Hq. simpl. by rewrite lookup_delete_ne.
  - apply Hw.
  - intros a Ha. apply Hlook. unfold is_u32, USER_HEAP_END in *. lia.
Qed.

(** ** Adding a window and removing it *)

(** After a window was added, what [unchanged] needs of removing it. *)
Lemma grown_then_shrunk (w w1 w2 : vm) L v c ns1 ns2 rs1 rs2 p t r t2 :
  p ∉ L → v_frames w1 = v_frames w → v_frames w2 = v_frames w1 →
  grown w L v c ns1 ns2 rs1 rs2 p t r w1 →
  world w2 (({[p]} ∪ L) ∖ {[p]}) →
  space w2 (({[p]} ∪ L) ∖ {[p]}) v (with_rb t2 (with_rb t c)) (ns1 ++ ns2) (rs1 ++ rs2) →
  spared w1 ({[p]} ∪ L) v (with_rb t c) (ns1 ++ p :: ns2) w2 (({[p]} ∪ L) ∖ {[p]}) (with_rb t2 (with_rb t c)) (ns1 ++ ns2) →
  unchanged w L v c (ns1 ++ ns2) (rs1 ++ rs2) w2.
Proof.
  intros HpL F1 F2 (_ & _ & Hb) Hw Hs Hb2. assert (({[p]} ∪ L) ∖ {[p]} = L) as E by set_solver. rewrite E in *.
  exists t2. split_and!; [exact Hw|exact Hs|intros x Hx; by rewrite F2, F1|].
  exact (spared_trans w w1 w2 _ _ _ v c (with_rb t c) (with_rb t2 (with_rb t c)) _ _ _ eq_refl Hb Hb2).
Qed.

Lemma map_fixed_refused (cap : Z → Z → Z → Z → Z) (w : vm) v pa va n flags own :
  v ≠ 0 → fixed_ok pa va n → cap v pa (n * 4096) flags ≠ 0 →
  vmm_map_fixed cap v pa va (n * 4096) flags own w = Ret E_PERM w.
Proof.
  intros Hv (Hpm & _ & _ & Hvm & _ & Hn & _) Hc. unfold vmm_map_fixed.
  rewrite !low_bits, Hpm, Hvm, Z.mod_mul by lia.
  rewrite (proj2 (Z.eqb_neq v 0)), (proj2 (Z.eqb_neq (n * 4096) 0)) by lia. cbn [negb Z.eqb orb].
  by rewrite (proj2 (Z.eqb_neq _ 0) Hc).
Qed.

Lemma unchanged_refl (w : vm) L v c ns rs : world w L → space w L v c ns rs → unchanged w L v c ns rs w.
Proof.
  intros Hw Hs. exists (v_rb c). rewrite with_rb_id. split_and!; [done|done|done|]. split; [split; [|by split]|split; [apply spares_refl|done]].
  by rewrite insert_id by apply (tr_vcb _ _ _ _ _ (sp_tree _ _ _ _ _ _ Hs)).
Qed.

(** A window just mapped covers its first address and nothing beyond its end. *)
Lemma window_whole va n flags pa own :
  0 <= va → 0 < n → va + n * 4096 < 4294967296 →
  covers va (window va n flags pa own) = true ∧
  beyond_region va (n * 4096) (window va n flags pa own) = false.
Proof.
  intros H1 H2 H3. split.
  - rewrite window_covers by lia. unfold in_run. apply andb_true_iff. rewrite Z.leb_le, Z.ltb_lt. lia.
  - unfold beyond_region. simpl. rewrite u32_small by (unfold is_u32; lia).
    rewrite !orb_false_iff, !Z.ltb_ge. lia.
Qed.

Lemma grown_look (w w1 : vm) L v c ns1 ns2 rs1 rs2 p t va n flags pa own a :
  grown w L v c ns1 ns2 rs1 rs2 p t (window va n flags pa own) w1 →
  USER_HEAP_END <= va → va + n * 4096 < 4294967296 → va <= a < va + n * 4096 →
  look (v_pg w1) (v_cr3 c) a = Some (pa + (a - va), flag 1 flags).
Proof.
  intros (_ & Hs & _) H1 H2 Ha. unfold USER_HEAP_END in *. pose proof (sp_tree _ _ _ _ _ _ Hs) as Ht.
  change (v_cr3 c) with (v_cr3 (with_rb t c)).
  rewrite (sp_look _ _ _ _ _ _ Hs) by (unfold USER_HEAP_END; lia). rewrite look_regions_insert by apply Ht.
  rewrite window_covers by lia. unfold in_run. rewrite (proj2 (Z.leb_le _ _)), (proj2 (Z.ltb_lt _ _)) by lia. done.
Qed.
End map.
