(* ===== verification/Heap.v ===== *)
(** * The heaps (kernel/mm/heap.c)

    Two pools of 16 MB, one for the kernel ([kmalloc]/[kfree]) and one shared
    by user programs ([SYSCALL_HEAP]), each a list of chunks in address
    order.  A chunk starts with a 16-byte header (size, used flag, list node)
    that lives in the pool itself.  The model keeps the headers and the list
    nodes as typed objects at their addresses and the payload as bytes;
    zeroing a payload ends the life of every header in its range.  The
    invariant [heap_wf] says that the chunks tile the pool, that no two free
    chunks are adjacent and that [avail_size] is the space in free chunks;
    the pool is finally shown to be an instance of the [Allocator] interface
    the rest of the kernel relies on. *)

From S2P Require Import Prelude DList Spinlock Allocator.
From stdpp Require Import base tactics list gmap.
From Stdlib Require Import ZArith Lia.

Open Scope Z_scope.

Definition HEAP_TOTAL_SIZE : Z := 1024 * 1024 * 16.
Definition HEAP_ALIGN : Z := 8.

(** [struct heapchunk]: [size] at offset 0, [used] at 4, [this_node] at 8. *)
Record heapchunk := mk_chunk { chunk_size : Z; chunk_used : Z }.
Definition sizeof_heapchunk : Z := 16.
Definition NODE_OFFSET : Z := 8.

(** [(x + HEAP_ALIGN - 1) & ~(HEAP_ALIGN - 1)] *)
Definition align_up (x : Z) : Z :=
  Z.land (u32 (x + HEAP_ALIGN - 1)) (4294967296 - 2 ^ 3).
Definition HEAP_HDR_SIZE : Z := align_up sizeof_heapchunk.

(** [struct heappool] with the memory it manages; [head_node] is the address
    of the list head. *)
Record heap := mk_heap {
  pool : Z;
  avail_size : Z;
  lock_dev : option nat;
  pool_init : bool;
  head_node : Z;
  chunks : gmap Z heapchunk;
  heap_nodes : node_store;
  heap_bytes : Z → Z;
  heap_mach : cpu * lock_table;
}.

Definition set_avail (h : heap) (v : Z) : heap :=
  mk_heap (pool h) v (lock_dev h) (pool_init h) (head_node h) (chunks h) (heap_nodes h) (heap_bytes h) (heap_mach h).
Definition set_lock_dev (h : heap) (l : option nat) : heap :=
  mk_heap (pool h) (avail_size h) l (pool_init h) (head_node h) (chunks h) (heap_nodes h) (heap_bytes h) (heap_mach h).
Definition set_init (h : heap) (b : bool) : heap :=
  mk_heap (pool h) (avail_size h) (lock_dev h) b (head_node h) (chunks h) (heap_nodes h) (heap_bytes h) (heap_mach h).
Definition set_chunks (h : heap) (cs : gmap Z heapchunk) : heap :=
  mk_heap (pool h) (avail_size h) (lock_dev h) (pool_init h) (head_node h) cs (heap_nodes h) (heap_bytes h) (heap_mach h).
Definition set_nodes (h : heap) (ns : node_store) : heap :=
  mk_heap (pool h) (avail_size h) (lock_dev h) (pool_init h) (head_node h) (chunks h) ns (heap_bytes h) (heap_mach h).
Definition set_bytes (h : heap) (m : Z → Z) : heap :=
  mk_heap (pool h) (avail_size h) (lock_dev h) (pool_init h) (head_node h) (chunks h) (heap_nodes h) m (heap_mach h).
Definition set_machine (h : heap) (m : cpu * lock_table) : heap :=
  mk_heap (pool h) (avail_size h) (lock_dev h) (pool_init h) (head_node h) (chunks h) (heap_nodes h) (heap_bytes h) m.

#[export] Instance heap_machine : Contains heap (cpu * lock_table).
Proof.
  refine {| part := heap_mach; set_part := λ m h, set_machine h m |}; try done.
  by intros [].
Defined.

(** ** Memory accesses *)

Definition get_chunk (c : Z) : M heap heapchunk := deref (λ h, chunks h !! c).
Definition set_chunk (c : Z) (ch : heapchunk) : M heap unit :=
  modify (λ h, set_chunks h (<[c := ch]> (chunks h))).

(** A list operation on the nodes. *)
Definition on_nodes (f : node_store → option node_store) : M heap unit := λ h,
  match f (heap_nodes h) with Some ns => Ret tt (set_nodes h ns) | None => Fault end.

Definition this_node (c : Z) : Z := c + NODE_OFFSET.
Definition list_entry (n : Z) : Z := n - NODE_OFFSET.

(** [memset(p, 0, n)]: bytes become 0; what was a header or a node in the
    range is one no longer. *)
Definition zero_bytes (p n : Z) (h : heap) : heap :=
  let hit (a len : Z) := (p <? a + len) && (a <? p + n) in
  mk_heap (pool h) (avail_size h) (lock_dev h) (pool_init h) (head_node h)
    (filter (λ kv, hit kv.1 NODE_OFFSET = false) (chunks h))
    (filter (λ kv, hit kv.1 NODE_OFFSET = false) (heap_nodes h))
    (λ a, if (p <=? a) && (a <? p + n) then 0 else heap_bytes h a)
    (heap_mach h).

(** ** The operations *)

Definition kheap_init : M heap unit :=
  l ← zoom spinlock_alloc;
  modify (λ h, set_lock_dev h l);;
  match l with
  | None => mret tt
  | Some _ =>
      flags ← zoom (spinlock_lock_irqsave l);
      h ← get;
      modify (λ h, set_init h true);;
      on_nodes (λ ns, Some (list_init (head_node h) ns));;
      set_chunk (pool h) (mk_chunk (HEAP_TOTAL_SIZE - HEAP_HDR_SIZE) 0);;
      on_nodes (list_add (this_node (pool h)) (head_node h));;
      zoom (spinlock_unlock_irqrestore l flags)
  end.

(** The search of [heap_malloc] from [node]: the first free chunk of at least
    [req_size] bytes, 0 when the walk is back at the head. *)
Fixpoint find_chunk (fuel : nat) (node req_size : Z) : M heap Z :=
  h ← get;
  if node =? head_node h then mret 0 else
  match fuel with
  | O => spin
  | S fuel =>
      p ← get_chunk (list_entry node);
      if (req_size <=? chunk_size p) && (chunk_used p =? 0) then mret (list_entry node) else
      nd ← deref (λ h, heap_nodes h !! node);
      find_chunk fuel (next nd) req_size
  end.

(** [heap_malloc] between locking and unlocking the pool. *)
Definition malloc_locked (alloc_size aligned_size req_size : Z) : M heap Z :=
  h ← get;
  if avail_size h <? req_size then mret 0 else
  hd ← deref (λ h, heap_nodes h !! head_node h);
  chunk ← find_chunk (size (heap_nodes h)) (next hd) req_size;
  if chunk =? 0 then mret 0 else
  let new_chunk := chunk +u req_size in
  ch ← get_chunk chunk;
  (if new_chunk + HEAP_HDR_SIZE <=? pool h + HEAP_TOTAL_SIZE then
     set_chunk new_chunk (mk_chunk (chunk_size ch -u req_size) 0);;
     on_nodes (list_add (this_node new_chunk) (this_node chunk))
   else mret tt);;
  let ret_addr := chunk +u HEAP_HDR_SIZE in
  modify (zero_bytes ret_addr alloc_size);;
  set_chunk chunk (mk_chunk aligned_size 1);;
  modify (λ h, set_avail h (avail_size h -u req_size));;
  mret ret_addr.

Definition heap_malloc (alloc_size : Z) : M heap Z :=
  h ← get;
  (if pool_init h then mret tt else kheap_init);;
  if HEAP_TOTAL_SIZE <? alloc_size then mret 0 else
  if 4294967295 - (HEAP_ALIGN - 1) <? alloc_size then mret 0 else
  let aligned_size := align_up alloc_size in
  let req_size := HEAP_HDR_SIZE +u aligned_size in
  h ← get;
  flags ← zoom (spinlock_lock_irqsave (lock_dev h));
  ret_addr ← malloc_locked alloc_size aligned_size req_size;
  zoom (spinlock_unlock_irqrestore (lock_dev h) flags);;
  mret ret_addr.

(** "merge with next chunk" in [heap_free]. *)
Definition merge_next (free_chunk : Z) : M heap unit :=
  h ← get;
  nx ← deref (λ h, list_next (this_node free_chunk) (heap_nodes h));
  if nx =? head_node h then mret tt else
  let chunk := list_entry nx in
  ch ← get_chunk chunk;
  if chunk_used ch =? 0 then
    fc ← get_chunk free_chunk;
    set_chunk free_chunk
      (mk_chunk (chunk_size fc +u (HEAP_HDR_SIZE + chunk_size ch)) (chunk_used fc));;
    on_nodes (list_del (this_node chunk))
  else mret tt.

(** "merge with prev chunk": returns the chunk that now holds the space. *)
Definition merge_prev (free_chunk : Z) : M heap Z :=
  h ← get;
  pv ← deref (λ h, list_prev (this_node free_chunk) (heap_nodes h));
  if pv =? head_node h then mret free_chunk else
  let chunk := list_entry pv in
  ch ← get_chunk chunk;
  if chunk_used ch =? 0 then
    fc ← get_chunk free_chunk;
    set_chunk chunk
      (mk_chunk (chunk_size ch +u (HEAP_HDR_SIZE + chunk_size fc)) (chunk_used ch));;
    on_nodes (list_del (this_node free_chunk));;
    mret chunk
  else mret free_chunk.

(** The locked part of [heap_free] on the chunk found at the pointer. *)
Definition free_locked (free_chunk : Z) (fc : heapchunk) : M heap unit :=
  if chunk_used fc =? 0 then mret tt else
  modify (λ h, set_avail h (avail_size h +u (HEAP_HDR_SIZE + chunk_size fc)));;
  merge_next free_chunk;;
  free_chunk ← merge_prev free_chunk;
  fc ← get_chunk free_chunk;
  set_chunk free_chunk (mk_chunk (chunk_size fc) 0).

Definition heap_free (pointer : Z) : M heap unit :=
  if pointer =? 0 then mret tt else
  h ← get;
  flags ← zoom (spinlock_lock_irqsave (lock_dev h));
  let free_chunk := pointer -u HEAP_HDR_SIZE in
  fc ← get_chunk free_chunk;
  free_locked free_chunk fc;;
  zoom (spinlock_unlock_irqrestore (lock_dev h) flags).

(** *** The system call *)

Definition HEAP_CTRL_MALLOC : Z := 0.
Definition HEAP_CTRL_FREE : Z := 1.

Record heap_ctrl_config := mk_heap_ctrl {
  hc_cmd : Z; hc_size : Z; hc_ptr : Z; hc_ret : Z }.

(** [heap_syscall_isr] on the user pool: the return value and the config
    with its OUT fields. *)
Definition heap_syscall_isr (data : option heap_ctrl_config)
    : M heap (Z * option heap_ctrl_config) :=
  match data with
  | None => mret (E_INVAL, None)
  | Some cfg =>
      if hc_cmd cfg =? HEAP_CTRL_MALLOC then
        p ← heap_malloc (hc_size cfg);
        mret (0, Some (mk_heap_ctrl (hc_cmd cfg) (hc_size cfg) p
                         (if p =? 0 then E_NOMEM else 0)))
      else if hc_cmd cfg =? HEAP_CTRL_FREE then
        heap_free (hc_ptr cfg);;
        mret (0, Some (mk_heap_ctrl (hc_cmd cfg) (hc_size cfg) (hc_ptr cfg) 0))
      else mret (E_INVAL, Some cfg)
  end.

(** The pools as the C initialisers leave them. *)
Definition boot_pool (start head : Z) (m : cpu * lock_table) : heap :=
  mk_heap start HEAP_TOTAL_SIZE None false head ∅ ∅ (λ _, 0) m.

(** ** The chunks of a pool *)

(** The list [l] of chunks tiles [a, e). *)
Fixpoint tiles (a : Z) (l : list (Z * heapchunk)) (e : Z) : Prop :=
  match l with
  | [] => a = e
  | (c, ch) :: l =>
      c = a ∧ 0 <= chunk_size ch ∧ chunk_size ch mod 8 = 0 ∧ 0 <= chunk_used ch <= 1 ∧
      tiles (a + 16 + chunk_size ch) l e
  end.

Definition is_free (cc : Z * heapchunk) : bool := chunk_used cc.2 =? 0.

(** Bytes in free chunks, headers included. *)
Fixpoint free_space (l : list (Z * heapchunk)) : Z :=
  match l with
  | [] => 0
  | cc :: l => (if is_free cc then 16 + chunk_size cc.2 else 0) + free_space l
  end.

Fixpoint coalesced (l : list (Z * heapchunk)) : Prop :=
  match l with
  | cc :: ((cc' :: _) as l) => is_free cc && is_free cc' = false ∧ coalesced l
  | _ => True
  end.

Definition chunk_nodes (l : list (Z * heapchunk)) : list Z := map (λ cc, this_node cc.1) l.

(** The memory of [h] holds exactly the chunks [l]. *)
Record heap_view (h : heap) (l : list (Z * heapchunk)) : Prop := {
  hv_pool : 0 < pool h ∧ pool h mod 8 = 0 ∧ pool h + HEAP_TOTAL_SIZE < 4294967296;
  hv_head : 0 < head_node h ∧
            (head_node h + 8 <= pool h ∨ pool h + HEAP_TOTAL_SIZE <= head_node h);
  hv_tiles : tiles (pool h) l (pool h + HEAP_TOTAL_SIZE);
  hv_chunks : Forall (λ cc, chunks h !! cc.1 = Some cc.2) l;
  hv_nodes : dlist (heap_nodes h) (head_node h) (chunk_nodes l);
}.

(** The pool between operations. *)
Record heap_wf (h : heap) (l : list (Z * heapchunk)) : Prop := {
  hw_view : heap_view h l;
  hw_init : pool_init h = true;
  hw_lock : ∃ i, lock_dev h = Some i ∧ (heap_mach h).2 !! i = Some LOCK_UNLOCKED;
  hw_avail : avail_size h = free_space l;
  hw_coalesced : coalesced l;
}.

Lemma HDR : HEAP_HDR_SIZE = 16.
Proof. reflexivity. Qed.

Lemma align_up_spec x :
  0 <= x <= HEAP_TOTAL_SIZE → x <= align_up x <= x + 7 ∧ align_up x mod 8 = 0.
Proof.
  unfold HEAP_TOTAL_SIZE. intros Hx. unfold align_up, HEAP_ALIGN.
  rewrite (u32_small (x + 8 - 1)), land_mask_down by (unfold is_u32; lia).
  change (2 ^ 3) with 8. pose proof (Z.div_mod (x + 8 - 1) 8 ltac:(lia)).
  pose proof (Z.mod_pos_bound (x + 8 - 1) 8 ltac:(lia)).
  split; [lia|]. apply Z.mod_mul. lia.
Qed.

Lemma tiles_app a l1 l2 e : tiles a (l1 ++ l2) e ↔ ∃ m, tiles a l1 m ∧ tiles m l2 e.
Proof.
  revert a. induction l1 as [|[c ch] l1 IH]; intros a; simpl.
  - split; [by exists a|]. by intros (? & -> & ?).
  - rewrite IH. clear. naive_solver.
Qed.

Lemma tiles_le a l e : tiles a l e → a <= e.
Proof.
  revert a. induction l as [|[c ch] l IH]; intros a; simpl; [lia|].
  intros (_ & H & _ & _ & Ht). apply IH in Ht. lia.
Qed.

Lemma tiles_elem a l e c ch : tiles a l e → (c, ch) ∈ l →
  a <= c ∧ c + 16 + chunk_size ch <= e ∧ 0 <= chunk_size ch.
Proof.
  revert a. induction l as [|[c' ch'] l IH]; intros a; simpl; [by rewrite elem_of_nil|].
  intros (-> & H & _ & _ & Ht) [Heq|Hin]%elem_of_cons.
  - simplify_eq. apply tiles_le in Ht. lia.
  - destruct (IH _ Ht Hin) as (? & ? & ?). lia.
Qed.

Lemma tiles_aligned a l e : tiles a l e → a mod 8 = 0 → e mod 8 = 0.
Proof.
  revert a. induction l as [|[c ch] l IH]; intros a; simpl; [by intros ->|].
  intros (_ & _ & Hm & _ & Ht) Ha. apply (IH _ Ht).
  replace (a + 16 + chunk_size ch) with (a + chunk_size ch + 2 * 8) by lia.
  rewrite Z.mod_add, Zplus_mod, Ha, Hm by lia. done.
Qed.

Lemma free_space_app l1 l2 : free_space (l1 ++ l2) = free_space l1 + free_space l2.
Proof. induction l1; simpl; lia. Qed.

Lemma tiles_free_space a l e : tiles a l e → 0 <= free_space l <= e - a.
Proof.
  revert a. induction l as [|[c ch] l IH]; intros a; simpl; [lia|].
  intros (_ & H & _ & _ & Ht). apply IH in Ht. destruct (is_free _); lia.
Qed.

(** ** The search *)

Definition fits (req : Z) (cc : Z * heapchunk) : bool :=
  (req <=? chunk_size cc.2) && is_free cc.

Lemma list_entry_node c : list_entry (this_node c) = c.
Proof. unfold list_entry, this_node. lia. Qed.

Lemma chunk_nodes_app l1 l2 : chunk_nodes (l1 ++ l2) = chunk_nodes l1 ++ chunk_nodes l2.
Proof. apply map_app. Qed.

Lemma chunk_node_not_head h l c ch :
  heap_view h l → (c, ch) ∈ l → this_node c ≠ head_node h.
Proof.
  intros [Hp Hh Ht _ _] Hin. destruct (tiles_elem _ _ _ _ _ Ht Hin) as (? & ? & ?).
  unfold this_node, NODE_OFFSET. lia.
Qed.

Lemma find_chunk_spec h l1 l2 req fuel :
  heap_view h (l1 ++ l2) → (length l2 <= fuel)%nat →
  find_chunk fuel (first_of (chunk_nodes l2) (head_node h)) req h
  = Ret (from_option fst 0 (List.find (fits req) l2)) h.
Proof.
  revert l1 fuel. induction l2 as [|[c ch] l2 IH]; intros l1 fuel Hv Hf.
  - destruct fuel; unfold first_of; simpl; unfold mbind, M_bind; simpl; by rewrite Z.eqb_refl.
  - destruct fuel as [|fuel]; simpl in Hf; [lia|].
    assert ((c, ch) ∈ l1 ++ (c, ch) :: l2) as Hin by (apply elem_of_app; right; left).
    change (first_of (chunk_nodes ((c, ch) :: l2)) (head_node h)) with (this_node c).
    cbn [find_chunk]. rewrite (bind_Ret _ _ _ h h) by done.
    rewrite (proj2 (Z.eqb_neq _ _)) by (by eapply chunk_node_not_head).
    rewrite list_entry_node.
    pose proof (proj1 (Forall_forall _ _) (hv_chunks _ _ Hv) _ Hin) as Hc. simpl in Hc.
    rewrite (bind_Ret _ _ _ ch h) by (by apply deref_Some).
    cbn [List.find]. unfold fits at 1, is_free at 1. cbn [snd].
    destruct ((req <=? chunk_size ch) && (chunk_used ch =? 0)); [done|].
    pose proof (hv_nodes _ _ Hv) as Hd. rewrite chunk_nodes_app in Hd.
    apply (dlist_next _ _ _ (this_node c) (chunk_nodes l2)) in Hd. unfold nxt in Hd.
    destruct (heap_nodes h !! this_node c) as [nd|] eqn:En; simplify_eq/=.
    rewrite (bind_Ret _ _ _ nd h) by (by apply deref_Some).
    rewrite Hd. apply (IH (l1 ++ [(c, ch)])); [by rewrite <- app_assoc|lia].
Qed.

(** ** Splitting a chunk *)

(** The zeroed range holds no other header and no node. *)
Lemma zero_bytes_keeps {V} (m : gmap Z V) p n k :
  k + NODE_OFFSET <= p ∨ p + n <= k →
  filter (λ kv : Z * V, (p <? kv.1 + NODE_OFFSET) && (kv.1 <? p + n) = false) m !! k = m !! k.
Proof.
  intros Hk. rewrite map_lookup_filter. destruct (m !! k); simpl; [|done].
  by rewrite option_guard_True by lia.
Qed.

(** Chunks left and right of a chunk. *)
Lemma tiles_split a l1 c ch l2 e :
  tiles a (l1 ++ (c, ch) :: l2) e →
  tiles a l1 c ∧ 0 <= chunk_size ch ∧ chunk_size ch mod 8 = 0 ∧ 0 <= chunk_used ch <= 1 ∧
  tiles (c + 16 + chunk_size ch) l2 e.
Proof. intros (m & H1 & H2)%tiles_app. simpl in H2. destruct H2 as (-> & ?). done. Qed.

Definition split_list (l1 l2 : list (Z * heapchunk)) (c al sz : Z) : list (Z * heapchunk) :=
  l1 ++ (c, mk_chunk al 1) :: (c + (16 + al), mk_chunk (sz - (16 + al)) 0) :: l2.

Lemma split_tiles a l1 c ch l2 e al :
  tiles a (l1 ++ (c, ch) :: l2) e → 0 <= al → al mod 8 = 0 → 16 + al <= chunk_size ch →
  tiles a (split_list l1 l2 c al (chunk_size ch)) e.
Proof.
  intros (H1 & Hs & Hm & Hu & H2)%tiles_split Hal Hmod Hfit. apply tiles_app.
  exists c. split; [done|]. cbn [tiles chunk_size chunk_used].
  split_and!; try (done || lia).
  - replace (chunk_size ch - (16 + al)) with (chunk_size ch - (al + 2 * 8)) by lia.
    rewrite Zminus_mod, Z.mod_add, Hm, Hmod by lia. done.
  - by replace (c + 16 + al + 16 + (chunk_size ch - (16 + al))) with (c + 16 + chunk_size ch) by lia.
Qed.

Lemma chunk_node_elem l k : k ∈ chunk_nodes l → ∃ c ch, (c, ch) ∈ l ∧ k = this_node c.
Proof. intros ([c ch] & -> & Hin)%list_elem_of_fmap. by exists c, ch. Qed.

(** What [heap_malloc] does to the chunk it found. *)
Definition take_chunk (c al n sz : Z) (ns : node_store) (h : heap) : heap :=
  let h := set_chunks h (<[c + (16 + al) := mk_chunk (sz - (16 + al)) 0]> (chunks h)) in
  let h := zero_bytes (c + 16) n (set_nodes h ns) in
  set_chunks h (<[c := mk_chunk al 1]> (chunks h)).

Lemma take_chunk_view h l1 c ch l2 al n :
  heap_view h (l1 ++ (c, ch) :: l2) → 0 <= n <= al → al mod 8 = 0 → 16 + al <= chunk_size ch →
  ∃ ns, list_add (this_node (c + (16 + al))) (this_node c) (heap_nodes h) = Some ns ∧
    heap_view (take_chunk c al n (chunk_size ch) ns h) (split_list l1 l2 c al (chunk_size ch)).
Proof.
  intros Hv Hn Hmod Hfit. pose proof (hv_tiles _ _ Hv) as Ht.
  destruct (tiles_split _ _ _ _ _ _ Ht) as (Ht1 & Hsz & Hszm & _ & Ht2).
  pose proof (tiles_le _ _ _ Ht1) as Hle1. pose proof (tiles_le _ _ _ Ht2) as Hle2.
  assert (∀ k kh, (k, kh) ∈ l1 → pool h <= k ∧ k + 16 <= c) as HL
    by (intros k kh Hk; destruct (tiles_elem _ _ _ _ _ Ht1 Hk) as (? & ? & ?); lia).
  assert (∀ k kh, (k, kh) ∈ l2 → c + 16 + chunk_size ch <= k) as HR
    by (intros k kh Hk; destruct (tiles_elem _ _ _ _ _ Ht2 Hk) as (? & ? & ?); lia).
  destruct (hv_pool _ _ Hv) as (Hp0 & _ & Hp2). pose proof (hv_head _ _ Hv) as [Hh0 Hh].
  pose proof (hv_nodes _ _ Hv) as Hd.
  assert (chunk_nodes (l1 ++ (c, ch) :: l2) = (chunk_nodes l1 ++ [this_node c]) ++ chunk_nodes l2)
    as Ecn by (by rewrite chunk_nodes_app, <- app_assoc).
  rewrite Ecn in Hd.
  destruct (list_add_dlist _ _ _ _ (this_node c) (this_node (c + (16 + al))) Hd)
    as (ns & Hns & Hd' & _).
  { by rewrite app_comm_cons, last_snoc. }
  { unfold this_node, NODE_OFFSET. lia. }
  { intros [Heq|Hin]%elem_of_cons; [unfold this_node, NODE_OFFSET in Heq; lia|].
    rewrite <- Ecn in Hin. apply chunk_node_elem in Hin as (k & kh & Hk & Heq).
    unfold this_node, NODE_OFFSET in Heq. apply elem_of_app in Hk as [Hk|[Hk|Hk]%elem_of_cons].
    - destruct (HL _ _ Hk). lia.
    - simplify_eq. lia.
    - pose proof (HR _ _ Hk). lia. }
  exists ns. split; [done|].
  split; cbn [take_chunk set_chunks set_nodes zero_bytes pool head_node chunks heap_nodes].
  - apply Hv.
  - apply Hv.
  - apply split_tiles; [done|lia..].
  - assert (∀ k, k + 8 <= c ∨ c + 16 + al < k → <[c:=mk_chunk al 1]> (filter (λ kv : Z * heapchunk,
      (c + 16 <? kv.1 + NODE_OFFSET) && (kv.1 <? c + 16 + n) = false)
      (<[c + (16 + al):=mk_chunk (chunk_size ch - (16 + al)) 0]> (chunks h))) !! k = chunks h !! k)
      as Hframe.
    { intros k Hk. rewrite lookup_insert_ne, zero_bytes_keeps, lookup_insert_ne
        by (unfold NODE_OFFSET; lia). done. }
    pose proof (hv_chunks _ _ Hv) as Hcs. apply Forall_app in Hcs as [Hc1 Hc2].
    apply Forall_cons in Hc2 as [_ Hc2]. apply Forall_app. split; [|apply Forall_cons; split;
      [|apply Forall_cons; split]].
    + apply Forall_forall. intros [k kh] Hk. destruct (HL _ _ Hk). cbn [fst snd].
      rewrite Hframe by lia. by apply (proj1 (Forall_forall _ _) Hc1 (k, kh)).
    + apply lookup_insert_eq.
    + cbn [fst snd]. rewrite lookup_insert_ne, zero_bytes_keeps by (unfold NODE_OFFSET; lia).
      apply lookup_insert_eq.
    + apply Forall_forall. intros [k kh] Hk. pose proof (HR _ _ Hk). cbn [fst snd].
      rewrite Hframe by lia. by apply (proj1 (Forall_forall _ _) Hc2 (k, kh)).
  - unfold split_list. rewrite chunk_nodes_app. cbn [chunk_nodes map fst].
    rewrite <- app_assoc in Hd'. refine (dlist_ext _ _ _ _ _ Hd').
    intros k Hk. apply zero_bytes_keeps. unfold this_node, NODE_OFFSET in *.
    apply elem_of_cons in Hk as [->|Hk]; [lia|].
    apply elem_of_app in Hk as [Hk|Hk].
    + apply chunk_node_elem in Hk as (k' & kh & Hk' & ->). destruct (HL _ _ Hk').
      unfold this_node, NODE_OFFSET. lia.
    + simpl in Hk. apply elem_of_cons in Hk as [->|[->|Hk]%elem_of_cons]; [lia..|].
      apply chunk_node_elem in Hk as (k' & kh & Hk' & ->). pose proof (HR _ _ Hk').
      unfold this_node, NODE_OFFSET. lia.
Qed.

(** ** Adjacency and space *)

Lemma coalesced_snoc l x :
  coalesced (l ++ [x]) ↔
  coalesced l ∧ match last l with Some y => is_free y && is_free x = false | None => True end.
Proof.
  induction l as [|y l IH]; [done|]. destruct l as [|z l]; [simpl; tauto|].
  cbn [app coalesced] in *. rewrite IH, last_cons_cons. tauto.
Qed.

Lemma coalesced_app l1 x l2 :
  coalesced (l1 ++ x :: l2) ↔ coalesced (l1 ++ [x]) ∧ coalesced (x :: l2).
Proof.
  induction l1 as [|y l1 IH]; [simpl; tauto|].
  destruct l1 as [|z l1]; [simpl; tauto|].
  cbn [app coalesced] in *. rewrite IH. tauto.
Qed.

(** Whether the neighbours of a chunk are free does not depend on its size. *)
Lemma coalesced_used l1 c ch l2 :
  chunk_used ch ≠ 0 → coalesced (l1 ++ (c, ch) :: l2) ↔ coalesced l1 ∧ coalesced l2.
Proof.
  intros Hu. rewrite coalesced_app, coalesced_snoc.
  assert (is_free (c, ch) = false) as Hf by (unfold is_free; simpl; lia).
  destruct l2 as [|x l2]; cbn [coalesced]; rewrite ?Hf, ?andb_false_r; simpl;
    destruct (last l1) as [y|]; rewrite ?andb_false_r; tauto.
Qed.

Lemma split_coalesced l1 c ch l2 al sz :
  is_free (c, ch) = true → coalesced (l1 ++ (c, ch) :: l2) →
  coalesced (split_list l1 l2 c al sz).
Proof.
  intros Hf [H1 H2]%coalesced_app. apply coalesced_snoc in H1 as [H1 _].
  apply coalesced_used; [done|]. split; [done|].
  destruct l2 as [|x l2]; [done|]. cbn [coalesced] in *. rewrite Hf in H2. exact H2.
Qed.

Lemma split_free_space l1 c ch l2 al :
  is_free (c, ch) = true →
  free_space (split_list l1 l2 c al (chunk_size ch))
  = free_space (l1 ++ (c, ch) :: l2) - (16 + al).
Proof.
  intros Hf. unfold split_list. rewrite !free_space_app. cbn [free_space]. rewrite Hf.
  unfold is_free. simpl. lia.
Qed.

Lemma find_fits_avail req l :
  (∃ cc, List.find (fits req) l = Some cc) → (∀ cc, cc ∈ l → 0 <= chunk_size cc.2) →
  req <= free_space l.
Proof.
  intros [cc H] Hs. destruct (find_Some_split _ _ _ H) as (l1 & l2 & -> & Hf & _).
  rewrite free_space_app. cbn [free_space].
  assert (∀ l', (∀ x, x ∈ l' → 0 <= chunk_size x.2) → 0 <= free_space l') as Hnn.
  { clear. induction l' as [|x l' IH]; intros Hs; simpl; [lia|].
    assert (0 <= free_space l') by (apply IH; intros; apply Hs; by right).
    pose proof (Hs x ltac:(left)). destruct (is_free x); lia. }
  assert (0 <= free_space l1) by (apply Hnn; intros; apply Hs, elem_of_app; by left).
  assert (0 <= free_space l2) by (apply Hnn; intros; apply Hs, elem_of_app; right; by right).
  unfold fits in Hf. apply andb_true_iff in Hf as [Hf1%Z.leb_le Hf2]. rewrite Hf2. lia.
Qed.

(** ** [heap_malloc] under the invariant *)

Lemma heap_view_machine h l m : heap_view h l → heap_view (set_machine h m) l.
Proof. by intros []. Qed.

(** The locked part, on the free chunk found. *)
Definition malloc_commit (c al n sz : Z) (ns : node_store) (h : heap) : heap :=
  let h' := take_chunk c al n sz ns h in set_avail h' (avail_size h' - (16 + al)).

Lemma malloc_locked_spec h l n al :
  heap_view h l → avail_size h = free_space l → 0 <= n <= al → al mod 8 = 0 →
  al <= HEAP_TOTAL_SIZE + 7 →
  match List.find (fits (16 + al)) l with
  | None => malloc_locked n al (16 + al) h = Ret 0 h
  | Some (c, ch) =>
      ∃ l1 l2 ns, l = l1 ++ (c, ch) :: l2 ∧ Forall (λ cc, fits (16 + al) cc = false) l1 ∧
        heap_view (take_chunk c al n (chunk_size ch) ns h) (split_list l1 l2 c al (chunk_size ch)) ∧
        malloc_locked n al (16 + al) h = Ret (c + 16) (malloc_commit c al n (chunk_size ch) ns h)
  end.
Proof.
  intros Hv Hav Hn Hmod Hal. unfold HEAP_TOTAL_SIZE in Hal.
  assert (∀ cc, cc ∈ l → 0 <= chunk_size cc.2) as Hsz.
  { intros [k kh] Hk. by destruct (tiles_elem _ _ _ _ _ (hv_tiles _ _ Hv) Hk) as (_ & _ & ?). }
  unfold malloc_locked. rewrite (bind_Ret _ _ _ h h) by done.
  pose proof (dlist_first _ _ _ (hv_nodes _ _ Hv)) as Hfirst. unfold nxt in Hfirst.
  destruct (heap_nodes h !! head_node h) as [hd|] eqn:Ehd; [|done].
  injection Hfirst as Hfirst.
  assert (length l <= size (heap_nodes h))%nat as Hfuel.
  { pose proof (dlist_length _ _ _ (hv_nodes _ _ Hv)) as Hlen.
    unfold chunk_nodes in Hlen. by rewrite length_map in Hlen. }
  pose proof (find_chunk_spec h [] l (16 + al) _ Hv Hfuel) as Hfind.
  pose proof (find_fits_avail (16 + al) l) as Hfa.
  destruct (List.find (fits (16 + al)) l) as [[c ch]|] eqn:Ef.
  - destruct (find_Some_split _ _ _ Ef) as (l1 & l2 & -> & Hfit & Hl1).
    unfold fits in Hfit. apply andb_true_iff in Hfit as [Hfit%Z.leb_le Hfree].
    cbn [snd] in Hfit.
    destruct (take_chunk_view h l1 c ch l2 al n Hv Hn Hmod Hfit) as (ns & Hns & Hv').
    exists l1, l2, ns. split_and!; [done..|].
    pose proof (tiles_split _ _ _ _ _ _ (hv_tiles _ _ Hv)) as (Ht1 & _ & _ & _ & Ht2).
    apply tiles_le in Ht1, Ht2. destruct (hv_pool _ _ Hv) as (Hp0 & _ & Hp2).
    rewrite (proj2 (Z.ltb_ge _ _)) by (rewrite Hav; apply Hfa; [by eexists|done]).
    rewrite (bind_Ret _ _ _ hd h) by (by apply deref_Some).
    rewrite Hfirst, (bind_Ret _ _ _ _ _ Hfind). cbn [from_option fst].
    rewrite (proj2 (Z.eqb_neq c 0)) by lia.
    pose proof (hv_chunks _ _ Hv) as Hcs. apply Forall_app in Hcs as [_ [Hc _]%Forall_cons].
    rewrite (bind_Ret _ _ _ ch h) by (by apply deref_Some).
    rewrite !HDR. rewrite (u32_small (c + (16 + al))) by (unfold is_u32; lia).
    rewrite (proj2 (Z.leb_le _ _)) by lia.
    rewrite (u32_small (chunk_size ch - (16 + al))), (u32_small (c + 16)) by (unfold is_u32; lia).
    erewrite bind_Ret;
      [|erewrite bind_Ret by reflexivity; unfold on_nodes; cbn [heap_nodes set_chunks];
        by rewrite Hns].
    pose proof (tiles_free_space _ _ _ (hv_tiles _ _ Hv)).
    pose proof (Hfa ltac:(by eexists) Hsz).
    unfold set_chunk, mret, M_ret, mbind, M_bind, modify. cbn [avail_size set_chunks zero_bytes set_nodes].
    rewrite Hav, u32_small by (unfold is_u32, HEAP_TOTAL_SIZE in *; lia).
    unfold malloc_commit, take_chunk. cbn [avail_size set_chunks zero_bytes set_nodes].
    by rewrite Hav.
  - destruct (avail_size h <? 16 + al); [done|].
    rewrite (bind_Ret _ _ _ hd h) by (by apply deref_Some).
    by rewrite Hfirst, (bind_Ret _ _ _ _ _ Hfind).
Qed.

(** The pool with its lock held and interrupts off. *)
Definition locked (i : nat) (h : heap) : heap := set_machine h (irq_locked i (heap_mach h)).

Lemma heap_irq_section {A} i h (m : M heap A) a h' :
  (heap_mach h).2 !! i = Some LOCK_UNLOCKED → m (locked i h) = Ret a h' →
  heap_mach h' = irq_locked i (heap_mach h) →
  (flags ← zoom (spinlock_lock_irqsave (Some i)); a ← m;
   zoom (spinlock_unlock_irqrestore (Some i) flags);; mret a) h
  = Ret a (set_machine h' (heap_mach h)).
Proof.
  intros Hl Hm Hmach. erewrite bind_Ret by (by apply lock_irqsave_free).
  erewrite bind_Ret by exact Hm.
  erewrite bind_Ret by (by apply (unlock_irqrestore_held i h h')). done.
Qed.

Lemma heap_malloc_open h l n i :
  heap_wf h l → 0 <= n <= HEAP_TOTAL_SIZE → lock_dev h = Some i →
  heap_malloc n h =
  (flags ← zoom (spinlock_lock_irqsave (Some i));
   a ← malloc_locked n (align_up n) (16 + align_up n);
   zoom (spinlock_unlock_irqrestore (Some i) flags);; mret a) h.
Proof.
  intros Hwf Hn Hl. destruct (align_up_spec n Hn) as [Hal _]. unfold HEAP_TOTAL_SIZE in *.
  unfold heap_malloc. rewrite (bind_Ret _ _ _ h h) by done.
  rewrite (hw_init _ _ Hwf), bind_ret.
  rewrite (proj2 (Z.ltb_ge HEAP_TOTAL_SIZE n)) by (unfold HEAP_TOTAL_SIZE; lia).
  rewrite (proj2 (Z.ltb_ge _ n)) by (unfold HEAP_ALIGN; lia).
  rewrite HDR, u32_small by (unfold is_u32; lia). cbv zeta.
  rewrite (bind_Ret _ _ _ h h) by done. by rewrite Hl.
Qed.

Lemma wf_take h l1 c ch l2 al n ns i :
  heap_wf h (l1 ++ (c, ch) :: l2) → is_free (c, ch) = true →
  heap_view (take_chunk c al n (chunk_size ch) ns (locked i h))
    (split_list l1 l2 c al (chunk_size ch)) →
  heap_wf (set_machine (malloc_commit c al n (chunk_size ch) ns (locked i h)) (heap_mach h))
    (split_list l1 l2 c al (chunk_size ch)).
Proof.
  intros [Hv Hi Hl Ha Hc] Hf Hv'. split; [|done|done| |].
  - by destruct Hv'.
  - simpl. rewrite Ha. by rewrite split_free_space.
  - by apply (split_coalesced l1 c ch).
Qed.

Lemma heap_malloc_cases h l n :
  heap_wf h l → is_u32 n →
  (heap_malloc n h = Ret 0 h ∧
   (HEAP_TOTAL_SIZE < n ∨ Forall (λ cc, fits (16 + align_up n) cc = false) l))
  ∨ ∃ l1 c ch l2 h', l = l1 ++ (c, ch) :: l2 ∧ n <= HEAP_TOTAL_SIZE ∧
      fits (16 + align_up n) (c, ch) = true ∧
      Forall (λ cc, fits (16 + align_up n) cc = false) l1 ∧
      heap_malloc n h = Ret (c + 16) h' ∧
      heap_wf h' (split_list l1 l2 c (align_up n) (chunk_size ch)) ∧
      pool h' = pool h ∧
      (∀ a, heap_bytes h' a
            = if (c + 16 <=? a) && (a <? c + 16 + n) then 0 else heap_bytes h a).
Proof.
  intros Hwf Hn. destruct (hw_lock _ _ Hwf) as (i & Hl & Hul). unfold is_u32 in Hn.
  destruct (Z.lt_ge_cases HEAP_TOTAL_SIZE n) as [Hbig|Hsmall].
  { left. split; [|by left]. unfold heap_malloc. rewrite (bind_Ret _ _ _ h h) by done.
    rewrite (hw_init _ _ Hwf), bind_ret. by rewrite (proj2 (Z.ltb_lt _ _) Hbig). }
  destruct (align_up_spec n ltac:(lia)) as [Hal Hmod].
  rewrite (heap_malloc_open h l n i) by (done || lia).
  pose proof (malloc_locked_spec (locked i h) l n (align_up n)
    (heap_view_machine _ _ _ (hw_view _ _ Hwf)) (hw_avail _ _ Hwf) ltac:(lia) Hmod ltac:(lia)) as Hs.
  destruct (List.find (fits (16 + align_up n)) l) as [[c ch]|] eqn:Ef.
  - right. destruct (find_Some_split _ _ _ Ef) as (_ & _ & _ & Hfit & _).
    destruct Hs as (l1 & l2 & ns & -> & Hl1 & Hv & Hret).
    exists l1, c, ch, l2, (set_machine (malloc_commit c (align_up n) n (chunk_size ch) ns
      (locked i h)) (heap_mach h)). split_and!; try done.
    + by apply heap_irq_section.
    + apply wf_take; [done| |done]. by apply andb_true_iff in Hfit as [_ ?].
  - left. split; [|right; by apply find_None_Forall].
    erewrite heap_irq_section by done. by destruct h.
Qed.

(** ** [heap_free] under the invariant *)

(** Two neighbours become one chunk. *)
Definition join (a b : heapchunk) : heapchunk :=
  mk_chunk (chunk_size a + (16 + chunk_size b)) (chunk_used a).

Definition join_state (c : Z) (ch : heapchunk) (ns : node_store) (h : heap) : heap :=
  set_nodes (set_chunks h (<[c := ch]> (chunks h))) ns.

Lemma join_mod a b : a mod 8 = 0 → b mod 8 = 0 → (a + (16 + b)) mod 8 = 0.
Proof.
  intros Ha Hb. replace (a + (16 + b)) with (a + b + 2 * 8) by lia.
  rewrite Z.mod_add, Zplus_mod, Ha, Hb by lia. done.
Qed.

Lemma join_tiles a l1 c ch c2 ch2 l2 e :
  tiles a (l1 ++ (c, ch) :: (c2, ch2) :: l2) e → tiles a (l1 ++ (c, join ch ch2) :: l2) e.
Proof.
  rewrite !tiles_app. intros (m & H1 & H2). exists m. split; [done|]. cbn [tiles] in *.
  destruct H2 as (-> & ? & ? & ? & -> & ? & ? & ? & H2). unfold join.
  cbn [chunk_size chunk_used]. split_and!; try (done || lia); [by apply join_mod|].
  by replace (m + 16 + (chunk_size ch + (16 + chunk_size ch2)))
    with (m + 16 + chunk_size ch + 16 + chunk_size ch2) by lia.
Qed.

Lemma tiles_NoDup a l e : tiles a l e → NoDup (map fst l).
Proof.
  revert a. induction l as [|[c ch] l IH]; intros a; simpl; [constructor|].
  intros (-> & H & _ & _ & Ht). constructor; [|by eapply IH].
  intros ([k kh] & -> & Hk)%list_elem_of_fmap.
  destruct (tiles_elem _ _ _ _ _ Ht Hk) as (? & ? & ?). simpl in *. lia.
Qed.

(** Updating one chunk's header in place. *)
Lemma chunks_update (m : gmap Z heapchunk) l1 c ch ch' l2 :
  NoDup (map fst (l1 ++ (c, ch) :: l2)) →
  Forall (λ cc, m !! cc.1 = Some cc.2) (l1 ++ (c, ch) :: l2) →
  Forall (λ cc, <[c := ch']> m !! cc.1 = Some cc.2) (l1 ++ (c, ch') :: l2).
Proof.
  rewrite map_app. intros (_ & Hd & Hc)%NoDup_app [H1 [_ H2]%Forall_cons]%Forall_app.
  cbn [map fst] in Hd, Hc. apply NoDup_cons in Hc as [Hc _].
  rewrite Forall_forall in H1, H2. apply Forall_app; split; [|apply Forall_cons; split].
  - apply Forall_forall. intros x Hx. rewrite lookup_insert_ne; [by apply H1|].
    intros ->. apply (Hd x.1); [by apply list_elem_of_fmap_2|left].
  - apply lookup_insert_eq.
  - apply Forall_forall. intros x Hx. rewrite lookup_insert_ne; [by apply H2|].
    intros ->. apply Hc. by apply list_elem_of_fmap_2.
Qed.

Lemma join_view h l1 c ch c2 ch2 l2 :
  heap_view h (l1 ++ (c, ch) :: (c2, ch2) :: l2) →
  ∃ ns, list_del (this_node c2) (heap_nodes h) = Some ns ∧
    heap_view (join_state c (join ch ch2) ns h) (l1 ++ (c, join ch ch2) :: l2).
Proof.
  intros Hv. pose proof (tiles_NoDup _ _ _ (hv_tiles _ _ Hv)) as Hnd.
  pose proof (hv_nodes _ _ Hv) as Hd.
  assert (chunk_nodes (l1 ++ (c, ch) :: (c2, ch2) :: l2)
    = (chunk_nodes l1 ++ [this_node c]) ++ this_node c2 :: chunk_nodes l2) as E
    by (by rewrite chunk_nodes_app, <- app_assoc).
  rewrite E in Hd. destruct (list_del_dlist _ _ _ _ _ Hd) as (ns & Hns & Hd' & _).
  exists ns. split; [done|]. split; cbn [join_state set_nodes set_chunks pool head_node chunks heap_nodes].
  - apply Hv.
  - apply Hv.
  - eapply join_tiles. apply Hv.
  - pose proof (chunks_update _ _ _ _ (join ch ch2) _ Hnd (hv_chunks _ _ Hv)) as Hu.
    apply Forall_app in Hu as [Hu1 [Hu2 [_ Hu3]%Forall_cons]%Forall_cons].
    apply Forall_app. split; [done|]. by constructor.
  - rewrite chunk_nodes_app. cbn [chunk_nodes map fst].
    by rewrite <- app_assoc in Hd'.
Qed.

(** A used flag changed in place. *)
Lemma mark_view h l1 c ch l2 :
  heap_view h (l1 ++ (c, ch) :: l2) →
  heap_view (set_chunks h (<[c := mk_chunk (chunk_size ch) 0]> (chunks h)))
    (l1 ++ (c, mk_chunk (chunk_size ch) 0) :: l2).
Proof.
  intros Hv. split; cbn [set_chunks pool head_node chunks heap_nodes]; try apply Hv.
  - pose proof (hv_tiles _ _ Hv) as Ht. rewrite tiles_app in Ht |- *.
    destruct Ht as (m & H1 & H2). exists m. split; [done|]. simpl in *. naive_solver lia.
  - eapply chunks_update; [|apply Hv]. eapply tiles_NoDup, Hv.
  - pose proof (hv_nodes _ _ Hv) as Hd. by rewrite chunk_nodes_app in Hd |- *.
Qed.

Lemma join_state_id c ch h :
  chunks h !! c = Some ch → join_state c ch (heap_nodes h) h = h.
Proof. intros Hc. unfold join_state. rewrite insert_id by done. by destruct h. Qed.

(** The chunk and the rest after "merge with next chunk". *)
Definition absorb_next (ch : heapchunk) (l2 : list (Z * heapchunk)) :=
  match l2 with
  | (c2, ch2) :: l2' => if chunk_used ch2 =? 0 then (join ch ch2, l2') else (ch, l2)
  | [] => (ch, [])
  end.

Lemma view_lookup h l1 c ch l2 : heap_view h (l1 ++ (c, ch) :: l2) → chunks h !! c = Some ch.
Proof. intros [_ _ _ Hc _]. by apply Forall_app in Hc as [_ [Hc _]%Forall_cons]. Qed.

Lemma view_size h l1 c ch l2 :
  heap_view h (l1 ++ (c, ch) :: l2) →
  pool h <= c ∧ 0 <= chunk_size ch ∧ c + 16 + chunk_size ch <= pool h + HEAP_TOTAL_SIZE.
Proof.
  intros Hv. destruct (tiles_split _ _ _ _ _ _ (hv_tiles _ _ Hv)) as (H1 & H2 & _ & _ & H3).
  apply tiles_le in H1, H3. lia.
Qed.

(** The neighbours as [list_next] and [list_prev] see them. *)
Lemma view_next h l1 c ch l2 :
  heap_view h (l1 ++ (c, ch) :: l2) →
  list_next (this_node c) (heap_nodes h) = Some (first_of (chunk_nodes l2) (head_node h)).
Proof.
  intros Hv. pose proof (hv_nodes _ _ Hv) as Hd. rewrite chunk_nodes_app in Hd.
  apply (dlist_next _ _ _ (this_node c) (chunk_nodes l2)) in Hd.
  pose proof (view_size _ _ _ _ _ Hv). destruct (hv_pool _ _ Hv).
  unfold list_next. rewrite (proj2 (Z.eqb_neq _ _)); [done|]. unfold this_node, NODE_OFFSET. lia.
Qed.

Lemma view_prev h l1 c ch l2 :
  heap_view h (l1 ++ (c, ch) :: l2) →
  list_prev (this_node c) (heap_nodes h) = Some (default (head_node h) (last (chunk_nodes l1))).
Proof.
  intros Hv. pose proof (hv_nodes _ _ Hv) as Hd. rewrite chunk_nodes_app in Hd.
  apply (dlist_prev _ _ (chunk_nodes l1) (this_node c) (chunk_nodes l2)) in Hd.
  pose proof (view_size _ _ _ _ _ Hv). destruct (hv_pool _ _ Hv).
  unfold list_prev. rewrite (proj2 (Z.eqb_neq _ _)); [done|]. unfold this_node, NODE_OFFSET. lia.
Qed.

Lemma merge_next_spec h l1 c ch l2 :
  heap_view h (l1 ++ (c, ch) :: l2) →
  let '(ch', l2') := absorb_next ch l2 in
  ∃ ns, merge_next c h = Ret tt (join_state c ch' ns h) ∧
    heap_view (join_state c ch' ns h) (l1 ++ (c, ch') :: l2').
Proof.
  intros Hv. pose proof (view_lookup _ _ _ _ _ Hv) as Hc.
  unfold merge_next. rewrite (bind_Ret _ _ _ h h) by done.
  rewrite (bind_Ret _ _ _ (first_of (chunk_nodes l2) (head_node h)) h)
    by (apply deref_Some; by eapply view_next).
  destruct l2 as [|[c2 ch2] l2]; unfold first_of; cbn [absorb_next chunk_nodes map head hd_error from_option id fst].
  - rewrite Z.eqb_refl. exists (heap_nodes h). by rewrite join_state_id.
  - assert (heap_view h ((l1 ++ [(c, ch)]) ++ (c2, ch2) :: l2)) as Hv2
      by (by rewrite <- app_assoc).
    rewrite (proj2 (Z.eqb_neq (this_node c2) (head_node h)))
      by (eapply (chunk_node_not_head h _ c2 ch2 Hv2); apply elem_of_app; right; left).
    rewrite list_entry_node. cbv zeta.
    rewrite (bind_Ret _ _ _ ch2 h) by (apply deref_Some; by eapply view_lookup).
    destruct (chunk_used ch2 =? 0).
    + rewrite (bind_Ret _ _ _ ch h) by (by apply deref_Some).
      destruct (join_view _ _ _ _ _ _ _ Hv) as (ns & Hns & Hv').
      pose proof (view_size _ _ _ _ _ Hv). pose proof (view_size _ _ _ _ _ Hv2).
      destruct (hv_pool _ _ Hv) as (? & ? & ?). rewrite HDR.
      destruct (view_size _ _ _ _ _ Hv') as (_ & _ & Hend).
      cbn [join_state set_nodes set_chunks pool join chunk_size] in Hend.
      rewrite u32_small by (unfold is_u32, HEAP_TOTAL_SIZE in *; lia).
      exists ns. split; [|done]. erewrite bind_Ret by reflexivity. unfold on_nodes.
      cbn [heap_nodes set_chunks]. by rewrite Hns.
    + exists (heap_nodes h). by rewrite join_state_id.
Qed.

Lemma merge_prev_none h l1 c ch l2 :
  heap_view h (l1 ++ (c, ch) :: l2) →
  (∀ x, last l1 = Some x → is_free x = false) → merge_prev c h = Ret c h.
Proof.
  intros Hv Hlast. unfold merge_prev. rewrite (bind_Ret _ _ _ h h) by done.
  erewrite bind_Ret by (apply deref_Some; by eapply view_prev).
  destruct l1 as [|[cp chp] l1 _] using rev_ind; [by cbn; rewrite Z.eqb_refl|].
  rewrite chunk_nodes_app. change (chunk_nodes [(cp, chp)]) with [this_node cp].
  rewrite last_snoc. cbn [from_option id fst].
  rewrite last_snoc in Hlast. specialize (Hlast _ eq_refl). unfold is_free in Hlast.
  rewrite (proj2 (Z.eqb_neq (this_node cp) (head_node h))).
  - rewrite list_entry_node. cbv zeta. rewrite (bind_Ret _ _ _ chp h).
    + cbn [snd] in Hlast. by rewrite Hlast.
    + apply deref_Some. rewrite <- app_assoc in Hv. by eapply view_lookup.
  - eapply (chunk_node_not_head h _ cp chp Hv). rewrite <- app_assoc.
    apply elem_of_app; right; left.
Qed.

Lemma merge_prev_some h l1 cp chp c ch l2 :
  heap_view h (l1 ++ (cp, chp) :: (c, ch) :: l2) → is_free (cp, chp) = true →
  ∃ ns, merge_prev c h = Ret cp (join_state cp (join chp ch) ns h) ∧
    heap_view (join_state cp (join chp ch) ns h) (l1 ++ (cp, join chp ch) :: l2).
Proof.
  intros Hv Hf. assert (heap_view h ((l1 ++ [(cp, chp)]) ++ (c, ch) :: l2)) as Hv2
    by (by rewrite <- app_assoc).
  unfold merge_prev. rewrite (bind_Ret _ _ _ h h) by done.
  erewrite bind_Ret by (apply deref_Some; by eapply view_prev).
  rewrite chunk_nodes_app. change (chunk_nodes [(cp, chp)]) with [this_node cp].
  rewrite last_snoc. cbn [from_option id fst].
  rewrite (proj2 (Z.eqb_neq (this_node cp) (head_node h)))
    by (eapply (chunk_node_not_head h _ cp chp Hv); apply elem_of_app; right; left).
  rewrite list_entry_node. cbv zeta.
  rewrite (bind_Ret _ _ _ chp h) by (apply deref_Some; by eapply view_lookup).
  unfold is_free in Hf. cbn [snd] in Hf. rewrite Hf.
  rewrite (bind_Ret _ _ _ ch h) by (apply deref_Some; by eapply view_lookup).
  destruct (join_view _ _ _ _ _ _ _ Hv) as (ns & Hns & Hv').
  pose proof (view_size _ _ _ _ _ Hv). pose proof (view_size _ _ _ _ _ Hv2).
  destruct (hv_pool _ _ Hv) as (? & ? & ?). rewrite HDR.
  destruct (view_size _ _ _ _ _ Hv') as (_ & _ & Hend).
  cbn [join_state set_nodes set_chunks pool join chunk_size] in Hend.
  rewrite u32_small by (unfold is_u32, HEAP_TOTAL_SIZE in *; lia).
  exists ns. split; [|done]. erewrite bind_Ret by reflexivity.
  erewrite bind_Ret by (unfold on_nodes; cbn [heap_nodes set_chunks]; by rewrite Hns). done.
Qed.

(** The chunk list after freeing the chunk [(c, ch)] between [l1] and [l2]. *)
Definition free_list (l1 : list (Z * heapchunk)) (c : Z) (ch : heapchunk)
    (l2 : list (Z * heapchunk)) : list (Z * heapchunk) :=
  let '(ch', l2') := absorb_next ch l2 in
  match last l1 with
  | Some (cp, chp) =>
      if chunk_used chp =? 0
      then removelast l1 ++ (cp, mk_chunk (chunk_size (join chp ch')) 0) :: l2'
      else l1 ++ (c, mk_chunk (chunk_size ch') 0) :: l2'
  | None => l1 ++ (c, mk_chunk (chunk_size ch') 0) :: l2'
  end.

Lemma absorb_next_space ch l2 :
  let '(ch', l2') := absorb_next ch l2 in
  chunk_used ch' = chunk_used ch ∧
  chunk_size ch' + free_space l2' = chunk_size ch + free_space l2.
Proof.
  destruct l2 as [|[c2 ch2] l2]; simpl; [done|].
  destruct (chunk_used ch2 =? 0) eqn:E; simpl; unfold is_free; simpl; rewrite E; lia.
Qed.

Lemma absorb_next_coalesced ch l2 :
  coalesced l2 → let '(ch', l2') := absorb_next ch l2 in
  coalesced l2' ∧ ∀ x, head l2' = Some x → is_free x = false.
Proof.
  destruct l2 as [|[c2 ch2] l2]; simpl; [done|].
  destruct (chunk_used ch2 =? 0) eqn:E; simpl.
  - destruct l2 as [|y l2]; [done|]. unfold is_free at 1. simpl. rewrite E.
    intros [H1 H2]. split; [done|]. by intros x [= <-].
  - intros H. split; [done|]. intros x [= <-]. exact E.
Qed.

Lemma snoc_last {A} (l : list A) x : last l = Some x → l = removelast l ++ [x].
Proof.
  destruct l as [|y l _] using rev_ind; [done|]. rewrite last_snoc, removelast_last.
  by intros [= ->].
Qed.

Lemma coalesced_insert_free l1 c sz l2 :
  coalesced l1 → coalesced l2 → (∀ x, last l1 = Some x → is_free x = false) →
  (∀ x, head l2 = Some x → is_free x = false) →
  coalesced (l1 ++ (c, mk_chunk sz 0) :: l2).
Proof.
  intros H1 H2 Hl Hr. apply coalesced_app. split.
  - apply coalesced_snoc. split; [done|]. destruct (last l1) as [y|]; [|done].
    by rewrite (Hl y).
  - destruct l2 as [|x l2]; [done|]. split; [|done]. by rewrite (Hr x), andb_false_r.
Qed.

Lemma coalesced_removelast l x :
  coalesced l → last l = Some x → is_free x = true →
  coalesced (removelast l) ∧ ∀ y, last (removelast l) = Some y → is_free y = false.
Proof.
  intros Hc Hx Hf. rewrite (snoc_last _ _ Hx) in Hc. apply coalesced_snoc in Hc as [Hc Hy].
  split; [done|]. intros y E. rewrite E, Hf, andb_true_r in Hy. done.
Qed.

Lemma free_list_coalesced l1 c ch l2 :
  chunk_used ch ≠ 0 → coalesced (l1 ++ (c, ch) :: l2) → coalesced (free_list l1 c ch l2).
Proof.
  intros Hu [H1 H2]%coalesced_used; [|done]. unfold free_list.
  pose proof (absorb_next_coalesced ch l2 H2) as Ha. destruct (absorb_next ch l2) as [ch' l2'].
  destruct Ha as [Hc' Hh].
  destruct (last l1) as [[cp chp]|] eqn:El.
  - destruct (chunk_used chp =? 0) eqn:E.
    + destruct (coalesced_removelast l1 (cp, chp) H1 El E). by apply coalesced_insert_free.
    + apply coalesced_insert_free; try done. rewrite El. by intros x [= <-].
  - apply coalesced_insert_free; try done. rewrite El. done.
Qed.

Lemma free_list_space l1 c ch l2 :
  chunk_used ch ≠ 0 →
  free_space (free_list l1 c ch l2) = free_space (l1 ++ (c, ch) :: l2) + (16 + chunk_size ch).
Proof.
  intros Hu. unfold free_list. rewrite free_space_app. cbn [free_space].
  replace (is_free (c, ch)) with false by (unfold is_free; simpl; lia).
  pose proof (absorb_next_space ch l2) as Ha. destruct (absorb_next ch l2) as [ch' l2'].
  destruct Ha as [_ Ha].
  destruct (last l1) as [[cp chp]|] eqn:El; [destruct (chunk_used chp =? 0) eqn:E|];
    rewrite free_space_app; cbn [free_space]; unfold is_free; simpl; try lia.
  rewrite (snoc_last _ _ El) at 2. rewrite free_space_app. simpl.
  unfold is_free. simpl. rewrite E. lia.
Qed.

Lemma free_locked_spec h l1 c ch l2 :
  heap_view h (l1 ++ (c, ch) :: l2) → chunk_used ch = 1 →
  avail_size h = free_space (l1 ++ (c, ch) :: l2) →
  ∃ cs ns, free_locked c ch h
    = Ret tt (set_avail (set_nodes (set_chunks h cs) ns) (avail_size h + (16 + chunk_size ch))) ∧
    heap_view (set_nodes (set_chunks h cs) ns) (free_list l1 c ch l2).
Proof.
  intros Hv Hu Hav. unfold free_locked. rewrite Hu, HDR. cbn [Z.eqb].
  pose proof (tiles_free_space _ _ _ (hv_tiles _ _ Hv)) as Hfs.
  pose proof (view_size _ _ _ _ _ Hv) as Hsz. destruct (hv_pool _ _ Hv) as (? & ? & ?).
  set (v := avail_size h + (16 + chunk_size ch)).
  rewrite (bind_Ret _ _ _ tt (set_avail h v))
    by (unfold modify; by rewrite u32_small by (unfold is_u32, HEAP_TOTAL_SIZE in *; lia)).
  assert (heap_view (set_avail h v) (l1 ++ (c, ch) :: l2)) as Hv0 by (by destruct Hv).
  pose proof (merge_next_spec _ _ _ _ _ Hv0) as Hm. unfold free_list.
  destruct (absorb_next ch l2) as [ch' l2']. destruct Hm as (ns & Hm & Hv1).
  rewrite (bind_Ret _ _ _ _ _ Hm). set (h1 := join_state c ch' ns (set_avail h v)) in *.
  assert ((∀ x, last l1 = Some x → is_free x = false) →
    ∃ cs ns, (free_chunk ← merge_prev c; fc ← get_chunk free_chunk;
      set_chunk free_chunk (mk_chunk (chunk_size fc) 0)) h1
      = Ret tt (set_avail (set_nodes (set_chunks h cs) ns) v) ∧
      heap_view (set_nodes (set_chunks h cs) ns) (l1 ++ (c, mk_chunk (chunk_size ch') 0) :: l2'))
    as Hnone.
  { intros Hl. rewrite (bind_Ret _ _ _ _ _ (merge_prev_none _ _ _ _ _ Hv1 Hl)).
    rewrite (bind_Ret _ _ _ ch' h1) by (apply deref_Some; by eapply view_lookup).
    eexists _, ns. split; [reflexivity|]. pose proof (mark_view _ _ _ _ _ Hv1) as Hv2.
    by destruct Hv2. }
  destruct (last l1) as [[cp chp]|] eqn:El; [|by apply Hnone].
  destruct (chunk_used chp =? 0) eqn:E; [|apply Hnone; by intros x [= <-]].
  rewrite (snoc_last _ _ El), <- app_assoc in Hv1. cbn [app] in Hv1.
  destruct (merge_prev_some _ _ _ _ _ _ _ Hv1 E) as (ns2 & Hp & Hv2).
  rewrite (bind_Ret _ _ _ _ _ Hp).
  erewrite bind_Ret by (apply deref_Some; by eapply view_lookup).
  eexists _, ns2. split; [reflexivity|]. pose proof (mark_view _ _ _ _ _ Hv2) as Hv3.
  by destruct Hv3.
Qed.

Lemma heap_free_used h l1 c ch l2 :
  heap_wf h (l1 ++ (c, ch) :: l2) → chunk_used ch = 1 →
  ∃ h', heap_free (c + 16) h = Ret tt h' ∧ heap_wf h' (free_list l1 c ch l2) ∧
    avail_size h' = avail_size h + (16 + chunk_size ch) ∧
    heap_bytes h' = heap_bytes h ∧ pool h' = pool h.
Proof.
  intros Hwf Hu. destruct (hw_lock _ _ Hwf) as (i & Hl & Hul).
  pose proof (hw_view _ _ Hwf) as Hv. pose proof (view_size _ _ _ _ _ Hv) as Hsz.
  destruct (hv_pool _ _ Hv) as (? & ? & ?). unfold HEAP_TOTAL_SIZE in *.
  destruct (free_locked_spec (locked i h) l1 c ch l2 (heap_view_machine _ _ _ Hv) Hu
    (hw_avail _ _ Hwf)) as (cs & ns & Hfree & Hv').
  change (avail_size (locked i h)) with (avail_size h) in Hfree.
  exists (set_machine (set_avail (set_nodes (set_chunks (locked i h) cs) ns)
    (avail_size h + (16 + chunk_size ch))) (heap_mach h)).
  split_and!; try done.
  - unfold heap_free. rewrite (proj2 (Z.eqb_neq _ _)) by lia.
    rewrite (bind_Ret _ _ _ h h), Hl by done.
    erewrite bind_Ret by (by apply lock_irqsave_free). cbv zeta.
    rewrite HDR, u32_small by (unfold is_u32; lia). replace (c + 16 - 16) with c by lia.
    erewrite bind_Ret by (apply deref_Some; exact (view_lookup _ _ _ _ _ Hv)).
    erewrite bind_Ret by exact Hfree.
    exact (unlock_irqrestore_held i h
      (set_avail (set_nodes (set_chunks (locked i h) cs) ns) (avail_size h + (16 + chunk_size ch)))
      Hul eq_refl).
  - split; [by destruct Hv'|by apply Hwf|by exists i| |].
    + simpl. rewrite (hw_avail _ _ Hwf). by rewrite free_list_space by lia.
    + apply free_list_coalesced; [lia|]. apply Hwf.
Qed.

(** The first use of a pool initialises it to one free chunk. *)
Lemma kheap_init_spec h i :
  spinlock_scan 0 (heap_mach h).2 = Some i →
  0 < pool h ∧ pool h mod 8 = 0 ∧ pool h + HEAP_TOTAL_SIZE < 4294967296 →
  0 < head_node h ∧ (head_node h + 8 <= pool h ∨ pool h + HEAP_TOTAL_SIZE <= head_node h) →
  avail_size h = HEAP_TOTAL_SIZE →
  ∃ h', kheap_init h = Ret tt h' ∧ pool h' = pool h ∧
    heap_wf h' [(pool h, mk_chunk (HEAP_TOTAL_SIZE - 16) 0)].
Proof.
  intros Hscan Hp Hh Hav.
  destruct (spinlock_scan_Some _ _ _ Hscan) as (k & -> & Hk & _). rewrite Nat.add_0_l in *.
  set (tab := <[k:=LOCK_UNLOCKED]> (heap_mach h).2).
  set (h1 := set_lock_dev (set_machine h ((heap_mach h).1, tab)) (Some k)).
  assert (tab !! k = Some LOCK_UNLOCKED) as Htab
    by (apply list_lookup_insert_eq; by eapply lookup_lt_Some).
  destruct (list_add_dlist (list_init (head_node h) (heap_nodes h)) (head_node h) [] []
    (head_node h) (this_node (pool h))) as (ns & Hns & Hd & _).
  { apply list_init_dlist. lia. }
  { done. }
  { unfold this_node, NODE_OFFSET. lia. }
  { intros [Heq|Hin]%elem_of_cons; [|by apply elem_of_nil in Hin].
    unfold this_node, NODE_OFFSET, HEAP_TOTAL_SIZE in *. lia. }
  eexists. split; [|split].
  - unfold kheap_init. erewrite bind_Ret; [|apply zoom_Ret; unfold spinlock_alloc;
      cbn [part heap_machine irq_locks]; by rewrite Hscan].
    rewrite (bind_Ret _ _ _ tt h1) by done.
    erewrite bind_Ret by (by apply (lock_irqsave_free k h1)).
    rewrite (bind_Ret _ _ _ _ _ (eq_refl : get _ = Ret _ _)).
    do 3 erewrite bind_Ret by reflexivity.
    erewrite bind_Ret by (unfold on_nodes; cbn [heap_nodes set_nodes set_chunks set_init set_part
      heap_machine set_machine h1 set_lock_dev head_node pool]; by rewrite Hns).
    by apply (unlock_irqrestore_held k h1).
  - done.
  - split; simpl; [split|..]; simpl; try done.
    + split_and!; (done || lia).
    + constructor; [|done]. apply lookup_insert_eq.
    + by exists k.
Qed.

(** ** The pool as an allocator *)

Definition in_use (cc : Z * heapchunk) : bool := negb (is_free cc).
Definition live_ptrs (l : list (Z * heapchunk)) : list Z :=
  map (λ cc, cc.1 + 16) (List.filter in_use l).

Lemma live_ptrs_app l1 l2 : live_ptrs (l1 ++ l2) = live_ptrs l1 ++ live_ptrs l2.
Proof. unfold live_ptrs. by rewrite List.filter_app, map_app. Qed.

Lemma live_elem l p :
  p ∈ live_ptrs l ↔ ∃ c ch, (c, ch) ∈ l ∧ chunk_used ch ≠ 0 ∧ p = c + 16.
Proof.
  unfold live_ptrs. rewrite list_elem_of_fmap. split.
  - intros ([c ch] & -> & Hin). rewrite list_elem_of_In, filter_In, <- list_elem_of_In in Hin.
    destruct Hin as [Hin Hu]. exists c, ch. split_and!; try done.
    unfold in_use, is_free in Hu. simpl in Hu. lia.
  - intros (c & ch & Hin & Hu & ->). exists (c, ch). split; [done|].
    rewrite list_elem_of_In, filter_In, <- list_elem_of_In. split; [done|].
    unfold in_use, is_free. simpl. lia.
Qed.

Lemma live_ptrs_cons cc l :
  live_ptrs (cc :: l) = if is_free cc then live_ptrs l else cc.1 + 16 :: live_ptrs l.
Proof. unfold live_ptrs. cbn [List.filter]. unfold in_use at 1. by destruct (is_free cc). Qed.

(** Splitting adds one pointer; freeing removes one. *)
Lemma split_live l1 c ch l2 al sz :
  is_free (c, ch) = true →
  live_ptrs (split_list l1 l2 c al sz) ≡ₚ (c + 16) :: live_ptrs (l1 ++ (c, ch) :: l2).
Proof.
  intros Hf. unfold split_list. rewrite !live_ptrs_app, !live_ptrs_cons, Hf.
  cbn [is_free snd fst chunk_used Z.eqb]. by rewrite Permutation_middle.
Qed.

Lemma absorb_live ch l2 : live_ptrs (absorb_next ch l2).2 = live_ptrs l2.
Proof.
  destruct l2 as [|[c2 ch2] l2]; [done|]. cbn [absorb_next].
  destruct (chunk_used ch2 =? 0) eqn:E; cbn [snd]; [|done].
  rewrite live_ptrs_cons. unfold is_free. cbn [snd]. by rewrite E.
Qed.

Lemma free_live l1 c ch l2 : live_ptrs (free_list l1 c ch l2) = live_ptrs l1 ++ live_ptrs l2.
Proof.
  unfold free_list. rewrite <- (absorb_live ch l2). destruct (absorb_next ch l2) as [ch' l2'].
  cbn [snd]. assert (∀ l c sz, live_ptrs (l ++ (c, mk_chunk sz 0) :: l2')
    = live_ptrs l ++ live_ptrs l2') as Hadd by (intros; by rewrite live_ptrs_app).
  destruct (last l1) as [[cp chp]|] eqn:El; [|done].
  destruct (chunk_used chp =? 0) eqn:E; [|done].
  rewrite Hadd. rewrite (snoc_last _ _ El) at 2. rewrite live_ptrs_app, live_ptrs_cons.
  unfold is_free. cbn [snd]. by rewrite E, app_nil_r.
Qed.

Lemma live_NoDup a l e : tiles a l e → NoDup (live_ptrs l).
Proof.
  revert a. induction l as [|[c ch] l IH]; intros a; [constructor|].
  intros (-> & H & _ & _ & Ht). rewrite live_ptrs_cons. destruct (is_free _); [by eapply IH|].
  apply NoDup_cons. split; [|by eapply IH]. intros (k & kh & Hk & _ & Heq)%live_elem.
  destruct (tiles_elem _ _ _ _ _ Ht Hk) as (? & ? & ?). simpl in Heq. lia.
Qed.

(** The addresses in use, as [Allocator] sees them. *)
Definition heap_owns (h : heap) (L : gset Z) : Prop :=
  ∃ l, heap_wf h l ∧ L = list_to_set (live_ptrs l).

Lemma heap_malloc_owns h L n :
  heap_owns h L → is_u32 n →
  (∃ h', heap_malloc n h = Ret 0 h' ∧ heap_owns h' L)
  ∨ (∃ p h', heap_malloc n h = Ret p h' ∧ 0 < p < 4294967296 ∧ p ∉ L ∧
       heap_owns h' ({[p]} ∪ L)).
Proof.
  intros (l & Hwf & ->) Hn. destruct (heap_malloc_cases h l n Hwf Hn)
    as [[H _]|(l1 & c & ch & l2 & h' & -> & _ & Hf & _ & H & Hwf' & _)].
  { left. exists h. split; [done|]. by exists l. }
  right. exists (c + 16), h'. pose proof (hw_view _ _ Hwf) as Hv.
  pose proof (view_size _ _ _ _ _ Hv). destruct (hv_pool _ _ Hv) as (? & _ & ?).
  unfold HEAP_TOTAL_SIZE in *. apply andb_true_iff in Hf as [_ Hf].
  pose proof (split_live l1 c ch l2 (align_up n) (chunk_size ch) Hf) as Hlive.
  split_and!; [done|lia|lia| |].
  - rewrite elem_of_list_to_set. pose proof (live_NoDup _ _ _ (hv_tiles _ _ (hw_view _ _ Hwf'))) as Hnd.
    rewrite Hlive in Hnd. by apply NoDup_cons in Hnd as [? _].
  - eexists. split; [done|]. apply set_eq. intros x.
    rewrite elem_of_list_to_set, Hlive, elem_of_cons, elem_of_union, elem_of_singleton,
      elem_of_list_to_set. done.
Qed.

Lemma heap_free_owns h L p :
  heap_owns h L → p ∈ L → ∃ h', heap_free p h = Ret tt h' ∧ heap_owns h' (L ∖ {[p]}).
Proof.
  intros (l & Hwf & ->) Hp. apply elem_of_list_to_set, live_elem in Hp as (c & ch & Hin & Hu & ->).
  apply list_elem_of_split in Hin as (l1 & l2 & ->).
  pose proof (hv_tiles _ _ (hw_view _ _ Hwf)) as Ht.
  destruct (tiles_split _ _ _ _ _ _ Ht) as (_ & _ & _ & Hu' & _).
  destruct (heap_free_used h l1 c ch l2 Hwf ltac:(lia)) as (h' & H & Hwf' & _).
  exists h'. split; [done|]. eexists. split; [done|]. rewrite free_live.
  pose proof (live_NoDup _ _ _ Ht) as Hnd. rewrite live_ptrs_app, live_ptrs_cons in Hnd |- *.
  replace (is_free (c, ch)) with false in * by (unfold is_free; simpl; lia). cbn [fst] in *.
  apply NoDup_app in Hnd as (_ & Hd & [Hc _]%NoDup_cons).
  apply set_eq. intros x. rewrite elem_of_difference, elem_of_singleton, !elem_of_list_to_set,
    !elem_of_app, elem_of_cons. split.
  - tauto.
  - intros [Hx|Hx]; (split; [tauto|]); intros ->; [apply (Hd _ Hx); left|done].
Qed.

#[export] Instance heap_allocator : Allocator heap.
Proof.
  refine {| kmalloc := heap_malloc; kfree := heap_free; owns := heap_owns;
            kmalloc_ok := heap_malloc_owns; kfree_ok := heap_free_owns |}.
  - done.
  - intros h L (l & Hwf & ->) (c & ch & Hin & _ & Heq)%elem_of_list_to_set%live_elem.
    pose proof (hw_view _ _ Hwf) as Hv.
    destruct (tiles_elem _ _ _ _ _ (hv_tiles _ _ Hv) Hin). destruct (hv_pool _ _ Hv). lia.
Defined.

(** A fresh kernel pool: the pool at 1 MB, its head below it. *)
Definition small_heap : heap :=
  match kheap_init (boot_pool 1048576 4096 (mk_cpu 512 false, spinlocks_boot)) with
  | Ret _ h => h
  | _ => boot_pool 1048576 4096 (mk_cpu 512 false, spinlocks_boot)
  end.

Lemma small_heap_wf : heap_wf small_heap [(1048576, mk_chunk (HEAP_TOTAL_SIZE - 16) 0)].
Proof.
  destruct (kheap_init_spec (boot_pool 1048576 4096 (mk_cpu 512 false, spinlocks_boot)) 0)
    as (h' & H & _ & Hwf); [done|split_and!; done|split; [done|left; done]|done|].
  unfold small_heap. by rewrite H.
Qed.

Lemma heap_malloc_boot h h' n :
  pool_init h = false → kheap_init h = Ret tt h' → pool_init h' = true →
  heap_malloc n h = heap_malloc n h'.
Proof.
  intros Hi Hk Hi'. unfold heap_malloc.
  rewrite (bind_Ret _ _ _ h h), Hi, (bind_Ret _ _ _ _ _ Hk) by done.
  by rewrite (bind_Ret _ _ _ h' h'), Hi', bind_ret by done.
Qed.

(** One free chunk covers the chunk that was freed. *)
Lemma free_list_covers l1 c ch l2 :
  0 <= chunk_size ch →
  (∀ cp chp, last l1 = Some (cp, chp) → 0 <= chunk_size chp ∧ cp + 16 + chunk_size chp = c) →
  Forall (λ cc, 0 <= chunk_size cc.2) l2 →
  ∃ c' ch', (c', ch') ∈ free_list l1 c ch l2 ∧ chunk_used ch' = 0 ∧
    c' <= c ∧ c + chunk_size ch <= c' + chunk_size ch'.
Proof.
  intros Hs Hp Hl2. unfold free_list.
  assert (chunk_size ch <= chunk_size (absorb_next ch l2).1) as Ha.
  { destruct Hl2 as [|[c2 ch2] l2 H2 _]; simpl in *; [lia|].
    destruct (chunk_used ch2 =? 0); simpl; lia. }
  destruct (absorb_next ch l2) as [ch' l2']. cbn [fst] in Ha.
  destruct (last l1) as [[cp chp]|] eqn:El; [destruct (chunk_used chp =? 0)|].
  - destruct (Hp _ _ eq_refl). eexists cp, _. split; [apply elem_of_app; right; left|].
    simpl. lia.
  - eexists c, _. split; [apply elem_of_app; right; left|]. simpl. lia.
  - eexists c, _. split; [apply elem_of_app; right; left|]. simpl. lia.
Qed.

(** ** Properties *)

(** C5: on a consistent pool [heap_malloc] returns and is first fit: it returns
    0 and changes nothing when the request exceeds the pool or no free chunk
    holds a header and the rounded size; otherwise the result is 8-aligned,
    lies in the pool, comes from the lowest chunk that fits, is zeroed, is
    disjoint from every chunk in use, all of which stay as they are, and the
    pool is consistent again with the space accounted for. *)
Theorem heap_malloc_first_fit h l n :
  heap_wf h l → is_u32 n →
  (heap_malloc n h = Ret 0 h ∧
   (HEAP_TOTAL_SIZE < n ∨ ∀ cc, cc ∈ l → fits (16 + align_up n) cc = false))
  ∨ ∃ p h' l', heap_malloc n h = Ret p h' ∧ heap_wf h' l' ∧
      p mod 8 = 0 ∧ pool h + 16 <= p ∧ p + align_up n <= pool h + HEAP_TOTAL_SIZE ∧
      n <= align_up n ∧
      (∀ c ch, (c, ch) ∈ l → c < p - 16 → fits (16 + align_up n) (c, ch) = false) ∧
      (∀ a, heap_bytes h' a = if (p <=? a) && (a <? p + n) then 0 else heap_bytes h a) ∧
      (∀ c ch, (c, ch) ∈ l → chunk_used ch ≠ 0 →
         (c, ch) ∈ l' ∧ (c + 16 + chunk_size ch <= p - 16 ∨ p + align_up n <= c)) ∧
      avail_size h' = avail_size h - (16 + align_up n).
Proof.
  intros Hwf Hn. destruct (heap_malloc_cases h l n Hwf Hn)
    as [[H Hno]|(l1 & c & ch & l2 & h' & -> & Hnt & Hf & Hl1 & H & Hwf' & Hpool & Hb)].
  { left. split; [done|]. destruct Hno as [?|Hno]; [by left|right].
    by apply Forall_forall. }
  right. exists (c + 16), h', (split_list l1 l2 c (align_up n) (chunk_size ch)).
  pose proof (hw_view _ _ Hwf) as Hv. pose proof (view_size _ _ _ _ _ Hv) as Hsz.
  destruct (tiles_split _ _ _ _ _ _ (hv_tiles _ _ Hv)) as (Ht1 & _ & Hm & _ & Ht2).
  destruct (hv_pool _ _ Hv) as (_ & Hpm & _).
  apply andb_true_iff in Hf as [Hfit%Z.leb_le Hfree]. cbn [snd] in Hfit.
  pose proof (view_size _ _ _ _ _ (hw_view _ _ Hwf')) as Hsz'. rewrite Hpool in Hsz'.
  assert (0 <= align_up n) by apply Hsz'.
  assert (∀ k kh, (k, kh) ∈ l1 → k + 16 + chunk_size kh <= c) as HL
    by (intros k kh Hk; by destruct (tiles_elem _ _ _ _ _ Ht1 Hk) as (_ & ? & _)).
  assert (∀ k kh, (k, kh) ∈ l2 → c + 16 + chunk_size ch <= k) as HR
    by (intros k kh Hk; by destruct (tiles_elem _ _ _ _ _ Ht2 Hk) as (? & _ & _)).
  unfold is_u32 in Hn. destruct (align_up_spec n ltac:(lia)) as [Hal _].
  split_and!; try done; try lia.
  - replace (c + 16) with (c + 2 * 8) by lia. rewrite Z.mod_add by lia.
    by eapply tiles_aligned.
  - intros k kh Hk Hlt. rewrite Forall_forall in Hl1.
    apply elem_of_app in Hk as [Hk|[Hk|Hk]%elem_of_cons]; [by apply Hl1|simplify_eq; lia|].
    apply HR in Hk. lia.
  - intros k kh Hk Hu. apply elem_of_app in Hk as [Hk|[Hk|Hk]%elem_of_cons].
    + split; [apply elem_of_app; by left|]. apply HL in Hk. lia.
    + simplify_eq. unfold is_free in Hfree. simpl in Hfree. lia.
    + split; [|apply HR in Hk; lia]. apply elem_of_app. right. by do 2 right.
  - rewrite (hw_avail _ _ Hwf), (hw_avail _ _ Hwf'). by apply split_free_space.
Qed.

Lemma heap_malloc_first_fit_witness :
  ∃ h' l', heap_malloc 10 small_heap = Ret 1048592 h' ∧ heap_wf h' l'.
Proof.
  assert (match heap_malloc 10 small_heap with Ret a _ => a | _ => 1 end = 1048592) as E
    by (vm_compute; reflexivity).
  destruct (heap_malloc_first_fit small_heap _ 10 small_heap_wf ltac:(unfold is_u32; lia))
    as [[H _]|(p & h' & l' & H & Hwf & _)]; rewrite H in E; [discriminate E|].
  exists h', l'. rewrite H. cbn in E. rewrite E. split; [reflexivity|exact Hwf].
Defined.

(** C6: freeing a chunk in use returns, gives back exactly its header and
    payload to [avail_size], writes no payload byte, leaves every other
    pointer in use, and merges with both neighbours: in the consistent pool
    that results no two free chunks are adjacent and one free chunk contains
    the freed one. *)
Theorem heap_free_coalesces h l c ch :
  heap_wf h l → (c, ch) ∈ l → chunk_used ch = 1 →
  ∃ h' l', heap_free (c + 16) h = Ret tt h' ∧ heap_wf h' l' ∧
    avail_size h' = avail_size h + (16 + chunk_size ch) ∧
    heap_bytes h' = heap_bytes h ∧
    (∀ p, p ∈ live_ptrs l' ↔ p ∈ live_ptrs l ∧ p ≠ c + 16) ∧
    ∃ c' ch', (c', ch') ∈ l' ∧ chunk_used ch' = 0 ∧
      c' <= c ∧ c + chunk_size ch <= c' + chunk_size ch'.
Proof.
  intros Hwf Hin Hu. apply list_elem_of_split in Hin as (l1 & l2 & ->).
  destruct (heap_free_used h l1 c ch l2 Hwf Hu) as (h' & H & Hwf' & Hav & Hb & _).
  exists h', (free_list l1 c ch l2). pose proof (hv_tiles _ _ (hw_view _ _ Hwf)) as Ht.
  split_and!; try done.
  - intros p. rewrite free_live. pose proof (live_NoDup _ _ _ Ht) as Hnd.
    rewrite live_ptrs_app, live_ptrs_cons in Hnd |- *.
    replace (is_free (c, ch)) with false in * by (unfold is_free; simpl; lia). cbn [fst] in *.
    apply NoDup_app in Hnd as (_ & Hd & [Hc _]%NoDup_cons).
    rewrite !elem_of_app, elem_of_cons. split; [|tauto].
    intros [Hx|Hx]; (split; [tauto|]); intros ->; [apply (Hd _ Hx); left|done].
  - apply free_list_covers; [apply tiles_split in Ht as (_ & ? & _); done| |].
    + intros cp chp El. rewrite (snoc_last _ _ El), <- app_assoc in Ht.
      apply tiles_split in Ht as (_ & Hs & _ & _ & Ht). simpl in Ht. destruct Ht as (-> & _). lia.
    + apply Forall_forall. intros [k kh] Hk.
      by destruct (tiles_elem _ _ _ k kh Ht) as (_ & _ & ?);
        [apply elem_of_app; right; right|].
Qed.

Lemma heap_free_coalesces_witness :
  ∃ h1 h2 l2, heap_malloc 10 small_heap = Ret 1048592 h1 ∧
    heap_free (1048576 + 16) h1 = Ret tt h2 ∧ heap_wf h2 l2.
Proof.
  destruct (heap_malloc_cases small_heap _ 10 small_heap_wf ltac:(unfold is_u32; lia))
    as [[H _]|(l1 & c & ch & l2 & h' & El & _ & _ & _ & H & Hwf & _)].
  { assert (match heap_malloc 10 small_heap with Ret a _ => a | _ => 1 end = 1048592) as E
      by (vm_compute; reflexivity). rewrite H in E. discriminate E. }
  assert (l1 = [] ∧ c = 1048576) as [-> ->].
  { destruct l1 as [|? l1]; [|destruct l1; discriminate El]. injection El as <- <- <-. split; reflexivity. }
  destruct (heap_free_coalesces h' _ 1048576 (mk_chunk (align_up 10) 1) Hwf
    ltac:(left) eq_refl) as (h2 & l' & Hf & Hwf2 & _).
  exists h', h2, l'. split_and!; [exact H|exact Hf|exact Hwf2].
Defined.

(** [heap_free] undoes [heap_malloc]: freeing what was just allocated
    leaves exactly the chunks there were before, and the same
    [avail_size], whatever the pool looked like. *)
Theorem heap_malloc_free_roundtrip h l n p h' :
  heap_wf h l → is_u32 n → heap_malloc n h = Ret p h' → p ≠ 0 →
  ∃ h'', heap_free p h' = Ret tt h'' ∧ heap_wf h'' l ∧ avail_size h'' = avail_size h.
Proof.
  intros Hwf Hn Hm Hp. destruct (heap_malloc_cases h l n Hwf Hn)
    as [[H _]|(l1 & c & ch & l2 & h1 & -> & _ & Hf & _ & H & Hwf' & _)]; [congruence|].
  rewrite Hm in H. injection H as -> ->.
  destruct (heap_free_used h1 l1 c (mk_chunk (align_up n) 1) _ Hwf' eq_refl)
    as (h'' & Hfr & Hwf'' & _).
  apply andb_true_iff in Hf as [_ Hf].
  assert (free_list l1 c (mk_chunk (align_up n) 1)
    ((c + (16 + align_up n), mk_chunk (chunk_size ch - (16 + align_up n)) 0) :: l2)
    = l1 ++ (c, ch) :: l2) as E.
  { pose proof (hw_coalesced _ _ Hwf) as Hc. apply coalesced_app in Hc as [Hc _].
    apply coalesced_snoc in Hc as [_ Hc].
    unfold free_list. cbn [absorb_next chunk_used Z.eqb].
    assert (mk_chunk (chunk_size (join (mk_chunk (align_up n) 1)
      (mk_chunk (chunk_size ch - (16 + align_up n)) 0))) 0 = ch) as ->.
    { unfold is_free in Hf. destruct ch as [sz u]; simpl in *. f_equal; lia. }
    destruct (last l1) as [[cp chp]|]; [|done]. rewrite Hf, andb_true_r in Hc.
    unfold is_free in Hc. cbn [snd] in Hc. by rewrite Hc. }
  rewrite E in Hwf''. exists h''. split_and!; try done.
  by rewrite (hw_avail _ _ Hwf), (hw_avail _ _ Hwf'').
Qed.

Lemma heap_malloc_free_roundtrip_witness :
  match heap_malloc 10 small_heap with
  | Ret p h' => p = 1048592 ∧ ∃ h'', heap_free p h' = Ret tt h'' ∧
                  heap_wf h'' [(1048576, mk_chunk (HEAP_TOTAL_SIZE - 16) 0)]
  | _ => False
  end.
Proof.
  assert (match heap_malloc 10 small_heap with Ret a _ => a | _ => 1 end = 1048592) as E
    by (vm_compute; reflexivity).
  destruct (heap_malloc 10 small_heap) as [p h'| |] eqn:H; [|discriminate E..]. cbn in E.
  split; [exact E|].
  destruct (heap_malloc_free_roundtrip small_heap _ 10 p h' small_heap_wf)
    as (h'' & Hf & Hwf & _); [unfold is_u32; lia|exact H|lia|].
  exists h''. split; [exact Hf|exact Hwf].
Defined.

(** Two chunks [a] and [b] allocated in a row, [a] freed, then [b], which
    merges backwards into [a] and leaves its old header marked used. *)
Definition double_free : M heap unit :=
  a ← heap_malloc 10; b ← heap_malloc 20; heap_free a;; heap_free b;; heap_free b.

(** The test of the used flag does not stop every double free: a chunk
    that was merged into its left neighbour still reads as used, and freeing
    it again makes [avail_size] larger than the pool. *)
Theorem heap_double_free_overcounts :
  match double_free small_heap with
  | Ret _ h => HEAP_TOTAL_SIZE < avail_size h
  | _ => False
  end.
Proof. vm_compute. reflexivity. Qed.
