(* ===== verification/KState.v ===== *)
(** * The kernel's objects and statics

    The records of include/kernel/process.h, sync/wait_queue.h,
    sync/semaphore.h, ipc/mailbox.h and kernel/irq.h, and one state that holds
    every static variable and every live object of the C files above the
    memory managers.  Objects live at the address their [kmalloc] returned;
    an intrusive list head is the list of the objects linked on it
    (DList.v justifies this), newest first because [list_add] inserts at the
    head.  The state is generic in the kernel heap [A], the user heap [U]
    (both through the [Allocator] interface) and the address spaces [W]. *)

From S2P Require Import Prelude Spinlock Allocator.
From stdpp Require Import base tactics list gmap.
From Stdlib Require Import ZArith Lia.

Open Scope Z_scope.

(** ** include/kernel/process.h *)

Inductive thread_state := TS_NULL | TS_READY | TS_PENDING.
Inductive proc_priv := PROC_PRIV_KERNEL | PROC_PRIV_USER.
Inductive proc_state := PS_NULL | PS_READY | PS_PENDING | PS_ZOMBIE.

#[export] Instance thread_state_eq_dec : EqDecision thread_state.
Proof. solve_decision. Defined.
#[export] Instance proc_priv_eq_dec : EqDecision proc_priv.
Proof. solve_decision. Defined.

(** [arch_task_context] (arch_task.h) with the initial register frame it
    points to. *)
Record regs := mk_regs {
  r_gs : Z; r_fs : Z; r_es : Z; r_ds : Z; r_eip : Z; r_cs : Z; r_eflags : Z; r_esp : Z; r_ss : Z }.

Record arch_task_context := mk_context {
  ctx_regs : Z;
  ctx_ldts : list Z;
  ctx_stack : Z;
  ctx_ring : Z;
  ctx_frame : option regs;
}.

Record tcb := mk_tcb {
  t_context : arch_task_context;
  t_entry : Z;
  t_tid : Z;
  t_state : thread_state;
  t_wake_pending : bool;
  t_sp_lock : option nat;
  t_parent : Z;
  t_param : Z;
  t_irqs : list Z;
  t_mailbox : Z;
  t_waiting_on : Z;
}.

(** ** include/kernel/capability.h *)

Inductive cap_type :=
  | CAP_OWN_IRQ | CAP_MAP_MEM | CAP_ACCESS_IO | CAP_IPC
  | CAP_CREATE_KRNL_PROC | CAP_CREATE_KRNL_THREAD.

#[export] Instance cap_type_eq_dec : EqDecision cap_type.
Proof. solve_decision. Defined.

Record cap_mem := mk_cap_mem { mem_base : Z; mem_size : Z; mem_flags : Z }.
Record cap_io_port := mk_cap_io_port { io_base : Z; io_count : Z }.

(** The union member each type selects. *)
Definition cap_member (ty : cap_type) : Type :=
  match ty with
  | CAP_OWN_IRQ => Z
  | CAP_MAP_MEM => cap_mem
  | CAP_ACCESS_IO => cap_io_port
  | CAP_IPC | CAP_CREATE_KRNL_PROC | CAP_CREATE_KRNL_THREAD => Z
  end.

Record capability := mk_cap { cap_ty : cap_type; cap_val : cap_member cap_ty }.

Record pcb := mk_pcb {
  p_pid : Z;
  p_state : proc_state;
  p_priv : proc_priv;
  p_tcbs : list Z;
  p_param : Z;
  p_sp_lock : option nat;
  p_caps : list (Z * capability);   (* address and contents *)
  p_cap_lock : option nat;
}.

(** ** include/sync/wait_queue.h, semaphore.h *)

Record wait_queue := mk_wq { wq_waiters : list Z; wq_lock : option nat }.
Record semaphore := mk_sem { sem_id : Z; sem_value : Z }.

(** ** include/ipc/mailbox.h *)

Record mail := mk_mail {
  m_magic : Z; m_sender : Z; m_receiver : Z; m_data : list Z; m_size : Z }.
Record mailmeta := mk_meta {
  mm_id : Z; mm_ref : Z; mm_payload : Z; mm_lock : option nat }.
Record mailbox := mk_mailbox {
  mb_owner_pid : Z;
  mb_owner_tid : Z;
  mb_subscriptions : list Z;
  mb_lock : option nat;
  mb_mails : list Z;               (* metas *)
  mb_handlers : list (Z * Z);      (* address and function *)
}.

(** ** include/kernel/irq.h *)

Record irq := mk_irq {
  i_name : Z; i_context : Z; i_major : Z; i_minor : Z; i_enabled : bool; i_is_user : bool;
  i_tid : Z; i_owner : Z; i_lock : option nat; i_handler : Z }.
Record irqline := mk_irqline {
  l_major : Z; l_enabled : bool; l_lock : option nat; l_irqs : list Z }.

(** ** What the rest of the kernel expects of the address-space code
      (include/mm/vmm.h, mm/pmm.h): the [vmm_control_block] of a process is
      addressed by the process.  [vmm_map_region] is [vmm_map_fixed] after its
      argument and capability checks; the [vm_] operations are the frames of
      the physical allocator and accesses through the identity map or, for
      [vm_copy_from_user], through the loaded page directory. *)
Class AddressSpace (W : Type) := {
  vm_ok : W → Prop;
  (** the process has an address space; an address where its thread stacks lie *)
  vm_has : W → Z → Prop;
  vm_stack : W → Z → Z → Prop;
  (** the process whose page directory is loaded, 0 the kernel's *)
  vm_current : W → Z;
  (** the same memory in use and the same translations *)
  vm_same : W → W → Prop;
  vmm_create : Z → bool → M W Z;
  vmm_destroy : Z → M W unit;
  vmm_switch : Z → M W unit;
  vmm_alloc_pages : Z → Z → Z → M W Z;
  vmm_free_pages : Z → Z → M W unit;
  vmm_vcb_va_to_pa : Z → Z → M W Z;
  vmm_map_region : Z → Z → Z → Z → Z → bool → M W Z;
  vm_frames_alloc : Z → M W Z;
  vm_frames_free : Z → Z → M W unit;
  vm_store : Z → list Z → M W unit;
  vm_load : Z → Z → M W (list Z);
  vm_copy_from_user : Z → Z → M W (option (list Z));
  vmm_switch_ok : ∀ w v, vm_ok w → vm_has w v →
    ∃ w', vmm_switch v w = Ret tt w' ∧ vm_ok w' ∧ vm_current w' = v ∧ (∀ u, vm_has w u → vm_has w' u);
  vm_same_refl : ∀ w, vm_ok w → vm_same w w;
  (** the stack of a thread: a user page (PTE_USER_PAGE = 7) allocated,
      translated and freed without switching address spaces; freed right
      after, it leaves nothing behind *)
  vmm_alloc_ok : ∀ w v, vm_ok w → vm_has w v →
    ∃ r w', vmm_alloc_pages v 1 7 w = Ret r w' ∧ vm_ok w' ∧ vm_current w' = vm_current w ∧
      (∀ u, vm_has w u → vm_has w' u) ∧ (r = 0 → vm_same w w') ∧
      (r ≠ 0 → vm_stack w' v r ∧ ∃ w2, vmm_free_pages v r w' = Ret tt w2 ∧ vm_same w w2);
  vmm_free_ok : ∀ w v a, vm_ok w → vm_stack w v a →
    ∃ w', vmm_free_pages v a w = Ret tt w' ∧ vm_ok w' ∧ vm_current w' = vm_current w ∧
      (∀ u, vm_has w u → vm_has w' u);
  vmm_translate_ok : ∀ w v a, vm_ok w → vm_stack w v a → ∃ r, vmm_vcb_va_to_pa v a w = Ret r w;
}.

(** ** The state *)

Section kernel.
Context {A U W : Type}.

Record kernel := mk_kernel {
  k_mach : cpu * lock_table;
  k_heap : A;
  k_uheap : U;
  k_vm : W;
  thread_head : list Z;
  tcbs : gmap Z tcb;
  proc_head : list Z;
  pcbs : gmap Z pcb;
  thread_run : Z;
  ctx_vcb : Z;
  ctx_task : Z;
  schedule_lock : option nat;
  next_tid : Z;
  next_pid : Z;
  timeslice : Z;
  curr_task_ctx : Z;
  tss_esp0 : Z;
  irq_reenter_cnt : Z;
  wqs : gmap Z wait_queue;
  sems : gmap Z semaphore;
  semaphore_head : list Z;
  next_sem_id : Z;
  semaphore_lock : option nat;
  mailboxes : gmap Z mailbox;
  mailmetas : gmap Z mailmeta;
  mails : gmap Z mail;
  inflight_mails : list Z;
  next_mail_id : Z;
  irqs : gmap Z irq;
  irqline_objs : gmap Z irqline;
  irqlines : list Z;
  pic_master : Z;
  pic_slave : Z;
  proc_scall_handle : Z;
  mailbox_scall_handle : Z;
  irq_scall_handle : Z;
}.

Definition set_k_mach (v : cpu * lock_table) (k : kernel) : kernel :=
    mk_kernel v (k_heap k) (k_uheap k) (k_vm k) (thread_head k) (tcbs k) (proc_head k) (pcbs
    k) (thread_run k) (ctx_vcb k) (ctx_task k) (schedule_lock k) (next_tid k) (next_pid k)
    (timeslice k) (curr_task_ctx k) (tss_esp0 k) (irq_reenter_cnt k) (wqs k) (sems k)
    (semaphore_head k) (next_sem_id k) (semaphore_lock k) (mailboxes k) (mailmetas k) (mails
    k) (inflight_mails k) (next_mail_id k) (irqs k) (irqline_objs k) (irqlines k)
    (pic_master k) (pic_slave k) (proc_scall_handle k) (mailbox_scall_handle k)
    (irq_scall_handle k).
Definition set_k_heap (v : A) (k : kernel) : kernel :=
    mk_kernel (k_mach k) v (k_uheap k) (k_vm k) (thread_head k) (tcbs k) (proc_head k) (pcbs
    k) (thread_run k) (ctx_vcb k) (ctx_task k) (schedule_lock k) (next_tid k) (next_pid k)
    (timeslice k) (curr_task_ctx k) (tss_esp0 k) (irq_reenter_cnt k) (wqs k) (sems k)
    (semaphore_head k) (next_sem_id k) (semaphore_lock k) (mailboxes k) (mailmetas k) (mails
    k) (inflight_mails k) (next_mail_id k) (irqs k) (irqline_objs k) (irqlines k)
    (pic_master k) (pic_slave k) (proc_scall_handle k) (mailbox_scall_handle k)
    (irq_scall_handle k).
Definition set_k_uheap (v : U) (k : kernel) : kernel :=
    mk_kernel (k_mach k) (k_heap k) v (k_vm k) (thread_head k) (tcbs k) (proc_head k) (pcbs
    k) (thread_run k) (ctx_vcb k) (ctx_task k) (schedule_lock k) (next_tid k) (next_pid k)
    (timeslice k) (curr_task_ctx k) (tss_esp0 k) (irq_reenter_cnt k) (wqs k) (sems k)
    (semaphore_head k) (next_sem_id k) (semaphore_lock k) (mailboxes k) (mailmetas k) (mails
    k) (inflight_mails k) (next_mail_id k) (irqs k) (irqline_objs k) (irqlines k)
    (pic_master k) (pic_slave k) (proc_scall_handle k) (mailbox_scall_handle k)
    (irq_scall_handle k).
Definition set_k_vm (v : W) (k : kernel) : kernel :=
    mk_kernel (k_mach k) (k_heap k) (k_uheap k) v (thread_head k) (tcbs k) (proc_head k)
    (pcbs k) (thread_run k) (ctx_vcb k) (ctx_task k) (schedule_lock k) (next_tid k)
    (next_pid k) (timeslice k) (curr_task_ctx k) (tss_esp0 k) (irq_reenter_cnt k) (wqs k)
    (sems k) (semaphore_head k) (next_sem_id k) (semaphore_lock k) (mailboxes k) (mailmetas
    k) (mails k) (inflight_mails k) (next_mail_id k) (irqs k) (irqline_objs k) (irqlines k)
    (pic_master k) (pic_slave k) (proc_scall_handle k) (mailbox_scall_handle k)
    (irq_scall_handle k).
Definition set_thread_head (v : list Z) (k : kernel) : kernel :=
    mk_kernel (k_mach k) (k_heap k) (k_uheap k) (k_vm k) v (tcbs k) (proc_head k) (pcbs k)
    (thread_run k) (ctx_vcb k) (ctx_task k) (schedule_lock k) (next_tid k) (next_pid k)
    (timeslice k) (curr_task_ctx k) (tss_esp0 k) (irq_reenter_cnt k) (wqs k) (sems k)
    (semaphore_head k) (next_sem_id k) (semaphore_lock k) (mailboxes k) (mailmetas k) (mails
    k) (inflight_mails k) (next_mail_id k) (irqs k) (irqline_objs k) (irqlines k)
    (pic_master k) (pic_slave k) (proc_scall_handle k) (mailbox_scall_handle k)
    (irq_scall_handle k).
Definition set_tcbs (v : gmap Z tcb) (k : kernel) : kernel :=
    mk_kernel (k_mach k) (k_heap k) (k_uheap k) (k_vm k) (thread_head k) v (proc_head k)
    (pcbs k) (thread_run k) (ctx_vcb k) (ctx_task k) (schedule_lock k) (next_tid k)
    (next_pid k) (timeslice k) (curr_task_ctx k) (tss_esp0 k) (irq_reenter_cnt k) (wqs k)
    (sems k) (semaphore_head k) (next_sem_id k) (semaphore_lock k) (mailboxes k) (mailmetas
    k) (mails k) (inflight_mails k) (next_mail_id k) (irqs k) (irqline_objs k) (irqlines k)
    (pic_master k) (pic_slave k) (proc_scall_handle k) (mailbox_scall_handle k)
    (irq_scall_handle k).
Definition set_proc_head (v : list Z) (k : kernel) : kernel :=
    mk_kernel (k_mach k) (k_heap k) (k_uheap k) (k_vm k) (thread_head k) (tcbs k) v (pcbs k)
    (thread_run k) (ctx_vcb k) (ctx_task k) (schedule_lock k) (next_tid k) (next_pid k)
    (timeslice k) (curr_task_ctx k) (tss_esp0 k) (irq_reenter_cnt k) (wqs k) (sems k)
    (semaphore_head k) (next_sem_id k) (semaphore_lock k) (mailboxes k) (mailmetas k) (mails
    k) (inflight_mails k) (next_mail_id k) (irqs k) (irqline_objs k) (irqlines k)
    (pic_master k) (pic_slave k) (proc_scall_handle k) (mailbox_scall_handle k)
    (irq_scall_handle k).
Definition set_pcbs (v : gmap Z pcb) (k : kernel) : kernel :=
    mk_kernel (k_mach k) (k_heap k) (k_uheap k) (k_vm k) (thread_head k) (tcbs k) (proc_head
    k) v (thread_run k) (ctx_vcb k) (ctx_task k) (schedule_lock k) (next_tid k) (next_pid k)
    (timeslice k) (curr_task_ctx k) (tss_esp0 k) (irq_reenter_cnt k) (wqs k) (sems k)
    (semaphore_head k) (next_sem_id k) (semaphore_lock k) (mailboxes k) (mailmetas k) (mails
    k) (inflight_mails k) (next_mail_id k) (irqs k) (irqline_objs k) (irqlines k)
    (pic_master k) (pic_slave k) (proc_scall_handle k) (mailbox_scall_handle k)
    (irq_scall_handle k).
Definition set_thread_run (v : Z) (k : kernel) : kernel :=
    mk_kernel (k_mach k) (k_heap k) (k_uheap k) (k_vm k) (thread_head k) (tcbs k) (proc_head
    k) (pcbs k) v (ctx_vcb k) (ctx_task k) (schedule_lock k) (next_tid k) (next_pid k)
    (timeslice k) (curr_task_ctx k) (tss_esp0 k) (irq_reenter_cnt k) (wqs k) (sems k)
    (semaphore_head k) (next_sem_id k) (semaphore_lock k) (mailboxes k) (mailmetas k) (mails
    k) (inflight_mails k) (next_mail_id k) (irqs k) (irqline_objs k) (irqlines k)
    (pic_master k) (pic_slave k) (proc_scall_handle k) (mailbox_scall_handle k)
    (irq_scall_handle k).
Definition set_ctx_vcb (v : Z) (k : kernel) : kernel :=
    mk_kernel (k_mach k) (k_heap k) (k_uheap k) (k_vm k) (thread_head k) (tcbs k) (proc_head
    k) (pcbs k) (thread_run k) v (ctx_task k) (schedule_lock k) (next_tid k) (next_pid k)
    (timeslice k) (curr_task_ctx k) (tss_esp0 k) (irq_reenter_cnt k) (wqs k) (sems k)
    (semaphore_head k) (next_sem_id k) (semaphore_lock k) (mailboxes k) (mailmetas k) (mails
    k) (inflight_mails k) (next_mail_id k) (irqs k) (irqline_objs k) (irqlines k)
    (pic_master k) (pic_slave k) (proc_scall_handle k) (mailbox_scall_handle k)
    (irq_scall_handle k).
Definition set_ctx_task (v : Z) (k : kernel) : kernel :=
    mk_kernel (k_mach k) (k_heap k) (k_uheap k) (k_vm k) (thread_head k) (tcbs k) (proc_head
    k) (pcbs k) (thread_run k) (ctx_vcb k) v (schedule_lock k) (next_tid k) (next_pid k)
    (timeslice k) (curr_task_ctx k) (tss_esp0 k) (irq_reenter_cnt k) (wqs k) (sems k)
    (semaphore_head k) (next_sem_id k) (semaphore_lock k) (mailboxes k) (mailmetas k) (mails
    k) (inflight_mails k) (next_mail_id k) (irqs k) (irqline_objs k) (irqlines k)
    (pic_master k) (pic_slave k) (proc_scall_handle k) (mailbox_scall_handle k)
    (irq_scall_handle k).
Definition set_schedule_lock (v : option nat) (k : kernel) : kernel :=
    mk_kernel (k_mach k) (k_heap k) (k_uheap k) (k_vm k) (thread_head k) (tcbs k) (proc_head
    k) (pcbs k) (thread_run k) (ctx_vcb k) (ctx_task k) v (next_tid k) (next_pid k)
    (timeslice k) (curr_task_ctx k) (tss_esp0 k) (irq_reenter_cnt k) (wqs k) (sems k)
    (semaphore_head k) (next_sem_id k) (semaphore_lock k) (mailboxes k) (mailmetas k) (mails
    k) (inflight_mails k) (next_mail_id k) (irqs k) (irqline_objs k) (irqlines k)
    (pic_master k) (pic_slave k) (proc_scall_handle k) (mailbox_scall_handle k)
    (irq_scall_handle k).
Definition set_next_tid (v : Z) (k : kernel) : kernel :=
    mk_kernel (k_mach k) (k_heap k) (k_uheap k) (k_vm k) (thread_head k) (tcbs k) (proc_head
    k) (pcbs k) (thread_run k) (ctx_vcb k) (ctx_task k) (schedule_lock k) v (next_pid k)
    (timeslice k) (curr_task_ctx k) (tss_esp0 k) (irq_reenter_cnt k) (wqs k) (sems k)
    (semaphore_head k) (next_sem_id k) (semaphore_lock k) (mailboxes k) (mailmetas k) (mails
    k) (inflight_mails k) (next_mail_id k) (irqs k) (irqline_objs k) (irqlines k)
    (pic_master k) (pic_slave k) (proc_scall_handle k) (mailbox_scall_handle k)
    (irq_scall_handle k).
Definition set_next_pid (v : Z) (k : kernel) : kernel :=
    mk_kernel (k_mach k) (k_heap k) (k_uheap k) (k_vm k) (thread_head k) (tcbs k) (proc_head
    k) (pcbs k) (thread_run k) (ctx_vcb k) (ctx_task k) (schedule_lock k) (next_tid k) v
    (timeslice k) (curr_task_ctx k) (tss_esp0 k) (irq_reenter_cnt k) (wqs k) (sems k)
    (semaphore_head k) (next_sem_id k) (semaphore_lock k) (mailboxes k) (mailmetas k) (mails
    k) (inflight_mails k) (next_mail_id k) (irqs k) (irqline_objs k) (irqlines k)
    (pic_master k) (pic_slave k) (proc_scall_handle k) (mailbox_scall_handle k)
    (irq_scall_handle k).
Definition set_timeslice (v : Z) (k : kernel) : kernel :=
    mk_kernel (k_mach k) (k_heap k) (k_uheap k) (k_vm k) (thread_head k) (tcbs k) (proc_head
    k) (pcbs k) (thread_run k) (ctx_vcb k) (ctx_task k) (schedule_lock k) (next_tid k)
    (next_pid k) v (curr_task_ctx k) (tss_esp0 k) (irq_reenter_cnt k) (wqs k) (sems k)
    (semaphore_head k) (next_sem_id k) (semaphore_lock k) (mailboxes k) (mailmetas k) (mails
    k) (inflight_mails k) (next_mail_id k) (irqs k) (irqline_objs k) (irqlines k)
    (pic_master k) (pic_slave k) (proc_scall_handle k) (mailbox_scall_handle k)
    (irq_scall_handle k).
Definition set_curr_task_ctx (v : Z) (k : kernel) : kernel :=
    mk_kernel (k_mach k) (k_heap k) (k_uheap k) (k_vm k) (thread_head k) (tcbs k) (proc_head
    k) (pcbs k) (thread_run k) (ctx_vcb k) (ctx_task k) (schedule_lock k) (next_tid k)
    (next_pid k) (timeslice k) v (tss_esp0 k) (irq_reenter_cnt k) (wqs k) (sems k)
    (semaphore_head k) (next_sem_id k) (semaphore_lock k) (mailboxes k) (mailmetas k) (mails
    k) (inflight_mails k) (next_mail_id k) (irqs k) (irqline_objs k) (irqlines k)
    (pic_master k) (pic_slave k) (proc_scall_handle k) (mailbox_scall_handle k)
    (irq_scall_handle k).
Definition set_tss_esp0 (v : Z) (k : kernel) : kernel :=
    mk_kernel (k_mach k) (k_heap k) (k_uheap k) (k_vm k) (thread_head k) (tcbs k) (proc_head
    k) (pcbs k) (thread_run k) (ctx_vcb k) (ctx_task k) (schedule_lock k) (next_tid k)
    (next_pid k) (timeslice k) (curr_task_ctx k) v (irq_reenter_cnt k) (wqs k) (sems k)
    (semaphore_head k) (next_sem_id k) (semaphore_lock k) (mailboxes k) (mailmetas k) (mails
    k) (inflight_mails k) (next_mail_id k) (irqs k) (irqline_objs k) (irqlines k)
    (pic_master k) (pic_slave k) (proc_scall_handle k) (mailbox_scall_handle k)
    (irq_scall_handle k).
Definition set_irq_reenter_cnt (v : Z) (k : kernel) : kernel :=
    mk_kernel (k_mach k) (k_heap k) (k_uheap k) (k_vm k) (thread_head k) (tcbs k) (proc_head
    k) (pcbs k) (thread_run k) (ctx_vcb k) (ctx_task k) (schedule_lock k) (next_tid k)
    (next_pid k) (timeslice k) (curr_task_ctx k) (tss_esp0 k) v (wqs k) (sems k)
    (semaphore_head k) (next_sem_id k) (semaphore_lock k) (mailboxes k) (mailmetas k) (mails
    k) (inflight_mails k) (next_mail_id k) (irqs k) (irqline_objs k) (irqlines k)
    (pic_master k) (pic_slave k) (proc_scall_handle k) (mailbox_scall_handle k)
    (irq_scall_handle k).
Definition set_wqs (v : gmap Z wait_queue) (k : kernel) : kernel :=
    mk_kernel (k_mach k) (k_heap k) (k_uheap k) (k_vm k) (thread_head k) (tcbs k) (proc_head
    k) (pcbs k) (thread_run k) (ctx_vcb k) (ctx_task k) (schedule_lock k) (next_tid k)
    (next_pid k) (timeslice k) (curr_task_ctx k) (tss_esp0 k) (irq_reenter_cnt k) v (sems k)
    (semaphore_head k) (next_sem_id k) (semaphore_lock k) (mailboxes k) (mailmetas k) (mails
    k) (inflight_mails k) (next_mail_id k) (irqs k) (irqline_objs k) (irqlines k)
    (pic_master k) (pic_slave k) (proc_scall_handle k) (mailbox_scall_handle k)
    (irq_scall_handle k).
Definition set_sems (v : gmap Z semaphore) (k : kernel) : kernel :=
    mk_kernel (k_mach k) (k_heap k) (k_uheap k) (k_vm k) (thread_head k) (tcbs k) (proc_head
    k) (pcbs k) (thread_run k) (ctx_vcb k) (ctx_task k) (schedule_lock k) (next_tid k)
    (next_pid k) (timeslice k) (curr_task_ctx k) (tss_esp0 k) (irq_reenter_cnt k) (wqs k) v
    (semaphore_head k) (next_sem_id k) (semaphore_lock k) (mailboxes k) (mailmetas k) (mails
    k) (inflight_mails k) (next_mail_id k) (irqs k) (irqline_objs k) (irqlines k)
    (pic_master k) (pic_slave k) (proc_scall_handle k) (mailbox_scall_handle k)
    (irq_scall_handle k).
Definition set_semaphore_head (v : list Z) (k : kernel) : kernel :=
    mk_kernel (k_mach k) (k_heap k) (k_uheap k) (k_vm k) (thread_head k) (tcbs k) (proc_head
    k) (pcbs k) (thread_run k) (ctx_vcb k) (ctx_task k) (schedule_lock k) (next_tid k)
    (next_pid k) (timeslice k) (curr_task_ctx k) (tss_esp0 k) (irq_reenter_cnt k) (wqs k)
    (sems k) v (next_sem_id k) (semaphore_lock k) (mailboxes k) (mailmetas k) (mails k)
    (inflight_mails k) (next_mail_id k) (irqs k) (irqline_objs k) (irqlines k) (pic_master
    k) (pic_slave k) (proc_scall_handle k) (mailbox_scall_handle k) (irq_scall_handle k).
Definition set_next_sem_id (v : Z) (k : kernel) : kernel :=
    mk_kernel (k_mach k) (k_heap k) (k_uheap k) (k_vm k) (thread_head k) (tcbs k) (proc_head
    k) (pcbs k) (thread_run k) (ctx_vcb k) (ctx_task k) (schedule_lock k) (next_tid k)
    (next_pid k) (timeslice k) (curr_task_ctx k) (tss_esp0 k) (irq_reenter_cnt k) (wqs k)
    (sems k) (semaphore_head k) v (semaphore_lock k) (mailboxes k) (mailmetas k) (mails k)
    (inflight_mails k) (next_mail_id k) (irqs k) (irqline_objs k) (irqlines k) (pic_master
    k) (pic_slave k) (proc_scall_handle k) (mailbox_scall_handle k) (irq_scall_handle k).
Definition set_semaphore_lock (v : option nat) (k : kernel) : kernel :=
    mk_kernel (k_mach k) (k_heap k) (k_uheap k) (k_vm k) (thread_head k) (tcbs k) (proc_head
    k) (pcbs k) (thread_run k) (ctx_vcb k) (ctx_task k) (schedule_lock k) (next_tid k)
    (next_pid k) (timeslice k) (curr_task_ctx k) (tss_esp0 k) (irq_reenter_cnt k) (wqs k)
    (sems k) (semaphore_head k) (next_sem_id k) v (mailboxes k) (mailmetas k) (mails k)
    (inflight_mails k) (next_mail_id k) (irqs k) (irqline_objs k) (irqlines k) (pic_master
    k) (pic_slave k) (proc_scall_handle k) (mailbox_scall_handle k) (irq_scall_handle k).
Definition set_mailboxes (v : gmap Z mailbox) (k : kernel) : kernel :=
    mk_kernel (k_mach k) (k_heap k) (k_uheap k) (k_vm k) (thread_head k) (tcbs k) (proc_head
    k) (pcbs k) (thread_run k) (ctx_vcb k) (ctx_task k) (schedule_lock k) (next_tid k)
    (next_pid k) (timeslice k) (curr_task_ctx k) (tss_esp0 k) (irq_reenter_cnt k) (wqs k)
    (sems k) (semaphore_head k) (next_sem_id k) (semaphore_lock k) v (mailmetas k) (mails k)
    (inflight_mails k) (next_mail_id k) (irqs k) (irqline_objs k) (irqlines k) (pic_master
    k) (pic_slave k) (proc_scall_handle k) (mailbox_scall_handle k) (irq_scall_handle k).
Definition set_mailmetas (v : gmap Z mailmeta) (k : kernel) : kernel :=
    mk_kernel (k_mach k) (k_heap k) (k_uheap k) (k_vm k) (thread_head k) (tcbs k) (proc_head
    k) (pcbs k) (thread_run k) (ctx_vcb k) (ctx_task k) (schedule_lock k) (next_tid k)
    (next_pid k) (timeslice k) (curr_task_ctx k) (tss_esp0 k) (irq_reenter_cnt k) (wqs k)
    (sems k) (semaphore_head k) (next_sem_id k) (semaphore_lock k) (mailboxes k) v (mails k)
    (inflight_mails k) (next_mail_id k) (irqs k) (irqline_objs k) (irqlines k) (pic_master
    k) (pic_slave k) (proc_scall_handle k) (mailbox_scall_handle k) (irq_scall_handle k).
Definition set_mails (v : gmap Z mail) (k : kernel) : kernel :=
    mk_kernel (k_mach k) (k_heap k) (k_uheap k) (k_vm k) (thread_head k) (tcbs k) (proc_head
    k) (pcbs k) (thread_run k) (ctx_vcb k) (ctx_task k) (schedule_lock k) (next_tid k)
    (next_pid k) (timeslice k) (curr_task_ctx k) (tss_esp0 k) (irq_reenter_cnt k) (wqs k)
    (sems k) (semaphore_head k) (next_sem_id k) (semaphore_lock k) (mailboxes k) (mailmetas
    k) v (inflight_mails k) (next_mail_id k) (irqs k) (irqline_objs k) (irqlines k)
    (pic_master k) (pic_slave k) (proc_scall_handle k) (mailbox_scall_handle k)
    (irq_scall_handle k).
Definition set_inflight_mails (v : list Z) (k : kernel) : kernel :=
    mk_kernel (k_mach k) (k_heap k) (k_uheap k) (k_vm k) (thread_head k) (tcbs k) (proc_head
    k) (pcbs k) (thread_run k) (ctx_vcb k) (ctx_task k) (schedule_lock k) (next_tid k)
    (next_pid k) (timeslice k) (curr_task_ctx k) (tss_esp0 k) (irq_reenter_cnt k) (wqs k)
    (sems k) (semaphore_head k) (next_sem_id k) (semaphore_lock k) (mailboxes k) (mailmetas
    k) (mails k) v (next_mail_id k) (irqs k) (irqline_objs k) (irqlines k) (pic_master k)
    (pic_slave k) (proc_scall_handle k) (mailbox_scall_handle k) (irq_scall_handle k).
Definition set_next_mail_id (v : Z) (k : kernel) : kernel :=
    mk_kernel (k_mach k) (k_heap k) (k_uheap k) (k_vm k) (thread_head k) (tcbs k) (proc_head
    k) (pcbs k) (thread_run k) (ctx_vcb k) (ctx_task k) (schedule_lock k) (next_tid k)
    (next_pid k) (timeslice k) (curr_task_ctx k) (tss_esp0 k) (irq_reenter_cnt k) (wqs k)
    (sems k) (semaphore_head k) (next_sem_id k) (semaphore_lock k) (mailboxes k) (mailmetas
    k) (mails k) (inflight_mails k) v (irqs k) (irqline_objs k) (irqlines k) (pic_master k)
    (pic_slave k) (proc_scall_handle k) (mailbox_scall_handle k) (irq_scall_handle k).
Definition set_irqs (v : gmap Z irq) (k : kernel) : kernel :=
    mk_kernel (k_mach k) (k_heap k) (k_uheap k) (k_vm k) (thread_head k) (tcbs k) (proc_head
    k) (pcbs k) (thread_run k) (ctx_vcb k) (ctx_task k) (schedule_lock k) (next_tid k)
    (next_pid k) (timeslice k) (curr_task_ctx k) (tss_esp0 k) (irq_reenter_cnt k) (wqs k)
    (sems k) (semaphore_head k) (next_sem_id k) (semaphore_lock k) (mailboxes k) (mailmetas
    k) (mails k) (inflight_mails k) (next_mail_id k) v (irqline_objs k) (irqlines k)
    (pic_master k) (pic_slave k) (proc_scall_handle k) (mailbox_scall_handle k)
    (irq_scall_handle k).
Definition set_irqline_objs (v : gmap Z irqline) (k : kernel) : kernel :=
    mk_kernel (k_mach k) (k_heap k) (k_uheap k) (k_vm k) (thread_head k) (tcbs k) (proc_head
    k) (pcbs k) (thread_run k) (ctx_vcb k) (ctx_task k) (schedule_lock k) (next_tid k)
    (next_pid k) (timeslice k) (curr_task_ctx k) (tss_esp0 k) (irq_reenter_cnt k) (wqs k)
    (sems k) (semaphore_head k) (next_sem_id k) (semaphore_lock k) (mailboxes k) (mailmetas
    k) (mails k) (inflight_mails k) (next_mail_id k) (irqs k) v (irqlines k) (pic_master k)
    (pic_slave k) (proc_scall_handle k) (mailbox_scall_handle k) (irq_scall_handle k).
Definition set_irqlines (v : list Z) (k : kernel) : kernel :=
    mk_kernel (k_mach k) (k_heap k) (k_uheap k) (k_vm k) (thread_head k) (tcbs k) (proc_head
    k) (pcbs k) (thread_run k) (ctx_vcb k) (ctx_task k) (schedule_lock k) (next_tid k)
    (next_pid k) (timeslice k) (curr_task_ctx k) (tss_esp0 k) (irq_reenter_cnt k) (wqs k)
    (sems k) (semaphore_head k) (next_sem_id k) (semaphore_lock k) (mailboxes k) (mailmetas
    k) (mails k) (inflight_mails k) (next_mail_id k) (irqs k) (irqline_objs k) v (pic_master
    k) (pic_slave k) (proc_scall_handle k) (mailbox_scall_handle k) (irq_scall_handle k).
Definition set_pic_master (v : Z) (k : kernel) : kernel :=
    mk_kernel (k_mach k) (k_heap k) (k_uheap k) (k_vm k) (thread_head k) (tcbs k) (proc_head
    k) (pcbs k) (thread_run k) (ctx_vcb k) (ctx_task k) (schedule_lock k) (next_tid k)
    (next_pid k) (timeslice k) (curr_task_ctx k) (tss_esp0 k) (irq_reenter_cnt k) (wqs k)
    (sems k) (semaphore_head k) (next_sem_id k) (semaphore_lock k) (mailboxes k) (mailmetas
    k) (mails k) (inflight_mails k) (next_mail_id k) (irqs k) (irqline_objs k) (irqlines k)
    v (pic_slave k) (proc_scall_handle k) (mailbox_scall_handle k) (irq_scall_handle k).
Definition set_pic_slave (v : Z) (k : kernel) : kernel :=
    mk_kernel (k_mach k) (k_heap k) (k_uheap k) (k_vm k) (thread_head k) (tcbs k) (proc_head
    k) (pcbs k) (thread_run k) (ctx_vcb k) (ctx_task k) (schedule_lock k) (next_tid k)
    (next_pid k) (timeslice k) (curr_task_ctx k) (tss_esp0 k) (irq_reenter_cnt k) (wqs k)
    (sems k) (semaphore_head k) (next_sem_id k) (semaphore_lock k) (mailboxes k) (mailmetas
    k) (mails k) (inflight_mails k) (next_mail_id k) (irqs k) (irqline_objs k) (irqlines k)
    (pic_master k) v (proc_scall_handle k) (mailbox_scall_handle k) (irq_scall_handle k).
Definition set_proc_scall_handle (v : Z) (k : kernel) : kernel :=
    mk_kernel (k_mach k) (k_heap k) (k_uheap k) (k_vm k) (thread_head k) (tcbs k) (proc_head
    k) (pcbs k) (thread_run k) (ctx_vcb k) (ctx_task k) (schedule_lock k) (next_tid k)
    (next_pid k) (timeslice k) (curr_task_ctx k) (tss_esp0 k) (irq_reenter_cnt k) (wqs k)
    (sems k) (semaphore_head k) (next_sem_id k) (semaphore_lock k) (mailboxes k) (mailmetas
    k) (mails k) (inflight_mails k) (next_mail_id k) (irqs k) (irqline_objs k) (irqlines k)
    (pic_master k) (pic_slave k) v (mailbox_scall_handle k) (irq_scall_handle k).
Definition set_mailbox_scall_handle (v : Z) (k : kernel) : kernel :=
    mk_kernel (k_mach k) (k_heap k) (k_uheap k) (k_vm k) (thread_head k) (tcbs k) (proc_head
    k) (pcbs k) (thread_run k) (ctx_vcb k) (ctx_task k) (schedule_lock k) (next_tid k)
    (next_pid k) (timeslice k) (curr_task_ctx k) (tss_esp0 k) (irq_reenter_cnt k) (wqs k)
    (sems k) (semaphore_head k) (next_sem_id k) (semaphore_lock k) (mailboxes k) (mailmetas
    k) (mails k) (inflight_mails k) (next_mail_id k) (irqs k) (irqline_objs k) (irqlines k)
    (pic_master k) (pic_slave k) (proc_scall_handle k) v (irq_scall_handle k).
Definition set_irq_scall_handle (v : Z) (k : kernel) : kernel :=
    mk_kernel (k_mach k) (k_heap k) (k_uheap k) (k_vm k) (thread_head k) (tcbs k) (proc_head
    k) (pcbs k) (thread_run k) (ctx_vcb k) (ctx_task k) (schedule_lock k) (next_tid k)
    (next_pid k) (timeslice k) (curr_task_ctx k) (tss_esp0 k) (irq_reenter_cnt k) (wqs k)
    (sems k) (semaphore_head k) (next_sem_id k) (semaphore_lock k) (mailboxes k) (mailmetas
    k) (mails k) (inflight_mails k) (next_mail_id k) (irqs k) (irqline_objs k) (irqlines k)
    (pic_master k) (pic_slave k) (proc_scall_handle k) (mailbox_scall_handle k) v.

#[export] Instance kernel_machine : Contains kernel (cpu * lock_table).
Proof.
  refine {| part := k_mach; set_part := set_k_mach |}; try done. by intros [].
Defined.

#[export] Instance kernel_heap : Contains kernel A | 20.
Proof.
  refine {| part := k_heap; set_part := set_k_heap |}; try done. by intros [].
Defined.

#[export] Instance kernel_uheap : Contains kernel U | 30.
Proof.
  refine {| part := k_uheap; set_part := set_k_uheap |}; try done. by intros [].
Defined.

#[export] Instance kernel_vm : Contains kernel W | 40.
Proof.
  refine {| part := k_vm; set_part := set_k_vm |}; try done. by intros [].
Defined.

(** The statics at boot, over given heaps, address spaces and locks.  A
    [static spinlock] lies behind the pool of spinlock.c in the lock table. *)
Definition boot_kernel (m : cpu * lock_table) (h : A) (u : U) (w : W) : kernel :=
  mk_kernel m h u w [] ∅ [] ∅ 0 0 0 None 0 0 0 0 0 (-1) ∅ ∅ [] 0 (Some SPIN_LOCK_MAX_COUNT)
    ∅ ∅ ∅ [] 0 ∅ ∅ (replicate 256 0) 255 255 (-1) (-1) (-1).

(** ** Access to objects *)

Definition get_tcb (t : Z) : M kernel tcb := deref (λ k, tcbs k !! t).
Definition get_pcb (p : Z) : M kernel pcb := deref (λ k, pcbs k !! p).
Definition get_wq (q : Z) : M kernel wait_queue := deref (λ k, wqs k !! q).
Definition get_sem (s : Z) : M kernel semaphore := deref (λ k, sems k !! s).

(** A store to one field: the object is there or the access faults. *)
Definition upd_tcb (t : Z) (f : tcb → tcb) : M kernel unit :=
  c ← get_tcb t; modify (λ k, set_tcbs (<[t := f c]> (tcbs k)) k).
Definition upd_pcb (p : Z) (f : pcb → pcb) : M kernel unit :=
  c ← get_pcb p; modify (λ k, set_pcbs (<[p := f c]> (pcbs k)) k).
Definition upd_wq (q : Z) (f : wait_queue → wait_queue) : M kernel unit :=
  c ← get_wq q; modify (λ k, set_wqs (<[q := f c]> (wqs k)) k).
Definition upd_sem (s : Z) (f : semaphore → semaphore) : M kernel unit :=
  c ← get_sem s; modify (λ k, set_sems (<[s := f c]> (sems k)) k).

(** ** Critical sections on kernel state *)

(** Lock [l] held. *)
Definition hold (l : nat) (k : kernel) : kernel :=
  set_k_mach ((k_mach k).1, <[l := LOCK_LOCKED]> (k_mach k).2) k.

Lemma kernel_with_lock {B} l (k : kernel) (m : M kernel B) b k1 :
  (k_mach k).2 !! l = Some LOCK_UNLOCKED → m (hold l k) = Ret b k1 →
  k_mach k1 = k_mach (hold l k) →
  (zoom (spinlock_lock (Some l));; b ← m; zoom (spinlock_unlock (Some l));; mret b) k
  = Ret b (set_k_mach (k_mach k) k1).
Proof.
  intros Hl Hm Hk. etrans; [eapply (with_lock l k m); [exact Hl|exact Hm|]|].
  - simpl. by rewrite Hk.
  - simpl. rewrite Hk. simpl. by rewrite pair_eta.
Qed.

Lemma hold_id l (k : kernel) : set_k_mach (k_mach k) (hold l k) = k.
Proof. by destruct k. Qed.

Lemma zoom_heap {B} (m : M A B) (k : kernel) b a :
  m (k_heap k) = Ret b a → zoom m k = Ret b (set_k_heap a k).
Proof. apply (zoom_Ret (Contains0 := kernel_heap)). Qed.


(** The same with interrupts off, as [spinlock_lock_irqsave] leaves them. *)
Definition hold_irq (l : nat) (k : kernel) : kernel := set_k_mach (irq_locked l (k_mach k)) k.

Definition irq_section {B} (l : option nat) (m : M kernel B) : M kernel B :=
  flags ← zoom (spinlock_lock_irqsave l);
  b ← m;
  zoom (spinlock_unlock_irqrestore l flags);;
  mret b.

Lemma irq_section_run {B} l (k : kernel) (m : M kernel B) b k1 :
  (k_mach k).2 !! l = Some LOCK_UNLOCKED → m (hold_irq l k) = Ret b k1 →
  k_mach k1 = k_mach (hold_irq l k) →
  irq_section (Some l) m k = Ret b (set_k_mach (k_mach k) k1).
Proof.
  intros Hl Hm Hk. unfold irq_section. erewrite bind_Ret by (by apply lock_irqsave_free).
  erewrite bind_Ret by exact Hm.
  erewrite bind_Ret by (by apply (unlock_irqrestore_held l k k1)). done.
Qed.

Lemma hold_irq_id l (k : kernel) : set_k_mach (k_mach k) (hold_irq l k) = k.
Proof. by destruct k. Qed.
End kernel.
#[global] Arguments kernel : clear implicits.

Definition tcb_state (s : thread_state) (c : tcb) : tcb :=
  mk_tcb (t_context c) (t_entry c) (t_tid c) s (t_wake_pending c) (t_sp_lock c) (t_parent c)
    (t_param c) (t_irqs c) (t_mailbox c) (t_waiting_on c).
Definition tcb_wake (b : bool) (c : tcb) : tcb :=
  mk_tcb (t_context c) (t_entry c) (t_tid c) (t_state c) b (t_sp_lock c) (t_parent c)
    (t_param c) (t_irqs c) (t_mailbox c) (t_waiting_on c).
Definition tcb_context (x : arch_task_context) (c : tcb) : tcb :=
  mk_tcb x (t_entry c) (t_tid c) (t_state c) (t_wake_pending c) (t_sp_lock c) (t_parent c)
    (t_param c) (t_irqs c) (t_mailbox c) (t_waiting_on c).
Definition tcb_irqs (l : list Z) (c : tcb) : tcb :=
  mk_tcb (t_context c) (t_entry c) (t_tid c) (t_state c) (t_wake_pending c) (t_sp_lock c)
    (t_parent c) (t_param c) l (t_mailbox c) (t_waiting_on c).
Definition tcb_mailbox (m : Z) (c : tcb) : tcb :=
  mk_tcb (t_context c) (t_entry c) (t_tid c) (t_state c) (t_wake_pending c) (t_sp_lock c)
    (t_parent c) (t_param c) (t_irqs c) m (t_waiting_on c).
Definition tcb_waiting (q : Z) (c : tcb) : tcb :=
  mk_tcb (t_context c) (t_entry c) (t_tid c) (t_state c) (t_wake_pending c) (t_sp_lock c)
    (t_parent c) (t_param c) (t_irqs c) (t_mailbox c) q.

Definition pcb_state (s : proc_state) (c : pcb) : pcb :=
  mk_pcb (p_pid c) s (p_priv c) (p_tcbs c) (p_param c) (p_sp_lock c) (p_caps c) (p_cap_lock c).
Definition pcb_tcbs (l : list Z) (c : pcb) : pcb :=
  mk_pcb (p_pid c) (p_state c) (p_priv c) l (p_param c) (p_sp_lock c) (p_caps c) (p_cap_lock c).
Definition pcb_caps (l : list (Z * capability)) (c : pcb) : pcb :=
  mk_pcb (p_pid c) (p_state c) (p_priv c) (p_tcbs c) (p_param c) (p_sp_lock c) l (p_cap_lock c).

(** [list_del] of an object from the list it is on. *)
Definition remove (x : Z) (l : list Z) : list Z := filter (.≠ x) l.
