(* ===== verification/Capability.v ===== *)
(** * Capabilities (kernel/capability.c)

    A process owns a list of typed grants; [cap_check] decides whether some
    grant covers a request.  The theorems say what a grant covers in terms of
    unbounded address ranges (the code compares by subtraction to stay clear
    of wrap-around), that the list only ever holds valid, distinct grants,
    and exactly how each operation changes the list and the heap. *)

From S2P Require Import Prelude Spinlock Allocator Heap KState.
From stdpp Require Import base tactics list gmap.
From Stdlib Require Import ZArith Lia.

Open Scope Z_scope.

(** The union read as the member of [ty]: what [cap->member] is once
    [cap->type == ty] has been tested. *)
Definition cap_view (ty : cap_type) (c : capability) : option (cap_member ty) :=
  match c with
  | mk_cap ty' v =>
      match ty', ty return cap_member ty' → option (cap_member ty) with
      | CAP_OWN_IRQ, CAP_OWN_IRQ => Some
      | CAP_MAP_MEM, CAP_MAP_MEM => Some
      | CAP_ACCESS_IO, CAP_ACCESS_IO => Some
      | CAP_IPC, CAP_IPC => Some
      | CAP_CREATE_KRNL_PROC, CAP_CREATE_KRNL_PROC => Some
      | CAP_CREATE_KRNL_THREAD, CAP_CREATE_KRNL_THREAD => Some
      | _, _ => λ _, None
      end v
  end.

(** ** Checks: does the grant [defender] cover [challenger]? *)

Definition cap_irq_check (defender challenger : Z) : Z :=
  if defender =? challenger then 0 else E_PERM.

Definition cap_mem_check (defender challenger : cap_mem) : Z :=
  if mem_size challenger =? 0 then E_INVAL else
  if negb (Z.land (mem_flags defender) (mem_flags challenger) =? mem_flags challenger)
  then E_PERM else
  if mem_base challenger <? mem_base defender then E_PERM else
  if mem_size defender <? mem_size challenger then E_PERM else
  if mem_size defender -u mem_size challenger <? mem_base challenger -u mem_base defender
  then E_PERM else 0.

Definition cap_io_port_check (defender challenger : cap_io_port) : Z :=
  if io_count challenger =? 0 then E_INVAL else
  if io_base challenger <? io_base defender then E_PERM else
  if io_count defender <? io_count challenger then E_PERM else
  if io_count defender -u io_count challenger <? io_base challenger -u io_base defender
  then E_PERM else 0.

Definition cap_permission_check (defender unused : Z) : Z :=
  if defender =? 0 then E_PERM else 0.

Definition check_func (ty : cap_type) : cap_member ty → cap_member ty → Z :=
  match ty with
  | CAP_OWN_IRQ => cap_irq_check
  | CAP_MAP_MEM => cap_mem_check
  | CAP_ACCESS_IO => cap_io_port_check
  | CAP_IPC | CAP_CREATE_KRNL_PROC | CAP_CREATE_KRNL_THREAD => cap_permission_check
  end.

(** ** Equality of grants *)

Definition cap_irq_cmp (a b : Z) : bool := a =? b.
Definition cap_mem_cmp (a b : cap_mem) : bool :=
  (mem_base a =? mem_base b) && (mem_size a =? mem_size b) && (mem_flags a =? mem_flags b).
Definition cap_io_port_cmp (a b : cap_io_port) : bool :=
  (io_base a =? io_base b) && (io_count a =? io_count b).
Definition cap_permission_cmp (a b : Z) : bool := a =? b.

Definition cmp_func (ty : cap_type) : cap_member ty → cap_member ty → bool :=
  match ty with
  | CAP_OWN_IRQ => cap_irq_cmp
  | CAP_MAP_MEM => cap_mem_cmp
  | CAP_ACCESS_IO => cap_io_port_cmp
  | CAP_IPC | CAP_CREATE_KRNL_PROC | CAP_CREATE_KRNL_THREAD => cap_permission_cmp
  end.

(** ** Validity of a new grant *)

Definition cap_irq_grant_check (perm : Z) : Z := if 255 <? perm then E_INVAL else 0.
Definition cap_mem_grant_check (perm : cap_mem) : Z :=
  if mem_size perm =? 0 then E_INVAL else
  if mem_base perm +u mem_size perm <? mem_base perm then E_INVAL else 0.
Definition cap_io_port_grant_check (perm : cap_io_port) : Z :=
  if io_count perm =? 0 then E_INVAL else
  if io_base perm +u io_count perm <? io_base perm then E_INVAL else 0.
Definition cap_permission_grant_check (perm : Z) : Z := if perm =? 1 then 0 else E_INVAL.

Definition grant_check_func (ty : cap_type) : cap_member ty → Z :=
  match ty with
  | CAP_OWN_IRQ => cap_irq_grant_check
  | CAP_MAP_MEM => cap_mem_grant_check
  | CAP_ACCESS_IO => cap_io_port_grant_check
  | CAP_IPC | CAP_CREATE_KRNL_PROC | CAP_CREATE_KRNL_THREAD => cap_permission_grant_check
  end.

(** ** The operations *)

Definition sizeof_capability : Z := 24.

Section ops.
Context {A U W : Type} `{!Allocator A}.
Notation kernel := (kernel A U W).

(** The loop of [cap_check]: [ret] is the answer so far. *)
Fixpoint check_loop (ty : cap_type) (args : option (cap_member ty)) (ret : Z)
    (caps : list (Z * capability)) : Z :=
  match caps with
  | [] => ret
  | (_, c) :: caps =>
      match cap_view ty c with
      | None => check_loop ty args ret caps
      | Some v =>
          let ret := match args with
                     | Some a => if check_func ty v a =? 0 then 0 else E_PERM
                     | None => E_PERM
                     end in
          if ret =? 0 then ret else check_loop ty args ret caps
      end
  end.

Definition cap_check (proc : Z) (ty : cap_type) (args : option (cap_member ty)) : M kernel Z :=
  if proc =? 0 then mret E_INVAL else
  p ← get_pcb proc;
  match p_cap_lock p with
  | None => mret E_INVAL
  | Some l =>
      zoom (spinlock_lock (Some l));;
      ret ← (p ← get_pcb proc; mret (check_loop ty args E_PERM (p_caps p)));
      zoom (spinlock_unlock (Some l));;
      mret ret
  end.

(** [CASE_CAP_IS_DUP]. *)
Definition is_dup (ty : cap_type) (args : cap_member ty) (caps : list (Z * capability)) : bool :=
  existsb (λ ac, match cap_view ty ac.2 with
                 | Some v => cmp_func ty v args
                 | None => false
                 end) caps.

Definition cap_grant (proc : Z) (ty : cap_type) (args : option (cap_member ty)) : M kernel Z :=
  match args with
  | None => mret E_INVAL
  | Some a =>
      if proc =? 0 then mret E_INVAL else
      p ← get_pcb proc;
      match p_cap_lock p with
      | None => mret E_INVAL
      | Some l =>
          zoom (spinlock_lock (Some l));;
          ret ←
            (if negb (grant_check_func ty a =? 0) then mret E_INVAL else
             p ← get_pcb proc;
             if is_dup ty a (p_caps p) then mret E_EXISTS else
             cap ← zoom (A := A) (kmalloc sizeof_capability);
             if cap =? 0 then mret E_NOMEM else
             upd_pcb proc (λ p, pcb_caps ((cap, mk_cap ty a) :: p_caps p) p);;
             mret 0);
          zoom (spinlock_unlock (Some l));;
          mret ret
      end
  end.

(** [CASE_CAP_REVOKE]: does the entry go? *)
Definition revoked (ty : cap_type) (args : cap_member ty) (ac : Z * capability) : bool :=
  match cap_view ty ac.2 with Some v => cmp_func ty v args | None => false end.

(** The loop over [caps], which deletes and frees as it goes. *)
Fixpoint revoke_loop (proc : Z) (gone : Z * capability → bool) (caps : list (Z * capability))
    : M kernel unit :=
  match caps with
  | [] => mret tt
  | ac :: caps =>
      (if gone ac then
         upd_pcb proc (λ p, pcb_caps (filter (λ x, x.1 ≠ ac.1) (p_caps p)) p);;
         zoom (A := A) (kfree ac.1)
       else mret tt);;
      revoke_loop proc gone caps
  end.

Definition cap_revoke (proc : Z) (ty : cap_type) (args : option (cap_member ty)) : M kernel Z :=
  match args with
  | None => mret E_INVAL
  | Some a =>
      if proc =? 0 then mret E_INVAL else
      p ← get_pcb proc;
      match p_cap_lock p with
      | None => mret E_INVAL
      | Some l =>
          (zoom (spinlock_lock (Some l));;
           r ← (p ← get_pcb proc; revoke_loop proc (revoked ty a) (p_caps p));
           zoom (spinlock_unlock (Some l));;
           mret r);;
          mret 0
      end
  end.

Definition cap_revoke_all (proc : Z) : M kernel unit :=
  if proc =? 0 then mret tt else
  p ← get_pcb proc;
  match p_cap_lock p with
  | None => mret tt
  | Some l =>
      zoom (spinlock_lock (Some l));;
      r ← (p ← get_pcb proc; revoke_loop proc (λ _, true) (p_caps p));
      zoom (spinlock_unlock (Some l));;
      mret r
  end.

(** The loop of [cap_inherit_all]: it stops at the first failed allocation. *)
Fixpoint inherit_loop (child : Z) (caps : list (Z * capability)) : M kernel unit :=
  match caps with
  | [] => mret tt
  | (_, src) :: caps =>
      dst ← zoom (A := A) (kmalloc sizeof_capability);
      if dst =? 0 then mret tt else
      upd_pcb child (λ p, pcb_caps ((dst, src) :: p_caps p) p);;
      inherit_loop child caps
  end.

Definition cap_inherit_all (child parent : Z) : M kernel unit :=
  if (child =? 0) || (parent =? 0) then mret tt else
  c ← get_pcb child;
  p ← get_pcb parent;
  match p_cap_lock c, p_cap_lock p with
  | Some _, Some l =>
      zoom (spinlock_lock (Some l));;
      r ← (p ← get_pcb parent; inherit_loop child (p_caps p));
      zoom (spinlock_unlock (Some l));;
      mret r
  | _, _ => mret tt
  end.
End ops.

(** ** What a grant covers *)

(** The values are 32-bit. *)
Definition cap_u32 (ty : cap_type) : cap_member ty → Prop :=
  match ty with
  | CAP_MAP_MEM => λ m, is_u32 (mem_base m) ∧ is_u32 (mem_size m) ∧ is_u32 (mem_flags m)
  | CAP_ACCESS_IO => λ p, is_u32 (io_base p) ∧ is_u32 (io_count p)
  | _ => λ _, True
  end.

(** A grant of [v] covers the request [a]: the same line, a non-empty range
    inside the granted one with no more rights, a set permission. *)
Definition covers (ty : cap_type) : cap_member ty → cap_member ty → Prop :=
  match ty with
  | CAP_OWN_IRQ => λ v a, v = a
  | CAP_MAP_MEM => λ v a,
      0 < mem_size a ∧
      (∀ i, Z.testbit (mem_flags a) i = true → Z.testbit (mem_flags v) i = true) ∧
      mem_base v <= mem_base a ∧
      mem_base a + mem_size a <= mem_base v + mem_size v
  | CAP_ACCESS_IO => λ v a,
      0 < io_count a ∧ io_base v <= io_base a ∧
      io_base a + io_count a <= io_base v + io_count v
  | CAP_IPC | CAP_CREATE_KRNL_PROC | CAP_CREATE_KRNL_THREAD => λ v a, v ≠ 0
  end.

(** What may be granted at all. *)
Definition grantable (ty : cap_type) : cap_member ty → Prop :=
  match ty with
  | CAP_OWN_IRQ => λ v, v <= 255
  | CAP_MAP_MEM => λ m, 0 < mem_size m ∧ mem_base m + mem_size m < 4294967296
  | CAP_ACCESS_IO => λ p, 0 < io_count p ∧ io_base p + io_count p < 4294967296
  | CAP_IPC | CAP_CREATE_KRNL_PROC | CAP_CREATE_KRNL_THREAD => λ v, v = 1
  end.

Lemma land_subset x y :
  Z.land x y = y ↔ ∀ i, Z.testbit y i = true → Z.testbit x i = true.
Proof.
  split.
  - intros H i Hi. rewrite <- H, Z.land_spec in Hi. by apply andb_true_iff in Hi as [? _].
  - intros H. apply Z.bits_inj. intros i. rewrite Z.land_spec.
    destruct (Z.testbit y i) eqn:E; [by rewrite (H i E)|apply andb_false_r].
Qed.

Lemma mem_check_covers v a :
  cap_u32 CAP_MAP_MEM v → cap_u32 CAP_MAP_MEM a →
  cap_mem_check v a = 0 ↔ covers CAP_MAP_MEM v a.
Proof.
  simpl. unfold is_u32. intros (Hb & Hs & _) (Hb' & Hs' & _). rewrite <- land_subset.
  unfold cap_mem_check. destruct (Z.eqb_spec (mem_size a) 0); [split; [done|lia]|].
  destruct (Z.eqb_spec (Z.land (mem_flags v) (mem_flags a)) (mem_flags a)) as [Hf|Hf]; simpl;
    [|split; [done|]; by intros (_ & ? & _)].
  destruct (Z.ltb_spec (mem_base a) (mem_base v)); [split; [done|lia]|].
  destruct (Z.ltb_spec (mem_size v) (mem_size a)); [split; [done|lia]|].
  rewrite !u32_small by (unfold is_u32; lia).
  zcase; (split; [done || (intros _; split_and!; [lia|done|lia..])|lia || done]).
Qed.

Lemma io_check_covers v a :
  cap_u32 CAP_ACCESS_IO v → cap_u32 CAP_ACCESS_IO a →
  cap_io_port_check v a = 0 ↔ covers CAP_ACCESS_IO v a.
Proof.
  simpl. unfold is_u32. intros (Hb & Hs) (Hb' & Hs'). unfold cap_io_port_check.
  destruct (Z.eqb_spec (io_count a) 0); [split; [done|lia]|].
  destruct (Z.ltb_spec (io_base a) (io_base v)); [split; [done|lia]|].
  destruct (Z.ltb_spec (io_count v) (io_count a)); [split; [done|lia]|].
  rewrite !u32_small by (unfold is_u32; lia). zcase; split; try done; lia.
Qed.

Lemma check_func_covers ty v a :
  cap_u32 ty v → cap_u32 ty a → check_func ty v a = 0 ↔ covers ty v a.
Proof.
  destruct ty; [|apply mem_check_covers|apply io_check_covers|..]; intros _ _; simpl;
    unfold cap_irq_check, cap_permission_check; zcase; split; done.
Qed.

Lemma grant_check_grantable ty a :
  cap_u32 ty a → grant_check_func ty a = 0 ↔ grantable ty a.
Proof.
  destruct ty; simpl; unfold cap_irq_grant_check, cap_mem_grant_check, cap_io_port_grant_check,
    cap_permission_grant_check; unfold is_u32.
  - intros _. zcase; split; (done || lia).
  - intros (? & ? & _). destruct (Z.eqb_spec (mem_size a) 0); [split; [done|lia]|].
    rewrite u32_wraps_eqb by done. zcase; (split; [done || lia|lia || done]).
  - intros (? & ?). destruct (Z.eqb_spec (io_count a) 0); [split; [done|lia]|].
    rewrite u32_wraps_eqb by done. zcase; (split; [done || lia|lia || done]).
  - intros _. zcase; done.
  - intros _. zcase; done.
  - intros _. zcase; done.
Qed.

Lemma cmp_func_eq ty a b : cmp_func ty a b = true ↔ a = b.
Proof.
  destruct ty; simpl; unfold cap_irq_cmp, cap_mem_cmp, cap_io_port_cmp, cap_permission_cmp;
    try apply Z.eqb_eq; destruct a, b; simpl; rewrite ?andb_true_iff, !Z.eqb_eq;
    split; [intros; f_equal; tauto|by intros [= -> -> ->]|intros; f_equal; tauto|
            by intros [= -> ->]].
Qed.

Lemma cap_view_same ty v : cap_view ty (mk_cap ty v) = Some v.
Proof. by destruct ty. Qed.

Lemma mk_cap_transport ty v ty' v' (P : ∀ ty, cap_member ty → Prop) :
  mk_cap ty v = mk_cap ty' v' → P ty' v' → P ty v.
Proof.
  intros E H. change (P (cap_ty (mk_cap ty v)) (cap_val (mk_cap ty v))). by rewrite E.
Qed.

Lemma cap_view_Some ty c v : cap_view ty c = Some v → c = mk_cap ty v.
Proof. destruct c as [ty' v']. by destruct ty', ty; simpl; intros [= ->]. Qed.

(** ** The operations, run *)

Section run.
Context {A U W : Type} `{!Allocator A}.
Notation kernel := (kernel A U W).
Implicit Types k : kernel.

(** A process whose capability lock is free. *)
Record cap_holder k (proc : Z) (p : pcb) (l : nat) : Prop := {
  ch_nz : proc ≠ 0;
  ch_pcb : pcbs k !! proc = Some p;
  ch_lock : p_cap_lock p = Some l;
  ch_free : (k_mach k).2 !! l = Some LOCK_UNLOCKED;
}.

Lemma cap_check_run k proc p l ty args :
  cap_holder k proc p l →
  cap_check proc ty args k = Ret (check_loop ty args E_PERM (p_caps p)) k.
Proof.
  intros [Hnz Hp Hl Hf]. unfold cap_check. rewrite (proj2 (Z.eqb_neq _ _) Hnz).
  rewrite (bind_Ret _ _ _ p k), Hl by (by apply deref_Some).
  etrans; [apply (kernel_with_lock l k _ (check_loop ty args E_PERM (p_caps p)) (hold l k));
           [done| |done]|by rewrite hold_id].
  by rewrite (bind_Ret _ _ _ p (hold l k)) by (by apply deref_Some).
Qed.

(** The loop answers whether some grant covers the request. *)
Lemma check_loop_spec ty a caps :
  Forall (λ ac, ∀ v, ac.2 = mk_cap ty v → cap_u32 ty v) caps → cap_u32 ty a →
  check_loop ty (Some a) E_PERM caps =
    (if List.existsb (λ ac, match cap_view ty ac.2 with
                            | Some v => check_func ty v a =? 0 | None => false end) caps
     then 0 else E_PERM).
Proof.
  intros Hu Ha. induction Hu as [|[x c] caps Hc Hu IH]; [done|]. cbn [check_loop existsb snd].
  destruct (cap_view ty c) as [v|]; [|done].
  destruct (check_func ty v a =? 0); [done|]. by rewrite IH.
Qed.

Definition held (ty : cap_type) (v : cap_member ty) (caps : list (Z * capability)) : Prop :=
  ∃ x, (x, mk_cap ty v) ∈ caps.

(** Every 32-bit value in the list is one. *)
Definition caps_u32 (caps : list (Z * capability)) : Prop :=
  ∀ ty v, held ty v caps → cap_u32 ty v.

Lemma check_loop_covers ty a caps :
  caps_u32 caps → cap_u32 ty a →
  check_loop ty (Some a) E_PERM caps = 0 ↔ ∃ v, held ty v caps ∧ covers ty v a.
Proof.
  intros Hu Ha. rewrite check_loop_spec; [|apply Forall_forall; intros [x c] Hin v Hc; simpl in Hc;
    subst c; apply Hu; by exists x|done].
  destruct (existsb _ caps) eqn:E.
  - split; [|done]. intros _. apply existsb_exists in E as ([x c] & Hin%list_elem_of_In & Hc).
    cbn [snd] in Hc. destruct (cap_view ty c) as [v|] eqn:Ev; [|done].
    apply cap_view_Some in Ev as ->. exists v. split; [by exists x|].
    apply Z.eqb_eq, check_func_covers in Hc; [done|apply Hu; by exists x|done].
  - split; [done|]. intros (v & (x & Hin) & Hc).
    assert (existsb (λ ac : Z * capability, match cap_view ty ac.2 with
      | Some v => check_func ty v a =? 0 | None => false end) caps = true); [|congruence].
    apply existsb_exists. exists (x, mk_cap ty v). split; [by apply list_elem_of_In|].
    cbn [snd]. rewrite cap_view_same. apply Z.eqb_eq, check_func_covers; [|done..].
    apply Hu. by exists x.
Qed.

Lemma is_dup_held ty a caps : is_dup ty a caps = true ↔ held ty a caps.
Proof.
  unfold is_dup. rewrite existsb_exists. split.
  - intros ([x c] & Hin%list_elem_of_In & Hc). cbn [snd] in Hc.
    destruct (cap_view ty c) as [v|] eqn:Ev; [|done]. apply cap_view_Some in Ev as ->.
    apply cmp_func_eq in Hc as ->. by exists x.
  - intros (x & Hin). exists (x, mk_cap ty a). split; [by apply list_elem_of_In|].
    cbn [snd]. rewrite cap_view_same. by apply cmp_func_eq.
Qed.

(** *** Granting *)

Lemma cap_grant_run k proc p l ty a L :
  cap_holder k proc p l → cap_u32 ty a → owns (k_heap k) L →
  (¬ grantable ty a → cap_grant proc ty (Some a) k = Ret E_INVAL k) ∧
  (grantable ty a → held ty a (p_caps p) → cap_grant proc ty (Some a) k = Ret E_EXISTS k) ∧
  (grantable ty a → ¬ held ty a (p_caps p) →
    (∃ h, cap_grant proc ty (Some a) k = Ret E_NOMEM (set_k_heap h k) ∧ owns h L) ∨
    (∃ x h, cap_grant proc ty (Some a) k
       = Ret 0 (set_pcbs (<[proc := pcb_caps ((x, mk_cap ty a) :: p_caps p) p]> (pcbs k))
                 (set_k_heap h k)) ∧
       x ∉ L ∧ owns h ({[x]} ∪ L))).
Proof.
  intros [Hnz Hp Hl Hf] Hu Ho. unfold cap_grant. rewrite (proj2 (Z.eqb_neq _ _) Hnz).
  rewrite !(bind_Ret _ _ _ p k), !Hl by (by apply deref_Some).
  pose proof (grant_check_grantable ty a Hu) as Hg.
  split_and!.
  - intros Hng. destruct (Z.eqb_spec (grant_check_func ty a) 0) as [E|_]; [tauto|].
    etrans; [by apply (kernel_with_lock l k _ E_INVAL (hold l k))|by rewrite hold_id].
  - intros Hgr Hh. rewrite (proj2 (Z.eqb_eq _ _) (proj2 Hg Hgr)). cbn [negb].
    etrans; [apply (kernel_with_lock l k _ E_EXISTS (hold l k)); [done| |done]|by rewrite hold_id].
    rewrite (bind_Ret _ _ _ p (hold l k)) by (by apply deref_Some).
    by rewrite (proj2 (is_dup_held ty a (p_caps p)) Hh).
  - intros Hgr Hnh. rewrite (proj2 (Z.eqb_eq _ _) (proj2 Hg Hgr)). cbn [negb].
    assert (is_dup ty a (p_caps p) = false) as Hd
      by (apply not_true_iff_false; by rewrite is_dup_held).
    destruct (kmalloc_ok (k_heap k) L sizeof_capability Ho) as [(h & Hm & Ho')|(x & h & Hm & Hx & HxL & Ho')];
      [done|left|right].
    + exists h. split; [|done].
      etrans; [apply (kernel_with_lock l k _ E_NOMEM (set_k_heap h (hold l k))); [done| |done]|
               by destruct k].
      rewrite (bind_Ret _ _ _ p (hold l k)), Hd by (by apply deref_Some).
      by rewrite (bind_Ret _ _ _ 0 (set_k_heap h (hold l k))) by (by apply zoom_heap).
    + exists x, h. split_and!; [|done..].
      etrans; [apply (kernel_with_lock l k _ 0 (set_pcbs
        (<[proc := pcb_caps ((x, mk_cap ty a) :: p_caps p) p]> (pcbs k)) (set_k_heap h (hold l k))));
        [done| |done]|by destruct k].
      rewrite (bind_Ret _ _ _ p (hold l k)), Hd by (by apply deref_Some).
      rewrite (bind_Ret _ _ _ x (set_k_heap h (hold l k))) by (by apply zoom_heap).
      rewrite (proj2 (Z.eqb_neq _ _)) by lia. unfold upd_pcb.
      rewrite bind_assoc, (bind_Ret _ _ _ p (set_k_heap h (hold l k))) by (by apply deref_Some).
      done.
Qed.

(** *** Revoking *)

Definition addrs (caps : list (Z * capability)) : list Z := map fst caps.

Lemma remove_cap (l1 : list (Z * capability)) ac l2 :
  NoDup (addrs (l1 ++ ac :: l2)) → filter (λ x, x.1 ≠ ac.1) (l1 ++ ac :: l2) = l1 ++ l2.
Proof.
  unfold addrs. rewrite map_app. cbn [map].
  intros (_ & Hd & [Hx _]%NoDup_cons)%NoDup_app.
  rewrite filter_app, filter_cons_False by (intros ?; done). f_equal; apply filter_all, Forall_forall.
  - intros y Hy E. apply (Hd y.1); [by apply list_elem_of_fmap_2|]. rewrite E. left.
  - intros y Hy E. apply Hx. rewrite <- E. by apply list_elem_of_fmap_2.
Qed.

Lemma set_pcbs_heap_id k h proc q :
  pcbs k !! proc = Some q → h = k_heap k → set_pcbs (<[proc := q]> (pcbs k)) (set_k_heap h k) = k.
Proof. intros Hq ->. rewrite insert_id by done. by destruct k. Qed.

Lemma pcb_caps_id q : pcb_caps (p_caps q) q = q.
Proof. by destruct q. Qed.

Lemma revoke_loop_run gone k proc q kept rest L :
  pcbs k !! proc = Some q → p_caps q = kept ++ rest → NoDup (addrs (kept ++ rest)) →
  owns (k_heap k) L → list_to_set (addrs rest) ⊆ L →
  ∃ h, revoke_loop proc gone rest k
    = Ret tt (set_pcbs (<[proc := pcb_caps (kept ++ List.filter (λ c, negb (gone c)) rest) q]> (pcbs k))
               (set_k_heap h k)) ∧
    owns h (L ∖ list_to_set (addrs (List.filter gone rest))).
Proof.
  revert k q kept L. induction rest as [|ac rest IH]; intros k q kept L Hq Hc Hnd Ho HL.
  - exists (k_heap k). cbn [revoke_loop List.filter addrs map list_to_set foldr].
    rewrite app_nil_r in Hc |- *. rewrite difference_empty_L. split; [|done].
    rewrite <- Hc, pcb_caps_id, set_pcbs_heap_id by done. done.
  - cbn [addrs map list_to_set foldr] in HL. fold (addrs rest) in HL. cbn [revoke_loop List.filter].
    destruct (gone ac) eqn:Eg; cbn [negb].
    + destruct (kfree_ok (k_heap k) L ac.1 Ho) as (h1 & Hf & Ho1); [set_solver|].
      unfold upd_pcb. rewrite bind_assoc.
      erewrite bind_Ret; [|rewrite (bind_Ret _ _ _ q k) by (by apply deref_Some); reflexivity].
      rewrite Hc, remove_cap by done.
      set (k1 := set_pcbs (<[proc := pcb_caps (kept ++ rest) q]> (pcbs k)) k).
      rewrite (bind_Ret _ _ _ tt (set_k_heap h1 k1)) by (by apply zoom_heap).
      destruct (IH (set_k_heap h1 k1) (pcb_caps (kept ++ rest) q) kept (L ∖ {[ac.1]}))
        as (h2 & H2 & Ho2).
      * simpl. apply lookup_insert_eq.
      * done.
      * unfold addrs in *. rewrite map_app in Hnd |- *. cbn [map] in Hnd.
        apply NoDup_app in Hnd as (H1 & Hd & [_ H2]%NoDup_cons). apply NoDup_app.
        split_and!; [done| |done]. intros x Hx Hx'. apply (Hd x Hx). by right.
      * done.
      * unfold addrs in Hnd. rewrite map_app in Hnd. cbn [map] in Hnd.
        apply NoDup_app in Hnd as (_ & _ & [Hx _]%NoDup_cons). clear -Hx HL. unfold addrs in *. set_solver.
      * exists h2. rewrite H2. split; [|].
        -- simpl. by rewrite insert_insert_eq.
        -- cbn [addrs map list_to_set foldr]. fold (addrs (List.filter gone rest)).
           by replace (L ∖ ({[ac.1]} ∪ list_to_set (addrs (List.filter gone rest))))
             with (L ∖ {[ac.1]} ∖ list_to_set (addrs (List.filter gone rest))) by set_solver.
    + rewrite bind_ret. destruct (IH k q (kept ++ [ac]) L) as (h & H & Ho').
      * done.
      * by rewrite <- app_assoc.
      * by rewrite <- app_assoc.
      * done.
      * set_solver.
      * exists h. rewrite H, <- app_assoc. done.
Qed.

(** The grants of a process live in the heap, at different addresses. *)
Definition caps_alloc (caps : list (Z * capability)) (L : gset Z) : Prop :=
  NoDup (addrs caps) ∧ list_to_set (addrs caps) ⊆ L.

Lemma revoke_locked k l proc p gone L :
  cap_holder k proc p l → owns (k_heap k) L → caps_alloc (p_caps p) L →
  ∃ h, (zoom (spinlock_lock (Some l));; r ← (p ← get_pcb proc; revoke_loop proc gone (p_caps p));
        zoom (spinlock_unlock (Some l));; mret r) k
    = Ret tt (set_pcbs (<[proc := pcb_caps (List.filter (λ c, negb (gone c)) (p_caps p)) p]> (pcbs k))
               (set_k_heap h k)) ∧
    owns h (L ∖ list_to_set (addrs (List.filter gone (p_caps p)))).
Proof.
  intros [Hnz Hp Hl Hf] Ho [Hnd HL].
  destruct (revoke_loop_run gone (hold l k) proc p [] (p_caps p) L) as (h & H & Ho'); try done.
  exists h. split; [|done].
  etrans; [eapply (kernel_with_lock l k); [done| |]|].
  - rewrite (bind_Ret _ _ _ p (hold l k)) by (by apply deref_Some). exact H.
  - done.
  - by destruct k.
Qed.

(** *** Inheriting *)

(** [n] grants copied, the last copied first in the list. *)
Lemma inherit_loop_run k child c caps L :
  pcbs k !! child = Some c → owns (k_heap k) L →
  ∃ n new h L', inherit_loop child caps k
    = Ret tt (set_pcbs (<[child := pcb_caps (rev new ++ p_caps c) c]> (pcbs k)) (set_k_heap h k)) ∧
    map snd new = take n (map snd caps) ∧ owns h L' ∧
    L' = list_to_set (addrs new) ∪ L ∧ NoDup (addrs new) ∧ (∀ x, x ∈ addrs new → x ∉ L).
Proof.
  revert k c L. induction caps as [|[x src] caps IH]; intros k c L Hc Ho.
  - exists 0%nat, [], (k_heap k), L. simpl. split_and!; try done.
    + by rewrite pcb_caps_id, set_pcbs_heap_id.
    + by rewrite union_empty_l_L.
    + constructor.
    + intros x Hx. by apply elem_of_nil in Hx.
  - cbn [inherit_loop].
    destruct (kmalloc_ok (k_heap k) L sizeof_capability Ho) as [(h & Hm & Ho')|(y & h & Hm & Hy & HyL & Ho')];
      [done|..].
    + exists 0%nat, [], h, L. rewrite (bind_Ret _ _ _ 0 (set_k_heap h k)) by (by apply zoom_heap).
      simpl. split_and!; try done.
      * rewrite pcb_caps_id, insert_id by done. by destruct k.
      * by rewrite union_empty_l_L.
      * constructor.
      * intros z Hz. by apply elem_of_nil in Hz.
    + rewrite (bind_Ret _ _ _ y (set_k_heap h k)) by (by apply zoom_heap).
      rewrite (proj2 (Z.eqb_neq _ _)) by lia. unfold upd_pcb.
      rewrite bind_assoc, (bind_Ret _ _ _ c (set_k_heap h k)) by (by apply deref_Some).
      erewrite bind_Ret by reflexivity.
      set (c1 := pcb_caps ((y, src) :: p_caps c) c).
      set (k1 := set_pcbs _ _).
      destruct (IH k1 c1 ({[y]} ∪ L)) as (n & new & h2 & L2 & H & Hn & Ho2 & HL2 & Hnd & Hfr).
      * simpl. apply lookup_insert_eq.
      * done.
      * exists (S n), ((y, src) :: new), h2, L2. split_and!.
        -- rewrite H. cbn [rev]. rewrite <- app_assoc. simpl. by rewrite insert_insert_eq.
        -- simpl. by rewrite Hn.
        -- done.
        -- rewrite HL2. cbn [addrs map list_to_set foldr]. fold (addrs new). set_solver.
        -- apply NoDup_cons. split; [|done]. intros Hin. apply (Hfr y Hin). set_solver.
        -- intros z [->|Hz]%elem_of_cons; [done|]. pose proof (Hfr z Hz). set_solver.
Qed.

Lemma covers_refl ty a : grantable ty a → covers ty a a.
Proof. destruct ty; simpl; intros; try done; try lia. split_and!; [lia|done|lia..]. Qed.

(** The grants of a process are 32-bit, were all grantable, and no grant is
    there twice. *)
Definition caps_ok (caps : list (Z * capability)) : Prop :=
  (∀ ty v, held ty v caps → cap_u32 ty v ∧ grantable ty v) ∧ NoDup (map snd caps).

Lemma caps_ok_u32 caps : caps_ok caps → caps_u32 caps.
Proof. intros [H _] ty v Hh. by apply H. Qed.

Lemma held_cons ty v x ty' v' caps :
  held ty v ((x, mk_cap ty' v') :: caps) ↔ mk_cap ty v = mk_cap ty' v' ∨ held ty v caps.
Proof.
  unfold held. split.
  - intros (y & [E|Hin]%elem_of_cons); [left; congruence|right; by exists y].
  - intros [E|(y & Hin)]; [exists x; rewrite E; left|exists y; by right].
Qed.

Lemma held_snd ty v caps : held ty v caps ↔ mk_cap ty v ∈ map snd caps.
Proof.
  unfold held. rewrite list_elem_of_fmap. split.
  - intros (x & Hin). by exists (x, mk_cap ty v).
  - intros ([x c] & -> & Hin). by exists x.
Qed.

Lemma cap_check_answer k proc p l ty a :
  cap_holder k proc p l → caps_u32 (p_caps p) → cap_u32 ty a →
  ∃ r, cap_check proc ty (Some a) k = Ret r k ∧ (r = 0 ∨ r = E_PERM) ∧
    (r = 0 ↔ ∃ v, held ty v (p_caps p) ∧ covers ty v a).
Proof.
  intros Hh Hu Ha. eexists. split; [by eapply cap_check_run|].
  split; [|by apply check_loop_covers].
  rewrite check_loop_spec; [destruct (existsb _ _); auto| |done].
  apply Forall_forall. intros [x c] Hin v Hc. simpl in Hc. subst c. apply Hu. by exists x.
Qed.

(** *** Properties *)

(** C8: [cap_check] returns 0 exactly when some grant the process holds covers
    the request - same IRQ line; a non-empty memory or port range inside the
    granted one, computed without wrap-around, with a subset of its flags; a
    set permission bit - and E_PERM otherwise, leaving the kernel as it
    was. *)
Theorem cap_check_decides_coverage k proc p l ty a :
  cap_holder k proc p l → caps_u32 (p_caps p) → cap_u32 ty a →
  ∃ r, cap_check proc ty (Some a) k = Ret r k ∧ (r = 0 ∨ r = E_PERM) ∧
    (r = 0 ↔ ∃ v, held ty v (p_caps p) ∧ covers ty v a).
Proof. apply cap_check_answer. Qed.

(** [cap_grant] adds exactly one grant or changes no grant at all: it
    refuses an invalid range or permission (E_INVAL), then a grant already
    held (E_EXISTS), then fails for lack of memory (E_NOMEM); otherwise the
    new grant is at a fresh heap address, the list stays valid and free of
    duplicates, and [cap_check] accepts the granted value from then on. *)
Theorem cap_grant_adds_one k proc p l ty a L :
  cap_holder k proc p l → caps_ok (p_caps p) → cap_u32 ty a → owns (k_heap k) L →
  (¬ grantable ty a ∧ cap_grant proc ty (Some a) k = Ret E_INVAL k) ∨
  (grantable ty a ∧ held ty a (p_caps p) ∧ cap_grant proc ty (Some a) k = Ret E_EXISTS k) ∨
  (∃ h, cap_grant proc ty (Some a) k = Ret E_NOMEM (set_k_heap h k) ∧ owns h L) ∨
  (∃ x h k', grantable ty a ∧ ¬ held ty a (p_caps p) ∧
     cap_grant proc ty (Some a) k = Ret 0 k' ∧
     k' = set_pcbs (<[proc := pcb_caps ((x, mk_cap ty a) :: p_caps p) p]> (pcbs k))
            (set_k_heap h k) ∧
     x ∉ L ∧ owns h ({[x]} ∪ L) ∧ caps_ok ((x, mk_cap ty a) :: p_caps p) ∧
     cap_check proc ty (Some a) k' = Ret 0 k').
Proof.
  intros Hh Hok Hu Ho. destruct (cap_grant_run k proc p l ty a L Hh Hu Ho) as (H1 & H2 & H3).
  destruct (Z.eqb_spec (grant_check_func ty a) 0) as [Hg|Hg];
    rewrite grant_check_grantable in Hg by done; [|left; auto].
  destruct (is_dup ty a (p_caps p)) eqn:Ed; [apply is_dup_held in Ed; right; left; auto|].
  assert (¬ held ty a (p_caps p)) as Hn by (by rewrite <- is_dup_held, Ed).
  destruct (H3 Hg Hn) as [(h & E & Ho')|(x & h & E & Hx & Ho')]; [right; right; left; eauto|].
  do 3 right. eexists x, h, _. split_and!; try done.
  - split.
    + intros ty' v. rewrite held_cons. intros [Heq|Hv]; [|by apply Hok].
      by apply (mk_cap_transport _ _ _ _ (λ ty v, cap_u32 ty v ∧ grantable ty v) Heq).
    + cbn [map snd]. apply NoDup_cons. split; [by rewrite <- held_snd|apply Hok].
  - rewrite (cap_check_run _ proc (pcb_caps ((x, mk_cap ty a) :: p_caps p) p) l).
    + cbn [p_caps pcb_caps check_loop]. rewrite cap_view_same.
      assert (check_func ty a a = 0) as -> by (apply check_func_covers; [done..|by apply covers_refl]).
      done.
    + destruct Hh. split; try done. simpl. apply lookup_insert_eq.
Qed.

Lemma revoked_iff ty a ac : revoked ty a ac = true ↔ ac.2 = mk_cap ty a.
Proof.
  unfold revoked. split.
  - destruct (cap_view ty ac.2) as [v|] eqn:Ev; [|done]. apply cap_view_Some in Ev.
    intros Hc%cmp_func_eq. by subst v.
  - intros ->. rewrite cap_view_same. by apply cmp_func_eq.
Qed.

(** [cap_revoke] removes exactly the grants equal to its argument, in
    their order, frees exactly their memory and returns 0; [cap_revoke_all]
    leaves no grant and frees them all. *)
Theorem cap_revoke_exact k proc p l ty a L :
  cap_holder k proc p l → owns (k_heap k) L → caps_alloc (p_caps p) L →
  (∃ h caps', cap_revoke proc ty (Some a) k
     = Ret 0 (set_pcbs (<[proc := pcb_caps caps' p]> (pcbs k)) (set_k_heap h k)) ∧
     (∀ ac, ac ∈ caps' ↔ ac ∈ p_caps p ∧ ac.2 ≠ mk_cap ty a) ∧
     caps' `sublist_of` p_caps p ∧
     owns h (L ∖ list_to_set (addrs (List.filter (revoked ty a) (p_caps p))))) ∧
  (∃ h, cap_revoke_all proc k
     = Ret tt (set_pcbs (<[proc := pcb_caps [] p]> (pcbs k)) (set_k_heap h k)) ∧
     owns h (L ∖ list_to_set (addrs (p_caps p)))).
Proof.
  intros Hh Ho Hal. pose proof Hh as [Hnz Hp Hl Hf]. split.
  - destruct (revoke_locked k l proc p (revoked ty a) L Hh Ho Hal) as (h & H & Ho').
    eexists h, _. split_and!; [|..|exact Ho'].
    + unfold cap_revoke. rewrite (proj2 (Z.eqb_neq _ _) Hnz).
      rewrite (bind_Ret _ _ _ p k), Hl by (by apply deref_Some).
      by rewrite (bind_Ret _ _ _ _ _ H).
    + intros ac. rewrite list_elem_of_In, filter_In, <- list_elem_of_In, negb_true_iff,
        <- not_true_iff_false, revoked_iff. done.
    + clear. induction (p_caps p) as [|c l IH]; [constructor|]. simpl.
      destruct (revoked ty a c); simpl; by constructor.
  - destruct (revoke_locked k l proc p (λ _, true) L Hh Ho Hal) as (h & H & Ho').
    exists h. rewrite (List.forallb_filter_id (λ _, true)) in Ho' by (apply forallb_forall; done).
    split; [|done]. unfold cap_revoke_all. rewrite (proj2 (Z.eqb_neq _ _) Hnz).
    rewrite (bind_Ret _ _ _ p k), Hl by (by apply deref_Some). rewrite H.
    by replace (List.filter (λ c, negb true) (p_caps p)) with (@nil (Z * capability))
      by (clear; induction (p_caps p); done).
Qed.

(** a child inherits copies of its parent's grants, at fresh addresses,
    and nothing else: afterwards every request its capability list covers
    was covered by the parent's list or by its own before, and the parent's
    list is unchanged.  Only a failed allocation makes it inherit fewer than
    all of them, the first [n]. *)
Theorem cap_inherit_attenuates k child c lc parent p l L :
  cap_holder k child c lc → cap_holder k parent p l → child ≠ parent → owns (k_heap k) L →
  ∃ k' c' n L', cap_inherit_all child parent k = Ret tt k' ∧
    pcbs k' !! child = Some c' ∧ pcbs k' !! parent = Some p ∧
    map snd (p_caps c') = rev (take n (map snd (p_caps p))) ++ map snd (p_caps c) ∧
    owns (k_heap k') L' ∧ L ⊆ L' ∧
    (∀ ty v, held ty v (p_caps c') → held ty v (p_caps p) ∨ held ty v (p_caps c)).
Proof.
  intros [Hcz Hc Hcl _] [Hnz Hp Hl Hf] Hne Ho.
  destruct (inherit_loop_run (hold l k) child c (p_caps p) L Hc Ho)
    as (n & new & h & L' & H & Hn & Ho' & -> & _ & _).
  eexists _, _, n, _. split_and!.
  - unfold cap_inherit_all.
    replace ((child =? 0) || (parent =? 0)) with false by (symmetry; lia).
    rewrite (bind_Ret _ _ _ c k) by (by apply deref_Some).
    rewrite (bind_Ret _ _ _ p k), Hl, Hcl by (by apply deref_Some).
    eapply (kernel_with_lock l k); [done| |].
    + rewrite (bind_Ret _ _ _ p (hold l k)) by (by apply deref_Some). exact H.
    + done.
  - simpl. apply lookup_insert_eq.
  - simpl. by rewrite lookup_insert_ne.
  - cbn [p_caps pcb_caps]. by rewrite map_app, map_rev, Hn.
  - exact Ho'.
  - set_solver.
  - intros ty v. rewrite !held_snd. cbn [p_caps pcb_caps]. rewrite map_app, map_rev, Hn.
    intros [Hv|Hv]%elem_of_app; [left|by right].
    apply list_elem_of_In, in_rev, list_elem_of_In in Hv.
    by apply elem_of_take in Hv as (i & Hi & _); eapply list_elem_of_lookup_2.
Qed.
End run.

(** ** Witnesses: a process with one memory grant, on the kernel heap *)

Definition grant_1 : cap_mem := mk_cap_mem 4096 8192 7.

Definition demo_pcb : pcb :=
  mk_pcb 1 PS_READY PROC_PRIV_USER [] 0 (Some 1%nat) [] (Some 2%nat).
Definition demo_locks : cpu * lock_table :=
  (mk_cpu 512 false, [LOCK_UNLOCKED; LOCK_UNLOCKED; LOCK_UNLOCKED; LOCK_UNLOCKED]).
Definition demo_kernel : kernel heap heap unit :=
  set_pcbs {[ 500 := demo_pcb; 600 := pcb_caps [(700, mk_cap CAP_MAP_MEM grant_1)] demo_pcb ]}
    (boot_kernel demo_locks small_heap small_heap tt).

Lemma small_heap_owns : owns small_heap ∅.
Proof. exists [(1048576, mk_chunk (HEAP_TOTAL_SIZE - 16) 0)]. split; [exact small_heap_wf|done]. Qed.

Lemma demo_holder : cap_holder demo_kernel 500 demo_pcb 2.
Proof. by split. Qed.

Lemma demo_parent :
  cap_holder demo_kernel 600 (pcb_caps [(700, mk_cap CAP_MAP_MEM grant_1)] demo_pcb) 2.
Proof. by split. Qed.

Lemma grant_1_u32 : cap_u32 CAP_MAP_MEM grant_1.
Proof. by repeat split. Qed.

Lemma demo_caps_ok : caps_ok [(700, mk_cap CAP_MAP_MEM grant_1)].
Proof.
  split; [|apply NoDup_singleton]. intros ty v. rewrite held_snd. cbn [map snd].
  intros Hv%list_elem_of_singleton.
  apply (mk_cap_transport _ _ _ _ (λ ty v, cap_u32 ty v ∧ grantable ty v) Hv).
  split; [exact grant_1_u32|done].
Qed.

Lemma cap_check_decides_coverage_witness :
  ∃ r, cap_check 600 CAP_MAP_MEM (Some (mk_cap_mem 8192 4096 3)) demo_kernel = Ret r demo_kernel ∧
    (r = 0 ∨ r = E_PERM).
Proof.
  destruct (cap_check_decides_coverage demo_kernel 600 _ 2 CAP_MAP_MEM (mk_cap_mem 8192 4096 3)
    demo_parent) as (r & H & Hr & _); [apply caps_ok_u32, demo_caps_ok|by repeat split|].
  exists r. split; [exact H|exact Hr].
Defined.

Lemma cap_grant_adds_one_witness :
  grantable CAP_MAP_MEM grant_1 ∧
  (¬ grantable CAP_MAP_MEM grant_1 ∨ held CAP_MAP_MEM grant_1 (p_caps demo_pcb)
   ∨ ∃ r k', cap_grant 500 CAP_MAP_MEM (Some grant_1) demo_kernel = Ret r k').
Proof.
  split; [done|].
  destruct (cap_grant_adds_one demo_kernel 500 demo_pcb 2 CAP_MAP_MEM grant_1 ∅ demo_holder)
    as [[H _]|[(_ & H & _)|[(h & H & _)|(x & h & k' & _ & _ & H & _)]]].
  - split; [intros ty v (x & Hx); apply elem_of_nil in Hx; destruct Hx|constructor].
  - exact grant_1_u32.
  - exact small_heap_owns.
  - left. exact H.
  - right; left. exact H.
  - right; right. eexists _, _. exact H.
  - right; right. eexists _, _. exact H.
Defined.

Lemma cap_revoke_exact_witness :
  ∃ h, cap_revoke_all 500 demo_kernel
    = Ret tt (set_pcbs (<[500 := pcb_caps [] demo_pcb]> (pcbs demo_kernel)) (set_k_heap h demo_kernel)).
Proof.
  destruct (cap_revoke_exact demo_kernel 500 demo_pcb 2 CAP_MAP_MEM grant_1 ∅ demo_holder
    small_heap_owns) as [_ (h & H & _)]; [split; [constructor|done]|].
  exists h. exact H.
Defined.

Lemma cap_inherit_attenuates_witness :
  ∃ k', cap_inherit_all 500 600 demo_kernel = Ret tt k'.
Proof.
  destruct (cap_inherit_attenuates demo_kernel 500 demo_pcb 2 600 _ 2 ∅ demo_holder demo_parent)
    as (k' & _ & _ & _ & H & _); [lia|exact small_heap_owns|].
  exists k'. exact H.
Defined.
