(* ===== verification/Sched.v ===== *)
(** * The scheduler (kernel/process.c: the run list, blocking and waking,
      the deferred context switch; arch/i386/task.c: the restore)

    Threads are on one list, newest first; the next thread to run is the next
    ready one round the list.  A switch is only requested by the operations
    below and committed by [arch_task_context_switch] on the way out of the
    gate.  Every operation runs under [schedule_lock] with interrupts off and
    takes the lock of each thread it touches; the [_run] lemmas compute the
    operations from the invariant [sched_ok], and the theorems say that the
    rotation is fair, that a wake-up is never lost and that a committed
    switch loads the page directory of the thread it resumes. *)

From S2P Require Import Prelude Spinlock Allocator Heap KState.
From stdpp Require Import base tactics list gmap.
From Stdlib Require Import ZArith Lia.

Open Scope Z_scope.

Section sched.
Context {A U W : Type} `{!AddressSpace W}.
Notation kernel := (kernel A U W).
Implicit Types k : kernel.

(** ** Choosing the next thread *)

(** The list cut at [x]: what precedes and what follows it. *)
Fixpoint cut_at (x : Z) (l : list Z) : option (list Z * list Z) :=
  match l with
  | [] => None
  | y :: l =>
      if y =? x then Some ([], l)
      else '(l1, l2) ← cut_at x l; Some (y :: l1, l2)
  end.

(** One of the two scanning loops of [find_next_runnable]. *)
Fixpoint scan_ready (ts : list Z) : M kernel Z :=
  match ts with
  | [] => mret 0
  | t :: ts =>
      c ← get_tcb t;
      found ←
        (zoom (spinlock_lock (t_sp_lock c));;
         b ← (c ← get_tcb t;
              if decide (t_state c = TS_READY)
              then upd_tcb t (tcb_wake false);; mret true
              else mret false);
         zoom (spinlock_unlock (t_sp_lock c));;
         mret b);
      if found : bool then mret t else scan_ready ts
  end.

(** A thread that is on no list is linked to itself: the first loop then
    never reaches the head. *)
Definition find_next_runnable (current : Z) : M kernel Z :=
  if current =? 0 then mret 0 else
  ts ← gets thread_head;
  match cut_at current ts with
  | Some (before, after) =>
      t ← scan_ready after;
      if t =? 0 then scan_ready before else mret t
  | None =>
      t ← scan_ready [current];
      if t =? 0 then spin else mret t
  end.

(** ** The deferred switch *)

Definition request_switch_context (old next : Z) : M kernel unit :=
  if (old =? 0) || (next =? 0) then mret tt else
  o ← get_tcb old;
  n ← get_tcb next;
  modify (set_ctx_vcb (if t_parent o =? t_parent n then 0 else t_parent n));;
  modify (set_ctx_task next).

Definition sizeof_regs : Z := 68.

(** The [ldt_reload] at its end is a function of Descriptors.v, on the state of
    the descriptor tables. *)
Definition arch_task_restore_context (context : Z) : M kernel Z :=
  if context =? 0 then mret E_INVAL else
  c ← get_tcb context;
  (if ctx_ring (t_context c) =? 0 then mret tt
   else modify (set_tss_esp0 (ctx_regs (t_context c) +u sizeof_regs)));;
  modify (set_curr_task_ctx context);;
  mret 0.

Definition arch_task_context_switch : M kernel unit :=
  v ← gets ctx_vcb;
  (if v =? 0 then mret tt else @zoom _ _ kernel_vm _ (vmm_switch v));;
  t ← gets ctx_task;
  (if t =? 0 then mret 0 else arch_task_restore_context t);;
  modify (λ k, set_ctx_task 0 (set_ctx_vcb 0 k)).

(** ** The operations *)

Definition sched_section {B} (m : M kernel B) : M kernel B :=
  l ← gets schedule_lock; irq_section l m.

(** "thread_run = next; request_switch_context(old, next)". *)
Definition switch_to (next : Z) : M kernel unit :=
  old ← gets thread_run;
  modify (set_thread_run next);;
  request_switch_context old next.

Definition thread_yield_internal : M kernel unit :=
  r ← gets thread_run;
  if r =? 0 then mret tt else
  sched_section (
    r ← gets thread_run;
    next ← find_next_runnable r;
    if next =? 0 then mret tt else switch_to next).

(** The first thread of the list with this tid. *)
Fixpoint find_tid (tid : Z) (ts : list Z) : M kernel Z :=
  match ts with
  | [] => mret 0
  | t :: ts =>
      c ← get_tcb t;
      if t_tid c =? tid then mret t else find_tid tid ts
  end.

Definition thread_block_internal (tid : Z) : M kernel unit :=
  r ← gets thread_run;
  if r =? 0 then mret tt else
  sched_section (
    ts ← gets thread_head;
    t ← find_tid tid ts;
    if t =? 0 then mret tt else
    c ← get_tcb t;
    blocked ←
      (zoom (spinlock_lock (t_sp_lock c));;
       b ← (c ← get_tcb t;
            if t_wake_pending c then upd_tcb t (tcb_wake false);; mret false
            else upd_tcb t (tcb_state TS_PENDING);; mret true);
       zoom (spinlock_unlock (t_sp_lock c));;
       mret b);
    if negb blocked then mret tt else
    r ← gets thread_run;
    if t =? r then
      next ← find_next_runnable r;
      if next =? 0 then mret tt else switch_to next
    else mret tt).

Definition thread_unblock_locked (tid : Z) : M kernel unit :=
  r ← gets thread_run;
  if r =? 0 then mret tt else
  ts ← gets thread_head;
  t ← find_tid tid ts;
  if t =? 0 then mret tt else
  c ← get_tcb t;
  zoom (spinlock_lock (t_sp_lock c));;
  b ← upd_tcb t (λ c, tcb_state TS_READY (tcb_wake true c));
  zoom (spinlock_unlock (t_sp_lock c));;
  mret b.

Definition thread_unblock_internal (tid : Z) : M kernel unit :=
  sched_section (thread_unblock_locked tid).

(** *** Whole processes *)

Fixpoint find_pid (pid : Z) (ps : list Z) : M kernel Z :=
  match ps with
  | [] => mret 0
  | p :: ps =>
      c ← get_pcb p;
      if p_pid c =? pid then mret p else find_pid pid ps
  end.

(** The loop over [proc->tcbs] of [proc_block_internal] and
    [proc_unblock_internal]. *)
Fixpoint set_states (s : thread_state) (ts : list Z) : M kernel unit :=
  match ts with
  | [] => mret tt
  | t :: ts =>
      c ← get_tcb t;
      (zoom (spinlock_lock (t_sp_lock c));;
       b ← upd_tcb t (tcb_state s);
       zoom (spinlock_unlock (t_sp_lock c));;
       mret b);;
      set_states s ts
  end.

Definition proc_set_state (ps : proc_state) (ts : thread_state) (pid : Z) : M kernel Z :=
  sched_section (
    procs ← gets proc_head;
    p ← find_pid pid procs;
    if p =? 0 then mret 0 else
    c ← get_pcb p;
    (zoom (spinlock_lock (p_sp_lock c));;
     b ← upd_pcb p (pcb_state ps);
     zoom (spinlock_unlock (p_sp_lock c));;
     mret b);;
    c ← get_pcb p;
    set_states ts (p_tcbs c);;
    mret 0).

Definition proc_block_internal (pid : Z) : M kernel Z := proc_set_state PS_PENDING TS_PENDING pid.
Definition proc_unblock_internal (pid : Z) : M kernel Z := proc_set_state PS_READY TS_READY pid.

(** *** The timer tick *)

Definition schedule_if_needed : M kernel Z :=
  r ← gets thread_run;
  next ← find_next_runnable r;
  if (next =? 0) || (next =? r) then mret E_NODEV else
  switch_to next;;
  mret 0.

Definition schedule_isr : M kernel unit :=
  n ← gets timeslice;
  let n := u32 (n + 1) in
  modify (set_timeslice n);;
  if n <? 5 then mret tt else
  modify (set_timeslice 0);;
  l ← gets schedule_lock;
  busy ← zoom (spinlock_trylock l);
  if negb (busy =? 0) then mret tt else
  r ← gets thread_run;
  (if r =? 0 then mret 0 else schedule_if_needed);;
  zoom (spinlock_unlock l);;
  mret tt.

(** *** Lookups *)

Definition thread_get_tid : M kernel Z :=
  r ← gets thread_run;
  if r =? 0 then mret (-1) else c ← get_tcb r; mret (t_tid c).
Definition thread_get_param : M kernel Z :=
  r ← gets thread_run;
  if r =? 0 then mret 0 else c ← get_tcb r; mret (t_param c).
Definition get_current_process : M kernel Z :=
  r ← gets thread_run;
  if r =? 0 then mret 0 else c ← get_tcb r; mret (t_parent c).
Definition proc_get_pid : M kernel Z :=
  r ← gets thread_run;
  if r =? 0 then mret (-1) else
  c ← get_tcb r; p ← get_pcb (t_parent c); mret (p_pid p).
Definition thread_get_by_tid (tid : Z) : M kernel Z :=
  sched_section (ts ← gets thread_head; find_tid tid ts).
Definition get_process_by_pid (pid : Z) : M kernel Z :=
  sched_section (ps ← gets proc_head; find_pid pid ps).

(** ** The invariant *)

Definition thread_free k (t : Z) : Prop :=
  ∃ c j, tcbs k !! t = Some c ∧ t_sp_lock c = Some j ∧ (k_mach k).2 !! j = Some LOCK_UNLOCKED.

Record sched_ok k (s : nat) : Prop := {
  so_lock : schedule_lock k = Some s;
  so_unlocked : (k_mach k).2 !! s = Some LOCK_UNLOCKED;
  so_distinct : ∀ t c, tcbs k !! t = Some c → t_sp_lock c ≠ Some s;
  so_threads : ∀ t, t ∈ thread_head k → t ≠ 0 ∧ thread_free k t;
  so_nodup : NoDup (thread_head k);
  so_run : thread_run k ∈ thread_head k;
  so_tids : ∀ t t' c c', t ∈ thread_head k → t' ∈ thread_head k →
    tcbs k !! t = Some c → tcbs k !! t' = Some c' → t_tid c = t_tid c' → t = t';
}.

(** ** Running the operations *)

Definition upd (t : Z) (f : tcb → tcb) k : kernel := set_tcbs (alter f t (tcbs k)) k.

Lemma alter_insert_eq (m : gmap Z tcb) f t c : m !! t = Some c → alter f t m = <[t := f c]> m.
Proof.
  intros H. apply map_eq. intros i. destruct (decide (i = t)) as [->|].
  - by rewrite lookup_alter_eq, lookup_insert_eq, H.
  - by rewrite lookup_alter_ne, lookup_insert_ne.
Qed.

Lemma upd_tcb_run t f k c : tcbs k !! t = Some c → upd_tcb t f k = Ret tt (upd t f k).
Proof.
  intros H. unfold upd_tcb. rewrite (bind_Ret _ _ _ c k) by (by apply deref_Some).
  unfold modify, upd. by rewrite (alter_insert_eq _ _ _ c).
Qed.

Lemma upd_lookup t f k t' : tcbs (upd t f k) !! t' = if decide (t = t') then f <$> tcbs k !! t' else tcbs k !! t'.
Proof.
  unfold upd. simpl. case_decide as E; [subst; apply lookup_alter_eq|by apply lookup_alter_ne].
Qed.

(** A thread's own critical section. *)
Lemma thread_bracket {B} k t c j (m : M kernel B) b f :
  tcbs k !! t = Some c → t_sp_lock c = Some j → (k_mach k).2 !! j = Some LOCK_UNLOCKED →
  m (hold j k) = Ret b (upd t f (hold j k)) →
  (zoom (spinlock_lock (t_sp_lock c));; b ← m; zoom (spinlock_unlock (t_sp_lock c));; mret b) k
  = Ret b (upd t f k).
Proof.
  intros Hc Hj Hu Hm. rewrite Hj.
  etrans; [by eapply (kernel_with_lock j k); [|exact Hm|]|]. by destruct k.
Qed.

Lemma upd_id t k : upd t id k = k.
Proof.
  unfold upd. replace (alter id t (tcbs k)) with (tcbs k); [by destruct k|].
  apply map_eq. intros i. destruct (decide (i = t)) as [->|].
  - rewrite lookup_alter_eq. by destruct (tcbs k !! t).
  - by rewrite lookup_alter_ne.
Qed.

Definition ready k (t : Z) : bool :=
  match tcbs k !! t with Some c => bool_decide (t_state c = TS_READY) | None => false end.

(** The chosen thread, its wake-up consumed. *)
Definition choose (o : option Z) k : kernel :=
  match o with Some t => upd t (tcb_wake false) k | None => k end.

Lemma scan_ready_run k ts :
  (∀ t, t ∈ ts → thread_free k t) →
  scan_ready ts k = Ret (default 0 (List.find (ready k) ts)) (choose (List.find (ready k) ts) k).
Proof.
  induction ts as [|t ts IH]; intros Hf; [done|]. cbn [scan_ready List.find].
  destruct (Hf t ltac:(left)) as (c & j & Hc & Hj & Hu).
  rewrite (bind_Ret _ _ _ c k) by (by apply deref_Some).
  unfold ready at 1 3. rewrite Hc.
  destruct (decide (t_state c = TS_READY)) as [Hr|Hr].
  - rewrite bool_decide_eq_true_2 by done.
    erewrite bind_Ret; [|apply (thread_bracket k t c j _ true (tcb_wake false)); [done..|]].
    + done.
    + rewrite (bind_Ret _ _ _ c (hold j k)) by (by apply deref_Some). rewrite decide_True by done.
      by rewrite (bind_Ret _ _ _ _ _ (upd_tcb_run t _ (hold j k) c Hc)).
  - rewrite bool_decide_eq_false_2 by done.
    erewrite bind_Ret; [|apply (thread_bracket k t c j _ false id); [done..|]].
    + rewrite upd_id. apply IH. intros t' Ht'. apply Hf. by right.
    + rewrite (bind_Ret _ _ _ c (hold j k)) by (by apply deref_Some). rewrite decide_False by done.
      by rewrite upd_id.
Qed.

Lemma cut_at_app x l : x ∈ l → ∃ l1 l2, cut_at x l = Some (l1, l2) ∧ l = l1 ++ x :: l2 ∧ x ∉ l1.
Proof.
  induction l as [|y l IH]; [by rewrite elem_of_nil|]. intros Hin. simpl.
  destruct (Z.eqb_spec y x) as [->|Hne].
  - exists [], l. split_and!; [done..|]. apply not_elem_of_nil.
  - apply elem_of_cons in Hin as [->|Hin]; [done|].
    destruct (IH Hin) as (l1 & l2 & E & -> & Hx). exists (y :: l1), l2. rewrite E.
    split_and!; [done..|]. apply not_elem_of_cons. done.
Qed.

(** The threads after [r] round the list, [r] left out. *)
Definition others k (r : Z) : list Z :=
  match cut_at r (thread_head k) with Some (l1, l2) => l2 ++ l1 | None => [] end.

Definition next_ready k (r : Z) : option Z := List.find (ready k) (others k r).

Lemma others_elem k r t : r ∈ thread_head k → NoDup (thread_head k) →
  t ∈ others k r ↔ t ∈ thread_head k ∧ t ≠ r.
Proof.
  intros Hr Hnd. unfold others. destruct (cut_at_app r _ Hr) as (l1 & l2 & -> & E & _).
  rewrite E in Hnd |- *. apply NoDup_app in Hnd as (_ & Hd & [Hx _]%NoDup_cons).
  rewrite !elem_of_app, elem_of_cons. split; [|tauto].
  intros [H|H]; (split; [tauto|]); intros ->; [done|]. apply (Hd r H). left.
Qed.

Lemma find_app {B} (f : B → bool) l1 l2 :
  List.find f (l1 ++ l2) = match List.find f l1 with Some x => Some x | None => List.find f l2 end.
Proof. induction l1 as [|x l1 IH]; simpl; [done|]. by destruct (f x). Qed.

Lemma find_next_runnable_run k r :
  r ∈ thread_head k → (∀ t, t ∈ thread_head k → t ≠ 0 ∧ thread_free k t) →
  find_next_runnable r k = Ret (default 0 (next_ready k r)) (choose (next_ready k r) k).
Proof.
  intros Hr Hf. unfold find_next_runnable. destruct (Hf r Hr) as [Hnz _].
  rewrite (proj2 (Z.eqb_neq _ _) Hnz), (bind_Ret _ _ _ (thread_head k) k) by done.
  unfold next_ready, others.
  destruct (cut_at_app r _ Hr) as (l1 & l2 & -> & E & _). rewrite E in Hf.
  rewrite find_app.
  rewrite (bind_Ret _ _ _ _ _ (scan_ready_run k l2 ltac:(intros t Ht; apply Hf, elem_of_app; right; by right))).
  destruct (List.find (ready k) l2) as [t|] eqn:Ef; cbn [default from_option id choose].
  - apply List.find_some in Ef as [Hin%list_elem_of_In _].
    destruct (Hf t) as [Ht _]; [apply elem_of_app; right; by right|].
    by rewrite (proj2 (Z.eqb_neq _ _) Ht).
  - change (0 =? 0) with true. cbv iota.
    apply scan_ready_run. intros t Ht. apply Hf, elem_of_app. by left.
Qed.

Definition parent k (t : Z) : Z := default 0 (t_parent <$> tcbs k !! t).

(** [thread_run] is now [n] and the switch to it is requested. *)
Definition switched (n : Z) k : kernel :=
  set_ctx_task n (set_ctx_vcb (if parent k (thread_run k) =? parent k n then 0 else parent k n)
    (set_thread_run n k)).

Lemma switch_to_run n k o c :
  tcbs k !! thread_run k = Some o → tcbs k !! n = Some c → thread_run k ≠ 0 → n ≠ 0 →
  switch_to n k = Ret tt (switched n k).
Proof.
  intros Ho Hc Hr Hn. unfold switch_to. rewrite (bind_Ret _ _ _ (thread_run k) k) by done.
  rewrite (bind_Ret _ _ _ tt (set_thread_run n k)) by done.
  unfold request_switch_context.
  replace ((thread_run k =? 0) || (n =? 0)) with false by (symmetry; lia).
  rewrite (bind_Ret _ _ _ o (set_thread_run n k)) by (by apply deref_Some).
  rewrite (bind_Ret _ _ _ c (set_thread_run n k)) by (by apply deref_Some).
  unfold switched, parent. by rewrite Ho, Hc.
Qed.

(** The state once a thread other than [thread_run] has been looked for and,
    if there is one, switched to. *)
Definition rescheduled k : kernel :=
  match next_ready k (thread_run k) with
  | Some n => switched n (choose (Some n) k)
  | None => k
  end.

Lemma next_ready_Some k r n :
  next_ready k r = Some n → r ∈ thread_head k → NoDup (thread_head k) →
  n ∈ thread_head k ∧ n ≠ r ∧ ready k n = true.
Proof.
  intros Hf Hr Hnd. apply List.find_some in Hf as [Hin%list_elem_of_In Hn].
  apply others_elem in Hin; tauto.
Qed.

Lemma reschedule_run k :
  thread_run k ∈ thread_head k → NoDup (thread_head k) →
  (∀ t, t ∈ thread_head k → t ≠ 0 ∧ thread_free k t) →
  (r ← gets thread_run; next ← find_next_runnable r;
   if next =? 0 then mret tt else switch_to next) k = Ret tt (rescheduled k).
Proof.
  intros Hr Hnd Hf. rewrite (bind_Ret _ _ _ (thread_run k) k) by done.
  rewrite (bind_Ret _ _ _ _ _ (find_next_runnable_run k _ Hr Hf)). unfold rescheduled.
  destruct (next_ready k (thread_run k)) as [n|] eqn:En; cbn [default from_option id]; [|done].
  destruct (next_ready_Some _ _ _ En Hr Hnd) as (Hn & Hne & _).
  destruct (Hf n Hn) as [Hnz (c & j & Hc & _)]. destruct (Hf _ Hr) as [Hrz (o & j' & Ho & _)].
  rewrite (proj2 (Z.eqb_neq _ _) Hnz).
  apply (switch_to_run n _ o (tcb_wake false c)); try done; unfold choose; rewrite upd_lookup.
  - by rewrite decide_False by done.
  - by rewrite decide_True, Hc by done.
Qed.

Lemma reschedule_run_eq k :
  thread_run k ∈ thread_head k → NoDup (thread_head k) →
  (∀ t, t ∈ thread_head k → t ≠ 0 ∧ thread_free k t) →
  (r ← gets thread_run;
   if thread_run k =? r then
     next ← find_next_runnable r;
     if next =? 0 then mret tt else switch_to next
   else mret tt) k = Ret tt (rescheduled k).
Proof.
  intros Hr Hnd Hf. rewrite (bind_Ret _ _ _ (thread_run k) k), Z.eqb_refl by done.
  etrans; [|exact (reschedule_run k Hr Hnd Hf)].
  by rewrite (bind_Ret (gets thread_run) _ k (thread_run k) k).
Qed.

(** Under [schedule_lock] the threads' own locks are still free. *)
Lemma thread_free_locked k s t m :
  sched_ok k s → t ∈ thread_head k →
  thread_free (set_k_mach (m, <[s := LOCK_LOCKED]> (k_mach k).2) k) t.
Proof.
  intros Hok Ht. destruct (so_threads _ _ Hok t Ht) as [_ (c & j & Hc & Hj & Hu)].
  exists c, j. split_and!; [done..|]. simpl. rewrite list_lookup_insert_ne; [done|].
  intros ->. by apply (so_distinct _ _ Hok t c).
Qed.

Lemma thread_free_hold k s t : sched_ok k s → t ∈ thread_head k → thread_free (hold_irq s k) t.
Proof. apply thread_free_locked. Qed.

Lemma sched_section_run {B} k s (m : M kernel B) b k1 :
  sched_ok k s → m (hold_irq s k) = Ret b k1 → k_mach k1 = k_mach (hold_irq s k) →
  sched_section m k = Ret b (set_k_mach (k_mach k) k1).
Proof.
  intros Hok Hm Hk. unfold sched_section. rewrite (bind_Ret _ _ _ (Some s) k)
    by (unfold gets; by rewrite (so_lock _ _ Hok)).
  apply irq_section_run; [apply Hok|done..].
Qed.

Lemma run_nonzero k s : sched_ok k s → thread_run k ≠ 0.
Proof. intros Hok. by destruct (so_threads _ _ Hok _ (so_run _ _ Hok)). Qed.

Lemma rescheduled_mach k m : set_k_mach (k_mach k) (rescheduled (set_k_mach m k)) = rescheduled k.
Proof.
  unfold rescheduled. change (next_ready (set_k_mach m k) (thread_run (set_k_mach m k)))
    with (next_ready k (thread_run k)). destruct (next_ready k _); by destruct k.
Qed.

Lemma thread_yield_run k s : sched_ok k s → thread_yield_internal k = Ret tt (rescheduled k).
Proof.
  intros Hok. unfold thread_yield_internal.
  rewrite (bind_Ret _ _ _ (thread_run k) k), (proj2 (Z.eqb_neq _ _) (run_nonzero _ _ Hok)) by done.
  etrans; [eapply (sched_section_run k s); [done| |]|].
  - apply (reschedule_run (hold_irq s k)); try apply Hok. intros t Ht.
    split; [by apply Hok|by apply thread_free_hold].
  - unfold rescheduled. by destruct (next_ready _ _).
  - f_equal. apply rescheduled_mach.
Qed.

(** The thread with a given tid. *)
Definition by_tid k (tid : Z) : option Z :=
  List.find (λ t, match tcbs k !! t with Some c => t_tid c =? tid | None => false end)
    (thread_head k).

Lemma find_tid_run k tid ts :
  (∀ t, t ∈ ts → is_Some (tcbs k !! t)) →
  find_tid tid ts k
  = Ret (default 0 (List.find (λ t, match tcbs k !! t with
                                    | Some c => t_tid c =? tid | None => false end) ts)) k.
Proof.
  induction ts as [|t ts IH]; intros Hs; [done|]. cbn [find_tid List.find].
  destruct (Hs t ltac:(left)) as [c Hc].
  rewrite (bind_Ret _ _ _ c k), Hc by (by apply deref_Some).
  destruct (t_tid c =? tid); [done|]. apply IH. intros t' Ht'. apply Hs. by right.
Qed.

Lemma by_tid_Some k s tid t :
  sched_ok k s → by_tid k tid = Some t →
  t ∈ thread_head k ∧ t ≠ 0 ∧ ∃ c, tcbs k !! t = Some c ∧ t_tid c = tid.
Proof.
  intros Hok Hf. apply List.find_some in Hf as [Hin%list_elem_of_In Ht].
  destruct (so_threads _ _ Hok t Hin) as [Hnz (c & j & Hc & _)]. rewrite Hc in Ht.
  split_and!; [done..|]. exists c. split; [done|]. lia.
Qed.

Lemma thread_is_some k s t : sched_ok k s → t ∈ thread_head k → is_Some (tcbs k !! t).
Proof. intros Hok Ht. destruct (so_threads _ _ Hok t Ht) as [_ (c & j & Hc & _)]. by exists c. Qed.

Lemma thread_get_by_tid_run k s tid :
  sched_ok k s → thread_get_by_tid tid k = Ret (default 0 (by_tid k tid)) k.
Proof.
  intros Hok. etrans; [eapply (sched_section_run k s); [done| |]|].
  - rewrite (bind_Ret _ _ _ (thread_head k) (hold_irq s k)) by done.
    apply find_tid_run. intros t Ht. exact (thread_is_some k s t Hok Ht).
  - done.
  - by rewrite hold_irq_id.
Qed.

Definition woken (c : tcb) : tcb := tcb_state TS_READY (tcb_wake true c).

Definition unblocked (tid : Z) k : kernel :=
  match by_tid k tid with Some t => upd t woken k | None => k end.

(** The lock held by the caller is any lock but the threads' own. *)
Lemma thread_unblock_locked_run k s tid :
  sched_ok k s → thread_unblock_locked tid (hold_irq s k) = Ret tt (unblocked tid (hold_irq s k)).
Proof.
  intros Hok. unfold thread_unblock_locked.
  rewrite (bind_Ret _ _ _ (thread_run k) (hold_irq s k)) by done.
  rewrite (proj2 (Z.eqb_neq _ _) (run_nonzero _ _ Hok)).
  rewrite (bind_Ret _ _ _ (thread_head k) (hold_irq s k)) by done.
  erewrite bind_Ret by (apply find_tid_run; intros t Ht; exact (thread_is_some k s t Hok Ht)).
  change (List.find _ (thread_head k)) with (by_tid k tid). unfold unblocked.
  change (by_tid (hold_irq s k) tid) with (by_tid k tid).
  destruct (by_tid k tid) as [t|] eqn:Et; cbn [default from_option id]; [|done].
  destruct (by_tid_Some _ _ _ _ Hok Et) as (Hin & Hnz & _).
  rewrite (proj2 (Z.eqb_neq _ _) Hnz).
  destruct (thread_free_hold _ _ _ Hok Hin) as (c & j & Hc & Hj & Hu).
  rewrite (bind_Ret _ _ _ c (hold_irq s k)) by (by apply deref_Some).
  apply (thread_bracket _ t c j); [done..|]. by apply (upd_tcb_run t _ _ c).
Qed.

Lemma thread_unblock_run k s tid :
  sched_ok k s → thread_unblock_internal tid k = Ret tt (unblocked tid k).
Proof.
  intros Hok. etrans; [eapply (sched_section_run k s); [done|by apply thread_unblock_locked_run|]|].
  - unfold unblocked. by destruct (by_tid _ _).
  - unfold unblocked. change (by_tid (hold_irq s k) tid) with (by_tid k tid).
    destruct (by_tid k tid); by destruct k.
Qed.

Definition blocked (tid : Z) k : kernel :=
  match by_tid k tid with
  | None => k
  | Some t =>
      if default false (t_wake_pending <$> tcbs k !! t) then upd t (tcb_wake false) k
      else let k' := upd t (tcb_state TS_PENDING) k in
           if t =? thread_run k then rescheduled k' else k'
  end.

Lemma upd_free t f k t' :
  (∀ c, t_sp_lock (f c) = t_sp_lock c) → thread_free k t' → thread_free (upd t f k) t'.
Proof.
  intros Hf (c & j & Hc & Hj & Hu). unfold thread_free. rewrite upd_lookup.
  case_decide; [|by exists c, j]. exists (f c), j. rewrite Hc, Hf. done.
Qed.

Lemma thread_block_run k s tid :
  sched_ok k s → thread_block_internal tid k = Ret tt (blocked tid k).
Proof.
  intros Hok. unfold thread_block_internal.
  rewrite (bind_Ret _ _ _ (thread_run k) k), (proj2 (Z.eqb_neq _ _) (run_nonzero _ _ Hok)) by done.
  etrans; [eapply (sched_section_run k s) with (k1 := blocked tid (hold_irq s k)); [done| |]|].
  - rewrite (bind_Ret _ _ _ (thread_head k) (hold_irq s k)) by done.
    erewrite bind_Ret by (apply find_tid_run; intros t Ht; exact (thread_is_some k s t Hok Ht)).
    change (List.find _ (thread_head k)) with (by_tid k tid). unfold blocked.
    change (by_tid (hold_irq s k) tid) with (by_tid k tid).
    destruct (by_tid k tid) as [t|] eqn:Et; cbn [default from_option id]; [|done].
    destruct (by_tid_Some _ _ _ _ Hok Et) as (Hin & Hnz & _).
    rewrite (proj2 (Z.eqb_neq _ _) Hnz).
    destruct (thread_free_hold _ _ _ Hok Hin) as (c & j & Hc & Hj & Hu).
    rewrite (bind_Ret _ _ _ c (hold_irq s k)), Hc by (by apply deref_Some).
    cbn [fmap option_fmap option_map from_option id]. destruct (t_wake_pending c) eqn:Ew.
    + erewrite bind_Ret; [|apply (thread_bracket _ t c j _ false (tcb_wake false)); [done..|]].
      * done.
      * rewrite (bind_Ret _ _ _ c (hold j (hold_irq s k))), Ew by (by apply deref_Some).
        by rewrite (bind_Ret _ _ _ _ _ (upd_tcb_run t _ (hold j (hold_irq s k)) c Hc)).
    + erewrite bind_Ret; [|apply (thread_bracket _ t c j _ true (tcb_state TS_PENDING)); [done..|]].
      * cbn [negb]. destruct (Z.eqb_spec t (thread_run (hold_irq s k))) as [->|Hne].
        -- apply (reschedule_run_eq (upd (thread_run (hold_irq s k)) (tcb_state TS_PENDING) (hold_irq s k)));
             [apply Hok|apply Hok|]. intros t' Ht'. split; [by apply Hok|].
           apply upd_free; [done|]. by apply thread_free_hold.
        -- rewrite (bind_Ret _ _ _ (thread_run k) (upd t (tcb_state TS_PENDING) (hold_irq s k))) by done.
           by rewrite (proj2 (Z.eqb_neq t (thread_run k)) Hne).
      * rewrite (bind_Ret _ _ _ c (hold j (hold_irq s k))), Ew by (by apply deref_Some).
        by rewrite (bind_Ret _ _ _ _ _ (upd_tcb_run t _ (hold j (hold_irq s k)) c Hc)).
  - unfold blocked. destruct (by_tid _ _) as [t|]; [|done].
    destruct (default _ _); [done|]. destruct (_ =? _); [|done].
    unfold rescheduled. by destruct (next_ready _ _).
  - unfold blocked. change (by_tid (hold_irq s k) tid) with (by_tid k tid).
    change (tcbs (hold_irq s k)) with (tcbs k).
    destruct (by_tid k tid) as [t|]; [|by rewrite hold_irq_id].
    destruct (default _ _); [by destruct k|].
    change (thread_run (hold_irq s k)) with (thread_run k).
    destruct (t =? thread_run k); [|by destruct k].
    f_equal. apply (rescheduled_mach (upd t (tcb_state TS_PENDING) k)).
Qed.

(** ** The invariant is kept *)

Definition keeps_identity (f : tcb → tcb) : Prop :=
  ∀ c, t_sp_lock (f c) = t_sp_lock c ∧ t_tid (f c) = t_tid c.

Lemma upd_lookup_Some t f k t' c' :
  tcbs (upd t f k) !! t' = Some c' →
  ∃ c, tcbs k !! t' = Some c ∧ (c' = c ∨ c' = f c).
Proof.
  rewrite upd_lookup. case_decide; [|by exists c'; auto].
  destruct (tcbs k !! t') as [c|]; [|done]. intros [= <-]. exists c. auto.
Qed.

Lemma sched_ok_upd k s t f : keeps_identity f → sched_ok k s → sched_ok (upd t f k) s.
Proof.
  intros Hf [H1 H2 H3 H4 H5 H6 H7]. split; try done.
  - intros t' c' Hc'. destruct (upd_lookup_Some _ _ _ _ _ Hc') as (c & Hc & [->| ->]);
      [by apply (H3 t')|]. rewrite (proj1 (Hf c)). by apply (H3 t').
  - intros t' Ht'. destruct (H4 t' Ht') as [Hnz Hfr]. split; [done|].
    apply upd_free; [|done]. intros c. apply Hf.
  - intros t1 t2 c1 c2 Ht1 Ht2 Hc1 Hc2 Heq.
    destruct (upd_lookup_Some _ _ _ _ _ Hc1) as (d1 & Hd1 & E1).
    destruct (upd_lookup_Some _ _ _ _ _ Hc2) as (d2 & Hd2 & E2).
    apply (H7 t1 t2 d1 d2); [done..|].
    destruct E1 as [->| ->], E2 as [->| ->];
      rewrite ?(proj2 (Hf d1)), ?(proj2 (Hf d2)) in Heq; done.
Qed.

Lemma sched_ok_switched k s n : n ∈ thread_head k → sched_ok k s → sched_ok (switched n k) s.
Proof. intros Hn []. by split. Qed.

Lemma keeps_wake b : keeps_identity (tcb_wake b).
Proof. done. Qed.
Lemma keeps_state st : keeps_identity (tcb_state st).
Proof. done. Qed.
Lemma keeps_woken : keeps_identity woken.
Proof. done. Qed.
#[local] Hint Resolve keeps_wake keeps_state keeps_woken sched_ok_upd : kern.

Lemma sched_ok_rescheduled k s : sched_ok k s → sched_ok (rescheduled k) s.
Proof.
  intros Hok. unfold rescheduled. destruct (next_ready k (thread_run k)) as [n|] eqn:En; [|done].
  destruct (next_ready_Some _ _ _ En (so_run _ _ Hok) (so_nodup _ _ Hok)) as (Hn & _).
  apply sched_ok_switched; [done|]. unfold choose. auto with kern.
Qed.

Lemma sched_ok_unblocked k s tid : sched_ok k s → sched_ok (unblocked tid k) s.
Proof. intros Hok. unfold unblocked. destruct (by_tid k tid); auto with kern. Qed.

Lemma sched_ok_blocked k s tid : sched_ok k s → sched_ok (blocked tid k) s.
Proof.
  intros Hok. unfold blocked. destruct (by_tid k tid) as [t|]; [|done].
  destruct (default _ _); [auto with kern|]. destruct (_ =? _); auto using sched_ok_rescheduled with kern.
Qed.

Lemma rescheduled_thread k t c :
  tcbs k !! t = Some c → t ∈ thread_head k →
  ∃ d, tcbs (rescheduled k) !! t = Some d ∧ t_tid d = t_tid c ∧ t ∈ thread_head (rescheduled k).
Proof.
  intros Hc Hin. unfold rescheduled. destruct (next_ready k _) as [n|]; [|by exists c].
  change (tcbs (switched n (choose (Some n) k))) with (tcbs (upd n (tcb_wake false) k)).
  rewrite upd_lookup. case_decide; [|by exists c]. rewrite Hc. by eexists.
Qed.

Lemma blocked_thread k tid t c :
  tcbs k !! t = Some c → t ∈ thread_head k →
  ∃ d, tcbs (blocked tid k) !! t = Some d ∧ t_tid d = t_tid c ∧ t ∈ thread_head (blocked tid k).
Proof.
  intros Hc Hin. unfold blocked. destruct (by_tid k tid) as [n|]; [|by exists c].
  assert (∀ f, keeps_identity f → ∃ d, tcbs (upd n f k) !! t = Some d ∧ t_tid d = t_tid c) as Hupd.
  { intros f Hf. rewrite upd_lookup. case_decide; [|by exists c]. rewrite Hc. eexists.
    split; [done|]. apply Hf. }
  destruct (default _ _).
  - destruct (Hupd (tcb_wake false)) as (d & Hd & Hdt); [done|]. by exists d.
  - destruct (Hupd (tcb_state TS_PENDING)) as (d & Hd & Hdt); [done|].
    destruct (_ =? _); [|by exists d].
    destruct (rescheduled_thread _ _ _ Hd Hin) as (d' & H1 & H2 & H3).
    exists d'. split_and!; [done|congruence|done].
Qed.

(** ** Rotation *)

Lemma cut_at_mid (l1 l2 : list Z) x : x ∉ l1 → cut_at x (l1 ++ x :: l2) = Some (l1, l2).
Proof.
  induction l1 as [|y l1 IH]; simpl; intros Hx; [by rewrite Z.eqb_refl|].
  apply not_elem_of_cons in Hx as [Hne Hx].
  rewrite (proj2 (Z.eqb_neq _ _)) by congruence. by rewrite IH.
Qed.

(** Moving on to [n], which is [u] steps away, puts [u] at the back. *)
Lemma rotate k r n u v :
  NoDup (thread_head k) → r ∈ thread_head k → others k r = u ++ n :: v →
  others k n = v ++ r :: u.
Proof.
  unfold others. intros Hnd Hr. destruct (cut_at_app r _ Hr) as (l1 & l2 & -> & E & Hx).
  rewrite E in Hnd |- *. intros Hrot.
  apply app_eq_app in Hrot as (w & [[-> Hw]|[-> Hw]]).
  - destruct w as [|y w].
    + simpl in Hw. subst l1. rewrite app_nil_r in *. simpl.
      by rewrite Z.eqb_refl, app_nil_r.
    + injection Hw as <- ->.
      replace (l1 ++ r :: u ++ n :: w) with ((l1 ++ r :: u) ++ n :: w) in * by (by rewrite <- app_assoc).
      rewrite cut_at_mid; [by rewrite <- app_assoc|].
      apply NoDup_app in Hnd as (_ & Hd & _). intros Hin. apply (Hd n Hin). left.
  - subst l1. rewrite <- app_assoc in Hnd |- *. simpl. rewrite cut_at_mid; [by rewrite <- app_assoc|].
    apply NoDup_app in Hnd as (_ & Hd & _).
    intros Hin. apply (Hd n Hin). left.
Qed.

Lemma ready_choose k o t : ready (choose o k) t = ready k t.
Proof.
  destruct o as [n|]; [|done]. unfold choose, ready. rewrite upd_lookup.
  case_decide; [|done]. by destruct (tcbs k !! t).
Qed.

Lemma rescheduled_ready k t : ready (rescheduled k) t = ready k t.
Proof.
  unfold rescheduled. destruct (next_ready k _) as [n|]; [|done].
  exact (ready_choose k (Some n) t).
Qed.

Lemma rescheduled_head k : thread_head (rescheduled k) = thread_head k.
Proof. unfold rescheduled. by destruct (next_ready k _). Qed.

Lemma find_split_first {B} (f : B → bool) l1 x l2 :
  f x = true → ∃ l1' y l2', List.find f (l1 ++ x :: l2) = Some y ∧ l1 ++ x :: l2 = l1' ++ y :: l2' ∧
    (y = x ∨ ∃ m, l1 = l1' ++ y :: m ∧ l2' = m ++ x :: l2).
Proof.
  intros Hx. induction l1 as [|z l1 IH]; simpl.
  - rewrite Hx. exists [], x, l2. auto.
  - destruct (f z).
    + exists [], z, (l1 ++ x :: l2). split_and!; [done..|]. right. by exists l1.
    + destruct IH as (l1' & y & l2' & Hf & Heq & Hcase). exists (z :: l1'), y, l2'.
      split_and!; [done|simpl; by rewrite Heq|].
      destruct Hcase as [->|(m & -> & ->)]; [by left|right; by exists m].
Qed.

Fixpoint yields (n : nat) : M kernel unit :=
  match n with O => mret tt | S n => thread_yield_internal;; yields n end.

(** A ready thread [d] places away runs after at most [d + 1] yields. *)
Lemma yields_reach s d : ∀ k t u v,
  sched_ok k s → others k (thread_run k) = u ++ t :: v → length u = d → ready k t = true →
  ∃ n k', (n <= S d)%nat ∧ yields n k = Ret tt k' ∧ thread_run k' = t ∧ sched_ok k' s.
Proof.
  induction d as [d IH] using lt_wf_ind. intros k t u v Hok Hoth Hd Ht.
  destruct (find_split_first (ready k) u t v Ht) as (u' & y & v' & Hf & Heq & Hcase).
  rewrite <- Hoth in Hf. change (next_ready k (thread_run k) = Some y) in Hf.
  pose proof (thread_yield_run k s Hok) as Hy. pose proof (sched_ok_rescheduled k s Hok) as Hok'.
  assert (thread_run (rescheduled k) = y) as Hrun by (unfold rescheduled; by rewrite Hf).
  destruct Hcase as [->|(m & -> & ->)].
  - exists 1%nat, (rescheduled k). split_and!; [lia| |done|done].
    cbn [yields]. by rewrite (bind_Ret _ _ _ _ _ Hy).
  - rewrite length_app in Hd. simpl in Hd.
    destruct (IH (length m) ltac:(lia) (rescheduled k) t m (v ++ thread_run k :: u'))
      as (n & k' & Hn & Hyn & Hr & Hok2); [done| |done| |].
    + rewrite Hrun. unfold others. rewrite rescheduled_head.
      change (others k y = m ++ t :: v ++ thread_run k :: u').
      rewrite (rotate k (thread_run k) y u' (m ++ t :: v)); [by rewrite <- app_assoc|apply Hok|apply Hok|].
      by rewrite Hoth, Heq.
    + by rewrite rescheduled_ready.
    + exists (S n), k'. split_and!; [lia| |done|done].
      cbn [yields]. by rewrite (bind_Ret _ _ _ _ _ Hy).
Qed.

(** ** Whole processes *)

Definition procs_ok k (s : nat) : Prop := ∀ p, p ∈ proc_head k →
  p ≠ 0 ∧ ∃ c j, pcbs k !! p = Some c ∧ p_sp_lock c = Some j ∧
    (k_mach k).2 !! j = Some LOCK_UNLOCKED ∧ j ≠ s ∧ ∀ t, t ∈ p_tcbs c → t ∈ thread_head k.

Definition by_pid k (pid : Z) : option Z :=
  List.find (λ p, match pcbs k !! p with Some c => p_pid c =? pid | None => false end)
    (proc_head k).

Lemma find_pid_run k pid ps :
  (∀ p, p ∈ ps → is_Some (pcbs k !! p)) →
  find_pid pid ps k
  = Ret (default 0 (List.find (λ p, match pcbs k !! p with
                                    | Some c => p_pid c =? pid | None => false end) ps)) k.
Proof.
  induction ps as [|p ps IH]; intros Hs; [done|]. cbn [find_pid List.find].
  destruct (Hs p ltac:(left)) as [c Hc].
  rewrite (bind_Ret _ _ _ c k), Hc by (by apply deref_Some).
  destruct (p_pid c =? pid); [done|]. apply IH. intros p' Hp'. apply Hs. by right.
Qed.

Definition upd_all (st : thread_state) (ts : list Z) k : kernel :=
  foldl (λ k t, upd t (tcb_state st) k) k ts.

Lemma upd_all_fields st ts k :
  thread_head (upd_all st ts k) = thread_head k ∧ k_mach (upd_all st ts k) = k_mach k ∧
  (∀ t, tcbs (upd_all st ts k) !! t
        = if decide (t ∈ ts) then tcb_state st <$> tcbs k !! t else tcbs k !! t).
Proof.
  revert k. induction ts as [|t ts IH]; intros k; [split_and!; [done..|]; intros t;
    by rewrite decide_False by apply not_elem_of_nil|].
  destruct (IH (upd t (tcb_state st) k)) as (H1 & H2 & H3). cbn [upd_all foldl].
  split_and!; [done..|]. intros t'. fold (upd_all st ts (upd t (tcb_state st) k)).
  rewrite H3, upd_lookup. destruct (decide (t' ∈ t :: ts)) as [Hin|Hnin].
  - destruct (decide (t' ∈ ts)) as [Hin'|Hnin'].
    + case_decide; [|done]. by destruct (tcbs k !! t').
    + rewrite decide_True; [done|]. apply elem_of_cons in Hin as [->|?]; done.
  - apply not_elem_of_cons in Hnin as [Hne Hnin]. by rewrite !decide_False by congruence.
Qed.

Lemma set_states_run st ts k :
  (∀ t, t ∈ ts → thread_free k t) → set_states st ts k = Ret tt (upd_all st ts k).
Proof.
  revert k. induction ts as [|t ts IH]; intros k Hf; [done|]. cbn [set_states upd_all foldl].
  destruct (Hf t ltac:(left)) as (c & j & Hc & Hj & Hu).
  rewrite (bind_Ret _ _ _ c k) by (by apply deref_Some).
  erewrite bind_Ret; [|apply (thread_bracket k t c j _ tt (tcb_state st)); [done..|];
                       by apply (upd_tcb_run t _ (hold j k) c)].
  apply IH. intros t' Ht'. apply upd_free; [done|]. apply Hf. by right.
Qed.

Lemma proc_set_state_run k s ps st pid :
  sched_ok k s → procs_ok k s →
  match by_pid k pid with
  | None => proc_set_state ps st pid k = Ret 0 k
  | Some p => ∃ c, pcbs k !! p = Some c ∧ p_pid c = pid ∧
      proc_set_state ps st pid k
      = Ret 0 (upd_all st (p_tcbs c) (set_pcbs (<[p := pcb_state ps c]> (pcbs k)) k))
  end.
Proof.
  intros Hok Hps.
  assert (∀ p, p ∈ proc_head k → is_Some (pcbs k !! p)) as Hsome.
  { intros p Hp. destruct (Hps p Hp) as [_ (c & j & Hc & _)]. by exists c. }
  destruct (by_pid k pid) as [p|] eqn:Ep.
  - pose proof Ep as Hf. apply List.find_some in Hf as [Hin%list_elem_of_In Hpid].
    destruct (Hps p Hin) as [Hnz (c & j & Hc & Hj & Hu & Hjs & Hts)]. rewrite Hc in Hpid.
    exists c. split_and!; [done|lia|].
    set (k1 := set_pcbs (<[p := pcb_state ps c]> (pcbs k)) k).
    etrans; [eapply (sched_section_run k s) with
      (k1 := upd_all st (p_tcbs c) (set_k_mach (k_mach (hold_irq s k)) k1)); [done| |]|].
    + rewrite (bind_Ret _ _ _ (proc_head k) (hold_irq s k)) by done.
      erewrite bind_Ret by (by apply find_pid_run).
      change (List.find _ (proc_head k)) with (by_pid k pid). rewrite Ep. cbn [default from_option id].
      rewrite (proj2 (Z.eqb_neq _ _) Hnz).
      rewrite (bind_Ret _ _ _ c (hold_irq s k)), Hj by (by apply deref_Some).
      assert ((k_mach (hold_irq s k)).2 !! j = Some LOCK_UNLOCKED) as Hu2
        by (simpl; by rewrite list_lookup_insert_ne).
      erewrite bind_Ret.
      2: { eapply (kernel_with_lock j (hold_irq s k)); [done| |].
           - unfold upd_pcb. rewrite (bind_Ret _ _ _ c (hold j (hold_irq s k))) by (by apply deref_Some).
             reflexivity.
           - done. }
      set (k2 := set_k_mach _ _).
      assert (k2 = set_k_mach (k_mach (hold_irq s k)) k1) as -> by (by destruct k).
      rewrite (bind_Ret _ _ _ (pcb_state ps c) (set_k_mach (k_mach (hold_irq s k)) k1))
        by (apply deref_Some, lookup_insert_eq).
      cbn [p_tcbs pcb_state].
      erewrite bind_Ret; [done|]. apply set_states_run. intros t Ht.
      exact (thread_free_hold k s t Hok (Hts t Ht)).
    + by destruct (upd_all_fields st (p_tcbs c) (set_k_mach (k_mach (hold_irq s k)) k1)) as (_ & -> & _).
    + f_equal. assert (∀ ts k m, set_k_mach (k_mach k) (upd_all st ts (set_k_mach m k)) = upd_all st ts k) as H.
      { clear. induction ts as [|t ts IH]; intros k m; [by destruct k|]. cbn [upd_all foldl].
        apply (IH (upd t (tcb_state st) k) m). }
      apply (H (p_tcbs c) k1).
  - etrans; [eapply (sched_section_run k s); [done| |]|].
    + rewrite (bind_Ret _ _ _ (proc_head k) (hold_irq s k)) by done.
      erewrite bind_Ret by (by apply find_pid_run).
      change (List.find _ (proc_head k)) with (by_pid k pid). by rewrite Ep.
    + done.
    + by rewrite hold_irq_id.
Qed.

(** ** The commit *)

(** Nothing is pending, and the machine runs [thread_run] in the address
    space of its process. *)
Record committed k : Prop := {
  cm_idle : ctx_task k = 0 ∧ ctx_vcb k = 0;
  cm_ctx : curr_task_ctx k = thread_run k;
  cm_vm : vm_ok (k_vm k);
  cm_space : vm_current (k_vm k) = parent k (thread_run k);
}.

(** The process of every thread has an address space. *)
Definition parents_ok k : Prop := ∀ t, t ∈ thread_head k → parent k t ≠ 0 ∧ vm_has (k_vm k) (parent k t).

Lemma arch_task_restore_run k t c :
  tcbs k !! t = Some c → t ≠ 0 →
  ∃ e, arch_task_restore_context t k = Ret 0 (set_curr_task_ctx t (set_tss_esp0 e k)).
Proof.
  intros Hc Ht. unfold arch_task_restore_context. rewrite (proj2 (Z.eqb_neq _ _) Ht).
  rewrite (bind_Ret _ _ _ c k) by (by apply deref_Some).
  destruct (ctx_ring (t_context c) =? 0).
  - exists (tss_esp0 k). rewrite bind_ret. by destruct k.
  - eexists. by erewrite bind_Ret by reflexivity.
Qed.

Lemma zoom_vm {B} (m : M W B) k b w :
  m (k_vm k) = Ret b w → @zoom _ _ kernel_vm _ m k = Ret b (set_k_vm w k).
Proof. apply (zoom_Ret (Contains0 := kernel_vm)). Qed.

(** What committing changes. *)
Definition commit_frame k k' : Prop :=
  ∃ w e c, k' = set_ctx_task 0 (set_ctx_vcb 0 (set_curr_task_ctx c (set_tss_esp0 e (set_k_vm w k)))) ∧
    ∀ u, vm_has (k_vm k) u → vm_has w u.

Lemma sched_ok_frame k k' s : commit_frame k k' → sched_ok k s → sched_ok k' s.
Proof. intros (w & e & c & -> & _) []. by split. Qed.

(** Committing a requested switch. *)
Lemma commit_switched k n c :
  committed k → tcbs k !! n = Some c → n ≠ 0 → parent k n ≠ 0 → vm_has (k_vm k) (parent k n) →
  ∃ k', arch_task_context_switch (switched n k) = Ret tt k' ∧ committed k' ∧
    commit_frame (switched n k) k'.
Proof.
  intros [_ _ Hvm Hsp] Hc Hn Hp Hhas. unfold arch_task_context_switch.
  set (v := if parent k (thread_run k) =? parent k n then 0 else parent k n).
  rewrite (bind_Ret _ _ _ v (switched n k)) by done.
  assert (∃ w, (if v =? 0 then mret tt else @zoom _ _ kernel_vm _ (vmm_switch v)) (switched n k)
    = Ret tt (set_k_vm w (switched n k)) ∧ vm_ok w ∧ vm_current w = parent k n ∧
    ∀ u, vm_has (k_vm k) u → vm_has w u) as (w & Hw & Hok & Hcur & Hkeep).
  { unfold v. destruct (Z.eqb_spec (parent k (thread_run k)) (parent k n)) as [E|E].
    - exists (k_vm k). split_and!; [|done|congruence|done]. by destruct k.
    - rewrite (proj2 (Z.eqb_neq _ _) Hp).
      destruct (vmm_switch_ok (k_vm k) (parent k n) Hvm Hhas) as (w & Hw & Hok & Hcur & Hkeep).
      exists w. split_and!; [|done..]. by apply zoom_vm. }
  rewrite (bind_Ret _ _ _ _ _ Hw).
  rewrite (bind_Ret _ _ _ n (set_k_vm w (switched n k))) by done.
  rewrite (proj2 (Z.eqb_neq _ _) Hn).
  destruct (arch_task_restore_run (set_k_vm w (switched n k)) n c Hc Hn) as (e & He).
  rewrite (bind_Ret _ _ _ _ _ He).
  eexists. split; [reflexivity|]. split; [by repeat split|]. by eexists w, e, n.
Qed.

Lemma commit_idle k : committed k → arch_task_context_switch k = Ret tt k.
Proof.
  intros [[Ht Hv] _ _ _]. destruct k; simpl in *. by subst.
Qed.

Lemma commit_frame_idle k : committed k → commit_frame k k.
Proof.
  intros [[Ht Hv] _ _ _]. exists (k_vm k), (tss_esp0 k), (curr_task_ctx k).
  destruct k; simpl in *. by subst.
Qed.

Lemma parent_upd k t f t' :
  (∀ c, t_parent (f c) = t_parent c) → parent (upd t f k) t' = parent k t'.
Proof.
  intros Hf. unfold parent. rewrite upd_lookup. case_decide; [|done].
  destruct (tcbs k !! t') as [c|]; [|done]. simpl. by rewrite Hf.
Qed.

Lemma committed_upd k t f :
  (∀ c, t_parent (f c) = t_parent c) → committed k → committed (upd t f k).
Proof. intros Hf [? ? ? Hsp]. split; try done. by rewrite parent_upd. Qed.

Lemma commit_rescheduled k s :
  sched_ok k s → parents_ok k → committed k →
  ∃ k', arch_task_context_switch (rescheduled k) = Ret tt k' ∧ committed k' ∧
    commit_frame (rescheduled k) k'.
Proof.
  intros Hok Hp Hc. unfold rescheduled.
  destruct (next_ready k (thread_run k)) as [n|] eqn:En.
  - destruct (next_ready_Some _ _ _ En (so_run _ _ Hok) (so_nodup _ _ Hok)) as (Hn & _).
    destruct (so_threads _ _ Hok n Hn) as [Hnz (c & j & Hcn & _)].
    destruct (commit_switched (choose (Some n) k) n (tcb_wake false c)) as (k' & H & Hc' & Hr).
    + by apply committed_upd.
    + unfold choose. by rewrite upd_lookup, decide_True, Hcn.
    + done.
    + unfold choose. rewrite parent_upd by done. by apply Hp.
    + unfold choose. rewrite parent_upd by done. by apply Hp.
    + exists k'. done.
  - exists k. split_and!; [by apply commit_idle|done|by apply commit_frame_idle].
Qed.

(** ** The tick *)

Definition ticked k : kernel :=
  let n := u32 (timeslice k + 1) in
  if n <? 5 then set_timeslice n k else rescheduled (set_timeslice 0 k).

Lemma schedule_isr_run k s : sched_ok k s → schedule_isr k = Ret tt (ticked k).
Proof.
  intros Hok. unfold schedule_isr, ticked. rewrite (bind_Ret _ _ _ (timeslice k) k) by done.
  cbv zeta. rewrite (bind_Ret _ _ _ tt (set_timeslice (u32 (timeslice k + 1)) k)) by done.
  destruct (u32 (timeslice k + 1) <? 5); [done|].
  set (k1 := set_timeslice 0 k).
  rewrite (bind_Ret _ _ _ tt k1) by (by destruct k).
  assert (sched_ok k1 s) as Hok1 by (by destruct Hok).
  rewrite (bind_Ret _ _ _ (Some s) k1) by (unfold gets; by rewrite (so_lock _ _ Hok1)).
  pose proof (so_unlocked _ _ Hok1) as Hu. pose proof (lookup_lt_Some _ _ _ Hu) as Hlen.
  assert (zoom (spinlock_trylock (Some s)) k1 = Ret 0 (hold s k1)) as Htry.
  { unfold zoom. cbn [part irq_locks kernel_machine]. unfold spinlock_trylock. by rewrite Hu. }
  rewrite (bind_Ret _ _ _ _ _ Htry).
  cbn [Z.eqb negb]. rewrite (bind_Ret _ _ _ (thread_run k1) (hold s k1)) by done.
  rewrite (proj2 (Z.eqb_neq _ _) (run_nonzero _ _ Hok1)).
  assert (∀ t, t ∈ thread_head (hold s k1) → t ≠ 0 ∧ thread_free (hold s k1) t) as Hf.
  { intros t Ht. split; [by apply Hok1|]. by apply thread_free_locked. }
  assert (∃ r, schedule_if_needed (hold s k1) = Ret r (rescheduled (hold s k1))) as (r & Hr).
  { unfold schedule_if_needed. rewrite (bind_Ret _ _ _ (thread_run k1) (hold s k1)) by done.
    rewrite (bind_Ret _ _ _ _ _ (find_next_runnable_run (hold s k1) _ (so_run _ _ Hok1) Hf)).
    unfold rescheduled. change (thread_run (hold s k1)) with (thread_run k1).
    destruct (next_ready (hold s k1) (thread_run k1)) as [n|] eqn:En; cbn [default from_option id];
      [|by eexists].
    destruct (next_ready_Some _ _ _ En (so_run _ _ Hok1) (so_nodup _ _ Hok1)) as (Hn & Hne & _).
    destruct (Hf n Hn) as [Hnz (c & j & Hc & _)].
    destruct (Hf _ (so_run _ _ Hok1)) as [Hrz (o & j' & Ho & _)].
    replace ((n =? 0) || (n =? thread_run k1)) with false by (symmetry; lia).
    eexists. erewrite bind_Ret; [done|].
    apply (switch_to_run n _ o (tcb_wake false c)); try done; unfold choose; rewrite upd_lookup.
    - by rewrite decide_False by done.
    - by rewrite decide_True, Hc by done. }
  rewrite (bind_Ret _ _ _ _ _ Hr).
  assert (k_mach (rescheduled (hold s k1)) = k_mach (hold s k1)) as Hm
    by (unfold rescheduled; by destruct (next_ready _ _)).
  assert (zoom (spinlock_unlock (Some s)) (rescheduled (hold s k1))
    = Ret 0 (set_k_mach (k_mach k1) (rescheduled (hold s k1)))) as Hun.
  { unfold zoom. cbn [part set_part irq_locks kernel_machine]. rewrite Hm. simpl.
    rewrite list_lookup_insert_eq by done. f_equal.
    rewrite list_insert_insert_eq, list_insert_id by done. by rewrite pair_eta. }
  rewrite (bind_Ret _ _ _ _ _ Hun). unfold mret, M_ret. f_equal.
  apply (rescheduled_mach k1).
Qed.

(** *** Properties *)

(** [thread_yield] is round robin: it returns, keeps the scheduler
    consistent and hands the CPU to the first ready thread after the running
    one, going round the thread list, consuming that thread's pending
    wake-up; when no other thread is ready nothing changes. *)
Theorem thread_yield_round_robin k s l1 l2 :
  sched_ok k s → thread_head k = l1 ++ thread_run k :: l2 →
  ∃ k', thread_yield_internal k = Ret tt k' ∧ sched_ok k' s ∧ thread_head k' = thread_head k ∧
    match List.find (ready k) (l2 ++ l1) with
    | Some n => thread_run k' = n ∧ ctx_task k' = n ∧ n ≠ thread_run k ∧
                t_wake_pending <$> tcbs k' !! n = Some false
    | None => k' = k
    end.
Proof.
  intros Hok Hl. exists (rescheduled k). split_and!.
  - by apply (thread_yield_run k s).
  - by apply sched_ok_rescheduled.
  - apply rescheduled_head.
  - assert (others k (thread_run k) = l2 ++ l1) as E.
    { unfold others. rewrite Hl, cut_at_mid; [done|].
      pose proof (so_nodup _ _ Hok) as Hnd. rewrite Hl in Hnd.
      apply NoDup_app in Hnd as (_ & Hd & _). intros Hin. apply (Hd _ Hin). left. }
    rewrite <- E. unfold rescheduled. fold (next_ready k (thread_run k)).
    destruct (next_ready k (thread_run k)) as [n|] eqn:En; [|done].
    destruct (next_ready_Some _ _ _ En (so_run _ _ Hok) (so_nodup _ _ Hok)) as (Hn & Hne & _).
    destruct (thread_is_some _ _ _ Hok Hn) as [c Hc].
    split_and!; [done..|]. simpl. by rewrite lookup_alter_eq, Hc.
Qed.

(** C4: yielding is fair: a thread that is ready when the yields begin runs
    after at most as many yields as there are threads, whatever else is
    ready. *)
Theorem thread_yield_fair k s t :
  sched_ok k s → t ∈ thread_head k → ready k t = true →
  ∃ n k', (n <= length (thread_head k))%nat ∧ yields n k = Ret tt k' ∧ thread_run k' = t.
Proof.
  intros Hok Ht Hr. destruct (decide (t = thread_run k)) as [->|Hne].
  { exists 0%nat, k. split_and!; [lia|done..]. }
  assert (t ∈ others k (thread_run k)) as Hin
    by (apply others_elem; [apply Hok|apply Hok|done]).
  apply list_elem_of_split in Hin as (u & v & E).
  destruct (yields_reach s (length u) k t u v Hok E eq_refl Hr) as (n & k' & Hn & Hy & Hrun & _).
  exists n, k'. split_and!; [|done..].
  assert (length (others k (thread_run k)) < length (thread_head k))%nat as Hlt.
  { unfold others. destruct (cut_at_app _ _ (so_run _ _ Hok)) as (l1 & l2 & -> & -> & _).
    rewrite !length_app. simpl. lia. }
  rewrite E, length_app in Hlt. simpl in Hlt. lia.
Qed.

Lemma by_tid_upd k t f tid : keeps_identity f → by_tid (upd t f k) tid = by_tid k tid.
Proof.
  intros Hf. unfold by_tid. change (thread_head (upd t f k)) with (thread_head k).
  induction (thread_head k) as [|x l IH]; [done|]. cbn [List.find]. rewrite IH, upd_lookup.
  case_decide; [|done]. destruct (tcbs k !! x) as [c|]; [|done]. simpl.
  by rewrite (proj2 (Hf c)).
Qed.


(** One pass through the gate or the timer interrupt: a scheduler operation,
    then the commit on the way out. *)
Inductive gate_step : kernel → kernel → Prop :=
  | gate_yield k k1 k2 :
      thread_yield_internal k = Ret tt k1 → arch_task_context_switch k1 = Ret tt k2 →
      gate_step k k2
  | gate_block tid k k1 k2 :
      thread_block_internal tid k = Ret tt k1 → arch_task_context_switch k1 = Ret tt k2 →
      gate_step k k2
  | gate_unblock tid k k1 k2 :
      thread_unblock_internal tid k = Ret tt k1 → arch_task_context_switch k1 = Ret tt k2 →
      gate_step k k2
  | gate_tick k k1 k2 :
      schedule_isr k = Ret tt k1 → arch_task_context_switch k1 = Ret tt k2 → gate_step k k2.

Record gate_inv (s : nat) k : Prop := {
  gi_sched : sched_ok k s;
  gi_parents : parents_ok k;
  gi_committed : committed k;
}.

Lemma gate_inv_frame s k k' :
  sched_ok k s → parents_ok k → committed k' → commit_frame k k' → gate_inv s k'.
Proof.
  intros Hok Hp Hc Hf. split; [by eapply sched_ok_frame| |done].
  destruct Hf as (w & e & c & -> & Hkeep). intros t Ht. destruct (Hp t Ht) as [H0 Hh]. split; [exact H0|exact (Hkeep _ Hh)].
Qed.

Lemma parents_ok_upd k t f :
  (∀ c, t_parent (f c) = t_parent c) → parents_ok k → parents_ok (upd t f k).
Proof. intros Hf Hp t' Ht'. rewrite parent_upd by done. by apply Hp. Qed.

Lemma gate_inv_upd s k t f :
  keeps_identity f → (∀ c, t_parent (f c) = t_parent c) → gate_inv s k → gate_inv s (upd t f k).
Proof.
  intros Hk Hf [? ? ?]. split; [by apply sched_ok_upd|by apply parents_ok_upd|by apply committed_upd].
Qed.

Lemma parents_ok_rescheduled k : parents_ok k → parents_ok (rescheduled k).
Proof.
  intros Hp. unfold rescheduled. destruct (next_ready k _) as [n|]; [|done].
  exact (parents_ok_upd k n (tcb_wake false) (λ _, eq_refl) Hp).
Qed.

(** From an invariant state, rescheduling and committing gives one. *)
Lemma gate_resched s k k2 :
  gate_inv s k → arch_task_context_switch (rescheduled k) = Ret tt k2 → gate_inv s k2.
Proof.
  intros [Hok Hp Hc] H. destruct (commit_rescheduled k s Hok Hp Hc) as (k' & H' & Hc' & Hf).
  rewrite H in H'. injection H' as <-. apply (gate_inv_frame s (rescheduled k)); try done.
  - by apply sched_ok_rescheduled.
  - by apply parents_ok_rescheduled.
Qed.

Lemma gate_idle s k k2 : gate_inv s k → arch_task_context_switch k = Ret tt k2 → gate_inv s k2.
Proof. intros Hi H. rewrite (commit_idle k (gi_committed _ _ Hi)) in H. by injection H as <-. Qed.

Lemma gate_step_inv s k k' : gate_step k k' → gate_inv s k → gate_inv s k'.
Proof.
  intros Hst Hi. pose proof (gi_sched _ _ Hi) as Hok. destruct Hst as [k k1 k2 H1 H2|tid k k1 k2 H1 H2
    |tid k k1 k2 H1 H2|k k1 k2 H1 H2].
  - rewrite (thread_yield_run k s Hok) in H1. injection H1 as <-. by eapply gate_resched.
  - rewrite (thread_block_run k s tid Hok) in H1. injection H1 as <-. unfold blocked in H2.
    destruct (by_tid k tid) as [t|]; [|by eapply gate_idle].
    destruct (default _ _); [eapply gate_idle; [|exact H2]; by apply gate_inv_upd|].
    destruct (_ =? _); [eapply gate_resched|eapply gate_idle]; try exact H2; by apply gate_inv_upd.
  - rewrite (thread_unblock_run k s tid Hok) in H1. injection H1 as <-. unfold unblocked in H2.
    destruct (by_tid k tid) as [t|]; [|by eapply gate_idle].
    eapply gate_idle; [|exact H2]. by apply gate_inv_upd.
  - rewrite (schedule_isr_run k s Hok) in H1. injection H1 as <-. unfold ticked in H2.
    assert (∀ n, gate_inv s (set_timeslice n k)) as Hts.
    { intros n. destruct Hi as [[] ? []]. by split; [split| |split]. }
    destruct (_ <? _); [eapply gate_idle|eapply gate_resched]; (exact H2 || apply Hts).
Qed.

Lemma gates_inv s k k' : gate_inv s k → rtc gate_step k k' → gate_inv s k'.
Proof. intros Hi Hr. induction Hr as [|k1 k2 k3 Hst _ IH]; [done|]. apply IH. by eapply gate_step_inv. Qed.

(** Every gate comes to its end. *)
Lemma gate_returns s k : gate_inv s k →
  Forall (λ m, ∃ k1 k2, m k = Ret tt k1 ∧ arch_task_context_switch k1 = Ret tt k2) [thread_yield_internal; schedule_isr] ∧
  ∀ tid, Forall (λ m, ∃ k1 k2, m tid k = Ret tt k1 ∧ arch_task_context_switch k1 = Ret tt k2)
    [thread_block_internal; thread_unblock_internal].
Proof.
  intros Hi. pose proof (gi_sched _ _ Hi) as Hok.
  assert (Hid : ∀ k1, gate_inv s k1 → ∃ k2, arch_task_context_switch k1 = Ret tt k2).
  { intros k1 H1. exists k1. apply commit_idle, (gi_committed _ _ H1). }
  assert (Hre : ∀ k1, gate_inv s k1 → ∃ k2, arch_task_context_switch (rescheduled k1) = Ret tt k2).
  { intros k1 [H1 H2 H3]. destruct (commit_rescheduled k1 s H1 H2 H3) as (k' & H & _). by exists k'. }
  assert (Hts : ∀ n, gate_inv s (set_timeslice n k)) by (intros n; destruct Hi as [[] ? []]; by split; [split| |split]).
  split; [|intros tid]; repeat (apply Forall_cons; split); try apply Forall_nil; try exact I.
  - destruct (Hre k Hi) as [k2 H2]. by exists (rescheduled k), k2; split; [apply (thread_yield_run k s)|].
  - exists (ticked k). unfold ticked. destruct (_ <? _) eqn:E.
    + destruct (Hid _ (Hts (u32 (timeslice k + 1)))) as [k2 H2]. exists k2.
      rewrite (schedule_isr_run k s Hok). unfold ticked. by rewrite E.
    + destruct (Hre _ (Hts 0)) as [k2 H2]. exists k2. rewrite (schedule_isr_run k s Hok). unfold ticked. by rewrite E.
  - exists (blocked tid k). rewrite (thread_block_run k s tid Hok). unfold blocked.
    destruct (by_tid k tid) as [t|]; [|by destruct (Hid k Hi) as [k2 H2]; exists k2].
    destruct (default _ _); [|destruct (_ =? _)].
    + destruct (Hid (upd t (tcb_wake false) k)) as [k2 H2]; [by apply gate_inv_upd|by exists k2].
    + destruct (Hre (upd t (tcb_state TS_PENDING) k)) as [k2 H2]; [by apply gate_inv_upd|by exists k2].
    + destruct (Hid (upd t (tcb_state TS_PENDING) k)) as [k2 H2]; [by apply gate_inv_upd|by exists k2].
  - exists (unblocked tid k). rewrite (thread_unblock_run k s tid Hok). unfold unblocked.
    destruct (by_tid k tid) as [t|]; [|by destruct (Hid k Hi) as [k2 H2]; exists k2].
    destruct (Hid (upd t woken k)) as [k2 H2]; [by apply gate_inv_upd|by exists k2].
Qed.

(** Over any implementation of [AddressSpace]: whatever sequence of yields,
    blocks, unblocks and timer ticks runs, one per gate, the scheduler stays
    consistent, and after every gate the machine runs the context of
    [thread_run] under the page directory of that thread's process: the
    deferred switch is never paired with the wrong address space. *)
Theorem gate_runs_thread_in_its_space s k k' :
  gate_inv s k → rtc gate_step k k' →
  sched_ok k' s ∧ curr_task_ctx k' = thread_run k' ∧
  vm_current (k_vm k') = parent k' (thread_run k').
Proof.
  intros Hi Hr. destruct (gates_inv s k k' Hi Hr) as [Hok _ Hc].
  split_and!; [done|apply Hc|apply Hc].
Qed.

(** C26: the timer interrupt never waits.  Four of five ticks only count.  On
    the fifth the counter starts again; when [schedule_lock] is then held by
    the code that was interrupted, [schedule_isr] returns without it and
    nothing else changes; when it is free, the next ready thread becomes the
    running one and the lock is free again. *)
Theorem schedule_isr_never_waits k s :
  schedule_lock k = Some s →
  (u32 (timeslice k + 1) < 5 → schedule_isr k = Ret tt (set_timeslice (u32 (timeslice k + 1)) k)) ∧
  (5 <= u32 (timeslice k + 1) → (k_mach k).2 !! s = Some LOCK_LOCKED → schedule_isr k = Ret tt (set_timeslice 0 k)) ∧
  (5 <= u32 (timeslice k + 1) → sched_ok k s → ∃ k', schedule_isr k = Ret tt k' ∧ sched_ok k' s ∧ timeslice k' = 0 ∧
     thread_run k' = default (thread_run k) (next_ready k (thread_run k))).
Proof.
  intros Hl.
  assert (Hcount : schedule_isr k = (if u32 (timeslice k + 1) <? 5 then mret tt else
    modify (set_timeslice 0);; l ← gets schedule_lock; busy ← zoom (spinlock_trylock l);
    if negb (busy =? 0) then mret tt else
    r ← gets thread_run; (if r =? 0 then mret 0 else schedule_if_needed);; zoom (spinlock_unlock l);; mret tt)
      (set_timeslice (u32 (timeslice k + 1)) k)) by done.
  split_and!.
  - intros Ht. by rewrite Hcount, (proj2 (Z.ltb_lt _ _) Ht).
  - intros Ht Hb. rewrite Hcount, (proj2 (Z.ltb_ge _ _) Ht).
    rewrite (bind_Ret _ _ _ tt (set_timeslice 0 k)) by (by destruct k).
    rewrite (bind_Ret _ _ _ (Some s) (set_timeslice 0 k)) by (unfold gets; simpl; by rewrite Hl).
    assert (zoom (spinlock_trylock (Some s)) (set_timeslice 0 k) = Ret 1 (set_timeslice 0 k)) as Ht1.
    { unfold zoom. cbn [part irq_locks kernel_machine]. unfold spinlock_trylock. simpl.
      rewrite Hb. by destruct k as [[]]. }
    by rewrite (bind_Ret _ _ _ _ _ Ht1).
  - intros Ht Hok. exists (ticked k). split; [by eapply schedule_isr_run|].
    unfold ticked. rewrite (proj2 (Z.ltb_ge _ _) Ht). split; [apply sched_ok_rescheduled; by destruct Hok|].
    unfold rescheduled. change (next_ready (set_timeslice 0 k) (thread_run (set_timeslice 0 k)))
      with (next_ready k (thread_run k)). by destruct (next_ready k (thread_run k)).
Qed.

(** blocking a process parks every one of its threads, unblocking it makes
    every one of them ready, and neither touches a thread of another process
    nor, for an unknown pid, anything at all. *)
Theorem proc_block_stops_its_threads k s pid :
  sched_ok k s → procs_ok k s →
  match by_pid k pid with
  | None => proc_block_internal pid k = Ret 0 k ∧ proc_unblock_internal pid k = Ret 0 k
  | Some p => ∃ c kb ku, pcbs k !! p = Some c ∧
      proc_block_internal pid k = Ret 0 kb ∧ proc_unblock_internal pid k = Ret 0 ku ∧
      (∀ t, t ∈ p_tcbs c → t_state <$> tcbs kb !! t = Some TS_PENDING ∧
                           t_state <$> tcbs ku !! t = Some TS_READY) ∧
      (∀ t, t ∉ p_tcbs c → tcbs kb !! t = tcbs k !! t ∧ tcbs ku !! t = tcbs k !! t)
  end.
Proof.
  intros Hok Hps. pose proof (proc_set_state_run k s PS_PENDING TS_PENDING pid Hok Hps) as Hb.
  pose proof (proc_set_state_run k s PS_READY TS_READY pid Hok Hps) as Hu.
  destruct (by_pid k pid) as [p|] eqn:Ep; [|done].
  destruct Hb as (c & Hc & Hpid & Hb). destruct Hu as (c' & Hc' & _ & Hu).
  assert (c' = c) as -> by congruence.
  eexists c, _, _. split_and!; [done|exact Hb|exact Hu|..].
  - intros t Ht. apply List.find_some in Ep as [Hin%list_elem_of_In _].
    destruct (Hps p Hin) as [_ (c0 & j & Hc0 & _ & _ & _ & Hts)].
    assert (c0 = c) as -> by congruence.
    destruct (thread_is_some _ _ _ Hok (Hts t Ht)) as [d Hd].
    destruct (upd_all_fields TS_PENDING (p_tcbs c) (set_pcbs (<[p:=pcb_state PS_PENDING c]> (pcbs k)) k))
      as (_ & _ & ->).
    destruct (upd_all_fields TS_READY (p_tcbs c) (set_pcbs (<[p:=pcb_state PS_READY c]> (pcbs k)) k))
      as (_ & _ & ->).
    rewrite !decide_True by done. simpl. by rewrite Hd.
  - intros t Ht.
    destruct (upd_all_fields TS_PENDING (p_tcbs c) (set_pcbs (<[p:=pcb_state PS_PENDING c]> (pcbs k)) k))
      as (_ & _ & ->).
    destruct (upd_all_fields TS_READY (p_tcbs c) (set_pcbs (<[p:=pcb_state PS_READY c]> (pcbs k)) k))
      as (_ & _ & ->).
    by rewrite !decide_False by done.
Qed.
End sched.

(** ** Witnesses: threads 30, 20, 10 in that order; 10 belongs to process 1,
    the others to process 2 *)

(** The simplest address spaces: only which one is loaded. *)
#[export] Instance flat_vm : AddressSpace Z.
Proof.
  refine {| vm_ok _ := True; vm_has _ _ := True; vm_stack _ _ _ := True; vm_current w := w; vm_same w w' := w' = w;
    vmm_create _ _ := mret 0; vmm_destroy _ := mret tt; vmm_switch v := put v;
    vmm_alloc_pages _ _ _ := mret 3489660928; vmm_free_pages _ _ := mret tt;
    vmm_vcb_va_to_pa _ _ := mret 8388608; vmm_map_region _ _ _ _ _ _ := mret 0;
    vm_frames_alloc _ := mret 4194304; vm_frames_free _ _ := mret tt;
    vm_store _ _ := mret tt; vm_load _ n := mret (replicate (Z.to_nat n) 0);
    vm_copy_from_user _ n := mret (Some (replicate (Z.to_nat n) 0)) |}.
  - intros w v _ _. by exists v.
  - done.
  - intros w v _ _. eexists _, w. split_and!; [done..|]. intros _. split; [done|]. by exists w.
  - intros w v a _ _. by exists w.
  - intros w v a _ _. by eexists.
Defined.

Definition no_context : arch_task_context := mk_context 0 [] 0 0 None.
Definition demo_tcb (tid parent : Z) (lock : nat) (st : thread_state) : tcb :=
  mk_tcb no_context 0 tid st false (Some lock) parent 0 [] 0 0.
Definition sched_locks : cpu * lock_table := (mk_cpu 512 false, replicate 8 LOCK_UNLOCKED).

Definition sched_demo : kernel heap heap Z :=
  set_curr_task_ctx 10 (set_schedule_lock (Some 0%nat) (set_thread_run 10 (set_thread_head [30; 20; 10]
    (set_tcbs {[10 := demo_tcb 1 1 1 TS_READY; 20 := demo_tcb 2 2 2 TS_READY;
                30 := demo_tcb 3 2 3 TS_READY]}
      (set_proc_head [2; 1] (set_pcbs {[
         1 := mk_pcb 1 PS_READY PROC_PRIV_KERNEL [10] 0 (Some 4%nat) [] (Some 5%nat);
         2 := mk_pcb 2 PS_READY PROC_PRIV_USER [30; 20] 0 (Some 6%nat) [] (Some 7%nat)]}
        (boot_kernel sched_locks small_heap small_heap 1))))))).

Lemma sched_demo_tcb t c : tcbs sched_demo !! t = Some c →
  (t = 10 ∧ c = demo_tcb 1 1 1 TS_READY) ∨ (t = 20 ∧ c = demo_tcb 2 2 2 TS_READY) ∨
  (t = 30 ∧ c = demo_tcb 3 2 3 TS_READY).
Proof.
  unfold sched_demo. cbn [tcbs set_tcbs set_thread_head set_thread_run set_schedule_lock
    set_curr_task_ctx]. rewrite !lookup_insert_Some, lookup_singleton_Some. naive_solver.
Qed.

Lemma sched_demo_head t : t ∈ thread_head sched_demo → t = 30 ∨ t = 20 ∨ t = 10.
Proof. cbn. rewrite !elem_of_cons, elem_of_nil. tauto. Qed.

Lemma sched_demo_ok : sched_ok sched_demo 0.
Proof.
  split; [done|done| | |vm_compute; repeat constructor; set_solver|cbn; set_solver|].
  - intros t c Hc. by destruct (sched_demo_tcb t c Hc) as [[_ ->]|[[_ ->]|[_ ->]]].
  - intros t Ht. split; [by destruct (sched_demo_head t Ht) as [->|[->| ->]]|].
    destruct (sched_demo_head t Ht) as [->|[->| ->]];
      [exists (demo_tcb 3 2 3 TS_READY), 3%nat|exists (demo_tcb 2 2 2 TS_READY), 2%nat|
       exists (demo_tcb 1 1 1 TS_READY), 1%nat]; split_and!; reflexivity.
  - intros t t' c c' _ _ Hc Hc'.
    destruct (sched_demo_tcb t c Hc) as [[-> ->]|[[-> ->]|[-> ->]]];
    destruct (sched_demo_tcb t' c' Hc') as [[-> ->]|[[-> ->]|[-> ->]]]; done.
Qed.

Lemma sched_demo_gate : gate_inv 0 sched_demo.
Proof.
  split; [exact sched_demo_ok| |by repeat split].
  intros t Ht. by destruct (sched_demo_head t Ht) as [->|[->| ->]].
Qed.

Lemma sched_demo_procs : procs_ok sched_demo 0.
Proof.
  intros p Hp. cbn in Hp. rewrite !elem_of_cons, elem_of_nil in Hp.
  destruct Hp as [->|[->|[]]]; (split; [done|]).
  - exists (mk_pcb 2 PS_READY PROC_PRIV_USER [30; 20] 0 (Some 6%nat) [] (Some 7%nat)), 6%nat.
    split_and!; try reflexivity; [done|]. intros t. cbn. rewrite !elem_of_cons. tauto.
  - exists (mk_pcb 1 PS_READY PROC_PRIV_KERNEL [10] 0 (Some 4%nat) [] (Some 5%nat)), 4%nat.
    split_and!; try reflexivity; [done|]. intros t. cbn. rewrite !elem_of_cons. tauto.
Qed.

Lemma thread_yield_round_robin_witness :
  ∃ k', thread_yield_internal sched_demo = Ret tt k' ∧ thread_run k' = 30.
Proof.
  destruct (thread_yield_round_robin sched_demo 0 [30; 20] [] sched_demo_ok eq_refl)
    as (k' & H & _ & _ & Hr & _). exists k'. split; [exact H|exact Hr].
Defined.

Lemma thread_yield_fair_witness :
  ∃ n k', (n <= 3)%nat ∧ yields n sched_demo = Ret tt k' ∧ thread_run k' = 20.
Proof.
  exact (thread_yield_fair sched_demo 0 20 sched_demo_ok
    (list_elem_of_further _ _ _ (list_elem_of_here _ _)) eq_refl).
Defined.


Lemma gate_runs_thread_in_its_space_witness :
  vm_current (k_vm sched_demo) = parent sched_demo 10 ∧ sched_ok sched_demo 0.
Proof.
  destruct (gate_runs_thread_in_its_space 0 sched_demo sched_demo sched_demo_gate (rtc_refl _ _))
    as (H1 & _ & H2). split; [exact H2|exact H1].
Defined.

(** The fifth tick, with the lock held and with the lock free. *)
Definition tick_held : kernel heap heap Z :=
  set_timeslice 4 (set_k_mach (mk_cpu 512 false, <[0%nat := LOCK_LOCKED]> (replicate 8 LOCK_UNLOCKED)) sched_demo).
Lemma tick_free_ok : sched_ok (set_timeslice 4 sched_demo) 0.
Proof. destruct sched_demo_ok as [H1 H2 H3 H4 H5 H6 H7]. split; [exact H1|exact H2|exact H3|exact H4|exact H5|exact H6|exact H7]. Qed.
Lemma schedule_isr_never_waits_witness :
  schedule_isr tick_held = Ret tt (set_timeslice 0 tick_held) ∧
  ∃ k', schedule_isr (set_timeslice 4 sched_demo) = Ret tt k' ∧ sched_ok k' 0 ∧ thread_run k' = 30.
Proof.
  split.
  - apply (schedule_isr_never_waits tick_held 0 eq_refl); [vm_compute; discriminate|reflexivity].
  - destruct (schedule_isr_never_waits (set_timeslice 4 sched_demo) 0 eq_refl) as (_ & _ & H).
    destruct H as (k' & H & Hok & _ & Hr); [vm_compute; discriminate|exact tick_free_ok|].
    exists k'. split; [exact H|]. split; [exact Hok|exact Hr].
Defined.

Lemma proc_block_stops_its_threads_witness :
  ∃ kb, proc_block_internal 2 sched_demo = Ret 0 kb ∧ t_state <$> tcbs kb !! 20 = Some TS_PENDING.
Proof.
  destruct (proc_block_stops_its_threads sched_demo 0 2 sched_demo_ok sched_demo_procs)
    as (c & kb & ku & Hc & Hb & _ & Hin & _).
  exists kb. split; [exact Hb|]. vm_compute in Hc. injection Hc as <-.
  apply Hin. right; left.
Defined.

(** The one-request-per-gate condition is needed: after two requests in one
    gate, the first to another process and the second within that process,
    [request_switch_context] has cleared the pending page directory, and the
    commit resumes a thread of process 2 under the page directory of
    process 1. *)
Theorem double_request_keeps_stale_space :
  match (thread_yield_internal;; thread_yield_internal;; arch_task_context_switch) sched_demo with
  | Ret _ k => curr_task_ctx k = 20 ∧ parent k 20 = 2 ∧ vm_current (k_vm k) = 1
  | _ => False
  end.
Proof. vm_compute. done. Qed.
