(* ===== verification/VmSpaces.v ===== *)
(** * The address spaces of vmm.c behind the interface of the kernel

    KState states, as the class [AddressSpace], what the scheduler, the threads
    and the loader assume of the address-space code.  Here the class is
    discharged by the functions of Vmm.v: an invariant for any number of
    address spaces that live side by side, and the laws.  A last theorem puts
    the scheduler on top: after every gate the register CR3 holds the page
    directory of the process of the running thread. *)

From stdpp Require Import base tactics list gmap.
From Stdlib Require Import ZArith Lia.
From S2P Require Import Prelude Spinlock Allocator RbTree RbDelete RbOrder Pmm Paging PageSpaces PageRuns UserMem Vmm VmmSpace VmmOps Heap KState Sched.

Open Scope Z_scope.

Section spaces.
Context {LY : Layout} {A : Type} `{!Allocator A}.
Notation vm := (vm A).
Implicit Types w : vm.

(** ** Operations that are not functions of vmm.c themselves *)

(** The control block lies in the zeroed control block of the process. *)
Definition zero_vcb : vmm_control_block := mk_vcb 0 (mk_rbtree 0 0 ∅) 0 None.
Definition fresh_space (v : Z) (user : bool) : M vm Z :=
  put_vcb v zero_vcb;; Vmm.vmm_create v (Z.b2z user).

(** Accesses through the identity map: the bytes of physical memory. *)
Definition ram_bytes (f : pmm) (pa n : Z) : list Z := map (λ i, ram f (pa + i)) (seqZ 0 n).
Fixpoint ram_put (pa : Z) (l : list Z) (r : Z → Z) : Z → Z :=
  match l with [] => r | b :: l => ram_put (pa + 1) l (λ a, if a =? pa then b else r a) end.
Definition set_ram (r : Z → Z) (f : pmm) : pmm :=
  mk_pmm r (bitmap_4k f) (total_blocks f) (free_blocks f) (pmm_lock f) (pmm_initialized f) (pmm_locks f).

(** A copy from ring 3: the range is validated, then read through the loaded
    page directory. *)
Definition user_bytes w (va n : Z) : option (list Z) :=
  mapM (λ i, (λ x, ram (v_frames w) (x_pa x)) <$> translate (v_pg w) (g_cr3 (v_pg w)) (va + i)) (seqZ 0 n).
Definition read_user (va n : Z) : M vm (option (list Z)) :=
  ok ← gzoom (arch_validate_user_range va n false);
  if ok =? 0 then mret None else gets (λ w, user_bytes w va n).

(** ** The invariant *)

Definition placed : Type := vmm_control_block * list Z * list vmm_region.

(** [F] describes every address space of the machine. *)
Record family w (L : gset Z) (F : gmap Z placed) : Prop := {
  fa_world : world w L;
  fa_all : ∀ v c, vcbs w !! v = Some c → v_cr3 c ≠ 0 → ∃ ns rs, F !! v = Some (c, ns, rs);
  fa_space : ∀ v c ns rs, F !! v = Some (c, ns, rs) → v_cr3 c ≠ 0 ∧ space w L v c ns rs;
  fa_apart : ∀ v v' c c' ns ns' rs rs', F !! v = Some (c, ns, rs) → F !! v' = Some (c', ns', rs') → v ≠ v' →
    separate (v_pg w) (v_cr3 c) (v_cr3 c') ∧ ∀ p, p ∈ ns → p ∉ ns';
}.

Definition spaces_ok w : Prop := ∃ L F, family w L F.
Definition has_space w (v : Z) : Prop := ∃ c, vcbs w !! v = Some c ∧ v_cr3 c ≠ 0.
Definition stack_at w (v a : Z) : Prop := has_space w v ∧ USER_HEAP_END <= a < 4294967296.

(** The process whose directory CR3 holds. *)
Definition loaded w : Z :=
  match List.find (λ x, negb (v_cr3 x.2 =? 0) && (v_cr3 x.2 =? g_cr3 (v_pg w))) (map_to_list (vcbs w)) with
  | Some x => x.1
  | None => 0
  end.

Lemma fa_vcb w L F v c ns rs : family w L F → F !! v = Some (c, ns, rs) → vcbs w !! v = Some c.
Proof. intros HF Hv. destruct (fa_space _ _ _ HF _ _ _ _ Hv) as [_ Hs]. apply (tr_vcb _ _ _ _ _ (sp_tree _ _ _ _ _ _ Hs)). Qed.

Lemma has_family w L F v : family w L F → has_space w v → ∃ c ns rs, F !! v = Some (c, ns, rs).
Proof. intros HF (c & Hc & Hn). destruct (fa_all _ _ _ HF v c Hc Hn) as (ns & rs & H). by exists c, ns, rs. Qed.

(** Live directories are distinct. *)
Lemma cr3_injective w v v' c c' : spaces_ok w → vcbs w !! v = Some c → vcbs w !! v' = Some c' →
  v_cr3 c ≠ 0 → v_cr3 c = v_cr3 c' → v = v'.
Proof.
  intros (L & F & HF) Hc Hc' Hn E. destruct (decide (v = v')) as [|Hne]; [done|].
  destruct (fa_all _ _ _ HF v c Hc Hn) as (ns & rs & HF1). destruct (fa_all _ _ _ HF v' c' Hc') as (ns' & rs' & HF2); [congruence|].
  destruct (fa_apart _ _ _ HF _ _ _ _ _ _ _ _ HF1 HF2 Hne) as [(_ & (Hd & _) & _) _]. congruence.
Qed.

Lemma loaded_cases w : spaces_ok w →
  (∃ v c, vcbs w !! v = Some c ∧ v_cr3 c ≠ 0 ∧ v_cr3 c = g_cr3 (v_pg w) ∧ loaded w = v) ∨
  (∀ v c, vcbs w !! v = Some c → v_cr3 c ≠ 0 → v_cr3 c ≠ g_cr3 (v_pg w)) ∧ loaded w = 0.
Proof.
  intros Hok. unfold loaded. destruct (List.find _ _) as [[v c]|] eqn:E.
  - left. apply List.find_some in E as [Hin Hq]. apply list_elem_of_In, elem_of_map_to_list in Hin. simpl in Hq.
    rewrite andb_true_iff, negb_true_iff, Z.eqb_neq, Z.eqb_eq in Hq. exists v, c. tauto.
  - right. split; [|done]. intros v c Hc Hn Heq.
    assert (Hin : In (v, c) (map_to_list (vcbs w))) by (by apply list_elem_of_In, elem_of_map_to_list).
    pose proof (List.find_none _ _ E _ Hin) as Hq. simpl in Hq.
    by rewrite (proj2 (Z.eqb_neq _ 0) Hn), (proj2 (Z.eqb_eq _ _) Heq) in Hq.
Qed.

Lemma loaded_is w v c : spaces_ok w → vcbs w !! v = Some c → v_cr3 c ≠ 0 → v_cr3 c = g_cr3 (v_pg w) → loaded w = v.
Proof.
  intros Hok Hc Hn Heq. destruct (loaded_cases w Hok) as [(v' & c' & Hc' & Hn' & Heq' & ->)|[H _]].
  - symmetry. apply (cr3_injective w v v' c c'); try done. congruence.
  - by destruct (H v c Hc Hn).
Qed.

(** ** Steps of one process *)

(** Separation depends on the entries of the two directories only. *)
Lemma isolated_keep s s' d d' :
  (∀ j, 0 <= j < 1024 → dir_entry s' d j = dir_entry s d j) →
  (∀ j, 0 <= j < 1024 → dir_entry s' d' j = dir_entry s d' j) → isolated s d d' → isolated s' d d'.
Proof.
  intros Hd Hd' (H1 & H2 & H3). unfold isolated, no_table_is, has_table in *. split_and!; [done|..].
  - intros j Hj. rewrite Hd' by done. by apply H2.
  - intros j Hj. rewrite !Hd by lia. intros Ht. destruct (H3 j Hj Ht) as [H4 H5]. split; [|done].
    intros i Hi. rewrite Hd' by done. by apply H4.
Qed.

Lemma separate_others s s' d d1 d2 :
  spares s s' d → separate s d d1 → separate s d d2 → separate s d1 d2 → separate s' d1 d2.
Proof.
  intros [_ Hsp] H1 H2 (Hwf & I1 & I2). destruct (Hsp d1 H1) as (_ & E1 & _). destruct (Hsp d2 H2) as ((Hwf2 & _) & E2 & _).
  split; [done|]. split; by eapply isolated_keep.
Qed.

Lemma separate_sym s d d' : dir_wf s d → separate s d d' → separate s d' d.
Proof. intros Hwf (_ & H1 & H2). done. Qed.

(** A step of [v] that spares the others keeps the family. *)
Lemma family_step w w' L L' F v c t ns rs ns2 rs2 :
  family w L F → F !! v = Some (c, ns, rs) → world w' L' → space w' L' v (with_rb t c) ns2 rs2 →
  spared w L v c ns w' L' (with_rb t c) ns2 → family w' L' (<[v := (with_rb t c, ns2, rs2)]> F).
Proof.
  intros HF Hv Hw' Hs' ([Ev _] & Hsp & Hb). destruct (fa_space _ _ _ HF _ _ _ _ Hv) as [Hn _].
  assert (Hbes : ∀ v1 c1 ns1 rs1, v1 ≠ v → F !! v1 = Some (c1, ns1, rs1) →
    v_cr3 c1 ≠ 0 ∧ separate (v_pg w) (v_cr3 c) (v_cr3 c1) ∧ beside w' L' v (with_rb t c) ns2 v1 c1 ns1 rs1).
  { intros v1 c1 ns1 rs1 Hne H1. destruct (fa_space _ _ _ HF _ _ _ _ H1) as [Hn1 Hs1].
    destruct (fa_apart _ _ _ HF _ _ _ _ _ _ _ _ Hv H1 (not_eq_sym Hne)) as [Hsep Hd].
    split_and!; [done|done|]. by apply Hb. }
  constructor; [done|..].
  - intros v1 c1. rewrite Ev. intros [[<- <-]|[Hne H1]]%lookup_insert_Some Hn1.
    + exists ns2, rs2. apply lookup_insert_eq.
    + destruct (fa_all _ _ _ HF v1 c1 H1 Hn1) as (ns1 & rs1 & H). exists ns1, rs1. by rewrite lookup_insert_ne.
  - intros v1 c1 ns1 rs1 [[<- [= <- <- <-]]|[Hne H1]]%lookup_insert_Some; [done|].
    destruct (Hbes v1 c1 ns1 rs1 (not_eq_sym Hne) H1) as (Hn1 & _ & _ & Hs1 & _). done.
  - intros v1 v2 c1 c2 ns1 ns2' rs1 rs2' H1 H2 Hne.
    apply lookup_insert_Some in H1 as [[<- [= <- <- <-]]|[Hne1 H1]]; apply lookup_insert_Some in H2 as [[<- [= <- <- <-]]|[Hne2 H2]].
    + done.
    + destruct (Hbes v2 c2 ns2' rs2' (not_eq_sym Hne2) H2) as (_ & _ & _ & _ & Hsep & Hd). done.
    + destruct (Hbes v1 c1 ns1 rs1 (not_eq_sym Hne1) H1) as (_ & _ & _ & _ & Hsep & Hd). split.
      * apply separate_sym; [|exact Hsep]. apply (sg_wf _ _ (sp_pg _ _ _ _ _ _ Hs')).
      * intros p Hp Hp2. by apply (Hd p).
    + destruct (Hbes v1 c1 ns1 rs1 (not_eq_sym Hne1) H1) as (_ & Hsep1 & _).
      destruct (Hbes v2 c2 ns2' rs2' (not_eq_sym Hne2) H2) as (_ & Hsep2 & _).
      destruct (fa_apart _ _ _ HF _ _ _ _ _ _ _ _ H1 H2 Hne) as [Hsep12 Hd]. split; [|done].
      exact (separate_others _ _ _ _ _ Hsp Hsep1 Hsep2 Hsep12).
Qed.

(** What such a step leaves: who has a space, and which is loaded. *)
Lemma step_keeps w w' v c t : spaces_ok w → spaces_ok w' → vcbs w !! v = Some c →
  vcbs w' = <[v := with_rb t c]> (vcbs w) → g_cr3 (v_pg w') = g_cr3 (v_pg w) →
  loaded w' = loaded w ∧ ∀ u, has_space w u → has_space w' u.
Proof.
  intros Hok Hok' Hc Ev Eg.
  assert (Hfwd : ∀ u cu, vcbs w !! u = Some cu → ∃ cu', vcbs w' !! u = Some cu' ∧ v_cr3 cu' = v_cr3 cu).
  { intros u cu Hu. rewrite Ev. destruct (decide (u = v)) as [->|Hne].
    - exists (with_rb t c). rewrite lookup_insert_eq. by assert (cu = c) as -> by congruence.
    - exists cu. by rewrite lookup_insert_ne. }
  assert (Hbwd : ∀ u cu, vcbs w' !! u = Some cu → ∃ cu', vcbs w !! u = Some cu' ∧ v_cr3 cu' = v_cr3 cu).
  { intros u cu. rewrite Ev. intros [[<- <-]|[Hne Hu]]%lookup_insert_Some; [by exists c|by exists cu]. }
  split.
  - destruct (loaded_cases w Hok) as [(u & cu & Hu & Hn & Heq & ->)|[Hno ->]].
    + destruct (Hfwd u cu Hu) as (cu' & Hu' & E). apply (loaded_is w' u cu'); [done|done|congruence|congruence].
    + destruct (loaded_cases w' Hok') as [(u & cu & Hu & Hn & Heq & ->)|[_ ->]]; [|done].
      destruct (Hbwd u cu Hu) as (cu' & Hu' & E). destruct (Hno u cu' Hu'); congruence.
  - intros u (cu & Hu & Hn). destruct (Hfwd u cu Hu) as (cu' & Hu' & E). exists cu'. split; [done|congruence].
Qed.

Lemma spared_cr3 w L v c ns w' L' c2 ns2 : spared w L v c ns w' L' c2 ns2 → g_cr3 (v_pg w') = g_cr3 (v_pg w).
Proof. intros (_ & [Hr _] & _). unfold same_regs in Hr. destruct_and! Hr; done. Qed.

Lemma dir_wf_cr3 s x d : dir_wf s d → dir_wf (set_cr3 x s) d.
Proof. intros []. by constructor. Qed.

(** ** The laws *)

Lemma switch_run w L F v c ns rs : family w L F → F !! v = Some (c, ns, rs) →
  Vmm.vmm_switch v w = Ret tt (set_v_pg (set_cr3 (v_cr3 c) (v_pg w)) w) ∧
  family (set_v_pg (set_cr3 (v_cr3 c) (v_pg w)) w) L F.
Proof.
  intros HF Hc. destruct (fa_space _ _ _ HF _ _ _ _ Hc) as [Hn Hs]. pose proof (fa_vcb _ _ _ _ _ _ _ HF Hc) as Hvc. split.
  - unfold Vmm.vmm_switch. rewrite (proj2 (Z.eqb_neq v 0)) by apply (sp_live _ _ _ _ _ _ Hs).
    rewrite (bind_Ret _ _ _ _ _ (vcb_run _ _ _ Hvc)). rewrite (proj2 (Z.eqb_neq _ 0) Hn). by apply gzoom_run.
  - destruct HF as [[] H2 H3 H4]. constructor; [by constructor|done| |].
    2: { intros v1 v2 c1 c2 ns1 ns2 rs1 rs2 H1 H1' Hne. destruct (H4 v1 v2 c1 c2 ns1 ns2 rs1 rs2 H1 H1' Hne) as [(Hwf & I1 & I2) Hd].
         split; [|done]. split; [by apply dir_wf_cr3|by split]. }
    intros v1 c1 ns1 rs1 H1. destruct (H3 v1 c1 ns1 rs1 H1) as [Hn1 [T1 ? ? ? [] ?]]. split; [done|].
    constructor; try done; [by destruct T1|]. constructor; [done|by apply dir_wf_cr3|done].
Qed.

Lemma switch_law w v : spaces_ok w → has_space w v →
  ∃ w', Vmm.vmm_switch v w = Ret tt w' ∧ spaces_ok w' ∧ loaded w' = v ∧ (∀ u, has_space w u → has_space w' u).
Proof.
  intros (L & F & HF) Hv. destruct (has_family _ _ _ _ HF Hv) as (c & ns & rs & Hc).
  destruct (switch_run w L F v c ns rs HF Hc) as [E HF']. destruct (fa_space _ _ _ HF _ _ _ _ Hc) as [Hn _].
  eexists. split; [exact E|]. split; [by exists L, F|]. split; [|done].
  apply (loaded_is _ v c); [by exists L, F|by eapply (fa_vcb w)|done|done].
Qed.

(** A step of [v] that the others do not notice; what it takes from the heap
    and from the frames is in its regions. *)
Definition step_of w (L : gset Z) (F : gmap Z placed) (v : Z) (w' : vm) : Prop :=
  ∃ c ns rs t L' ns' rs', F !! v = Some (c, ns, rs) ∧ world w' L' ∧ space w' L' v (with_rb t c) ns' rs' ∧
    spared w L v c ns w' L' (with_rb t c) ns' ∧ L' ∖ list_to_set ns' = L ∖ list_to_set ns ∧
    ∀ x, 0 <= x < total_blocks (v_frames w) →
      free_block (v_frames w') x || existsb (frame_of x) rs' = free_block (v_frames w) x || existsb (frame_of x) rs.

Lemma step_law w L F v w' : family w L F → step_of w L F v w' →
  spaces_ok w' ∧ loaded w' = loaded w ∧ ∀ u, has_space w u → has_space w' u.
Proof.
  intros HF (c & ns & rs & t & L' & ns' & rs' & Hc & Hw' & Hs' & Hsp & _).
  assert (Hok' : spaces_ok w') by (eexists _, _; by eapply family_step). split; [done|].
  apply (step_keeps w w' v c t); [by exists L, F|done|by eapply fa_vcb|apply (proj1 Hsp)|by eapply spared_cr3].
Qed.

Lemma alloc_step w L F v n flags : family w L F → has_space w v →
  0 < n <= 196607 → flag 0 flags = true →
  ∃ r w', Vmm.vmm_alloc_pages v n flags w = Ret r w' ∧ step_of w L F v w' ∧ (r ≠ 0 → USER_HEAP_END <= r < 4294967296).
Proof.
  intros HF Hv Hn1 Hfl. destruct (has_family _ _ _ _ HF Hv) as (c & ns & rs & Hc).
  destruct (fa_space _ _ _ HF _ _ _ _ Hc) as [Hn Hs].
  destruct (vmm_alloc_pages_run w L v c ns rs n flags (fa_world _ _ _ HF) Hs) as (r & w' & E & Hres); [lia|done|lia|].
  exists r, w'. split; [done|].
  destruct Hres as [[-> (t & H1 & H2 & Hfr & H3)]
    |(p & b & t & ns1 & ns2 & rs1 & rs2 & HpL & -> & -> & _ & _ & (_ & P2 & P3 & _) & H1 & H2 & _ & Hrun & Hfr & H3)].
  - split; [|done]. eexists c, ns, rs, t, L, ns, rs. split_and!; try done. intros x Hx. by rewrite Hfr.
  - split; [|intros _; lia]. eexists c, _, _, t, _, _, _. split; [exact Hc|]. split_and!; [done..| |].
    + set_solver.
    + intros x Hx. rewrite Hfr, !existsb_app by done. cbn [existsb]. unfold frame_of at 2. cbn [anon own_phys rg_pa rg_size Z.eqb negb andb].
      rewrite !Z.div_mul by lia. destruct (in_frames b n x) eqn:Ex; [|by rewrite andb_true_r].
      rewrite Hrun by (unfold in_frames in Ex; zprop; lia). cbn. by rewrite orb_true_r.
Qed.

(** The same memory is in use and nothing is mapped differently: the frames,
    the heap addresses, the directories and every address above the user
    heap. *)
Definition same_memory w w' : Prop :=
  total_blocks (v_frames w') = total_blocks (v_frames w) ∧
  (∀ x, 0 <= x < total_blocks (v_frames w) → free_block (v_frames w') x = free_block (v_frames w) x) ∧
  (∃ L F F', family w L F ∧ family w' L F') ∧
  ∀ v c, vcbs w !! v = Some c → v_cr3 c ≠ 0 → ∃ c', vcbs w' !! v = Some c' ∧ v_cr3 c' = v_cr3 c ∧
    ∀ va, USER_HEAP_END <= va < 4294967296 → look (v_pg w') (v_cr3 c) va = look (v_pg w) (v_cr3 c) va.

Lemma same_memory_refl w : spaces_ok w → same_memory w w.
Proof. intros (L & F & HF). split_and!; [done|done|by exists L, F, F|]. intros v c Hc _. by exists c. Qed.

Lemma unchanged_same w L F v c ns rs w' : family w L F → F !! v = Some (c, ns, rs) → unchanged w L v c ns rs w' → same_memory w w'.
Proof.
  intros HF Hc (t & Hw' & Hs' & Hfr & Hsp). pose proof Hsp as ((Ev & _ & Et) & [_ Hpg] & _).
  destruct (fa_space _ _ _ HF _ _ _ _ Hc) as [_ Hs].
  split_and!; [done|done|eexists L, F, _; split; [done|by eapply family_step]|].
  intros u cu Hu Hn. destruct (decide (u = v)) as [->|Hne].
  - assert (cu = c) as -> by (pose proof (fa_vcb _ _ _ _ _ _ _ HF Hc); congruence).
    exists (with_rb t c). rewrite Ev, lookup_insert_eq. split_and!; [done|done|]. intros va Hva.
    rewrite (sp_look _ _ _ _ _ _ Hs va Hva). exact (sp_look _ _ _ _ _ _ Hs' va Hva).
  - exists cu. rewrite Ev, lookup_insert_ne by done. split_and!; [done|done|]. intros va _.
    destruct (fa_all _ _ _ HF u cu Hu Hn) as (nu & ru & HFu).
    destruct (fa_apart _ _ _ HF _ _ _ _ _ _ _ _ Hc HFu (not_eq_sym Hne)) as [Hsep _].
    unfold look. by destruct (Hpg _ Hsep) as (_ & _ & ->).
Qed.

Lemma alloc_law w v : spaces_ok w → has_space w v →
  ∃ r w', Vmm.vmm_alloc_pages v 1 7 w = Ret r w' ∧ spaces_ok w' ∧ loaded w' = loaded w ∧
    (∀ u, has_space w u → has_space w' u) ∧ (r = 0 → same_memory w w') ∧
    (r ≠ 0 → stack_at w' v r ∧ ∃ w2, Vmm.vmm_free_pages v r w' = Ret tt w2 ∧ same_memory w w2).
Proof.
  intros (L & F & HF) Hv. destruct (alloc_step w L F v 1 7 HF Hv) as (r & w' & E & Hst & Hr); [lia|done|].
  destruct (step_law _ _ _ _ _ HF Hst) as (Hok & El & Hk). exists r, w'.
  destruct (has_family _ _ _ _ HF Hv) as (c & ns & rs & Hc). destruct (fa_space _ _ _ HF _ _ _ _ Hc) as [_ Hs].
  destruct (alloc_then_free w L v c ns rs 1 7 (fa_world _ _ _ HF) Hs) as (r2 & w1 & E1 & H); [lia|done|lia|].
  rewrite E in E1. injection E1 as <- <-. split_and!; [done..| |].
  - intros ->. destruct H as [[_ H]|[? _]]; [by eapply unchanged_same|done].
  - intros H0. split; [split; [by apply Hk|by apply Hr]|]. destruct H as [[? _]|(_ & w2 & E2 & H)]; [done|].
    exists w2. split; [done|by eapply unchanged_same].
Qed.

Lemma free_step w L F v a : family w L F → has_space w v →
  ∃ w', Vmm.vmm_free_pages v a w = Ret tt w' ∧ (w' = w ∨ step_of w L F v w').
Proof.
  intros HF Hv. destruct (has_family _ _ _ _ HF Hv) as (c & ns & rs & Hc).
  destruct (fa_space _ _ _ HF _ _ _ _ Hc) as [Hn Hs]. pose proof (fa_vcb _ _ _ _ _ _ _ HF Hc) as Hvc.
  pose proof (sp_tree _ _ _ _ _ _ Hs) as Ht. destruct (sp_live _ _ _ _ _ _ Hs) as [Hv0 Ht0].
  destruct (List.find (λ r, covers a r && negb (own_phys r =? 0)) rs) as [r|] eqn:Ef.
  - destruct (find_Some_split _ _ _ Ef) as (rs1 & rs2 & -> & Hq & _).
    apply andb_true_iff in Hq as [Hcov Hown]. apply negb_true_iff, Z.eqb_neq in Hown.
    pose proof (tr_regions _ _ _ _ _ Ht) as (ns1 & nsr & H1 & H2 & ->)%Forall2_app_inv_r.
    inversion H2 as [|p ? ns2 ? _ _]; subst.
    destruct (vmm_free_pages_run w L v c ns1 p ns2 rs1 r rs2 a (fa_world _ _ _ HF) Hs) as (t & w' & E & Hw' & Hs' & Hfr & Hsp);
      [by eapply Forall2_length|done|done|].
    exists w'. split; [done|]. right. eexists c, _, _, t, _, _, _. split; [exact Hc|]. split_and!; [done..|set_solver|].
    intros x Hx. rewrite Hfr, !existsb_app by done. cbn [existsb]. unfold frame_of at 4. rewrite (proj2 (Z.eqb_neq _ 0) Hown). cbn [negb andb].
    destruct (in_frames _ _ x), (free_block _ x), (existsb _ rs1); done.
  - exists w. split; [|by left]. destruct (sp_lock _ _ _ _ _ _ Hs) as (l & Hl & Hul).
    unfold Vmm.vmm_free_pages. rewrite (proj2 (Z.eqb_neq v 0)) by done.
    rewrite (bind_Ret _ _ _ _ _ (vcb_run _ _ _ Hvc)). rewrite (proj2 (Z.eqb_neq (v_tree c) 0)) by done. rewrite Hl.
    rewrite (bind_Ret _ _ _ _ _ (lock_run w l Hul)). cbn [negb Z.eqb].
    set (w1 := set_v_locks (<[l := LOCK_LOCKED]> (v_locks w)) w).
    assert (Ht1 : tree_of w1 v c ns rs) by (by destruct Ht).
    rewrite (bind_Ret _ _ _ _ _ (first_region_run _ w1 v c _ _ Ht1)).
    rewrite find_node_miss by (by apply find_None_Forall). rewrite Z.eqb_refl, bind_ret.
    rewrite (bind_Ret _ _ _ _ _ (unlock_run w1 l ltac:(simpl; rewrite length_insert; by eapply lookup_lt_Some))).
    unfold set_v_locks. simpl. rewrite relock by done. by destruct w.
Qed.

Lemma free_law w v a : spaces_ok w → stack_at w v a →
  ∃ w', Vmm.vmm_free_pages v a w = Ret tt w' ∧ spaces_ok w' ∧ loaded w' = loaded w ∧
    (∀ u, has_space w u → has_space w' u).
Proof.
  intros Hok [Hv _]. pose proof Hok as (L & F & HF). destruct (free_step w L F v a HF Hv) as (w' & E & [->|Hst]).
  - by exists w.
  - exists w'. split; [done|]. by apply (step_law _ _ _ _ _ HF Hst).
Qed.

Lemma translate_law w v a : spaces_ok w → stack_at w v a → ∃ r, Vmm.vmm_vcb_va_to_pa v a w = Ret r w.
Proof.
  intros (L & F & HF) [Hv Ha]. destruct (has_family _ _ _ _ HF Hv) as (c & ns & rs & Hc).
  destruct (fa_space _ _ _ HF _ _ _ _ Hc) as [_ Hs]. eexists. by apply (va_to_pa_run w L v c ns rs a Hs).
Qed.

(** The functions of vmm.c are what the kernel assumes; [vmm_map_region] is
    called after the capability was checked. *)
#[export] Instance vm_address_space : AddressSpace vm := {|
  vm_ok := spaces_ok; vm_has := has_space; vm_stack := stack_at; vm_current := loaded; vm_same := same_memory;
  KState.vmm_create := fresh_space;
  KState.vmm_destroy := Vmm.vmm_destroy;
  KState.vmm_switch := Vmm.vmm_switch;
  KState.vmm_alloc_pages := Vmm.vmm_alloc_pages;
  KState.vmm_free_pages := Vmm.vmm_free_pages;
  KState.vmm_vcb_va_to_pa := Vmm.vmm_vcb_va_to_pa;
  vmm_map_region v pa va size flags own := Vmm.vmm_map_fixed (λ _ _ _ _, 0) v pa va size flags (Z.b2z own);
  vm_frames_alloc n := fzoom (pmm_alloc_pages n);
  vm_frames_free pa n := fzoom (pmm_free_pages pa n);
  vm_store pa l := fzoom (modify (λ f, set_ram (ram_put pa l (ram f)) f));
  vm_load pa n := fzoom (gets (λ f, ram_bytes f pa n));
  vm_copy_from_user := read_user;
  vmm_switch_ok := switch_law;
  vm_same_refl := same_memory_refl;
  vmm_alloc_ok := alloc_law;
  vmm_free_ok := free_law;
  vmm_translate_ok := translate_law;
|}.
End spaces.

(** ** The scheduler over vmm.c *)

Section scheduler.
Context {LY : Layout} {A U V : Type} `{!Allocator A, !Allocator V}.
Notation kernel := (kernel A U (vm V)).
Implicit Types k : kernel.

(** C2: In the kernel whose address spaces are those of vmm.c, from a state in
    which the scheduler and the address spaces are consistent, every gate
    (yield, timer tick, block, unblock, each followed by the commit of the
    deferred switch) comes to its end, and after any sequence of gates the
    address spaces are consistent and pairwise apart, the context that will be
    resumed is that of the running thread, and CR3 holds the page directory in
    the control block of its process. *)
Theorem running_thread_has_its_directory s k k' :
  gate_inv s k → rtc gate_step k k' →
  spaces_ok (k_vm k') ∧ curr_task_ctx k' = thread_run k' ∧
  (∃ c, vcbs (k_vm k') !! parent k' (thread_run k') = Some c ∧ v_cr3 c ≠ 0 ∧ g_cr3 (v_pg (k_vm k')) = v_cr3 c) ∧
  Forall (λ m, ∃ k1 k2, m k' = Ret tt k1 ∧ arch_task_context_switch k1 = Ret tt k2) [thread_yield_internal; schedule_isr] ∧
  ∀ tid, Forall (λ m, ∃ k1 k2, m tid k' = Ret tt k1 ∧ arch_task_context_switch k1 = Ret tt k2)
    [thread_block_internal; thread_unblock_internal].
Proof.
  intros Hi Hr. pose proof (gates_inv s k k' Hi Hr) as Hi'. destruct (gate_returns s k' Hi') as [G1 G2].
  destruct Hi' as [Hok Hp [_ Hctx Hvm Hsp]]. destruct (Hp _ (so_run _ _ Hok)) as [H0 _].
  split; [exact Hvm|]. split; [exact Hctx|]. split; [|split; [exact G1|exact G2]].
  destruct (loaded_cases (k_vm k') Hvm) as [(v & c & Hc & Hn & E & Hl)|[_ Hl]].
  - exists c. change (loaded (k_vm k') = parent k' (thread_run k')) in Hsp. rewrite <- Hsp, Hl. done.
  - destruct H0. rewrite <- Hsp. exact Hl.
Qed.
End scheduler.

(** ** Witness: two threads of process 64 in the address space of VmmOps *)

Definition space_demo : kernel (gset Z) (gset Z) (vm (gset Z)) :=
  set_curr_task_ctx 10 (set_schedule_lock (Some 0%nat) (set_thread_run 10 (set_thread_head [20; 10]
    (set_tcbs {[10 := demo_tcb 1 64 1 TS_READY; 20 := demo_tcb 2 64 2 TS_READY]}
       (boot_kernel sched_locks ∅ ∅ demo_vm))))).

Lemma demo_family : family demo_vm {[ 4096; 8192 ]} {[ 64 := (demo_vcb, [], []) ]}.
Proof.
  constructor.
  - exact demo_world.
  - intros v c. change (vcbs demo_vm) with ({[ 64 := demo_vcb ]} : gmap Z vmm_control_block).
    intros [<- <-]%lookup_singleton_Some _. exists [], []. apply lookup_singleton_eq.
  - intros v c ns rs [<- [= <- <- <-]]%lookup_singleton_Some. split; [done|exact demo_space].
  - intros v v' c c' ns ns' rs rs' [<- _]%lookup_singleton_Some [<- _]%lookup_singleton_Some. done.
Qed.

Lemma space_demo_gate : gate_inv 0 space_demo.
Proof.
  assert (Ht : ∀ t c, tcbs space_demo !! t = Some c →
    (t = 10 ∧ c = demo_tcb 1 64 1 TS_READY) ∨ (t = 20 ∧ c = demo_tcb 2 64 2 TS_READY)).
  { intros t c. cbn [space_demo tcbs set_tcbs set_thread_head set_thread_run set_schedule_lock set_curr_task_ctx].
    rewrite lookup_insert_Some, lookup_singleton_Some. naive_solver. }
  assert (Hh : ∀ t, t ∈ thread_head space_demo → t = 20 ∨ t = 10).
  { intros t. cbn. rewrite !elem_of_cons, elem_of_nil. tauto. }
  assert (Hok : spaces_ok demo_vm) by (eexists _, _; exact demo_family).
  split; [split| |].
  - done.
  - done.
  - intros t c Hc. by destruct (Ht t c Hc) as [[_ ->]|[_ ->]].
  - intros t Hin. split; [by destruct (Hh t Hin) as [->| ->]|].
    destruct (Hh t Hin) as [->| ->]; [exists (demo_tcb 2 64 2 TS_READY), 2%nat|exists (demo_tcb 1 64 1 TS_READY), 1%nat];
      split_and!; reflexivity.
  - cbn. repeat constructor; set_solver.
  - cbn. set_solver.
  - intros t t' c c' _ _ Hc Hc'. destruct (Ht t c Hc) as [[-> ->]|[-> ->]]; destruct (Ht t' c' Hc') as [[-> ->]|[-> ->]]; done.
  - intros t Hin. assert (parent space_demo t = 64) as -> by (by destruct (Hh t Hin) as [->| ->]). split; [done|].
    by exists demo_vcb.
  - split; [done|done|exact Hok|]. apply (loaded_is demo_vm 64 demo_vcb Hok); done.
Qed.

Lemma running_thread_has_its_directory_witness :
  ∃ k1 k2, thread_yield_internal space_demo = Ret tt k1 ∧ arch_task_context_switch k1 = Ret tt k2.
Proof.
  destruct (running_thread_has_its_directory 0 space_demo space_demo space_demo_gate (rtc_refl _ _)) as (_ & _ & _ & H & _).
  apply Forall_cons_1 in H as [(k1 & k2 & H1 & H2) _]. exists k1, k2. split; [exact H1|exact H2].
Defined.
