(* ===== verification/VmMachine.v ===== *)
(** * A machine with many address spaces (kernel/mm/vmm.c over arch/i386/paging.c)

    [machine] is the invariant of any number of address spaces beside the
    master directory of the kernel: they are apart, agree with the master below
    the user heap, and hold locks and heap cells of their own.  The steps of
    one process keep it, and [vmm_create] adds a space to it. *)

From stdpp Require Import base tactics list gmap relations.
From Stdlib Require Import ZArith Lia.
From S2P Require Import Prelude Spinlock Allocator RbTree RbDelete RbOrder Pmm Paging PageSpaces PageRuns Vmm VmmSpace VmmOps VmSpaces.

Open Scope Z_scope.

Section machine.
Context {LY : Layout} {A : Type} `{!Allocator A}.
Notation vm := (vm A).
Implicit Types w : vm.

(** ** The machine *)

(** The master directory is empty above the user heap. *)
Definition master_clear (s : pg) : Prop :=
  dir_wf s (kernel_pdir_phys s) ∧
  ∀ j, 772 <= j < 1024 → dir_entry s (kernel_pdir_phys s) j = entry0.

(** The heap cells of a control block besides its regions. *)
Definition cells (c : vmm_control_block) : gset Z := {[v_tree c; nil (v_rb c)]}.

(** The directory comes from the pool, begins as the master does and is apart
    from it. *)
Record beside_master (s : pg) (d : Z) : Prop := {
  bm_page : d ≠ pdes_addr;
  bm_low : ∀ j, 0 <= j < 772 → dir_entry s d j = dir_entry s (kernel_pdir_phys s) j;
  bm_apart : separate s d (kernel_pdir_phys s);
}.

Record machine w (L : gset Z) (F : gmap Z placed) : Prop := {
  mc_family : family w L F;
  mc_master : master_clear (v_pg w);
  mc_kernel : ∀ v c ns rs, F !! v = Some (c, ns, rs) → beside_master (v_pg w) (v_cr3 c) ∧ v_tree c ≠ nil (v_rb c);
  mc_held : ∀ v v' c c' ns ns' rs rs', F !! v = Some (c, ns, rs) → F !! v' = Some (c', ns', rs') → v ≠ v' →
    v_lock c ≠ v_lock c' ∧ cells c ## cells c';
}.
Definition machine_ok w : Prop := ∃ L F, machine w L F.

(** ** Accounting *)

(** Heap address [q] and frame [x] are charged to a process of [F]. *)
Definition holds (F : gmap Z placed) (q : Z) : Prop :=
  ∃ v c ns rs, F !! v = Some (c, ns, rs) ∧ (q ∈ cells c ∨ q ∈ ns).
Definition owned (F : gmap Z placed) (x : Z) : Prop :=
  ∃ v c ns rs, F !! v = Some (c, ns, rs) ∧ existsb (frame_of x) rs = true.

(** What is charged to nobody is the same in both states. *)
Record same_rest w (L : gset Z) F w' (L' : gset Z) F' : Prop := {
  sr_heap : ∀ q, q ∈ L' ∧ ¬ holds F' q ↔ q ∈ L ∧ ¬ holds F q;
  sr_total : total_blocks (v_frames w') = total_blocks (v_frames w);
  sr_frames : ∀ x, 0 <= x < total_blocks (v_frames w) →
    free_block (v_frames w') x = true ∨ owned F' x ↔ free_block (v_frames w) x = true ∨ owned F x;
}.

Lemma same_rest_refl w w' L F : v_frames w' = v_frames w → same_rest w L F w' L F.
Proof. intros E. by constructor; rewrite ?E. Qed.
Lemma same_rest_trans w w1 w2 L L1 L2 F F1 F2 : same_rest w L F w1 L1 F1 → same_rest w1 L1 F1 w2 L2 F2 → same_rest w L F w2 L2 F2.
Proof.
  intros [H1 T1 F1'] [H2 T2 F2']. constructor; [intros q; by rewrite H2|congruence|].
  intros x Hx. rewrite F2' by (by rewrite T1). by apply F1'.
Qed.

Lemma holds_insert F v c ns rs q : holds (<[v := (c, ns, rs)]> F) q ↔ (q ∈ cells c ∨ q ∈ ns) ∨ holds (delete v F) q.
Proof.
  split.
  - intros (v1 & c1 & ns1 & rs1 & [[<- [= <- <- <-]]|[Hne H1]]%lookup_insert_Some & Hq); [by left|right].
    exists v1, c1, ns1, rs1. by rewrite lookup_delete_ne.
  - intros [Hq|(v1 & c1 & ns1 & rs1 & [Hne H1]%lookup_delete_Some & Hq)].
    + exists v, c, ns, rs. by rewrite lookup_insert_eq.
    + exists v1, c1, ns1, rs1. by rewrite lookup_insert_ne.
Qed.
Lemma owned_insert F v c ns rs x : owned (<[v := (c, ns, rs)]> F) x ↔ existsb (frame_of x) rs = true ∨ owned (delete v F) x.
Proof.
  split.
  - intros (v1 & c1 & ns1 & rs1 & [[<- [= <- <- <-]]|[Hne H1]]%lookup_insert_Some & Hq); [by left|right].
    exists v1, c1, ns1, rs1. by rewrite lookup_delete_ne.
  - intros [Hq|(v1 & c1 & ns1 & rs1 & [Hne H1]%lookup_delete_Some & Hq)].
    + exists v, c, ns, rs. by rewrite lookup_insert_eq.
    + exists v1, c1, ns1, rs1. by rewrite lookup_insert_ne.
Qed.

(** ** Steps of a process *)

Lemma clear_no_table s j : master_clear s → 772 <= j < 1024 → ¬ has_table s (kernel_pdir_phys s) j.
Proof. intros [_ H] Hj [Hp _]. by rewrite H in Hp. Qed.

Lemma regs_kernel s s' : same_regs s s' → kernel_pdir_phys s' = kernel_pdir_phys s.
Proof. intros H. unfold same_regs in H. by destruct_and! H. Qed.

(** A step in the directory [d] leaves the master and the directories beside
    it as they are. *)
Lemma master_spared s s' d : spares s s' d → beside_master s d → master_clear s → master_clear s'.
Proof.
  intros [[Hr _] Hsp] Hb [_ Hc]. destruct (Hsp _ (bm_apart _ _ Hb)) as ((Hwf & _) & He & _).
  split; rewrite (regs_kernel _ _ Hr); [done|]. intros j Hj. rewrite He by lia. by apply Hc.
Qed.
Lemma beside_self s s' d : spares s s' d → beside_master s d → beside_master s' d.
Proof.
  intros [[Hr Hlow] Hsp] [H1 H2 H3]. destruct (Hsp _ H3) as (Hs & He & _). constructor; rewrite ?(regs_kernel _ _ Hr); [done| |done].
  intros j Hj. rewrite Hlow, He by lia. by apply H2.
Qed.
Lemma beside_other s s' d d1 : spares s s' d → beside_master s d → separate s d d1 → beside_master s d1 → beside_master s' d1.
Proof.
  intros Hsp Hb Hs [H1 H2 H3]. pose proof Hsp as [[Hr _] Hsp']. destruct (Hsp' _ (bm_apart _ _ Hb)) as (_ & He & _).
  destruct (Hsp' _ Hs) as (_ & He1 & _). constructor; rewrite ?(regs_kernel _ _ Hr); [done| |].
  - intros j Hj. rewrite He1, He by lia. by apply H2.
  - by apply (separate_others s s' d); [|done|apply Hb|].
Qed.

(** A process does a step of its own: the other entries stay what they are. *)
Lemma machine_stepped w L F w' v c ns rs t L' ns' rs' : machine w L F → F !! v = Some (c, ns, rs) → world w' L' →
  space w' L' v (with_rb t c) ns' rs' → spared w L v c ns w' L' (with_rb t c) ns' →
  machine w' L' (<[v := (with_rb t c, ns', rs')]> F).
Proof.
  intros [HF Hm Hk Hh] Hc Hw' Hs' Hsp. pose proof Hsp as ((_ & En & _) & Hpg & _). cbn in En. destruct (Hk _ _ _ _ Hc) as [Hb Hne].
  assert (Ec : cells (with_rb t c) = cells c) by (unfold cells; cbn; by rewrite En).
  constructor; [by eapply family_step|by eapply master_spared|..].
  - intros v1 c1 ns1 rs1 [[<- [= <- <- <-]]|[Hv H1]]%lookup_insert_Some.
    + split; [by eapply beside_self|]. cbn. by rewrite En.
    + destruct (Hk _ _ _ _ H1) as [Hb1 Hne1]. split; [|done]. apply (beside_other (v_pg w) (v_pg w') (v_cr3 c)); [done|done| |done].
      by destruct (fa_apart _ _ _ HF _ _ _ _ _ _ _ _ Hc H1 Hv).
  - intros v1 v2 c1 c2 ns1 ns2 rs1 rs2 H1 H2 Hv.
    apply lookup_insert_Some in H1 as [[<- [= <- <- <-]]|[Hv1 H1]]; apply lookup_insert_Some in H2 as [[<- [= <- <- <-]]|[Hv2 H2]];
      rewrite ?Ec; [done|..]; [exact (Hh _ _ _ _ _ _ _ _ Hc H2 Hv)|exact (Hh _ _ _ _ _ _ _ _ H1 Hc Hv)|by eapply Hh].
Qed.

Lemma machine_step w L F v w' : machine w L F → step_of w L F v w' → ∃ L' F', machine w' L' F' ∧ same_rest w L F w' L' F'.
Proof.
  intros HM (c & ns & rs & t & L' & ns' & rs' & Hc & Hw' & Hs' & Hsp & HL & Hfr). exists L', (<[v := (with_rb t c, ns', rs')]> F).
  split; [by eapply machine_stepped|]. pose proof Hsp as ((_ & En & Et) & _). cbn in En.
  assert (Ec : cells (with_rb t c) = cells c) by (unfold cells; cbn; by rewrite En).
  rewrite <- (insert_id F v _ Hc) at 1. constructor; [|done|].
  - intros q. rewrite !holds_insert, Ec. assert (q ∈ L' ∧ q ∉ ns' ↔ q ∈ L ∧ q ∉ ns) as Hq; [|tauto].
    rewrite <- !(elem_of_list_to_set (C := gset Z)), <- !elem_of_difference. by rewrite HL.
  - intros x Hx. rewrite !owned_insert. assert (∀ a b : bool, ∀ P, a = true ∨ b = true ∨ P ↔ a || b = true ∨ P) as Hor.
    { intros a b P. rewrite orb_true_iff. tauto. } rewrite !Hor, Hfr by done. done.
Qed.

Lemma machine_switch w L F v : machine w L F → has_space w v →
  ∃ w', vmm_switch v w = Ret tt w' ∧ machine w' L F ∧ v_frames w' = v_frames w.
Proof.
  intros [HF Hm Hk Hh] Hv. destruct (has_family _ _ _ _ HF Hv) as (c & ns & rs & Hc).
  destruct (switch_run w L F v c ns rs HF Hc) as [E HF']. eexists. split; [exact E|]. split; [|done]. constructor; [done|..|done].
  - destruct Hm as [H1 H2]. split; [by apply dir_wf_cr3|exact H2].
  - intros v1 c1 ns1 rs1 H1. destruct (Hk _ _ _ _ H1) as [[B1 B2 (Hwf & I1 & I2)] Hne]. split; [|done].
    constructor; [done|done|]. split; [by apply dir_wf_cr3|by split].
Qed.

(** ** A new directory *)

(** Directory [d] is still one, with the same entries and translations. *)
Record kept_dir (s s' : pg) (d : Z) : Prop := {
  kd_wf : dir_wf s' d;
  kd_entry : ∀ j, 0 <= j < 1024 → dir_entry s' d j = dir_entry s d j;
  kd_walk : ∀ va, translate s' d va = translate s d va;
}.

(** That is so when none of its pages was written or given back. *)
Lemma pages_kept s s' d : dir_wf s d →
  (∀ p, p = d ∨ (∃ i, 0 <= i < 1024 ∧ has_table s d i ∧ p = ptbl_of_pde (dir_entry s d i)) →
     (∀ j, 0 <= j < 1024 → g_mem s' (slot p j) = g_mem s (slot p j)) ∧ (table_page s p → table_page s' p)) →
  kept_dir s s' d.
Proof.
  intros Hwf Hp. destruct (Hp d (or_introl eq_refl)) as [He Hd].
  assert (Ht : ∀ i, 0 <= i < 1024 → has_table s d i → (∀ j, 0 <= j < 1024 → g_mem s' (slot (ptbl_of_pde (dir_entry s d i)) j) = g_mem s (slot (ptbl_of_pde (dir_entry s d i)) j)) ∧ table_page s' (ptbl_of_pde (dir_entry s d i))).
  { intros i Hi Ht. destruct (Hp (ptbl_of_pde (dir_entry s d i))) as [H1 H2]; [right; by exists i|]. split; [done|].
    apply H2. by apply (dir_table _ _ Hwf i Hi). }
  assert (Ee : ∀ j, 0 <= j < 1024 → dir_entry s' d j = dir_entry s d j) by exact He. constructor; [|done|].
  - destruct Hwf as [H1 H2 H3 H4]. unfold has_table in *. constructor.
    + destruct H1 as [?|?]; [by left|right; auto].
    + intros i Hi. unfold has_table. rewrite (Ee i Hi). intros Hti. destruct (H2 i Hi Hti) as (? & _ & ?). split; [done|]. split; [|done]. by apply Ht.
    + intros i Hi. rewrite (Ee i Hi). by apply H3.
    + intros i j Hi Hj. unfold has_table. rewrite (Ee i Hi), (Ee j Hj). by apply H4.
  - intros va. apply translate_ext; [apply He, PD_INDEX_range|]. intros Hti.
    apply (Ht (PD_INDEX va)); [apply PD_INDEX_range|done|apply PT_INDEX_range].
Qed.

(** Two kept directories are as far apart as before. *)
Lemma kept_separate s s' d d' : kept_dir s s' d → kept_dir s s' d' → separate s d d' → separate s' d d'.
Proof. intros [_ E1 _] [Hwf E2 _] (_ & I1 & I2). split; [done|]. split; by eapply isolated_keep. Qed.
Lemma kept_beside s s' d : same_regs s s' → kept_dir s s' d → kept_dir s s' (kernel_pdir_phys s) → beside_master s d → beside_master s' d.
Proof.
  intros Hr%regs_kernel Hd Hk [H1 H2 H3]. constructor; rewrite ?Hr; [done| |by eapply kept_separate].
  intros j Hj. rewrite (kd_entry _ _ _ Hd), (kd_entry _ _ _ Hk) by lia. by apply H2.
Qed.
Lemma kept_master s s' : same_regs s s' → kept_dir s s' (kernel_pdir_phys s) → master_clear s → master_clear s'.
Proof.
  intros Hr%regs_kernel [Hwf He _] [_ Hc]. split; rewrite Hr; [done|]. intros j Hj. rewrite He by lia. by apply Hc.
Qed.

(** [d] is a page that was free and is now a directory with the entries of the
    master; the old directories are as they were. *)
Record made (s s' : pg) (d : Z) : Prop := {
  md_new : d ≠ 0 ∧ ¬ live s d;
  md_pg : pg_ok s';
  md_regs : same_regs s s';
  md_wf : dir_wf s' d;
  md_entry : ∀ j, 0 <= j < 1024 → dir_entry s' d j = dir_entry s (kernel_pdir_phys s) j;
  md_walk : ∀ va, translate s' d va = translate s (kernel_pdir_phys s) va;
  md_old : ∀ d', dir_wf s d' → kept_dir s s' d';
}.

Lemma create_pages s : pg_ok s → master_clear s →
  arch_paging_pool_alloc s = Ret 0 s ∨
  ∃ d s1 s', arch_paging_pool_alloc s = Ret d s1 ∧ arch_clone_kernel_pde d s1 = Ret d s' ∧ made s s' d.
Proof.
  intros Hpg [Hkwf _]. pose proof Hpg as [Hpool _].
  destruct (pool_alloc_run s Hpool) as [(i & Hi & Hu & _ & E)|[_ E]]; [right|by left].
  destruct (pool_page_facts i Hi) as (_ & _ & Hi0 & _). set (k := kernel_pdir_phys s) in *. set (d := pool_page i) in *.
  destruct (taken_dir_wf i s k Hpool Hi Hu Hkwf) as [Hkwf1 Hke].
  assert (Hnl : ¬ live s d).
  { intros Hl. apply (live_outside s d i 0 Hl Hi Hu ltac:(lia)). unfold slot, d. lia. }
  assert (Hused : ∀ j, 0 <= j < 2048 → slot_used (taken_slot i s) j = slot_used s j || bool_decide (j = i)).
  { intros j Hj. apply mark_used; [apply Hpool|done|done]. }
  assert (Hd1 : table_page (taken_slot i s) d).
  { exists i. split_and!; [lia|lia|done|]. rewrite Hused by done. rewrite (bool_decide_eq_true_2 (i = i)) by done. apply orb_true_r. }
  assert (Htp : ∀ p, table_page s p → table_page (taken_slot i s) p).
  { intros p (x & Hx & -> & Hux). exists x. split_and!; [lia|lia|done|]. rewrite Hused by done. by rewrite Hux. }
  assert (Hkd : d ≠ k) by (intros E'; apply Hnl; rewrite E'; apply (dir_page _ _ Hkwf)).
  assert (Hno : no_table_is (taken_slot i s) k d).
  { intros j Hj Ht E'. unfold has_table in Ht. rewrite Hke in * by done. apply Hnl. rewrite <- E'.
    right. by apply (dir_table _ _ Hkwf j Hj). }
  destruct (arch_clone_run (taken_slot i s) d) as (s' & E' & Hwf & _ & Hde & Hlv & Htr & Hus & Hrg); [exact Hkwf1|exact Hd1|exact Hkd|exact Hno|].
  change (kernel_pdir_phys (taken_slot i s)) with k in *.
  assert (Hold : ∀ d', dir_wf s d' → kept_dir s s' d').
  { intros d' Hd'. apply pages_kept; [done|]. intros p Hp.
    assert (Hl : live s p).
    { destruct Hp as [->|(x & Hx & Ht & ->)]; [apply (dir_page _ _ Hd')|right; by apply (dir_table _ _ Hd' x Hx)]. } split.
    - intros j Hj. rewrite Hlv; [by apply taken_live| | |done]; [destruct Hl; [by left|right; auto]|by intros ->].
    - intros Hp'. destruct (Htp p Hp') as (x & Hx & Ex & Hux). exists x. split_and!; try done; try lia. unfold slot_used, pool_word in *. by rewrite Hus. }
  exists d, (taken_slot i s), s'. split; [exact E|]. split; [exact E'|]. constructor; try done.
  - split; [lia|done].
  - destruct (taken_pg_ok i s Hpg) as [(Hlen & l & Hl & Hf) (l' & Hl' & Hf' & Hne)].
    destruct Hrg as (R1 & R2 & _ & _ & _ & R6). split; [split; [by rewrite Hus|]; exists l|exists l']; rewrite ?R1, ?R2, ?R6; done.
  - intros j Hj. rewrite Hde by done. by apply Hke.
  - intros va. rewrite Htr. apply translate_ext; [by apply Hke, PD_INDEX_range|].
    intros Ht. apply taken_live; [|done|done|apply PT_INDEX_range]. right. apply (dir_table _ _ Hkwf); [apply PD_INDEX_range|done].
Qed.

(** The new directory is apart from every directory that was apart from the
    kernel's, in both directions, and those stay apart from each other. *)
Lemma made_separate s s' d d1 : made s s' d → master_clear s → dir_wf s d1 → separate s d1 (kernel_pdir_phys s) →
  separate s' d d1 ∧ separate s' d1 d.
Proof.
  intros [[_ Hnl] _ _ Hwf He _ Hold] Hm Hwf1 (_ & (_ & Hn & Hh) & _). destruct (Hold d1 Hwf1) as [Hwf1' He1 _].
  assert (Hne : d1 ≠ d) by (intros ->; apply Hnl, (dir_page _ _ Hwf1)).
  assert (Htab : ∀ j, 0 <= j < 1024 → has_table s' d1 j → has_table s d1 j ∧ ptbl_of_pde (dir_entry s' d1 j) = ptbl_of_pde (dir_entry s d1 j)
    ∧ ptbl_of_pde (dir_entry s d1 j) ≠ d).
  { intros j Hj Ht. unfold has_table in *. rewrite He1 in * by done. split; [done|]. split; [done|]. intros E. apply Hnl. rewrite <- E.
    right. by apply (dir_table _ _ Hwf1). }
  assert (Hd : ∀ j, 0 <= j < 1024 → has_table s' d j → has_table s (kernel_pdir_phys s) j) by (intros j Hj; unfold has_table; by rewrite He).
  assert (isolated s' d d1 ∧ isolated s' d1 d) as [I1 I2].
  { split; (split; [done|split]).
    - intros j Hj Ht. destruct (Htab j Hj Ht) as (_ & -> & H). exact H.
    - intros j Hj Ht. by destruct (clear_no_table s j Hm Hj (Hd j ltac:(lia) Ht)).
    - intros j Hj Ht. rewrite He by done. apply Hn; auto.
    - intros j Hj Ht. destruct (Htab j ltac:(lia) Ht) as (Ht0 & -> & H). destruct (Hh j Hj Ht0) as [H2 _]. split; [|done].
      intros i Hi Hti. rewrite He by done. apply H2; auto. }
  split; (split; [done|by split]).
Qed.
Lemma made_kernel s s' d : made s s' d → master_clear s → beside_master s' d ∧ master_clear s'.
Proof.
  intros [[_ Hnl] _ Hr Hwf He _ Hold] Hm. pose proof Hm as [Hk Hc]. set (k := kernel_pdir_phys s) in *.
  destruct (Hold k Hk) as [Hk' Hek _]. assert (Hne : k ≠ d) by (intros E; apply Hnl; rewrite <- E; apply (dir_page _ _ Hk)).
  assert (Hkt : ∀ j, 0 <= j < 1024 → has_table s' k j ↔ has_table s k j) by (intros j Hj; unfold has_table; by rewrite Hek).
  assert (Hd : ∀ j, 0 <= j < 1024 → has_table s' d j ↔ has_table s k j) by (intros j Hj; unfold has_table; by rewrite He).
  pose proof (regs_kernel _ _ Hr) as Ek. fold k in Ek.
  split; [constructor; rewrite ?Ek; [intros E; apply Hnl; by left|intros j Hj; rewrite He, Hek by lia; done|split; [done|split; (split; [done|split])]]|].
  - intros j Hj Ht%Hkt; [|done]. rewrite Hek by done. intros E. apply Hnl. rewrite <- E. right. by apply (dir_table _ _ Hk).
  - intros j Hj Ht%Hd; [|lia]. by destruct (clear_no_table s j Hm Hj).
  - intros j Hj Ht%Hd; [|done]. rewrite He by done. by apply (dir_table _ _ Hk).
  - intros j Hj Ht%Hkt; [|lia]. by destruct (clear_no_table s j Hm Hj).
  - by eapply kept_master; [|apply Hold|].
Qed.

(** ** Creating an address space *)

(** What the others need of the table of locks. *)
Definition locks_kept (K K' : lock_table) : Prop := ∀ l, K !! l = Some LOCK_UNLOCKED → K' !! l = Some LOCK_UNLOCKED.

Lemma no_space_no_entry w L F v : family w L F → ¬ has_space w v → F !! v = None.
Proof.
  intros HF Hv. destruct (F !! v) as [[[c ns] rs]|] eqn:E; [|done]. exfalso. apply Hv. exists c.
  split; [by eapply fa_vcb|]. by destruct (fa_space _ _ _ HF _ _ _ _ E).
Qed.

(** The space of another process, when its directory was kept and its lock
    and cells left alone. *)
Lemma space_kept w L v v1 c c1 ns1 rs1 (h : A) g K L' : space w L v1 c1 ns1 rs1 → v1 ≠ v →
  (∀ l, v_lock c1 = Some l → v_locks w !! l = Some LOCK_UNLOCKED → K !! l = Some LOCK_UNLOCKED) →
  cells c1 ⊆ L' → pg_ok g → kept_dir (v_pg w) g (v_cr3 c1) →
  space (mk_vm (<[v := c]> (vcbs w)) (regions w) h (v_frames w) g K) L' v1 c1 ns1 rs1.
Proof.
  intros [Ht Hl Hm Hk Hp Hlook] Hne HK HL Hpg [Hwf He Htr]. unfold cells in HL. constructor; cbn.
  - apply (tree_of_keep w); [|by intros|exact Ht]. cbn. rewrite lookup_insert_ne by done. apply (tr_vcb _ _ _ _ _ Ht).
  - done.
  - destruct Hm as (M1 & M2 & M3 & M4). split_and!; [set_solver|set_solver|done|done].
  - destruct Hk as (l & El & Hul). exists l. split; [done|by apply HK].
  - constructor; [done|done|]. intros j Hj. rewrite He by lia. by apply (sg_small _ _ Hp).
  - intros va Hva. unfold look. rewrite Htr. by apply Hlook.
Qed.
Lemma space_cells w L v c ns rs : space w L v c ns rs → cells c ⊆ L.
Proof. intros Hs. destruct (sp_mem _ _ _ _ _ _ Hs) as (H1 & H2 & _). unfold cells. set_solver. Qed.
Lemma kept_refl s d : dir_wf s d → kept_dir s s d.
Proof. by constructor. Qed.

(** A control block without a directory changes nothing. *)
Lemma machine_idle w L F v c (h : A) K : machine w L F → ¬ has_space w v → v_cr3 c = 0 → owns h L → locks_kept (v_locks w) K →
  machine (mk_vm (<[v := c]> (vcbs w)) (regions w) h (v_frames w) (v_pg w) K) L F.
Proof.
  intros HM Hv Hc Hh HK. pose proof HM as [HF Hm Hk Hd]. pose proof (no_space_no_entry _ _ _ _ HF Hv) as Hn.
  constructor; [constructor|done..].
  - destruct (fa_world _ _ _ HF). by constructor.
  - cbn. intros v1 c1 [[<- <-]|[Hne H1]]%lookup_insert_Some; [done|]. by apply (fa_all _ _ _ HF).
  - intros v1 c1 ns1 rs1 H1. destruct (fa_space _ _ _ HF _ _ _ _ H1) as [Hn1 Hs1]. split; [done|].
    apply (space_kept w L); [done|intros ->; discriminate (eq_trans (eq_sym Hn) H1)|intros l _; apply HK|by eapply space_cells|
      apply HF|apply kept_refl, (sg_wf _ _ (sp_pg _ _ _ _ _ _ Hs1))].
  - apply (fa_apart _ _ _ HF).
Qed.

(** The new space joins the others. *)
Lemma machine_join w L F v p t d i (h : A) g K :
  machine w L F → ¬ has_space w v → v ≠ 0 → p ≠ 0 → p ∉ L → nil t ∉ L → p ≠ nil t → tree_ok (start_of (regions w)) t [] →
  owns h ({[p; nil t]} ∪ L) → locks_kept (v_locks w) K →
  v_locks w !! i = Some LOCK_INVALID → K !! i = Some LOCK_UNLOCKED → made (v_pg w) g d →
  let c := mk_vcb p t d (Some i) in
  machine (mk_vm (<[v := c]> (vcbs w)) (regions w) h (v_frames w) g K) ({[p; nil t]} ∪ L) (<[v := (c, [], [])]> F).
Proof.
  intros HM Hv Hv0 Hp HpL HtL Hpt Htree Hh HK Hi0 Hi Hmd c. pose proof HM as [HF Hm Hk Hd]. pose proof (no_space_no_entry _ _ _ _ HF Hv) as HFv.
  assert (Hout : ∀ q, q ∉ L → regions w !! q = None).
  { intros q Hq. apply not_elem_of_dom. intros H. apply Hq, (wd_regions _ _ (fa_world _ _ _ HF)), H. }
  assert (Hwf : ∀ v1 c1 ns1 rs1, F !! v1 = Some (c1, ns1, rs1) → dir_wf (v_pg w) (v_cr3 c1)).
  { intros v1 c1 ns1 rs1 H1. destruct (fa_space _ _ _ HF _ _ _ _ H1) as [_ Hs]. apply (sg_wf _ _ (sp_pg _ _ _ _ _ _ Hs)). }
  destruct (made_kernel _ _ _ Hmd Hm) as [Hsk Hm']. constructor; [constructor|exact Hm'|..].
  - destruct (fa_world _ _ _ HF). constructor; cbn; try done; [set_solver|apply Hmd].
  - cbn. intros v1 c1 [[<- <-]|[Hne H1]]%lookup_insert_Some Hn1; [exists [], []; apply lookup_insert_eq|].
    destruct (fa_all _ _ _ HF v1 c1 H1 Hn1) as (ns1 & rs1 & H). exists ns1, rs1. by rewrite lookup_insert_ne.
  - intros v1 c1 ns1 rs1 [[<- [= <- <- <-]]|[Hne H1]]%lookup_insert_Some.
    + split; [apply Hmd|]. constructor; cbn.
      * constructor; cbn; [apply lookup_insert_eq|done|constructor..].
      * done.
      * split_and!; [set_solver|set_solver|by apply Hout|by apply Hout].
      * by exists i.
      * constructor; [apply Hmd|apply Hmd|]. intros j Hj. rewrite (md_entry _ _ _ Hmd) by lia. by rewrite (proj2 Hm j Hj).
      * intros va Hva. unfold look. rewrite (md_walk _ _ _ Hmd). destruct (high_index va Hva) as [_ Hidx]. unfold translate.
        fold (dir_entry (v_pg w) (kernel_pdir_phys (v_pg w)) (PD_INDEX va)). by rewrite (proj2 Hm _ Hidx).
    + destruct (fa_space _ _ _ HF _ _ _ _ H1) as [Hn1 Hs1]. split; [done|].
      apply (space_kept w L); [done..|intros l _; apply HK|apply space_cells in Hs1; set_solver|apply Hmd|by eapply Hmd, Hwf].
  - intros v1 v2 c1 c2 ns1 ns2 rs1 rs2 H1 H2 Hne. cbn.
    apply lookup_insert_Some in H1 as [[<- [= <- <- <-]]|[Hne1 H1]]; apply lookup_insert_Some in H2 as [[<- [= <- <- <-]]|[Hne2 H2]].
    + done.
    + split; [|set_solver]. by apply (made_separate _ _ _ _ Hmd Hm (Hwf _ _ _ _ H2)), (bm_apart _ _ (proj1 (Hk _ _ _ _ H2))).
    + split; [|set_solver]. by apply (made_separate _ _ _ _ Hmd Hm (Hwf _ _ _ _ H1)), (bm_apart _ _ (proj1 (Hk _ _ _ _ H1))).
    + destruct (fa_apart _ _ _ HF _ _ _ _ _ _ _ _ H1 H2 Hne) as [Hs Hdj]. split; [|done]. apply (kept_separate (v_pg w)); [by eapply Hmd, Hwf..|done].
  - intros v1 c1 ns1 rs1 [[<- [= <- <- <-]]|[Hne H1]]%lookup_insert_Some; [done|].
    destruct (Hk _ _ _ _ H1) as [Hb Hc]. split; [|done]. apply (kept_beside (v_pg w)); [apply Hmd|by eapply Hmd, Hwf|apply Hmd, Hm|done].
  - assert (Hnew : ∀ v1 c1 ns1 rs1, F !! v1 = Some (c1, ns1, rs1) → v_lock c ≠ v_lock c1 ∧ cells c ## cells c1).
    { intros v1 c1 ns1 rs1 H1. destruct (fa_space _ _ _ HF _ _ _ _ H1) as [_ Hs1]. split.
      - destruct (sp_lock _ _ _ _ _ _ Hs1) as (l & -> & Hl). cbn. congruence.
      - apply space_cells in Hs1. unfold cells, c. cbn. set_solver. }
    intros v1 v2 c1 c2 ns1 ns2 rs1 rs2 H1 H2 Hne.
    apply lookup_insert_Some in H1 as [[<- [= <- <- <-]]|[Hne1 H1]]; apply lookup_insert_Some in H2 as [[<- [= <- <- <-]]|[Hne2 H2]].
    + done.
    + by eapply Hnew.
    + destruct (Hnew _ _ _ _ H1) as [Hl Hx]. split; [by apply not_eq_sym|done].
    + by eapply Hd.
Qed.

(** Each component of the state on its own. *)
Lemma put_parts v c V R (h : A) f g K : put_vcb v c (mk_vm V R h f g K) = Ret tt (mk_vm (<[v := c]> V) R h f g K).
Proof. reflexivity. Qed.
Lemma locks_parts {B} (m : M lock_table B) V R (h : A) f g K b K' : m K = Ret b K' → lzoom m (mk_vm V R h f g K) = Ret b (mk_vm V R h f g K').
Proof. exact (zoom_Ret (Contains0 := vm_lock_table) m (mk_vm V R h f g K) b K'). Qed.
Lemma heap_parts {B} (m : M A B) V R (h : A) f g K b h' : m h = Ret b h' → hzoom m (mk_vm V R h f g K) = Ret b (mk_vm V R h' f g K).
Proof. exact (hzoom_run m (mk_vm V R h f g K) b h'). Qed.
Lemma pages_parts {B} (m : M pg B) V R (h : A) f g K b g' : m g = Ret b g' → gzoom m (mk_vm V R h f g K) = Ret b (mk_vm V R h f g' K).
Proof. exact (gzoom_run m (mk_vm V R h f g K) b g'). Qed.

(** Giving the struct of a fresh tree back. *)
Lemma tree_given_back (h : A) L p t : p ≠ 0 → p ∉ L → nil t ∉ L → p ≠ nil t → owns h ({[p; nil t]} ∪ L) →
  ∃ h', rbtree_destroy p t h = Ret tt h' ∧ owns h' L.
Proof.
  intros Hp HpL HtL Hne Ho. unfold rbtree_destroy. rewrite (proj2 (Z.eqb_neq p 0) Hp).
  destruct (kfree_ok h _ (nil t) Ho) as (h1 & E1 & Ho1); [set_solver|]. rewrite (bind_Ret _ _ _ _ _ E1).
  destruct (kfree_ok h1 _ p Ho1) as (h2 & E2 & Ho2); [set_solver|]. exists h2. split; [exact E2|].
  replace L with ((({[p; nil t]} ∪ L) ∖ {[nil t]}) ∖ {[p]}) by set_solver. done.
Qed.

Lemma release_kept K K' i : locks_kept K K' → K !! i = Some LOCK_INVALID → locks_kept K (<[i := LOCK_INVALID]> K').
Proof. intros H Hi l Hl. rewrite list_lookup_insert_ne by congruence. by apply H. Qed.

(** [vmm_create] on the zeroed control block of a new process: it returns;
    either memory ran out and nothing is lost, or the process has an address
    space of its own, which starts as the kernel's. *)
Lemma create_run w L F v user : machine w L F → v ≠ 0 → ¬ has_space w v →
  ∃ r w', fresh_space v user w = Ret r w' ∧
    (r = E_NOMEM ∧ machine w' L F ∧ v_pg w' = v_pg w ∧ v_frames w' = v_frames w ∧ ¬ has_space w' v ∨
     r = 0 ∧ ∃ c, machine w' (cells c ∪ L) (<[v := (c, [], [])]> F) ∧ cells c ## L ∧ v_frames w' = v_frames w ∧ vcbs w' !! v = Some c ∧
       ∀ va, translate (v_pg w') (v_cr3 c) va = translate (v_pg w) (kernel_pdir_phys (v_pg w)) va).
Proof.
  intros HM Hv0 Hv. pose proof HM as [HF Hm _ _]. pose proof (fa_world _ _ _ HF) as Hw.
  assert (Hfail : ∀ c h K, v_cr3 c = 0 → owns h L → locks_kept (v_locks w) K →
    let x := mk_vm (<[v := c]> (vcbs w)) (regions w) h (v_frames w) (v_pg w) K in
    machine x L F ∧ v_pg x = v_pg w ∧ v_frames x = v_frames w ∧ ¬ has_space x v).
  { intros c h K Hc Hh HK x. split; [by apply machine_idle|]. split; [done|]. split; [done|].
    intros (c' & Hc' & Hn). cbn in Hc'. rewrite lookup_insert_eq in Hc'. by injection Hc' as <-. }
  assert (Hjoin : ∀ p t d i h g K, p ≠ 0 → p ∉ L → nil t ∉ L → p ≠ nil t → tree_ok (start_of (regions w)) t [] → owns h ({[p; nil t]} ∪ L) →
    locks_kept (v_locks w) K → v_locks w !! i = Some LOCK_INVALID → K !! i = Some LOCK_UNLOCKED → made (v_pg w) g d → _) by
    (intros p t d i h g K; exact (machine_join w L F v p t d i h g K HM Hv Hv0)).
  pose proof (wd_heap _ _ Hw) as Ho0. destruct (create_pages (v_pg w) (wd_pg _ _ Hw) Hm) as [Ea|(d & s1 & s' & Ea & Ec & Hmd)];
    clear HM HF Hm Hw Hv; destruct w as [V R h0 f g K0]; cbn in Hfail, Hjoin, Ho0, Ea; try cbn in Hmd.
  all: unfold fresh_space; rewrite (bind_Ret _ _ _ _ _ (put_parts v _ V R h0 f g K0)); unfold vmm_create;
    rewrite (proj2 (Z.eqb_neq v 0) Hv0); rewrite (bind_Ret _ _ _ zero_vcb (mk_vm (<[v := zero_vcb]> V) R h0 f g K0)) by (apply vcb_run, lookup_insert_eq).
  all: destruct (spinlock_alloc_fresh K0) as (lk & K & El & HK); rewrite (bind_Ret _ _ _ _ _ (locks_parts _ _ R h0 f g _ _ _ El));
    rewrite (bind_Ret _ _ _ _ _ (put_parts v _ _ R h0 f g K)), insert_insert_eq; destruct lk as [i|].
  2, 4: eexists _, _; split; [reflexivity|]; left; split; [done|]; destruct HK as [-> _]; apply Hfail; [done|done|by intros l].
  all: destruct HK as (Hi0 & Hi & _ & Hkeep); assert (HK : locks_kept K0 K) by (intros l Hl; by apply (Hkeep l LOCK_UNLOCKED)).
  all: destruct (rbtree_create_run (start_of R) h0 L Ho0) as (p & t & h & Et & Ht);
    rewrite (bind_Ret _ _ _ _ _ (heap_parts _ _ R h0 f g K _ _ Et)), (bind_Ret _ _ _ _ _ (put_parts v _ _ R h f g K)), insert_insert_eq; cbn [fst snd];
    destruct Ht as [[-> Ho]|(Hp & HpL & HtL & Hpt & Htree & Ho)].
  1, 3: rewrite Z.eqb_refl; rewrite (bind_Ret _ _ _ tt _ (locks_parts (spinlock_release (Some i)) _ R h f g K tt (<[i := LOCK_INVALID]> K) eq_refl)); eexists _, _; (split; [reflexivity|]); left;
    (split; [done|]); apply Hfail; [done|done|by apply release_kept].
  all: rewrite (proj2 (Z.eqb_neq p 0) Hp), (bind_Ret _ _ _ _ _ (pages_parts _ _ R h f g K _ _ Ea)).
  - rewrite Z.eqb_refl. destruct (tree_given_back h L p t Hp HpL HtL Hpt Ho) as (h' & Ed & Ho').
    rewrite (bind_Ret _ _ _ _ _ (heap_parts _ _ R h f g K _ _ Ed)), (bind_Ret _ _ _ tt _ (locks_parts (spinlock_release (Some i)) _ R h' f g K tt (<[i := LOCK_INVALID]> K) eq_refl)).
    eexists _, _. split; [reflexivity|]. left. split; [done|]. apply Hfail; [done|done|by apply release_kept].
  - destruct (md_new _ _ _ Hmd) as [Hd0 _]. rewrite (proj2 (Z.eqb_neq d 0) Hd0), (bind_Ret _ _ _ _ _ (pages_parts _ _ R h f s1 K _ _ Ec)).
    rewrite (bind_Ret _ _ _ _ _ (put_parts v _ _ R h f s' K)), insert_insert_eq. rewrite (proj2 (Z.eqb_neq d 0) Hd0).
    eexists _, _. split; [reflexivity|]. right. split; [done|]. exists (mk_vcb p t d (Some i)).
    split; [by apply Hjoin|]. split; [unfold cells; cbn; set_solver|]. split; [done|]. split; [apply lookup_insert_eq|]. apply Hmd.
Qed.

End machine.
