(* ===== verification/VmTeardown.v ===== *)
(** * Taking an address space down (vmm_destroy of kernel/mm/vmm.c)

    The loop over the regions gives back the pages, frames and heap cells of
    each of them, then the tree, the tables and the directory follow.  The
    lemmas keep the invariant [machine] for the processes that stay. *)

From stdpp Require Import base tactics list gmap relations.
From Stdlib Require Import ZArith Lia.
From S2P Require Import Prelude Spinlock Allocator RbTree RbDelete RbOrder Pmm Paging PageSpaces PageRuns Vmm VmmSpace VmmOps VmSpaces VmMachine.

Open Scope Z_scope.

Section teardown.
Context {LY : Layout} {A : Type} `{!Allocator A}.
Notation vm := (vm A).
Implicit Types w : vm.

(** ** The directory *)

(** The tables [arch_destroy_address_space] frees. *)
Definition own_table (s : pg) (d j : Z) : Prop := 772 <= j < 960 ∧ has_table s d j.

Lemma beside_finds s d : space_pg s d → master_clear s → beside_master s d → finds (own_table s d) s d (kernel_pdir_phys s).
Proof.
  intros [_ Hwf Hsm] [_ Hclear] Hb i Hi. destruct (decide (i < 772)) as [Hlow|Hhigh].
  - right. split; [intros [? _]; lia|]. right. rewrite (bm_low _ _ Hb) by lia. apply Z.eqb_refl.
  - destruct (present (dir_entry s d i)) eqn:Hp; [left|right; split; [by intros (_ & H & _); rewrite Hp in H|by left]].
    assert (Ht : has_table s d i) by (split; [done|apply Hsm; [lia|done]]).
    destruct (dir_table _ _ Hwf i ltac:(lia) Ht) as (_ & (x & Hx & Ex & _) & _).
    split_and!; [split; [lia|done]|done| |by exists x]. apply Z.eqb_neq. rewrite Hclear by lia. intros E.
    unfold ptbl_of_pde in Ex. rewrite E in Ex. destruct (pool_page_facts x Hx) as (_ & _ & Hx0 & _).
    change (u32 (Z.shiftl (paddr entry0) 12)) with 0 in Ex. lia.
Qed.

(** After the directory [d] and its tables went back to the pool. *)
Record gone (s : pg) (d : Z) (t : pg) : Prop := {
  gn_pg : pg_ok t;
  gn_regs : same_regs s t;
  gn_used : ∀ x, 0 <= x < 2048 → slot_used t x = true ↔ slot_used s x = true ∧ pool_page x ≠ d ∧
    ¬ ∃ j, own_table s d j ∧ ptbl_of_pde (dir_entry s d j) = pool_page x;
  gn_others : ∀ d', separate s d d' → kept_dir s t d';
}.

Lemma torn_gone s y t : dir_wf s (pool_page y) → 0 <= y < 2048 → table_page s (pool_page y) →
  torn (own_table s (pool_page y)) s (pool_page y) 960 t → gone s (pool_page y) (pool_unmark y t).
Proof.
  intros Hwf Hy Hyp [Hpg Hr Hmem Hused]. set (d := pool_page y) in *. destruct Hpg as [[Hlen Hl] Hl'].
  assert (Hu : ∀ x, 0 <= x < 2048 → slot_used (pool_unmark y t) x = true ↔ slot_used s x = true ∧ pool_page x ≠ d ∧
    ¬ ∃ j, own_table s d j ∧ ptbl_of_pde (dir_entry s d j) = pool_page x).
  { intros x Hx. rewrite unmark_used, andb_true_iff, (Hused x Hx), negb_true_iff, bool_decide_eq_false by done. split.
    - intros [[H1 H2] H3]. split_and!; [done|intros E; by apply H3, pool_page_inj|].
      intros (j & Hj & E). apply H2. exists j. split_and!; [destruct Hj; lia..|done|done].
    - intros (H1 & H2 & H3). split; [split; [done|]|by intros ->]. intros (j & _ & Hj & E). apply H3. by exists j. }
  constructor; [split; [split; [simpl; by rewrite length_insert|exact Hl]|exact Hl']|exact Hr|exact Hu|].
  intros d' (Hwf' & (Hne & Hno & Hiso) & _). apply pages_kept; [done|]. intros p Hp.
  assert (live s p ∧ p ≠ d ∧ ∀ j, own_table s d j → p ≠ ptbl_of_pde (dir_entry s d j)) as (Hlp & Hpd & Hpt).
  { destruct Hp as [->|(i & Hi & Ht & ->)].
    - split_and!; [apply (dir_page _ _ Hwf')|done|]. intros j [Hj Htj]. apply Hiso; [lia|done].
    - split_and!; [right; by apply (dir_table _ _ Hwf' i Hi)|by apply Hno|]. intros j [Hj Htj].
      apply (proj1 (Hiso j ltac:(lia) Htj)); done. }
  split.
  - intros j Hj. cbn. apply Hmem. intros j' Hj' E.
    by destruct (live_slot_inj s p d j j' Hlp (or_intror Hyp) Hj ltac:(lia) E).
  - intros (x & Hx & -> & Hux). exists x. split_and!; [lia|lia|done|]. apply Hu; [done|]. split_and!; [done|done|].
    intros (j & Hj & E). by apply (Hpt j Hj).
Qed.

Lemma destroy_pages s d : space_pg s d → master_clear s → beside_master s d →
  ∃ t1 t, arch_destroy_address_space d s = Ret tt t1 ∧ arch_paging_pool_free d t1 = Ret tt t ∧ gone s d t.
Proof.
  intros Hs Hm Hb. pose proof Hs as [Hpg Hwf _]. destruct (bm_apart _ _ Hb) as (Hkwf & (Hne & _) & _).
  destruct (dir_page _ _ Hwf) as [?|Hp]; [by destruct (bm_page _ _ Hb)|]. pose proof Hp as (y & Hy & -> & _).
  destruct (pool_page_facts y Hy) as (_ & _ & Hy0 & _).
  destruct (destroy_loop_run _ s (pool_page y) (kernel_pdir_phys s) (dir_page _ _ Hwf) (dir_page _ _ Hkwf) Hne
    (beside_finds _ _ Hs Hm Hb) 960 0 s (torn_start _ _ _ Hpg) ltac:(lia) ltac:(lia)) as (t & E & Ht).
  exists t, (pool_unmark y t). split_and!.
  - unfold arch_destroy_address_space. rewrite (bind_Ret _ _ s s s) by done.
    rewrite (proj2 (Z.eqb_neq (pool_page y) 0)), (proj2 (Z.eqb_neq (pool_page y) _)) by (done || lia). exact E.
  - by apply pool_free_run; [apply (to_pg _ _ _ _ _ Ht)|].
  - by apply torn_gone.
Qed.

(** ** The regions *)

(** One turn of the loop, on the first region; the table of locks does not
    matter. *)
Lemma drop_region w L v c p ns r rs K : world w L → space w L v c (p :: ns) (r :: rs) →
  ∃ t w', (∀ B (k : M vm B), (r ← region_at p;
      gzoom (unmap_run (Z.to_nat (rg_size r / PAGE_SIZE)) (v_cr3 c) (start_va r) 0);;
      (if own_phys r =? 0 then mret tt else fzoom (pmm_free_pages (rg_pa r) (rg_size r / PAGE_SIZE)));;
      on_tree v (rbtree_delete p);; free_region p;; k) (set_v_locks K w) = k (set_v_locks K w')) ∧
    world w' (L ∖ {[p]}) ∧ space w' (L ∖ {[p]}) v (with_rb t c) ns rs ∧
    spared w L v c (p :: ns) w' (L ∖ {[p]}) (with_rb t c) ns ∧ v_locks w' = v_locks w ∧
    same_geometry (v_frames w) (v_frames w') ∧
    ∀ x, 0 <= x < total_blocks (v_frames w) → free_block (v_frames w') x = free_block (v_frames w) x || frame_of x r.
Proof.
  intros Hw Hs. pose proof (sp_tree _ _ _ _ _ _ Hs) as Ht. pose proof (tr_ok _ _ _ _ _ Ht) as Hok. inversion Hok as [|? ? Hr _]; subst.
  pose proof (tr_regions _ _ _ _ _ Ht) as H2. inversion H2 as [|? ? ? ? Hp _]; subst.
  destruct (region_unmap (v_pg w) (v_cr3 c) r (sp_pg _ _ _ _ _ _ Hs) Hr) as (g & Eg & Hg & Hsp & Hlook).
  assert (∃ f, (if own_phys r =? 0 then mret tt else pmm_free_pages (rg_pa r) (rg_size r / PAGE_SIZE)) (v_frames w) = Ret tt f ∧
    pmm_wf f ∧ same_geometry (v_frames w) f ∧
    ∀ x, 0 <= x < total_blocks (v_frames w) → free_block f x = free_block (v_frames w) x || frame_of x r) as (f & Ef & Hf & Hgeo & Hfree).
  { unfold frame_of. destruct (Z.eqb_spec (own_phys r) 0) as [|Ho].
    - exists (v_frames w). split_and!; [done|apply Hw|done|]. intros x _. by rewrite orb_false_r.
    - by apply (region_frames_free w L p). }
  destruct (kfree_ok (v_heap w) L p (wd_heap _ _ Hw)) as (h & Ek & Hh); [apply (wd_regions _ _ Hw); by eapply elem_of_dom_2|].
  set (w1 := set_v_locks K w).
  destruct (tree_delete_ok (set_v_frames f (set_v_pg g w1)) v c [] p ns [] r rs) as (t & Ed & En & Ht2); [by destruct Ht|done|].
  exists t, (stepped w v (with_rb t c) (delete p (regions w)) h f g). split.
  - intros B k. rewrite (bind_Ret _ _ _ _ _ (region_run w1 _ _ Hp)), (bind_Ret _ _ _ _ _ (gzoom_run _ w1 _ _ Eg)).
    rewrite (bind_Ret _ _ _ tt (set_v_frames f (set_v_pg g w1))).
    2: { destruct (own_phys r =? 0); [by injection Ef as <-|by apply fzoom_run]. }
    rewrite (bind_Ret _ _ _ _ _ Ed). unfold free_region. rewrite bind_assoc, (bind_Ret (modify _) _ _ tt _ eq_refl).
    erewrite bind_Ret; [|apply hzoom_run; exact Ek]. reflexivity.
  - destruct (stepped_shrink w L v c [] p ns [] r rs t h f g) as (W' & S' & B'); try done.
    + apply Ht2; [apply lookup_insert_eq|]. intros q Hq. simpl. by rewrite lookup_delete_ne.
    + intros x Hx Hn. rewrite Hfree by done. unfold frame_of. destruct (Z.eqb_spec (own_phys r) 0) as [|Ho]; [apply orb_false_r|].
      rewrite region_frames in Hn by done. apply not_true_is_false in Hn. rewrite Hn. apply orb_false_r.
    + intros a Ha. apply Hlook. unfold is_u32, USER_HEAP_END in *. lia.
Qed.

(** The lookahead of [rbtree_for_each_safe]. *)
Lemma next_after w v c ns rs : tree_of w v c ns rs →
  (if end_of DL ns =? 0 then mret 0 else on_tree v (rbtree_next (end_of DL ns))) w = Ret (end_of DL (tail ns)) w.
Proof.
  intros Ht. destruct ns as [|q ns]; [done|]. change (end_of DL (q :: ns)) with q.
  rewrite (proj2 (Z.eqb_neq q 0)) by (eapply node_nonzero; [exact Ht|left]). exact (tree_next _ v c [] q ns rs Ht).
Qed.

(** The whole loop of [vmm_destroy]. *)
Lemma destroy_regions_run v K : ∀ ns w L c rs fuel, world w L → space w L v c ns rs → (length ns < fuel)%nat →
  ∃ t w', destroy_regions fuel v (v_cr3 c) (end_of DL ns) (end_of DL (tail ns)) (set_v_locks K w) = Ret tt (set_v_locks K w') ∧
    world w' (L ∖ list_to_set ns) ∧ space w' (L ∖ list_to_set ns) v (with_rb t c) [] [] ∧
    spared w L v c ns w' (L ∖ list_to_set ns) (with_rb t c) [] ∧ v_locks w' = v_locks w ∧
    same_geometry (v_frames w) (v_frames w') ∧
    ∀ x, 0 <= x < total_blocks (v_frames w) → free_block (v_frames w') x = free_block (v_frames w) x || existsb (frame_of x) rs.
Proof.
  induction ns as [|p ns IH]; intros w L c rs fuel Hw Hs Hf; destruct fuel as [|fuel]; try (simpl in Hf; lia).
  - pose proof (tr_regions _ _ _ _ _ (sp_tree _ _ _ _ _ _ Hs)) as H2. inversion H2; subst. exists (v_rb c), w.
    assert (with_rb (v_rb c) c = c) as -> by (by destruct c). replace (L ∖ list_to_set []) with L by set_solver.
    split_and!; try done; [split; [split; [|by split]|split; [apply spares_refl|done]]|intros x _; by rewrite orb_false_r].
    by rewrite insert_id by apply (tr_vcb _ _ _ _ _ (sp_tree _ _ _ _ _ _ Hs)).
  - pose proof (sp_tree _ _ _ _ _ _ Hs) as Ht. pose proof (tr_regions _ _ _ _ _ Ht) as H2. inversion H2 as [|? r ? rs' _ _]; subst.
    cbn [destroy_regions end_of]. change (end_of DL (p :: ns)) with p. cbn [tail].
    rewrite (proj2 (Z.eqb_neq p 0)) by (eapply node_nonzero; [exact Ht|left]).
    destruct (drop_region w L v c p ns r rs' K) as (t & w1 & E & Hw1 & Hs1 & Hsp1 & Hk1 & [G1 G2] & Hfr1); [done|done|].
    rewrite E. clear E.
    rewrite (bind_Ret _ _ _ _ _ (next_after _ _ _ _ _ (tree_of_locks _ _ _ _ _ K (sp_tree _ _ _ _ _ _ Hs1)))).
    destruct (IH w1 (L ∖ {[p]}) (with_rb t c) rs' fuel Hw1 Hs1 ltac:(simpl in Hf; lia)) as (t2 & w2 & E2 & Hw2 & Hs2 & Hsp2 & Hk2 & [G3 G4] & Hfr2).
    assert (L ∖ {[p]} ∖ list_to_set ns = L ∖ list_to_set (p :: ns)) as EL by set_solver. rewrite EL in *.
    exists t2, w2. split_and!; [exact E2|done|done| |congruence|split; congruence|].
    + by eapply (spared_trans w w1 w2 _ _ _ v c (with_rb t c) (with_rb t2 (with_rb t c))).
    + intros x Hx. rewrite Hfr2, Hfr1 by (rewrite ?G2; done). cbn [existsb]. by rewrite orb_assoc.
Qed.

(** ** The process leaves the machine *)

Lemma machine_leave w L F v c i (h : A) g : machine w L F → F !! v = Some (c, [], []) → v_lock c = Some i →
  owns h (L ∖ cells c) → gone (v_pg w) (v_cr3 c) g →
  machine (mk_vm (<[v := mk_vcb 0 (v_rb c) 0 (Some i)]> (vcbs w)) (regions w) h (v_frames w) g (<[i := LOCK_INVALID]> (v_locks w)))
    (L ∖ cells c) (delete v F).
Proof.
  intros [HF Hm Hk Hh] Hc Hi Ho Hg. destruct (fa_space _ _ _ HF _ _ _ _ Hc) as [_ Hs]. destruct (Hk _ _ _ _ Hc) as [Hb _].
  assert (Hkm : kept_dir (v_pg w) g (kernel_pdir_phys (v_pg w))) by apply (gn_others _ _ _ Hg), Hb.
  assert (Hkept : ∀ v1 c1 ns1 rs1, v ≠ v1 → F !! v1 = Some (c1, ns1, rs1) → kept_dir (v_pg w) g (v_cr3 c1)).
  { intros v1 c1 ns1 rs1 Hne H1. apply (gn_others _ _ _ Hg). by destruct (fa_apart _ _ _ HF _ _ _ _ _ _ _ _ Hc H1 Hne). }
  constructor; [constructor|by eapply kept_master; [apply Hg|..]|..].
  - destruct (fa_world _ _ _ HF). destruct (sp_mem _ _ _ _ _ _ Hs) as (_ & _ & M3 & M4). constructor; cbn; try done; [|apply Hg].
    intros q Hq. apply elem_of_difference. split; [auto|]. apply elem_of_dom in Hq as [x Hq].
    unfold cells. rewrite elem_of_union, !elem_of_singleton. intros [->| ->]; congruence.
  - cbn. intros v1 c1 [[<- <-]|[Hne H1]]%lookup_insert_Some Hn; [done|].
    destruct (fa_all _ _ _ HF v1 c1 H1 Hn) as (ns1 & rs1 & H). exists ns1, rs1. by rewrite lookup_delete_ne.
  - intros v1 c1 ns1 rs1 [Hne H1]%lookup_delete_Some. destruct (fa_space _ _ _ HF _ _ _ _ H1) as [Hn1 Hs1]. split; [done|].
    destruct (Hh _ _ _ _ _ _ _ _ Hc H1 Hne) as [Hl Hx]. apply (space_kept w L); [done|by apply not_eq_sym|..|apply Hg|by eapply Hkept].
    + intros l El Hul. rewrite list_lookup_insert_ne by congruence. done.
    + apply space_cells in Hs1. set_solver.
  - intros v1 v2 c1 c2 ns1 ns2 rs1 rs2 [Hn1 H1]%lookup_delete_Some [Hn2 H2]%lookup_delete_Some Hne.
    destruct (fa_apart _ _ _ HF _ _ _ _ _ _ _ _ H1 H2 Hne) as [Hs12 Hd]. split; [|done].
    apply (kept_separate (v_pg w)); [exact (Hkept _ _ _ _ Hn1 H1)|exact (Hkept _ _ _ _ Hn2 H2)|done].
  - intros v1 c1 ns1 rs1 [Hn1 H1]%lookup_delete_Some. destruct (Hk _ _ _ _ H1) as [Hb1 Hne1]. split; [|done].
    apply (kept_beside (v_pg w)); [apply Hg|exact (Hkept _ _ _ _ Hn1 H1)|done..].
  - intros v1 v2 c1 c2 ns1 ns2 rs1 rs2 [_ H1]%lookup_delete_Some [_ H2]%lookup_delete_Some. by eapply Hh.
Qed.

(** The calls of [vmm_destroy], one after the other. *)
Lemma destroy_calls w L v c ns rs l t w1 (h : A) g1 g : space w L v c ns rs → v_cr3 c ≠ 0 → v_lock c = Some l →
  let K := <[l := LOCK_LOCKED]> (v_locks w) in
  destroy_regions (fuel_of (v_rb c)) v (v_cr3 c) (end_of DL ns) (end_of DL (tail ns)) (set_v_locks K w) = Ret tt (set_v_locks K w1) →
  vcbs w1 !! v = Some (with_rb t c) → v_locks w1 = v_locks w → rbtree_destroy (v_tree c) t (v_heap w1) = Ret tt h →
  arch_destroy_address_space (v_cr3 c) (v_pg w1) = Ret tt g1 → arch_paging_pool_free (v_cr3 c) g1 = Ret tt g →
  vmm_destroy v w = Ret tt (mk_vm (<[v := mk_vcb 0 t 0 (Some l)]> (vcbs w1)) (regions w1) h (v_frames w1) g
    (<[l := LOCK_INVALID]> (v_locks w1))).
Proof.
  intros Hs Hn Hl K E1 Hc1 Hk1 Eh Ea Ef. pose proof (sp_tree _ _ _ _ _ _ Hs) as Ht. destruct (sp_live _ _ _ _ _ _ Hs) as [Hv0 Ht0].
  destruct (sp_lock _ _ _ _ _ _ Hs) as (l' & Hl' & Hul). replace l' with l in * by congruence.
  assert (Hlt : (l < length (v_locks w))%nat) by (by eapply lookup_lt_Some).
  unfold vmm_destroy. rewrite (proj2 (Z.eqb_neq v 0) Hv0), (bind_Ret _ _ _ _ _ (vcb_run _ _ _ (tr_vcb _ _ _ _ _ Ht))).
  rewrite (proj2 (Z.eqb_neq _ 0) Hn), (proj2 (Z.eqb_neq _ 0) Ht0), Hl, (bind_Ret _ _ _ _ _ (lock_run w l Hul)). fold K.
  pose proof (tree_of_locks _ _ _ _ _ K Ht) as HtK. rewrite !bind_assoc, (bind_Ret _ _ _ _ _ (tree_first _ _ _ _ _ HtK)).
  rewrite !bind_assoc, (bind_Ret _ _ _ _ _ (next_after _ _ _ _ _ HtK)), !bind_assoc, (bind_Ret _ _ _ _ _ E1).
  rewrite !bind_assoc, (bind_Ret _ _ _ _ _ (vcb_run (set_v_locks K w1) _ _ Hc1)).
  rewrite !bind_assoc, (bind_Ret _ _ _ _ _ (hzoom_run _ (set_v_locks K w1) _ _ Eh)).
  rewrite (bind_Ret (put_vcb v _) _ _ tt _ eq_refl). erewrite bind_Ret; [|apply gzoom_run; exact Ea].
  erewrite bind_Ret; [|apply gzoom_run; exact Ef]. erewrite bind_Ret; [|apply vcb_run; apply lookup_insert_eq].
  rewrite (bind_Ret (put_vcb v _) _ _ tt _ eq_refl).
  erewrite bind_Ret; [|apply unlock_run; cbn; unfold K; by rewrite length_insert].
  unfold K, set_v_locks, set_v_pg, set_v_heap, set_vcbs. cbn. rewrite Hl, insert_insert_eq. unfold set_v_locks. cbn.
  by rewrite !list_insert_insert_eq, Hk1.
Qed.

(** [vmm_destroy] returns, and everything the process had is given back. *)
Lemma destroy_run w L F v c ns rs : machine w L F → F !! v = Some (c, ns, rs) →
  ∃ w', vmm_destroy v w = Ret tt w' ∧ machine w' (L ∖ list_to_set ns ∖ cells c) (delete v F) ∧ ¬ has_space w' v ∧
    same_rest w L F w' (L ∖ list_to_set ns ∖ cells c) (delete v F) ∧ (∀ u, u ≠ v → vcbs w' !! u = vcbs w !! u) ∧
    ∀ u cu nu ru va, u ≠ v → F !! u = Some (cu, nu, ru) → translate (v_pg w') (v_cr3 cu) va = translate (v_pg w) (v_cr3 cu) va.
Proof.
  intros HM Hc. pose proof HM as [HF _ _ _]. destruct (fa_space _ _ _ HF _ _ _ _ Hc) as [Hn Hs].
  pose proof (sp_tree _ _ _ _ _ _ Hs) as Ht. destruct (sp_live _ _ _ _ _ _ Hs) as [_ Ht0].
  destruct (sp_lock _ _ _ _ _ _ Hs) as (l & Hl & _). set (K := <[l := LOCK_LOCKED]> (v_locks w)).
  destruct (destroy_regions_run v K ns w L c rs (fuel_of (v_rb c)) (fa_world _ _ _ HF) Hs) as (t & w1 & E1 & Hw1 & Hs1 & Hsp & Hk1 & _ & Hfr).
  { pose proof (tree_ok_null _ _ _ (tr_tree _ _ _ _ _ Ht)) as [_ Hlen]. unfold fuel_of. lia. }
  set (L1 := L ∖ list_to_set ns) in *. set (c1 := with_rb t c) in *.
  pose proof (machine_stepped w L F w1 v c ns rs t L1 [] [] HM Hc Hw1 Hs1 Hsp) as HM1.
  pose proof Hsp as ((Ev & En & Et) & Hpg & _). cbn in En.
  assert (H1 : <[v := (c1, [], [])]> F !! v = Some (c1, [], [])) by apply lookup_insert_eq.
  destruct (mc_kernel _ _ _ HM1 _ _ _ _ H1) as [Hb Hne].
  destruct (destroy_pages (v_pg w1) (v_cr3 c) (sp_pg _ _ _ _ _ _ Hs1) (mc_master _ _ _ HM1) Hb) as (t1 & g & Ea & Ef & Hg).
  destruct (tree_given_back (v_heap w1) (L1 ∖ cells c1) (v_tree c) t) as (h & Eh & Hh);
    [done|unfold cells; set_solver|unfold cells; set_solver|done| |].
  { replace ({[v_tree c; nil t]} ∪ L1 ∖ cells c1) with L1; [apply (wd_heap _ _ Hw1)|].
    pose proof (space_cells _ _ _ _ _ _ Hs1) as Hsub. change ({[v_tree c; nil t]} : gset Z) with (cells c1). by apply union_difference_L. }
  pose proof (machine_leave w1 L1 _ v c1 l h g HM1 H1 Hl Hh Hg) as HM2. rewrite delete_insert_eq in HM2.
  assert (cells c1 = cells c) as Ec by (unfold cells; cbn; by rewrite En). rewrite Ec in HM2.
  assert (Hc1 : vcbs w1 !! v = Some c1) by (rewrite Ev; apply lookup_insert_eq).
  eexists. split; [exact (destroy_calls w L v c ns rs l t w1 h t1 g Hs Hn Hl E1 Hc1 Hk1 Eh Ea Ef)|]. split; [exact HM2|]. cbn. split_and!.
  - intros (c' & Hc' & Hn'). cbn in Hc'. rewrite lookup_insert_eq in Hc'. injection Hc' as <-. done.
  - rewrite <- (insert_id F v _ Hc) at 1. constructor; [|exact Et|].
    + intros q. rewrite holds_insert. unfold L1. rewrite !elem_of_difference, elem_of_list_to_set. tauto.
    + intros x Hx. cbn. rewrite Hfr, owned_insert, orb_true_iff by done. tauto.
  - intros u Hu. by rewrite Ev, !lookup_insert_ne by done.
  - intros u cu nu ru va Hu HFu. destruct (fa_apart _ _ _ HF _ _ _ _ _ _ _ _ Hc HFu (not_eq_sym Hu)) as [Hsep _].
    destruct (proj2 Hpg _ Hsep) as (Hsep1 & _ & Hwalk). rewrite <- Hwalk. apply (kd_walk _ _ _ (gn_others _ _ _ Hg _ Hsep1)).
Qed.
End teardown.
