(* ===== verification/VmIsolation.v ===== *)
(** * Isolation of the address spaces (kernel/mm/vmm.c over arch/i386/paging.c)

    Any number of processes create their address spaces, allocate and free
    pages, are switched to and destroyed, in any order.  The directories stay
    apart, no frame allocated for one process is reached by another, and when
    the processes are gone the heap and the frames are as before the first. *)

From stdpp Require Import base tactics list gmap relations.
From Stdlib Require Import ZArith Lia.
From S2P Require Import Prelude Spinlock Allocator RbTree RbDelete RbOrder Pmm Paging PageSpaces PageRuns Vmm VmmSpace VmmOps VmSpaces VmMachine VmTeardown.

Open Scope Z_scope.

Section isolation.
Context {LY : Layout} {A : Type} `{!Allocator A}.
Notation vm := (vm A).
Implicit Types w : vm.

(** One step: the functions of vmm.c that build, use, fill and take down an
    address space, on a process that has none or one. *)
Inductive vm_step : vm → vm → Prop :=
  | step_create w w' v user r : v ≠ 0 → ¬ has_space w v → fresh_space v user w = Ret r w' → vm_step w w'
  | step_switch w w' v : has_space w v → vmm_switch v w = Ret tt w' → vm_step w w'
  | step_alloc w w' v n flags r : has_space w v → 0 < n <= 196607 → flag 0 flags = true →
      vmm_alloc_pages v n flags w = Ret r w' → vm_step w w'
  | step_free w w' v a : has_space w v → vmm_free_pages v a w = Ret tt w' → vm_step w w'
  | step_destroy w w' v : has_space w v → vmm_destroy v w = Ret tt w' → vm_step w w'.

(** ** What the steps do from a consistent machine *)

Definition lands w L F w' : Prop := ∃ L' F', machine w' L' F' ∧ same_rest w L F w' L' F'.

Lemma create_lands w L F v user : machine w L F → v ≠ 0 → ¬ has_space w v →
  ∃ r w', fresh_space v user w = Ret r w' ∧ lands w L F w' ∧ (r = 0 ↔ has_space w' v).
Proof.
  intros HM Hv0 Hv. pose proof (no_space_no_entry _ _ _ _ (mc_family _ _ _ HM) Hv) as HFv.
  destruct (create_run w L F v user HM Hv0 Hv) as (r & w' & E & [(-> & Hm & _ & Ef & Hn)|(-> & c & Hm & Hd & Ef & Hc & _)]);
    eexists _, w'; (split; [exact E|]).
  - split; [|done]. exists L, F. split; [done|by apply same_rest_refl].
  - split.
    + eexists _, _. split; [exact Hm|]. constructor; [|by rewrite Ef|].
      * intros q. rewrite holds_insert, delete_id by done. set_solver.
      * intros x Hx. rewrite owned_insert, delete_id, Ef by done. cbn. naive_solver.
    + split; [|done]. intros _. exists c. split; [done|].
      destruct (fa_space _ _ _ (mc_family _ _ _ Hm) v c [] []) as [Hn _]; [apply lookup_insert_eq|done].
Qed.

Lemma switch_lands w L F v : machine w L F → has_space w v → ∃ w', vmm_switch v w = Ret tt w' ∧ lands w L F w'.
Proof.
  intros HM Hv. destruct (machine_switch w L F v HM Hv) as (w' & E & Hm & Ef). exists w'. split; [done|].
  exists L, F. split; [done|by apply same_rest_refl].
Qed.

Lemma alloc_lands w L F v n flags : machine w L F → has_space w v → 0 < n <= 196607 → flag 0 flags = true →
  ∃ r w', vmm_alloc_pages v n flags w = Ret r w' ∧ lands w L F w'.
Proof.
  intros HM Hv Hn Hfl. destruct (alloc_step w L F v n flags (mc_family _ _ _ HM) Hv Hn Hfl) as (r & w' & E & Hs & _).
  exists r, w'. split; [exact E|by eapply machine_step].
Qed.

Lemma free_lands w L F v a : machine w L F → has_space w v → ∃ w', vmm_free_pages v a w = Ret tt w' ∧ lands w L F w'.
Proof.
  intros HM Hv. destruct (free_step w L F v a (mc_family _ _ _ HM) Hv) as (w' & E & [->|Hs]); eexists; (split; [exact E|]).
  - exists L, F. split; [done|by apply same_rest_refl].
  - by eapply machine_step.
Qed.

Lemma destroy_lands w L F v : machine w L F → has_space w v →
  ∃ w', vmm_destroy v w = Ret tt w' ∧ lands w L F w' ∧ ¬ has_space w' v ∧ (∀ u, u ≠ v → vcbs w' !! u = vcbs w !! u).
Proof.
  intros HM Hv. destruct (has_family _ _ _ _ (mc_family _ _ _ HM) Hv) as (c & ns & rs & Hc).
  destruct (destroy_run w L F v c ns rs HM Hc) as (w' & E & Hm & Hn & Hr & Hu & _). exists w'.
  split_and!; [done| |done|done]. by eexists _, _.
Qed.

Lemma vm_step_lands w w' L F : vm_step w w' → machine w L F → lands w L F w'.
Proof.
  intros Hs HM. destruct Hs as [w w' v user r Hv0 Hv E|w w' v Hv E|w w' v n flags r Hv Hn Hf E|w w' v a Hv E|w w' v Hv E].
  - destruct (create_lands w L F v user HM Hv0 Hv) as (r2 & w2 & E2 & Hok & _). congruence.
  - destruct (switch_lands w L F v HM Hv) as (w2 & E2 & Hok). congruence.
  - destruct (alloc_lands w L F v n flags HM Hv Hn Hf) as (r2 & w2 & E2 & Hok). congruence.
  - destruct (free_lands w L F v a HM Hv) as (w2 & E2 & Hok). congruence.
  - destruct (destroy_lands w L F v HM Hv) as (w2 & E2 & Hok & _). congruence.
Qed.

Lemma vm_steps_land w w' : rtc vm_step w w' → ∀ L F, machine w L F → lands w L F w'.
Proof.
  induction 1 as [w|w w1 w2 Hs _ IH]; intros L F HM.
  - exists L, F. split; [done|by apply same_rest_refl].
  - destruct (vm_step_lands w w1 L F Hs HM) as (L1 & F1 & HM1 & Hr1). destruct (IH L1 F1 HM1) as (L2 & F2 & HM2 & Hr2).
    exists L2, F2. split; [done|by eapply same_rest_trans].
Qed.

(** A page of a region whose frames were allocated for it. *)
Definition private (rs : list vmm_region) (va : Z) : Prop := ∃ r, r ∈ rs ∧ own_phys r ≠ 0 ∧ covers va r = true.

Lemma private_frame w L F v c ns rs va pa b : family w L F → F !! v = Some (c, ns, rs) →
  USER_HEAP_END <= va < 4294967296 → private rs va → look (v_pg w) (v_cr3 c) va = Some (pa, b) →
  ∃ p r, p ∈ ns ∧ regions w !! p = Some r ∧ owns_frame r (pa / 4096).
Proof.
  intros HF Hv Hva (r & Hr & Hown & Hcov) Hl. destruct (fa_space _ _ _ HF _ _ _ _ Hv) as [_ [[_ _ Hrg Hok Ho] _ _ _ _ Hlook]].
  rewrite Hlook in Hl by done. apply list_elem_of_split in Hr as (rs1 & rs2 & ->).
  rewrite (look_regions_insert rs1 r rs2 va Hok Ho), Hcov in Hl. injection Hl as <- _.
  apply Forall2_app_inv_r in Hrg as (ns1 & nsr & H1 & H2 & ->). inversion H2 as [|p ? ns2 ? Hp Hrest]; subst.
  exists p, r. split; [set_solver|]. split; [done|]. split; [done|].
  assert (region_ok r) as Hrok by (rewrite Forall_app, Forall_cons in Hok; tauto).
  apply covers_iff in Hcov; [|done]. destruct Hrok as [_ [Hs Hs0] _ _ [Ha _] _]. unfold rg_end in Hcov.
  pose proof (Z.div_mod (rg_pa r) 4096 ltac:(lia)). pose proof (Z.div_mod (rg_pa r + (va - start_va r)) 4096 ltac:(lia)).
  pose proof (Z.mod_pos_bound (rg_pa r + (va - start_va r)) 4096 ltac:(lia)). lia.
Qed.

(** C3: Whatever sequence of address-space creations, switches, allocations,
    frees and destructions any number of processes run, each of these calls
    comes to its end, destroying a space takes nothing from another process,
    the directories of the processes stay apart, and two pages of two processes
    that were allocated for them never lie in the same frame: a process cannot
    reach the private memory of another one. *)
Theorem processes_stay_isolated w w' : machine_ok w → rtc vm_step w w' →
  (∀ v user, v ≠ 0 → ¬ has_space w' v → ∃ r w2, fresh_space v user w' = Ret r w2 ∧ (r = 0 ↔ has_space w2 v)) ∧
  (∀ v, has_space w' v → ∃ w2, vmm_switch v w' = Ret tt w2) ∧
  (∀ v n flags, has_space w' v → 0 < n <= 196607 → flag 0 flags = true → ∃ r w2, vmm_alloc_pages v n flags w' = Ret r w2) ∧
  (∀ v a, has_space w' v → ∃ w2, vmm_free_pages v a w' = Ret tt w2) ∧
  (∀ v, has_space w' v → ∃ w2, vmm_destroy v w' = Ret tt w2 ∧ ¬ has_space w2 v ∧ ∀ u, u ≠ v → vcbs w2 !! u = vcbs w' !! u) ∧
  ∃ L F, family w' L F ∧
    ∀ v1 v2 c1 c2 ns1 ns2 rs1 rs2 va1 va2 pa1 pa2 b1 b2,
      F !! v1 = Some (c1, ns1, rs1) → F !! v2 = Some (c2, ns2, rs2) → v1 ≠ v2 →
      USER_HEAP_END <= va1 < 4294967296 → USER_HEAP_END <= va2 < 4294967296 → private rs1 va1 → private rs2 va2 →
      look (v_pg w') (v_cr3 c1) va1 = Some (pa1, b1) → look (v_pg w') (v_cr3 c2) va2 = Some (pa2, b2) →
      pa1 / 4096 ≠ pa2 / 4096.
Proof.
  intros (L0 & F0 & HM0) Hr. destruct (vm_steps_land w w' Hr L0 F0 HM0) as (L & F & HM & _). split_and!.
  - intros v user Hv0 Hv. destruct (create_lands w' L F v user HM Hv0 Hv) as (r & w2 & E & _ & Hiff). by exists r, w2.
  - intros v Hv. destruct (switch_lands w' L F v HM Hv) as (w2 & E & _). by exists w2.
  - intros v n flags Hv Hn Hf. destruct (alloc_lands w' L F v n flags HM Hv Hn Hf) as (r & w2 & E & _). by exists r, w2.
  - intros v a Hv. destruct (free_lands w' L F v a HM Hv) as (w2 & E & _). by exists w2.
  - intros v Hv. destruct (destroy_lands w' L F v HM Hv) as (w2 & E & _ & Hn & Hu). by exists w2.
  - pose proof (mc_family _ _ _ HM) as HF. exists L, F. split; [done|].
    intros v1 v2 c1 c2 ns1 ns2 rs1 rs2 va1 va2 pa1 pa2 b1 b2 F1 F2 Hne A1 A2 P1 P2 L1 L2 E.
    destruct (private_frame _ _ _ _ _ _ _ _ _ _ HF F1 A1 P1 L1) as (p1 & r1 & N1 & R1 & O1).
    destruct (private_frame _ _ _ _ _ _ _ _ _ _ HF F2 A2 P2 L2) as (p2 & r2 & N2 & R2 & O2).
    destruct (fa_apart _ _ _ HF _ _ _ _ _ _ _ _ F1 F2 Hne) as [_ Hd].
    apply (wd_apart _ _ (fa_world _ _ _ HF) p1 p2 r1 r2 (pa1 / 4096) R1 R2); [by intros ->; apply (Hd p2)|done|by rewrite E].
Qed.

(** C15: Processes come and go without a trace in the kernel heap or in the
    physical memory: from a machine without processes, after any sequence of
    creations, switches, allocations, frees and destructions of any number of
    address spaces at the end of which no process is left - also when
    allocations failed half-way, or regions were never freed by their process -
    the heap addresses in use and the free frames are those of the start. *)
Theorem processes_leave_no_trace w L w' : machine w L ∅ → rtc vm_step w w' → (∀ v, ¬ has_space w' v) →
  owns (v_heap w') L ∧ total_blocks (v_frames w') = total_blocks (v_frames w) ∧
  ∀ x, 0 <= x < total_blocks (v_frames w) → free_block (v_frames w') x = free_block (v_frames w) x.
Proof.
  intros HM Hr Hno. destruct (vm_steps_land w w' Hr L ∅ HM) as (L' & F' & HM' & [Hh Ht Hf]).
  assert (F' = ∅) as ->.
  { apply map_empty. intros v. by apply (no_space_no_entry w' L'); [apply HM'|]. }
  assert (∀ q, ¬ holds ∅ q) as Hn by (intros q (v & c & ns & rs & Hv & _); by rewrite lookup_empty in Hv).
  assert (∀ x, ¬ owned ∅ x) as Ho by (intros x (v & c & ns & rs & Hv & _); by rewrite lookup_empty in Hv).
  assert (L' = L) as ->.
  { apply set_eq. intros q. specialize (Hh q). specialize (Hn q). tauto. }
  split_and!; [apply (wd_heap _ _ (fa_world _ _ _ (mc_family _ _ _ HM')))|done|].
  intros x Hx. specialize (Hf x Hx). specialize (Ho x). apply eq_bool_prop_intro. rewrite !Is_true_true. tauto.
Qed.
End isolation.

(** ** Witness: a machine without processes, then two of them *)

Definition boot_vm : vm (gset Z) := mk_vm ∅ ∅ ∅ pmm_small demo_pg [LOCK_INVALID; LOCK_INVALID].

Lemma boot_machine : machine boot_vm ∅ ∅.
Proof.
  constructor; [constructor|split|..].
  - constructor.
    + split; [reflexivity|]. set_solver.
    + change (dom (∅ : gmap Z vmm_region) ⊆ (∅ : gset Z)). set_solver.
    + apply pmm_small_wf.
    + apply demo_pg_ok.
    + intros p r b Hp. change (regions boot_vm) with (∅ : gmap Z vmm_region) in Hp. by rewrite lookup_empty in Hp.
    + intros p p' r r' b Hp. change (regions boot_vm) with (∅ : gmap Z vmm_region) in Hp. by rewrite lookup_empty in Hp.
  - intros v c Hc. change (vcbs boot_vm) with (∅ : gmap Z vmm_control_block) in Hc. by rewrite lookup_empty in Hc.
  - intros v c ns rs Hc. by rewrite lookup_empty in Hc.
  - intros v v' c c' ns ns' rs rs' Hc. by rewrite lookup_empty in Hc.
  - apply demo_master.
  - intros j Hj. change (dir_entry demo_pg 1056768 j = entry0). by destruct (demo_entry j) as [->|[? _]]; [|lia].
  - intros v c ns rs Hc. by rewrite lookup_empty in Hc.
  - intros v v' c c' ns ns' rs rs' Hc. by rewrite lookup_empty in Hc.
Qed.

(** The results of two creations. *)
Definition two_created : outcome (vm (gset Z)) (Z * Z) :=
  (r1 ← fresh_space 64 true; r2 ← fresh_space 128 true; mret (r1, r2)) boot_vm.
Example two_created_ok : match two_created with Ret r _ => bool_decide (r = (0, 0)) | _ => false end = true.
Proof. vm_compute. reflexivity. Qed.

Lemma two_created_run : ∃ w1 w2, fresh_space 64 true boot_vm = Ret 0 w1 ∧ fresh_space 128 true w1 = Ret 0 w2.
Proof.
  pose proof two_created_ok as H. unfold two_created, mbind, M_bind, mret, M_ret in H.
  destruct (fresh_space 64 true boot_vm) as [r1 w1| |]; [|done..]. destruct (fresh_space 128 true w1) as [r2 w2| |] eqn:E2; [|done..].
  apply bool_decide_eq_true in H. injection H as -> ->. by exists w1, w2.
Qed.

Lemma boot_no_space v : ¬ has_space boot_vm v.
Proof. intros (c & Hc & _). change (vcbs boot_vm) with (∅ : gmap Z vmm_control_block) in Hc. by rewrite lookup_empty in Hc. Qed.

Lemma processes_stay_isolated_witness :
  ∃ w2, rtc vm_step boot_vm w2 ∧ has_space w2 128 ∧ (∃ r w3, vmm_alloc_pages 128 3 7 w2 = Ret r w3) ∧ ∃ L F, family w2 L F.
Proof.
  destruct two_created_run as (w1 & w2 & E1 & E2). exists w2.
  destruct (create_run boot_vm ∅ ∅ 64 true boot_machine ltac:(discriminate) (boot_no_space 64)) as (r & w & E & H). rewrite E1 in E.
  injection E as <- <-. destruct H as [[H _]|(_ & c & H1 & _)]; [discriminate|].
  assert (N : ¬ has_space w1 128).
  { intros Hs. destruct (has_family _ _ _ _ (mc_family _ _ _ H1) Hs) as (c' & ns & rs & Hl). by rewrite lookup_insert_ne, lookup_empty in Hl. }
  destruct (create_lands w1 _ _ 128 true H1 ltac:(discriminate) N) as (r2 & w2' & E2' & _ & Hiff).
  rewrite E2 in E2'. injection E2' as <- <-.
  assert (Hr : rtc vm_step boot_vm w2).
  { apply (rtc_l _ _ w1); [by apply (step_create _ _ 64 true 0); [|apply boot_no_space|]|].
    apply rtc_once. by apply (step_create _ _ 128 true 0). }
  destruct (processes_stay_isolated boot_vm w2 (ex_intro _ ∅ (ex_intro _ ∅ boot_machine)) Hr) as (_ & _ & H3 & _ & _ & L & F & HF & _).
  assert (Hs : has_space w2 128) by (by apply Hiff). split; [exact Hr|]. split; [exact Hs|].
  split; [|exists L, F; exact HF]. apply H3; [exact Hs|lia|reflexivity].
Defined.

(** A process that allocates two pages, does not free them and goes. *)
Definition one_life : outcome (vm (gset Z)) (Z * Z) :=
  (r ← fresh_space 64 true; va ← vmm_alloc_pages 64 2 7; vmm_destroy 64;; mret (r, va)) boot_vm.
Example one_life_ok : match one_life with Ret r _ => bool_decide (r = (0, USER_ANON_BASE)) | _ => false end = true.
Proof. vm_compute. reflexivity. Qed.

Lemma processes_leave_no_trace_witness :
  ∃ va w1 w2 w3, fresh_space 64 true boot_vm = Ret 0 w1 ∧ vmm_alloc_pages 64 2 7 w1 = Ret va w2 ∧ va ≠ 0 ∧
    vmm_destroy 64 w2 = Ret tt w3 ∧ owns (v_heap w3) ∅ ∧ free_block (v_frames w3) 3 = free_block (v_frames boot_vm) 3.
Proof.
  pose proof one_life_ok as H. unfold one_life, mbind, M_bind, mret, M_ret in H.
  destruct (fresh_space 64 true boot_vm) as [r1 w1| |] eqn:E1; [|done..]. destruct (vmm_alloc_pages 64 2 7 w1) as [va w2| |] eqn:E2; [|done..].
  destruct (vmm_destroy 64 w2) as [u w3| |] eqn:E3; [|done..]. destruct u. apply bool_decide_eq_true in H. injection H as -> ->.
  exists USER_ANON_BASE, w1, w2, w3. split; [reflexivity|]. split; [exact E2|]. split; [discriminate|]. split; [exact E3|].
  destruct (create_run boot_vm ∅ ∅ 64 true boot_machine ltac:(discriminate) (boot_no_space 64)) as (r & w & E & H). rewrite E1 in E.
  injection E as <- <-. destruct H as [[H _]|(_ & c & H1 & _ & _ & Hc & _)]; [discriminate|].
  assert (Hs1 : has_space w1 64).
  { exists c. split; [exact Hc|]. destruct (fa_space _ _ _ (mc_family _ _ _ H1) 64 c [] []) as [Hn _]; [apply lookup_insert_eq|exact Hn]. }
  destruct (alloc_step w1 _ _ 64 2 7 (mc_family _ _ _ H1) Hs1) as (va & w2' & E2' & Hst & _); [lia|reflexivity|].
  rewrite E2 in E2'. injection E2' as <- <-. destruct (machine_step _ _ _ _ _ H1 Hst) as (L2 & F2 & H2 & _).
  destruct (step_law _ _ _ _ _ (mc_family _ _ _ H1) Hst) as (_ & _ & Hk).
  assert (Hdom : ∀ u, u ≠ 64 → ¬ has_space w2 u).
  { intros u Hu Hs. destruct Hst as (c2 & ns & rs & t & L' & ns' & rs' & _ & _ & _ & ((Ev & _) & _) & _).
    destruct Hs as (cu & Hcu & Hnu). rewrite Ev, lookup_insert_ne in Hcu by (by apply not_eq_sym).
    destruct (fa_all _ _ _ (mc_family _ _ _ H1) u cu Hcu Hnu) as (n1 & rs1 & Hl). by rewrite lookup_insert_ne, lookup_empty in Hl. }
  destruct (destroy_lands w2 L2 F2 64 H2 (Hk 64 Hs1)) as (w3' & E3' & _ & Hn3 & Hu3). rewrite E3 in E3'. injection E3' as <-.
  assert (Hr : rtc vm_step boot_vm w3).
  { apply (rtc_l _ _ w1); [apply (step_create _ _ 64 true 0); [discriminate|apply boot_no_space|exact E1]|].
    apply (rtc_l _ _ w2); [apply (step_alloc _ _ 64 2 7 USER_ANON_BASE Hs1); [lia|reflexivity|exact E2]|].
    apply rtc_once, (step_destroy _ _ 64); [exact (Hk 64 Hs1)|exact E3]. }
  destruct (processes_leave_no_trace boot_vm ∅ w3 boot_machine Hr) as (Ho & _ & Hf).
  - intros u (cu & Hcu & Hnu). destruct (decide (u = 64)) as [->|Hne]; [exact (Hn3 (ex_intro _ cu (conj Hcu Hnu)))|].
    apply (Hdom u Hne). exists cu. split; [rewrite <- (Hu3 u Hne); exact Hcu|exact Hnu].
  - split; [exact Ho|]. apply Hf. vm_compute. split; [discriminate|reflexivity].
Defined.
