(* ===== verification/KernelVm.v ===== *)
(** * The kernel over the address spaces of vmm.c

    The files above vmm.c run in a kernel state whose address-space part is
    the [vm] of Vmm.v.  [vm_checked] runs a function of vmm.c that asks
    [cap_check] about CAP_MAP_MEM: the answers are those of the capabilities of
    the kernel state, which vmm.c does not change. *)

From stdpp Require Import base tactics list gmap.
From Stdlib Require Import ZArith Lia.
From S2P Require Import Prelude Spinlock Allocator RbTree RbDelete RbOrder Pmm Paging PageSpaces PageRuns Vmm VmmSpace VmmOps VmmMap Heap KState Capability Sched.

Open Scope Z_scope.

Section kernel_vm.
Context {LY : Layout} {A U V : Type} `{!Allocator A, !Allocator V}.
Notation kernel := (kernel A U (vm V)).
Implicit Types k : kernel.

Definition vmzoom {B} (m : M (vm V) B) : M kernel B := @zoom _ _ KState.kernel_vm _ m.

Lemma vmzoom_run {B} (m : M (vm V) B) k b w : m (k_vm k) = Ret b w → vmzoom m k = Ret b (set_k_vm w k).
Proof. exact (zoom_Ret (Contains0 := KState.kernel_vm) m k b w). Qed.

(** [cap_check(proc, CAP_MAP_MEM, &(cap_mem){pa, size, flags})] in state [k]. *)
Definition map_mem_answer k (proc pa size flags : Z) : Z :=
  match cap_check proc CAP_MAP_MEM (Some (mk_cap_mem pa size flags)) k with
  | Ret r _ => r
  | _ => E_PERM
  end.

Definition vm_checked {B} (f : (Z → Z → Z → Z → Z) → M (vm V) B) : M kernel B := λ k,
  vmzoom (f (map_mem_answer k)) k.

Lemma vm_checked_run {B} (f : (Z → Z → Z → Z → Z) → M (vm V) B) k b w :
  f (map_mem_answer k) (k_vm k) = Ret b w → vm_checked f k = Ret b (set_k_vm w k).
Proof. apply vmzoom_run. Qed.

(** Some grant of the process covers the memory. *)
Definition granted (p : pcb) (pa size flags : Z) : Prop :=
  ∃ g, held CAP_MAP_MEM g (p_caps p) ∧ Capability.covers CAP_MAP_MEM g (mk_cap_mem pa size flags).

Lemma map_mem_answer_run k proc p l pa size flags :
  cap_holder k proc p l → caps_u32 (p_caps p) → is_u32 pa → is_u32 size → is_u32 flags →
  (map_mem_answer k proc pa size flags = 0 ∨ map_mem_answer k proc pa size flags = E_PERM) ∧
  (map_mem_answer k proc pa size flags = 0 ↔ granted p pa size flags).
Proof.
  intros Hh Hu H1 H2 H3.
  destruct (cap_check_answer k proc p l CAP_MAP_MEM (mk_cap_mem pa size flags) Hh Hu) as (r & E & Hr & Hiff); [done|].
  assert (map_mem_answer k proc pa size flags = r) as ->; [|by split].
  exact (f_equal (λ o, match o with Ret r _ => r | _ => E_PERM end) E).
Qed.

Lemma granted_no_flags p pa size flags : granted p pa size flags → granted p pa size 0.
Proof.
  intros (g & Hg & H1 & _ & H3 & H4). exists g. split; [done|]. split_and!; [done| |done|done].
  intros i. simpl. by rewrite Z.bits_0.
Qed.

(** The running thread belongs to process [proc]. *)
Definition current k (proc : Z) : Prop :=
  thread_run k ≠ 0 ∧ ∃ x, tcbs k !! thread_run k = Some x ∧ t_parent x = proc.

Lemma current_run k proc : current k proc → get_current_process k = Ret proc k.
Proof.
  intros (Hr & x & Hx & <-). unfold get_current_process. rewrite (bind_Ret _ _ _ (thread_run k) k) by done.
  by rewrite (proj2 (Z.eqb_neq _ _) Hr), (bind_Ret _ _ _ x k) by (by apply deref_Some).
Qed.

Lemma set_vm_vm w w' k : set_k_vm w (set_k_vm w' k) = set_k_vm w k.
Proof. done. Qed.

Lemma cap_holder_vm k proc p l w : cap_holder k proc p l → cap_holder (set_k_vm w k) proc p l.
Proof. by intros []. Qed.

(** Answers do not depend on the address spaces. *)
Lemma map_mem_answer_vm k w proc p l pa size flags :
  cap_holder k proc p l → map_mem_answer (set_k_vm w k) proc pa size flags = map_mem_answer k proc pa size flags.
Proof.
  intros Hh. unfold map_mem_answer. rewrite (cap_check_run _ _ _ _ _ _ Hh).
  by rewrite (cap_check_run _ _ _ _ _ _ (cap_holder_vm k proc p l w Hh)).
Qed.
End kernel_vm.
