(* ===== verification/ThreadApi.v ===== *)
(** * Entering the kernel: the reentrancy guard and the thread API
      (kernel/process.c [may_run_direct] and the wrappers over it,
       arch/i386/irq.c [arch_syscall])

    A call that may switch threads runs the implementation directly when the
    caller is ring-0 code inside a gate (or before the first thread exists)
    and traps through [int $100] otherwise.  The trap itself is assembly
    (arch/i386/irq.S): it is the operation of the class [Gate], of which
    nothing is assumed. *)

From S2P Require Import Prelude Spinlock KState Sched.
From stdpp Require Import base tactics list gmap.
From Stdlib Require Import ZArith Lia.

Open Scope Z_scope.

(** [int $100] with a handle and a parameter block: the value in EAX and the
    block as the handler left it. *)
Class Gate (K C : Type) := int_100 : Z → C → M K (Z * C).

(** ** The parameter block of SYSCALL_PROC_THREAD *)

Definition THREAD_CTRL_CREATE : Z := 0.
Definition THREAD_CTRL_DELETE : Z := 1.
Definition THREAD_CTRL_YIELD : Z := 2.
Definition THREAD_CTRL_BLOCK : Z := 3.
Definition THREAD_CTRL_UNBLOCK : Z := 4.
Definition PROC_CTRL_CREATE : Z := 5.
Definition PROC_CTRL_LOAD_FROM_ELF : Z := 6.
Definition PROC_CTRL_EXIT : Z := 7.
Definition PROC_CTRL_BLOCK : Z := 8.
Definition PROC_CTRL_UNBLOCK : Z := 9.
Definition PROC_CTRL_GET_PID : Z := 10.
Definition THREAD_CTRL_GET_TID : Z := 11.

Record proc_thread_ctrl_config := mk_ptc {
  pc_cmd : Z;
  pc_pid : Z;
  pc_tid : Z;
  pc_priv : Z;
  pc_entry : Z;
  pc_elf_start : Z;
  pc_elf_end : Z;
  pc_param : Z;
}.

Definition ptc (cmd pid tid : Z) : proc_thread_ctrl_config := mk_ptc cmd pid tid 0 0 0 0 0.

Section api.
Context {A U W : Type} `{!AddressSpace W}.
Notation kernel := (kernel A U W).
Implicit Types k : kernel.

(** ** arch_syscall *)

Definition arch_syscall {C} `{!Gate kernel C} (handle : Z) (data : C) : M kernel (Z * C) :=
  n ← gets irq_reenter_cnt;
  if n =? -1 then int_100 handle data else mret (E_AGAIN, data).

Definition arch_running_ring3 : M kernel bool := gets (λ k, ring3 (k_mach k).1).
Definition arch_in_gate : M kernel bool := gets (λ k, irq_reenter_cnt k =? 0).

Definition may_run_direct : M kernel bool :=
  r3 ← arch_running_ring3;
  if r3 : bool then mret false else
  n ← gets irq_reenter_cnt;
  if n =? 0 then mret true else
  tid ← thread_get_tid;
  mret (tid <? 0).

(** ** The wrappers

    [proc_syscall_exec] reads [thread_run] under [schedule_lock] before it
    looks at the command. *)
Definition exec_current : M kernel Z := sched_section (gets thread_run).

Context `{!Gate kernel proc_thread_ctrl_config}.

Definition proc_gate (cfg : proc_thread_ctrl_config) : M kernel (Z * proc_thread_ctrl_config) :=
  h ← gets proc_scall_handle;
  arch_syscall h cfg.

Definition thread_yield : M kernel unit :=
  d ← may_run_direct;
  if d : bool then exec_current;; thread_yield_internal
  else proc_gate (ptc THREAD_CTRL_YIELD 0 0);; mret tt.

Definition thread_block (tid : Z) : M kernel unit :=
  d ← may_run_direct;
  if d : bool then exec_current;; thread_block_internal tid
  else proc_gate (ptc THREAD_CTRL_BLOCK 0 tid);; mret tt.

Definition thread_unblock (tid : Z) : M kernel unit :=
  d ← may_run_direct;
  if d : bool then exec_current;; thread_unblock_internal tid
  else proc_gate (ptc THREAD_CTRL_UNBLOCK 0 tid);; mret tt.

Definition proc_block (pid : Z) : M kernel Z :=
  d ← may_run_direct;
  (if d : bool then exec_current;; proc_block_internal pid;; mret tt
   else proc_gate (ptc PROC_CTRL_BLOCK pid 0);; mret tt);;
  mret 0.

Definition proc_unblock (pid : Z) : M kernel Z :=
  d ← may_run_direct;
  (if d : bool then exec_current;; proc_unblock_internal pid;; mret tt
   else proc_gate (ptc PROC_CTRL_UNBLOCK pid 0);; mret tt);;
  mret 0.

(** ** Inside a gate every wrapper is the implementation *)

Definition in_gate k : Prop := ring3 (k_mach k).1 = false ∧ irq_reenter_cnt k = 0.

Lemma may_run_direct_gate k : in_gate k → may_run_direct k = Ret true k.
Proof.
  intros [Hr Hn]. unfold may_run_direct, arch_running_ring3.
  rewrite (bind_Ret _ _ _ false k) by (unfold gets; by rewrite Hr).
  rewrite (bind_Ret _ _ _ 0 k) by (unfold gets; by rewrite Hn). done.
Qed.

Lemma exec_current_run k s : sched_ok k s → exec_current k = Ret (thread_run k) k.
Proof.
  intros Hok. etrans; [by eapply (sched_section_run k s)|]. by rewrite hold_irq_id.
Qed.

Lemma thread_block_gate k s tid :
  in_gate k → sched_ok k s → thread_block tid k = Ret tt (blocked tid k).
Proof.
  intros Hg Hok. unfold thread_block. rewrite (bind_Ret _ _ _ _ _ (may_run_direct_gate k Hg)).
  rewrite (bind_Ret _ _ _ _ _ (exec_current_run k s Hok)). by apply thread_block_run with s.
Qed.

Lemma thread_unblock_gate k s tid :
  in_gate k → sched_ok k s → thread_unblock tid k = Ret tt (unblocked tid k).
Proof.
  intros Hg Hok. unfold thread_unblock. rewrite (bind_Ret _ _ _ _ _ (may_run_direct_gate k Hg)).
  rewrite (bind_Ret _ _ _ _ _ (exec_current_run k s Hok)). by apply thread_unblock_run with s.
Qed.
End api.
