(* ===== verification/Mmio.v ===== *)
(** * Device windows (kernel/mmio.c)

    A process maps physical memory at an address of its choice with
    MMIO_CTRL_MAP and drops the window with MMIO_CTRL_UNMAP; the grants of the
    process decide which memory. *)

From stdpp Require Import base tactics list gmap.
From Stdlib Require Import ZArith Lia.
From S2P Require Import Prelude Spinlock Allocator RbTree RbDelete RbOrder Pmm Paging PageSpaces PageRuns Vmm VmmSpace VmmOps VmmMap Heap KState Capability Sched ThreadApi KernelVm.

Open Scope Z_scope.

Definition MMIO_CTRL_MAP : Z := 0.
Definition MMIO_CTRL_UNMAP : Z := 1.

Record mmio_syscall_data := mk_mmio { mm_cmd : Z; mm_pa : Z; mm_size : Z; mm_va : Z; mm_ret : Z }.

Definition mmio_set_ret (r : Z) (c : mmio_syscall_data) : mmio_syscall_data :=
  mk_mmio (mm_cmd c) (mm_pa c) (mm_size c) (mm_va c) r.

Section mmio.
Context {LY : Layout} {A U V : Type} `{!Allocator A, !Allocator V}.
Notation kernel := (kernel A U (vm V)).
Implicit Types k : kernel.

(** The answer and the configuration with its OUT field. *)
Definition mmio_exec (cfg : option mmio_syscall_data) : M kernel (Z * option mmio_syscall_data) :=
  proc ← get_current_process;
  match cfg with
  | None => mret (E_INVAL, None)
  | Some c =>
      if proc =? 0 then mret (E_INVAL, Some c) else
      if mm_cmd c =? MMIO_CTRL_MAP then
        if (mm_va c <? USER_HEAP_END) || (mm_size c =? 0) || (USER_SPACE_TOP -u mm_va c <? mm_size c)
        then mret (E_INVAL, Some c) else
        r ← vm_checked (λ cap, vmm_map_fixed cap proc (mm_pa c) (mm_va c) (mm_size c) PTE_USER_PAGE 0);
        mret (r, Some (mmio_set_ret r c))
      else if mm_cmd c =? MMIO_CTRL_UNMAP then
        r ← vm_checked (λ cap, vmm_unmap_fixed cap proc (mm_va c) (mm_size c));
        mret (r, Some (mmio_set_ret r c))
      else mret (E_INVAL, Some c)
  end.

Definition mmio_syscall_isr (data : option mmio_syscall_data) : M kernel (Z * option mmio_syscall_data) :=
  match data with
  | None => mret (E_INVAL, None)
  | Some cfg => mmio_exec (Some cfg)
  end.

(** The wrappers; [mmio_scall_handle] is what [mmio_syscall_init] stored. *)
Context `{!Gate kernel mmio_syscall_data} (mmio_scall_handle : Z).

Definition mmio_map (pa size vaddr : Z) : M kernel Z :=
  r ← arch_syscall mmio_scall_handle (mk_mmio MMIO_CTRL_MAP pa size vaddr 0);
  mret (mm_ret r.2).

Definition mmio_unmap (vaddr size : Z) : M kernel Z :=
  r ← arch_syscall mmio_scall_handle (mk_mmio MMIO_CTRL_UNMAP 0 size vaddr 0);
  mret (mm_ret r.2).
End mmio.

Section theorems.
Context {LY : Layout} {A U V : Type} `{!Allocator A, !Allocator V}.
Notation kernel := (kernel A U (vm V)).
Implicit Types k : kernel.

(** The user part of the address space, in whole pages. *)
Definition in_user_space (va n : Z) : Prop := va + n * 4096 <= USER_SPACE_TOP.

Lemma user_range_check va n :
  USER_HEAP_END <= va → 0 < n → in_user_space va n →
  (va <? USER_HEAP_END) || (n * 4096 =? 0) || (USER_SPACE_TOP -u va <? n * 4096) = false.
Proof.
  unfold in_user_space, USER_HEAP_END, USER_SPACE_TOP. intros H1 H2 H3.
  rewrite u32_small by (unfold is_u32; lia). rewrite !orb_false_iff, !Z.ltb_ge, Z.eqb_neq. lia.
Qed.

Lemma mmio_exec_map k proc pa n va x r w :
  current k proc → proc ≠ 0 → USER_HEAP_END <= va → 0 < n → in_user_space va n →
  vmm_map_fixed (map_mem_answer k) proc pa va (n * 4096) PTE_USER_PAGE 0 (k_vm k) = Ret r w →
  mmio_exec (Some (mk_mmio MMIO_CTRL_MAP pa (n * 4096) va x)) k
    = Ret (r, Some (mk_mmio MMIO_CTRL_MAP pa (n * 4096) va r)) (set_k_vm w k).
Proof.
  intros Hc Hp Hva Hn Hus E. unfold mmio_exec. rewrite (bind_Ret _ _ _ _ _ (current_run k proc Hc)).
  rewrite (proj2 (Z.eqb_neq proc 0)) by done. cbn [mm_cmd mm_pa mm_size mm_va].
  change (MMIO_CTRL_MAP =? MMIO_CTRL_MAP) with true. rewrite user_range_check by done. cbv iota.
  by rewrite (bind_Ret _ _ _ _ _ (vm_checked_run _ k _ _ E)).
Qed.

Lemma mmio_exec_unmap k proc pa size va x r w :
  current k proc → proc ≠ 0 → vmm_unmap_fixed (map_mem_answer k) proc va size (k_vm k) = Ret r w →
  mmio_exec (Some (mk_mmio MMIO_CTRL_UNMAP pa size va x)) k
    = Ret (r, Some (mk_mmio MMIO_CTRL_UNMAP pa size va r)) (set_k_vm w k).
Proof.
  intros Hc Hp E. unfold mmio_exec. rewrite (bind_Ret _ _ _ _ _ (current_run k proc Hc)).
  rewrite (proj2 (Z.eqb_neq proc 0)) by done. cbn [mm_cmd mm_pa mm_size mm_va].
  change (MMIO_CTRL_UNMAP =? MMIO_CTRL_MAP) with false. change (MMIO_CTRL_UNMAP =? MMIO_CTRL_UNMAP) with true.
  cbv iota. by rewrite (bind_Ret _ _ _ _ _ (vm_checked_run _ k _ _ E)).
Qed.

(** [mmio_map] by the running process, in user space and on whole pages,
    always returns.  It succeeds only when a grant of the process covers the
    physical range with user rights; then every address of the window
    translates to the device memory, writable, no region of the process is
    touched, and MMIO_CTRL_UNMAP of the window leaves the address space, the
    heap and the other processes as they were.  When it fails, nothing is left
    behind; without a grant the answer is E_PERM. *)
Theorem mmio_window_guarded_and_removed k proc p l L c ns rs pa n va x :
  current k proc → cap_holder k proc p l → caps_u32 (p_caps p) →
  world (k_vm k) L → space (k_vm k) L proc c ns rs → fixed_ok pa va n → in_user_space va n →
  ∃ r w1, mmio_exec (Some (mk_mmio MMIO_CTRL_MAP pa (n * 4096) va x)) k
      = Ret (r, Some (mk_mmio MMIO_CTRL_MAP pa (n * 4096) va r)) (set_k_vm w1 k) ∧
    (r = 0 → granted p pa (n * 4096) PTE_USER_PAGE ∧
       (∀ a, va <= a < va + n * 4096 → look (v_pg w1) (v_cr3 c) a = Some (pa + (a - va), true)) ∧
       ∃ w2, mmio_exec (Some (mk_mmio MMIO_CTRL_UNMAP 0 (n * 4096) va x)) (set_k_vm w1 k)
           = Ret (0, Some (mk_mmio MMIO_CTRL_UNMAP 0 (n * 4096) va 0)) (set_k_vm w2 k) ∧
         unchanged (k_vm k) L proc c ns rs w2) ∧
    (r ≠ 0 → unchanged (k_vm k) L proc c ns rs w1) ∧
    (¬ granted p pa (n * 4096) PTE_USER_PAGE → r = E_PERM).
Proof.
  intros Hcur Hh Hu Hw Hs Hfx Hus. pose proof Hfx as (Hpm & Hpu & Hpe & Hvm & Hve & Hn & Hend).
  destruct (sp_live _ _ _ _ _ _ Hs) as [Hv _]. unfold USER_HEAP_END, is_u32 in Hve, Hpu.
  destruct (map_mem_answer_run k proc p l pa (n * 4096) PTE_USER_PAGE Hh Hu) as [Ha Hg]; [split; lia..|done|].
  assert (Hva : USER_HEAP_END <= va) by apply Hfx.
  destruct (decide (map_mem_answer k proc pa (n * 4096) PTE_USER_PAGE = 0)) as [E0|E0].
  2: { exists E_PERM, (k_vm k). split_and!.
       - apply (mmio_exec_map k proc); try done. by apply map_fixed_refused.
       - done.
       - intros _. by apply unchanged_refl.
       - done. }
  destruct (vmm_map_fixed_run (map_mem_answer k) (k_vm k) L proc c ns rs pa va n PTE_USER_PAGE Hw Hs eq_refl Hfx E0)
    as (r & w1 & E & Hres). exists r, w1. split.
  { by apply (mmio_exec_map k proc). }
  destruct Hres as [[Hr Hun]|(-> & q & t & ns1 & ns2 & rs1 & rs2 & HqL & -> & -> & Hln & Hpl & Hfr & Hgr)].
  { split_and!; [intros ->; naive_solver|done|intros H; by apply Hg in E0]. }
  split_and!; [intros _|done|intros H; by apply Hg in E0].
  split_and!; [by apply Hg|intros a Ha'; apply (grown_look _ _ _ _ _ _ _ _ _ _ _ _ _ _ _ _ _ Hgr); unfold USER_HEAP_END; lia|].
  destruct (window_whole va n PTE_USER_PAGE pa 0) as [Hc1 Hc2]; [lia..|].
  pose proof Hgr as (Hw1 & Hs1 & _).
  destruct (vmm_unmap_fixed_run (map_mem_answer (set_k_vm w1 k)) w1 _ proc _ _ _ _ _ _ _ va (n * 4096) Hw1 Hs1 Hln Hc1 eq_refl Hc2)
    as (t2 & w2 & E2 & Hw2 & Hs2 & Hf2 & Hb2).
  { cbn [window rg_pa rg_size]. rewrite (map_mem_answer_vm k w1 proc p l) by done.
    apply (map_mem_answer_run k proc p l); [done|done|split; lia|split; lia|done|]. eapply granted_no_flags. by apply Hg. }
  exists w2. split.
  - by apply (mmio_exec_unmap (set_k_vm w1 k) proc).
  - by eapply grown_then_shrunk.
Qed.
End theorems.

(** ** Witnesses: the terminal's text window *)

Definition vga_grant : capability := mk_cap CAP_MAP_MEM (mk_cap_mem 753664 4096 7).
Definition term_pcb : pcb :=
  mk_pcb 1 PS_READY PROC_PRIV_USER [10] 0 (Some 1%nat) [(700, vga_grant)] (Some 2%nat).

Definition mmio_demo : kernel heap heap (vm (gset Z)) :=
  set_thread_run 10 (set_tcbs {[ 10 := demo_tcb 1 64 3 TS_READY ]}
    (set_pcbs {[ 64 := term_pcb ]} (boot_kernel demo_locks small_heap small_heap demo_vm))).

Lemma mmio_demo_current : current mmio_demo 64.
Proof. split; [done|]. by exists (demo_tcb 1 64 3 TS_READY). Qed.

Lemma mmio_demo_holder : cap_holder mmio_demo 64 term_pcb 2.
Proof. by split. Qed.

Lemma term_caps_u32 : caps_u32 (p_caps term_pcb).
Proof.
  intros ty v. rewrite held_snd. cbn [map snd p_caps term_pcb]. intros Hv%list_elem_of_singleton.
  apply (mk_cap_transport _ _ _ _ cap_u32 Hv). by repeat split.
Qed.

Lemma mmio_window_guarded_and_removed_witness :
  ∃ r w1, mmio_exec (Some (mk_mmio MMIO_CTRL_MAP 753664 (1 * 4096) 3758096384 0)) mmio_demo
      = Ret (r, Some (mk_mmio MMIO_CTRL_MAP 753664 (1 * 4096) 3758096384 r)) (set_k_vm w1 mmio_demo) ∧
    (r ≠ 0 → unchanged demo_vm {[ 4096; 8192 ]} 64 demo_vcb [] [] w1).
Proof.
  destruct (mmio_window_guarded_and_removed mmio_demo 64 term_pcb 2 {[ 4096; 8192 ]} demo_vcb [] [] 753664 1 3758096384 0
    mmio_demo_current mmio_demo_holder term_caps_u32 demo_world demo_space) as (r & w1 & E & _ & H & _).
  - unfold fixed_ok, is_u32, USER_HEAP_END. split_and!; (reflexivity || lia).
  - unfold in_user_space, USER_SPACE_TOP. lia.
  - exists r, w1. split; [exact E|exact H].
Defined.

Definition answer {S B} (o : outcome S B) : option B := match o with Ret b _ => Some b | _ => None end.

(** The window of the terminal is mapped; memory without a grant is refused. *)
Example mmio_demo_runs :
  answer ((r ← mmio_exec (Some (mk_mmio MMIO_CTRL_MAP 753664 4096 3758096384 0));
           s ← mmio_exec (Some (mk_mmio MMIO_CTRL_MAP 0 4096 3758100480 0)); mret (r.1, s.1)) mmio_demo)
  = Some (0, E_PERM).
Proof. vm_compute. reflexivity. Qed.

(** The comparison with [USER_SPACE_TOP - va] wraps for an address above the
    top: a window outside user space is accepted. *)
Example mmio_check_wraps :
  answer ((r ← mmio_exec (Some (mk_mmio MMIO_CTRL_MAP 753664 4096 4026535936 0)); mret r.1) mmio_demo) = Some 0.
Proof. vm_compute. reflexivity. Qed.
