(* ===== verification/Shm.v ===== *)
(** * Shared memory (kernel/ipc/shm.c)

    A process shares memory of its own with another process: the target gets
    a grant for the frames and a window onto them.  [shm_unshare] takes both
    away.  Portals move their requests and replies this way. *)

From stdpp Require Import base tactics list gmap.
From Stdlib Require Import ZArith Lia.
From S2P Require Import Prelude Spinlock Allocator RbTree RbDelete RbOrder Pmm Paging PageSpaces PageRuns Vmm VmmSpace VmmOps VmmMap Heap KState Capability Sched ThreadApi KernelVm.

Open Scope Z_scope.

Section shm.
Context {LY : Layout} {A U V : Type} `{!Allocator A, !Allocator V}.
Notation kernel := (kernel A U (vm V)).

(** The gate of both functions: a user process needs a CAP_IPC grant. *)
Definition ipc_denied (curr : Z) : M kernel bool :=
  c ← get_pcb curr;
  if bool_decide (p_priv c = PROC_PRIV_KERNEL) then mret false else
  r ← cap_check curr CAP_IPC (Some 1);
  mret (negb (r =? 0)).

(** The answer, and what is stored through [out_va]. *)
Definition shm_share (pid va size : Z) : M kernel (Z * option Z) :=
  curr ← get_current_process;
  target ← get_process_by_pid pid;
  if (curr =? 0) || (target =? 0) then mret (E_NOTFOUND, None) else
  if size =? 0 then mret (E_INVAL, None) else
  denied ← ipc_denied curr;
  if (denied : bool) then mret (E_PERM, None) else
  pa ← vmzoom (vmm_va_to_pa curr va);
  if pa =? 0 then mret (E_INVAL, None) else
  let aligned_pa := Z.land pa PAGE_MASK in
  let aligned_pa_size := Z.land (size +u (pa -u aligned_pa) +u (PAGE_SIZE - 1)) PAGE_MASK in
  src ← vmzoom (vmm_lookup_region curr va);
  let '(found, (src_pa, src_size, _)) := src in
  if negb (found =? 0) then mret (E_INVAL, None) else
  if (aligned_pa <? src_pa) || (src_size -u (aligned_pa -u src_pa) <? aligned_pa_size)
  then mret (E_INVAL, None) else
  let cmem := mk_cap_mem aligned_pa aligned_pa_size PTE_USER_PAGE in
  ret ← cap_grant target CAP_MAP_MEM (Some cmem);
  if negb (ret =? 0) then mret (ret, None) else
  target_va ← vm_checked (λ cap, vmm_map_memory cap target pa size PTE_USER_PAGE);
  if VMM_IS_ERR target_va then cap_revoke target CAP_MAP_MEM (Some cmem);; mret (E_LIMIT, None)
  else mret (0, Some target_va).

Definition shm_unshare (pid va : Z) : M kernel Z :=
  curr ← get_current_process;
  target ← get_process_by_pid pid;
  if (curr =? 0) || (target =? 0) then mret E_NOTFOUND else
  denied ← ipc_denied curr;
  if (denied : bool) then mret E_PERM else
  reg ← vmzoom (vmm_lookup_region target va);
  let '(found, (pa, pa_size, region_va)) := reg in
  if negb (found =? 0) then mret E_NOTFOUND else
  r ← vm_checked (λ cap, vmm_unmap_memory cap target region_va pa_size);
  if negb (r =? 0) then mret E_LIMIT else
  cap_revoke target CAP_MAP_MEM (Some (mk_cap_mem pa pa_size PTE_USER_PAGE)).
End shm.

(** ** The parts, run *)

Section run.
Context {LY : Layout} {A U V : Type} `{!Allocator A, !Allocator V}.
Notation kernel := (kernel A U (vm V)).
Implicit Types k : kernel.

Lemma by_pid_run k s pid :
  sched_ok k s → (∀ p, p ∈ proc_head k → is_Some (pcbs k !! p)) →
  get_process_by_pid pid k = Ret (default 0 (by_pid k pid)) k.
Proof.
  intros Hok Hp. unfold get_process_by_pid.
  etrans; [eapply (sched_section_run k s); [done| |]|].
  - rewrite (bind_Ret _ _ _ (proc_head k) (hold_irq s k)) by done. by apply find_pid_run.
  - done.
  - by destruct k.
Qed.

(** A process that may use IPC. *)
Definition may_ipc (c : pcb) : Prop :=
  p_priv c = PROC_PRIV_KERNEL ∨ ∃ v, held CAP_IPC v (p_caps c) ∧ v ≠ 0.

Lemma ipc_denied_run k curr c l :
  cap_holder k curr c l → caps_u32 (p_caps c) →
  ∃ b, ipc_denied curr k = Ret b k ∧ (b = false ↔ may_ipc c).
Proof.
  intros Hh Hu. unfold ipc_denied, may_ipc. rewrite (bind_Ret _ _ _ c k) by (by apply deref_Some, (ch_pcb _ _ _ _ Hh)).
  destruct (bool_decide_reflect (p_priv c = PROC_PRIV_KERNEL)) as [Hk|Hk]; [exists false; split; [done|]; by split; auto|].
  destruct (cap_check_answer k curr c l CAP_IPC 1 Hh Hu I) as (r & E & _ & Hr).
  exists (negb (r =? 0)). erewrite bind_Ret; [|exact E]. split; [done|].
  rewrite negb_false_iff, Z.eqb_eq, Hr. split; [by right|by intros [?|?]].
Qed.

(** Taking back the newest grant. *)
Lemma filter_not_held ty a caps :
  ¬ held ty a caps →
  List.filter (λ c, negb (revoked ty a c)) caps = caps ∧ List.filter (revoked ty a) caps = [].
Proof.
  induction caps as [|[x c] caps IH]; [done|]. intros Hn. cbn [List.filter].
  assert (revoked ty a (x, c) = false) as ->.
  { apply not_true_iff_false. rewrite revoked_iff. cbn [snd]. intros ->. apply Hn. exists x. left. }
  destruct IH as [-> ->]; [|done]. intros (y & Hy). apply Hn. exists y. by right.
Qed.

Lemma revoke_newest k proc p l ty a x caps L :
  cap_holder k proc p l → owns (k_heap k) L → caps_alloc (p_caps p) L →
  p_caps p = (x, mk_cap ty a) :: caps → ¬ held ty a caps →
  ∃ h, cap_revoke proc ty (Some a) k = Ret 0 (set_pcbs (<[proc := pcb_caps caps p]> (pcbs k)) (set_k_heap h k)) ∧
    owns h (L ∖ {[x]}).
Proof.
  intros Hh Ho Hal Hc Hn. pose proof Hh as [Hnz Hp Hl Hf].
  destruct (revoke_locked k l proc p (revoked ty a) L Hh Ho Hal) as (h & E & Ho'). exists h.
  assert (revoked ty a (x, mk_cap ty a) = true) as Hx by (by apply revoked_iff).
  rewrite Hc in E, Ho'. cbn [List.filter] in E, Ho'. rewrite Hx in E, Ho'. cbn [negb] in E.
  destruct (filter_not_held ty a caps Hn) as [F1 F2]. rewrite F1 in E. rewrite F2 in Ho'.
  cbn [addrs map list_to_set foldr fst] in Ho'. rewrite union_empty_r_L in Ho'. split; [|done].
  unfold cap_revoke. rewrite (proj2 (Z.eqb_neq _ _) Hnz), (bind_Ret _ _ _ p k), Hl by (by apply deref_Some).
  by rewrite (bind_Ret _ _ _ _ _ E).
Qed.

(** A range that wraps when it is rounded up to whole pages is refused. *)
Lemma map_memory_too_big (cap : Z → Z → Z → Z → Z) (w : vm V) v pa size flags :
  is_u32 pa → v ≠ 0 → 4294963200 < size + pa mod 4096 →
  ∃ e, vmm_map_memory cap v pa size flags w = Ret e w ∧ VMM_IS_ERR e = true.
Proof.
  intros Hpa Hv Hs. unfold vmm_map_memory. cbv zeta. rewrite land_page_mask, (proj2 (Z.eqb_neq v 0)) by done.
  destruct (negb (cap v pa size flags =? 0)); [by exists (VMM_ERR_PTR E_PERM)|].
  assert (pa -u pa / 4096 * 4096 = pa mod 4096) as ->.
  { unfold is_u32 in Hpa. pose proof (Z.div_mod pa 4096 ltac:(lia)). pose proof (Z.mod_pos_bound pa 4096 ltac:(lia)).
    rewrite u32_small by (unfold is_u32; lia). lia. }
  pose proof (Z.mod_pos_bound pa 4096 ltac:(lia)). unfold PAGE_SIZE.
  assert ((4294967295 -u pa mod 4096 -u (4096 - 1) <? size) = true) as ->.
  { rewrite (u32_small (4294967295 - _)) by (unfold is_u32; lia). rewrite u32_small by (unfold is_u32; lia).
    apply Z.ltb_lt. lia. }
  rewrite orb_true_r. by exists (VMM_ERR_PTR E_INVAL).
Qed.
End run.

(** ** Sharing and taking back *)

Section theorems.
Context {LY : Layout} {A U V : Type} `{!Allocator A, !Allocator V}.
Notation kernel := (kernel A U (vm V)).
Implicit Types k : kernel.

(** The running process [curr] (control block [pc], address space [cc]) and
    the process [target] with number [pid], at rest. *)
Record sharing k (s : nat) (pid curr target : Z) (pc pt : pcb) (lc lt : nat) (LK L : gset Z)
    (cc ct : vmm_control_block) (nsc nst : list Z) (rsc rst : list vmm_region) : Prop := {
  sh_sched : sched_ok k s;
  sh_procs : ∀ p, p ∈ proc_head k → is_Some (pcbs k !! p);
  sh_current : current k curr;
  sh_pid : by_pid k pid = Some target;
  sh_curr : cap_holder k curr pc lc ∧ caps_u32 (p_caps pc);
  sh_target : cap_holder k target pt lt ∧ caps_u32 (p_caps pt);
  sh_caps : caps_alloc (p_caps pt) LK;
  sh_world : world (k_vm k) L;
  sh_from : space (k_vm k) L curr cc nsc rsc;
  sh_to : space (k_vm k) L target ct nst rst ∧ rst ≠ [];
}.
Arguments sh_sched {k s pid curr target pc pt lc lt LK L cc ct nsc nst rsc rst}.
Arguments sh_procs {k s pid curr target pc pt lc lt LK L cc ct nsc nst rsc rst}.
Arguments sh_current {k s pid curr target pc pt lc lt LK L cc ct nsc nst rsc rst}.
Arguments sh_pid {k s pid curr target pc pt lc lt LK L cc ct nsc nst rsc rst}.
Arguments sh_curr {k s pid curr target pc pt lc lt LK L cc ct nsc nst rsc rst}.
Arguments sh_target {k s pid curr target pc pt lc lt LK L cc ct nsc nst rsc rst}.
Arguments sh_caps {k s pid curr target pc pt lc lt LK L cc ct nsc nst rsc rst}.
Arguments sh_world {k s pid curr target pc pt lc lt LK L cc ct nsc nst rsc rst}.
Arguments sh_from {k s pid curr target pc pt lc lt LK L cc ct nsc nst rsc rst}.
Arguments sh_to {k s pid curr target pc pt lc lt LK L cc ct nsc nst rsc rst}.

(** Other grants of [target], another kernel heap, other address spaces. *)
Definition regranted k (target : Z) (pt : pcb) caps h w : kernel :=
  set_pcbs (<[target := pcb_caps caps pt]> (pcbs k)) (set_k_heap h (set_k_vm w k)).

Lemma regranted_id k target pt : pcbs k !! target = Some pt →
  regranted k target pt (p_caps pt) (k_heap k) (k_vm k) = k.
Proof. intros Hp. unfold regranted. rewrite pcb_caps_id. simpl. rewrite insert_id by done. by destruct k. Qed.

Lemma regranted_heap k target pt h : pcbs k !! target = Some pt →
  regranted k target pt (p_caps pt) h (k_vm k) = set_k_heap h k.
Proof. intros Hp. unfold regranted. rewrite pcb_caps_id. simpl. rewrite insert_id by done. by destruct k. Qed.

Lemma regranted_regranted k target pt caps caps' h h' w w' :
  regranted (regranted k target pt caps h w) target (pcb_caps caps pt) caps' h' w' = regranted k target pt caps' h' w'.
Proof. unfold regranted. simpl. by rewrite insert_insert_eq. Qed.

Lemma regranted_holder k target pt lt caps h w :
  cap_holder k target pt lt → cap_holder (regranted k target pt caps h w) target (pcb_caps caps pt) lt.
Proof. intros []. split; try done. simpl. apply lookup_insert_eq. Qed.

Lemma regranted_by_pid k target pt caps h w pid :
  pcbs k !! target = Some pt → by_pid (regranted k target pt caps h w) pid = by_pid k pid.
Proof.
  intros Hp. unfold by_pid, regranted. simpl. induction (proc_head k) as [|p ps IH]; [done|]. cbn [List.find].
  rewrite IH. destruct (decide (p = target)) as [->|Hne]; [by rewrite lookup_insert_eq, Hp|by rewrite lookup_insert_ne].
Qed.

(** The grant that comes with a window. *)
Definition share_cap (pa size : Z) : cap_mem := mk_cap_mem (pa / 4096 * 4096) (pages_of pa size * 4096) PTE_USER_PAGE.

Lemma caps_u32_cons caps x ty v : caps_u32 caps → cap_u32 ty v → caps_u32 ((x, mk_cap ty v) :: caps).
Proof.
  intros Hu Hv ty' v'. rewrite held_cons. intros [E|H]; [by apply (mk_cap_transport _ _ _ _ cap_u32 E)|by apply Hu].
Qed.

Lemma caps_alloc_cons caps x c LK : x ∉ LK → caps_alloc caps LK → caps_alloc ((x, c) :: caps) ({[x]} ∪ LK).
Proof.
  intros Hx [Hnd HL]. split; cbn [addrs map fst list_to_set foldr]; fold (addrs caps).
  - apply NoDup_cons. split; [|done]. intros Hin. apply Hx, HL. by apply elem_of_list_to_set.
  - set_solver.
Qed.

(** What is left of a request that was refused. *)
Definition refused k target pt LK L ct nst rst (k' : kernel) : Prop :=
  ∃ h w, k' = regranted k target pt (p_caps pt) h w ∧ owns h LK ∧ unchanged (k_vm k) L target ct nst rst w.

Lemma refused_refl k target pt LK L ct nst rst :
  pcbs k !! target = Some pt → owns (k_heap k) LK → world (k_vm k) L → space (k_vm k) L target ct nst rst →
  refused k target pt LK L ct nst rst k.
Proof.
  intros Hp Ho Hw Hs. exists (k_heap k), (k_vm k). rewrite regranted_id by done. split_and!; [done|done|].
  by apply unchanged_refl.
Qed.

(** The last steps of [shm_share]: the grant, then the window. *)
Definition share_tail (target pa size : Z) (cmem : cap_mem) : M kernel (Z * option Z) :=
  ret ← cap_grant target CAP_MAP_MEM (Some cmem);
  if negb (ret =? 0) then mret (ret, None) else
  target_va ← vm_checked (λ cap, vmm_map_memory cap target pa size PTE_USER_PAGE);
  if VMM_IS_ERR target_va then cap_revoke target CAP_MAP_MEM (Some cmem);; mret (E_LIMIT, None)
  else mret (0, Some target_va).

(** The window, once the grant is there: a failure takes the grant back. *)
Lemma share_tail_error k target pt lt LK cm y h pa size e w :
  let k1 := regranted k target pt ((y, mk_cap CAP_MAP_MEM cm) :: p_caps pt) h (k_vm k) in
  cap_holder k target pt lt → caps_alloc (p_caps pt) LK → y ∉ LK → owns h ({[y]} ∪ LK) →
  ¬ held CAP_MAP_MEM cm (p_caps pt) →
  cap_grant target CAP_MAP_MEM (Some cm) k = Ret 0 k1 →
  vmm_map_memory (map_mem_answer k1) target pa size PTE_USER_PAGE (k_vm k) = Ret e w → VMM_IS_ERR e = true →
  ∃ h', share_tail target pa size cm k = Ret (E_LIMIT, None) (regranted k target pt (p_caps pt) h' w) ∧ owns h' LK.
Proof.
  intros k1 Hh Hal Hy Ho Hn Eg Em He. unfold share_tail. rewrite (bind_Ret _ _ _ _ _ Eg).
  change (negb (0 =? 0)) with false. cbv iota.
  rewrite (bind_Ret _ _ _ _ _ (vm_checked_run _ k1 _ _ Em)), He.
  assert (set_k_vm w k1 = regranted k target pt ((y, mk_cap CAP_MAP_MEM cm) :: p_caps pt) h w) as -> by done.
  destruct (revoke_newest (regranted k target pt ((y, mk_cap CAP_MAP_MEM cm) :: p_caps pt) h w) target _ lt CAP_MAP_MEM cm y
    (p_caps pt) ({[y]} ∪ LK) (regranted_holder _ _ _ _ _ _ _ Hh) Ho) as (h' & Er & Ho'); [|done|done|].
  { by apply caps_alloc_cons. }
  exists h'. rewrite (bind_Ret _ _ _ _ _ Er). split; [|by replace LK with (({[y]} ∪ LK) ∖ {[y]}) by set_solver].
  unfold regranted. simpl. by rewrite insert_insert_eq.
Qed.

Lemma share_granted k target pt lt y pa size h :
  cap_holder k target pt lt → caps_u32 (p_caps pt) → is_u32 pa → 0 < size → size + pa mod 4096 <= 4294963200 →
  grantable CAP_MAP_MEM (share_cap pa size) →
  map_mem_answer (regranted k target pt ((y, mk_cap CAP_MAP_MEM (share_cap pa size)) :: p_caps pt) h (k_vm k))
    target pa size PTE_USER_PAGE = 0.
Proof.
  intros Hh Hu Hpa Hsz Hle [Hg1 Hg2]. cbn [share_cap mem_base mem_size mem_flags] in Hg1, Hg2.
  pose proof Hpa as Hpa'. unfold is_u32 in Hpa.
  pose proof (Z.div_mod pa 4096 ltac:(lia)) as Hd. pose proof (Z.mod_pos_bound pa 4096 ltac:(lia)) as Hm.
  unfold pages_of in *. pose proof (Z.div_mod (size + pa mod 4096 + 4095) 4096 ltac:(lia)) as Hd2.
  pose proof (Z.mod_pos_bound (size + pa mod 4096 + 4095) 4096 ltac:(lia)) as Hm2.
  eapply map_mem_answer_run; [by apply regranted_holder| |done|unfold is_u32; lia|done|].
  { apply caps_u32_cons; [done|]. simpl. unfold is_u32, pages_of. split_and!; (lia || done). }
  exists (share_cap pa size). split; [apply held_cons; by left|].
  simpl. unfold pages_of. split_and!; [lia|done|lia|lia].
Qed.

(** The target holds one more grant and one more window, over the frames at
    [pa]; [o] is the address of the first byte. *)
Definition shared k target pt LK L ct nst rst (pa size : Z) (o : option Z) (k' : kernel) : Prop :=
  ∃ y h p va t ns1 ns2 rs1 rs2 w,
    o = Some (va + pa mod 4096) ∧
    k' = regranted k target pt ((y, mk_cap CAP_MAP_MEM (share_cap pa size)) :: p_caps pt) h w ∧
    y ∉ LK ∧ owns h ({[y]} ∪ LK) ∧ ¬ held CAP_MAP_MEM (share_cap pa size) (p_caps pt) ∧
    nst = ns1 ++ ns2 ∧ rst = rs1 ++ rs2 ∧ length ns1 = length rs1 ∧ p ∉ L ∧
    place (pages_of pa size * 4096) va rs1 rs2 ∧ v_frames w = v_frames (k_vm k) ∧
    grown (k_vm k) L target ct ns1 ns2 rs1 rs2 p t
      (window va (pages_of pa size) PTE_USER_PAGE (pa / 4096 * 4096) 0) w.

Lemma place_not_error va n rs1 rs2 m :
  place (n * 4096) va rs1 rs2 → 0 < n → 0 <= m < 4096 → VMM_IS_ERR (va + m) = false.
Proof.
  intros (P1 & P2 & P3 & _) Hn Hm. unfold VMM_IS_ERR. change (u32 (-4095)) with 4294963201. apply Z.leb_gt.
  pose proof (Z.div_mod va 4096 ltac:(lia)). lia.
Qed.

Lemma share_tail_run k target pt lt LK L ct nst rst pa size :
  cap_holder k target pt lt → caps_u32 (p_caps pt) → owns (k_heap k) LK → caps_alloc (p_caps pt) LK →
  world (k_vm k) L → space (k_vm k) L target ct nst rst → rst ≠ [] → is_u32 pa → 0 < size < 4294967296 →
  let cm := mk_cap_mem (pa / 4096 * 4096) (Z.land (size +u pa mod 4096 +u (PAGE_SIZE - 1)) PAGE_MASK) PTE_USER_PAGE in
  ∃ r o k', share_tail target pa size cm k = Ret (r, o) k' ∧
    (r ≠ 0 ∧ o = None ∧ refused k target pt LK L ct nst rst k' ∨
     r = 0 ∧ pa + size <= 4294963200 ∧ shared k target pt LK L ct nst rst pa size o k').
Proof.
  intros Hh Hu Ho Hal Hw Hs Hne Hpa Hsz cm. pose proof Hpa as Hpa'. unfold is_u32 in Hpa'.
  pose proof (Z.div_mod pa 4096 ltac:(lia)) as Hd. pose proof (Z.mod_pos_bound pa 4096 ltac:(lia)) as Hm.
  assert (Hcu : cap_u32 CAP_MAP_MEM cm).
  { simpl. split_and!; [unfold is_u32; lia| |done].
    assert (is_u32 (size +u pa mod 4096 +u (PAGE_SIZE - 1))) as Hx by apply u32_range.
    rewrite land_page_mask by done. revert Hx. generalize (size +u pa mod 4096 +u (PAGE_SIZE - 1)). clear.
    unfold is_u32. intros z Hz. pose proof (Z.div_mod z 4096 ltac:(lia)). pose proof (Z.mod_pos_bound z 4096 ltac:(lia)). lia. }
  pose proof (ch_pcb _ _ _ _ Hh) as Hp.
  assert (Hrefl : refused k target pt LK L ct nst rst k) by (by apply refused_refl).
  destruct (cap_grant_run k target pt lt CAP_MAP_MEM cm LK Hh Hcu Ho) as (G1 & G2 & G3).
  destruct (Z.eqb_spec (grant_check_func CAP_MAP_MEM cm) 0) as [Hg|Hg];
    rewrite grant_check_grantable in Hg by done.
  2: { exists E_INVAL, None, k. unfold share_tail. rewrite (bind_Ret _ _ _ _ _ (G1 Hg)). split; [done|by left]. }
  destruct (is_dup CAP_MAP_MEM cm (p_caps pt)) eqn:Ed.
  { apply is_dup_held in Ed. exists E_EXISTS, None, k. unfold share_tail. rewrite (bind_Ret _ _ _ _ _ (G2 Hg Ed)). split; [done|by left]. }
  assert (¬ held CAP_MAP_MEM cm (p_caps pt)) as Hnh by (by rewrite <- is_dup_held, Ed).
  destruct (G3 Hg Hnh) as [(h & E & Ho')|(y & h & E & Hy & Ho')].
  { exists E_NOMEM, None, (set_k_heap h k). unfold share_tail. rewrite (bind_Ret _ _ _ _ _ E).
    split; [done|left]. split_and!; [done|done|]. exists h, (k_vm k). rewrite regranted_heap by done.
    split_and!; [done|done|by apply unchanged_refl]. }
  assert (E' : cap_grant target CAP_MAP_MEM (Some cm) k
    = Ret 0 (regranted k target pt ((y, mk_cap CAP_MAP_MEM cm) :: p_caps pt) h (k_vm k))).
  { etrans; [exact E|]. by destruct k. }
  destruct (Z.le_gt_cases (size + pa mod 4096) 4294963200) as [Hle|Hgt].
  2: { destruct (map_memory_too_big (map_mem_answer (regranted k target pt ((y, mk_cap CAP_MAP_MEM cm) :: p_caps pt) h (k_vm k)))
         (k_vm k) target pa size PTE_USER_PAGE Hpa (ch_nz _ _ _ _ Hh) Hgt) as (e & Em & He).
       destruct (share_tail_error k target pt lt LK cm y h pa size e (k_vm k) Hh Hal Hy Ho' Hnh E' Em He) as (h' & Et & Ho2).
       eexists _, _, _. split; [exact Et|left]. split_and!; [done|done|]. exists h', (k_vm k). split_and!; [done|done|by apply unchanged_refl]. }
  assert (Hcm : cm = share_cap pa size).
  { unfold cm, share_cap. f_equal. unfold PAGE_SIZE, pages_of.
    rewrite (u32_small (size + _)) by (unfold is_u32; lia). rewrite u32_small by (unfold is_u32; lia).
    by rewrite land_page_mask by (unfold is_u32; lia). }
  rewrite Hcm in *. clear Hcm cm.
  assert (Hend : pa + size <= 4294963200).
  { destruct Hg as [_ Hg]. cbn [share_cap mem_base mem_size] in Hg. unfold pages_of in Hg.
    pose proof (Z.div_mod (size + pa mod 4096 + 4095) 4096 ltac:(lia)).
    pose proof (Z.mod_pos_bound (size + pa mod 4096 + 4095) 4096 ltac:(lia)). lia. }
  destruct (vmm_map_memory_run _ (k_vm k) L target ct nst rst pa size PTE_USER_PAGE Hw Hs Hne eq_refl Hpa ltac:(lia) Hend
    (share_granted k target pt lt y pa size h Hh Hu Hpa ltac:(lia) Hle Hg)) as (x & w & Em & Hres).
  destruct Hres as [[-> Hun]|(p & va & t & ns1 & ns2 & rs1 & rs2 & -> & HpL & -> & -> & Hln & Hfg & Hpl & Hfr & Hgr)].
  { destruct (share_tail_error k target pt lt LK _ y h pa size _ w Hh Hal Hy Ho' Hnh E' Em eq_refl) as (h' & Et & Ho2).
    eexists _, _, _. split; [exact Et|left]. split_and!; [done|done|]. by exists h', w. }
  eexists _, _, _. split; [|right; split_and!; [reflexivity|done|]].
  - unfold share_tail. rewrite (bind_Ret _ _ _ _ _ E'). change (negb (0 =? 0)) with false. cbv iota.
    erewrite bind_Ret; [|apply vm_checked_run; exact Em].
    rewrite (place_not_error va (pages_of pa size) rs1 rs2) by (apply pages_of_size || done; (done || lia)). reflexivity.
  - exists y, h, p, va, t, ns1, ns2, rs1, rs2, w. by split_and!.
Qed.

(** *** Taking the window back *)

Lemma new_grant_covers k target pt lt y cm h w :
  cap_holder k target pt lt → caps_u32 (p_caps pt) → cap_u32 CAP_MAP_MEM cm → grantable CAP_MAP_MEM cm →
  map_mem_answer (regranted k target pt ((y, mk_cap CAP_MAP_MEM cm) :: p_caps pt) h w)
    target (mem_base cm) (mem_size cm) 0 = 0.
Proof.
  intros Hh Hu Hc [Hg _]. pose proof Hc as (H1 & H2 & H3).
  eapply map_mem_answer_run; [by apply regranted_holder|by apply caps_u32_cons|done|done|done|].
  exists cm. split; [apply held_cons; by left|]. simpl. split_and!; [done| |lia|lia].
  intros i. by rewrite Z.bits_0.
Qed.

(** The running process in the new state: its rights to use IPC are the same. *)
Lemma regranted_gate k s pid curr target pc pt lc lt LK L cc ct nsc nst rsc rst y cm h w :
  sharing k s pid curr target pc pt lc lt LK L cc ct nsc nst rsc rst → cap_u32 CAP_MAP_MEM cm → may_ipc pc →
  let k' := regranted k target pt ((y, mk_cap CAP_MAP_MEM cm) :: p_caps pt) h w in
  ipc_denied curr k' = Ret false k'.
Proof.
  intros Hsh Hcu Hm k'. destruct (sh_curr Hsh) as [Hh Hu].
  destruct (sh_target Hsh) as [Hht Hut].
  destruct (decide (curr = target)) as [->|Hne].
  - destruct (ipc_denied_run k' target (pcb_caps ((y, mk_cap CAP_MAP_MEM cm) :: p_caps pt) pt) lt) as (b & E & Hb).
    + by apply regranted_holder.
    + by apply caps_u32_cons.
    + assert (pc = pt) as -> by (pose proof (ch_pcb _ _ _ _ Hh); pose proof (ch_pcb _ _ _ _ Hht); congruence).
      rewrite E. f_equal. apply Hb. destruct Hm as [?|(v & Hv & Hv0)]; [by left|right].
      exists v. split; [apply held_cons; by right|done].
  - destruct (ipc_denied_run k' curr pc lc) as (b & E & Hb); [|done|].
    + destruct Hh. split; try done. simpl. by rewrite lookup_insert_ne.
    + rewrite E. f_equal. by apply Hb.
Qed.

Lemma regranted_entry k s pid curr target pc pt lc lt LK L cc ct nsc nst rsc rst caps h w :
  sharing k s pid curr target pc pt lc lt LK L cc ct nsc nst rsc rst →
  let k' := regranted k target pt caps h w in
  get_current_process k' = Ret curr k' ∧ get_process_by_pid pid k' = Ret target k'.
Proof.
  intros Hsh k'. destruct (sh_target Hsh) as [Hht _]. split.
  - by apply current_run, (sh_current Hsh).
  - rewrite (by_pid_run k' s).
    + unfold k'. rewrite regranted_by_pid by apply (ch_pcb _ _ _ _ Hht).
      by rewrite (sh_pid Hsh).
    + by destruct (sh_sched Hsh).
    + intros p Hp. simpl. destruct (decide (p = target)) as [->|Hne]; [rewrite lookup_insert_eq; eauto|].
      rewrite lookup_insert_ne by done. by apply (sh_procs Hsh).
Qed.

Lemma shm_unshare_run k s pid curr target pc pt lc lt LK L cc ct nsc nst rsc rst pa size x k1 :
  sharing k s pid curr target pc pt lc lt LK L cc ct nsc nst rsc rst → may_ipc pc →
  is_u32 pa → 0 < size → pa + size <= 4294963200 →
  shared k target pt LK L ct nst rst pa size (Some x) k1 →
  ∃ k2, shm_unshare pid x k1 = Ret 0 k2 ∧ refused k target pt LK L ct nst rst k2.
Proof.
  intros Hsh Hm Hpa Hsz Hend
    (y & h & p & va & t & ns1 & ns2 & rs1 & rs2 & w & [= ->] & -> & Hy & Ho & Hnh & -> & -> & Hln & HpL & Hpl & Hfr & Hgr).
  destruct (pages_of_size pa size Hpa Hsz Hend) as (_ & _ & _ & _ & Hn & Hnn & _). unfold is_u32 in Hpa.
  pose proof (Z.div_mod pa 4096 ltac:(lia)) as Hd. pose proof (Z.mod_pos_bound pa 4096 ltac:(lia)) as Hmb.
  assert (pa / 4096 * 4096 + pages_of pa size * 4096 < 4294967296) as Hpe.
  { unfold pages_of. pose proof (Z.div_mod (size + pa mod 4096 + 4095) 4096 ltac:(lia)).
    pose proof (Z.mod_pos_bound (size + pa mod 4096 + 4095) 4096 ltac:(lia)). lia. }
  set (n := pages_of pa size) in *. pose proof Hpl as (P1 & P2 & P3 & _). unfold USER_HEAP_END in P2.
  assert (Hcu : cap_u32 CAP_MAP_MEM (share_cap pa size)).
  { simpl. fold n. unfold is_u32. split_and!; (lia || done). }
  assert (Hgrant : grantable CAP_MAP_MEM (share_cap pa size)) by (simpl; fold n; lia).
  destruct (sh_target Hsh) as [Hht Hut].
  pose proof (sh_caps Hsh) as Hal.
  pose proof (regranted_gate _ _ _ _ _ _ _ _ _ _ _ _ _ _ _ _ _ y (share_cap pa size) h w Hsh Hcu Hm) as Eg.
  destruct (regranted_entry _ _ _ _ _ _ _ _ _ _ _ _ _ _ _ _ _ ((y, mk_cap CAP_MAP_MEM (share_cap pa size)) :: p_caps pt) h w Hsh) as [Ec Ep].
  set (k1 := regranted k target pt _ h w) in *. pose proof Hgr as (Hw1 & Hs1 & _).
  unfold shm_unshare. rewrite (bind_Ret _ _ _ _ _ Ec), (bind_Ret _ _ _ _ _ Ep).
  rewrite (proj2 (Z.eqb_neq curr 0)), (proj2 (Z.eqb_neq target 0))
    by (apply Hht || apply (sh_curr Hsh)). cbn [orb].
  rewrite (bind_Ret _ _ _ _ _ Eg).
  set (r := window va n PTE_USER_PAGE (pa / 4096 * 4096) 0) in *.
  assert (Hcov : Vmm.covers (va + pa mod 4096) r = true).
  { unfold r. rewrite window_covers by lia. unfold in_run. apply andb_true_iff. rewrite Z.leb_le, Z.ltb_lt. lia. }
  pose proof (sp_tree _ _ _ _ _ _ Hs1) as Ht1.
  pose proof (lookup_region_run w _ target _ _ _ (va + pa mod 4096) Hs1) as El.
  rewrite (find_covers rs1 r rs2) in El by (apply Ht1 || done).
  rewrite (bind_Ret _ _ _ _ _ (vmzoom_run _ k1 _ _ El)). cbn [rg_pa rg_size start_va window r].
  change (negb (0 =? 0)) with false. cbv iota. change (set_k_vm w k1) with k1.
  destruct (window_whole va n PTE_USER_PAGE (pa / 4096 * 4096) 0) as [Hc1 Hc2]; [lia..|].
  destruct (vmm_unmap_memory_run (map_mem_answer k1) w _ target _ ns1 p ns2 rs1 r rs2 va (n * 4096) Hw1 Hs1 Hln Hc1 eq_refl Hc2)
    as (t2 & w2 & Eu & Hw2 & Hs2 & Hf2 & Hb2).
  { exact (new_grant_covers k target pt lt y (share_cap pa size) h w Hht Hut Hcu Hgrant). }
  rewrite (bind_Ret _ _ _ _ _ (vm_checked_run _ k1 _ _ Eu)). change (negb (0 =? 0)) with false. cbv iota.
  change (set_k_vm w2 k1) with (regranted k target pt ((y, mk_cap CAP_MAP_MEM (share_cap pa size)) :: p_caps pt) h w2).
  destruct (revoke_newest (regranted k target pt ((y, mk_cap CAP_MAP_MEM (share_cap pa size)) :: p_caps pt) h w2) target _ lt
    CAP_MAP_MEM (share_cap pa size) y (p_caps pt) ({[y]} ∪ LK) (regranted_holder _ _ _ _ _ _ _ Hht) Ho) as (h' & Er & Ho');
    [by apply caps_alloc_cons|done|done|].
  eexists. split; [exact Er|]. exists h', w2. split_and!.
  - unfold regranted. simpl. by rewrite insert_insert_eq.
  - by replace LK with (({[y]} ∪ LK) ∖ {[y]}) by set_solver.
  - by eapply grown_then_shrunk.
Qed.

(** *** The whole request *)

(** The caller's region, and what the checks of [shm_share] establish. *)
Lemma share_bounds (r : vmm_region) va size :
  region_ok r → Vmm.covers va r = true → 0 < size < 4294967296 →
  let pa := rg_pa r + (va - start_va r) in
  (Z.land pa PAGE_MASK <? rg_pa r) || (rg_size r -u (Z.land pa PAGE_MASK -u rg_pa r)
     <? Z.land (size +u (pa -u Z.land pa PAGE_MASK) +u (PAGE_SIZE - 1)) PAGE_MASK) = false →
  is_u32 pa ∧ Z.land pa PAGE_MASK = pa / 4096 * 4096 ∧ pa -u (pa / 4096 * 4096) = pa mod 4096 ∧
  (size + pa mod 4096 <= 4294963200 → va + size <= rg_end r).
Proof.
  intros Hr Hc Hsz pa Hb. destruct (ro_pa r Hr) as (A1 & A2 & A3). destruct (ro_size r Hr) as [S1 S2].
  apply orb_false_iff in Hb as [_ Hb]. apply Z.ltb_ge in Hb. destruct (region_bounds r Hr) as (B1 & _).
  pose proof (ro_end r Hr) as He. unfold Vmm.covers in Hc. rewrite region_end_u32 in Hc by done. zprop.
  unfold rg_end in *. assert (is_u32 pa) as Hpa by (unfold is_u32, pa; lia).
  rewrite (land_page_mask pa) in Hb |- * by done. pose proof Hpa as Hpa'. unfold is_u32 in Hpa'.
  pose proof (Z.div_mod pa 4096 ltac:(lia)) as Hd. pose proof (Z.mod_pos_bound pa 4096 ltac:(lia)) as Hm.
  assert (pa < rg_pa r + rg_size r) as Hlt by (unfold pa; lia).
  assert (rg_pa r <= pa / 4096 * 4096) as Hge.
  { pose proof (Z.div_mod (rg_pa r) 4096 ltac:(lia)). unfold pa in *. lia. }
  assert (pa -u pa / 4096 * 4096 = pa mod 4096) as Eo by (rewrite u32_small by (unfold is_u32; lia); lia).
  split_and!; [done|done|done|]. intros Hle.
  rewrite Eo in Hb. unfold PAGE_SIZE in Hb.
  rewrite (u32_small (size + _)) in Hb by (unfold is_u32; lia). rewrite (u32_small (size + _ + _)) in Hb by (unfold is_u32; lia).
  rewrite land_page_mask in Hb by (unfold is_u32; lia).
  rewrite (u32_small (_ - rg_pa r)) in Hb by (unfold is_u32; lia). rewrite (u32_small (rg_size r - _)) in Hb by (unfold is_u32; lia).
  pose proof (Z.div_mod (size + pa mod 4096 + (4096 - 1)) 4096 ltac:(lia)).
  pose proof (Z.mod_pos_bound (size + pa mod 4096 + (4096 - 1)) 4096 ltac:(lia)). unfold pa in *. lia.
Qed.

(** Every byte of the request lies in the caller's region. *)
Lemma region_bytes k s pid curr target pc pt lc lt LK L cc ct nsc nst rsc rst r va i :
  sharing k s pid curr target pc pt lc lt LK L cc ct nsc nst rsc rst →
  List.find (Vmm.covers va) rsc = Some r → 0 <= i → va + i < rg_end r →
  look (v_pg (k_vm k)) (v_cr3 cc) (va + i) = Some (rg_pa r + (va - start_va r) + i, flag 1 (rg_flags r)).
Proof.
  intros Hsh [Hin Hc]%List.find_some Hi He. pose proof (sh_from Hsh) as Hs. pose proof (sp_tree _ _ _ _ _ _ Hs) as Ht.
  apply list_elem_of_In, list_elem_of_split in Hin as (rs1 & rs2 & ->).
  assert (Hr : region_ok r) by (pose proof (tr_ok _ _ _ _ _ Ht) as [_ H]%Forall_app; by inversion H).
  pose proof (ro_end r Hr). pose proof (ro_user r Hr). unfold USER_HEAP_END in *.
  unfold Vmm.covers in Hc. rewrite region_end_u32 in Hc by done. zprop.
  rewrite (sp_look _ _ _ _ _ _ Hs) by (unfold USER_HEAP_END; lia). unfold look_regions.
  rewrite (find_covers rs1 r rs2); [f_equal; f_equal; lia|apply Ht|apply Ht|].
  unfold Vmm.covers. rewrite region_end_u32 by done. rewrite andb_true_iff, Z.leb_le, Z.ltb_lt. lia.
Qed.

(** Nothing has happened yet. *)
Local Ltac share_refused := eexists _, None, _; split; [reflexivity|]; split; [done|by left].

Lemma shm_share_run k s pid curr target pc pt lc lt LK L cc ct nsc nst rsc rst va size :
  sharing k s pid curr target pc pt lc lt LK L cc ct nsc nst rsc rst → owns (k_heap k) LK →
  USER_HEAP_END <= va < 4294967296 → 0 < size < 4294967296 →
  ∃ r o k1, shm_share pid va size k = Ret (r, o) k1 ∧ (¬ may_ipc pc → r = E_PERM) ∧
    (r ≠ 0 ∧ o = None ∧ refused k target pt LK L ct nst rst k1 ∨
     r = 0 ∧ may_ipc pc ∧ ∃ pa, is_u32 pa ∧ pa + size <= 4294963200 ∧
       shared k target pt LK L ct nst rst pa size o k1 ∧
       ∀ i, 0 <= i < size → ∃ b, look (v_pg (k_vm k)) (v_cr3 cc) (va + i) = Some (pa + i, b)).
Proof.
  intros Hsh Ho Hva Hsz. destruct (sh_curr Hsh) as [Hhc Huc]. destruct (sh_target Hsh) as [Hht Hut].
  pose proof (sh_caps Hsh) as Hal. pose proof (sh_world Hsh) as Hw. destruct (sh_to Hsh) as [Hst Hne].
  assert (Hrefl : refused k target pt LK L ct nst rst k) by (apply refused_refl; (done || apply Hht)).
  destruct (regranted_entry _ _ _ _ _ _ _ _ _ _ _ _ _ _ _ _ _ (p_caps pt) (k_heap k) (k_vm k) Hsh) as [Ec Ep].
  rewrite regranted_id in Ec, Ep by apply Hht.
  destruct (ipc_denied_run k curr pc lc Hhc Huc) as (b & Eb & Hb).
  unfold shm_share. rewrite (bind_Ret _ _ _ _ _ Ec), (bind_Ret _ _ _ _ _ Ep).
  rewrite (proj2 (Z.eqb_neq curr 0)), (proj2 (Z.eqb_neq target 0)), (proj2 (Z.eqb_neq size 0)) by (apply Hhc || apply Hht || lia).
  cbn [orb]. rewrite (bind_Ret _ _ _ _ _ Eb). destruct b.
  { share_refused. }
  assert (Hm : may_ipc pc) by (by apply Hb).
  pose proof (va_to_pa_run (k_vm k) L curr cc nsc rsc va (sh_from Hsh) Hva) as Ev.
  unfold vmm_va_to_pa. rewrite (proj2 (Z.eqb_neq curr 0)) by apply Hhc.
  rewrite (bind_Ret _ _ _ _ _ (vmzoom_run _ k _ _ Ev)). replace (set_k_vm (k_vm k) k) with k by (by destruct k).
  pose proof (lookup_region_run (k_vm k) L curr cc nsc rsc va (sh_from Hsh)) as El.
  unfold look_regions. destruct (List.find (Vmm.covers va) rsc) as [r|] eqn:Ef; [|share_refused].
  set (pa := rg_pa r + (va - start_va r)). destruct (Z.eqb_spec pa 0) as [|Hpa0]; [share_refused|].
  cbv zeta. rewrite (bind_Ret _ _ _ _ _ (vmzoom_run _ k _ _ El)). replace (set_k_vm (k_vm k) k) with k by (by destruct k).
  change (negb (0 =? 0)) with false. cbv iota.
  match goal with |- context [if ?c then mret (E_INVAL, None) else _] => destruct c eqn:Ebd end; [share_refused|].
  pose proof Ef as [Hin Hc]%List.find_some.
  assert (Hr : region_ok r).
  { pose proof (tr_ok _ _ _ _ _ (sp_tree _ _ _ _ _ _ (sh_from Hsh))) as H. rewrite Forall_forall in H. by apply H, list_elem_of_In. }
  destruct (share_bounds r va size Hr Hc Hsz Ebd) as (Hpa & E1 & E2 & Hin2). fold pa in Hpa, E1, E2, Hin2 |- *. rewrite E1, E2.
  destruct (share_tail_run k target pt lt LK L ct nst rst pa size Hht Hut Ho Hal Hw Hst Hne Hpa Hsz) as (e & o & k1 & Et & Hres).
  exists e, o, k1. split; [exact Et|]. split; [done|].
  destruct Hres as [(He & -> & Hrf)|(-> & Hle & Hshd)]; [by left|right]. split_and!; [done|done|]. exists pa.
  assert (size + pa mod 4096 <= 4294963200) as Hle2.
  { unfold is_u32 in Hpa. pose proof (Z.div_mod pa 4096 ltac:(lia)). pose proof (Z.div_pos pa 4096). lia. }
  specialize (Hin2 Hle2). split_and!; [done|done|done|].
  intros i Hi. eexists. eapply region_bytes; [exact Hsh|exact Ef|lia|lia].
Qed.

(** The window shows the target the frames of the shared memory, byte by byte. *)
Lemma shared_bytes k target pt LK L ct nst rst pa size x k1 :
  is_u32 pa → 0 < size < 4294967296 → shared k target pt LK L ct nst rst pa size (Some x) k1 →
  ∀ i, 0 <= i < size → look (v_pg (k_vm k1)) (v_cr3 ct) (x + i) = Some (pa + i, true).
Proof.
  intros Hpa Hsz (y & h & p & va & t & ns1 & ns2 & rs1 & rs2 & w & [= ->] & -> & _ & _ & _ & _ & _ & _ & _ & (P1 & P2 & P3 & _) & _ & Hgr) i Hi.
  unfold is_u32 in Hpa. cbn [k_vm regranted set_pcbs set_k_heap set_k_vm].
  pose proof (Z.div_mod pa 4096 ltac:(lia)) as Hd. pose proof (Z.mod_pos_bound pa 4096 ltac:(lia)) as Hmb.
  unfold pages_of in *. pose proof (Z.div_mod (size + pa mod 4096 + 4095) 4096 ltac:(lia)).
  pose proof (Z.mod_pos_bound (size + pa mod 4096 + 4095) 4096 ltac:(lia)).
  change (k_vm _) with w. rewrite (grown_look _ _ _ _ _ _ _ _ _ _ _ _ _ _ _ _ _ Hgr) by (done || lia). f_equal. f_equal. lia.
Qed.

(** C32: [shm_share] of memory of the running process always returns.  When it
    succeeds, byte [i] of the window at the address it reports is, in the
    target, the very frame byte behind [va + i] in the caller, for every byte
    of the request, and the target has one new grant, for whole pages inside
    one region of the caller; [shm_unshare] of that address then takes grant
    and window away again.  When it fails - no IPC right, memory that is not
    mapped, a range that leaves the region or wraps, a second share of the
    same pages, no heap or page-table memory - the target's grants, the heap
    and every address space are as before. *)
Theorem shm_share_and_unshare k s pid curr target pc pt lc lt LK L cc ct nsc nst rsc rst va size :
  sharing k s pid curr target pc pt lc lt LK L cc ct nsc nst rsc rst → owns (k_heap k) LK →
  USER_HEAP_END <= va < 4294967296 → 0 < size < 4294967296 →
  ∃ r o k1, shm_share pid va size k = Ret (r, o) k1 ∧
    (r ≠ 0 → o = None ∧ refused k target pt LK L ct nst rst k1) ∧
    (¬ may_ipc pc → r = E_PERM) ∧
    (r = 0 → ∃ x y cm h w, o = Some x ∧ may_ipc pc ∧
       k1 = regranted k target pt ((y, mk_cap CAP_MAP_MEM cm) :: p_caps pt) h w ∧ ¬ held CAP_MAP_MEM cm (p_caps pt) ∧
       (∀ i, 0 <= i < size → ∃ f b, look (v_pg (k_vm k)) (v_cr3 cc) (va + i) = Some (f, b) ∧
          look (v_pg w) (v_cr3 ct) (x + i) = Some (f, true)) ∧
       ∃ k2, shm_unshare pid x k1 = Ret 0 k2 ∧ refused k target pt LK L ct nst rst k2).
Proof.
  intros Hsh Ho Hva Hsz.
  destruct (shm_share_run _ _ _ _ _ _ _ _ _ _ _ _ _ _ _ _ _ va size Hsh Ho Hva Hsz) as (r & o & k1 & E & Hp & Hres).
  exists r, o, k1. split; [exact E|].
  destruct Hres as [(Hr & -> & Hrf)|(-> & Hm & pa & Hpa & Hend & Hshd & Hbytes)]; [by split_and!|].
  split_and!; [done|done|intros _].
  pose proof Hshd as (y & h & p & va' & t & ns1 & ns2 & rs1 & rs2 & w & -> & Ek & _ & _ & Hnh & _ & _ & _ & _ & Hpl & _ & Hgr).
  exists (va' + pa mod 4096), y, (share_cap pa size), h, w. split_and!; [done|done|done|done| |].
  - intros i Hi. destruct (Hbytes i Hi) as (b & Eb). exists (pa + i), b. split; [done|].
    pose proof (shared_bytes _ _ _ _ _ _ _ _ _ _ _ _ Hpa Hsz Hshd i Hi) as Hlook. by rewrite Ek in Hlook.
  - destruct (shm_unshare_run _ _ _ _ _ _ _ _ _ _ _ _ _ _ _ _ _ pa size (va' + pa mod 4096) k1 Hsh Hm Hpa ltac:(lia) Hend Hshd)
      as (k2 & E2 & Hrf). by exists k2.
Qed.
End theorems.
Arguments sh_sched {LY A U V _ k s pid curr target pc pt lc lt LK L cc ct nsc nst rsc rst}.
Arguments sh_procs {LY A U V _ k s pid curr target pc pt lc lt LK L cc ct nsc nst rsc rst}.
Arguments sh_current {LY A U V _ k s pid curr target pc pt lc lt LK L cc ct nsc nst rsc rst}.
Arguments sh_pid {LY A U V _ k s pid curr target pc pt lc lt LK L cc ct nsc nst rsc rst}.
Arguments sh_curr {LY A U V _ k s pid curr target pc pt lc lt LK L cc ct nsc nst rsc rst}.
Arguments sh_target {LY A U V _ k s pid curr target pc pt lc lt LK L cc ct nsc nst rsc rst}.
Arguments sh_caps {LY A U V _ k s pid curr target pc pt lc lt LK L cc ct nsc nst rsc rst}.
Arguments sh_world {LY A U V _ k s pid curr target pc pt lc lt LK L cc ct nsc nst rsc rst}.
Arguments sh_from {LY A U V _ k s pid curr target pc pt lc lt LK L cc ct nsc nst rsc rst}.
Arguments sh_to {LY A U V _ k s pid curr target pc pt lc lt LK L cc ct nsc nst rsc rst}.

(** ** Witness: a process shares the first of its pages with itself *)

Definition ipc_pcb : pcb :=
  mk_pcb 7 PS_READY PROC_PRIV_USER [10] 0 (Some 1%nat) [(700, mk_cap CAP_IPC 1)] (Some 2%nat).

Definition shm_demo (w : vm (gset Z)) : kernel (gset Z) (gset Z) (vm (gset Z)) :=
  set_schedule_lock (Some 0%nat) (set_thread_head [10] (set_proc_head [64]
    (set_thread_run 10 (set_tcbs {[ 10 := demo_tcb 1 64 3 TS_READY ]}
      (set_pcbs {[ 64 := ipc_pcb ]} (boot_kernel (mk_cpu 512 false, replicate 4 LOCK_UNLOCKED) {[ 700 ]} {[ 700 ]} w)))))).

Lemma shm_demo_sched w : sched_ok (shm_demo w) 0.
Proof.
  split; try reflexivity.
  - intros t c. cbn. intros [<- <-]%lookup_singleton_Some. discriminate.
  - intros t. cbn. intros ->%list_elem_of_singleton. split; [discriminate|].
    exists (demo_tcb 1 64 3 TS_READY), 3%nat. split_and!; reflexivity.
  - apply NoDup_singleton.
  - left.
  - intros t t' c c'. cbn. intros ->%list_elem_of_singleton ->%list_elem_of_singleton _ _ _. reflexivity.
Qed.

Lemma shm_demo_caps : caps_u32 (p_caps ipc_pcb).
Proof.
  intros ty v. rewrite held_snd. cbn [map snd p_caps ipc_pcb]. intros Hv%list_elem_of_singleton.
  by apply (mk_cap_transport _ _ _ _ cap_u32 Hv).
Qed.

Lemma shm_demo_sharing w L c ns rs :
  world w L → space w L 64 c ns rs → rs ≠ [] →
  sharing (shm_demo w) 0 7 64 64 ipc_pcb ipc_pcb 2 2 {[ 700 ]} L c c ns ns rs rs.
Proof.
  intros Hw Hs Hne. constructor; try done.
  - apply shm_demo_sched.
  - intros p. cbn. intros ->%list_elem_of_singleton. eexists. reflexivity.
  - split; [done|]. by exists (demo_tcb 1 64 3 TS_READY).
  - split; [by split|apply shm_demo_caps].
  - split; [by split|apply shm_demo_caps].
  - split; [apply NoDup_singleton|]. cbn. set_solver.
Qed.

Lemma shm_demo_heap w : owns (k_heap (shm_demo w)) {[ 700 ]}.
Proof. change (owns ({[ 700 ]} : gset Z) {[ 700 ]}). split; [reflexivity|set_solver by lia]. Qed.

(** The memory is what [Vmm.vmm_alloc_pages] just gave the process. *)
Lemma shm_share_and_unshare_witness :
  ∃ va w, Vmm.vmm_alloc_pages 64 2 PTE_USER_PAGE demo_vm = Ret va w ∧
    (va ≠ 0 → ∃ r o k1, shm_share 7 (va + 100) 200 (shm_demo w) = Ret (r, o) k1).
Proof.
  destruct (vmm_alloc_pages_run demo_vm {[ 4096; 8192 ]} 64 demo_vcb [] [] 2 PTE_USER_PAGE demo_world demo_space
    ltac:(lia) eq_refl ltac:(lia)) as (va & w & E & H). exists va, w. split; [exact E|]. intros Hva.
  destruct H as [(Hz & _)|(p & b & t & ns1 & ns2 & rs1 & rs2 & _ & _ & Er & _ & _ & (P1 & P2 & P3 & _) & Hw & Hs & _)];
    [by destruct (Hva Hz)|].
  unfold USER_HEAP_END in P2.
  destruct (shm_share_and_unshare (shm_demo w) 0 7 64 64 ipc_pcb ipc_pcb 2 2 {[ 700 ]} _ _ _ _ _ _ _ (va + 100) 200
    (shm_demo_sharing w _ _ _ _ Hw Hs (λ H, app_cons_not_nil _ _ _ (eq_sym H)))) as (r & o & k1 & Es & _).
  - exact (shm_demo_heap w).
  - unfold USER_HEAP_END. lia.
  - lia.
  - exists r, o, k1. exact Es.
Defined.

(** Two processes: 64 shares 200 bytes of its pages with 128, which has a page
    of its own; the same frame is behind both addresses, a second share of the
    page is refused, and after [shm_unshare] it works again. *)
Definition two_spaces : M (vm (gset Z)) (Z * Z) :=
  modify (λ w, set_vcbs (<[128 := mk_vcb 0 (mk_rbtree 0 0 ∅) 0 None]> (vcbs w))
                 (set_v_locks (v_locks w ++ [LOCK_INVALID]) w));;
  r ← Vmm.vmm_create 128 1;
  a ← Vmm.vmm_alloc_pages 64 2 PTE_USER_PAGE;
  _ ← Vmm.vmm_alloc_pages 128 1 PTE_USER_PAGE;
  mret (r, a).

Definition shm_pair (w : vm (gset Z)) : kernel (gset Z) (gset Z) (vm (gset Z)) :=
  let k := shm_demo w in
  set_proc_head [128; 64] (set_pcbs (<[128 := mk_pcb 8 PS_READY PROC_PRIV_USER [] 0 (Some 1%nat) [] (Some 2%nat)]> (pcbs k)) k).

Definition shm_pair_run : option (Z * Z * Z * Z * bool) :=
  match two_spaces demo_vm with
  | Ret (_, a) w =>
      match (r ← shm_share 8 (a + 100) 200; s ← shm_share 8 (a + 100) 200; k ← get;
             u ← shm_unshare 8 (default 0 r.2);
             r2 ← shm_share 8 (a + 100) 200;
             mret (r.1, s.1, u, r2.1, bool_decide
               (look (v_pg (k_vm k)) (match vcbs (k_vm k) !! 128 with Some c => v_cr3 c | None => 0 end) (default 0 r.2 + 5)
                = look (v_pg (k_vm k)) 1056768 (a + 105)))) (shm_pair w) with
      | Ret x _ => Some x
      | _ => None
      end
  | _ => None
  end.

Example shm_pair_shares : shm_pair_run = Some (0, E_EXISTS, 0, 0, true).
Proof. vm_compute. reflexivity. Qed.
