(* ===== verification/WaitQueue.v ===== *)
(** * Wait queues (kernel/sync/wait_queue.c)

    A sleeper is put at the head of the queue under the queue's lock and
    parked; a waker takes the first sleeper off and unblocks it.  The loops
    over the waiters run on the sequence of the waiting threads, and an empty
    queue is the empty sequence, so the early return of the code is the first
    case of each scan. *)

From stdpp Require Import base tactics list gmap.
From Stdlib Require Import ZArith Lia.
From S2P Require Import Prelude Spinlock KState Sched ThreadApi.

Open Scope Z_scope.

Definition wq_set_waiters (l : list Z) (q : wait_queue) : wait_queue := mk_wq l (wq_lock q).
Definition wq_set_lock (l : option nat) (q : wait_queue) : wait_queue := mk_wq (wq_waiters q) l.

Section wait_queue.
Context {A U W : Type} `{!AddressSpace W}.
Notation kernel := (kernel A U W).
Context `{!Gate kernel proc_thread_ctrl_config}.
Implicit Types k : kernel.

(** The structure is embedded in its owner, so it exists before it is
    initialised; its contents are then what the memory held. *)
Definition wait_queue_init (wq : Z) : M kernel Z :=
  l ← zoom spinlock_alloc;
  modify (λ k, set_wqs (<[wq := wq_set_lock l (default (mk_wq [] None) (wqs k !! wq))]> (wqs k)) k);;
  match l with
  | None => mret E_LIMIT
  | Some _ => upd_wq wq (wq_set_waiters []);; mret 0
  end.

Definition wait_queue_destroy (wq : Z) : M kernel unit :=
  q ← get_wq wq;
  zoom (spinlock_release (wq_lock q));;
  upd_wq wq (wq_set_lock None).

Definition wait_queue_sleep_locked (wq : Z) : M kernel unit :=
  tid ← thread_get_tid;
  curr ← thread_get_by_tid tid;
  if curr =? 0 then mret tt else
  c ← get_tcb curr;
  if negb (t_waiting_on c =? 0) then mret tt else
  upd_tcb curr (tcb_waiting wq);;
  upd_wq wq (λ q, wq_set_waiters (curr :: wq_waiters q) q);;
  q ← get_wq wq;
  zoom (spinlock_unlock (wq_lock q));;
  thread_block (t_tid c);;
  zoom (spinlock_lock (wq_lock q));;
  mret tt.

(** The first waiter that still waits on [wq] and is selected. *)
Fixpoint wake_scan (wq : Z) (sel : tcb → bool) (ts : list Z) : M kernel Z :=
  match ts with
  | [] => mret 0
  | t :: ts =>
      c ← get_tcb t;
      if (t_waiting_on c =? wq) && sel c then mret t else wake_scan wq sel ts
  end.

(** "t->waiting_on = 0; list_del(node)" for the selected waiter. *)
Definition detach_first (wq : Z) (sel : tcb → bool) : M kernel Z :=
  q ← get_wq wq;
  t ← wake_scan wq sel (wq_waiters q);
  if t =? 0 then mret 0 else
  upd_tcb t (tcb_waiting 0);;
  upd_wq wq (λ q, wq_set_waiters (remove t (wq_waiters q)) q);;
  mret t.

Definition wake_selected (wq : Z) (sel : tcb → bool) : M kernel unit :=
  q ← get_wq wq;
  t ← irq_section (wq_lock q) (detach_first wq sel);
  if t =? 0 then mret tt else
  c ← get_tcb t;
  thread_unblock (t_tid c).

Definition wait_queue_wake_one (wq : Z) : M kernel unit := wake_selected wq (λ _, true).

Definition wait_queue_wake_by_tid (wq tid : Z) : M kernel unit :=
  wake_selected wq (λ c, u32 (t_tid c) =? tid).

Definition wait_queue_wake_one_locked (wq : Z) : M kernel unit :=
  q ← get_wq wq;
  t ← (zoom (spinlock_lock (wq_lock q));;
       t ← detach_first wq (λ _, true);
       zoom (spinlock_unlock (wq_lock q));;
       mret t);
  if t =? 0 then mret tt else
  c ← get_tcb t;
  thread_unblock_locked (t_tid c).

Fixpoint wake_loop (wq : Z) (ts : list Z) : M kernel unit :=
  match ts with
  | [] => mret tt
  | t :: ts =>
      c ← get_tcb t;
      (if negb (t_waiting_on c =? wq) then mret tt else
       upd_tcb t (tcb_waiting 0);;
       upd_wq wq (λ q, wq_set_waiters (remove t (wq_waiters q)) q);;
       thread_unblock (t_tid c));;
      wake_loop wq ts
  end.

Definition wait_queue_wake_all (wq : Z) : M kernel unit :=
  q ← get_wq wq;
  irq_section (wq_lock q) (q ← get_wq wq; wake_loop wq (wq_waiters q)).

(** ** What the operations do *)

Definition on_wq (wq : Z) (f : wait_queue → wait_queue) k : kernel :=
  set_wqs (alter f wq (wqs k)) k.
Definition enqueue (t wq : Z) k : kernel :=
  on_wq wq (λ q, wq_set_waiters (t :: wq_waiters q) q) (upd t (tcb_waiting wq) k).
Definition dequeue (t wq : Z) k : kernel :=
  on_wq wq (λ q, wq_set_waiters (remove t (wq_waiters q)) q) (upd t (tcb_waiting 0) k).

(** A queue nobody holds the lock of, and whose members all wait on it. *)
Record queue_ok k (s : nat) (wq : Z) (q : wait_queue) (l : nat) : Prop := {
  qo_wq : wqs k !! wq = Some q;
  qo_nonzero : wq ≠ 0;
  qo_lock : wq_lock q = Some l;
  qo_unlocked : (k_mach k).2 !! l = Some LOCK_UNLOCKED;
  qo_sched : l ≠ s;
  qo_distinct : ∀ t c, tcbs k !! t = Some c → t_sp_lock c ≠ Some l;
  qo_nodup : NoDup (wq_waiters q);
  qo_waiters : ∀ t, t ∈ wq_waiters q →
    t ∈ thread_head k ∧ ∃ c, tcbs k !! t = Some c ∧ t_waiting_on c = wq;
}.

Lemma upd_wq_run wq f k q : wqs k !! wq = Some q → upd_wq wq f k = Ret tt (on_wq wq f k).
Proof.
  intros H. unfold upd_wq. rewrite (bind_Ret _ _ _ q k) by (by apply deref_Some).
  unfold modify, on_wq. do 2 f_equal. apply map_eq. intros i.
  destruct (decide (i = wq)) as [->|]; [by rewrite lookup_alter_eq, lookup_insert_eq, H|].
  by rewrite lookup_alter_ne, lookup_insert_ne.
Qed.

Lemma keeps_waiting wq : keeps_identity (tcb_waiting wq).
Proof. done. Qed.

Lemma sched_ok_enqueue k s t wq : sched_ok k s → sched_ok (enqueue t wq k) s.
Proof. intros Hok. destruct (sched_ok_upd _ _ t _ (keeps_waiting wq) Hok). by split. Qed.
Lemma sched_ok_dequeue k s t wq : sched_ok k s → sched_ok (dequeue t wq k) s.
Proof. intros Hok. destruct (sched_ok_upd _ _ t _ (keeps_waiting 0) Hok). by split. Qed.

(** Holding a lock that is none of the scheduler's. *)
Lemma sched_ok_hold k s l :
  sched_ok k s → l ≠ s → (∀ t c, tcbs k !! t = Some c → t_sp_lock c ≠ Some l) →
  sched_ok (hold_irq l k) s.
Proof.
  intros Hok Hl Hd. destruct Hok as [H1 H2 H3 H4 H5 H6 H7]. split; try done.
  - simpl. by rewrite list_lookup_insert_ne.
  - intros t Ht. destruct (H4 t Ht) as [Hnz (c & j & Hc & Hj & Hu)]. split; [done|].
    exists c, j. split_and!; [done..|]. simpl. rewrite list_lookup_insert_ne; [done|].
    intros ->. by apply (Hd t c).
Qed.

Lemma sched_ok_cpu k s c : sched_ok k s → sched_ok (set_k_mach (c, (k_mach k).2) k) s.
Proof. intros []. by split. Qed.

Lemma in_gate_hold k l : in_gate k → in_gate (hold_irq l k).
Proof. intros [Hr Hn]. split; [|done]. simpl. unfold arch_irq_save. by rewrite Hr. Qed.

Lemma by_tid_of k s t c :
  sched_ok k s → t ∈ thread_head k → tcbs k !! t = Some c → by_tid k (t_tid c) = Some t.
Proof.
  intros Hok Ht Hc. destruct (by_tid k (t_tid c)) as [u|] eqn:Eu.
  - destruct (by_tid_Some _ _ _ _ Hok Eu) as (Hu & _ & d & Hd & E). f_equal.
    by apply (so_tids _ _ Hok u t d c).
  - exfalso. unfold by_tid in Eu. rewrite find_None_Forall, Forall_forall in Eu.
    specialize (Eu t Ht). simpl in Eu. by rewrite Hc, Z.eqb_refl in Eu.
Qed.

Lemma thread_get_tid_run k s c :
  sched_ok k s → tcbs k !! thread_run k = Some c → thread_get_tid k = Ret (t_tid c) k.
Proof.
  intros Hok Hc. unfold thread_get_tid. rewrite (bind_Ret _ _ _ (thread_run k) k) by done.
  rewrite (proj2 (Z.eqb_neq _ _) (run_nonzero _ _ Hok)).
  by rewrite (bind_Ret _ _ _ c k) by (by apply deref_Some).
Qed.

(** *** Waking *)

Lemma detach_first_run k s wq q :
  sched_ok k s → wqs k !! wq = Some q →
  (∀ t, t ∈ wq_waiters q → t ∈ thread_head k ∧ ∃ c, tcbs k !! t = Some c ∧ t_waiting_on c = wq) →
  detach_first wq (λ _, true) k
  = match wq_waiters q with [] => Ret 0 k | t :: _ => Ret t (dequeue t wq k) end.
Proof.
  intros Hok Hq Hw. unfold detach_first. rewrite (bind_Ret _ _ _ q k) by (by apply deref_Some).
  destruct (wq_waiters q) as [|t ts] eqn:E; [done|].
  destruct (Hw t) as (Hin & c & Hc & Hwq); [left|]. cbn [wake_scan].
  rewrite (bind_Ret _ _ _ t k) by
    (rewrite (bind_Ret _ _ _ c k), Hwq, Z.eqb_refl by (by apply deref_Some); done).
  rewrite (proj2 (Z.eqb_neq _ _)) by (by destruct (so_threads _ _ Hok t Hin)).
  rewrite (bind_Ret _ _ _ _ _ (upd_tcb_run t _ k c Hc)).
  by rewrite (bind_Ret _ _ _ _ _ (upd_wq_run wq _ (upd t (tcb_waiting 0) k) q Hq)).
Qed.

Definition woken_one (wq : Z) (q : wait_queue) k : kernel :=
  match wq_waiters q with [] => k | t :: _ => upd t woken (dequeue t wq k) end.

Lemma unblocked_dequeue k s t wq c :
  sched_ok k s → t ∈ thread_head k → tcbs k !! t = Some c →
  unblocked (t_tid c) (dequeue t wq k) = upd t woken (dequeue t wq k).
Proof.
  intros Hok Ht Hc. unfold unblocked.
  pose proof (by_tid_of _ s t (tcb_waiting 0 c) (sched_ok_dequeue _ _ t wq Hok)) as E.
  cbn [tcb_waiting t_tid] in E. rewrite E; [done|done|].
  unfold dequeue. change (tcbs (on_wq ?a ?b ?c)) with (tcbs c).
  by rewrite upd_lookup, decide_True, Hc.
Qed.

Lemma wake_one_run k s wq q l :
  in_gate k → sched_ok k s → queue_ok k s wq q l →
  wait_queue_wake_one wq k = Ret tt (woken_one wq q k).
Proof.
  intros Hg Hok [Hq Hnz Hl Hu Hs Hd Hnd Hw]. unfold wait_queue_wake_one, wake_selected, woken_one.
  rewrite (bind_Ret _ _ _ q k), Hl by (by apply deref_Some).
  pose proof (detach_first_run (hold_irq l k) s wq q) as Hdet.
  specialize (Hdet ltac:(by apply sched_ok_hold) Hq Hw).
  destruct (wq_waiters q) as [|t ts] eqn:E.
  - erewrite bind_Ret; [|by eapply (irq_section_run l k); [|exact Hdet|]]. by rewrite hold_irq_id.
  - destruct (Hw t) as (Hin & c & Hc & _); [left|].
    erewrite bind_Ret; [|by eapply (irq_section_run l k); [|exact Hdet|]].
    rewrite (proj2 (Z.eqb_neq _ _)) by (by destruct (so_threads _ _ Hok t Hin)).
    replace (set_k_mach (k_mach k) (dequeue t wq (hold_irq l k))) with (dequeue t wq k)
      by (by destruct k).
    rewrite (bind_Ret _ _ _ (tcb_waiting 0 c) (dequeue t wq k)).
    2: { apply deref_Some. change (tcbs (dequeue t wq k)) with (tcbs (upd t (tcb_waiting 0) k)).
         by rewrite upd_lookup, decide_True, Hc. }
    rewrite (thread_unblock_gate _ s) by (done || by apply sched_ok_dequeue).
    by rewrite <- (unblocked_dequeue k s t wq c).
Qed.

(** *** Sleeping *)

Lemma blocked_mach k tid m : blocked tid (set_k_mach m k) = set_k_mach m (blocked tid k).
Proof.
  unfold blocked. change (by_tid (set_k_mach m k) tid) with (by_tid k tid).
  destruct (by_tid k tid) as [t|]; [|done]. change (tcbs (set_k_mach m k)) with (tcbs k).
  destruct (default _ _); [done|]. change (thread_run (set_k_mach m k)) with (thread_run k).
  destruct (t =? thread_run k); [|done].
  change (upd t (tcb_state TS_PENDING) (set_k_mach m k))
    with (set_k_mach m (upd t (tcb_state TS_PENDING) k)).
  generalize (upd t (tcb_state TS_PENDING) k). intros k0. unfold rescheduled.
  change (next_ready (set_k_mach m k0) (thread_run (set_k_mach m k0)))
    with (next_ready k0 (thread_run k0)).
  by destruct (next_ready k0 _).
Qed.

Lemma sleep_locked_run k s wq q l c :
  in_gate k → sched_ok k s → queue_ok k s wq q l → tcbs k !! thread_run k = Some c →
  wait_queue_sleep_locked wq (hold_irq l k)
  = Ret tt (if t_waiting_on c =? 0
            then set_k_mach (irq_locked l (k_mach k))
                   (blocked (t_tid c) (enqueue (thread_run k) wq k))
            else hold_irq l k).
Proof.
  intros Hg Hok [Hq Hnz Hl Hu Hs Hd Hnd Hw] Hc. unfold wait_queue_sleep_locked.
  pose proof (sched_ok_hold _ _ _ Hok Hs Hd) as Hok1.
  rewrite (bind_Ret _ _ _ _ _ (thread_get_tid_run (hold_irq l k) s c Hok1 Hc)).
  rewrite (bind_Ret _ _ _ _ _ (thread_get_by_tid_run (hold_irq l k) s (t_tid c) Hok1)).
  rewrite (by_tid_of (hold_irq l k) s (thread_run k) c Hok1 (so_run _ _ Hok) Hc).
  cbn [default from_option id]. rewrite (proj2 (Z.eqb_neq _ _) (run_nonzero _ _ Hok)).
  rewrite (bind_Ret _ _ _ c (hold_irq l k)) by (by apply deref_Some).
  destruct (t_waiting_on c =? 0); cbn [negb]; [|done].
  rewrite (bind_Ret _ _ _ _ _ (upd_tcb_run (thread_run k) _ (hold_irq l k) c Hc)).
  rewrite (bind_Ret _ _ _ _ _ (upd_wq_run wq _ (upd (thread_run k) (tcb_waiting wq) (hold_irq l k)) q Hq)).
  set (q' := wq_set_waiters (thread_run k :: wq_waiters q) q).
  set (off := ((arch_irq_save (k_mach k).1).2, (k_mach k).2)).
  change (on_wq wq _ _) with (enqueue (thread_run k) wq (hold_irq l k)).
  rewrite (bind_Ret _ _ _ q' (enqueue (thread_run k) wq (hold_irq l k))).
  2: { apply deref_Some. simpl. by rewrite lookup_alter_eq, Hq. }
  change (wq_lock q') with (wq_lock q). rewrite Hl.
  rewrite (bind_Ret _ _ _ 0 (set_k_mach off (enqueue (thread_run k) wq k))).
  2: { erewrite zoom_Ret; [|apply spinlock_unlock_eq; simpl; rewrite length_insert; by eapply lookup_lt_Some].
       simpl. rewrite list_insert_insert_eq, list_insert_id by done. done. }
  pose proof (sched_ok_cpu _ _ (arch_irq_save (k_mach k).1).2 (sched_ok_enqueue k s (thread_run k) wq Hok))
    as Hok2.
  rewrite (bind_Ret _ _ _ _ _ (thread_block_gate (set_k_mach off (enqueue (thread_run k) wq k)) s (t_tid c)
    (in_gate_hold k l Hg) Hok2)).
  rewrite blocked_mach.
  rewrite (bind_Ret _ _ _ 0 (set_k_mach (irq_locked l (k_mach k)) (blocked (t_tid c) (enqueue (thread_run k) wq k)))).
  2: { erewrite zoom_Ret; [|by apply (spinlock_lock_free _ l LOCK_UNLOCKED)]. done. }
  done.
Qed.

(** ** What a switch of threads leaves alone *)

Record same_waits k k' : Prop := {
  sw_head : thread_head k' = thread_head k;
  sw_mach : k_mach k' = k_mach k;
  sw_wqs : wqs k' = wqs k;
  sw_sems : sems k' = sems k;
  sw_semhead : semaphore_head k' = semaphore_head k;
  sw_semlock : semaphore_lock k' = semaphore_lock k;
  sw_mailboxes : mailboxes k' = mailboxes k;
  sw_metas : mailmetas k' = mailmetas k;
  sw_inflight : inflight_mails k' = inflight_mails k;
  sw_reenter : irq_reenter_cnt k' = irq_reenter_cnt k;
  sw_tcbs : ∀ t, (λ c, (t_sp_lock c, t_waiting_on c)) <$> tcbs k' !! t
               = (λ c, (t_sp_lock c, t_waiting_on c)) <$> tcbs k !! t;
}.

#[export] Instance same_waits_refl : Reflexive same_waits.
Proof. by split. Qed.
#[export] Instance same_waits_trans : Transitive same_waits.
Proof. intros k1 k2 k3 [] []. split; congruence. Qed.

Lemma same_waits_upd k t f :
  (∀ c, t_sp_lock (f c) = t_sp_lock c ∧ t_waiting_on (f c) = t_waiting_on c) →
  same_waits k (upd t f k).
Proof.
  intros Hf. split; try done. intros t'. rewrite upd_lookup. case_decide; [|done].
  destruct (tcbs k !! t') as [c|]; [|done]. simpl. by destruct (Hf c) as [-> ->].
Qed.

Lemma same_waits_rescheduled k : same_waits k (rescheduled k).
Proof.
  unfold rescheduled. destruct (next_ready k _) as [n|]; [|done].
  transitivity (upd n (tcb_wake false) k); [by apply same_waits_upd|]. by split.
Qed.

Lemma same_waits_blocked k tid : same_waits k (blocked tid k).
Proof.
  unfold blocked. destruct (by_tid k tid) as [t|]; [|done].
  destruct (default _ _); [by apply same_waits_upd|].
  transitivity (upd t (tcb_state TS_PENDING) k); [by apply same_waits_upd|].
  destruct (t =? _); [apply same_waits_rescheduled|done].
Qed.

Lemma same_waits_lookup k k' t c' :
  same_waits k k' → tcbs k' !! t = Some c' →
  ∃ c, tcbs k !! t = Some c ∧ t_sp_lock c' = t_sp_lock c ∧ t_waiting_on c' = t_waiting_on c.
Proof.
  intros Hs Hc. pose proof (sw_tcbs _ _ Hs t) as E. rewrite Hc in E.
  destruct (tcbs k !! t) as [c|]; [|done]. injection E as E1 E2. by exists c.
Qed.

Lemma same_waits_lookup_back k k' t c :
  same_waits k k' → tcbs k !! t = Some c →
  ∃ c', tcbs k' !! t = Some c' ∧ t_waiting_on c' = t_waiting_on c.
Proof.
  intros Hs Hc. pose proof (sw_tcbs _ _ Hs t) as E. rewrite Hc in E.
  destruct (tcbs k' !! t) as [c'|]; [|done]. injection E as E1 E2. by exists c'.
Qed.

Lemma queue_ok_same k k' s wq q l : same_waits k k' → queue_ok k s wq q l → queue_ok k' s wq q l.
Proof.
  intros Hs [H1 H2 H3 H4 H5 H6 H7 H8]. split; try done.
  - by rewrite (sw_wqs _ _ Hs).
  - by rewrite (sw_mach _ _ Hs).
  - intros t c Hc. destruct (same_waits_lookup _ _ _ _ Hs Hc) as (c0 & Hc0 & -> & _).
    by apply (H6 t).
  - intros t Ht. rewrite (sw_head _ _ Hs). destruct (H8 t Ht) as (Hin & c & Hc & Hw).
    split; [done|]. destruct (same_waits_lookup_back _ _ _ _ Hs Hc) as (c' & Hc' & E).
    exists c'. split; [done|congruence].
Qed.

(** ** How the queue changes *)

Lemma queue_ok_enqueue k s wq q l r c :
  queue_ok k s wq q l → r ∈ thread_head k → tcbs k !! r = Some c → t_waiting_on c = 0 →
  queue_ok (enqueue r wq k) s wq (wq_set_waiters (r :: wq_waiters q) q) l.
Proof.
  intros [H1 H2 H3 H4 H5 H6 H7 H8] Hr Hc Hw. split; try done.
  - simpl. by rewrite lookup_alter_eq, H1.
  - intros t d Hd. change (tcbs (enqueue r wq k)) with (tcbs (upd r (tcb_waiting wq) k)) in Hd.
    destruct (upd_lookup_Some _ _ _ _ _ Hd) as (d0 & Hd0 & [->| ->]); exact (H6 t d0 Hd0).
  - apply NoDup_cons. split; [|done]. intros Hin. destruct (H8 r Hin) as (_ & d & Hd & E). congruence.
  - intros t. cbn [wq_waiters wq_set_waiters]. change (tcbs (enqueue r wq k)) with (tcbs (upd r (tcb_waiting wq) k)).
    change (thread_head (enqueue r wq k)) with (thread_head k).
    intros [->|Ht]%elem_of_cons.
    + split; [done|]. exists (tcb_waiting wq c). by rewrite upd_lookup, decide_True, Hc.
    + destruct (H8 t Ht) as (Hin & d & Hd & E). split; [done|].
      rewrite upd_lookup. case_decide; [|by exists d]. subst. rewrite Hd. by eexists.
Qed.

Lemma queue_ok_dequeue k s wq q l t ts :
  queue_ok k s wq q l → wq_waiters q = t :: ts →
  queue_ok (dequeue t wq k) s wq (wq_set_waiters ts q) l.
Proof.
  intros [H1 H2 H3 H4 H5 H6 H7 H8] E. rewrite E in H7, H8. apply NoDup_cons in H7 as [Hnin H7].
  split; try done.
  - simpl. rewrite lookup_alter_eq, H1. simpl. unfold wq_set_waiters. rewrite E.
    do 2 f_equal. exact (remove_split [] ts t (proj2 (NoDup_cons _ _) (conj Hnin H7))).
  - intros u d Hd. change (tcbs (dequeue t wq k)) with (tcbs (upd t (tcb_waiting 0) k)) in Hd.
    destruct (upd_lookup_Some _ _ _ _ _ Hd) as (d0 & Hd0 & [->| ->]); exact (H6 u d0 Hd0).
  - intros u Hu. simpl in Hu. change (tcbs (dequeue t wq k)) with (tcbs (upd t (tcb_waiting 0) k)).
    destruct (H8 u ltac:(by right)) as (Hin & d & Hd & Ed). split; [done|].
    rewrite upd_lookup. case_decide; [congruence|]. by exists d.
Qed.

(** *** A wake-up keeps the queue *)

Lemma queue_ok_woken_one k s wq q l :
  queue_ok k s wq q l → queue_ok (woken_one wq q k) s wq (wq_set_waiters (tail (wq_waiters q)) q) l.
Proof.
  intros Hq. unfold woken_one. destruct (wq_waiters q) as [|t ts] eqn:E.
  - simpl. rewrite <- E. by destruct q.
  - eapply queue_ok_same; [by apply same_waits_upd|]. by apply queue_ok_dequeue.
Qed.

Lemma sched_ok_woken_one k s wq q : sched_ok k s → sched_ok (woken_one wq q k) s.
Proof.
  intros Hok. unfold woken_one. destruct (wq_waiters q); [done|].
  apply sched_ok_upd; [done|]. by apply sched_ok_dequeue.
Qed.

Lemma set_mach_mach k m m' : set_k_mach m (set_k_mach m' k) = set_k_mach m k.
Proof. reflexivity. Qed.
Lemma set_mach_id k m : k_mach k = m → set_k_mach m k = k.
Proof. intros <-. by destruct k. Qed.

(** The next ready thread depends only on the other threads. *)
Lemma next_ready_ext k k' r :
  r ∈ thread_head k → NoDup (thread_head k) → thread_head k' = thread_head k →
  (∀ t, r ≠ t → ready k' t = ready k t) → next_ready k' r = next_ready k r.
Proof.
  intros Hr Hnd Eh Ht. unfold next_ready. replace (others k' r) with (others k r)
    by (unfold others; by rewrite Eh).
  assert (∀ l, (∀ t, t ∈ l → r ≠ t) → List.find (ready k') l = List.find (ready k) l) as Hf.
  { induction l as [|x l IH]; intros Hl; [done|]. simpl. rewrite Ht by (apply Hl; left).
    rewrite IH; [done|]. intros t Hin. apply Hl. by right. }
  apply Hf. intros t Hin. apply others_elem in Hin as [_ Hne]; [congruence|done..].
Qed.

End wait_queue.
