(* ===== verification/Semaphore.v ===== *)
(** * Counting semaphores (kernel/sync/semaphore.c)

    A semaphore is a counter and a wait queue; a negative counter is the
    number of sleepers.  The theorems say that a wait either takes a unit or
    parks the caller, that a signal wakes exactly one sleeper when there is
    one, and that both keep the counter equal to the number of sleepers. *)

From stdpp Require Import base tactics list gmap.
From Stdlib Require Import ZArith Lia.
From S2P Require Import Prelude Spinlock Allocator Heap KState Sched ThreadApi WaitQueue.

Open Scope Z_scope.

Definition sizeof_semaphore : Z := 28.
(** &sem->wq *)
Definition sem_wq (sem : Z) : Z := sem + 16.
Definition sem_set_value (v : Z) (m : semaphore) : semaphore := mk_sem (sem_id m) v.

Section semaphore.
Context {A U W : Type} `{!AddressSpace W, !Allocator A}.
Notation kernel := (kernel A U W).
Context `{!Gate kernel proc_thread_ctrl_config}.
Implicit Types k : kernel.

Definition kzoom {B} (m : M A B) : M kernel B := @zoom _ _ kernel_heap _ m.

Definition semaphore_create (init_value : Z) : M kernel Z :=
  sem ← kzoom (kmalloc sizeof_semaphore);
  if sem =? 0 then mret 0 else
  r ← wait_queue_init (sem_wq sem);
  if negb (r =? 0) then
    modify (λ k, set_wqs (delete (sem_wq sem) (wqs k)) k);;
    kzoom (kfree sem);;
    mret 0
  else
  id ← gets next_sem_id;
  modify (set_next_sem_id (i32 (id + 1)));;
  modify (λ k, set_sems (<[sem := mk_sem id init_value]> (sems k)) k);;
  l ← gets semaphore_lock;
  irq_section l (modify (λ k, set_semaphore_head (sem :: semaphore_head k) k));;
  mret sem.

Definition semaphore_has_waiters (sem : Z) : M kernel Z :=
  if sem =? 0 then mret 0 else
  q ← get_wq (sem_wq sem);
  irq_section (wq_lock q) (
    q ← get_wq (sem_wq sem);
    mret (match wq_waiters q with [] => 0 | _ => 1 end)).

Definition semaphore_destroy (sem : Z) : M kernel Z :=
  if sem =? 0 then mret E_INVAL else
  q ← get_wq (sem_wq sem);
  busy ← irq_section (wq_lock q) (
    q ← get_wq (sem_wq sem);
    mret (match wq_waiters q with [] => false | _ => true end));
  if busy : bool then mret E_BUSY else
  l ← gets semaphore_lock;
  irq_section l (modify (λ k, set_semaphore_head (remove sem (semaphore_head k)) k));;
  zoom (spinlock_release (wq_lock q));;
  modify (λ k, set_sems (delete sem (sems k)) (set_wqs (delete (sem_wq sem) (wqs k)) k));;
  kzoom (kfree sem);;
  mret 0.

Fixpoint find_sem (id : Z) (l : list Z) : M kernel Z :=
  match l with
  | [] => mret 0
  | x :: l => m ← get_sem x; if sem_id m =? id then mret x else find_sem id l
  end.

Definition semaphore_get (id : Z) : M kernel Z :=
  l ← gets semaphore_lock;
  irq_section l (hd ← gets semaphore_head; find_sem id hd).

Definition semaphore_wait (semid : Z) : M kernel Z :=
  sem ← semaphore_get semid;
  if sem =? 0 then mret E_INVAL else
  q ← get_wq (sem_wq sem);
  irq_section (wq_lock q) (
    upd_sem sem (λ m, sem_set_value (i32 (sem_value m - 1)) m);;
    m ← get_sem sem;
    if sem_value m <? 0 then wait_queue_sleep_locked (sem_wq sem) else mret tt);;
  mret 0.

Definition semaphore_signal (semid : Z) : M kernel Z :=
  sem ← semaphore_get semid;
  if sem =? 0 then mret E_INVAL else
  q ← get_wq (sem_wq sem);
  wake ← irq_section (wq_lock q) (
    upd_sem sem (λ m, sem_set_value (i32 (sem_value m + 1)) m);;
    m ← get_sem sem;
    mret (sem_value m <=? 0));
  (if wake : bool then wait_queue_wake_one (sem_wq sem) else mret tt);;
  mret 0.

(** ** A consistent semaphore *)

Record sem_ok k (s ls : nat) (sem : Z) (m : semaphore) (q : wait_queue) (l : nat) : Prop := {
  sm_lock : semaphore_lock k = Some ls;
  sm_unlocked : (k_mach k).2 !! ls = Some LOCK_UNLOCKED;
  sm_obj : sems k !! sem = Some m;
  sm_live : ∀ x, x ∈ semaphore_head k → x ≠ 0 ∧ is_Some (sems k !! x);
  sm_linked : sem ∈ semaphore_head k;
  sm_ids : ∀ x m', x ∈ semaphore_head k → sems k !! x = Some m' → sem_id m' = sem_id m → x = sem;
  sm_queue : queue_ok k s (sem_wq sem) q l;
  sm_count : Z.of_nat (length (wq_waiters q)) = Z.max 0 (- sem_value m);
}.

Definition on_sem (x : Z) (f : semaphore → semaphore) k : kernel :=
  set_sems (alter f x (sems k)) k.

Lemma upd_sem_run x f k m : sems k !! x = Some m → upd_sem x f k = Ret tt (on_sem x f k).
Proof.
  intros H. unfold upd_sem. rewrite (bind_Ret _ _ _ m k) by (by apply deref_Some).
  unfold modify, on_sem. do 2 f_equal. apply map_eq. intros i.
  destruct (decide (i = x)) as [->|]; [by rewrite lookup_alter_eq, lookup_insert_eq, H|].
  by rewrite lookup_alter_ne, lookup_insert_ne.
Qed.

Lemma find_sem_run k m sem l :
  (∀ x, x ∈ l → x ≠ 0 ∧ is_Some (sems k !! x)) → sem ∈ l → sems k !! sem = Some m →
  (∀ x m', x ∈ l → sems k !! x = Some m' → sem_id m' = sem_id m → x = sem) →
  find_sem (sem_id m) l k = Ret sem k.
Proof.
  induction l as [|x l IH]; intros Hl Hin Hm Hid; [by apply elem_of_nil in Hin|]. cbn [find_sem].
  destruct (Hl x ltac:(left)) as [_ [m' Hm']].
  rewrite (bind_Ret _ _ _ m' k) by (by apply deref_Some).
  destruct (Z.eqb_spec (sem_id m') (sem_id m)) as [E|Hne].
  - by rewrite (Hid x m' ltac:(left) Hm' E).
  - apply elem_of_cons in Hin as [->|Hin]; [congruence|].
    apply IH; [|done..|]; intros y; [intros Hy; apply Hl; by right|].
    intros m2 Hy. apply Hid. by right.
Qed.

Lemma semaphore_get_run k s ls sem m q l :
  sem_ok k s ls sem m q l → semaphore_get (sem_id m) k = Ret sem k.
Proof.
  intros Hok. unfold semaphore_get.
  rewrite (bind_Ret _ _ _ (Some ls) k) by (unfold gets; by rewrite (sm_lock _ _ _ _ _ _ _ Hok)).
  etrans; [eapply (irq_section_run ls k); [apply Hok| |]|].
  - rewrite (bind_Ret _ _ _ (semaphore_head k) (hold_irq ls k)) by done.
    apply find_sem_run; apply Hok.
  - done.
  - by rewrite hold_irq_id.
Qed.

Lemma sem_ok_same k k' s ls sem m q l :
  same_waits k k' → sem_ok k s ls sem m q l → sem_ok k' s ls sem m q l.
Proof.
  intros Hs [H1 H2 H3 H4 H5 H6 H7 H8].
  split; rewrite ?(sw_semlock _ _ Hs), ?(sw_mach _ _ Hs), ?(sw_sems _ _ Hs), ?(sw_semhead _ _ Hs);
    try done. by eapply queue_ok_same.
Qed.

(** ** How a semaphore changes *)

Lemma queue_ok_on_sem k s wq q l x f : queue_ok k s wq q l → queue_ok (on_sem x f k) s wq q l.
Proof. intros []. by split. Qed.
Lemma sched_ok_on_sem k s x f : sched_ok k s → sched_ok (on_sem x f k) s.
Proof. intros []. by split. Qed.

Lemma sem_ok_update k k' s ls sem m q l v q' :
  sem_ok k s ls sem m q l → semaphore_lock k' = semaphore_lock k → k_mach k' = k_mach k →
  semaphore_head k' = semaphore_head k → sems k' = alter (sem_set_value v) sem (sems k) →
  queue_ok k' s (sem_wq sem) q' l → Z.of_nat (length (wq_waiters q')) = Z.max 0 (- v) →
  sem_ok k' s ls sem (sem_set_value v m) q' l.
Proof.
  intros [H1 H2 H3 H4 H5 H6 H7 H8] El Em Eh Es Hq Hlen. split; rewrite ?El, ?Em, ?Eh, ?Es; try done.
  - by rewrite lookup_alter_eq, H3.
  - intros x Hx. destruct (H4 x Hx) as [Hnz Hs]. split; [done|].
    destruct (decide (x = sem)) as [->|]; [rewrite lookup_alter_eq, H3; by eexists|].
    by rewrite lookup_alter_ne.
  - intros x m' Hx. destruct (decide (x = sem)) as [->|]; [done|].
    rewrite lookup_alter_ne by done. by apply H6.
Qed.

(** *** The two operations computed *)

Definition dec k (sem : Z) (m : semaphore) : kernel :=
  on_sem sem (sem_set_value (sem_value m - 1)) k.
Definition inc k (sem : Z) (m : semaphore) : kernel :=
  on_sem sem (sem_set_value (sem_value m + 1)) k.

Lemma on_sem_val k sem m v : sems k !! sem = Some m →
  on_sem sem (λ m', sem_set_value (i32 (sem_value m' + v)) m') k
  = on_sem sem (sem_set_value (i32 (sem_value m + v))) k.
Proof.
  intros Hm. unfold on_sem. f_equal. apply map_eq. intros i.
  destruct (decide (i = sem)) as [->|]; [by rewrite !lookup_alter_eq, Hm|].
  by rewrite !lookup_alter_ne.
Qed.

Lemma semaphore_wait_run k s ls sem m q l c :
  in_gate k → sched_ok k s → sem_ok k s ls sem m q l →
  tcbs k !! thread_run k = Some c → -2147483648 < sem_value m <= 2147483647 →
  semaphore_wait (sem_id m) k
  = Ret 0 (if (sem_value m - 1 <? 0) && (t_waiting_on c =? 0)
           then blocked (t_tid c) (enqueue (thread_run k) (sem_wq sem) (dec k sem m))
           else dec k sem m).
Proof.
  intros Hg Hok Hs Hc Hv. unfold semaphore_wait.
  rewrite (bind_Ret _ _ _ _ _ (semaphore_get_run _ _ _ _ _ _ _ Hs)).
  pose proof (sm_queue _ _ _ _ _ _ _ Hs) as Hq.
  rewrite (proj2 (Z.eqb_neq _ _)) by (by apply (sm_live _ _ _ _ _ _ _ Hs), Hs).
  rewrite (bind_Ret _ _ _ q k) by (apply deref_Some, Hq). rewrite (qo_lock _ _ _ _ _ Hq).
  pose proof (sm_obj _ _ _ _ _ _ _ Hs) as Hm.
  erewrite bind_Ret; [|eapply (irq_section_run l k) with (k1 := if (sem_value m - 1 <? 0) && (t_waiting_on c =? 0)
      then set_k_mach (irq_locked l (k_mach k))
             (blocked (t_tid c) (enqueue (thread_run k) (sem_wq sem) (dec k sem m)))
      else hold_irq l (dec k sem m)); [apply Hq| |by destruct (_ && _)]].
  - unfold mret, M_ret. f_equal. destruct (_ && _).
    + rewrite set_mach_mach. apply set_mach_id. by rewrite (sw_mach _ _ (same_waits_blocked _ _)).
    + unfold hold_irq. rewrite set_mach_mach. by apply set_mach_id.
  - rewrite (bind_Ret _ _ _ tt (hold_irq l (dec k sem m))).
    2: { rewrite (upd_sem_run sem _ (hold_irq l k) m Hm). f_equal.
         etrans; [apply (on_sem_val (hold_irq l k) sem m (-1) Hm)|].
         rewrite i32_small by lia. done. }
    rewrite (bind_Ret _ _ _ (sem_set_value (sem_value m - 1) m) (hold_irq l (dec k sem m))).
    2: { apply deref_Some. simpl. by rewrite lookup_alter_eq, Hm. }
    cbn [sem_set_value sem_value]. destruct (_ <? _); cbn [andb]; [|done].
    rewrite (sleep_locked_run (dec k sem m) s (sem_wq sem) q l c); [|done|by apply sched_ok_on_sem|
      by apply queue_ok_on_sem|done]. done.
Qed.

Lemma semaphore_signal_run k s ls sem m q l :
  in_gate k → sched_ok k s → sem_ok k s ls sem m q l → -2147483648 <= sem_value m < 2147483647 →
  semaphore_signal (sem_id m) k
  = Ret 0 (if sem_value m + 1 <=? 0 then woken_one (sem_wq sem) q (inc k sem m) else inc k sem m).
Proof.
  intros Hg Hok Hs Hv. unfold semaphore_signal.
  rewrite (bind_Ret _ _ _ _ _ (semaphore_get_run _ _ _ _ _ _ _ Hs)).
  pose proof (sm_queue _ _ _ _ _ _ _ Hs) as Hq.
  rewrite (proj2 (Z.eqb_neq _ _)) by (by apply (sm_live _ _ _ _ _ _ _ Hs), Hs).
  rewrite (bind_Ret _ _ _ q k) by (apply deref_Some, Hq). rewrite (qo_lock _ _ _ _ _ Hq).
  pose proof (sm_obj _ _ _ _ _ _ _ Hs) as Hm.
  rewrite (bind_Ret _ _ _ (sem_value m + 1 <=? 0) (inc k sem m)).
  - destruct (_ <=? _); [|done]. by rewrite (bind_Ret _ _ _ _ _ (wake_one_run (inc k sem m) s _ q l
      Hg (sched_ok_on_sem _ _ _ _ Hok) (queue_ok_on_sem _ _ _ _ _ _ _ Hq))).
  - etrans; [eapply (irq_section_run l k) with (k1 := hold_irq l (inc k sem m)); [apply Hq| |done]|].
    + rewrite (bind_Ret _ _ _ tt (hold_irq l (inc k sem m))).
      2: { rewrite (upd_sem_run sem _ (hold_irq l k) m Hm). f_equal.
           etrans; [apply (on_sem_val (hold_irq l k) sem m 1 Hm)|].
           rewrite i32_small by lia. done. }
      rewrite (bind_Ret _ _ _ (sem_set_value (sem_value m + 1) m) (hold_irq l (inc k sem m))).
      2: { apply deref_Some. simpl. by rewrite lookup_alter_eq, Hm. }
      reflexivity.
    + unfold hold_irq. rewrite set_mach_mach. by rewrite set_mach_id.
Qed.

(** ** Creating and destroying *)

(** A lock from the pool was nobody's. *)
Definition with_lock (i : nat) k : kernel :=
  set_k_mach ((k_mach k).1, <[i := LOCK_UNLOCKED]> (k_mach k).2) k.

Lemma alloc_lock_run k :
  zoom spinlock_alloc k = Ret None k ∨
  ∃ i, zoom spinlock_alloc k = Ret (Some i) (with_lock i k) ∧ (k_mach k).2 !! i = Some LOCK_INVALID.
Proof.
  destruct (spinlock_scan 0 (k_mach k).2) as [i|] eqn:E.
  - right. destruct (spinlock_scan_Some _ _ _ E) as (j & -> & Hj & _). exists j.
    split; [|done]. etrans; [apply zoom_Ret; unfold spinlock_alloc; simpl in *; by rewrite E|done].
  - left. etrans; [apply zoom_Ret; unfold spinlock_alloc; simpl in *; by rewrite E|].
    simpl. rewrite pair_eta. f_equal. by apply set_mach_id.
Qed.

Lemma with_lock_lookup i k j st :
  (k_mach k).2 !! i = Some LOCK_INVALID → (k_mach k).2 !! j = Some st → st ≠ LOCK_INVALID →
  (k_mach (with_lock i k)).2 !! j = Some st.
Proof. intros Hi Hj Hst. simpl. rewrite list_lookup_insert_ne; [done|]. by intros ->; simplify_eq. Qed.

Lemma sched_ok_with_lock i k s :
  (k_mach k).2 !! i = Some LOCK_INVALID → sched_ok k s → sched_ok (with_lock i k) s.
Proof.
  intros Hi [H1 H2 H3 H4 H5 H6 H7]. split; try done; [by apply with_lock_lookup|].
  intros t Ht. destruct (H4 t Ht) as [Hnz (c & j & Hc & Hj & Hu)]. split; [done|].
  exists c, j. split_and!; [done..|by apply with_lock_lookup].
Qed.

(** A new semaphore at [sem] with its own lock [i]. *)
Definition sem_new (sem v : Z) (i : nat) h k : kernel :=
  set_semaphore_head (sem :: semaphore_head k) (set_sems (<[sem := mk_sem (next_sem_id k) v]> (sems k))
    (set_next_sem_id (i32 (next_sem_id k + 1))
      (set_wqs (<[sem_wq sem := mk_wq [] (Some i)]> (wqs k)) (with_lock i (set_k_heap h k))))).

Lemma sem_new_heap sem v i h h' k : sem_new sem v i h (set_k_heap h' k) = sem_new sem v i h k.
Proof. destruct k. reflexivity. Qed.

Lemma semaphore_create_run k v ls L :
  owns (k_heap k) L → semaphore_lock k = Some ls → (k_mach k).2 !! ls = Some LOCK_UNLOCKED →
  (∀ p, p ∉ L → wqs k !! sem_wq p = None) →
  (∃ h, semaphore_create v k = Ret 0 (set_k_heap h k) ∧ owns h L) ∨
  ∃ sem i h, semaphore_create v k = Ret sem (sem_new sem v i h k) ∧ 0 < sem < 4294967296 ∧ sem ∉ L ∧
    owns h ({[sem]} ∪ L) ∧ (k_mach k).2 !! i = Some LOCK_INVALID.
Proof.
  intros Ho Hls Hu Hf. unfold semaphore_create.
  destruct (kmalloc_ok (k_heap k) L sizeof_semaphore Ho) as [(h & Em & Ho')|(sem & h & Em & Hs & HsL & Ho')]; [done|..];
    unfold kzoom; rewrite (bind_Ret _ _ _ _ _ (zoom_heap _ k _ _ Em)).
  { left. by exists h. }
  rewrite (proj2 (Z.eqb_neq sem 0)) by lia. unfold wait_queue_init. rewrite bind_assoc.
  pose proof (Hf sem HsL) as Hw.
  destruct (alloc_lock_run (set_k_heap h k)) as [E|(i & E & Hi)]; rewrite (bind_Ret _ _ _ _ _ E).
  - left. destruct (kfree_ok h ({[sem]} ∪ L) sem Ho' ltac:(set_solver)) as (h' & Ef & Ho2). exists h'.
    rewrite bind_assoc, (bind_Ret (modify _) _ _ tt _ eq_refl), bind_ret. change (negb (E_LIMIT =? 0)) with true. cbv iota.
    rewrite (bind_Ret (modify _) _ _ tt _ eq_refl).
    erewrite bind_Ret; [|apply zoom_heap; exact Ef]. split; [|by replace L with (({[sem]} ∪ L) ∖ {[sem]}) by set_solver].
    simpl. rewrite delete_insert_id by done. by destruct k.
  - right. exists sem, i, h. rewrite bind_assoc, (bind_Ret (modify _) _ _ tt _ eq_refl).
    split_and!; [|lia|lia|done|done|done]. set (k1 := set_wqs _ _).
    rewrite bind_assoc. rewrite (bind_Ret _ _ _ tt _ (upd_wq_run (sem_wq sem) _ k1 _ (lookup_insert_eq _ _ _))).
    rewrite bind_ret. change (negb (0 =? 0)) with false. cbv iota.
    erewrite (bind_Ret (gets next_sem_id)); [|reflexivity].
    rewrite !(bind_Ret (modify _) _ _ tt _ eq_refl).
    erewrite (bind_Ret (gets semaphore_lock)); [|reflexivity]. simpl semaphore_lock. rewrite Hls.
    erewrite bind_Ret; [|eapply (irq_section_run ls); [|reflexivity|reflexivity]].
    + unfold mret, M_ret. f_equal. unfold sem_new, with_lock, on_wq, k1. simpl. rewrite fin_maps.alter_insert_eq, Hw.
      by destruct k.
    + simpl. rewrite list_lookup_insert_ne; [done|]. intros ->. simpl in Hi. congruence.
Qed.

(** A semaphore whose queue lock is free. *)
Record sem_rest k (sem : Z) (q : wait_queue) (l : nat) : Prop := {
  sr_nz : sem ≠ 0;
  sr_wq : wqs k !! sem_wq sem = Some q;
  sr_lock : wq_lock q = Some l;
  sr_free : (k_mach k).2 !! l = Some LOCK_UNLOCKED;
}.

Lemma semaphore_has_waiters_run k sem q l :
  sem_rest k sem q l → semaphore_has_waiters sem k = Ret (match wq_waiters q with [] => 0 | _ => 1 end) k.
Proof.
  intros [Hnz Hq Hl Hu]. unfold semaphore_has_waiters. rewrite (proj2 (Z.eqb_neq sem 0)) by done.
  rewrite (bind_Ret _ _ _ q k), Hl by (by apply deref_Some).
  etrans; [eapply (irq_section_run l k); [done| |]|].
  - rewrite (bind_Ret _ _ _ q (hold_irq l k)) by (by apply deref_Some). done.
  - done.
  - by rewrite hold_irq_id.
Qed.

(** The semaphore at [sem] with lock [l] is gone. *)
Definition sem_gone (sem : Z) (l : nat) h k : kernel :=
  set_k_heap h (set_sems (delete sem (sems k)) (set_wqs (delete (sem_wq sem) (wqs k))
    (set_k_mach ((k_mach k).1, <[l := LOCK_INVALID]> (k_mach k).2)
      (set_semaphore_head (remove sem (semaphore_head k)) k)))).

Lemma semaphore_destroy_run k sem q l ls L :
  sem_rest k sem q l → wq_waiters q = [] → owns (k_heap k) L → sem ∈ L →
  semaphore_lock k = Some ls → (k_mach k).2 !! ls = Some LOCK_UNLOCKED →
  ∃ h, semaphore_destroy sem k = Ret 0 (sem_gone sem l h k) ∧ owns h (L ∖ {[sem]}).
Proof.
  intros [Hnz Hq Hl Hu] He Ho HL Hls Hlu. unfold semaphore_destroy. rewrite (proj2 (Z.eqb_neq sem 0)) by done.
  rewrite (bind_Ret _ _ _ q k), Hl by (by apply deref_Some).
  erewrite bind_Ret; [|eapply (irq_section_run l k); [done| |reflexivity];
    rewrite (bind_Ret _ _ _ q (hold_irq l k)) by (by apply deref_Some); rewrite He; reflexivity].
  rewrite hold_irq_id. erewrite (bind_Ret (gets semaphore_lock)); [|reflexivity]. rewrite Hls.
  erewrite bind_Ret; [|eapply (irq_section_run ls); [done|reflexivity|reflexivity]].
  erewrite bind_Ret; [|apply zoom_Ret; reflexivity]. rewrite (bind_Ret (modify _) _ _ tt _ eq_refl).
  destruct (kfree_ok (k_heap k) L sem Ho HL) as (h & Ef & Ho'). exists h. split; [|done].
  unfold kzoom. erewrite bind_Ret; [|apply zoom_heap; exact Ef]. by destruct k.
Qed.

(** ** The theorems *)

(** The running thread on the queue of the semaphore, before it blocks. *)
Lemma queued_ok k s ls sem m q l c :
  sched_ok k s → sem_ok k s ls sem m q l → tcbs k !! thread_run k = Some c → t_waiting_on c = 0 → sem_value m <= 0 →
  let k1 := enqueue (thread_run k) (sem_wq sem) (dec k sem m) in
  sched_ok k1 s ∧ tcbs k1 !! thread_run k = Some (tcb_waiting (sem_wq sem) c) ∧ by_tid k1 (t_tid c) = Some (thread_run k) ∧
  sem_ok k1 s ls sem (sem_set_value (sem_value m - 1) m) (wq_set_waiters (thread_run k :: wq_waiters q) q) l.
Proof.
  intros Hok Hs Hc Hw Hneg k1. pose proof (sm_queue _ _ _ _ _ _ _ Hs) as Hq. pose proof (sm_count _ _ _ _ _ _ _ Hs) as Hn.
  assert (sched_ok k1 s) as Hok1 by (apply sched_ok_enqueue; by apply sched_ok_on_sem).
  assert (tcbs k1 !! thread_run k = Some (tcb_waiting (sem_wq sem) c)) as Hc1.
  { change (tcbs k1) with (tcbs (upd (thread_run k) (tcb_waiting (sem_wq sem)) k)). by rewrite upd_lookup, decide_True, Hc. }
  split_and!; [done|done| |].
  - exact (by_tid_of k1 s _ _ Hok1 (so_run _ _ Hok1) Hc1).
  - apply (sem_ok_update k _ _ _ _ _ q); try done; [|simpl; lia].
    apply (queue_ok_enqueue (dec k sem m) _ _ _ _ _ c); [by apply queue_ok_on_sem|apply Hok|done..].
Qed.

(** C20: a wait on a consistent semaphore always returns 0 and takes one from its
    counter.  With units left no thread changes.  With none left the caller
    joins the queue, so that the counter still gives the number of queued
    threads; then, without a pending wake-up, it is parked and the processor
    is given to the next ready thread, and with one the wake-up is consumed
    and the caller goes on running although it is still queued.  A caller that
    is on a queue already (as after such a return) neither queues nor parks:
    then only the counter changes, and it no longer matches the queue. *)
Theorem semaphore_wait_takes_or_parks k s ls sem m q l c :
  in_gate k → sched_ok k s → sem_ok k s ls sem m q l → tcbs k !! thread_run k = Some c →
  -2147483648 < sem_value m <= 2147483647 →
  let m' := sem_set_value (sem_value m - 1) m in
  ∃ k', semaphore_wait (sem_id m) k = Ret 0 k' ∧ sched_ok k' s ∧ sems k' !! sem = Some m' ∧
    (0 < sem_value m → sem_ok k' s ls sem m' q l ∧ tcbs k' = tcbs k ∧ thread_run k' = thread_run k) ∧
    (sem_value m <= 0 → t_waiting_on c = 0 →
       sem_ok k' s ls sem m' (wq_set_waiters (thread_run k :: wq_waiters q) q) l ∧
       (t_wake_pending c = false → ready k' (thread_run k) = false ∧
          thread_run k' = default (thread_run k) (next_ready k (thread_run k))) ∧
       (t_wake_pending c = true → thread_run k' = thread_run k ∧
          tcbs k' !! thread_run k = Some (tcb_wake false (tcb_waiting (sem_wq sem) c)))) ∧
    (sem_value m <= 0 → t_waiting_on c ≠ 0 → tcbs k' = tcbs k ∧ wqs k' = wqs k ∧ thread_run k' = thread_run k).
Proof.
  intros Hg Hok Hs Hc Hv m'. rewrite (semaphore_wait_run k s ls sem m q l c) by done.
  assert (Hm : sems (dec k sem m) !! sem = Some m').
  { cbn. by rewrite lookup_alter_eq, (sm_obj _ _ _ _ _ _ _ Hs). }
  destruct (Z.ltb_spec (sem_value m - 1) 0) as [Hneg|Hpos], (Z.eqb_spec (t_waiting_on c) 0) as [Hw|Hw]; cbn [andb].
  2: { eexists. split_and!; [done|by apply sched_ok_on_sem|done|lia|done|done]. }
  2, 3: eexists; split_and!; [done|by apply sched_ok_on_sem|done| |lia|lia];
    intros _; split_and!; [|done|done]; apply (sem_ok_update k _ _ _ _ _ q); try done;
    [apply queue_ok_on_sem, Hs|pose proof (sm_count _ _ _ _ _ _ _ Hs); simpl; lia].
  destruct (queued_ok k s ls sem m q l c Hok Hs Hc Hw ltac:(lia)) as (Hok1 & Hc1 & Eb & Hs1).
  set (k1 := enqueue (thread_run k) (sem_wq sem) (dec k sem m)) in *. pose proof (same_waits_blocked k1 (t_tid c)) as Hsw.
  eexists. split_and!; [done|by apply sched_ok_blocked|by rewrite (sw_sems _ _ Hsw)|lia| |done].
  intros _ _. split; [by eapply sem_ok_same|]. unfold blocked. rewrite Eb, Hc1. cbn [fmap option_fmap option_map default from_option id tcb_waiting t_wake_pending].
  change (thread_run k1) with (thread_run k). split; intros Hp; rewrite Hp.
  - rewrite Z.eqb_refl. split.
    + rewrite rescheduled_ready. unfold ready. by rewrite upd_lookup, decide_True, Hc1.
    + unfold rescheduled. change (thread_run (upd _ _ k1)) with (thread_run k).
      rewrite (next_ready_ext k _ (thread_run k)); [by destruct (next_ready _ _)|apply Hok|apply Hok|done|].
      intros t Ht. unfold ready. rewrite upd_lookup, decide_False by done.
      change (tcbs k1) with (tcbs (upd (thread_run k) (tcb_waiting (sem_wq sem)) k)).
      by rewrite upd_lookup, decide_False by done.
  - split; [done|]. by rewrite upd_lookup, decide_True, Hc1.
Qed.

(** C21: a signal on a consistent semaphore returns 0, adds one unit and keeps
    the counter equal to the number of sleepers.  When there are sleepers the
    newest one leaves the queue and is ready with its wake-up recorded, and no
    other thread changes; when there are none no thread changes. *)
Theorem semaphore_signal_wakes_one k s ls sem m q l :
  in_gate k → sched_ok k s → sem_ok k s ls sem m q l → -2147483648 <= sem_value m < 2147483647 →
  ∃ k' q', semaphore_signal (sem_id m) k = Ret 0 k' ∧ sched_ok k' s ∧
    sem_ok k' s ls sem (sem_set_value (sem_value m + 1) m) q' l ∧ thread_run k' = thread_run k ∧
    match wq_waiters q with
    | [] => 0 <= sem_value m ∧ q' = q ∧ tcbs k' = tcbs k
    | t :: ts => sem_value m < 0 ∧ wq_waiters q' = ts ∧
        (∃ c, tcbs k' !! t = Some c ∧ t_state c = TS_READY ∧ t_wake_pending c = true ∧
              t_waiting_on c = 0) ∧
        (∀ u, u ≠ t → tcbs k' !! u = tcbs k !! u)
    end.
Proof.
  intros Hg Hok Hs Hv. rewrite (semaphore_signal_run k s ls sem m q l) by done.
  pose proof (sm_queue _ _ _ _ _ _ _ Hs) as Hq. pose proof (sm_count _ _ _ _ _ _ _ Hs) as Hn.
  destruct (wq_waiters q) as [|t ts] eqn:Ew; simpl in Hn.
  - exists (inc k sem m), q. split_and!; [|by apply sched_ok_on_sem| |done|lia|done|done].
    + unfold woken_one. rewrite Ew. by destruct (_ <=? _).
    + apply (sem_ok_update k _ _ _ _ _ q); try done; [by apply queue_ok_on_sem|]. rewrite Ew. simpl. lia.
  - destruct (Z.leb_spec (sem_value m + 1) 0); [|lia]. unfold woken_one. rewrite Ew.
    set (k1 := dequeue t (sem_wq sem) (inc k sem m)).
    assert (∀ u, tcbs k1 !! u = tcbs (upd t (tcb_waiting 0) k) !! u) as E1 by done.
    exists (upd t woken k1), (wq_set_waiters ts q).
    assert (sched_ok k1 s) as Hok1 by (apply sched_ok_dequeue; by apply sched_ok_on_sem).
    split_and!; [done|by apply sched_ok_upd; [apply keeps_woken|]| |done|lia|done| |].
    + eapply sem_ok_same; [by apply same_waits_upd|].
      apply (sem_ok_update k _ _ _ _ _ q); try done; [|simpl; lia].
      apply queue_ok_dequeue; [by apply queue_ok_on_sem|done].
    + destruct (qo_waiters _ _ _ _ _ Hq t) as (_ & c & Hc & _); [rewrite Ew; left|].
      exists (woken (tcb_waiting 0 c)). by rewrite upd_lookup, decide_True, E1, upd_lookup, decide_True, Hc.
    + intros u Hu. by rewrite upd_lookup, decide_False, E1, upd_lookup, decide_False by done.
Qed.
End semaphore.

(** ** Witnesses: the three threads of [sched_demo] and one semaphore *)

#[export] Instance quiet_gate {K C} : Gate K C | 100 := λ _ data, mret (0, data).

Definition with_sem {A U W} (v : Z) (waiters : list Z) (wait : Z) (k : kernel A U W) : kernel A U W :=
  set_irq_reenter_cnt 0 (set_semaphore_lock (Some 9%nat) (set_semaphore_head [500]
   (set_sems {[500 := mk_sem 7 v]} (set_wqs {[516 := mk_wq waiters (Some 8%nat)]}
     (set_k_mach (mk_cpu 512 false, replicate 10 LOCK_UNLOCKED)
       (upd 20 (tcb_waiting wait) k)))))).

Definition sem_demo (v : Z) (waiters : list Z) (wait : Z) : kernel heap heap Z :=
  with_sem v waiters wait sched_demo.

Lemma sched_ok_more_locks {A U W} (k : kernel A U W) s m :
  (∀ i st, (k_mach k).2 !! i = Some st → m.2 !! i = Some st) →
  sched_ok k s → sched_ok (set_k_mach m k) s.
Proof.
  intros Hm [H1 H2 H3 H4 H5 H6 H7]. split; try done; [by apply Hm|].
  intros t Ht. destruct (H4 t Ht) as [Hnz (c & j & Hc & Hj & Hu)]. split; [done|].
  exists c, j. split_and!; [done..|by apply Hm].
Qed.

Lemma with_sem_sched {A U W} (k : kernel A U W) v ws w :
  (k_mach k).2 = replicate 8 LOCK_UNLOCKED → sched_ok k 0 → sched_ok (with_sem v ws w k) 0.
Proof.
  intros Hm Hok.
  assert (sched_ok (set_k_mach (mk_cpu 512 false, replicate 10 LOCK_UNLOCKED)
            (upd 20 (tcb_waiting w) k)) 0) as [].
  { apply sched_ok_more_locks; [|apply sched_ok_upd; [apply keeps_waiting|exact Hok]].
    intros i st Hi. change ((k_mach k).2 !! i = Some st) in Hi. rewrite Hm in Hi.
    apply lookup_replicate in Hi as [-> Hi]. apply lookup_replicate. split; [done|lia]. }
  by split.
Qed.

Lemma sem_demo_sched v ws w : sched_ok (sem_demo v ws w) 0.
Proof. exact (with_sem_sched sched_demo v ws w eq_refl sched_demo_ok). Qed.

Lemma with_sem_locks {A U W} (k : kernel A U W) v ws w j :
  (∀ t c, tcbs k !! t = Some c → t_sp_lock c ≠ Some j) →
  ∀ t c, tcbs (with_sem v ws w k) !! t = Some c → t_sp_lock c ≠ Some j.
Proof.
  intros Hk t c Hc. change (tcbs (upd 20 (tcb_waiting w) k) !! t = Some c) in Hc.
  destruct (upd_lookup_Some _ _ _ _ _ Hc) as (d & Hd & [->| ->]); exact (Hk t d Hd).
Qed.

Lemma sem_demo_locks v ws w t c : tcbs (sem_demo v ws w) !! t = Some c → t_sp_lock c ≠ Some 8%nat.
Proof.
  revert t c. apply (with_sem_locks sched_demo v ws w 8). intros t c Hc.
  destruct (sched_demo_tcb t c Hc) as [[_ ->]|[[_ ->]|[_ ->]]]; discriminate.
Qed.

Lemma sem_demo_free : sem_ok (sem_demo 0 [] 0) 0 9 500 (mk_sem 7 0) (mk_wq [] (Some 8%nat)) 8.
Proof.
  split; [reflexivity|reflexivity|reflexivity| |left| | |reflexivity].
  - intros x Hx. apply list_elem_of_singleton in Hx as ->. split; [discriminate|eexists; reflexivity].
  - intros x m' Hx _ _. apply list_elem_of_singleton in Hx as ->. reflexivity.
  - split; [reflexivity|discriminate|reflexivity|reflexivity|discriminate| |constructor|].
    + intros t c Hc. exact (sem_demo_locks 0 [] 0 t c Hc).
    + intros t Ht. apply elem_of_nil in Ht. destruct Ht.
Qed.

Lemma sem_demo_busy :
  sem_ok (sem_demo (-1) [20] 516) 0 9 500 (mk_sem 7 (-1)) (mk_wq [20] (Some 8%nat)) 8.
Proof.
  split; [reflexivity|reflexivity|reflexivity| |left| | |reflexivity].
  - intros x Hx. apply list_elem_of_singleton in Hx as ->. split; [discriminate|eexists; reflexivity].
  - intros x m' Hx _ _. apply list_elem_of_singleton in Hx as ->. reflexivity.
  - split; [reflexivity|discriminate|reflexivity|reflexivity|discriminate| | |].
    + intros t c Hc. exact (sem_demo_locks (-1) [20] 516 t c Hc).
    + apply NoDup_singleton.
    + intros t Ht. apply list_elem_of_singleton in Ht as ->.
      split; [right; left|]. exists (tcb_waiting 516 (demo_tcb 2 2 2 TS_READY)). split; reflexivity.
Qed.

(** The caller parks; with a wake-up pending it runs on. *)
Lemma semaphore_wait_takes_or_parks_witness :
  ∃ k', semaphore_wait 7 (sem_demo 0 [] 0) = Ret 0 k' ∧ ready k' 10 = false ∧ thread_run k' = 30.
Proof.
  destruct (semaphore_wait_takes_or_parks (sem_demo 0 [] 0) 0 9 500 (mk_sem 7 0)
    (mk_wq [] (Some 8%nat)) 8 (demo_tcb 1 1 1 TS_READY) (conj eq_refl eq_refl)
    (sem_demo_sched 0 [] 0) sem_demo_free eq_refl) as (k' & H & _ & _ & _ & Hp & _).
  - split; vm_compute; done.
  - exists k'. destruct Hp as (_ & Hp & _); [simpl; lia|reflexivity|]. destruct (Hp eq_refl) as [Hr Hn].
    split_and!; [exact H|exact Hr|exact Hn].
Defined.
Example pending_wakeup_leaves_it_queued :
  match semaphore_wait 7 (upd 10 (tcb_wake true) (sem_demo 0 [] 0)) with
  | Ret r k => r = 0 ∧ thread_run k = 10 ∧ wq_waiters <$> wqs k !! 516 = Some [10]
  | _ => False
  end.
Proof. vm_compute. done. Qed.

Lemma semaphore_signal_wakes_one_witness :
  ∃ k', semaphore_signal 7 (sem_demo (-1) [20] 516) = Ret 0 k' ∧
    ∃ c, tcbs k' !! 20 = Some c ∧ t_state c = TS_READY.
Proof.
  destruct (semaphore_signal_wakes_one (sem_demo (-1) [20] 516) 0 9 500 (mk_sem 7 (-1))
    (mk_wq [20] (Some 8%nat)) 8 (conj eq_refl eq_refl) (sem_demo_sched (-1) [20] 516) sem_demo_busy)
    as (k' & q' & H & _ & _ & _ & _ & _ & (c & Hc & Hst & _) & _).
  - split; vm_compute; done.
  - exists k'. split; [exact H|]. exists c. split; [exact Hc|exact Hst].
Defined.
