(* ===== verification/Portal.v ===== *)
(** * Portals: synchronous calls between processes (kernel/ipc/portal.c)

    A server thread owns a portal; a client shares a buffer with the server's
    process, queues a request on the portal and sleeps on the request's
    semaphore until the server has stored its reply.  Each step is one
    command of the portal system call. *)

From stdpp Require Import base tactics list gmap.
From Stdlib Require Import ZArith Lia.
From S2P Require Import Prelude Spinlock Allocator RbTree RbDelete RbOrder Pmm Paging PageSpaces PageRuns Vmm VmmSpace VmmOps VmmMap Heap KState Capability Sched ThreadApi KernelVm Shm WaitQueue Semaphore.

Open Scope Z_scope.

(** ** include/ipc/portal.h *)

Record portal_resp := mk_resp { rs_payload : Z; rs_size : Z; rs_ret : Z }.

Record portal_req := mk_req {
  rq_client_id : Z;
  rq_server_pid : Z;
  rq_shm_va : Z;
  rq_shm_size : Z;
  rq_dequeued : Z;
  rq_done_sem : Z;
  rq_resp : portal_resp;
}.

Definition req_dequeue (r : portal_req) : portal_req :=
  mk_req (rq_client_id r) (rq_server_pid r) (rq_shm_va r) (rq_shm_size r) 1 (rq_done_sem r) (rq_resp r).
Definition req_set_ret (v : Z) (r : portal_req) : portal_req :=
  mk_req (rq_client_id r) (rq_server_pid r) (rq_shm_va r) (rq_shm_size r) (rq_dequeued r) (rq_done_sem r)
    (mk_resp (rs_payload (rq_resp r)) (rs_size (rq_resp r)) v).

Record portal := mk_portal {
  po_id : Z;
  po_pid : Z;
  po_tid : Z;
  po_reqs : list Z;
  po_req_sem : Z;
}.

Definition portal_set_reqs (l : list Z) (p : portal) : portal :=
  mk_portal (po_id p) (po_pid p) (po_tid p) l (po_req_sem p).

Definition PORTAL_CTRL_INIT : Z := 0.
Definition PORTAL_CTRL_DESTROY : Z := 1.
Definition PORTAL_CTRL_CALL : Z := 2.
Definition PORTAL_CTRL_WAIT_REPLY : Z := 3.
Definition PORTAL_CTRL_GET_RESULT : Z := 4.
Definition PORTAL_CTRL_CLEANUP : Z := 5.
Definition PORTAL_CTRL_WAIT : Z := 6.
Definition PORTAL_CTRL_GET_REQ : Z := 7.
Definition PORTAL_CTRL_REPLY : Z := 8.

Record portal_ctrl_config := mk_pcfg {
  cf_cmd : Z;
  cf_client_id : Z;
  cf_server_id : Z;
  cf_va : Z;
  cf_va_size : Z;
  cf_req : Z;
  cf_out : Z;
  cf_ret : Z;
}.

Definition cf_set_cmd (v : Z) (c : portal_ctrl_config) : portal_ctrl_config :=
  mk_pcfg v (cf_client_id c) (cf_server_id c) (cf_va c) (cf_va_size c) (cf_req c) (cf_out c) (cf_ret c).
Definition cf_set_req (v : Z) (c : portal_ctrl_config) : portal_ctrl_config :=
  mk_pcfg (cf_cmd c) (cf_client_id c) (cf_server_id c) (cf_va c) (cf_va_size c) v (cf_out c) (cf_ret c).
Definition cf_set_out (v : Z) (c : portal_ctrl_config) : portal_ctrl_config :=
  mk_pcfg (cf_cmd c) (cf_client_id c) (cf_server_id c) (cf_va c) (cf_va_size c) (cf_req c) v (cf_ret c).
Definition cf_set_ret (v : Z) (c : portal_ctrl_config) : portal_ctrl_config :=
  mk_pcfg (cf_cmd c) (cf_client_id c) (cf_server_id c) (cf_va c) (cf_va_size c) (cf_req c) (cf_out c) v.
Definition cf_set_buffer (va size : Z) (c : portal_ctrl_config) : portal_ctrl_config :=
  mk_pcfg (cf_cmd c) (cf_client_id c) (cf_server_id c) va size (cf_req c) (cf_out c) (cf_ret c).

Definition sizeof_portal : Z := 32.
Definition sizeof_portal_req : Z := 44.
(** include/kernel/uapi.h *)
Definition PORTAL_ID_NAMESPACE : Z := 1.

(** ** The statics of portal.c and the objects they reach, beside the kernel *)

Record pstate (A U V : Type) := mk_pstate {
  ps_k : kernel A U (vm V);
  ps_portals : gmap Z portal;
  ps_reqs : gmap Z portal_req;
  portal_header : list Z;
  portal_lock : option nat;
  portal_next_id : Z;
  portal_scall_handle : Z;
}.
Arguments mk_pstate {A U V}.
Arguments ps_k {A U V}.
Arguments ps_portals {A U V}.
Arguments ps_reqs {A U V}.
Arguments portal_header {A U V}.
Arguments portal_lock {A U V}.
Arguments portal_next_id {A U V}.
Arguments portal_scall_handle {A U V}.

Section portal.
Context {LY : Layout} {A U V : Type} `{!Allocator A, !Allocator V}.
Notation kernel := (kernel A U (vm V)).
Notation pstate := (pstate A U V).

Definition set_ps_k (k : kernel) (s : pstate) : pstate :=
  mk_pstate k (ps_portals s) (ps_reqs s) (portal_header s) (portal_lock s) (portal_next_id s) (portal_scall_handle s).
Definition set_ps_portals (m : gmap Z portal) (s : pstate) : pstate :=
  mk_pstate (ps_k s) m (ps_reqs s) (portal_header s) (portal_lock s) (portal_next_id s) (portal_scall_handle s).
Definition set_ps_reqs (m : gmap Z portal_req) (s : pstate) : pstate :=
  mk_pstate (ps_k s) (ps_portals s) m (portal_header s) (portal_lock s) (portal_next_id s) (portal_scall_handle s).
Definition set_portal_header (l : list Z) (s : pstate) : pstate :=
  mk_pstate (ps_k s) (ps_portals s) (ps_reqs s) l (portal_lock s) (portal_next_id s) (portal_scall_handle s).
Definition set_portal_next_id (v : Z) (s : pstate) : pstate :=
  mk_pstate (ps_k s) (ps_portals s) (ps_reqs s) (portal_header s) (portal_lock s) v (portal_scall_handle s).

#[export] Instance pstate_kernel : Contains pstate kernel.
Proof. refine {| part := ps_k; set_part := set_ps_k |}; try done. by intros []. Defined.

Definition kz {B} (m : M kernel B) : M pstate B := @zoom _ _ pstate_kernel _ m.

Definition get_portal (p : Z) : M pstate portal := deref (λ s, ps_portals s !! p).
Definition get_req (r : Z) : M pstate portal_req := deref (λ s, ps_reqs s !! r).
Definition upd_portal (p : Z) (f : portal → portal) : M pstate unit :=
  c ← get_portal p; modify (λ s, set_ps_portals (<[p := f c]> (ps_portals s)) s).
Definition upd_req (r : Z) (f : portal_req → portal_req) : M pstate unit :=
  c ← get_req r; modify (λ s, set_ps_reqs (<[r := f c]> (ps_reqs s)) s).

Definition plock : M pstate unit := l ← gets portal_lock; kz (zoom (spinlock_lock l));; mret tt.
Definition punlock : M pstate unit := l ← gets portal_lock; kz (zoom (spinlock_unlock l));; mret tt.

(** ** Lookups *)

Definition portal_run_direct : M pstate bool :=
  r3 ← kz arch_running_ring3;
  g ← kz arch_in_gate;
  mret (negb r3 && g).

Fixpoint find_portal (hit : portal → bool) (ps : list Z) : M pstate Z :=
  match ps with
  | [] => mret 0
  | p :: ps => c ← get_portal p; if hit c then mret p else find_portal hit ps
  end.

Definition portal_search (hit : portal → bool) : M pstate Z :=
  plock;;
  ps ← gets portal_header;
  p ← find_portal hit ps;
  punlock;;
  mret p.

Definition portal_get_by_id (id : Z) : M pstate Z := portal_search (λ c, po_id c =? id).
Definition portal_get_by_tid (tid : Z) : M pstate Z := portal_search (λ c, u32 (po_tid c) =? tid).

(** ** The commands: the answer and the configuration as it is left *)

Context `{!Gate kernel proc_thread_ctrl_config}.
Notation answer := (Z * portal_ctrl_config)%type.
Implicit Types cfg : portal_ctrl_config.

Definition exec_init cfg : M pstate answer :=
  p ← kz (kzoom (kmalloc sizeof_portal));
  if p =? 0 then mret (E_NOMEM, cfg) else
  taken ← (if cf_server_id cfg =? 0 then mret false else
           q ← portal_get_by_id (cf_server_id cfg); mret (negb (q =? 0)));
  if (taken : bool) then kz (kzoom (kfree p));; mret (E_EXISTS, cfg) else
  next ← gets portal_next_id;
  let id := if cf_server_id cfg =? 0 then next else cf_server_id cfg in
  (if next <=? id then modify (set_portal_next_id (id +u 1)) else mret tt);;
  pid ← kz proc_get_pid;
  tid ← kz thread_get_tid;
  sem ← kz (semaphore_create 0);
  if sem =? 0 then kz (kzoom (kfree p));; mret (E_NOMEM, cfg) else
  plock;;
  modify (λ s, set_portal_header (p :: portal_header s)
                 (set_ps_portals (<[p := mk_portal id pid tid [] sem]> (ps_portals s)) s));;
  punlock;;
  mret (0, cf_set_out id cfg).

(** [r->done_sem && semaphore_has_waiters(r->done_sem)] for some request. *)
Fixpoint some_waiter (rs : list Z) : M pstate bool :=
  match rs with
  | [] => mret false
  | r :: rs =>
      c ← get_req r;
      w ← (if rq_done_sem c =? 0 then mret 0 else kz (semaphore_has_waiters (rq_done_sem c)));
      if w =? 0 then some_waiter rs else mret true
  end.

(** Unlink, destroy and free each queued request of portal [p]. *)
Fixpoint drop_reqs (p : Z) (rs : list Z) : M pstate unit :=
  match rs with
  | [] => mret tt
  | r :: rs =>
      c ← get_req r;
      upd_portal p (λ c, portal_set_reqs (remove r (po_reqs c)) c);;
      (if rq_done_sem c =? 0 then mret 0 else kz (semaphore_destroy (rq_done_sem c)));;
      modify (λ s, set_ps_reqs (delete r (ps_reqs s)) s);;
      kz (kzoom (kfree r));;
      drop_reqs p rs
  end.

Definition exec_destroy cfg : M pstate answer :=
  p ← portal_get_by_id (cf_server_id cfg);
  if p =? 0 then mret (E_NOTFOUND, cfg) else
  plock;;
  c ← get_portal p;
  w ← (if po_req_sem c =? 0 then mret 0 else kz (semaphore_has_waiters (po_req_sem c)));
  if negb (w =? 0) then punlock;; mret (E_BUSY, cfg) else
  busy ← some_waiter (po_reqs c);
  if (busy : bool) then punlock;; mret (E_BUSY, cfg) else
  drop_reqs p (po_reqs c);;
  modify (λ s, set_portal_header (remove p (portal_header s)) s);;
  punlock;;
  (if po_req_sem c =? 0 then mret 0 else kz (semaphore_destroy (po_req_sem c)));;
  modify (λ s, set_ps_portals (delete p (ps_portals s)) s);;
  kz (kzoom (kfree p));;
  mret (0, cfg).

Definition exec_call cfg : M pstate answer :=
  p ← portal_get_by_id (cf_server_id cfg);
  if p =? 0 then mret (E_NOTFOUND, cfg) else
  c ← get_portal p;
  sh ← kz (shm_share (po_pid c) (cf_va cfg) (cf_va_size cfg));
  let cfg := match sh.2 with Some va => cf_set_out va cfg | None => cfg end in
  if negb (sh.1 =? 0) then mret (sh.1, cfg) else
  req ← kz (kzoom (kmalloc sizeof_portal_req));
  if req =? 0 then kz (shm_unshare (po_pid c) (cf_out cfg));; mret (E_NOMEM, cfg) else
  tid ← kz thread_get_tid;
  sem ← kz (semaphore_create 0);
  if sem =? 0 then
    kz (shm_unshare (po_pid c) (cf_out cfg));; kz (kzoom (kfree req));; mret (E_NOMEM, cfg)
  else
  let r := mk_req (u32 tid) (po_pid c) (cf_out cfg) (cf_va_size cfg) 0 sem (mk_resp 0 0 0) in
  plock;;
  modify (λ s, set_ps_reqs (<[req := r]> (ps_reqs s)) s);;
  upd_portal p (λ c, portal_set_reqs (req :: po_reqs c) c);;
  punlock;;
  m ← kz (get_sem (po_req_sem c));
  kz (semaphore_signal (sem_id m));;
  mret (0, cf_set_req req cfg).

Definition exec_wait_reply cfg : M pstate answer :=
  if cf_req cfg =? 0 then mret (E_INVAL, cfg) else
  r ← get_req (cf_req cfg);
  if rq_done_sem r =? 0 then mret (E_INVAL, cfg) else
  m ← kz (get_sem (rq_done_sem r));
  kz (semaphore_wait (sem_id m));;
  mret (0, cfg).

Definition exec_get_result cfg : M pstate answer :=
  if cf_req cfg =? 0 then mret (E_INVAL, cfg) else
  r ← get_req (cf_req cfg);
  mret (0, cf_set_ret (rs_ret (rq_resp r)) cfg).

(** "list_del(&req->this_node)": off whatever portal it is queued on. *)
Definition unlink_req (req : Z) : M pstate unit :=
  modify (λ s, set_ps_portals ((λ c, portal_set_reqs (remove req (po_reqs c)) c) <$> ps_portals s) s).

Definition exec_cleanup cfg : M pstate answer :=
  if cf_req cfg =? 0 then mret (E_INVAL, cfg) else
  r ← get_req (cf_req cfg);
  ret ← (if rq_shm_va r =? 0 then mret 0 else kz (shm_unshare (rq_server_pid r) (rq_shm_va r)));
  plock;;
  (if rq_dequeued r =? 0 then unlink_req (cf_req cfg) else mret tt);;
  punlock;;
  (if rq_done_sem r =? 0 then mret 0 else kz (semaphore_destroy (rq_done_sem r)));;
  modify (λ s, set_ps_reqs (delete (cf_req cfg) (ps_reqs s)) s);;
  kz (kzoom (kfree (cf_req cfg)));;
  mret (ret, cfg).

Definition exec_wait cfg : M pstate answer :=
  tid ← kz thread_get_tid;
  p ← portal_get_by_tid (u32 tid);
  if p =? 0 then mret (E_NOTFOUND, cfg) else
  c ← get_portal p;
  m ← kz (get_sem (po_req_sem c));
  kz (semaphore_wait (sem_id m));;
  mret (0, cfg).

Definition exec_get_req cfg : M pstate answer :=
  tid ← kz thread_get_tid;
  p ← portal_get_by_tid (u32 tid);
  if p =? 0 then mret (E_NOTFOUND, cfg) else
  plock;;
  c ← get_portal p;
  req ← match po_reqs c with
        | [] => mret 0
        | req :: _ =>
            upd_portal p (λ c, portal_set_reqs (remove req (po_reqs c)) c);;
            upd_req req req_dequeue;;
            mret req
        end;
  punlock;;
  if req =? 0 then mret (0, cf_set_req 0 cfg) else
  r ← get_req req;
  mret (0, cf_set_buffer (rq_shm_va r) (rq_shm_size r) (cf_set_req req cfg)).

Definition exec_reply cfg : M pstate answer :=
  if cf_req cfg =? 0 then mret (E_INVAL, cfg) else
  r ← get_req (cf_req cfg);
  if rq_done_sem r =? 0 then mret (E_INVAL, cfg) else
  upd_req (cf_req cfg) (req_set_ret (cf_ret cfg));;
  m ← kz (get_sem (rq_done_sem r));
  kz (semaphore_signal (sem_id m));;
  mret (0, cfg).

Definition portal_exec cfg : M pstate answer :=
  if cf_cmd cfg =? PORTAL_CTRL_INIT then exec_init cfg else
  if cf_cmd cfg =? PORTAL_CTRL_DESTROY then exec_destroy cfg else
  if cf_cmd cfg =? PORTAL_CTRL_CALL then exec_call cfg else
  if cf_cmd cfg =? PORTAL_CTRL_WAIT_REPLY then exec_wait_reply cfg else
  if cf_cmd cfg =? PORTAL_CTRL_GET_RESULT then exec_get_result cfg else
  if cf_cmd cfg =? PORTAL_CTRL_CLEANUP then exec_cleanup cfg else
  if cf_cmd cfg =? PORTAL_CTRL_WAIT then exec_wait cfg else
  if cf_cmd cfg =? PORTAL_CTRL_GET_REQ then exec_get_req cfg else
  if cf_cmd cfg =? PORTAL_CTRL_REPLY then exec_reply cfg else
  mret (E_INVAL, cfg).

(** The entry from ring 3; a null pointer is [None]. *)
Definition portal_syscall_isr (data : option portal_ctrl_config) : M pstate (Z * option portal_ctrl_config) :=
  match data with
  | None => mret (E_INVAL, None)
  | Some cfg =>
      proc ← kz get_current_process;
      denied ← (if proc =? 0 then mret false else kz (ipc_denied proc));
      if (denied : bool) then mret (E_PERM, Some (cf_set_ret E_PERM cfg)) else
      r ← portal_exec cfg;
      mret (r.1, Some r.2)
  end.

(** ** The public interface *)

Context `{!Gate pstate portal_ctrl_config}.

(** [arch_syscall] with the handle of the portal call. *)
Definition portal_trap cfg : M pstate answer :=
  h ← gets portal_scall_handle;
  n ← kz (gets irq_reenter_cnt);
  if n =? -1 then int_100 h cfg else mret (E_AGAIN, cfg).

Definition portal_run cfg : M pstate answer :=
  d ← portal_run_direct;
  if (d : bool) then portal_exec cfg else portal_trap cfg.

Definition portal_config (cmd : Z) : portal_ctrl_config := mk_pcfg cmd 0 0 0 0 0 0 0.

(** The answer and, on success, what is stored through [out_id]. *)
Definition portal_init_fixed (want_id : Z) (out_id : bool) : M pstate (Z * option Z) :=
  if negb out_id then mret (E_INVAL, None) else
  r ← portal_run (mk_pcfg PORTAL_CTRL_INIT 0 want_id 0 0 0 0 0);
  if negb (r.1 =? 0) then mret (r.1, None) else mret (0, Some (cf_out r.2)).

Definition portal_init (out_id : bool) : M pstate (Z * option Z) := portal_init_fixed 0 out_id.

Definition portal_destroy (portal_id : Z) : M pstate Z :=
  r ← portal_run (mk_pcfg PORTAL_CTRL_DESTROY 0 portal_id 0 0 0 0 0);
  mret r.1.

Definition portal_call (portal_id va size : Z) : M pstate Z :=
  r1 ← portal_run (mk_pcfg PORTAL_CTRL_CALL 0 portal_id va size 0 0 0);
  if negb (r1.1 =? 0) then mret r1.1 else
  let req := cf_req r1.2 in
  if req =? 0 then mret E_INVAL else
  r2 ← portal_run (cf_set_cmd PORTAL_CTRL_WAIT_REPLY r1.2);
  r3 ← portal_run (cf_set_req req (cf_set_cmd PORTAL_CTRL_GET_RESULT r2.2));
  let ret := cf_ret r3.2 in
  portal_run (cf_set_req req (cf_set_cmd PORTAL_CTRL_CLEANUP r3.2));;
  mret ret.

(** The handle (0 for none), the address and the size of the payload. *)
Definition portal_wait (portal_id : Z) : M pstate (Z * Z * Z) :=
  r1 ← portal_run (mk_pcfg PORTAL_CTRL_WAIT portal_id 0 0 0 0 0 0);
  r2 ← portal_run (cf_set_cmd PORTAL_CTRL_GET_REQ r1.2);
  if cf_req r2.2 =? 0 then mret (0, 0, 0) else
  mret (cf_req r2.2, cf_va r2.2, cf_va_size r2.2).

Definition portal_reply (req resp_ret : Z) : M pstate Z :=
  r ← portal_run (mk_pcfg PORTAL_CTRL_REPLY 0 0 0 0 req 0 resp_ret);
  mret r.1.
End portal.

(** ** The parts, run *)

Section run.
Context {LY : Layout} {A U V : Type} `{!Allocator A, !Allocator V}.
Notation kernel := (kernel A U (vm V)).
Notation pstate := (pstate A U V).
Implicit Types s : pstate.

Lemma kz_run {B} (m : M kernel B) s b k : m (ps_k s) = Ret b k → kz m s = Ret b (set_ps_k k s).
Proof. apply (zoom_Ret (Contains0 := pstate_kernel)). Qed.

Lemma set_ps_k_id s : set_ps_k (ps_k s) s = s.
Proof. by destruct s. Qed.

Lemma kz_read {B} (m : M kernel B) s b : m (ps_k s) = Ret b (ps_k s) → kz m s = Ret b s.
Proof. intros H%kz_run. by rewrite set_ps_k_id in H. Qed.

(** The portals' lock is free and the list of portals is what it links. *)
Record at_ease s (l : nat) : Prop := {
  ae_lock : portal_lock s = Some l;
  ae_free : (k_mach (ps_k s)).2 !! l = Some LOCK_UNLOCKED;
  ae_linked : ∀ p, p ∈ portal_header s → p ≠ 0 ∧ is_Some (ps_portals s !! p);
}.

Definition pheld (l : nat) s : pstate := set_ps_k (hold l (ps_k s)) s.

Lemma plock_run s l :
  portal_lock s = Some l → (k_mach (ps_k s)).2 !! l = Some LOCK_UNLOCKED → plock s = Ret tt (pheld l s).
Proof.
  intros Hl Hu. unfold plock. erewrite (bind_Ret (gets portal_lock)); [|reflexivity]. rewrite Hl.
  erewrite bind_Ret; [|apply kz_run, zoom_Ret; by apply (spinlock_lock_free _ _ _ Hu)]. done.
Qed.

Lemma punlock_run s1 (m : cpu * lock_table) l :
  portal_lock s1 = Some l → k_mach (ps_k s1) = (m.1, <[l := LOCK_LOCKED]> m.2) → m.2 !! l = Some LOCK_UNLOCKED →
  punlock s1 = Ret tt (set_ps_k (set_k_mach m (ps_k s1)) s1).
Proof.
  intros Hl Hm Hu. unfold punlock. erewrite (bind_Ret (gets portal_lock)); [|reflexivity]. rewrite Hl.
  pose proof (lookup_lt_Some _ _ _ Hu) as Hlt.
  erewrite bind_Ret; [|apply kz_run, zoom_Ret; apply spinlock_unlock_eq; simpl; rewrite Hm; cbn [snd]; by rewrite length_insert].
  unfold mret, M_ret. do 2 f_equal. simpl. rewrite Hm. cbn [fst snd]. rewrite list_insert_insert_eq, list_insert_id by done.
  by destruct m.
Qed.

Lemma pheld_id l s : set_ps_k (set_k_mach (k_mach (ps_k s)) (ps_k (pheld l s))) (pheld l s) = s.
Proof. destruct s as [k]. by destruct k. Qed.

(** Leaving a section that did not touch the kernel. *)
Lemma relocked l s s1 :
  ps_k s1 = hold l (ps_k s) → set_ps_k (set_k_mach (k_mach (ps_k s)) (ps_k s1)) s1 = set_ps_k (ps_k s) s1.
Proof. intros ->. by rewrite hold_id. Qed.

(** The first portal of the list that is wanted. *)
Definition found (hit : portal → bool) s : option Z :=
  List.find (λ p, match ps_portals s !! p with Some c => hit c | None => false end) (portal_header s).

Lemma find_portal_run (hit : portal → bool) s ps :
  (∀ p, p ∈ ps → p ≠ 0 ∧ is_Some (ps_portals s !! p)) →
  find_portal hit ps s = Ret (default 0 (List.find (λ p, match ps_portals s !! p with Some c => hit c | None => false end) ps)) s.
Proof.
  induction ps as [|p ps IH]; intros Hps; [done|]. cbn [find_portal List.find].
  destruct (Hps p ltac:(left)) as [_ [c Hc]]. rewrite (bind_Ret _ _ _ c s), Hc by (by apply deref_Some).
  destruct (hit c); [done|]. apply IH. intros q Hq. apply Hps. by right.
Qed.

Lemma portal_search_run hit s l :
  at_ease s l → portal_search hit s = Ret (default 0 (found hit s)) s.
Proof.
  intros [Hl Hu Hps]. unfold portal_search. rewrite (bind_Ret _ _ _ _ _ (plock_run s l Hl Hu)).
  erewrite (bind_Ret (gets portal_header)); [|reflexivity].
  rewrite (bind_Ret _ _ _ _ _ (find_portal_run hit (pheld l s) _ Hps)).
  rewrite (bind_Ret _ _ _ _ _ (punlock_run (pheld l s) (k_mach (ps_k s)) l Hl eq_refl Hu)), pheld_id. done.
Qed.

Lemma found_spec hit s l :
  at_ease s l →
  match found hit s with
  | Some p => p ≠ 0 ∧ p ∈ portal_header s ∧ ∃ c, ps_portals s !! p = Some c ∧ hit c = true
  | None => ∀ p c, p ∈ portal_header s → ps_portals s !! p = Some c → hit c = false
  end.
Proof.
  intros [_ _ Hps]. unfold found. destruct (List.find _ _) as [p|] eqn:E.
  - apply List.find_some in E as [Hin%list_elem_of_In Hp]. destruct (Hps p Hin) as [Hnz [c Hc]].
    rewrite Hc in Hp. split_and!; [done|done|]. by exists c.
  - intros p c Hin Hc. apply list_elem_of_In in Hin. pose proof (List.find_none _ _ E p Hin) as Hp. simpl in Hp.
    by rewrite Hc in Hp.
Qed.

Lemma upd_portal_run p f s c :
  ps_portals s !! p = Some c → upd_portal p f s = Ret tt (set_ps_portals (<[p := f c]> (ps_portals s)) s).
Proof. intros H. unfold upd_portal. by rewrite (bind_Ret _ _ _ c s) by (by apply deref_Some). Qed.

Lemma upd_req_run r f s c :
  ps_reqs s !! r = Some c → upd_req r f s = Ret tt (set_ps_reqs (<[r := f c]> (ps_reqs s)) s).
Proof. intros H. unfold upd_req. by rewrite (bind_Ret _ _ _ c s) by (by apply deref_Some). Qed.
End run.

(** ** Opening a portal *)

Section theorems.
Context {LY : Layout} {A U V : Type} `{!Allocator A, !Allocator V}.
Notation kernel := (kernel A U (vm V)).
Notation pstate := (pstate A U V).
Context `{!Gate kernel proc_thread_ctrl_config}.
Implicit Types (s : pstate) (cfg : portal_ctrl_config) (k : kernel).

(** The numbers of the portals differ, and lie below the next one. *)
Definition ids_ok s : Prop :=
  PORTAL_ID_NAMESPACE < portal_next_id s < 4294967296 ∧
  (∀ p c, p ∈ portal_header s → ps_portals s !! p = Some c → 0 < po_id c < portal_next_id s) ∧
  ∀ p q c d, p ∈ portal_header s → q ∈ portal_header s → ps_portals s !! p = Some c → ps_portals s !! q = Some d →
    po_id c = po_id d → p = q.

(** What the code of portal.c needs of the kernel: the heap with its
    addresses in use, the semaphores' lock, the running thread. *)
Record ready_kernel (k : kernel) (L : gset Z) (ls : nat) (c : tcb) (pc : pcb) : Prop := {
  rk_heap : owns (k_heap k) L;
  rk_lock : semaphore_lock k = Some ls;
  rk_free : (k_mach k).2 !! ls = Some LOCK_UNLOCKED;
  rk_wqs : ∀ p, p ∉ L → wqs k !! sem_wq p = None;
  rk_run : thread_run k ≠ 0;
  rk_tcb : tcbs k !! thread_run k = Some c;
  rk_pcb : pcbs k !! t_parent c = Some pc;
}.

Lemma ready_tid k L ls c pc : ready_kernel k L ls c pc → thread_get_tid k = Ret (t_tid c) k.
Proof.
  intros Hk. unfold thread_get_tid. erewrite (bind_Ret (gets thread_run)); [|reflexivity].
  rewrite (proj2 (Z.eqb_neq _ _) (rk_run _ _ _ _ _ Hk)).
  by rewrite (bind_Ret _ _ _ c k) by (by apply deref_Some, (rk_tcb _ _ _ _ _ Hk)).
Qed.

Lemma ready_pid k L ls c pc : ready_kernel k L ls c pc → proc_get_pid k = Ret (p_pid pc) k.
Proof.
  intros Hk. unfold proc_get_pid. erewrite (bind_Ret (gets thread_run)); [|reflexivity].
  rewrite (proj2 (Z.eqb_neq _ _) (rk_run _ _ _ _ _ Hk)).
  rewrite (bind_Ret _ _ _ c k) by (by apply deref_Some, (rk_tcb _ _ _ _ _ Hk)).
  by rewrite (bind_Ret _ _ _ pc k) by (by apply deref_Some, (rk_pcb _ _ _ _ _ Hk)).
Qed.

Lemma ready_heap k L ls c pc h L' :
  ready_kernel k L ls c pc → owns h L' → L ⊆ L' → ready_kernel (set_k_heap h k) L' ls c pc.
Proof. intros [] Ho HL. split; try done. intros p Hp. simpl. by set_solver. Qed.

Lemma at_ease_heap s l h : at_ease s l → at_ease (set_ps_k (set_k_heap h (ps_k s)) s) l.
Proof. by intros []. Qed.

(** The number a new portal gets. *)
Definition new_id (want : Z) s : Z := if want =? 0 then portal_next_id s else want.

Lemma id_taken_run s l want :
  at_ease s l →
  ∃ b, (if want =? 0 then mret false else q ← portal_get_by_id want; mret (negb (q =? 0))) s = Ret b s ∧
    if (b : bool) then want ≠ 0 ∧ ∃ p d, p ∈ portal_header s ∧ ps_portals s !! p = Some d ∧ po_id d = want
    else ∀ p d, p ∈ portal_header s → ps_portals s !! p = Some d → want = 0 ∨ po_id d ≠ want.
Proof.
  intros Hae. destruct (Z.eqb_spec want 0) as [->|Hw]; [exists false; split; [done|]; by left|].
  unfold portal_get_by_id. rewrite (bind_Ret _ _ _ _ _ (portal_search_run _ s l Hae)).
  pose proof (found_spec (λ c, po_id c =? want) s l Hae) as Hfs. destruct (found _ s) as [q|]; cbn [default from_option id].
  - destruct Hfs as (Hq & Hin & d & Hd & Hi%Z.eqb_eq). rewrite (proj2 (Z.eqb_neq q 0)) by done.
    exists true. split; [done|]. split; [done|]. by exists q, d.
  - exists false. split; [done|]. intros p d Hin Hd. right. by apply Z.eqb_neq, (Hfs p).
Qed.

Lemma exec_init_run s l L ls c pc cfg :
  at_ease s l → ready_kernel (ps_k s) L ls c pc → (∀ p, p ∈ portal_header s → p ∈ L) →
  let want := cf_server_id cfg in
  let next := if portal_next_id s <=? new_id want s then new_id want s +u 1 else portal_next_id s in
  (∃ p h d, want ≠ 0 ∧ p ∈ portal_header s ∧ ps_portals s !! p = Some d ∧ po_id d = want ∧ owns h L ∧
     exec_init cfg s = Ret (E_EXISTS, cfg) (set_ps_k (set_k_heap h (ps_k s)) s)) ∨
  (∃ h n, owns h L ∧ (n = portal_next_id s ∨ n = next ∧
       ∀ p d, p ∈ portal_header s → ps_portals s !! p = Some d → want = 0 ∨ po_id d ≠ want) ∧
     exec_init cfg s = Ret (E_NOMEM, cfg) (set_portal_next_id n (set_ps_k (set_k_heap h (ps_k s)) s))) ∨
  (∃ p sem i h, (∀ q d, q ∈ portal_header s → ps_portals s !! q = Some d → want = 0 ∨ po_id d ≠ want) ∧
     p ∉ L ∧ 0 < p ∧ owns h ({[sem]} ∪ ({[p]} ∪ L)) ∧ sem ∉ {[p]} ∪ L ∧
     (k_mach (ps_k s)).2 !! i = Some LOCK_INVALID ∧
     exec_init cfg s = Ret (0, cf_set_out (new_id want s) cfg)
       (set_portal_header (p :: portal_header s)
         (set_ps_portals (<[p := mk_portal (new_id want s) (p_pid pc) (t_tid c) [] sem]> (ps_portals s))
           (set_portal_next_id next (set_ps_k (sem_new sem 0 i h (ps_k s)) s))))).
Proof.
  intros Hae Hk HL want next. unfold exec_init.
  destruct (kmalloc_ok (k_heap (ps_k s)) L sizeof_portal (rk_heap _ _ _ _ _ Hk)) as [(h & Em & Ho)|(p & h & Em & Hp & HpL & Ho)];
    [done|..]; rewrite (bind_Ret _ _ _ _ _ (kz_run _ s _ _ (zoom_heap _ (ps_k s) _ _ Em))).
  { right. left. exists h, (portal_next_id s). split_and!; [done|by left|]. cbn [Z.eqb]. by destruct s. }
  rewrite (proj2 (Z.eqb_neq p 0)) by lia. set (s1 := set_ps_k (set_k_heap h (ps_k s)) s).
  assert (Hae1 : at_ease s1 l) by (by apply at_ease_heap). fold want.
  destruct (id_taken_run s1 l want Hae1) as (b & Et & Hb). rewrite (bind_Ret _ _ _ _ _ Et).
  assert (Hfree : ∀ h1 (s2 : pstate), k_heap (ps_k s2) = h1 → owns h1 ({[p]} ∪ L) →
    ∃ h', kz (kzoom (kfree p)) s2 = Ret tt (set_ps_k (set_k_heap h' (ps_k s2)) s2) ∧ owns h' L).
  { intros h1 s2 E1 Ho1. destruct (kfree_ok h1 ({[p]} ∪ L) p Ho1 ltac:(set_solver)) as (h' & Ek & Ho'). exists h'.
    split; [apply kz_run, zoom_heap; by rewrite E1|by replace L with (({[p]} ∪ L) ∖ {[p]}) by set_solver]. }
  destruct b.
  { left. destruct Hb as (Hw & q & d & Hq & Hd & Hi). destruct (Hfree h s1 eq_refl Ho) as (h' & Ek & Ho').
    rewrite (bind_Ret _ _ _ _ _ Ek). exists q, h', d. by split_and!. }
  right. erewrite (bind_Ret (gets portal_next_id)); [|reflexivity].
  change (portal_next_id s1) with (portal_next_id s). fold (new_id want s).
  assert (En : (if portal_next_id s <=? new_id want s then modify (set_portal_next_id (new_id want s +u 1)) else mret tt) s1
    = Ret tt (set_portal_next_id next s1)).
  { unfold next. destruct (_ <=? _); [done|by destruct s]. }
  rewrite (bind_Ret _ _ _ _ _ En). set (s2 := set_portal_next_id next s1).
  assert (Hk1 : ready_kernel (ps_k s2) ({[p]} ∪ L) ls c pc) by (eapply ready_heap; [done|done|set_solver]).
  rewrite (bind_Ret _ _ _ _ _ (kz_read _ s2 _ (ready_pid _ _ _ _ _ Hk1))).
  rewrite (bind_Ret _ _ _ _ _ (kz_read _ s2 _ (ready_tid _ _ _ _ _ Hk1))).
  destruct (semaphore_create_run (ps_k s2) 0 ls ({[p]} ∪ L) (rk_heap _ _ _ _ _ Hk1) (rk_lock _ _ _ _ _ Hk1)
    (rk_free _ _ _ _ _ Hk1) (rk_wqs _ _ _ _ _ Hk1)) as [(h2 & Es & Ho2)|(sem & i & h2 & Es & Hsem & HsL & Ho2 & Hi)];
    rewrite (bind_Ret _ _ _ _ _ (kz_run _ s2 _ _ Es)).
  { left. rewrite Z.eqb_refl. destruct (Hfree h2 (set_ps_k (set_k_heap h2 (ps_k s2)) s2) eq_refl Ho2) as (h' & Ek & Ho').
    rewrite (bind_Ret _ _ _ _ _ Ek). exists h', next. split_and!; [done|by right|]. by destruct s. }
  right. rewrite (proj2 (Z.eqb_neq sem 0)) by lia. exists p, sem, i, h2.
  split_and!; [exact Hb|done|lia|done|done|exact Hi|].
  change (ps_k s2) with (set_k_heap h (ps_k s)) in *. rewrite sem_new_heap.
  assert (Hl3 : (k_mach (sem_new sem 0 i h2 (ps_k s))).2 !! l = Some LOCK_UNLOCKED).
  { simpl. rewrite list_lookup_insert_ne; [apply Hae|]. intros ->. pose proof (ae_free _ _ Hae) as Hu. simpl in Hi. congruence. }
  generalize dependent (sem_new sem 0 i h2 (ps_k s)). intros k3 Hl3. set (s3 := set_ps_k k3 s2).
  rewrite (bind_Ret _ _ _ _ _ (plock_run s3 l (ae_lock _ _ Hae) Hl3)). rewrite (bind_Ret (modify _) _ _ tt _ eq_refl).
  erewrite bind_Ret; [|apply (punlock_run _ (k_mach (ps_k s3)) l); [exact (ae_lock _ _ Hae)|reflexivity|exact Hl3]].
  by rewrite (relocked l) by reflexivity.
Qed.

(** The numbers stay distinct when a new one is added. *)
Lemma ids_ok_add s p d n :
  ids_ok s → p ∉ portal_header s → 0 < po_id d < 4294967295 → portal_next_id s < 4294967295 →
  (∀ q e, q ∈ portal_header s → ps_portals s !! q = Some e → po_id e ≠ po_id d) →
  n = (if portal_next_id s <=? po_id d then po_id d +u 1 else portal_next_id s) →
  ∀ s', portal_header s' = p :: portal_header s → ps_portals s' = <[p := d]> (ps_portals s) → portal_next_id s' = n →
  ids_ok s'.
Proof.
  intros (Hn & Hb & Hd) Hp Hid Hnx Hne -> s' E1 E2 E3.
  assert (Hnext : portal_next_id s <= portal_next_id s' < 4294967296 ∧ po_id d < portal_next_id s').
  { rewrite E3. destruct (Z.leb_spec (portal_next_id s) (po_id d)); [|lia].
    rewrite u32_small by (unfold is_u32, PORTAL_ID_NAMESPACE in *; lia). unfold PORTAL_ID_NAMESPACE in *. lia. }
  assert (Hl : ∀ q e, q ∈ portal_header s' → ps_portals s' !! q = Some e →
    q = p ∧ e = d ∨ q ∈ portal_header s ∧ ps_portals s !! q = Some e).
  { rewrite E1, E2. intros q e [->|Hq]%elem_of_cons He; [left; rewrite lookup_insert_eq in He; split; congruence|right].
    split; [done|]. rewrite lookup_insert_ne in He; [done|]. by intros ->. }
  split_and!; [unfold PORTAL_ID_NAMESPACE in *; lia|lia| |].
  - intros q e Hq He. destruct (Hl q e Hq He) as [[-> ->]|[Hq' He']]; [lia|]. specialize (Hb q e Hq' He'). lia.
  - intros q r e f Hq Hr He Hf Eq.
    destruct (Hl q e Hq He) as [[-> ->]|[Hq' He']], (Hl r f Hr Hf) as [[-> ->]|[Hr' Hf']]; [done| | |by apply (Hd q r e f)].
    + by destruct (Hne r f Hr' Hf').
    + by destruct (Hne q e Hq' He').
Qed.

(** Opening a portal always returns, keeps the numbers of all portals
    distinct and gives the caller's thread a new, empty portal: the number it
    asked for (E_EXISTS exactly when that one is open), or the next free one,
    which is never the well-known number of the name server.  When memory or
    semaphores run out nothing is linked.  The counter must not be at the end
    of its range. *)
Theorem portal_init_unique_ids s l L ls c pc want :
  at_ease s l → ready_kernel (ps_k s) L ls c pc → (∀ p, p ∈ portal_header s → p ∈ L) → ids_ok s →
  portal_next_id s < 4294967295 → 0 <= want < 4294967295 →
  ∃ r cfg' s', portal_exec (mk_pcfg PORTAL_CTRL_INIT 0 want 0 0 0 0 0) s = Ret (r, cfg') s' ∧ ids_ok s' ∧
    (r = E_EXISTS ↔ want ≠ 0 ∧ r ≠ E_NOMEM ∧ ∃ p d, p ∈ portal_header s ∧ ps_portals s !! p = Some d ∧ po_id d = want) ∧
    (r = 0 ∧ (∃ p sem, p ∉ portal_header s ∧ portal_header s' = p :: portal_header s ∧ cf_out cfg' = new_id want s ∧
       ps_portals s' = <[p := mk_portal (new_id want s) (p_pid pc) (t_tid c) [] sem]> (ps_portals s) ∧
       (want = 0 → new_id want s ≠ PORTAL_ID_NAMESPACE)) ∨
     (r = E_EXISTS ∨ r = E_NOMEM) ∧ portal_header s' = portal_header s ∧ ps_portals s' = ps_portals s).
Proof.
  intros Hae Hk HL Hids Hnx Hw. pose proof Hids as (Hn & Hb & Hd). unfold PORTAL_ID_NAMESPACE in *.
  set (cfg := mk_pcfg PORTAL_CTRL_INIT 0 want 0 0 0 0 0). change (portal_exec cfg s) with (exec_init cfg s).
  destruct (exec_init_run s l L ls c pc cfg Hae Hk HL) as
    [(p & h & d & H0 & Hin & Hp & Hi & Ho & E)|[(h & n & Ho & Hnn & E)|(p & sem & i & h & Hfr & HpL & Hp & Ho & HsL & Hi & E)]];
    cbv zeta in *; change (cf_server_id cfg) with want in *; rewrite E; (do 3 eexists; split; [reflexivity|]).
  - split; [by destruct s|]. split; [|by right; auto]. split; [|done]. intros _. split_and!; [done|done|]. by exists p, d.
  - split.
    + assert (0 < new_id want s < 4294967295) by (unfold new_id; destruct (Z.eqb_spec want 0); lia).
      assert (portal_next_id s <= n < 4294967296) as Hn'.
      { destruct Hnn as [->|[-> _]]; [lia|]. destruct (Z.leb_spec (portal_next_id s) (new_id want s)); [|lia].
        rewrite u32_small by (unfold is_u32; lia). lia. }
      split_and!; [simpl; unfold PORTAL_ID_NAMESPACE; lia|simpl; lia| |done]. intros q e Hq He. specialize (Hb q e Hq He). simpl. lia.
    + split; [|by right; auto]. split; [done|]. by intros (_ & ? & _).
  - assert (Hpn : p ∉ portal_header s) by (intros Hin; by apply HpL, HL).
    assert (Hni : 0 < new_id want s < 4294967295) by (unfold new_id; destruct (Z.eqb_spec want 0); lia).
    assert (Hne : ∀ q e, q ∈ portal_header s → ps_portals s !! q = Some e → po_id e ≠ new_id want s).
    { intros q e Hq He. unfold new_id. destruct (Z.eqb_spec want 0) as [->|].
      - specialize (Hb q e Hq He). lia.
      - by destruct (Hfr q e Hq He). }
    split; [|split].
    + eapply (ids_ok_add s p (mk_portal (new_id want s) (p_pid pc) (t_tid c) [] sem)); done.
    + split; [done|]. intros (Hw0 & _ & q & e & Hq & He & Hi'). by destruct (Hfr q e Hq He).
    + left. split; [done|]. exists p, sem. split_and!; try done. intros ->. unfold new_id. simpl. lia.
Qed.

(** From ring 3 every portal command passes the CAP_IPC gate first: a user
    process without the grant gets E_PERM, in the answer and in the
    configuration, and nothing in the kernel changes, whatever the command and
    its arguments are; a process with the grant, or a kernel process, reaches
    the command. *)
Theorem portal_isr_guarded s proc pc lc cfg :
  current (ps_k s) proc → cap_holder (ps_k s) proc pc lc → caps_u32 (p_caps pc) →
  (¬ may_ipc pc → portal_syscall_isr (Some cfg) s = Ret (E_PERM, Some (cf_set_ret E_PERM cfg)) s) ∧
  (may_ipc pc → portal_syscall_isr (Some cfg) s = (r ← portal_exec cfg; mret (r.1, Some r.2)) s).
Proof.
  intros Hc Hh Hu. unfold portal_syscall_isr.
  rewrite (bind_Ret _ _ _ _ _ (kz_read _ s _ (current_run (ps_k s) proc Hc))).
  rewrite (proj2 (Z.eqb_neq proc 0)) by apply Hh.
  destruct (ipc_denied_run (ps_k s) proc pc lc Hh Hu) as (b & E & Hb).
  rewrite (bind_Ret _ _ _ _ _ (kz_read _ s _ E)). destruct b; split; intros H; try done.
  - by apply Hb in H.
  - by destruct (H (proj1 Hb eq_refl)).
Qed.

(** ** Calling *)

Lemma queue_ok_new k sc sem wq q l v i h :
  queue_ok k sc wq q l → wq ≠ sem_wq sem → (k_mach k).2 !! i = Some LOCK_INVALID →
  queue_ok (sem_new sem v i h k) sc wq q l.
Proof.
  intros [H1 H2 H3 H4 H5 H6 H7 H8] Hw Hi. split; try done.
  - simpl. by rewrite lookup_insert_ne.
  - simpl. rewrite list_lookup_insert_ne; [done|]. intros ->. congruence.
Qed.

Lemma sem_ok_new k sc ls sem m q l new v i h :
  sem_ok k sc ls sem m q l → new ≠ sem → new ≠ 0 → (k_mach k).2 !! i = Some LOCK_INVALID →
  sem_id m ≠ next_sem_id k →
  sem_ok (sem_new new v i h k) sc ls sem m q l.
Proof.
  intros [H1 H2 H3 H4 H5 H6 H7 H8] Hn Hn0 Hi Hid. split; try done.
  - simpl. rewrite list_lookup_insert_ne; [done|]. intros ->. congruence.
  - simpl. by rewrite lookup_insert_ne.
  - intros x Hx. simpl in Hx |- *. destruct (decide (x = new)) as [->|Hxn]; [rewrite lookup_insert_eq; eauto|].
    rewrite lookup_insert_ne by done. apply H4. by apply elem_of_cons in Hx as [->|?].
  - simpl. by right.
  - intros x m' Hx. simpl in Hx |- *. destruct (decide (x = new)) as [->|Hxn].
    + rewrite lookup_insert_eq. intros [= <-] E. by destruct Hid.
    + rewrite lookup_insert_ne by done. apply H6. by apply elem_of_cons in Hx as [->|?].
  - apply queue_ok_new; [done| |done]. unfold sem_wq. lia.
Qed.

Lemma sched_ok_new k sc sem v i h :
  sched_ok k sc → (k_mach k).2 !! i = Some LOCK_INVALID → sched_ok (sem_new sem v i h k) sc.
Proof. intros Hok Hi. destruct (sched_ok_with_lock i (set_k_heap h k) sc Hi ltac:(by destruct Hok)). by split. Qed.

Lemma regranted_sem_ok k target pt caps h w sc ls sem m q l :
  sem_ok k sc ls sem m q l → sem_ok (regranted k target pt caps h w) sc ls sem m q l.
Proof. intros [H1 H2 H3 H4 H5 H6 [] H8]. by split. Qed.

(** What one signal does. *)
Definition signalled (sem : Z) (m : semaphore) (q : wait_queue) (k : kernel) : kernel :=
  if sem_value m + 1 <=? 0 then woken_one (sem_wq sem) q (inc k sem m) else inc k sem m.

(** A client that may call the portal at [p]: both processes at rest, the
    portal's semaphore consistent, every object in allocated memory. *)
Record callable s (l sc : nat) (p : Z) (d : portal) (curr target : Z) (pc pt : pcb) (lc lt : nat) (LK L : gset Z)
    (cc ct : vmm_control_block) (nsc nst : list Z) (rsc rst : list vmm_region)
    (ls : nat) (c : tcb) (m : semaphore) (q : wait_queue) (lq : nat) : Prop := {
  ca_ease : at_ease s l;
  ca_portal : ps_portals s !! p = Some d;
  ca_share : sharing (ps_k s) sc (po_pid d) curr target pc pt lc lt LK L cc ct nsc nst rsc rst;
  ca_kernel : ready_kernel (ps_k s) LK ls c pc;
  ca_gate : in_gate (ps_k s);
  ca_sem : sem_ok (ps_k s) sc ls (po_req_sem d) m q lq;
  ca_value : -2147483648 <= sem_value m < 2147483647;
  ca_fresh : sem_id m ≠ next_sem_id (ps_k s);
  ca_alloc : po_req_sem d ∈ LK ∧ dom (ps_reqs s) ⊆ LK;
}.
Arguments ca_ease {s l sc p d curr target pc pt lc lt LK L cc ct nsc nst rsc rst ls c m q lq}.
Arguments ca_portal {s l sc p d curr target pc pt lc lt LK L cc ct nsc nst rsc rst ls c m q lq}.
Arguments ca_share {s l sc p d curr target pc pt lc lt LK L cc ct nsc nst rsc rst ls c m q lq}.
Arguments ca_kernel {s l sc p d curr target pc pt lc lt LK L cc ct nsc nst rsc rst ls c m q lq}.
Arguments ca_gate {s l sc p d curr target pc pt lc lt LK L cc ct nsc nst rsc rst ls c m q lq}.
Arguments ca_sem {s l sc p d curr target pc pt lc lt LK L cc ct nsc nst rsc rst ls c m q lq}.
Arguments ca_value {s l sc p d curr target pc pt lc lt LK L cc ct nsc nst rsc rst ls c m q lq}.
Arguments ca_fresh {s l sc p d curr target pc pt lc lt LK L cc ct nsc nst rsc rst ls c m q lq}.
Arguments ca_alloc {s l sc p d curr target pc pt lc lt LK L cc ct nsc nst rsc rst ls c m q lq}.

(** The kernel after the client's memory was shared: the base state with other
    grants, heap and address spaces. *)
Lemma shared_form k target pt LK L ct nst rst pa size o k1 :
  shared k target pt LK L ct nst rst pa size o k1 →
  ∃ x y h w, o = Some x ∧ x ≠ 0 ∧
    k1 = regranted k target pt ((y, mk_cap CAP_MAP_MEM (share_cap pa size)) :: p_caps pt) h w ∧
    y ∉ LK ∧ owns h ({[y]} ∪ LK) ∧
    (∀ h' LK', LK ⊆ LK' → y ∉ LK' → owns h' ({[y]} ∪ LK') →
       shared k target pt LK' L ct nst rst pa size o
         (regranted k target pt ((y, mk_cap CAP_MAP_MEM (share_cap pa size)) :: p_caps pt) h' w)).
Proof.
  intros (y & h & p & va & t & ns1 & ns2 & rs1 & rs2 & w & Ex & Ek & Hy & Ho & R).
  assert (va + pa mod 4096 ≠ 0) as Hx.
  { destruct R as (_ & _ & _ & _ & _ & (_ & P2 & _) & _). unfold USER_HEAP_END in P2.
    pose proof (Z.mod_pos_bound pa 4096 ltac:(lia)). lia. }
  exists (va + pa mod 4096), y, h, w. split_and!; try done. intros h' LK' _ Hy' Ho'.
  exists y, h', p, va, t, ns1, ns2, rs1, rs2, w. exact (conj Ex (conj eq_refl (conj Hy' (conj Ho' R)))).
Qed.

(** Queueing the request and waking the server. *)
Definition post_request (p : Z) (d : portal) (req : Z) (r : portal_req) cfg : M pstate (Z * portal_ctrl_config) :=
  plock;;
  modify (λ s, set_ps_reqs (<[req := r]> (ps_reqs s)) s);;
  upd_portal p (λ c, portal_set_reqs (req :: po_reqs c) c);;
  punlock;;
  m ← kz (get_sem (po_req_sem d));
  kz (semaphore_signal (sem_id m));;
  mret (0, cf_set_req req cfg).

Lemma post_request_run s k l sc ls p d req r cfg m q lq :
  portal_lock s = Some l → (k_mach k).2 !! l = Some LOCK_UNLOCKED → ps_portals s !! p = Some d →
  in_gate k → sched_ok k sc → sem_ok k sc ls (po_req_sem d) m q lq → -2147483648 <= sem_value m < 2147483647 →
  post_request p d req r cfg (set_ps_k k s)
  = Ret (0, cf_set_req req cfg)
      (set_ps_portals (<[p := portal_set_reqs (req :: po_reqs d) d]> (ps_portals s))
        (set_ps_reqs (<[req := r]> (ps_reqs s)) (set_ps_k (signalled (po_req_sem d) m q k) s))).
Proof.
  intros Hl Hu Hp Hg Hok Hs Hv. unfold post_request. rewrite (bind_Ret _ _ _ _ _ (plock_run (set_ps_k k s) l Hl Hu)).
  rewrite (bind_Ret (modify _) _ _ tt _ eq_refl). erewrite bind_Ret; [|by apply upd_portal_run].
  erewrite bind_Ret; [|apply (punlock_run _ (k_mach k) l); [exact Hl|reflexivity|exact Hu]].
  rewrite (relocked l (set_ps_k k s)) by reflexivity. set (s1 := set_ps_k _ _).
  rewrite (bind_Ret _ _ _ m s1) by (apply kz_read, deref_Some, Hs).
  erewrite bind_Ret; [|apply kz_run; exact (semaphore_signal_run k sc ls _ m q lq Hg Hok Hs Hv)].
  reflexivity.
Qed.

Lemma refused_heap k target pt LK L ct nst rst k1 x h :
  refused k target pt ({[x]} ∪ LK) L ct nst rst k1 → x ∉ LK → owns h LK →
  refused k target pt LK L ct nst rst (set_k_heap h k1).
Proof. intros (h1 & w & -> & _ & Hw) _ Ho. exists h, w. by split_and!. Qed.

Lemma refused_owns k target pt LK L ct nst rst k1 : refused k target pt LK L ct nst rst k1 → owns (k_heap k1) LK.
Proof. by intros (h & w & -> & Ho & _). Qed.

Lemma regranted_ready k target pt caps h w L ls c pc L' :
  ready_kernel k L ls c pc → pcbs k !! target = Some pt → owns h L' → L ⊆ L' →
  ∃ pc', ready_kernel (regranted k target pt caps h w) L' ls c pc'.
Proof.
  intros [H1 H2 H3 H4 H5 H6 H7] Ht Ho HL. destruct (decide (t_parent c = target)) as [E|Hne].
  - exists (pcb_caps caps pt). split; try done; [intros p Hp; simpl; set_solver|]. simpl. by rewrite E, lookup_insert_eq.
  - exists pc. split; try done; [intros p Hp; simpl; set_solver|]. simpl. by rewrite lookup_insert_ne.
Qed.

(** Taking the memory back after a failure. *)
Lemma unshare_run s sc pid curr target pc pt lc lt LK L cc ct nsc nst rsc rst pa size x k1 :
  sharing (ps_k s) sc pid curr target pc pt lc lt LK L cc ct nsc nst rsc rst → may_ipc pc →
  is_u32 pa → 0 < size → pa + size <= 4294963200 → shared (ps_k s) target pt LK L ct nst rst pa size (Some x) k1 →
  ∃ k2, kz (shm_unshare pid x) (set_ps_k k1 s) = Ret 0 (set_ps_k k2 s) ∧ refused (ps_k s) target pt LK L ct nst rst k2.
Proof.
  intros Hsh Hm Hpa Hsz He Hs.
  destruct (shm_unshare_run _ _ _ _ _ _ _ _ _ _ _ _ _ _ _ _ _ pa size x k1 Hsh Hm Hpa Hsz He Hs) as (k2 & E & Hr).
  exists k2. split; [|done]. exact (kz_run _ (set_ps_k k1 s) _ _ E).
Qed.

Lemma sharing_more k sc pid curr target pc pt lc lt LK LK' L cc ct nsc nst rsc rst :
  sharing k sc pid curr target pc pt lc lt LK L cc ct nsc nst rsc rst → LK ⊆ LK' →
  sharing k sc pid curr target pc pt lc lt LK' L cc ct nsc nst rsc rst.
Proof. intros [H1 H2 H3 H4 H5 H6 [H7 H7'] H8 H9 H10] HL. split; try done. split; [done|set_solver]. Qed.

(** A request that was queued: record [r] at [req], the kernel [k1] with a
    semaphore for the reply, the server woken. *)
Definition posted s p d m q cfg req sem i h k1 (tid x : Z) : pstate :=
  set_ps_portals (<[p := portal_set_reqs (req :: po_reqs d) d]> (ps_portals s))
    (set_ps_reqs (<[req := mk_req (u32 tid) (po_pid d) x (cf_va_size cfg) 0 sem (mk_resp 0 0 0)]> (ps_reqs s))
      (set_ps_k (signalled (po_req_sem d) m q (sem_new sem 0 i h k1)) s)).

Lemma exec_call_run s l sc p d curr target pc pt lc lt LK L cc ct nsc nst rsc rst ls c m q lq cfg :
  callable s l sc p d curr target pc pt lc lt LK L cc ct nsc nst rsc rst ls c m q lq →
  found (λ c, po_id c =? cf_server_id cfg) s = Some p →
  USER_HEAP_END <= cf_va cfg < 4294967296 → 0 < cf_va_size cfg < 4294967296 →
  ∃ r cfg' s', exec_call cfg s = Ret (r, cfg') s' ∧
    (r ≠ 0 ∧ (∃ k', s' = set_ps_k k' s ∧ refused (ps_k s) target pt LK L ct nst rst k') ∨
     r = 0 ∧ may_ipc pc ∧ ∃ req sem i h k1 y x pa, cfg' = cf_set_req req (cf_set_out x cfg) ∧
       s' = posted s p d m q cfg req sem i h k1 (t_tid c) x ∧ req ∉ LK ∧ req ≠ 0 ∧ sem ∉ LK ∧ sem ≠ req ∧ sem ≠ 0 ∧
       y ∉ LK ∧ pcbs k1 = <[target := pcb_caps ((y, mk_cap CAP_MAP_MEM (share_cap pa (cf_va_size cfg))) :: p_caps pt) pt]> (pcbs (ps_k s)) ∧
       owns h ({[sem]} ∪ ({[req]} ∪ ({[y]} ∪ LK))) ∧ is_u32 pa ∧ pa + cf_va_size cfg <= 4294963200 ∧
       shared (ps_k s) target pt LK L ct nst rst pa (cf_va_size cfg) (Some x) k1 ∧
       (∀ i, 0 <= i < cf_va_size cfg → ∃ b, look (v_pg (k_vm (ps_k s))) (v_cr3 cc) (cf_va cfg + i) = Some (pa + i, b))).
Proof.
  intros Hc Hf Hva Hsz. pose proof (ca_ease Hc) as Hae. pose proof (ca_share Hc) as Hsh. pose proof (ca_kernel Hc) as Hk.
  pose proof (found_spec (λ c, po_id c =? cf_server_id cfg) s l Hae) as Hfs. rewrite Hf in Hfs. destruct Hfs as (Hp0 & _ & _).
  unfold exec_call, portal_get_by_id. rewrite (bind_Ret _ _ _ _ _ (portal_search_run _ s l Hae)), Hf. cbn [default from_option id].
  rewrite (proj2 (Z.eqb_neq p 0)) by done. rewrite (bind_Ret _ _ _ d s) by (by apply deref_Some, (ca_portal Hc)).
  destruct (shm_share_run _ _ _ _ _ _ _ _ _ _ _ _ _ _ _ _ _ (cf_va cfg) (cf_va_size cfg) Hsh (rk_heap _ _ _ _ _ Hk) Hva Hsz)
    as (r & o & k1 & E & _ & Hres). rewrite (bind_Ret _ _ _ _ _ (kz_run _ s _ _ E)). cbn [fst snd].
  destruct Hres as [(Hr & -> & Hrf)|(-> & Hm & pa & Hpa & He & Hs & Hbytes)].
  { rewrite (proj2 (Z.eqb_neq r 0)) by done. exists r, cfg, (set_ps_k k1 s). split; [done|left]. split; [done|]. by exists k1. }
  destruct (shared_form _ _ _ _ _ _ _ _ _ _ _ _ Hs) as (x & y & h & w & -> & Hx0 & -> & Hy & Ho & Hmore).
  cbn [Z.eqb negb]. set (kf := λ h, regranted (ps_k s) target pt ((y, mk_cap CAP_MAP_MEM (share_cap pa (cf_va_size cfg))) :: p_caps pt) h w).
  fold (kf h). assert (Hkh : ∀ h h', set_k_heap h' (kf h) = kf h') by done.
  destruct (kmalloc_ok h ({[y]} ∪ LK) sizeof_portal_req Ho) as [(h1 & Em & Ho1)|(req & h1 & Em & Hq & HqL & Ho1)]; [done|..];
    rewrite (bind_Ret _ _ _ _ _ (kz_run _ (set_ps_k (kf h) s) _ _ (zoom_heap _ (kf h) _ _ Em))); cbn [ps_k set_ps_k]; rewrite Hkh.
  { destruct (unshare_run s _ _ _ _ _ _ _ _ _ _ _ _ _ _ _ _ pa (cf_va_size cfg) x (kf h1) Hsh Hm Hpa ltac:(lia) He
      (Hmore h1 LK ltac:(done) Hy Ho1)) as (k2 & Eu & Hrf).
    rewrite Z.eqb_refl, (bind_Ret _ _ _ _ _ Eu). eexists _, _, _. split; [reflexivity|left]. split; [done|]. by exists k2. }
  rewrite (proj2 (Z.eqb_neq req 0)) by lia. destruct (sh_target Hsh) as [Hht _].
  destruct (regranted_ready (ps_k s) target pt ((y, mk_cap CAP_MAP_MEM (share_cap pa (cf_va_size cfg))) :: p_caps pt) h1 w LK ls c pc
    ({[req]} ∪ ({[y]} ∪ LK)) Hk (ch_pcb _ _ _ _ Hht) Ho1 ltac:(set_solver)) as (pc' & Hk1). fold (kf h1) in Hk1.
  fold (set_ps_k (kf h1) s). rewrite (bind_Ret _ _ _ _ _ (kz_read _ (set_ps_k (kf h1) s) _ (ready_tid _ _ _ _ _ Hk1))).
  destruct (semaphore_create_run (kf h1) 0 ls ({[req]} ∪ ({[y]} ∪ LK)) Ho1 (rk_lock _ _ _ _ _ Hk1)
    (rk_free _ _ _ _ _ Hk1) (rk_wqs _ _ _ _ _ Hk1)) as [(h2 & Es & Ho2)|(sem & i & h2 & Es & Hsem & HsL & Ho2 & Hi)];
    rewrite (bind_Ret _ _ _ _ _ (kz_run _ (set_ps_k (kf h1) s) _ _ Es)).
  { rewrite Z.eqb_refl, Hkh. cbn [cf_out cf_set_out].
    destruct (unshare_run s _ _ _ _ _ _ _ _ ({[req]} ∪ LK) _ _ _ _ _ _ _ pa (cf_va_size cfg) x (kf h2)
      (sharing_more _ _ _ _ _ _ _ _ _ _ ({[req]} ∪ LK) _ _ _ _ _ _ _ Hsh ltac:(set_solver)) Hm Hpa ltac:(lia) He
      (Hmore h2 ({[req]} ∪ LK) ltac:(set_solver) ltac:(set_solver)
        ltac:(by replace ({[y]} ∪ ({[req]} ∪ LK)) with ({[req]} ∪ ({[y]} ∪ LK)) by set_solver))) as (k2 & Eu & Hrf).
    change (set_ps_k (kf h2) (set_ps_k (kf h1) s)) with (set_ps_k (kf h2) s). rewrite (bind_Ret _ _ _ _ _ Eu).
    destruct (kfree_ok (k_heap k2) ({[req]} ∪ LK) req (refused_owns _ _ _ _ _ _ _ _ _ Hrf) ltac:(set_solver)) as (h3 & Ef & Ho3).
    rewrite (bind_Ret _ _ _ _ _ (kz_run _ (set_ps_k k2 s) _ _ (zoom_heap _ k2 _ _ Ef))).
    eexists _, _, _. split; [reflexivity|left]. split; [done|]. exists (set_k_heap h3 k2). split; [done|].
    apply (refused_heap _ _ _ _ _ _ _ _ _ req); [done|set_solver|].
    by replace LK with (({[req]} ∪ LK) ∖ {[req]}) by set_solver. }
  rewrite (proj2 (Z.eqb_neq sem 0)) by lia. cbv zeta. cbn [cf_out cf_set_out cf_va_size].
  change (set_ps_k (sem_new sem 0 i h2 (kf h1)) (set_ps_k (kf h1) s)) with (set_ps_k (sem_new sem 0 i h2 (kf h1)) s).
  assert (Hsok : sem_ok (sem_new sem 0 i h2 (kf h1)) sc ls (po_req_sem d) m q lq).
  { apply sem_ok_new; [apply regranted_sem_ok, (ca_sem Hc)| |lia|exact Hi|exact (ca_fresh Hc)].
    intros ->. apply HsL. destruct (ca_alloc Hc). set_solver. }
  assert (Hl : (k_mach (sem_new sem 0 i h2 (kf h1))).2 !! l = Some LOCK_UNLOCKED).
  { simpl. rewrite list_lookup_insert_ne; [apply Hae|]. intros ->. pose proof (ae_free _ _ Hae). simpl in Hi. congruence. }
  assert (Hsc : sched_ok (sem_new sem 0 i h2 (kf h1)) sc) by (apply sched_ok_new; [by destruct (sh_sched Hsh)|done]).
  eexists _, _, _. split; [|right; split_and!; [reflexivity|done|]].
  - exact (post_request_run s _ l sc ls p d req (mk_req (u32 (t_tid c)) (po_pid d) x (cf_va_size cfg) 0 sem (mk_resp 0 0 0))
      (cf_set_out x cfg) m q lq (ae_lock _ _ Hae) Hl (ca_portal Hc) (ca_gate Hc) Hsc Hsok (ca_value Hc)).
  - exists req, sem, i, h2, (kf h), y, x, pa. rewrite <- (Hkh h h1), sem_new_heap.
    split_and!; try done; try lia; set_solver.
Qed.

Lemma signalled_wakes k sem m q t ts :
  sem_value m < 0 → wq_waiters q = t :: ts → is_Some (tcbs k !! t) → ready (signalled sem m q k) t = true.
Proof.
  intros Hv Hq [c Hc]. unfold signalled. rewrite (proj2 (Z.leb_le _ _)) by lia. unfold woken_one. rewrite Hq.
  unfold ready. rewrite upd_lookup, decide_True by done. unfold dequeue.
  change (tcbs (on_wq _ _ ?k)) with (tcbs k). rewrite upd_lookup, decide_True by done.
  change (tcbs (inc k sem m)) with (tcbs k). by rewrite Hc.
Qed.

(** What a signal leaves alone, and what it does to the semaphores. *)
Lemma signalled_rest k sem m q :
  k_vm (signalled sem m q k) = k_vm k ∧ pcbs (signalled sem m q k) = pcbs k ∧ k_heap (signalled sem m q k) = k_heap k ∧
  sems (signalled sem m q k) = alter (sem_set_value (sem_value m + 1)) sem (sems k) ∧
  ∀ x, x ≠ sem_wq sem → wqs (signalled sem m q k) !! x = wqs k !! x.
Proof.
  unfold signalled, woken_one. destruct (_ <=? _); [|done]. destruct (wq_waiters q); [done|].
  split_and!; try reflexivity. intros x Hx. by apply lookup_alter_ne.
Qed.

(** The kernel of a posted request: the shared memory stays shared, the
    portal's counter is one up, the reply has a new semaphore at zero. *)
Lemma posted_kernel s p d m q cfg req sem i h k1 tid x :
  sems k1 !! po_req_sem d = Some m → sem ≠ po_req_sem d →
  let k' := ps_k (posted s p d m q cfg req sem i h k1 tid x) in
  k_vm k' = k_vm k1 ∧ pcbs k' = pcbs k1 ∧ k_heap k' = h ∧
  sems k' !! po_req_sem d = Some (sem_set_value (sem_value m + 1) m) ∧
  sems k' !! sem = Some (mk_sem (next_sem_id k1) 0) ∧ wqs k' !! sem_wq sem = Some (mk_wq [] (Some i)).
Proof.
  intros Hm Hne. change (ps_k (posted _ _ _ _ _ _ _ _ _ _ _ _ _)) with (signalled (po_req_sem d) m q (sem_new sem 0 i h k1)).
  cbv zeta. destruct (signalled_rest (sem_new sem 0 i h k1) (po_req_sem d) m q) as (-> & -> & -> & -> & Hw).
  split_and!; try reflexivity.
  - rewrite lookup_alter_eq. cbn. by rewrite lookup_insert_ne, Hm.
  - rewrite lookup_alter_ne by done. apply lookup_insert_eq.
  - rewrite Hw by (unfold sem_wq; lia). apply lookup_insert_eq.
Qed.

(** C29: PORTAL_CTRL_CALL of a client's buffer always returns, and does all of
    its work or none.  On success one new request is the newest of the
    portal and its handle goes to the client; in the state the call leaves,
    every byte of the buffer is mapped in the server, at the address the
    request names, to the very frame byte behind it in the client, and the
    server's one new grant is for those pages; the portal's semaphore is
    posted (its counter one up) and a server that slept on it is ready to
    run; the request has a semaphore of its own, at zero with nobody waiting;
    and the heap holds the grant, the request and that semaphore more.  On
    failure - no IPC right, memory that cannot be shared, no memory for the
    request or its semaphore - the portals, the requests, the heap, the
    server's grants and every address space are as before. *)
Theorem portal_call_all_or_nothing s l sc p d curr target pc pt lc lt LK L cc ct nsc nst rsc rst ls c m q lq id va size :
  callable s l sc p d curr target pc pt lc lt LK L cc ct nsc nst rsc rst ls c m q lq →
  found (λ c, po_id c =? id) s = Some p → USER_HEAP_END <= va < 4294967296 → 0 < size < 4294967296 →
  ∃ r cfg' s', portal_exec (mk_pcfg PORTAL_CTRL_CALL 0 id va size 0 0 0) s = Ret (r, cfg') s' ∧
    (r ≠ 0 → ∃ k', s' = set_ps_k k' s ∧ refused (ps_k s) target pt LK L ct nst rst k') ∧
    (r = 0 → may_ipc pc ∧ ∃ req sem x k1 pa y j, cf_req cfg' = req ∧ cf_out cfg' = x ∧
       req ∉ LK ∧ sem ∉ LK ∧ y ∉ LK ∧ sem ≠ req ∧
       ps_portals s' = <[p := portal_set_reqs (req :: po_reqs d) d]> (ps_portals s) ∧
       ps_reqs s' = <[req := mk_req (u32 (t_tid c)) (po_pid d) x size 0 sem (mk_resp 0 0 0)]> (ps_reqs s) ∧
       portal_header s' = portal_header s ∧
       shared (ps_k s) target pt LK L ct nst rst pa size (Some x) k1 ∧
       k_vm (ps_k s') = k_vm k1 ∧
       pcbs (ps_k s') = <[target := pcb_caps ((y, mk_cap CAP_MAP_MEM (share_cap pa size)) :: p_caps pt) pt]> (pcbs (ps_k s)) ∧
       owns (k_heap (ps_k s')) ({[sem]} ∪ ({[req]} ∪ ({[y]} ∪ LK))) ∧
       (∀ i, 0 <= i < size → ∃ b, look (v_pg (k_vm (ps_k s))) (v_cr3 cc) (va + i) = Some (pa + i, b) ∧
          look (v_pg (k_vm (ps_k s'))) (v_cr3 ct) (x + i) = Some (pa + i, true)) ∧
       sems (ps_k s') !! po_req_sem d = Some (sem_set_value (sem_value m + 1) m) ∧
       sems (ps_k s') !! sem = Some (mk_sem (next_sem_id (ps_k s)) 0) ∧
       wqs (ps_k s') !! sem_wq sem = Some (mk_wq [] (Some j)) ∧
       (∀ t ts, wq_waiters q = t :: ts → ready (ps_k s') t = true)).
Proof.
  intros Hc Hf Hva Hsz. set (cfg := mk_pcfg PORTAL_CTRL_CALL 0 id va size 0 0 0).
  change (portal_exec cfg s) with (exec_call cfg s).
  destruct (exec_call_run s l sc p d curr target pc pt lc lt LK L cc ct nsc nst rsc rst ls c m q lq cfg Hc Hf Hva Hsz)
    as (r & cfg' & s' & E & [(Hr & Hrf)|(-> & Hm & req & sem & j & h & k1 & y & x & pa & -> & -> & Hq & _ & Hs & Hsq & _ & Hy & Hp & Ho & Hpa & _ & Hsh & Hb)]);
    exists r || exists 0; do 2 eexists; (split; [exact E|]); [by split|].
  split; [done|]. intros _. split; [done|]. exists req, sem, x, k1, pa, y, j.
  pose proof (ca_sem Hc) as Hsem. pose proof (shared_bytes _ _ _ _ _ _ _ _ _ _ _ _ Hpa Hsz Hsh) as Hsee.
  assert (Hk1 : sems k1 = sems (ps_k s) ∧ tcbs k1 = tcbs (ps_k s) ∧ next_sem_id k1 = next_sem_id (ps_k s)).
  { by destruct Hsh as (y' & h' & p' & va' & t' & ns1 & ns2 & rs1 & rs2 & w & _ & -> & _). }
  destruct Hk1 as (Hk1 & Hk2 & Hk3).
  destruct (posted_kernel s p d m q cfg req sem j h k1 (t_tid c) x) as (K1 & K2 & K3 & K4 & K5 & K6).
  { rewrite Hk1. exact (sm_obj _ _ _ _ _ _ _ Hsem). }
  { intros ->. by apply Hs, (proj1 (ca_alloc Hc)). }
  rewrite K1, K2, K3, K4, K5, K6, Hk3, Hp. split_and!; try done.
  - intros i Hi. destruct (Hb i Hi) as (b & Eb). exists b. split; [exact Eb|by apply Hsee].
  - intros t ts Hw. pose proof (sm_count _ _ _ _ _ _ _ Hsem) as Hn. rewrite Hw in Hn. simpl in Hn.
    apply (signalled_wakes (sem_new sem 0 j h k1) (po_req_sem d) m q t ts); [lia|done|].
    destruct (qo_waiters _ _ _ _ _ (sm_queue _ _ _ _ _ _ _ Hsem) t) as (_ & e & He & _); [rewrite Hw; left|].
    exists e. by change (tcbs (sem_new sem 0 j h k1)) with (tcbs k1); rewrite Hk2.
Qed.

(** ** Serving *)

(** A portal whose queue holds different, live requests. *)
Definition queue_live s (d : portal) : Prop :=
  NoDup (po_reqs d) ∧ ∀ r, r ∈ po_reqs d → r ≠ 0 ∧ is_Some (ps_reqs s !! r).

Lemma exec_get_req_run s l L ls c pc p d cfg :
  at_ease s l → ready_kernel (ps_k s) L ls c pc →
  found (λ e, u32 (po_tid e) =? u32 (t_tid c)) s = Some p → ps_portals s !! p = Some d → queue_live s d →
  exec_get_req cfg s =
    match po_reqs d with
    | [] => Ret (0, cf_set_req 0 cfg) s
    | req :: rest =>
        match ps_reqs s !! req with
        | None => Fault
        | Some r => Ret (0, cf_set_buffer (rq_shm_va r) (rq_shm_size r) (cf_set_req req cfg))
            (set_ps_reqs (<[req := req_dequeue r]> (ps_reqs s))
              (set_ps_portals (<[p := portal_set_reqs rest d]> (ps_portals s)) s))
        end
    end.
Proof.
  intros Hae Hk Hf Hp [Hnd Hlive]. pose proof (found_spec (λ e, u32 (po_tid e) =? u32 (t_tid c)) s l Hae) as Hfs.
  rewrite Hf in Hfs. destruct Hfs as (Hp0 & _ & _). unfold exec_get_req.
  rewrite (bind_Ret _ _ _ _ _ (kz_read _ s _ (ready_tid _ _ _ _ _ Hk))). unfold portal_get_by_tid.
  rewrite (bind_Ret _ _ _ _ _ (portal_search_run _ s l Hae)), Hf. cbn [default from_option id].
  rewrite (proj2 (Z.eqb_neq p 0)) by done. rewrite (bind_Ret _ _ _ _ _ (plock_run s l (ae_lock _ _ Hae) (ae_free _ _ Hae))).
  rewrite (bind_Ret _ _ _ d (pheld l s)) by (by apply deref_Some). destruct (po_reqs d) as [|req rest] eqn:Er.
  - rewrite bind_ret. rewrite (bind_Ret _ _ _ _ _ (punlock_run (pheld l s) (k_mach (ps_k s)) l (ae_lock _ _ Hae) eq_refl (ae_free _ _ Hae))).
    by rewrite pheld_id.
  - destruct (Hlive req ltac:(left)) as [Hr0 [r Hr]]. rewrite Hr, bind_assoc.
    rewrite (bind_Ret _ _ _ tt _ (upd_portal_run p _ (pheld l s) d Hp)), bind_assoc.
    erewrite bind_Ret; [|apply upd_req_run; exact Hr]. rewrite bind_ret.
    erewrite bind_Ret; [|apply (punlock_run _ (k_mach (ps_k s)) l); [exact (ae_lock _ _ Hae)|reflexivity|exact (ae_free _ _ Hae)]].
    rewrite (relocked l s) by reflexivity. rewrite (proj2 (Z.eqb_neq req 0)) by done.
    erewrite bind_Ret; [|apply deref_Some; simpl; apply lookup_insert_eq]. cbn [rq_shm_va rq_shm_size req_dequeue].
    rewrite Er. assert (remove req (req :: rest) = rest) as ->; [|by destruct s].
    exact (remove_split [] rest req Hnd).
Qed.

(** PORTAL_CTRL_GET_REQ hands the server the newest request of its portal:
    the handle, and the address and size under which the payload is mapped
    there; the request leaves the queue and is marked, the others keep their
    order, and no other portal or request changes.  With an empty queue the
    handle is null and nothing changes. *)
Theorem portal_get_req_takes_newest s l L ls c pc p d :
  at_ease s l → ready_kernel (ps_k s) L ls c pc →
  found (λ e, u32 (po_tid e) =? u32 (t_tid c)) s = Some p → ps_portals s !! p = Some d → queue_live s d →
  ∃ cfg' s', portal_exec (portal_config PORTAL_CTRL_GET_REQ) s = Ret (0, cfg') s' ∧
    ps_k s' = ps_k s ∧ portal_header s' = portal_header s ∧
    (cf_req cfg' = 0 ↔ po_reqs d = []) ∧ (cf_req cfg' = 0 → s' = s) ∧
    (∀ req rest, po_reqs d = req :: rest → ∃ r, ps_reqs s !! req = Some r ∧ cf_req cfg' = req ∧
       cf_va cfg' = rq_shm_va r ∧ cf_va_size cfg' = rq_shm_size r ∧
       ps_portals s' = <[p := portal_set_reqs rest d]> (ps_portals s) ∧
       ps_reqs s' = <[req := req_dequeue r]> (ps_reqs s)).
Proof.
  intros Hae Hk Hf Hp Hq. change (portal_exec (portal_config PORTAL_CTRL_GET_REQ) s) with (exec_get_req (portal_config PORTAL_CTRL_GET_REQ) s).
  rewrite (exec_get_req_run s l L ls c pc p d) by done. destruct (po_reqs d) as [|req rest] eqn:Er.
  - eexists _, _. split; [reflexivity|]. by split_and!.
  - destruct Hq as [_ Hl]. destruct (Hl req) as [Hr0 [r Hr]]; [rewrite Er; left|]. rewrite Hr.
    eexists _, _. split; [reflexivity|]. split_and!; try done. intros req' rest' [= <- <-]. by exists r.
Qed.

(** A reply reaches the client: PORTAL_CTRL_REPLY stores the value in the
    request and returns 0, a client asleep on the request is ready to run
    afterwards, and PORTAL_CTRL_GET_RESULT of the same handle - there, and in
    every later state that still holds the request as the reply left it -
    returns that value.  No other request, no portal and no address space
    changes. *)
Theorem portal_reply_reaches_client s sc ls req r m q lq v :
  req ≠ 0 → ps_reqs s !! req = Some r → rq_done_sem r ≠ 0 →
  in_gate (ps_k s) → sched_ok (ps_k s) sc → sem_ok (ps_k s) sc ls (rq_done_sem r) m q lq →
  -2147483648 <= sem_value m < 2147483647 →
  ∃ s', portal_exec (mk_pcfg PORTAL_CTRL_REPLY 0 0 0 0 req 0 v) s = Ret (0, mk_pcfg PORTAL_CTRL_REPLY 0 0 0 0 req 0 v) s' ∧
    ps_reqs s' = <[req := req_set_ret v r]> (ps_reqs s) ∧ ps_portals s' = ps_portals s ∧
    portal_header s' = portal_header s ∧ k_vm (ps_k s') = k_vm (ps_k s) ∧
    (∀ t ts, wq_waiters q = t :: ts → ready (ps_k s') t = true) ∧
    ∀ s2 w, ps_reqs s2 !! req = ps_reqs s' !! req →
      portal_exec (mk_pcfg PORTAL_CTRL_GET_RESULT 0 0 0 0 req 0 w) s2
      = Ret (0, mk_pcfg PORTAL_CTRL_GET_RESULT 0 0 0 0 req 0 v) s2.
Proof.
  intros H0 Hr Hd Hg Hok Hs Hv. set (cfg := mk_pcfg PORTAL_CTRL_REPLY 0 0 0 0 req 0 v).
  exists (set_ps_k (signalled (rq_done_sem r) m q (ps_k s)) (set_ps_reqs (<[req := req_set_ret v r]> (ps_reqs s)) s)).
  split_and!; try done.
  - change (portal_exec cfg s) with (exec_reply cfg s). unfold exec_reply. cbn [cf_req cf_ret cfg].
    rewrite (proj2 (Z.eqb_neq req 0)) by done. rewrite (bind_Ret _ _ _ r s) by (by apply deref_Some).
    rewrite (proj2 (Z.eqb_neq _ 0) Hd). rewrite (bind_Ret _ _ _ _ _ (upd_req_run req _ s r Hr)). set (s1 := set_ps_reqs _ s).
    rewrite (bind_Ret _ _ _ m s1) by (apply kz_read, deref_Some, Hs).
    by rewrite (bind_Ret _ _ _ _ _ (kz_run _ s1 _ _ (semaphore_signal_run (ps_k s) sc ls _ m q lq Hg Hok Hs Hv))).
  - unfold signalled, woken_one. simpl. destruct (_ <=? _); [|done]. by destruct (wq_waiters q).
  - intros t ts Hw. pose proof (sm_count _ _ _ _ _ _ _ Hs) as Hn. rewrite Hw in Hn. simpl in Hn.
    destruct (qo_waiters _ _ _ _ _ (sm_queue _ _ _ _ _ _ _ Hs) t) as (_ & e & He & _); [rewrite Hw; left|].
    apply (signalled_wakes (ps_k s) _ m q t ts); [lia|done|by exists e].
  - intros s2 w E2. simpl in E2. rewrite lookup_insert_eq in E2.
    set (cf := mk_pcfg PORTAL_CTRL_GET_RESULT 0 0 0 0 req 0 w). change (portal_exec cf s2) with (exec_get_result cf s2).
    unfold exec_get_result. cbn [cf_req cf]. rewrite (proj2 (Z.eqb_neq req 0)) by done.
    by rewrite (bind_Ret _ _ _ (req_set_ret v r) s2) by (by apply deref_Some).
Qed.

(** ** Taking a request apart *)

Definition unlinked (req : Z) (m : gmap Z portal) : gmap Z portal :=
  (λ c, portal_set_reqs (remove req (po_reqs c)) c) <$> m.

Lemma sem_rest_same k k' sem q l :
  wqs k' = wqs k → k_mach k' = k_mach k → sem_rest k sem q l → sem_rest k' sem q l.
Proof. intros E1 E2 []. split; by rewrite ?E1, ?E2. Qed.

(** C30: PORTAL_CTRL_CLEANUP by the client returns 0 and takes apart what
    PORTAL_CTRL_CALL built: the window and the grant of the server are gone
    and every address space is as it was before the share, the request is on
    no queue any more, its record, its semaphore and their memory are freed,
    and nothing else of the heap, the portals and the requests changes. *)
Theorem portal_cleanup_undoes_call s k0 l sc req r curr target pc pt lc lt LK L cc ct nsc nst rsc rst pa size lq ls :
  at_ease s l → req ≠ 0 → ps_reqs s !! req = Some r →
  sharing k0 sc (rq_server_pid r) curr target pc pt lc lt LK L cc ct nsc nst rsc rst → may_ipc pc →
  is_u32 pa → 0 < size → pa + size <= 4294963200 →
  shared k0 target pt LK L ct nst rst pa size (Some (rq_shm_va r)) (ps_k s) → rq_shm_va r ≠ 0 →
  sem_rest (ps_k s) (rq_done_sem r) (mk_wq [] (Some lq)) lq → semaphore_lock (ps_k s) = Some ls →
  (k_mach (ps_k s)).2 !! ls = Some LOCK_UNLOCKED → req ∈ LK → rq_done_sem r ∈ LK → rq_done_sem r ≠ req →
  ∃ s' k2 h h', portal_exec (mk_pcfg PORTAL_CTRL_CLEANUP 0 0 0 0 req 0 0) s
      = Ret (0, mk_pcfg PORTAL_CTRL_CLEANUP 0 0 0 0 req 0 0) s' ∧
    refused k0 target pt LK L ct nst rst k2 ∧
    ps_k s' = set_k_heap h (sem_gone (rq_done_sem r) lq h' k2) ∧ owns h (LK ∖ {[rq_done_sem r]} ∖ {[req]}) ∧
    ps_reqs s' = delete req (ps_reqs s) ∧ portal_header s' = portal_header s ∧
    ps_portals s' = (if rq_dequeued r =? 0 then unlinked req (ps_portals s) else ps_portals s).
Proof.
  intros Hae H0 Hr Hsh Hm Hpa Hsz He Hs Hx Hsem Hls Hlu HqL HsL Hne. set (cfg := mk_pcfg PORTAL_CTRL_CLEANUP 0 0 0 0 req 0 0).
  destruct (shm_unshare_run _ _ _ _ _ _ _ _ _ _ _ _ _ _ _ _ _ pa size _ _ Hsh Hm Hpa Hsz He Hs) as (k2 & Eu & Hrf).
  assert (Hk2 : wqs k2 = wqs (ps_k s) ∧ k_mach k2 = k_mach (ps_k s) ∧ semaphore_lock k2 = semaphore_lock (ps_k s)).
  { destruct Hrf as (h & w & -> & _). by destruct Hs as (? & ? & ? & ? & ? & ? & ? & ? & ? & ? & _ & -> & _). }
  destruct Hk2 as (Ew & Ek & El). pose proof (refused_owns _ _ _ _ _ _ _ _ _ Hrf) as Ho.
  destruct (semaphore_destroy_run k2 (rq_done_sem r) (mk_wq [] (Some lq)) lq ls LK) as (h' & Ed & Ho'); try done.
  { by apply (sem_rest_same (ps_k s)). } { by rewrite El. } { by rewrite Ek. }
  destruct (kfree_ok h' (LK ∖ {[rq_done_sem r]}) req Ho' ltac:(set_solver)) as (h & Ef & Ho2).
  set (pm := if rq_dequeued r =? 0 then unlinked req (ps_portals s) else ps_portals s).
  exists (set_ps_k (set_k_heap h (sem_gone (rq_done_sem r) lq h' k2)) (set_ps_reqs (delete req (ps_reqs s)) (set_ps_portals pm s))), k2, h, h'.
  split; [|by split_and!].
  - change (portal_exec cfg s) with (exec_cleanup cfg s). unfold exec_cleanup. cbn [cf_req cfg].
    rewrite (proj2 (Z.eqb_neq req 0)) by done. rewrite (bind_Ret _ _ _ r s) by (by apply deref_Some).
    rewrite (proj2 (Z.eqb_neq _ 0) Hx), (bind_Ret _ _ _ _ _ (kz_run _ s _ _ Eu)). set (s1 := set_ps_k k2 s).
    assert (Hl1 : (k_mach (ps_k s1)).2 !! l = Some LOCK_UNLOCKED) by (simpl; rewrite Ek; apply Hae).
    rewrite (bind_Ret _ _ _ _ _ (plock_run s1 l (ae_lock _ _ Hae) Hl1)).
    assert (E1 : (if rq_dequeued r =? 0 then unlink_req req else mret tt) (pheld l s1) = Ret tt (set_ps_portals pm (pheld l s1)))
      by (unfold pm; by destruct (rq_dequeued r =? 0)).
    rewrite (bind_Ret _ _ _ _ _ E1).
    erewrite bind_Ret; [|apply (punlock_run _ (k_mach (ps_k s1)) l); [exact (ae_lock _ _ Hae)|reflexivity|exact Hl1]].
    rewrite (relocked l s1) by reflexivity. rewrite (proj2 (Z.eqb_neq _ 0) (sr_nz _ _ _ _ Hsem)).
    erewrite bind_Ret; [|apply kz_run; exact Ed]. rewrite (bind_Ret (modify _) _ _ tt _ eq_refl).
    erewrite bind_Ret; [|apply kz_run, zoom_heap; exact Ef]. reflexivity.
Qed.

(** ** Closing a portal *)

(** Somebody sleeps on the semaphore; on a queued request; on the portal. *)
Definition sem_busy k (sem : Z) : bool :=
  match wqs k !! sem_wq sem with Some (mk_wq (_ :: _) _) => true | _ => false end.
Definition req_busy s (r : Z) : bool :=
  match ps_reqs s !! r with Some c => sem_busy (ps_k s) (rq_done_sem c) | None => false end.
Definition portal_busy s (d : portal) : bool :=
  sem_busy (ps_k s) (po_req_sem d) || existsb (req_busy s) (po_reqs d).

(** The lock of the semaphore's queue is free, and is not the portals'. *)
Definition calm k (l : nat) (sem : Z) : Prop := ∃ q lq, sem_rest k sem q lq ∧ lq ≠ l.

Lemma calm_waiters s l sem :
  calm (ps_k s) l sem →
  kz (semaphore_has_waiters sem) (pheld l s) = Ret (if sem_busy (ps_k s) sem then 1 else 0) (pheld l s).
Proof.
  intros (q & lq & [H1 H2 H3 H4] & Hne). apply kz_read.
  rewrite (semaphore_has_waiters_run _ sem q lq).
  - unfold sem_busy. rewrite H2. by destruct q as [[|? ?] ?].
  - split; try done. simpl. by rewrite list_lookup_insert_ne.
Qed.

Lemma some_waiter_run s l rs :
  (∀ r, r ∈ rs → ∃ c, ps_reqs s !! r = Some c ∧ calm (ps_k s) l (rq_done_sem c)) →
  some_waiter rs (pheld l s) = Ret (existsb (req_busy s) rs) (pheld l s).
Proof.
  induction rs as [|r rs IH]; intros Hrs; [done|]. cbn [some_waiter existsb].
  destruct (Hrs r ltac:(left)) as (c & Hc & Hcalm). rewrite (bind_Ret _ _ _ c (pheld l s)) by (by apply deref_Some).
  assert (rq_done_sem c ≠ 0) as Hz by (destruct Hcalm as (q & lq & Hq & _); apply Hq).
  rewrite (proj2 (Z.eqb_neq _ 0) Hz), (bind_Ret _ _ _ _ _ (calm_waiters s l _ Hcalm)).
  unfold req_busy at 1. rewrite Hc. destruct (sem_busy (ps_k s) (rq_done_sem c)); [done|].
  apply IH. intros r' Hr'. apply Hrs. by right.
Qed.

(** A queued request nobody waits for: its address, its record, the lock of
    its semaphore. *)
Notation entry := (Z * portal_req * nat)%type.
Definition e_req (x : entry) : Z := x.1.1.
Definition e_sem (x : entry) : Z := rq_done_sem x.1.2.
Definition e_lock (x : entry) : nat := x.2.

Record idle_req s (L : gset Z) (x : entry) : Prop := {
  ir_rec : ps_reqs s !! e_req x = Some x.1.2;
  ir_sem : sem_rest (ps_k s) (e_sem x) (mk_wq [] (Some (e_lock x))) (e_lock x);
  ir_mem : e_req x ∈ L ∧ e_sem x ∈ L;
}.

(** What the loop over the requests leaves of the kernel. *)
Record dropped k (k' : kernel) (L : gset Z) (xs : list entry) : Prop := {
  dr_heap : owns (k_heap k') (L ∖ (list_to_set (map e_req xs) ∪ list_to_set (map e_sem xs)));
  dr_cpu : (k_mach k').1 = (k_mach k).1;
  dr_locks : ∀ j, j ∉ map e_lock xs → (k_mach k').2 !! j = (k_mach k).2 !! j;
  dr_semlock : semaphore_lock k' = semaphore_lock k;
  dr_wqs : ∀ a, a ∉ map e_sem xs → wqs k' !! sem_wq a = wqs k !! sem_wq a;
  dr_vm : k_vm k' = k_vm k;
  dr_tcbs : tcbs k' = tcbs k ∧ pcbs k' = pcbs k;
}.

Lemma drop_reqs_run p ls xs s L d :
  ps_portals s !! p = Some d → po_reqs d = map e_req xs → NoDup (map e_req xs) → NoDup (map e_sem xs) →
  NoDup (map e_lock xs) → (∀ x y, x ∈ xs → y ∈ xs → e_req x ≠ e_sem y) → owns (k_heap (ps_k s)) L →
  semaphore_lock (ps_k s) = Some ls → (k_mach (ps_k s)).2 !! ls = Some LOCK_UNLOCKED → ls ∉ map e_lock xs →
  (∀ x, x ∈ xs → idle_req s L x) →
  ∃ k' m, drop_reqs p (map e_req xs) s
      = Ret tt (set_ps_k k' (set_ps_reqs m (set_ps_portals (<[p := portal_set_reqs [] d]> (ps_portals s)) s))) ∧
    dropped (ps_k s) k' L xs ∧
    ∀ r, m !! r = if decide (r ∈ map e_req xs) then None else ps_reqs s !! r.
Proof.
  revert s L d. induction xs as [|x xs IH]; intros s L d Hp Hd Hn1 Hn2 Hn3 Hx Ho Hl Hu Hls Hall.
  - exists (ps_k s), (ps_reqs s). split_and!.
    + cbn [map drop_reqs]. rewrite insert_id by (rewrite Hp; by destruct d; simpl in Hd; subst). by destruct s.
    + split; try done. cbn [map list_to_set]. by rewrite union_empty_l_L, difference_empty_L.
    + intros r. by rewrite decide_False by apply not_elem_of_nil.
  - cbn [map] in *. apply NoDup_cons in Hn1 as [Hn1 Hn1'], Hn2 as [Hn2 Hn2'], Hn3 as [Hn3 Hn3'].
    apply not_elem_of_cons in Hls as [Hls Hls'].
    destruct (Hall x ltac:(left)) as [Hr Hs [Hm1 Hm2]]. cbn [drop_reqs].
    rewrite (bind_Ret _ _ _ x.1.2 s) by (by apply deref_Some). rewrite (bind_Ret _ _ _ _ _ (upd_portal_run p _ s d Hp)).
    rewrite Hd. assert (remove (e_req x) (e_req x :: map e_req xs) = map e_req xs) as Erm.
    { apply (remove_split []). by apply NoDup_cons. }
    rewrite Erm. fold (e_sem x). rewrite (proj2 (Z.eqb_neq (e_sem x) 0)) by apply Hs.
    destruct (semaphore_destroy_run (ps_k s) (e_sem x) _ (e_lock x) ls L Hs eq_refl Ho Hm2 Hl Hu) as (h1 & Ed & Ho1).
    erewrite bind_Ret; [|apply kz_run; exact Ed]. rewrite (bind_Ret (modify _) _ _ tt _ eq_refl).
    destruct (kfree_ok h1 (L ∖ {[e_sem x]}) (e_req x) Ho1) as (h2 & Ef & Ho2).
    { specialize (Hx x x ltac:(left) ltac:(left)). set_solver. }
    erewrite bind_Ret; [|apply kz_run, zoom_heap; exact Ef].
    set (k1 := set_k_heap h2 (sem_gone (e_sem x) (e_lock x) h1 (ps_k s))).
    set (d1 := portal_set_reqs (map e_req xs) d).
    set (s1 := set_ps_k k1 (set_ps_reqs (delete (e_req x) (ps_reqs s)) (set_ps_portals (<[p := d1]> (ps_portals s)) s))).
    destruct (IH s1 (L ∖ {[e_sem x]} ∖ {[e_req x]}) d1) as (k' & m & E & Hdr & Hm); try done.
    + apply lookup_insert_eq.
    + intros y z Hy Hz. apply Hx; by right.
    + simpl. rewrite list_lookup_insert_ne; [done|]. congruence.
    + intros y Hy. destruct (Hall y ltac:(by right)) as [H1 [S1 S2 S3 S4] [M1 M2]].
      assert (e_req y ≠ e_req x) by (intros E; apply Hn1; rewrite <- E; by apply list_elem_of_fmap_2).
      assert (e_sem y ≠ e_sem x) by (intros E; apply Hn2; rewrite <- E; by apply list_elem_of_fmap_2).
      assert (e_lock y ≠ e_lock x) by (intros E; apply Hn3; rewrite <- E; by apply list_elem_of_fmap_2).
      pose proof (Hx x y ltac:(left) ltac:(by right)). pose proof (Hx y x ltac:(by right) ltac:(left)).
      split; [simpl; by rewrite lookup_delete_ne| |set_solver]. split; try done.
      * simpl. rewrite lookup_delete_ne; [done|]. unfold sem_wq. lia.
      * simpl. by rewrite list_lookup_insert_ne.
    + exists k', m. split_and!.
      * etrans; [exact E|]. unfold s1. simpl. by rewrite insert_insert_eq.
      * destruct Hdr as [D1 D2 D3 D4 D5 D6 D7]. split; try done.
        -- replace (L ∖ (list_to_set (map e_req (x :: xs)) ∪ list_to_set (map e_sem (x :: xs)))) with
             (L ∖ {[e_sem x]} ∖ {[e_req x]} ∖ (list_to_set (map e_req xs) ∪ list_to_set (map e_sem xs))) by (cbn [map list_to_set]; set_solver).
           done.
        -- intros j [Hj1 Hj2]%not_elem_of_cons. rewrite D3 by done. simpl. by rewrite list_lookup_insert_ne.
        -- intros a [Ha1 Ha2]%not_elem_of_cons. rewrite D5 by done. simpl. rewrite lookup_delete_ne; [done|]. unfold sem_wq. lia.
      * intros r. rewrite Hm. simpl. destruct (decide (r ∈ map e_req xs)) as [Hin|Hnin].
        -- by rewrite decide_True by (by right).
        -- destruct (decide (r = e_req x)) as [->|Hne]; [rewrite decide_True by left; apply lookup_delete_eq|].
           rewrite decide_False by (by apply not_elem_of_cons). by rewrite lookup_delete_ne.
Qed.

(** A portal at rest: its queue as entries [xs], its own semaphore with lock
    [lq]; the locks and the memory of all the objects differ. *)
Record closable s (l : nat) (p : Z) (d : portal) (xs : list entry) (q : wait_queue) (lq ls : nat) (L : gset Z) : Prop := {
  cl_ease : at_ease s l;
  cl_portal : ps_portals s !! p = Some d;
  cl_queue : po_reqs d = map e_req xs;
  cl_recs : ∀ x, x ∈ xs → ps_reqs s !! e_req x = Some x.1.2 ∧ (∃ qx, sem_rest (ps_k s) (e_sem x) qx (e_lock x)) ∧
    e_lock x ≠ l ∧ e_req x ∈ L ∧ e_sem x ∈ L;
  cl_sem : sem_rest (ps_k s) (po_req_sem d) q lq;
  cl_locks : NoDup (l :: ls :: lq :: map e_lock xs);
  cl_mem : NoDup (p :: po_req_sem d :: map e_req xs ++ map e_sem xs) ∧ p ∈ L ∧ po_req_sem d ∈ L;
  cl_heap : owns (k_heap (ps_k s)) L;
  cl_semlock : semaphore_lock (ps_k s) = Some ls ∧ (k_mach (ps_k s)).2 !! ls = Some LOCK_UNLOCKED;
}.

Lemma not_busy_idle k sem q lq : sem_rest k sem q lq → sem_busy k sem = false → q = mk_wq [] (Some lq).
Proof.
  intros [_ H2 H3 _] Hb. unfold sem_busy in Hb. rewrite H2 in Hb. destruct q as [[|t ts] o]; [|done].
  by rewrite <- H3.
Qed.

Lemma sem_rest_held s l sem q lq : sem_rest (ps_k s) sem q lq → lq ≠ l → sem_rest (ps_k (pheld l s)) sem q lq.
Proof. intros [] Hne. split; try done. simpl. by rewrite list_lookup_insert_ne. Qed.

Lemma punlock_step s1 l :
  portal_lock s1 = Some l → (l < length (k_mach (ps_k s1)).2)%nat →
  punlock s1 = Ret tt (set_ps_k (set_k_mach ((k_mach (ps_k s1)).1, <[l := LOCK_UNLOCKED]> (k_mach (ps_k s1)).2) (ps_k s1)) s1).
Proof.
  intros Hl Hlt. unfold punlock. erewrite (bind_Ret (gets portal_lock)); [|reflexivity]. rewrite Hl.
  erewrite bind_Ret; [|apply kz_run, zoom_Ret; apply spinlock_unlock_eq; exact Hlt]. done.
Qed.

(** The last steps: the portal's own semaphore and memory. *)
Lemma destroy_end s p d q lq ls L cfg :
  sem_rest (ps_k s) (po_req_sem d) q lq → wq_waiters q = [] → owns (k_heap (ps_k s)) L →
  po_req_sem d ∈ L → p ∈ L → p ≠ po_req_sem d →
  semaphore_lock (ps_k s) = Some ls → (k_mach (ps_k s)).2 !! ls = Some LOCK_UNLOCKED →
  ∃ h h', ((if po_req_sem d =? 0 then mret 0 else kz (semaphore_destroy (po_req_sem d)));;
           modify (λ s, set_ps_portals (delete p (ps_portals s)) s);; kz (kzoom (kfree p));; mret (0, cfg)) s
    = Ret (0, cfg) (set_ps_k (set_k_heap h (sem_gone (po_req_sem d) lq h' (ps_k s))) (set_ps_portals (delete p (ps_portals s)) s)) ∧
    owns h (L ∖ {[po_req_sem d]} ∖ {[p]}).
Proof.
  intros Hs Hw Ho H1 H2 Hne Hl Hu. rewrite (proj2 (Z.eqb_neq _ 0) (sr_nz _ _ _ _ Hs)).
  destruct (semaphore_destroy_run _ _ _ _ ls L Hs Hw Ho H1 Hl Hu) as (h' & Ed & Ho').
  destruct (kfree_ok h' (L ∖ {[po_req_sem d]}) p Ho' ltac:(set_solver)) as (h & Ef & Ho2). exists h, h'.
  erewrite bind_Ret; [|apply kz_run; exact Ed]. rewrite (bind_Ret (modify _) _ _ tt _ eq_refl).
  by erewrite bind_Ret; [|apply kz_run, zoom_heap; exact Ef].
Qed.

(** The checks of the command, with the lock taken. *)
Lemma destroy_checks s l p d xs q lq ls L :
  closable s l p d xs q lq ls L →
  (if po_req_sem d =? 0 then mret 0 else kz (semaphore_has_waiters (po_req_sem d))) (pheld l s)
    = Ret (if sem_busy (ps_k s) (po_req_sem d) then 1 else 0) (pheld l s) ∧
  some_waiter (po_reqs d) (pheld l s) = Ret (existsb (req_busy s) (po_reqs d)) (pheld l s).
Proof.
  intros [Hae Hp Hq Hrecs Hsem Hlk _ _ _]. apply NoDup_cons in Hlk as [L1 _]. rewrite !not_elem_of_cons in L1. split.
  - rewrite (proj2 (Z.eqb_neq _ 0) (sr_nz _ _ _ _ Hsem)). apply calm_waiters. exists q, lq. split; [done|naive_solver].
  - apply some_waiter_run. rewrite Hq. intros r (x & -> & Hx)%list_elem_of_fmap. destruct (Hrecs x Hx) as (Hr & (qx & Hs) & Hl & _).
    exists x.1.2. split; [done|]. by exists qx, (e_lock x).
Qed.

(** The loop over a queue without sleepers. *)
Lemma destroy_loop s l p d xs q lq ls L :
  closable s l p d xs q lq ls L → existsb (req_busy s) (po_reqs d) = false →
  ∃ k' m, drop_reqs p (po_reqs d) (pheld l s)
      = Ret tt (set_ps_k k' (set_ps_reqs m (set_ps_portals (<[p := portal_set_reqs [] d]> (ps_portals s)) s))) ∧
    dropped (hold l (ps_k s)) k' L xs ∧
    ∀ r, m !! r = if decide (r ∈ po_reqs d) then None else ps_reqs s !! r.
Proof.
  intros [Hae Hp Hq Hrecs Hsem Hlk [Hmem _] Ho [Hsl Hsu]] Hnb. rewrite Hq in *.
  apply NoDup_cons in Hlk as [L1 Hlk]. apply NoDup_cons in Hlk as [L2 Hlk]. apply NoDup_cons in Hlk as [L3 Hlk].
  rewrite !not_elem_of_cons in L1, L2. apply NoDup_cons in Hmem as [_ Hmem]. apply NoDup_cons in Hmem as [_ Hmem].
  apply NoDup_app in Hmem as (N1 & N2 & N3).
  destruct (drop_reqs_run p ls xs (pheld l s) L d) as (k' & m & E & Hd & Hm); try done.
  - intros x y Hx Hy E. apply (N2 (e_req x)); [by apply list_elem_of_fmap_2|rewrite E; by apply list_elem_of_fmap_2].
  - simpl. rewrite list_lookup_insert_ne by naive_solver. done.
  - naive_solver.
  - intros x Hx. destruct (Hrecs x Hx) as (Hr & (qx & Hs) & Hl & M). split; [done| |done].
    assert (sem_busy (ps_k s) (e_sem x) = false) as Hb.
    { apply not_true_iff_false. intros Hb. apply not_true_iff_false in Hnb. apply Hnb, existsb_exists.
      exists (e_req x). split; [apply list_elem_of_In; by apply list_elem_of_fmap_2|]. unfold req_busy. by rewrite Hr. }
    rewrite <- (not_busy_idle _ _ _ _ Hs Hb). by apply sem_rest_held.
  - by exists k', m.
Qed.

(** What follows the checks, on an idle portal. *)
Lemma destroy_idle s l p d xs q lq ls L cfg :
  closable s l p d xs q lq ls L → sem_busy (ps_k s) (po_req_sem d) = false → existsb (req_busy s) (po_reqs d) = false →
  ∃ s', (drop_reqs p (po_reqs d);; modify (λ s, set_portal_header (remove p (portal_header s)) s);; punlock;;
         (if po_req_sem d =? 0 then mret 0 else kz (semaphore_destroy (po_req_sem d)));;
         modify (λ s, set_ps_portals (delete p (ps_portals s)) s);; kz (kzoom (kfree p));; mret (0, cfg)) (pheld l s) = Ret (0, cfg) s' ∧
    portal_header s' = remove p (portal_header s) ∧ ps_portals s' = delete p (ps_portals s) ∧
    (∀ r, ps_reqs s' !! r = if decide (r ∈ po_reqs d) then None else ps_reqs s !! r) ∧
    owns (k_heap (ps_k s')) (L ∖ list_to_set (p :: po_req_sem d :: map e_req xs ++ map e_sem xs)) ∧
    k_vm (ps_k s') = k_vm (ps_k s) ∧ tcbs (ps_k s') = tcbs (ps_k s) ∧ pcbs (ps_k s') = pcbs (ps_k s).
Proof.
  intros Hcl Eb Er. pose proof (cl_ease _ _ _ _ _ _ _ _ _ Hcl) as Hae.
  destruct (destroy_loop _ _ _ _ _ _ _ _ _ Hcl Er) as (k' & m & Ed & [D1 D2 D3 D4 D5 D6 [D7 D8]] & Hm).
  rewrite (bind_Ret _ _ _ _ _ Ed), (bind_Ret (modify _) _ _ tt _ eq_refl).
  destruct Hcl as [_ Hp Hq Hrecs Hsem Hlk [Hmem [HpL HsL]] Ho [Hsl Hsu]].
  apply NoDup_cons in Hlk as [L1 Hlk]. apply NoDup_cons in Hlk as [L2 Hlk]. apply NoDup_cons in Hlk as [L3 Hlk].
  apply not_elem_of_cons in L1 as [L1a L1]. apply not_elem_of_cons in L1 as [L1b L1c].
  apply not_elem_of_cons in L2 as [L2a L2b]. apply NoDup_cons in Hmem as [M1 Hmem]. apply NoDup_cons in Hmem as [M2 _].
  apply not_elem_of_cons in M1 as [M1a M1]. apply not_elem_of_app in M1 as [M1b M1c].
  apply not_elem_of_app in M2 as [M2a M2b].
  assert (Hlt : (l < length (k_mach k').2)%nat).
  { apply lookup_lt_is_Some. rewrite D3 by done. simpl. rewrite list_lookup_insert_eq; [eauto|].
    eapply lookup_lt_Some, (ae_free _ _ Hae). }
  erewrite bind_Ret; [|apply (punlock_step _ l); [exact (ae_lock _ _ Hae)|exact Hlt]].
  set (s2 := set_ps_k _ _).
  assert (Hlook : ∀ j, j ≠ l → j ∉ map e_lock xs → (k_mach (ps_k s2)).2 !! j = (k_mach (ps_k s)).2 !! j).
  { intros j H1 H2. simpl. rewrite list_lookup_insert_ne, D3 by done. simpl. by rewrite list_lookup_insert_ne. }
  pose proof (not_busy_idle _ _ _ _ Hsem Eb) as Hqe. destruct Hsem as [S1 S2 S3 S4].
  destruct (destroy_end s2 p d q lq ls (L ∖ (list_to_set (map e_req xs) ∪ list_to_set (map e_sem xs))) cfg) as (h & h' & Ee & Hoe).
  - split; [done| |done|rewrite Hlook by done; done]. simpl. rewrite D5 by done. exact S2.
  - by rewrite Hqe.
  - exact D1.
  - clear -HsL M2a M2b. set_solver.
  - clear -HpL M1b M1c. set_solver.
  - done.
  - simpl. by rewrite D4.
  - rewrite Hlook by done. done.
  - eexists. split; [exact Ee|]. split_and!; try done.
    + simpl. by rewrite delete_insert_eq.
    + simpl k_heap. assert (L ∖ list_to_set (p :: po_req_sem d :: map e_req xs ++ map e_sem xs) =
        L ∖ (list_to_set (map e_req xs) ∪ list_to_set (map e_sem xs)) ∖ {[po_req_sem d]} ∖ {[p]}) as -> by (clear; set_solver).
      exact Hoe.
Qed.

(** C31: PORTAL_CTRL_DESTROY of an open portal always returns.  While a server
    thread sleeps on the portal, or the client of a queued request sleeps on
    its reply, it is refused with E_BUSY and nothing changes.  Otherwise the
    portal and its queued requests are gone, with their records, semaphores
    and memory, and every other portal, request, thread and address space is
    as before. *)
Theorem portal_destroy_refuses_or_removes s l p d xs q lq ls L num :
  closable s l p d xs q lq ls L → found (λ c, po_id c =? num) s = Some p →
  ∃ r s', portal_exec (mk_pcfg PORTAL_CTRL_DESTROY 0 num 0 0 0 0 0) s
      = Ret (r, mk_pcfg PORTAL_CTRL_DESTROY 0 num 0 0 0 0 0) s' ∧
    (portal_busy s d = true → r = E_BUSY ∧ s' = s) ∧
    (portal_busy s d = false → r = 0 ∧ portal_header s' = remove p (portal_header s) ∧
       ps_portals s' = delete p (ps_portals s) ∧
       (∀ r, ps_reqs s' !! r = if decide (r ∈ po_reqs d) then None else ps_reqs s !! r) ∧
       owns (k_heap (ps_k s')) (L ∖ list_to_set (p :: po_req_sem d :: map e_req xs ++ map e_sem xs)) ∧
       k_vm (ps_k s') = k_vm (ps_k s) ∧ tcbs (ps_k s') = tcbs (ps_k s) ∧ pcbs (ps_k s') = pcbs (ps_k s)).
Proof.
  intros Hcl Hf. pose proof (cl_ease _ _ _ _ _ _ _ _ _ Hcl) as Hae. set (cfg := mk_pcfg PORTAL_CTRL_DESTROY 0 num 0 0 0 0 0).
  pose proof (found_spec (λ c, po_id c =? num) s l Hae) as Hfs. rewrite Hf in Hfs. destruct Hfs as (Hp0 & _ & _).
  change (portal_exec cfg s) with (exec_destroy cfg s). unfold exec_destroy, portal_get_by_id. cbn [cf_server_id cfg].
  rewrite (bind_Ret _ _ _ _ _ (portal_search_run _ s l Hae)), Hf. cbn [default from_option id].
  rewrite (proj2 (Z.eqb_neq p 0)) by done. rewrite (bind_Ret _ _ _ _ _ (plock_run s l (ae_lock _ _ Hae) (ae_free _ _ Hae))).
  rewrite (bind_Ret _ _ _ d (pheld l s)) by (by apply deref_Some, (cl_portal _ _ _ _ _ _ _ _ _ Hcl)).
  destruct (destroy_checks _ _ _ _ _ _ _ _ _ Hcl) as [E1 E2]. rewrite (bind_Ret _ _ _ _ _ E1). unfold portal_busy.
  assert (Hunl : punlock (pheld l s) = Ret tt s).
  { rewrite (punlock_run (pheld l s) (k_mach (ps_k s)) l (ae_lock _ _ Hae) eq_refl (ae_free _ _ Hae)). by rewrite pheld_id. }
  destruct (sem_busy (ps_k s) (po_req_sem d)) eqn:Eb; cbn [orb negb Z.eqb].
  { exists E_BUSY, s. by rewrite (bind_Ret _ _ _ _ _ Hunl). }
  rewrite (bind_Ret _ _ _ _ _ E2). destruct (existsb (req_busy s) (po_reqs d)) eqn:Er.
  { exists E_BUSY, s. by rewrite (bind_Ret _ _ _ _ _ Hunl). }
  destruct (destroy_idle _ _ _ _ _ _ _ _ _ cfg Hcl Eb Er) as (s' & E & Hres). by exists 0, s'.
Qed.
End theorems.

(** ** A call from beginning to end

    Process 64 (thread 10) calls process 128 (thread 20) through portal 5. *)

Definition rpc_kernel (w : vm (gset Z)) : kernel (gset Z) (gset Z) (vm (gset Z)) :=
  let k := shm_pair w in
  set_irq_reenter_cnt 0 (set_semaphore_lock (Some 11%nat) (set_thread_head [20; 10] (set_thread_run 20
    (set_tcbs {[ 10 := demo_tcb 1 64 3 TS_READY; 20 := demo_tcb 2 128 4 TS_READY ]}
      (set_k_mach (mk_cpu 512 false, replicate 5 LOCK_UNLOCKED ++ replicate 6 LOCK_INVALID ++ replicate 2 LOCK_UNLOCKED) k))))).

Definition rpc_state (w : vm (gset Z)) : pstate (gset Z) (gset Z) (gset Z) :=
  mk_pstate (set_pcbs (<[128 := mk_pcb 8 PS_READY PROC_PRIV_USER [20] 0 (Some 1%nat) [(704, mk_cap CAP_IPC 1)] (Some 2%nat)]>
    (pcbs (rpc_kernel w))) (set_k_heap {[ 700; 704 ]} (rpc_kernel w))) ∅ ∅ [] (Some 12%nat) 2 (-1).

Definition rpc : option (Z * Z * Z * Z * Z * Z * nat * nat) :=
  match two_spaces demo_vm with
  | Ret (_, a) w =>
      match (i ← portal_exec (mk_pcfg PORTAL_CTRL_INIT 0 5 0 0 0 0 0);
             _ ← portal_exec (portal_config PORTAL_CTRL_WAIT);
             t1 ← kz thread_get_tid;
             c ← portal_exec (mk_pcfg PORTAL_CTRL_CALL 0 5 (a + 100) 200 0 0 0);
             _ ← portal_exec (mk_pcfg PORTAL_CTRL_WAIT_REPLY 0 0 0 0 (cf_req c.2) 0 0);
             t2 ← kz thread_get_tid;
             g ← portal_exec (portal_config PORTAL_CTRL_GET_REQ);
             _ ← portal_exec (mk_pcfg PORTAL_CTRL_REPLY 0 0 0 0 (cf_req g.2) 0 42);
             _ ← portal_exec (portal_config PORTAL_CTRL_WAIT);
             r ← portal_exec (mk_pcfg PORTAL_CTRL_GET_RESULT 0 0 0 0 (cf_req c.2) 0 0);
             u ← portal_exec (mk_pcfg PORTAL_CTRL_CLEANUP 0 0 0 0 (cf_req c.2) 0 0);
             s ← get;
             mret (i.1, t1, c.1, t2, cf_ret r.2, u.1, size (ps_reqs s),
               match pcbs (ps_k s) !! 128 with Some p => length (p_caps p) | None => 0%nat end)) (rpc_state w) with
      | Ret x _ => Some x
      | _ => None
      end
  | _ => None
  end.

(** The server sleeps, the client calls and sleeps, the server takes the
    request and replies 42, the client reads 42 and cleans up; the server is
    left with the grant it had. *)
Example rpc_round_trip : rpc = Some (0, 1, 0, 2, 42, 0, 0%nat, 1%nat).
Proof. vm_compute. reflexivity. Qed.

Definition in_rpc {B} (m : Z → M (pstate (gset Z) (gset Z) (gset Z)) B) : option (outcome unit B) :=
  match two_spaces demo_vm with
  | Ret (_, a) w => Some match m a (rpc_state w) with Ret x _ => Ret x tt | Spin => Spin | Fault => Fault end
  | _ => None
  end.

Definition open_portal (id : Z) : M (pstate (gset Z) (gset Z) (gset Z)) (Z * Z) :=
  r ← portal_exec (mk_pcfg PORTAL_CTRL_INIT 0 id 0 0 0 0 0); mret (r.1, cf_out r.2).

(** The number 0xFFFFFFFF may be asked for; the counter then wraps, and the
    second portal opened without a number gets the one of the name server,
    which is open. *)
Example portal_numbers_wrap :
  in_rpc (λ _, n ← open_portal PORTAL_ID_NAMESPACE; _ ← open_portal 4294967295; a ← open_portal 0; b ← open_portal 0;
               mret (n, a, b))
  = Some (Ret ((0, 1), (0, 0), (0, 1)) tt).
Proof. vm_compute. reflexivity. Qed.

(** The client has posted its request and does not sleep yet: the portal can
    be destroyed, and the client's next command reads the freed request. *)
Example portal_destroyed_before_wait :
  in_rpc (λ a, _ ← open_portal 5;
               kz (modify (set_thread_run 10));;
               c ← portal_exec (mk_pcfg PORTAL_CTRL_CALL 0 5 (a + 100) 200 0 0 0);
               kz (modify (set_thread_run 20));;
               d ← portal_exec (mk_pcfg PORTAL_CTRL_DESTROY 0 5 0 0 0 0 0);
               mret (c.1, d.1))
  = Some (Ret (0, 0) tt) ∧
  in_rpc (λ a, _ ← open_portal 5;
               kz (modify (set_thread_run 10));;
               c ← portal_exec (mk_pcfg PORTAL_CTRL_CALL 0 5 (a + 100) 200 0 0 0);
               kz (modify (set_thread_run 20));;
               _ ← portal_exec (mk_pcfg PORTAL_CTRL_DESTROY 0 5 0 0 0 0 0);
               kz (modify (set_thread_run 10));;
               portal_exec (mk_pcfg PORTAL_CTRL_WAIT_REPLY 0 0 0 0 (cf_req c.2) 0 0))
  = Some Fault.
Proof. split; vm_compute; reflexivity. Qed.

(** A handle is not checked: any address a client passes is read as a request. *)
Example portal_forged_handle :
  in_rpc (λ _, portal_exec (mk_pcfg PORTAL_CTRL_GET_RESULT 0 0 0 0 1048576 0 0)) = Some Fault.
Proof. vm_compute. reflexivity. Qed.

(** ** Witnesses: one process with a portal (at 600) of its own *)

Definition own_portal (rs : list Z) : portal := mk_portal 5 7 1 rs 500.

Definition own_kernel (w : vm (gset Z)) : kernel (gset Z) (gset Z) (vm (gset Z)) :=
  set_irq_reenter_cnt 0 (set_semaphore_lock (Some 5%nat) (set_semaphore_head [500; 520]
    (set_sems {[ 500 := mk_sem 0 0; 520 := mk_sem 1 0 ]} (set_next_sem_id 2
      (set_wqs {[ 516 := mk_wq [] (Some 4%nat); 536 := mk_wq [] (Some 7%nat) ]}
        (set_k_heap {[ 500; 520; 600; 640; 700 ]}
          (set_k_mach (mk_cpu 512 false, replicate 8 LOCK_UNLOCKED ++ [LOCK_INVALID]) (shm_demo w)))))))).

Definition own_heap : gset Z := {[ 500; 520; 600; 640; 700 ]}.
Definition own_request (va : Z) : portal_req := mk_req 1 7 va 200 0 520 (mk_resp 0 0 0).

Definition own_state (k : kernel (gset Z) (gset Z) (vm (gset Z))) (rs : list Z) (va : Z) : pstate (gset Z) (gset Z) (gset Z) :=
  mk_pstate k {[ 600 := own_portal rs ]} {[ 640 := own_request va ]} [600] (Some 6%nat) 6 (-1).

Lemma own_ease w rs va : at_ease (own_state (own_kernel w) rs va) 6.
Proof.
  split; [reflexivity|reflexivity|]. intros p Hp. apply list_elem_of_singleton in Hp as ->. split; [done|by eexists].
Qed.

Lemma own_heap_owns : owns own_heap own_heap.
Proof. split; [reflexivity|unfold own_heap; set_solver by lia]. Qed.

Lemma own_owns w : owns (k_heap (own_kernel w)) own_heap.
Proof. change (owns own_heap own_heap). apply own_heap_owns. Qed.

Lemma own_queue (q q' : wait_queue) p : p ∉ own_heap → ({[ 516 := q; 536 := q' ]} : gmap Z wait_queue) !! sem_wq p = None.
Proof.
  intros Hp. unfold own_heap, sem_wq in *.
  apply lookup_insert_None. rewrite lookup_singleton_None. split; intros E; apply Hp.
  - assert (p = 520) as -> by lia. set_solver.
  - assert (p = 500) as -> by lia. set_solver.
Qed.

Lemma own_wqs w p : p ∉ own_heap → wqs (own_kernel w) !! sem_wq p = None.
Proof.
  change (wqs (own_kernel w)) with ({[ 516 := mk_wq [] (Some 4%nat); 536 := mk_wq [] (Some 7%nat) ]} : gmap Z wait_queue).
  apply own_queue.
Qed.

Lemma own_ready w : ready_kernel (own_kernel w) own_heap 5 (demo_tcb 1 64 3 TS_READY) ipc_pcb.
Proof. split; [apply own_owns|reflexivity|reflexivity|apply own_wqs|done|reflexivity|reflexivity]. Qed.

Lemma own_ids w rs va : ids_ok (own_state (own_kernel w) rs va).
Proof.
  assert (Hl : ∀ p c, p ∈ [600] → ({[ 600 := own_portal rs ]} : gmap Z portal) !! p = Some c → p = 600 ∧ c = own_portal rs).
  { intros p c Hp. apply list_elem_of_singleton in Hp as ->. rewrite lookup_singleton_eq. by intros [= <-]. }
  split_and!; [done|done| |].
  - intros p c Hp Hc. destruct (Hl p c Hp Hc) as [_ ->]. simpl. lia.
  - intros p q c d Hp Hq Hc Hd _. destruct (Hl p c Hp Hc) as [-> _], (Hl q d Hq Hd) as [-> _]. done.
Qed.

Lemma portal_init_unique_ids_witness :
  ∃ r cfg' s', portal_exec (mk_pcfg PORTAL_CTRL_INIT 0 5 0 0 0 0 0) (own_state (own_kernel demo_vm) [] 0) = Ret (r, cfg') s' ∧
    ids_ok s' ∧ (r = E_EXISTS ∨ r = E_NOMEM ∨ r = 0).
Proof.
  destruct (portal_init_unique_ids (own_state (own_kernel demo_vm) [] 0) 6 own_heap 5 (demo_tcb 1 64 3 TS_READY) ipc_pcb 5
    (own_ease _ _ _) (own_ready _)) as (r & cfg' & s' & E & Hi & _ & H).
  - intros p Hp. apply list_elem_of_singleton in Hp as ->. unfold own_heap. set_solver.
  - exact (own_ids _ _ _).
  - simpl. lia.
  - lia.
  - exists r, cfg', s'. split; [exact E|]. split; [exact Hi|]. naive_solver.
Defined.

Lemma own_current w : current (own_kernel w) 64.
Proof. split; [done|]. by exists (demo_tcb 1 64 3 TS_READY). Qed.

Lemma portal_isr_guarded_witness :
  portal_syscall_isr (Some (portal_config PORTAL_CTRL_WAIT)) (own_state (own_kernel demo_vm) [] 0)
  = (r ← portal_exec (portal_config PORTAL_CTRL_WAIT); mret (r.1, Some r.2)) (own_state (own_kernel demo_vm) [] 0).
Proof.
  apply (portal_isr_guarded (own_state (own_kernel demo_vm) [] 0) 64 ipc_pcb 2 (portal_config PORTAL_CTRL_WAIT)).
  - exact (own_current _).
  - by split.
  - exact shm_demo_caps.
  - right. exists 1. split; [exists 700; left|done].
Defined.

Lemma own_threads w :
  tcbs (own_kernel w) = {[ 10 := demo_tcb 1 64 3 TS_READY ]} ∧ thread_head (own_kernel w) = [10] ∧
  thread_run (own_kernel w) = 10 ∧ proc_head (own_kernel w) = [64] ∧ pcbs (own_kernel w) = {[ 64 := ipc_pcb ]}.
Proof. split_and!; reflexivity. Qed.

Lemma own_tcb w t c : tcbs (own_kernel w) !! t = Some c → t_sp_lock c = Some 3%nat.
Proof. destruct (own_threads w) as (-> & _). intros [_ <-]%lookup_singleton_Some. reflexivity. Qed.

Lemma own_sched w : sched_ok (own_kernel w) 0.
Proof.
  destruct (own_threads w) as (Et & Eh & Er & _). split; [reflexivity|reflexivity| | |rewrite Eh; apply NoDup_singleton|rewrite Er, Eh; left|].
  - intros t c Hc%own_tcb. rewrite Hc. discriminate.
  - intros t. rewrite Eh. intros ->%list_elem_of_singleton. split; [discriminate|].
    exists (demo_tcb 1 64 3 TS_READY), 3%nat. rewrite Et. split_and!; reflexivity.
  - intros t t' c c'. rewrite Eh. intros ->%list_elem_of_singleton ->%list_elem_of_singleton _ _ _. reflexivity.
Qed.

(** Both semaphores are consistent, nobody waits. *)
Lemma own_sem w sem n l :
  (sem = 500 ∧ n = 0 ∧ l = 4%nat) ∨ (sem = 520 ∧ n = 1 ∧ l = 7%nat) →
  sem_ok (own_kernel w) 0 5 sem (mk_sem n 0) (mk_wq [] (Some l)) l.
Proof.
  assert (Hx : ∀ x, x ∈ [500; 520] → x = 500 ∨ x = 520) by (intros x; rewrite !elem_of_cons, elem_of_nil; tauto).
  intros Hs. split; [reflexivity|reflexivity| | | | | |reflexivity].
  - destruct Hs as [(-> & -> & ->)|(-> & -> & ->)]; reflexivity.
  - intros x [->| ->]%Hx; (split; [discriminate|eexists; reflexivity]).
  - destruct Hs as [(-> & _)|(-> & _)]; [left|right; left].
  - intros x m' Hin Hm Hi. apply Hx in Hin as [->| ->]; cbn in Hm; injection Hm as <-;
      destruct Hs as [(-> & -> & _)|(-> & -> & _)]; cbn in Hi; (reflexivity || discriminate).
  - split; [| |reflexivity| | | |constructor|].
    + destruct Hs as [(-> & -> & ->)|(-> & -> & ->)]; reflexivity.
    + unfold sem_wq. destruct Hs as [(-> & _)|(-> & _)]; discriminate.
    + destruct Hs as [(_ & _ & ->)|(_ & _ & ->)]; reflexivity.
    + destruct Hs as [(_ & _ & ->)|(_ & _ & ->)]; discriminate.
    + intros t c Hc%own_tcb. rewrite Hc. destruct Hs as [(_ & _ & ->)|(_ & _ & ->)]; discriminate.
    + intros t Ht. apply elem_of_nil in Ht. destruct Ht.
Qed.

Lemma own_sharing w L c ns rs :
  world w L → space w L 64 c ns rs → rs ≠ [] →
  sharing (own_kernel w) 0 7 64 64 ipc_pcb ipc_pcb 2 2 own_heap L c c ns ns rs rs.
Proof.
  intros Hw Hs Hne. destruct (own_threads w) as (Et & Eh & Er & Ep & Eq).
  assert (Hh : cap_holder (own_kernel w) 64 ipc_pcb 2) by (split; (rewrite ?Eq; reflexivity || discriminate)).
  split; [apply own_sched| |exact (own_current w)|reflexivity|split; [exact Hh|exact shm_demo_caps]|
    split; [exact Hh|exact shm_demo_caps]| |exact Hw|exact Hs|split; [exact Hs|exact Hne]].
  - intros p. rewrite Ep, Eq. intros ->%list_elem_of_singleton. rewrite lookup_singleton_eq. eauto.
  - split; [apply NoDup_singleton|]. cbn. unfold own_heap. set_solver.
Qed.

Lemma own_callable w L c ns rs :
  sharing (own_kernel w) 0 7 64 64 ipc_pcb ipc_pcb 2 2 own_heap L c c ns ns rs rs →
  callable (own_state (own_kernel w) [] 0) 6 0 600 (own_portal []) 64 64 ipc_pcb ipc_pcb 2 2 own_heap L c c ns ns rs rs
    5 (demo_tcb 1 64 3 TS_READY) (mk_sem 0 0) (mk_wq [] (Some 4%nat)) 4.
Proof.
  intros Hsh. split; [apply own_ease|reflexivity|exact Hsh|apply own_ready|split; reflexivity|apply own_sem; left; split_and!; reflexivity|
    simpl; lia|discriminate|].
  change (500 ∈ own_heap ∧ dom ({[ 640 := own_request 0 ]} : gmap Z portal_req) ⊆ own_heap). rewrite dom_singleton.
  unfold own_heap. set_solver.
Qed.

(** ** Witness: a server thread (20, with the lock 8) sleeps on the portal *)

Definition server_tcb : tcb := tcb_waiting 516 (demo_tcb 2 64 8 TS_PENDING).
Definition served_kernel (w : vm (gset Z)) : kernel (gset Z) (gset Z) (vm (gset Z)) :=
  set_thread_head [20; 10] (set_tcbs {[ 10 := demo_tcb 1 64 3 TS_READY; 20 := server_tcb ]}
    (set_sems {[ 500 := mk_sem 0 (-1); 520 := mk_sem 1 0 ]}
      (set_wqs {[ 516 := mk_wq [20] (Some 4%nat); 536 := mk_wq [] (Some 7%nat) ]}
        (set_k_mach (mk_cpu 512 false, replicate 9 LOCK_UNLOCKED ++ [LOCK_INVALID]) (own_kernel w))))).

Lemma served_tcb w t c : tcbs (served_kernel w) !! t = Some c →
  t = 10 ∧ c = demo_tcb 1 64 3 TS_READY ∨ t = 20 ∧ c = server_tcb.
Proof.
  change (tcbs (served_kernel w)) with ({[ 10 := demo_tcb 1 64 3 TS_READY; 20 := server_tcb ]} : gmap Z tcb).
  rewrite lookup_insert_Some, lookup_singleton_Some. naive_solver.
Qed.

Lemma served_head w t : t ∈ thread_head (served_kernel w) → t = 10 ∨ t = 20.
Proof. change (t ∈ [20; 10] → t = 10 ∨ t = 20). set_solver. Qed.

Lemma served_sched w : sched_ok (served_kernel w) 0.
Proof.
  split; [reflexivity|reflexivity| | | |right; left|].
  - intros t c [[-> ->]|[-> ->]]%served_tcb; discriminate.
  - intros t [->| ->]%served_head; (split; [discriminate|]).
    + exists (demo_tcb 1 64 3 TS_READY), 3%nat. split_and!; reflexivity.
    + exists server_tcb, 8%nat. split_and!; reflexivity.
  - change (NoDup [20; 10]). apply NoDup_cons. split; [set_solver|apply NoDup_singleton].
  - intros t t' c c' _ _ [[-> ->]|[-> ->]]%served_tcb [[-> ->]|[-> ->]]%served_tcb; (reflexivity || discriminate).
Qed.

Lemma served_ready w : ready_kernel (served_kernel w) own_heap 5 (demo_tcb 1 64 3 TS_READY) ipc_pcb.
Proof.
  split; [change (owns own_heap own_heap); apply own_heap_owns|reflexivity|reflexivity| |done|reflexivity|reflexivity].
  change (wqs (served_kernel w)) with ({[ 516 := mk_wq [20] (Some 4%nat); 536 := mk_wq [] (Some 7%nat) ]} : gmap Z wait_queue).
  intros p. apply own_queue.
Qed.

Lemma served_sem w : sem_ok (served_kernel w) 0 5 500 (mk_sem 0 (-1)) (mk_wq [20] (Some 4%nat)) 4.
Proof.
  assert (Hx : ∀ x, x ∈ [500; 520] → x = 500 ∨ x = 520) by (intros x; rewrite !elem_of_cons, elem_of_nil; tauto).
  split; [reflexivity|reflexivity|reflexivity| |left| | |reflexivity].
  - intros x [->| ->]%Hx; (split; [discriminate|eexists; reflexivity]).
  - intros x m' [->| ->]%Hx Hm Hi; cbn in Hm; injection Hm as <-; (reflexivity || discriminate).
  - split; [reflexivity|discriminate|reflexivity|reflexivity|discriminate| |apply NoDup_singleton|].
    + intros t c [[-> ->]|[-> ->]]%served_tcb; discriminate.
    + intros t Ht. apply list_elem_of_singleton in Ht as ->. split; [left|]. exists server_tcb. split; reflexivity.
Qed.

Lemma served_sharing w L c ns rs :
  world w L → space w L 64 c ns rs → rs ≠ [] →
  sharing (served_kernel w) 0 7 64 64 ipc_pcb ipc_pcb 2 2 own_heap L c c ns ns rs rs.
Proof.
  intros Hw Hs Hne. assert (Ep : proc_head (served_kernel w) = [64]) by reflexivity.
  assert (Eq : pcbs (served_kernel w) = {[ 64 := ipc_pcb ]}) by reflexivity.
  assert (Hh : cap_holder (served_kernel w) 64 ipc_pcb 2) by (split; (rewrite ?Eq; reflexivity || discriminate)).
  split; [apply served_sched| |split; [done|by exists (demo_tcb 1 64 3 TS_READY)]|reflexivity|split; [exact Hh|exact shm_demo_caps]|
    split; [exact Hh|exact shm_demo_caps]| |exact Hw|exact Hs|split; [exact Hs|exact Hne]].
  - intros p. rewrite Ep, Eq. intros ->%list_elem_of_singleton. rewrite lookup_singleton_eq. eauto.
  - split; [apply NoDup_singleton|]. cbn. unfold own_heap. set_solver.
Qed.

Lemma served_callable w L c ns rs :
  sharing (served_kernel w) 0 7 64 64 ipc_pcb ipc_pcb 2 2 own_heap L c c ns ns rs rs →
  callable (own_state (served_kernel w) [] 0) 6 0 600 (own_portal []) 64 64 ipc_pcb ipc_pcb 2 2 own_heap L c c ns ns rs rs
    5 (demo_tcb 1 64 3 TS_READY) (mk_sem 0 (-1)) (mk_wq [20] (Some 4%nat)) 4.
Proof.
  intros Hsh. split; [|reflexivity|exact Hsh|apply served_ready|split; reflexivity|apply served_sem|simpl; lia|discriminate|].
  - split; [reflexivity|reflexivity|]. intros p Hp. apply list_elem_of_singleton in Hp as ->. split; [done|by eexists].
  - change (500 ∈ own_heap ∧ dom ({[ 640 := own_request 0 ]} : gmap Z portal_req) ⊆ own_heap). rewrite dom_singleton.
    unfold own_heap. set_solver.
Qed.

(** The client's call of two hundred bytes of its pages, run. *)
Definition served_call : option Z :=
  match Vmm.vmm_alloc_pages 64 2 PTE_USER_PAGE demo_vm with
  | Ret va w =>
      if va =? 0 then None else
      match portal_exec (mk_pcfg PORTAL_CTRL_CALL 0 5 (va + 100) 200 0 0 0) (own_state (served_kernel w) [] 0) with
      | Ret (r, _) _ => Some r
      | _ => None
      end
  | _ => None
  end.

Example served_call_succeeds : served_call = Some 0.
Proof. vm_compute. reflexivity. Qed.

Lemma portal_call_all_or_nothing_witness :
  ∃ va w cfg' s', Vmm.vmm_alloc_pages 64 2 PTE_USER_PAGE demo_vm = Ret va w ∧ ready (served_kernel w) 20 = false ∧
    portal_exec (mk_pcfg PORTAL_CTRL_CALL 0 5 (va + 100) 200 0 0 0) (own_state (served_kernel w) [] 0) = Ret (0, cfg') s' ∧
    sems (ps_k s') !! 500 = Some (mk_sem 0 0) ∧ ready (ps_k s') 20 = true.
Proof.
  pose proof served_call_succeeds as Hrun. unfold served_call in Hrun.
  destruct (vmm_alloc_pages_run demo_vm {[ 4096; 8192 ]} 64 demo_vcb [] [] 2 PTE_USER_PAGE demo_world demo_space
    ltac:(lia) eq_refl ltac:(lia)) as (va & w & E & H). rewrite E in Hrun.
  destruct (Z.eqb_spec va 0) as [|Hva]; [discriminate Hrun|].
  destruct H as [(Hz & _)|(p & b & t & ns1 & ns2 & rs1 & rs2 & _ & _ & Er & _ & _ & (P1 & P2 & P3 & _) & Hw & Hs & _)];
    [by destruct (Hva Hz)|]. unfold USER_HEAP_END in P2.
  pose proof (served_sharing w _ _ _ _ Hw Hs (λ H, app_cons_not_nil _ _ _ (eq_sym H))) as Hsh.
  destruct (portal_call_all_or_nothing _ _ _ _ _ _ _ _ _ _ _ _ _ _ _ _ _ _ _ _ _ _ _ _ 5 (va + 100) 200 (served_callable w _ _ _ _ Hsh) eq_refl)
    as (r & cfg' & s' & Ec & _ & Hok).
  - unfold USER_HEAP_END. lia.
  - lia.
  - rewrite Ec in Hrun. injection Hrun as ->.
    destruct (Hok eq_refl) as (_ & req & sem & x & k1 & pa & y & j & _ & _ & _ & _ & _ & _ & _ & _ & _ & _ & _ & _ & _ & _ & Hcount & _ & _ & Hwake).
    exists va, w, cfg', s'. split_and!; [exact E|reflexivity|exact Ec|exact Hcount|exact (Hwake 20 [] eq_refl)].
Defined.

Lemma own_live w va : queue_live (own_state (own_kernel w) [640] va) (own_portal [640]).
Proof. split; [apply NoDup_singleton|]. intros r Hr. apply list_elem_of_singleton in Hr as ->. split; [done|by eexists]. Qed.

Lemma portal_get_req_takes_newest_witness :
  ∃ cfg' s', portal_exec (portal_config PORTAL_CTRL_GET_REQ) (own_state (own_kernel demo_vm) [640] 4096) = Ret (0, cfg') s' ∧
    cf_req cfg' = 640 ∧ cf_va cfg' = 4096.
Proof.
  destruct (portal_get_req_takes_newest (own_state (own_kernel demo_vm) [640] 4096) 6 own_heap 5 (demo_tcb 1 64 3 TS_READY) ipc_pcb
    600 (own_portal [640]) (own_ease _ _ _) (own_ready _) eq_refl eq_refl (own_live _ _)) as (cfg' & s' & E & _ & _ & _ & _ & H).
  exists cfg', s'. split; [exact E|]. destruct (H 640 [] eq_refl) as (r & Hr & H1 & H2 & _).
  cbn in Hr. injection Hr as <-. split; [exact H1|exact H2].
Defined.

Lemma portal_reply_reaches_client_witness :
  ∃ s', portal_exec (mk_pcfg PORTAL_CTRL_REPLY 0 0 0 0 640 0 42) (own_state (own_kernel demo_vm) [] 4096)
      = Ret (0, mk_pcfg PORTAL_CTRL_REPLY 0 0 0 0 640 0 42) s' ∧
    portal_exec (mk_pcfg PORTAL_CTRL_GET_RESULT 0 0 0 0 640 0 0) s' = Ret (0, mk_pcfg PORTAL_CTRL_GET_RESULT 0 0 0 0 640 0 42) s'.
Proof.
  destruct (portal_reply_reaches_client (own_state (own_kernel demo_vm) [] 4096) 0 5 640 (own_request 4096) (mk_sem 1 0)
    (mk_wq [] (Some 7%nat)) 7 42) as (s' & E & _ & _ & _ & _ & _ & H).
  - lia.
  - reflexivity.
  - done.
  - done.
  - exact (own_sched _).
  - apply own_sem. auto.
  - simpl. lia.
  - exists s'. split; [exact E|]. apply H. reflexivity.
Defined.

Lemma portal_destroy_refuses_or_removes_witness :
  ∃ r s', portal_exec (mk_pcfg PORTAL_CTRL_DESTROY 0 5 0 0 0 0 0) (own_state (own_kernel demo_vm) [640] 4096)
      = Ret (r, mk_pcfg PORTAL_CTRL_DESTROY 0 5 0 0 0 0 0) s' ∧ r = 0 ∧ portal_header s' = [].
Proof.
  destruct (portal_destroy_refuses_or_removes (own_state (own_kernel demo_vm) [640] 4096) 6 600 (own_portal [640])
    [(640, own_request 4096, 7%nat)] (mk_wq [] (Some 4%nat)) 4 5 own_heap 5) as (r & s' & E & _ & H).
  - split; try reflexivity.
    + apply own_ease.
    + intros x Hx. apply list_elem_of_singleton in Hx as ->. split_and!; [reflexivity| |discriminate|unfold own_heap; simpl; set_solver..].
      exists (mk_wq [] (Some 7%nat)). by split.
    + by split.
    + simpl. repeat (apply NoDup_cons; split; [set_solver by lia|]). constructor.
    + split; [|unfold own_heap; simpl; set_solver]. simpl. repeat (apply NoDup_cons; split; [set_solver by lia|]). constructor.
    + apply own_owns.
    + by split.
  - reflexivity.
  - exists r, s'. split; [exact E|]. destruct (H eq_refl) as (-> & Hh & _). split; [done|exact Hh].
Defined.

Lemma own_shared w L ct nst rst pa size x k1 :
  shared (own_kernel w) 64 ipc_pcb own_heap L ct nst rst pa size (Some x) k1 →
  at_ease (own_state k1 [640] x) 6 ∧ sem_rest k1 520 (mk_wq [] (Some 7%nat)) 7 ∧
  semaphore_lock k1 = Some 5%nat ∧ (k_mach k1).2 !! 5%nat = Some LOCK_UNLOCKED ∧ x ≠ 0.
Proof.
  intros Hs. destruct (shared_form _ _ _ _ _ _ _ _ _ _ _ _ Hs) as (x' & y & h & w' & [= <-] & Hx & -> & _).
  split_and!; [| |reflexivity|reflexivity|exact Hx].
  - split; [reflexivity|reflexivity|]. intros p Hp. apply list_elem_of_singleton in Hp as ->. split; [discriminate|by eexists].
  - split; (reflexivity || discriminate).
Qed.

(** The memory is shared first; the request names its address. *)
Lemma portal_cleanup_undoes_call_witness :
  ∃ va w, Vmm.vmm_alloc_pages 64 2 PTE_USER_PAGE demo_vm = Ret va w ∧
    (va ≠ 0 → ∃ r o k1, shm_share 7 (va + 100) 200 (own_kernel w) = Ret (r, o) k1 ∧
       (r = 0 → ∃ s' x, o = Some x ∧ portal_exec (mk_pcfg PORTAL_CTRL_CLEANUP 0 0 0 0 640 0 0) (own_state k1 [640] x)
          = Ret (0, mk_pcfg PORTAL_CTRL_CLEANUP 0 0 0 0 640 0 0) s')).
Proof.
  destruct (vmm_alloc_pages_run demo_vm {[ 4096; 8192 ]} 64 demo_vcb [] [] 2 PTE_USER_PAGE demo_world demo_space
    ltac:(lia) eq_refl ltac:(lia)) as (va & w & E & H). exists va, w. split; [exact E|]. intros Hva.
  destruct H as [(Hz & _)|(p & b & t & ns1 & ns2 & rs1 & rs2 & _ & _ & Er & _ & _ & (P1 & P2 & P3 & _) & Hw & Hs & _)];
    [by destruct (Hva Hz)|]. unfold USER_HEAP_END in P2.
  pose proof (own_sharing w _ _ _ _ Hw Hs (λ H, app_cons_not_nil _ _ _ (eq_sym H))) as Hsh.
  destruct (shm_share_run _ _ _ _ _ _ _ _ _ _ _ _ _ _ _ _ _ (va + 100) 200 Hsh (own_owns w)) as (r & o & k1 & Es & _ & Hres);
    [unfold USER_HEAP_END; lia|lia|].
  exists r, o, k1. split; [exact Es|]. intros Hr.
  destruct Hres as [(Hr0 & _)|(_ & Hm & pa & Hpa & Hend & Hshd & _)]; [by destruct Hr0|].
  destruct o as [x|]; [|destruct Hshd as (? & ? & ? & ? & ? & ? & ? & ? & ? & ? & Hx & _); discriminate Hx].
  destruct (own_shared _ _ _ _ _ _ _ _ _ Hshd) as (Hae & Hsr & Hl & Hu & Hx).
  destruct (portal_cleanup_undoes_call (own_state k1 [640] x) (own_kernel w) 6 0 640 (own_request x) 64 64 ipc_pcb ipc_pcb 2 2 own_heap
    _ _ _ _ _ _ _ pa 200 7 5 Hae ltac:(lia) eq_refl Hsh Hm Hpa ltac:(lia) Hend Hshd Hx Hsr Hl Hu) as (s' & k2 & h & h' & Ec & _).
  - unfold own_heap. set_solver.
  - unfold own_heap. cbn. set_solver.
  - discriminate.
  - exists s', x. split; [reflexivity|exact Ec].
Defined.
