(* ===== verification/Io.v ===== *)
(** * Port input and output (kernel/io.c, the in/out instructions of
      arch/i386/regs.h)

    Ring-0 code reaches the ports directly; ring-3 code traps, and the handler
    asks the capabilities of the process first.  What the devices do is a
    parameter; the model records which ports are touched. *)

From stdpp Require Import base tactics list gmap.
From Stdlib Require Import ZArith Lia.
From S2P Require Import Prelude Spinlock Allocator Heap KState Capability Sched ThreadApi WaitQueue Semaphore.

Open Scope Z_scope.

Inductive width := W8 | W16 | W32.
Definition bytes (w : width) : Z := match w with W8 => 1 | W16 => 2 | W32 => 4 end.
Definition trunc (w : width) (v : Z) : Z := v mod 2 ^ (8 * bytes w).

(** The devices behind the ports. *)
Class Devices (D : Type) := {
  dev_in : width → Z → D → Z * D;
  dev_out : width → Z → Z → D → D;
}.

(** One bus cycle: it touches [bytes w] ports from [port] on. *)
Inductive cycle := In (w : width) (port : Z) | Out (w : width) (port value : Z).

Definition IO_CTRL_IN8 : Z := 0.
Definition IO_CTRL_IN16 : Z := 1.
Definition IO_CTRL_IN32 : Z := 2.
Definition IO_CTRL_OUT8 : Z := 3.
Definition IO_CTRL_OUT16 : Z := 4.
Definition IO_CTRL_OUT32 : Z := 5.

Record io_syscall_data := mk_io { iod_cmd : Z; iod_port : Z; iod_value : Z; iod_ret : Z }.
Definition io_set_value (v : Z) (c : io_syscall_data) : io_syscall_data := mk_io (iod_cmd c) (iod_port c) v (iod_ret c).
Definition io_set_ret (v : Z) (c : io_syscall_data) : io_syscall_data := mk_io (iod_cmd c) (iod_port c) (iod_value c) v.

(** The kernel, the devices and the bus cycles so far, newest first. *)
Record io_state (A U W D : Type) := mk_io_state {
  io_k : kernel A U W;
  io_dev : D;
  io_cycles : list cycle;
  io_scall_handle : Z;
}.
Arguments mk_io_state {A U W D}.
Arguments io_k {A U W D}.
Arguments io_dev {A U W D}.
Arguments io_cycles {A U W D}.
Arguments io_scall_handle {A U W D}.

Section io.
Context {A U W D : Type} `{!Devices D}.
Notation io_state := (io_state A U W D).
Implicit Types s : io_state.

Definition set_io_k (k : kernel A U W) s : io_state := mk_io_state k (io_dev s) (io_cycles s) (io_scall_handle s).
#[export] Instance io_state_kernel : Contains io_state (kernel A U W).
Proof. refine {| part := io_k; set_part := set_io_k |}; try done. by intros []. Defined.
Definition iz {B} (m : M (kernel A U W) B) : M io_state B := @zoom _ _ io_state_kernel _ m.

(** [arch_inb], [arch_inw], [arch_inl] and their counterparts. *)
Definition arch_in (w : width) (port : Z) : M io_state Z := λ s,
  let r := dev_in w port (io_dev s) in
  Ret (trunc w r.1) (mk_io_state (io_k s) r.2 (In w port :: io_cycles s) (io_scall_handle s)).
Definition arch_out (w : width) (port value : Z) : M io_state unit := λ s,
  Ret tt (mk_io_state (io_k s) (dev_out w port (trunc w value) (io_dev s)) (Out w port (trunc w value) :: io_cycles s) (io_scall_handle s)).

Definition io_run_direct : M io_state bool := r3 ← iz arch_running_ring3; mret (negb r3).

Definition io_exec (c : io_syscall_data) : M io_state (Z * io_syscall_data) :=
  c ← (if iod_cmd c =? IO_CTRL_IN8 then v ← arch_in W8 (iod_port c); mret (io_set_ret 0 (io_set_value v c)) else
       if iod_cmd c =? IO_CTRL_IN16 then v ← arch_in W16 (iod_port c); mret (io_set_ret 0 (io_set_value v c)) else
       if iod_cmd c =? IO_CTRL_IN32 then v ← arch_in W32 (iod_port c); mret (io_set_ret 0 (io_set_value v c)) else
       if iod_cmd c =? IO_CTRL_OUT8 then arch_out W8 (iod_port c) (iod_value c);; mret (io_set_ret 0 c) else
       if iod_cmd c =? IO_CTRL_OUT16 then arch_out W16 (iod_port c) (iod_value c);; mret (io_set_ret 0 c) else
       if iod_cmd c =? IO_CTRL_OUT32 then arch_out W32 (iod_port c) (iod_value c);; mret (io_set_ret 0 c) else
       mret (io_set_ret E_INVAL c));
  mret (iod_ret c, c).

Definition io_syscall_isr (data : option io_syscall_data) : M io_state (Z * option io_syscall_data) :=
  match data with
  | None => mret (E_INVAL, None)
  | Some c =>
      proc ← iz get_current_process;
      denied ← (if proc =? 0 then mret false else
                p ← iz (get_pcb proc);
                if bool_decide (p_priv p = PROC_PRIV_KERNEL) then mret false else
                r ← iz (cap_check proc CAP_ACCESS_IO (Some (mk_cap_io_port (iod_port c) 1)));
                mret (negb (r =? 0)));
      if (denied : bool) then mret (E_PERM, Some (io_set_ret E_PERM c)) else
      r ← io_exec c;
      mret (r.1, Some r.2)
  end.

(** The wrappers; the trap is [arch_syscall] with the handle of the call. *)
Context `{!Gate io_state io_syscall_data}.

Definition io_trap (c : io_syscall_data) : M io_state (Z * io_syscall_data) :=
  h ← gets io_scall_handle;
  n ← iz (gets irq_reenter_cnt);
  if n =? -1 then int_100 h c else mret (E_AGAIN, c).

Definition io_run (c : io_syscall_data) : M io_state io_syscall_data :=
  d ← io_run_direct;
  r ← (if (d : bool) then io_exec c else io_trap c);
  mret r.2.

Definition ioread8 (port : Z) : M io_state Z := c ← io_run (mk_io IO_CTRL_IN8 port 0 0); mret (trunc W8 (iod_value c)).
Definition ioread16 (port : Z) : M io_state Z := c ← io_run (mk_io IO_CTRL_IN16 port 0 0); mret (trunc W16 (iod_value c)).
Definition ioread32 (port : Z) : M io_state Z := c ← io_run (mk_io IO_CTRL_IN32 port 0 0); mret (iod_value c).
Definition iowrite8 (port value : Z) : M io_state unit := io_run (mk_io IO_CTRL_OUT8 port value 0);; mret tt.
Definition iowrite16 (port value : Z) : M io_state unit := io_run (mk_io IO_CTRL_OUT16 port value 0);; mret tt.
Definition iowrite32 (port value : Z) : M io_state unit := io_run (mk_io IO_CTRL_OUT32 port value 0);; mret tt.

(** ** What the commands do *)

(** The bus cycle of a command: none for an unknown one. *)
Definition cycle_of (c : io_syscall_data) : option cycle :=
  match iod_cmd c with
  | 0 => Some (In W8 (iod_port c))
  | 1 => Some (In W16 (iod_port c))
  | 2 => Some (In W32 (iod_port c))
  | 3 => Some (Out W8 (iod_port c) (trunc W8 (iod_value c)))
  | 4 => Some (Out W16 (iod_port c) (trunc W16 (iod_value c)))
  | 5 => Some (Out W32 (iod_port c) (trunc W32 (iod_value c)))
  | _ => None
  end.

(** A cycle on the devices, and the value a read brings. *)
Definition perform (y : cycle) (d : D) : option Z * D :=
  match y with
  | In w port => let r := dev_in w port d in (Some (trunc w r.1), r.2)
  | Out w port v => (None, dev_out w port v d)
  end.

Lemma io_exec_run c s :
  io_exec c s =
    match cycle_of c with
    | None => Ret (E_INVAL, io_set_ret E_INVAL c) s
    | Some y =>
        let r := perform y (io_dev s) in
        Ret (0, io_set_ret 0 (match r.1 with Some v => io_set_value v c | None => c end))
          (mk_io_state (io_k s) r.2 (y :: io_cycles s) (io_scall_handle s))
    end.
Proof.
  unfold io_exec, cycle_of. destruct c as [cmd port v r]. cbn [iod_cmd iod_port iod_value].
  destruct cmd as [|[[q|q|]|[q|q|]|]|q]; try reflexivity.
  all: destruct q; reflexivity.
Qed.

Lemma iz_read {B} (m : M (kernel A U W) B) s b : m (io_k s) = Ret b (io_k s) → iz m s = Ret b s.
Proof.
  intros H. unfold iz. rewrite (zoom_Ret (Contains0 := io_state_kernel) m s b (io_k s) H). by destruct s.
Qed.

(** A process may touch one port: the kernel's may touch all of them. *)
Definition may_touch (p : pcb) (port : Z) : Prop :=
  p_priv p = PROC_PRIV_KERNEL ∨
  ∃ g, held CAP_ACCESS_IO g (p_caps p) ∧ io_base g <= port < io_base g + io_count g.

Lemma io_gate_run s proc p l port :
  cap_holder (io_k s) proc p l → caps_u32 (p_caps p) → is_u32 port →
  ∃ b, (p ← iz (get_pcb proc);
        if bool_decide (p_priv p = PROC_PRIV_KERNEL) then mret false else
        r ← iz (cap_check proc CAP_ACCESS_IO (Some (mk_cap_io_port port 1))); mret (negb (r =? 0))) s = Ret b s ∧
    (b = false ↔ may_touch p port).
Proof.
  intros Hh Hu Hp. unfold may_touch.
  rewrite (bind_Ret _ _ _ p s) by (by apply iz_read, deref_Some, (ch_pcb _ _ _ _ Hh)).
  destruct (bool_decide_reflect (p_priv p = PROC_PRIV_KERNEL)) as [Hk|Hk]; [exists false; split; [done|]; split; auto|].
  destruct (cap_check_answer (io_k s) proc p l CAP_ACCESS_IO (mk_cap_io_port port 1) Hh Hu ltac:(by split)) as (r & E & _ & Hr).
  exists (negb (r =? 0)). erewrite bind_Ret; [|apply iz_read; exact E]. split; [done|].
  rewrite negb_false_iff, Z.eqb_eq, Hr. split.
  - intros (g & Hg & _ & H1 & H2). right. exists g. simpl in H1, H2. split; [done|lia].
  - intros [?|(g & Hg & H)]; [done|]. exists g. split; [done|]. simpl. lia.
Qed.

(** A system call for port access runs the in or out instruction of its
    command exactly once, at the port of the request and with its width, and
    returns the value read - but for a user process only when one of its
    grants contains the port; otherwise the answer is E_PERM and no port is
    touched.  An unknown command is E_INVAL and touches nothing either.  The
    rest of the kernel does not change. *)
Theorem io_isr_only_granted_ports s proc x p l c :
  thread_run (io_k s) ≠ 0 → tcbs (io_k s) !! thread_run (io_k s) = Some x → t_parent x = proc →
  cap_holder (io_k s) proc p l → caps_u32 (p_caps p) → is_u32 (iod_port c) →
  (¬ may_touch p (iod_port c) → io_syscall_isr (Some c) s = Ret (E_PERM, Some (io_set_ret E_PERM c)) s) ∧
  (may_touch p (iod_port c) → io_syscall_isr (Some c) s =
     match cycle_of c with
     | None => Ret (E_INVAL, Some (io_set_ret E_INVAL c)) s
     | Some y =>
         let r := perform y (io_dev s) in
         Ret (0, Some (io_set_ret 0 (match r.1 with Some v => io_set_value v c | None => c end)))
           (mk_io_state (io_k s) r.2 (y :: io_cycles s) (io_scall_handle s))
     end).
Proof.
  intros Hr Hx Hp Hh Hu Hport. unfold io_syscall_isr.
  assert (Ec : iz get_current_process s = Ret proc s).
  { apply iz_read. unfold get_current_process. erewrite (bind_Ret (gets thread_run)); [|reflexivity].
    rewrite (proj2 (Z.eqb_neq _ 0) Hr). rewrite (bind_Ret _ _ _ x (io_k s)) by (by apply deref_Some). by rewrite Hp. }
  rewrite (bind_Ret _ _ _ _ _ Ec), (proj2 (Z.eqb_neq proc 0)) by apply Hh.
  destruct (io_gate_run s proc p l (iod_port c) Hh Hu Hport) as (b & E & Hb). rewrite (bind_Ret _ _ _ _ _ E).
  destruct b; split; intros H; try done.
  - by apply Hb in H.
  - by destruct (H (proj1 Hb eq_refl)).
  - unfold mbind, M_bind. rewrite io_exec_run. by destruct (cycle_of c).
Qed.

Lemma trunc_trunc w v : trunc w (trunc w v) = trunc w v.
Proof. unfold trunc. apply Z.mod_mod. by destruct w. Qed.

(** In ring 0 the six accessors are the in and out instructions: one bus
    cycle of their width at the given port, the value the device gave, and no
    system call. *)
Theorem io_ring0_direct s port v :
  ring3 (k_mach (io_k s)).1 = false →
  let read w := Ret (trunc w (dev_in w port (io_dev s)).1)
    (mk_io_state (io_k s) (dev_in w port (io_dev s)).2 (In w port :: io_cycles s) (io_scall_handle s)) in
  let write w := Ret tt
    (mk_io_state (io_k s) (dev_out w port (trunc w v) (io_dev s)) (Out w port (trunc w v) :: io_cycles s) (io_scall_handle s)) in
  ioread8 port s = read W8 ∧ ioread16 port s = read W16 ∧ ioread32 port s = read W32 ∧
  iowrite8 port v s = write W8 ∧ iowrite16 port v s = write W16 ∧ iowrite32 port v s = write W32.
Proof.
  intros Hr read write.
  assert (Ed : io_run_direct s = Ret true s).
  { unfold io_run_direct. rewrite (bind_Ret _ _ _ false s); [done|]. apply iz_read. unfold arch_running_ring3, gets. by rewrite Hr. }
  assert (Eio : ∀ c, io_run c s = (r ← io_exec c; mret r.2) s).
  { intros c. unfold io_run. by rewrite (bind_Ret _ _ _ _ _ Ed). }
  unfold ioread8, ioread16, ioread32, iowrite8, iowrite16, iowrite32.
  unfold mbind at 1 2 3 4 5 6, M_bind at 1 2 3 4 5 6. rewrite !Eio. unfold mbind, M_bind. rewrite !io_exec_run.
  cbn [cycle_of iod_cmd iod_port iod_value IO_CTRL_IN8 IO_CTRL_IN16 IO_CTRL_IN32 IO_CTRL_OUT8 IO_CTRL_OUT16 IO_CTRL_OUT32
    perform fst snd io_set_ret io_set_value mret M_ret].
  split_and!; try reflexivity; unfold read, mret, M_ret; cbn; by rewrite trunc_trunc.
Qed.
End io.

(** ** Witnesses: ports that remember the bytes written to them *)

Definition byte_regs : Type := gmap Z Z.
Definition reg (d : byte_regs) (p : Z) : Z := default 0 (d !! p).

#[export] Instance reg_devices : Devices byte_regs := {|
  dev_in w p d := (match w with
    | W8 => reg d p
    | W16 => reg d p + 256 * reg d (p + 1)
    | W32 => reg d p + 256 * reg d (p + 1) + 65536 * reg d (p + 2) + 16777216 * reg d (p + 3) end, d);
  dev_out w p v d := match w with
    | W8 => <[p := v mod 256]> d
    | W16 => <[p := v mod 256]> (<[p + 1 := v / 256]> d)
    | W32 => <[p := v mod 256]> (<[p + 1 := v / 256 mod 256]> (<[p + 2 := v / 65536 mod 256]> (<[p + 3 := v / 16777216]> d))) end;
|}.

(** The keyboard server: a grant for port 0x60 alone. *)
Definition kb_pcb : pcb :=
  mk_pcb 3 PS_READY PROC_PRIV_USER [10] 0 (Some 1%nat) [(700, mk_cap CAP_ACCESS_IO (mk_cap_io_port 96 1))] (Some 2%nat).

Definition io_demo : io_state heap heap Z byte_regs :=
  mk_io_state (set_thread_run 10 (set_tcbs {[ 10 := demo_tcb 1 64 3 TS_READY ]}
    (set_pcbs {[ 64 := kb_pcb ]} (boot_kernel demo_locks small_heap small_heap 0)))) {[ 96 := 30 ]} [] (-1).

Lemma kb_caps : caps_u32 (p_caps kb_pcb).
Proof.
  intros ty v. rewrite held_snd. cbn [map snd p_caps kb_pcb]. intros Hv%list_elem_of_singleton.
  apply (mk_cap_transport _ _ _ _ cap_u32 Hv). by split.
Qed.

Lemma io_isr_only_granted_ports_witness :
  io_syscall_isr (Some (mk_io IO_CTRL_IN8 96 0 0)) io_demo
  = Ret (0, Some (mk_io IO_CTRL_IN8 96 30 0)) (mk_io_state (io_k io_demo) {[ 96 := 30 ]} [In W8 96] (-1)).
Proof.
  destruct (io_isr_only_granted_ports io_demo 64 (demo_tcb 1 64 3 TS_READY) kb_pcb 2 (mk_io IO_CTRL_IN8 96 0 0)) as [_ H].
  - discriminate.
  - reflexivity.
  - reflexivity.
  - split; (reflexivity || discriminate).
  - exact kb_caps.
  - split; simpl; lia.
  - apply H. right. exists (mk_cap_io_port 96 1). split; [exists 700; left|simpl; lia].
Defined.

Lemma io_ring0_direct_witness : ioread8 96 io_demo = Ret 30 (mk_io_state (io_k io_demo) {[ 96 := 30 ]} [In W8 96] (-1)).
Proof.
  destruct (io_ring0_direct io_demo 96 0) as [H _]; [reflexivity|]. exact H.
Defined.

(** Only the first port of a wide access is checked: with the grant for port
    0x60 alone a 32-bit write sets the ports up to 0x63. *)
Example io_wide_access_leaves_the_grant :
  match io_syscall_isr (Some (mk_io IO_CTRL_OUT32 96 305419896 0)) io_demo with
  | Ret (r, _) s => r = 0 ∧ reg (io_dev s) 99 = 18
  | _ => False
  end ∧
  match io_syscall_isr (Some (mk_io IO_CTRL_OUT8 99 18 0)) io_demo with Ret (r, _) _ => r = E_PERM | _ => False end.
Proof. vm_compute. auto. Qed.
