(* ===== verification/KConsole.v ===== *)
(** * The kernel's own output (arch/i386/klog.c, arch/i386/kterm.c)

    klog writes to the serial port, kterm to the text memory of the VGA; both
    keep interrupts off while they write and put the flag back afterwards.
    They run in ring 0, where the port functions are the instructions
    themselves (Io.v). *)

From stdpp Require Import base tactics list.
From Stdlib Require Import ZArith Lia.
From S2P Require Import Prelude Io.

Open Scope Z_scope.

(** ** Ports *)

(** The devices and the accesses so far, newest first. *)
Record wires (D : Type) := mk_wires { w_dev : D; w_cycles : list cycle }.
Arguments mk_wires {D}.
Arguments w_dev {D}.
Arguments w_cycles {D}.

Section wires.
Context {D : Type} `{!Devices D}.

Definition wout (port v : Z) : M (wires D) unit := λ w,
  Ret tt (mk_wires (dev_out W8 port (u8 v) (w_dev w)) (Out W8 port (u8 v) :: w_cycles w)).
Definition win (port : Z) : M (wires D) Z := λ w,
  let r := dev_in W8 port (w_dev w) in Ret (u8 r.1) (mk_wires r.2 (In W8 port :: w_cycles w)).

(** The wait for an empty transmitter, as klog.c, log_server2.c and
    kb_server.c have it: [n] more failures are allowed. *)
Fixpoint thr_wait (n : nat) : M (wires D) bool :=
  v ← win 1021;
  if negb (Z.land v 32 =? 0) then mret true else
  match n with
  | O => mret false
  | S n => thr_wait n
  end.
Definition UART_TIMEOUT : nat := Z.to_nat 1000000.
Definition COM1_BASE : Z := 1016.   (* 0x3F8 *)

(** One character: whether it was sent. *)
Definition uart_put (c : Z) : M (wires D) bool :=
  ok ← thr_wait UART_TIMEOUT;
  if (ok : bool) then wout COM1_BASE c;; mret true else mret false.

(** The bytes sent to a port, oldest first. *)
Definition sent (port : Z) (l : list cycle) : list Z :=
  omap (λ y, match y with Out W8 p v => if p =? port then Some v else None | _ => None end) (reverse l).

Lemma sent_app port l1 l2 : sent port (l1 ++ l2) = sent port l2 ++ sent port l1.
Proof. unfold sent. by rewrite reverse_app, omap_app. Qed.

(** A transmitter that is always ready, and one that never is. *)
Definition uart_ready : Prop := ∀ d, Z.land (u8 (dev_in W8 1021 d).1) 32 ≠ 0.
Definition uart_dead : Prop := ∀ d, Z.land (u8 (dev_in W8 1021 d).1) 32 = 0.

Lemma thr_wait_ready n w : uart_ready → ∃ d, thr_wait n w = Ret true (mk_wires d (In W8 1021 :: w_cycles w)).
Proof.
  intros Hr. exists (dev_in W8 1021 (w_dev w)).2. destruct n; cbn [thr_wait]; (erewrite bind_Ret; [|reflexivity]);
    by rewrite (proj2 (Z.eqb_neq _ _) (Hr (w_dev w))).
Qed.

Lemma thr_wait_dead : uart_dead → ∀ n w, ∃ w', thr_wait n w = Ret false w' ∧ sent COM1_BASE (w_cycles w') = sent COM1_BASE (w_cycles w).
Proof.
  intros Hd. induction n as [|n IH]; intros w; cbn [thr_wait]; (erewrite bind_Ret; [|reflexivity]);
    rewrite (proj2 (Z.eqb_eq _ _) (Hd (w_dev w))); cbn [negb].
  - eexists. split; [reflexivity|]. cbn [w_cycles]. change (In W8 1021 :: w_cycles w) with ([In W8 1021] ++ w_cycles w).
    by rewrite sent_app, app_nil_r.
  - destruct (IH (mk_wires (dev_in W8 1021 (w_dev w)).2 (In W8 1021 :: w_cycles w))) as (w' & E & Hs).
    exists w'. split; [exact E|]. rewrite Hs. cbn [w_cycles]. change (In W8 1021 :: w_cycles w) with ([In W8 1021] ++ w_cycles w).
    by rewrite sent_app, app_nil_r.
Qed.

Lemma uart_put_ready c w : uart_ready → ∃ w', uart_put c w = Ret true w' ∧
  sent COM1_BASE (w_cycles w') = sent COM1_BASE (w_cycles w) ++ [u8 c].
Proof.
  intros Hr. unfold uart_put. destruct (thr_wait_ready UART_TIMEOUT w Hr) as (d & E). rewrite (bind_Ret _ _ _ _ _ E).
  eexists. split; [reflexivity|]. cbn [w_cycles].
  change (Out W8 COM1_BASE (u8 c) :: In W8 1021 :: w_cycles w) with ([Out W8 COM1_BASE (u8 c); In W8 1021] ++ w_cycles w).
  by rewrite sent_app.
Qed.

Lemma uart_put_dead c w : uart_dead → ∃ w', uart_put c w = Ret false w' ∧
  sent COM1_BASE (w_cycles w') = sent COM1_BASE (w_cycles w).
Proof.
  intros Hd. unfold uart_put. destruct (thr_wait_dead Hd UART_TIMEOUT w) as (w' & E & Hs). rewrite (bind_Ret _ _ _ _ _ E).
  by exists w'.
Qed.
End wires.

(** ** The kernel's two consoles *)

Record kcon (D : Type) := mk_kcon {
  kc_wires : wires D;
  kc_if : bool;              (* the interrupt flag *)
  klog_inited : bool;
  kterm_inited : bool;
  kterm_buf : list Z;        (* the cells from 0xB8000 on *)
  kterm_row : Z;
  kterm_col : Z;
  kterm_color : Z;
}.
Arguments mk_kcon {D}.
Arguments kc_wires {D}.
Arguments kc_if {D}.
Arguments klog_inited {D}.
Arguments kterm_inited {D}.
Arguments kterm_buf {D}.
Arguments kterm_row {D}.
Arguments kterm_col {D}.
Arguments kterm_color {D}.

Section kcon.
Context {D : Type} `{!Devices D}.
Notation kcon := (kcon D).
Implicit Types s : kcon.

Definition set_wires (w : wires D) s : kcon :=
  mk_kcon w (kc_if s) (klog_inited s) (kterm_inited s) (kterm_buf s) (kterm_row s) (kterm_col s) (kterm_color s).
Definition set_if (b : bool) s : kcon :=
  mk_kcon (kc_wires s) b (klog_inited s) (kterm_inited s) (kterm_buf s) (kterm_row s) (kterm_col s) (kterm_color s).
Definition set_klog_inited s : kcon :=
  mk_kcon (kc_wires s) (kc_if s) true (kterm_inited s) (kterm_buf s) (kterm_row s) (kterm_col s) (kterm_color s).
Definition set_kterm_inited s : kcon :=
  mk_kcon (kc_wires s) (kc_if s) (klog_inited s) true (kterm_buf s) (kterm_row s) (kterm_col s) (kterm_color s).
Definition set_kterm (b : list Z) (r c v : Z) s : kcon :=
  mk_kcon (kc_wires s) (kc_if s) (klog_inited s) (kterm_inited s) b r c v.

Definition iow {A} (m : M (wires D) A) : M kcon A := λ s,
  match m (kc_wires s) with Ret a w => Ret a (set_wires w s) | Spin => Spin | Fault => Fault end.
Definition iowrite8 (port v : Z) : M kcon unit := iow (wout port v).
Definition ioread8 (port : Z) : M kcon Z := iow (win port).

(** A run of [iowrite8]. *)
Fixpoint outs (l : list (Z * Z)) : M kcon unit :=
  match l with
  | [] => mret tt
  | (p, v) :: l => iowrite8 p v;; outs l
  end.

(** [pushfl; cli; ...; popfl]. *)
Definition irq_off (m : M kcon unit) : M kcon unit :=
  f ← gets kc_if;
  modify (set_if false);;
  m;;
  modify (set_if f).

(** *** Serial port *)

Definition klog_init : M kcon unit :=
  outs [(COM1_BASE + 1, 0); (COM1_BASE + 3, 128); (COM1_BASE + 0, 3); (COM1_BASE + 1, 0);
        (COM1_BASE + 3, 3); (COM1_BASE + 2, 199); (COM1_BASE + 4, 11); (COM1_BASE + 4, 15)];;
  modify set_klog_inited.

Definition klog_putc_locked (c : Z) : M kcon unit := iow (uart_put c);; mret tt.

Definition klog_ready : M kcon unit := b ← gets klog_inited; if (b : bool) then mret tt else klog_init.

Definition klog_putc (c : Z) : M kcon unit := klog_ready;; irq_off (klog_putc_locked c).

Fixpoint klog_chars (s : list Z) : M kcon unit :=
  match s with
  | [] => mret tt
  | c :: s => klog_putc_locked c;; klog_chars s
  end.
(** The string without its terminator; [None] is the null pointer. *)
Definition klog_write (s : option (list Z)) : M kcon unit :=
  match s with
  | None => mret tt
  | Some s => klog_ready;; irq_off (klog_chars s)
  end.

(** *** Screen *)

Definition KTERM_WIDTH : Z := 80.
Definition KTERM_HEIGHT : Z := 25.
Definition KTERM_DEFAULT_COLOR : Z := 7.

Definition set_pos (r c : Z) : M kcon unit := modify (λ s, set_kterm (kterm_buf s) r c (kterm_color s) s).

Definition kterm_cursor_update : M kcon unit :=
  s ← get;
  let pos := u16 (kterm_row s * KTERM_WIDTH + kterm_col s) in
  outs [(980, 14); (981, Z.shiftr pos 8); (980, 15); (981, Z.land pos 255)].

(** [kterm_buf[index] = ...]: a fault outside the text memory. *)
Definition put_cell (i v : Z) : M kcon unit := λ s,
  if (0 <=? i) && (i <? Z.of_nat (length (kterm_buf s))) then
    Ret tt (set_kterm (<[Z.to_nat i := v]> (kterm_buf s)) (kterm_row s) (kterm_col s) (kterm_color s) s)
  else Fault.

Definition kterm_cell (c : Z) : M kcon unit :=
  s ← get;
  put_cell (u32 (kterm_row s * KTERM_WIDTH + kterm_col s)) (Z.lor (u16 c) (Z.shiftl (kterm_color s) 8)).

Definition next_row (r : Z) : Z := let r := u32 (r + 1) in if KTERM_HEIGHT <=? r then 0 else r.

(** [c] is a signed [char]. *)
Definition kterm_putc_locked (c : Z) : M kcon unit :=
  s ← get;
  (if c =? 10 then set_pos (next_row (kterm_row s)) 0
   else if c =? 8 then
     if 0 <? kterm_col s then set_pos (kterm_row s) (kterm_col s - 1);; kterm_cell 32
     else if 0 <? kterm_row s then set_pos (kterm_row s - 1) (KTERM_WIDTH - 1);; kterm_cell 32
     else mret tt
   else if 32 <=? c then
     kterm_cell c;;
     let col := u32 (kterm_col s + 1) in
     if KTERM_WIDTH <=? col then set_pos (next_row (kterm_row s)) 0 else set_pos (kterm_row s) col
   else mret tt);;
  kterm_cursor_update.

Definition kterm_init : M kcon unit :=
  outs [(980, 10); (981, 0); (980, 11); (981, 15)];;
  modify (λ s, set_kterm (kterm_buf s) 0 0 KTERM_DEFAULT_COLOR s);;
  kterm_cursor_update;;
  modify set_kterm_inited.

Definition kterm_ready : M kcon unit := b ← gets kterm_inited; if (b : bool) then mret tt else kterm_init.

Definition kterm_putc (c : Z) : M kcon unit := kterm_ready;; irq_off (kterm_putc_locked c).

Fixpoint kterm_chars (s : list Z) : M kcon unit :=
  match s with
  | [] => mret tt
  | c :: s => kterm_putc_locked c;; kterm_chars s
  end.
Definition kterm_write (s : option (list Z)) : M kcon unit :=
  match s with
  | None => mret tt
  | Some s => kterm_ready;; irq_off (kterm_chars s)
  end.

Definition kterm_write_color (s : option (list Z)) (color : Z) : M kcon unit :=
  old ← gets kterm_color;
  modify (λ s, set_kterm (kterm_buf s) (kterm_row s) (kterm_col s) color s);;
  kterm_write s;;
  modify (λ s, set_kterm (kterm_buf s) (kterm_row s) (kterm_col s) old s).

(** The two nested loops over rows and columns, cell after cell. *)
Fixpoint clear_loop (n : nat) (i : Z) : M kcon unit :=
  match n with
  | O => mret tt
  | S n => s ← get; put_cell i (Z.lor 32 (Z.shiftl (kterm_color s) 8));; clear_loop n (i + 1)
  end.

Definition kterm_reset : M kcon unit :=
  modify (λ s, set_kterm (kterm_buf s) 0 0 KTERM_DEFAULT_COLOR s);;
  clear_loop (Z.to_nat 2000) 0;;
  kterm_cursor_update.

Definition kterm_clear : M kcon unit := kterm_ready;; irq_off kterm_reset.

Fixpoint write_regs (addr_port data_port i : Z) (regs : list Z) : M kcon unit :=
  match regs with
  | [] => mret tt
  | v :: regs => iowrite8 addr_port (u8 i);; iowrite8 data_port v;; write_regs addr_port data_port (i + 1) regs
  end.
Definition kterm_vga_write_regs (addr_port data_port : Z) (regs : list Z) : M kcon unit := write_regs addr_port data_port 0 regs.

Definition kterm_seq_0x03 : list Z := [3; 0; 3; 0; 2].
Definition kterm_crtc_0x03 : list Z :=
  [95; 79; 80; 130; 85; 129; 191; 31; 0; 79; 13; 14; 0; 0; 0; 80; 156; 14; 143; 40; 31; 150; 185; 163; 255].
Definition kterm_gc_0x03 : list Z := [0; 0; 0; 0; 0; 16; 14; 15; 255].
Definition kterm_ac_0x03 : list Z := [0; 1; 2; 3; 4; 5; 6; 7; 8; 9; 10; 11; 12; 13; 14; 15; 12].
Definition kterm_text_palette : list (Z * Z * Z) :=
  [(0, 0, 0); (0, 0, 42); (0, 42, 0); (0, 42, 42); (42, 0, 0); (42, 0, 42); (42, 21, 0); (42, 42, 42);
   (21, 21, 21); (21, 21, 63); (21, 63, 21); (21, 63, 63); (63, 21, 21); (63, 21, 63); (63, 63, 21); (63, 63, 63)].

Definition kterm_vga_set_text_mode : M kcon unit :=
  ioread8 986;;
  outs [(962, 103); (964, 0); (965, 1)];;
  kterm_vga_write_regs 964 965 kterm_seq_0x03;;
  outs [(964, 0); (965, 3); (980, 17)];;
  v ← ioread8 981;
  iowrite8 981 (u8 (Z.land v 127));;
  kterm_vga_write_regs 980 981 kterm_crtc_0x03;;
  kterm_vga_write_regs 974 975 kterm_gc_0x03;;
  ioread8 986;;
  kterm_vga_write_regs 960 960 kterm_ac_0x03;;
  outs [(960, 32); (966, 255); (968, 0)];;
  outs (kterm_text_palette ≫= λ c, [(969, c.1.1); (969, c.1.2); (969, c.2)]).

Definition kterm_switch_to_text_mode : M kcon unit :=
  irq_off (
    kterm_vga_set_text_mode;;
    outs [(980, 10); (981, 0); (980, 11); (981, 15)];;
    kterm_reset;;
    modify set_kterm_inited).
End kcon.

(** ** The serial log *)

Section klog_proofs.
Context {D : Type} `{!Devices D}.
Notation kcon := (kcon D).
Implicit Types s : kcon.

Definition serial s : list Z := sent COM1_BASE (w_cycles (kc_wires s)).

Lemma klog_chars_run (f : list Z → list Z) str :
  (∀ c w, ∃ b w', uart_put (D := D) c w = Ret b w' ∧ sent COM1_BASE (w_cycles w') = sent COM1_BASE (w_cycles w) ++ f [c]) →
  (∀ l1 l2, f (l1 ++ l2) = f l1 ++ f l2) → f [] = [] →
  ∀ s, ∃ w, klog_chars str s = Ret tt (set_wires w s) ∧ sent COM1_BASE (w_cycles w) = serial s ++ f str.
Proof.
  intros Hput Happ Hnil. induction str as [|c str IH]; intros s; cbn [klog_chars].
  - exists (kc_wires s). rewrite Hnil, app_nil_r. by destruct s.
  - destruct (Hput c (kc_wires s)) as (b & w & E & Hs).
    assert (E1 : klog_putc_locked c s = Ret tt (set_wires w s)).
    { unfold klog_putc_locked. rewrite (bind_Ret _ _ _ b (set_wires w s)); [done|]. unfold iow. by rewrite E. }
    rewrite (bind_Ret _ _ _ _ _ E1). destruct (IH (set_wires w s)) as (w' & E2 & Hs2).
    exists w'. rewrite E2. split; [by destruct s|]. rewrite Hs2. unfold serial. cbn [kc_wires set_wires]. rewrite Hs, <- app_assoc.
    f_equal. symmetry. apply (Happ [c] str).
Qed.

Lemma irq_off_run (m : M kcon unit) s s' : m (set_if false s) = Ret tt s' → irq_off m s = Ret tt (set_if (kc_if s) s').
Proof.
  intros E. unfold irq_off. erewrite (bind_Ret (gets kc_if)); [|reflexivity]. erewrite bind_Ret; [|reflexivity].
  by rewrite (bind_Ret _ _ _ _ _ E).
Qed.

(** Once the port is set up, [klog_write] always returns, with the
    interrupt flag as it was and the screen untouched: on a working serial
    port exactly the bytes of the string have been sent, in order, and on one
    whose transmitter never becomes ready nothing has been sent. *)
Theorem klog_write_sends_or_gives_up s str :
  klog_inited s = true →
  (uart_ready (D := D) → ∃ w, klog_write (Some str) s = Ret tt (set_wires w s) ∧
     sent COM1_BASE (w_cycles w) = serial s ++ map u8 str) ∧
  (uart_dead (D := D) → ∃ w, klog_write (Some str) s = Ret tt (set_wires w s) ∧ sent COM1_BASE (w_cycles w) = serial s).
Proof.
  intros Hi.
  assert (Hw : ∀ w, klog_chars str (set_if false s) = Ret tt (set_wires w (set_if false s)) →
    klog_write (Some str) s = Ret tt (set_wires w s)).
  { intros w E. unfold klog_write, klog_ready. rewrite (bind_Ret _ _ _ tt s).
    - rewrite (irq_off_run _ _ _ E). by destruct s.
    - erewrite (bind_Ret (gets klog_inited)); [|reflexivity]. by rewrite Hi. }
  split; intros Hu.
  - destruct (klog_chars_run (map u8) str) with (s := set_if false s) as (w & E & Hs); [| |done|].
    + intros c w. destruct (uart_put_ready c w Hu) as (w' & E & Hs). by exists true, w'.
    + apply map_app.
    + exists w. split; [by apply Hw|exact Hs].
  - destruct (klog_chars_run (λ _, []) str) with (s := set_if false s) as (w & E & Hs); [|done|done|].
    + intros c w. destruct (uart_put_dead c w Hu) as (w' & E & Hs). exists false, w'. by rewrite app_nil_r.
    + exists w. split; [by apply Hw|]. by rewrite app_nil_r in Hs.
Qed.
End klog_proofs.

(** ** The screen of the kernel *)

(** The visible cells and the position of the cursor: behind the last cell
    writing goes on in the first one. *)
Record page := mk_page { pg_cells : list Z; pg_pos : Z }.
Definition kshow (color : Z) (k : page) (c : Z) : page :=
  if c =? 10 then mk_page (pg_cells k) ((pg_pos k / 80 + 1) * 80 mod 2000)
  else if c =? 8 then
    if pg_pos k =? 0 then k
    else mk_page (<[Z.to_nat (pg_pos k - 1) := Z.lor 32 (Z.shiftl color 8)]> (pg_cells k)) (pg_pos k - 1)
  else if 32 <=? c then
    mk_page (<[Z.to_nat (pg_pos k) := Z.lor c (Z.shiftl color 8)]> (pg_cells k)) ((pg_pos k + 1) mod 2000)
  else k.

Section kterm_proofs.
Context {D : Type} `{!Devices D}.
Notation kcon := (kcon D).
Implicit Types s : kcon.

Record kterm_ok s : Prop := {
  ko_buf : (Z.to_nat 2000 <= length (kterm_buf s))%nat;
  ko_row : 0 <= kterm_row s < 25;
  ko_col : 0 <= kterm_col s < 80;
}.
Definition page_of s : page := mk_page (kterm_buf s) (kterm_row s * 80 + kterm_col s).

(** What writing text leaves alone. *)
Definition same_flags s s' : Prop :=
  kc_if s' = kc_if s ∧ klog_inited s' = klog_inited s ∧ kterm_inited s' = kterm_inited s ∧ kterm_color s' = kterm_color s.

Lemma outs_run l : ∀ s, ∃ w, outs l s = Ret tt (set_wires w s).
Proof.
  induction l as [|[p v] l IH]; intros s; cbn [outs]; [exists (kc_wires s); by destruct s|].
  erewrite bind_Ret; [|reflexivity]. destruct (IH (set_wires (mk_wires (dev_out W8 p (u8 v) (w_dev (kc_wires s))) (Out W8 p (u8 v) :: w_cycles (kc_wires s))) s)) as (w & E).
  exists w. exact E.
Qed.

Lemma kcursor_run s : ∃ w, kterm_cursor_update s = Ret tt (set_wires w s).
Proof. unfold kterm_cursor_update. erewrite (bind_Ret get); [|reflexivity]. apply outs_run. Qed.

Lemma kcell_run s c v : 0 <= c < 65536 → (Z.to_nat 2000 <= length (kterm_buf s))%nat → 0 <= kterm_row s < 25 → 0 <= kterm_col s < 80 →
  v = Z.lor c (Z.shiftl (kterm_color s) 8) →
  kterm_cell c s = Ret tt (set_kterm (<[Z.to_nat (kterm_row s * 80 + kterm_col s) := v]> (kterm_buf s)) (kterm_row s) (kterm_col s) (kterm_color s) s).
Proof.
  intros Hc Hb Hr Hcol ->. unfold kterm_cell. erewrite (bind_Ret get); [|reflexivity]. unfold put_cell, KTERM_WIDTH.
  rewrite u32_small by (unfold is_u32; lia). rewrite (proj2 (Z.leb_le _ _)), (proj2 (Z.ltb_lt _ _)) by lia.
  assert (u16 c = c) as -> by (apply Z.mod_small; lia). done.
Qed.

Lemma next_row_run r : 0 <= r < 25 → next_row r = if r =? 24 then 0 else r + 1.
Proof.
  intros Hr. unfold next_row, KTERM_HEIGHT. rewrite u32_small by (unfold is_u32; lia).
  destruct (Z.eqb_spec r 24); destruct (Z.leb_spec 25 (r + 1)); lia.
Qed.

Lemma next_line r : 0 <= r < 25 → next_row r * 80 = (r + 1) * 80 mod 2000 ∧ 0 <= next_row r < 25.
Proof.
  intros Hr. rewrite next_row_run by done. destruct (Z.eqb_spec r 24) as [->|Hn]; [done|].
  rewrite Z.mod_small by lia. lia.
Qed.

Lemma kterm_putc_run s c : kterm_ok s → -128 <= c < 128 →
  ∃ s', kterm_putc_locked c s = Ret tt s' ∧ kterm_ok s' ∧ page_of s' = kshow (kterm_color s) (page_of s) c ∧ same_flags s s'.
Proof.
  intros [Hb Hr Hcol] Hc. unfold kterm_putc_locked. erewrite (bind_Ret get); [|reflexivity]. unfold kshow. cbn [pg_pos pg_cells page_of].
  assert (Hend : ∀ (m : M kcon unit) s1, m s = Ret tt s1 → kterm_ok s1 → same_flags s s1 →
    ∃ s', (m;; kterm_cursor_update) s = Ret tt s' ∧ kterm_ok s' ∧ page_of s' = page_of s1 ∧ same_flags s s').
  { intros m s1 E [H1 H2 H3] Hf. rewrite (bind_Ret _ _ _ _ _ E). destruct (kcursor_run s1) as (w & E2). exists (set_wires w s1). by split_and!. }
  destruct (next_line (kterm_row s) Hr) as [Hnl Hnr].
  assert (Hdiv : (kterm_row s * 80 + kterm_col s) / 80 = kterm_row s) by (rewrite Z.div_add_l, Z.div_small; lia).
  destruct (Z.eqb_spec c 10) as [->|H10].
  { destruct (Hend (set_pos (next_row (kterm_row s)) 0) _ eq_refl) as (s' & E & Hok & Hp & Hf); [split; cbn; [done|done|lia]|done|].
    exists s'. rewrite Hp, Hdiv. split_and!; try done.
    unfold page_of. f_equal. etrans; [apply Z.add_0_r|exact Hnl]. }
  destruct (Z.eqb_spec c 8) as [->|H8].
  { destruct (Z.ltb_spec 0 (kterm_col s)) as [Hc0|Hc0]; [|destruct (Z.ltb_spec 0 (kterm_row s)) as [Hr0|Hr0]].
    - edestruct (Hend (set_pos (kterm_row s) (kterm_col s - 1);; kterm_cell 32)) as (s' & E & Hok & Hp & Hf).
      + erewrite bind_Ret; [|reflexivity]. by apply kcell_run; cbn; lia || done.
      + split; cbn; [by rewrite length_insert|done|lia].
      + done.
      + exists s'. rewrite Hp, (proj2 (Z.eqb_neq _ 0)) by lia. split_and!; try done. unfold page_of. cbn.
        by replace (kterm_row s * 80 + (kterm_col s - 1)) with (kterm_row s * 80 + kterm_col s - 1) by lia.
    - edestruct (Hend (set_pos (kterm_row s - 1) 79;; kterm_cell 32)) as (s' & E & Hok & Hp & Hf).
      + erewrite bind_Ret; [|reflexivity]. by apply kcell_run; cbn; lia || done.
      + split; cbn; [by rewrite length_insert|lia|lia].
      + done.
      + exists s'. rewrite Hp, (proj2 (Z.eqb_neq _ 0)) by lia. split_and!; try done. unfold page_of. cbn.
        assert (kterm_col s = 0) as -> by lia.
        by replace ((kterm_row s - 1) * 80 + 79) with (kterm_row s * 80 + 0 - 1) by lia.
    - destruct (Hend (mret tt) s eq_refl) as (s' & E & Hok & Hp & Hf); [by split|done|].
      exists s'. rewrite Hp, (proj2 (Z.eqb_eq _ 0)) by lia. by split_and!. }
  destruct (Z.leb_spec 32 c) as [Hp32|Hp32].
  2: { destruct (Hend (mret tt) s eq_refl) as (s' & E & Hok & Hp & Hf); [by split|done|]. exists s'. by rewrite Hp. }
  cbv zeta. rewrite u32_small by (unfold is_u32; lia). unfold KTERM_WIDTH in *.
  pose proof (kcell_run s c _ ltac:(lia) Hb Hr Hcol eq_refl) as Ecell.
  destruct (Z.leb_spec 80 (kterm_col s + 1)) as [Hw|Hw].
  - edestruct (Hend (kterm_cell c;; set_pos (next_row (kterm_row s)) 0)) as (s' & E & Hok & Hp & Hf).
    + by rewrite (bind_Ret _ _ _ _ _ Ecell).
    + split; cbn; [by rewrite length_insert|done|lia].
    + done.
    + exists s'. rewrite Hp. split_and!; try done. unfold page_of.
      f_equal. etrans; [apply Z.add_0_r|]. etrans; [exact Hnl|]. f_equal. lia.
  - edestruct (Hend (kterm_cell c;; set_pos (kterm_row s) (kterm_col s + 1))) as (s' & E & Hok & Hp & Hf).
    + by rewrite (bind_Ret _ _ _ _ _ Ecell).
    + split; cbn; [by rewrite length_insert|done|lia].
    + done.
    + exists s'. rewrite Hp. split_and!; try done. unfold page_of. cbn. f_equal. rewrite Z.mod_small by lia. lia.
Qed.

Lemma kterm_chars_run str : Forall (λ c, -128 <= c < 128) str → ∀ s, kterm_ok s →
  ∃ s', kterm_chars str s = Ret tt s' ∧ kterm_ok s' ∧ page_of s' = foldl (kshow (kterm_color s)) (page_of s) str ∧ same_flags s s'.
Proof.
  induction 1 as [|c str Hc _ IH]; intros s Hs; cbn [kterm_chars foldl]; [by exists s|].
  destruct (kterm_putc_run s c Hs Hc) as (s1 & E1 & Hs1 & Hp1 & Hf1). rewrite (bind_Ret _ _ _ _ _ E1).
  destruct (IH s1 Hs1) as (s2 & E2 & Hs2 & Hp2 & Hf2). exists s2.
  destruct Hf1 as (F1 & F2 & F3 & F4). unfold same_flags in *. rewrite F1, F2, F3, F4 in *.
  split_and!; try done; [by rewrite Hp2, Hp1|apply Hf2..].
Qed.

(** On an initialised kernel terminal, writing text (a string, or in a
    temporary colour) always returns, stays inside the 2000 cells of the
    screen, and shows what the reference page prescribes character by
    character: printable ones fill cells, newline starts the next line,
    backspace erases, and behind the last cell writing continues in the
    first.  The colour and the interrupt flag are what they were before. *)
Theorem kterm_write_shows s str color :
  kterm_inited s = true → kterm_ok s → Forall (λ c, -128 <= c < 128) str →
  (∃ s', kterm_write (Some str) s = Ret tt s' ∧ kterm_ok s' ∧ page_of s' = foldl (kshow (kterm_color s)) (page_of s) str ∧ same_flags s s') ∧
  (∃ s', kterm_write_color (Some str) color s = Ret tt s' ∧ kterm_ok s' ∧ page_of s' = foldl (kshow color) (page_of s) str ∧ same_flags s s').
Proof.
  intros Hi Hs Hstr.
  assert (Hw : ∀ s, kterm_inited s = true → kterm_ok s →
    ∃ s', kterm_write (Some str) s = Ret tt s' ∧ kterm_ok s' ∧ page_of s' = foldl (kshow (kterm_color s)) (page_of s) str ∧ same_flags s s').
  { clear -Hstr. intros s Hi [H1 H2 H3]. destruct (kterm_chars_run str Hstr (set_if false s)) as (s1 & E1 & [G1 G2 G3] & Hp & Hf); [by split|].
    exists (set_if (kc_if s) s1). split_and!.
    - unfold kterm_write, kterm_ready. rewrite (bind_Ret _ _ _ tt s); [by apply irq_off_run|].
      erewrite (bind_Ret (gets kterm_inited)); [|reflexivity]. by rewrite Hi.
    - by split.
    - exact Hp.
    - destruct Hf as (_ & Hf). split; [done|exact Hf]. }
  split; [by apply Hw|].
  destruct (Hw (set_kterm (kterm_buf s) (kterm_row s) (kterm_col s) color s)) as (s1 & E1 & [G1 G2 G3] & Hp & Hf);
    [done|by destruct Hs; split|].
  exists (set_kterm (kterm_buf s1) (kterm_row s1) (kterm_col s1) (kterm_color s) s1). split_and!.
  - unfold kterm_write_color. erewrite (bind_Ret (gets kterm_color)); [|reflexivity]. erewrite bind_Ret; [|reflexivity].
    by rewrite (bind_Ret _ _ _ _ _ E1).
  - by split.
  - exact Hp.
  - destruct Hf as (F1 & F2 & F3 & _). by split_and!.
Qed.
End kterm_proofs.

(** ** Witnesses *)

#[local] Instance quiet_port : Devices unit := {| dev_in w p d := (32, d); dev_out w p v d := d |}.
Definition kcon_demo (inited : bool) : kcon unit :=
  mk_kcon (mk_wires tt []) true inited inited (replicate (Z.to_nat 2000) 0) 24 78 7.

Lemma klog_write_sends_or_gives_up_witness :
  ∃ w, klog_write (Some [104; 105]) (kcon_demo true) = Ret tt (set_wires w (kcon_demo true)) ∧
    sent COM1_BASE (w_cycles w) = [104; 105].
Proof.
  destruct (klog_write_sends_or_gives_up (kcon_demo true) [104; 105] eq_refl) as [H _].
  destruct H as (w & E & Hs); [intros d; vm_compute; discriminate|].
  exists w. split; [exact E|]. rewrite Hs. reflexivity.
Defined.

Lemma kterm_write_shows_witness :
  ∃ s', kterm_write (Some [104; 105; 33]) (kcon_demo true) = Ret tt s' ∧ kterm_ok s' ∧
    page_of s' = foldl (kshow 7) (page_of (kcon_demo true)) [104; 105; 33] ∧ same_flags (kcon_demo true) s'.
Proof.
  destruct (kterm_write_shows (kcon_demo true) [104; 105; 33] 7) as [H _];
    [reflexivity| |repeat (constructor; [lia|]); constructor|exact H].
  split; cbn [kterm_buf kterm_row kterm_col kcon_demo]; [rewrite length_replicate; lia|lia|lia].
Defined.

(** The first coloured line comes out in the default colour: setting the
    terminal up resets the colour. *)
Example first_coloured_line_is_grey :
  match kterm_write_color (Some [65]) 14 (kcon_demo false) with
  | Ret _ s => kterm_buf s !! 0%nat = Some (Z.lor 65 (Z.shiftl 7 8))
  | _ => False
  end.
Proof. vm_compute. reflexivity. Qed.
