(* ===== verification/CrashDump.v ===== *)
(** * The exception dump (arch/i386/irq.c, from [exception_frame] on)

    A processor exception in the kernel ends in [exception_handler], which
    writes the registers and the chain of stack frames to the text screen and
    to the serial port, using no service of the kernel, and halts.  The
    devices, the memory the frame pointers lead through, the bounds of the
    kernel image and what an uninitialised local array holds are parameters. *)

From Stdlib Require Import ZArith Lia Ascii String.
From stdpp Require Import base tactics list.
From S2P Require Import Prelude Io CString KConsole.

Open Scope Z_scope.

(** ** Data *)

Record exception_frame := mk_exception_frame {
  ef_gs : Z; ef_fs : Z; ef_es : Z; ef_ds : Z;
  ef_edi : Z; ef_esi : Z; ef_ebp : Z; ef_esp_v : Z;
  ef_ebx : Z; ef_edx : Z; ef_ecx : Z; ef_eax : Z;
  ef_error_code : Z;
  ef_eip : Z; ef_cs : Z; ef_eflags : Z; ef_user_esp : Z; ef_user_ss : Z;
}.

(** A C string literal: characters are signed, a zero ends it. *)
Definition signed_char (b : Z) : Z := if b <? 128 then b else b - 256.
Definition text (s : string) : list Z := map signed_char (bytes_of s).
Definition cstr (s : string) : list Z := (text s ++ [0])%list.
(** A literal that ends in a newline. *)
Definition cline (s : string) : list Z := (text s ++ [10; 0])%list.

Definition exception_names (n : Z) : option string :=
  match n with
  | 0 => Some "#DE  Divide Error"
  | 1 => Some "#DB  Debug"
  | 2 => Some "NMI  Non-Maskable Interrupt"
  | 3 => Some "#BP  Breakpoint"
  | 4 => Some "#OF  Overflow"
  | 5 => Some "#BR  BOUND Range Exceeded"
  | 6 => Some "#UD  Invalid Opcode"
  | 7 => Some "#NM  Device Not Available"
  | 8 => Some "#DF  Double Fault"
  | 9 => Some "     Coprocessor Segment Overrun"
  | 10 => Some "#TS  Invalid TSS"
  | 11 => Some "#NP  Segment Not Present"
  | 12 => Some "#SS  Stack Segment Fault"
  | 13 => Some "#GP  General Protection Fault"
  | 14 => Some "#PF  Page Fault"
  | 15 => Some "     (Intel reserved)"
  | 16 => Some "#MF  x87 FPU Error"
  | 17 => Some "#AC  Alignment Check"
  | 18 => Some "#MC  Machine Check"
  | 19 => Some "#XM  SIMD Floating-Point"
  | 20 => Some "#VE  Virtualization"
  | 30 => Some "#SX  Security Exception"
  | _ => None
  end%string.

(** The text memory, the position of [vga_emergency_putc] and the ports. *)
Record crash (D : Type) := mk_crash { cr_vga : list Z; cr_pos : Z; cr_wires : wires D }.
Arguments mk_crash {D}.
Arguments cr_vga {D}.
Arguments cr_pos {D}.
Arguments cr_wires {D}.

(** ** The screen *)

Definition CRASH_COLOR : Z := 79.   (* 0x4F *)
Definition crash_blank : Z := u16 (Z.lor 32 (Z.shiftl CRASH_COLOR 8)).

(** [for (i = 0; i < 80 * 24; i++) vga[i] = vga[i + 80];] *)
Fixpoint crash_scroll (n : nat) (i : nat) (vga : list Z) : option (list Z) :=
  match n with
  | O => Some vga
  | S n => v ← vga !! (i + 80)%nat; crash_scroll n (S i) (<[i := v]> vga)
  end.
Fixpoint crash_fill (n : nat) (i : nat) (vga : list Z) : list Z :=
  match n with O => vga | S n => crash_fill n (S i) (<[i := crash_blank]> vga) end.

Section dump.
Context {D : Type} `{!Devices D}.
Notation crash := (crash D).

Definition vga_emergency_putc (c : Z) : M crash unit := λ s,
  let pos := cr_pos s in
  let stored :=
    if c =? 10 then Some (cr_vga s, Z.quot (pos + 80) 80 * 80)
    else if c =? 13 then Some (cr_vga s, Z.quot pos 80 * 80)
    else if (0 <=? pos) && (pos <? Z.of_nat (length (cr_vga s)))
    then Some (<[Z.to_nat pos := u16 (Z.lor c (Z.shiftl CRASH_COLOR 8))]> (cr_vga s), pos + 1)
    else None in
  match stored with
  | None => Fault
  | Some (vga, pos) =>
      if 80 * 25 <=? pos then
        match crash_scroll (Z.to_nat (80 * 24)) 0 vga with
        | Some vga => Ret tt (mk_crash (crash_fill (Z.to_nat 80) (Z.to_nat (80 * 24)) vga) (80 * 24) (cr_wires s))
        | None => Fault
        end
      else Ret tt (mk_crash vga pos (cr_wires s))
  end.

(** ** The serial port *)

Definition set_cr_wires (w : wires D) (s : crash) : crash := mk_crash (cr_vga s) (cr_pos s) w.
#[export] Instance crash_wires : Contains crash (wires D).
Proof. refine {| part := cr_wires; set_part := set_cr_wires |}; try done. by intros []. Defined.

(** [polls] bounds the wait for the transmitter, which the code does not. *)
Context (polls : nat).
Fixpoint thr_poll (n : nat) : M (wires D) unit :=
  match n with
  | O => spin
  | S n => v ← win 1021; if Z.land v 32 =? 0 then thr_poll n else mret tt
  end.
Definition serial_emergency_putc (c : Z) : M (wires D) unit :=
  thr_poll polls;; wout 1016 c;;
  if c =? 10 then thr_poll polls;; wout 1016 13 else mret tt.

(** ** Output *)

Fixpoint emergency_puts (s : list Z) : M crash unit :=
  match s with
  | [] => fault
  | c :: s =>
      if c =? 0 then mret tt else
      vga_emergency_putc c;; zoom (serial_emergency_putc c);; emergency_puts s
  end.

(** [for (i = n - 1; i >= 0; i--)] over the digits. *)
Fixpoint hex_loop (n : nat) (val : Z) (buf : list Z) : list Z :=
  match n with
  | O => buf
  | S i =>
      let nibble := Z.land val 15 in
      hex_loop i (Z.shiftr val 4) (<[i := if nibble <? 10 then 48 + nibble else 65 + nibble - 10]> buf)
  end.
Definition emergency_print_hex (val : Z) : M crash unit :=
  emergency_puts (hex_loop 8 val (cstr "00000000")).

(** The array [buf] is not initialised: [junk] is what it holds. *)
Context (junk : list Z).
Fixpoint dec_loop (i : nat) (val : Z) (buf : list Z) : nat * list Z :=
  match i with
  | O => (O, buf)
  | S j => if 0 <? val then dec_loop j (val / 10) (<[j := 48 + val mod 10]> buf) else (i, buf)
  end.
Definition emergency_print_dec (val : Z) : M crash unit :=
  let buf := <[11%nat := 0]> junk in
  let '(i, buf) := if val =? 0 then (9%nat, <[9%nat := 48]> buf) else dec_loop 10 val buf in
  emergency_puts (drop i buf).

(** ** The chain of frames: [ebp] points at the saved [ebp] and the return
    address. *)
Context (mem : Z → Z) (kstart kend : Z).

Fixpoint collect (depth : nat) (ebp : Z) : list Z :=
  match depth with
  | O => []
  | S depth =>
      if ebp =? 0 then [] else
      let next_ebp := mem ebp in
      let ret_eip := mem (ebp +u 4) in
      if (ret_eip <? kstart) || (kend <=? ret_eip) then [] else
      ret_eip ::
      if (next_ebp =? 0) || (next_ebp <? ebp) || (kend <=? next_ebp) then [] else collect depth next_ebp
  end.

Fixpoint print_eips (eips : list Z) : M crash unit :=
  match eips with
  | [] => mret tt
  | eip :: eips =>
      emergency_puts (cstr "EIP:");; emergency_print_hex eip;;
      emergency_puts (cline "");; print_eips eips
  end.

(** The second walk, for the values of [ebp]. *)
Fixpoint print_frames (i : Z) (ebp : Z) (eips : list Z) : M crash unit :=
  match eips with
  | [] => mret tt
  | eip :: eips =>
      emergency_puts (cstr "  #");; emergency_print_dec i;;
      emergency_puts (cstr "  EBP=");; emergency_print_hex ebp;;
      emergency_puts (cstr "  ret-to EIP=");; emergency_print_hex eip;;
      emergency_puts (cline "");; print_frames (i + 1) (mem ebp) eips
  end.

Definition emergency_stack_trace (ebp_val crash_eip : Z) : M crash unit :=
  let eips := collect 16 ebp_val in
  emergency_puts (10 :: cline "--- STACK_TRACE_BEGIN ---");;
  emergency_puts (cstr "CRASH:");; emergency_print_hex crash_eip;; emergency_puts (cline "");;
  print_eips eips;;
  emergency_puts (cline "--- STACK_TRACE_END ---");;
  emergency_puts (10 :: cline "--- Stack Trace ---");;
  emergency_puts (cstr "  CRASH at EIP=");; emergency_print_hex crash_eip;; emergency_puts (cline "");;
  match eips with
  | [] => emergency_puts (cline "  (no call chain — -fno-omit-frame-pointer?)")
  | _ =>
      print_frames 0 ebp_val eips;;
      emergency_puts (cline "  (use 'make dump' offline to resolve EIP → function)")
  end.

(** ** The handler *)

Definition exception_name (n : Z) : string :=
  match (if n <? 32 then exception_names n else None) with
  | Some s => s
  | None => "(unknown exception)"
  end.

Definition bit_text (code mask : Z) (yes no : string) : M crash unit :=
  if negb (Z.land code mask =? 0) then emergency_puts (cstr yes) else
  if String.eqb no "" then mret tt else emergency_puts (cstr no).

Definition reg (name : string) (v : Z) : M crash unit :=
  emergency_puts (cstr name);; emergency_print_hex v.

(** Everything before the halt. *)
Definition exception_dump (cr2 : Z) (exception_number : Z) (frame : exception_frame) : M crash unit :=
  emergency_puts (10 :: 10 :: cline "========================================");;
  emergency_puts (cline "         KERNEL EXCEPTION");;
  emergency_puts (cline "========================================");;
  emergency_puts (cstr "Exception: ");; emergency_print_dec exception_number;;
  emergency_puts (cstr "  ");; emergency_puts (cstr (exception_name exception_number));; emergency_puts (cline "");;
  reg "Error Code: " (ef_error_code frame);; emergency_puts (cline "");;
  (if exception_number =? 14 then
     reg "CR2 (fault address): " cr2;; emergency_puts (cline "");;
     emergency_puts (cstr "Page fault type: ");;
     bit_text (ef_error_code frame) 1 "protection-violation " "non-present ";;
     bit_text (ef_error_code frame) 2 "write " "read ";;
     bit_text (ef_error_code frame) 4 "user-mode " "kernel-mode ";;
     bit_text (ef_error_code frame) 8 "reserved-bit " "";;
     bit_text (ef_error_code frame) 16 "instruction-fetch " "";;
     emergency_puts (cline "")
   else mret tt);;
  emergency_puts (10 :: cline "--- Register Dump ---");;
  reg "EAX=" (ef_eax frame);; reg " EBX=" (ef_ebx frame);; reg " ECX=" (ef_ecx frame);; reg " EDX=" (ef_edx frame);;
  emergency_puts (cline "");;
  reg "ESI=" (ef_esi frame);; reg " EDI=" (ef_edi frame);; reg " EBP=" (ef_ebp frame);; reg " ESP=" (ef_esp_v frame);;
  emergency_puts (cline "");;
  reg " EIP=" (ef_eip frame);; reg "  CS=" (ef_cs frame);; reg " EFLAGS=" (ef_eflags frame);;
  emergency_puts (cline "");;
  reg " DS=" (ef_ds frame);; reg "  ES=" (ef_es frame);; reg "  FS=" (ef_fs frame);; reg "  GS=" (ef_gs frame);;
  emergency_puts (cline "");;
  (if negb (Z.land (ef_cs frame) 3 =? 0) then
     reg "User ESP=" (ef_user_esp frame);; reg " User SS=" (ef_user_ss frame);; emergency_puts (cline "")
   else mret tt);;
  emergency_puts (10 :: cline "--- Stack Trace ---");;
  emergency_stack_trace (ef_ebp frame) (ef_eip frame);;
  emergency_puts (10 :: cline "========================================");;
  emergency_puts (cline "System halted.");;
  emergency_puts (cline "========================================").

(** [cli; for (;;) hlt;] *)
Definition exception_handler (cr2 exception_number : Z) (frame : exception_frame) : M crash unit :=
  exception_dump cr2 exception_number frame;; spin.
End dump.

(** ** Hexadecimal numbers *)

Definition hex_digit (n : Z) : Z := if n <? 10 then 48 + n else 65 + n - 10.
Fixpoint hex_text (n : nat) (v : Z) : list Z :=
  match n with O => [] | S n => hex_text n (v / 16) ++ [hex_digit (v mod 16)] end.

(** The reader: the digits of [grep -o '[0-9A-Fa-f]\{8\}']. *)
Definition unhex_digit (c : Z) : option Z :=
  if (48 <=? c) && (c <=? 57) then Some (c - 48)
  else if (65 <=? c) && (c <=? 70) then Some (c - 55)
  else if (97 <=? c) && (c <=? 102) then Some (c - 87) else None.
Fixpoint unhex (acc : Z) (l : list Z) : option Z :=
  match l with [] => Some acc | c :: l => d ← unhex_digit c; unhex (16 * acc + d) l end.

Lemma hex_text_length n v : length (hex_text n v) = n.
Proof. revert v. induction n as [|n IH]; intros v; [done|]. cbn. rewrite length_app, IH. cbn. lia. Qed.

Lemma hex_loop_text n v buf : (n <= length buf)%nat → hex_loop n v buf = hex_text n v ++ drop n buf.
Proof.
  revert v buf. induction n as [|n IH]; intros v buf H; [by rewrite drop_0|]. cbn [hex_loop hex_text].
  change 15 with (Z.ones 4). rewrite Z.land_ones, Z.shiftr_div_pow2 by lia. change (2 ^ 4) with 16.
  rewrite IH by (rewrite length_insert; lia). rewrite <- app_assoc. f_equal.
  rewrite insert_take_drop by lia. rewrite drop_app_ge by (rewrite length_take; lia).
  rewrite length_take, Nat.min_l, Nat.sub_diag by lia. done.
Qed.

Lemma hex_digit_range n : 0 <= n < 16 → 48 <= hex_digit n <= 70.
Proof. intros. unfold hex_digit. destruct (Z.ltb_spec n 10); lia. Qed.

Lemma hex_text_chars n v : Forall (λ c, 48 <= c <= 70) (hex_text n v).
Proof.
  revert v. induction n as [|n IH]; intros v; [constructor|]. cbn. apply Forall_app. split; [apply IH|].
  constructor; [|constructor]. apply hex_digit_range. apply Z.mod_pos_bound. lia.
Qed.

Lemma unhex_app acc l1 l2 : unhex acc (l1 ++ l2) = (a ← unhex acc l1; unhex a l2).
Proof. revert acc. induction l1 as [|c l1 IH]; intros acc; [done|]. cbn [app unhex]. destruct (unhex_digit c); [apply IH|done]. Qed.

Lemma unhex_digit_of n : 0 <= n < 16 → unhex_digit (hex_digit n) = Some n.
Proof.
  intros. unfold unhex_digit, hex_digit. destruct (Z.ltb_spec n 10).
  - rewrite (proj2 (Z.leb_le 48 _)), (proj2 (Z.leb_le _ 57)) by lia. simpl. f_equal. lia.
  - rewrite (proj2 (Z.leb_gt _ 57)), andb_false_r by lia.
    rewrite (proj2 (Z.leb_le 65 _)), (proj2 (Z.leb_le _ 70)) by lia. simpl. f_equal. lia.
Qed.

(** A number of up to [n] digits is read back. *)
Lemma unhex_text n v acc : 0 <= v < 16 ^ Z.of_nat n → unhex acc (hex_text n v) = Some (16 ^ Z.of_nat n * acc + v).
Proof.
  revert v acc. induction n as [|n IH]; intros v acc Hv.
  - cbn [hex_text unhex]. f_equal. change (16 ^ Z.of_nat 0) with 1 in *. lia.
  - rewrite Nat2Z.inj_succ, Z.pow_succ_r in * by lia. cbn [hex_text].
    rewrite unhex_app, IH by (split; [apply Z.div_pos; lia|apply Z.div_lt_upper_bound; lia]). cbn.
    pose proof (Z.mod_pos_bound v 16). rewrite unhex_digit_of by lia. cbn. f_equal.
    pose proof (Z.div_mod v 16). lia.
Qed.

(** ** What is shown

    The characters of a dump, and what one of them does to the screen. *)
Definition crlf (l : list Z) : list Z := flat_map (λ c, if c =? 10 then [10; 13] else [u8 c]) l.

Lemma crlf_app l1 l2 : crlf (l1 ++ l2) = crlf l1 ++ crlf l2.
Proof. apply flat_map_app. Qed.

(** Text in which no colon follows the character [ch]: [run] keeps whether
    the last character was [ch].  The reader below looks for "CRASH:" and
    "EIP:", so text that is calm for both of their last letters holds
    neither. *)
Fixpoint run (ch : Z) (a : bool) (l : list Z) : option bool :=
  match l with
  | [] => Some a
  | c :: l => if a && (c =? 58) then None else run ch (c =? ch) l
  end.

Lemma run_app ch a l1 l2 : run ch a (l1 ++ l2) = (b ← run ch a l1; run ch b l2).
Proof. revert a. induction l1 as [|c l1 IH]; intros a; [done|]. cbn [app run]. destruct (a && _); [done|apply IH]. Qed.

Definition calmb (l : list Z) : bool :=
  forallb (λ ch, match run ch false (crlf l) with Some false => true | _ => false end) [72; 80].
Definition calm (l : list Z) : Prop := calmb l = true.

Lemma calm_run l : calm l ↔ run 72 false (crlf l) = Some false ∧ run 80 false (crlf l) = Some false.
Proof. unfold calm, calmb. cbn [forallb]. rewrite !andb_true_iff. repeat case_match; naive_solver. Qed.

Lemma calm_app l1 l2 : calm l1 → calm l2 → calm (l1 ++ l2).
Proof. rewrite !calm_run, crlf_app, !run_app. intros [-> ->] [H1 H2]. by split. Qed.

(** Digits leave the state as it is before the first of them. *)
Lemma run_digits ch l : Forall (λ c, 48 <= c <= 70) l → 70 < ch → run ch false (crlf l) = Some false.
Proof.
  intros Hl Hch. induction Hl as [|c l Hc _ IH]; [done|]. cbn [crlf flat_map].
  rewrite (proj2 (Z.eqb_neq c 10)) by lia. rewrite u8_small by (unfold is_u8; lia). cbn [app run andb].
  rewrite (proj2 (Z.eqb_neq c ch)) by lia. exact IH.
Qed.

Lemma calm_hex n v : calm (hex_text n v).
Proof. apply calm_run. split; apply run_digits; (apply hex_text_chars || lia). Qed.

Lemma run_one ch c : ∃ b, run ch false (crlf [c]) = Some b.
Proof. cbn [crlf flat_map app]. destruct (c =? 10); cbn; rewrite ?andb_false_r; eauto. Qed.

(** A number and the stray byte after it, when two blanks follow. *)
Lemma calm_dec ds stray str :
  Forall (λ c, 48 <= c <= 57) ds → (length stray <= 1)%nat → calm (text str) → calm ((ds ++ stray) ++ text ("  " ++ str)).
Proof.
  intros Hds Hst. assert (Hd : Forall (λ c, 48 <= c <= 70) ds) by (eapply Forall_impl; [exact Hds|]; intros; simpl in *; lia).
  assert (Hb : ∀ ch, 70 < ch → ∃ b, run ch false (crlf (ds ++ stray)) = Some b).
  { intros ch Hch. rewrite crlf_app, run_app, run_digits by done. cbn [mbind option_bind].
    destruct stray as [|c [|? ?]]; [by exists false|apply run_one|simpl in Hst; lia]. }
  assert (Ht : ∀ ch b, 70 < ch → run ch b (crlf (text ("  " ++ str))) = run ch false (crlf (text str))).
  { intros ch b Hch. change (crlf (text ("  " ++ str))) with (32 :: 32 :: crlf (text str)). cbn [run].
    change (32 =? 58) with false. rewrite (proj2 (Z.eqb_neq 32 ch)) by lia. by rewrite andb_false_r. }
  rewrite !calm_run, (crlf_app (ds ++ stray)), !run_app. intros [H1 H2].
  destruct (Hb 72 ltac:(lia)) as (b1 & ->), (Hb 80 ltac:(lia)) as (b2 & ->). cbn [mbind option_bind]. by rewrite !Ht.
Qed.

Ltac calm_tac := repeat first [done | assumption | apply calm_hex | reflexivity | apply calm_app].

Section shows.
Context {D : Type} `{!Devices D}.
Notation crash := (crash D).
Implicit Types s : crash.

(** The position stays on the screen. *)
Record crash_ok (s : crash) : Prop := {
  crash_len : length (cr_vga s) = 2000%nat;
  crash_pos : 0 <= cr_pos s < 2000;
}.

Definition serial (s : crash) : list Z := sent COM1_BASE (w_cycles (cr_wires s)).

(** [m] returns, keeps the screen, and sends [l] to the serial port. *)
Definition shows (m : M crash unit) (l : list Z) : Prop :=
  ∀ s, crash_ok s → wp m (λ _ s', crash_ok s' ∧ serial s' = serial s ++ crlf l) s.

Lemma crash_scroll_run n i vga : (i + n + 80 <= length vga)%nat →
  ∃ vga', crash_scroll n i vga = Some vga' ∧ length vga' = length vga.
Proof.
  revert i vga. induction n as [|n IH]; intros i vga H; [by exists vga|]. cbn [crash_scroll].
  destruct (lookup_lt_is_Some_2 vga (i + 80)) as [v ->]; [lia|]. simpl.
  destruct (IH (S i) (<[i := v]> vga)) as (vga' & E & L); [rewrite length_insert; lia|].
  exists vga'. rewrite length_insert in L. done.
Qed.

Lemma crash_fill_length n i vga : length (crash_fill n i vga) = length vga.
Proof. revert i vga. induction n as [|n IH]; intros i vga; [done|]. cbn. by rewrite IH, length_insert. Qed.

Lemma vga_putc_ok c s : crash_ok s →
  wp (vga_emergency_putc c) (λ _ s', crash_ok s' ∧ cr_wires s' = cr_wires s) s.
Proof.
  intros [Hl Hp].
  assert (∃ vga pos, length vga = 2000%nat ∧ 0 <= pos <= 2000 ∧
    (if c =? 10 then Some (cr_vga s, Z.quot (cr_pos s + 80) 80 * 80)
     else if c =? 13 then Some (cr_vga s, Z.quot (cr_pos s) 80 * 80)
     else if (0 <=? cr_pos s) && (cr_pos s <? Z.of_nat (length (cr_vga s)))
     then Some (<[Z.to_nat (cr_pos s) := u16 (Z.lor c (Z.shiftl CRASH_COLOR 8))]> (cr_vga s), cr_pos s + 1)
     else None) = Some (vga, pos)) as (vga & pos & Lv & Hpos & E).
  { rewrite !Z.quot_div_nonneg by lia. destruct (c =? 10); [|destruct (c =? 13)].
    - eexists _, _. split; [exact Hl|]. split; [|reflexivity]. Z.div_mod_to_equations; lia.
    - eexists _, _. split; [exact Hl|]. split; [|reflexivity]. Z.div_mod_to_equations; lia.
    - rewrite (proj2 (Z.leb_le 0 _)), (proj2 (Z.ltb_lt _ _)) by lia. eexists _, _.
      split; [|split; [|reflexivity]]; [by rewrite length_insert|lia]. }
  unfold wp, vga_emergency_putc. rewrite E. destruct (Z.leb_spec (80 * 25) pos) as [H|H].
  - destruct (crash_scroll_run (Z.to_nat (80 * 24)) 0 vga) as (vga' & -> & L); [lia|].
    split; [|done]. split; cbn [cr_vga cr_pos]; [rewrite crash_fill_length; lia|lia].
  - split; [|done]. split; cbn [cr_vga cr_pos]; lia.
Qed.

Context (polls : nat) (Hpolls : polls ≠ O) (Hready : uart_ready (D := D)).

Lemma thr_poll_ready w : ∃ d, thr_poll polls w = Ret tt (mk_wires d (In W8 1021 :: w_cycles w)).
Proof.
  destruct polls as [|n]; [done|]. cbn [thr_poll]. eexists. erewrite bind_Ret by reflexivity. cbv beta.
  by rewrite (proj2 (Z.eqb_neq _ 0) (Hready (w_dev w))).
Qed.

Lemma serial_putc_ok c w : -128 <= c < 128 →
  wp (serial_emergency_putc polls c) (λ _ w', sent COM1_BASE (w_cycles w') = sent COM1_BASE (w_cycles w) ++ crlf [c]) w.
Proof.
  intros Hc. unfold serial_emergency_putc. destruct (thr_poll_ready w) as (d & E).
  apply wp_bind. eapply wp_Ret; [exact E|]. apply wp_bind. eapply wp_Ret; [reflexivity|].
  cbv beta. cbn [crlf flat_map]. destruct (Z.eqb_spec c 10) as [->|Hne].
  - match goal with |- wp _ _ ?w1 => destruct (thr_poll_ready w1) as (d' & E') end.
    apply wp_bind. eapply wp_Ret; [exact E'|]. eapply wp_Ret; [reflexivity|]. cbn [w_cycles].
    unfold sent. by rewrite !reverse_cons, !omap_app, <- !app_assoc.
  - apply wp_ret. cbn [w_cycles]. unfold sent. rewrite !reverse_cons, !omap_app, <- !app_assoc. done.
Qed.

Lemma shows_puts l : Forall (λ c, -128 <= c < 128 ∧ c ≠ 0) l → ∀ rest, shows (emergency_puts polls (l ++ 0 :: rest)) l.
Proof.
  induction 1 as [|c l [Hc Hc0] _ IH]; intros rest s Hs; cbn [app emergency_puts].
  - apply wp_ret. split; [done|]. by rewrite app_nil_r.
  - rewrite (proj2 (Z.eqb_neq c 0)) by done.
    apply wp_bind. eapply wp_mono; [apply vga_putc_ok, Hs|]. intros _ s1 [Hs1 Hw1].
    destruct (wp_run _ _ _ (serial_putc_ok c (cr_wires s1) Hc)) as ([] & w' & E & Hw').
    apply wp_bind. eapply wp_Ret; [exact (zoom_Ret (Contains0 := crash_wires) _ s1 _ _ E)|]. cbv beta.
    eapply wp_mono; [apply IH; by destruct Hs1|]. intros _ s2 [Hs2 Hw2]. split; [done|].
    rewrite Hw2. unfold serial. cbn [set_part crash_wires cr_wires set_cr_wires]. rewrite Hw', Hw1.
    rewrite <- app_assoc. f_equal. change (c :: l) with ([c] ++ l). by rewrite crlf_app.
Qed.

Lemma shows_bind m1 m2 l1 l2 : shows m1 l1 → shows m2 l2 → shows (m1;; m2) (l1 ++ l2).
Proof.
  intros H1 H2 s Hs. apply wp_bind. eapply wp_mono; [by apply H1|]. intros _ s1 [Hs1 E1].
  eapply wp_mono; [by apply H2|]. intros _ s2 [Hs2 E2]. split; [done|]. by rewrite E2, E1, crlf_app, <- app_assoc.
Qed.

Lemma shows_ret : shows (mret tt) [].
Proof. intros s Hs. apply wp_ret. by rewrite app_nil_r. Qed.

Definition plain (l : list Z) : bool := forallb (λ c, (-128 <=? c) && (c <? 128) && negb (c =? 0)) l.

Lemma shows_plain l rest : plain l = true → shows (emergency_puts polls (l ++ 0 :: rest)) l.
Proof.
  intros H. apply shows_puts. apply Forall_forall. intros c Hc.
  unfold plain in H. rewrite forallb_forall in H. apply list_elem_of_In, H in Hc.
  rewrite !andb_true_iff, negb_true_iff, Z.leb_le, Z.ltb_lt, Z.eqb_neq in Hc. tauto.
Qed.

Lemma shows_str str : plain (text str) = true → shows (emergency_puts polls (cstr str)) (text str).
Proof. apply shows_plain. Qed.
Lemma shows_line str : plain (text str ++ [10]) = true → shows (emergency_puts polls (cline str)) (text str ++ [10]).
Proof. unfold cline. change [10; 0] with ([10] ++ [0]). rewrite app_assoc. apply shows_plain. Qed.
Lemma shows_par str : plain (text str ++ [10]) = true →
  shows (emergency_puts polls (10 :: cline str)) (10 :: (text str ++ [10])).
Proof.
  intros H. unfold cline. change [10; 0] with ([10] ++ [0]).
  rewrite app_assoc. apply (shows_plain (10 :: (text str ++ [10]))). exact H.
Qed.

Lemma shows_hex v : shows (emergency_print_hex polls v) (hex_text 8 v).
Proof.
  unfold emergency_print_hex. rewrite hex_loop_text by (vm_compute; lia). change (drop 8 (cstr "00000000")) with [0].
  apply shows_puts. eapply Forall_impl; [apply hex_text_chars|]. intros c Hc. simpl in Hc. lia.
Qed.

Lemma shows_reg name v : plain (text name) = true → shows (reg polls name v) (text name ++ hex_text 8 v).
Proof. intros H. apply shows_bind; [by apply shows_str|apply shows_hex]. Qed.

Context (junk : list Z) (Hjunk : length junk = 12%nat) (Hchars : Forall (λ c, -128 <= c < 128) junk).

Lemma dec_loop_text i v buf : (i <= length buf)%nat → 0 <= v →
  ∃ ds, drop (dec_loop i v buf).1 (dec_loop i v buf).2 = ds ++ drop i buf ∧ Forall (λ c, 48 <= c <= 57) ds.
Proof.
  revert v buf. induction i as [|i IH]; intros v buf Hi Hv; [by exists []|]. cbn [dec_loop].
  destruct (0 <? v); [|by exists []].
  destruct (IH (v / 10) (<[i := 48 + v mod 10]> buf)) as (ds & E & Hd);
    [rewrite length_insert; lia|apply Z.div_pos; lia|].
  exists (ds ++ [48 + v mod 10]). rewrite E. split.
  - rewrite <- app_assoc. f_equal. rewrite insert_take_drop, drop_app_ge by (rewrite ?length_take; lia).
    by rewrite length_take, Nat.min_l, Nat.sub_diag by lia.
  - apply Forall_app. split; [done|]. pose proof (Z.mod_pos_bound v 10). constructor; [lia|constructor].
Qed.

(** A decimal number is digits, and then the byte of the array that was never
    set, unless it happens to be zero. *)
Lemma shows_dec v : 0 <= v → ∃ ds stray, shows (emergency_print_dec polls junk v) (ds ++ stray) ∧
  Forall (λ c, 48 <= c <= 57) ds ∧ (length stray <= 1)%nat.
Proof.
  intros Hv. destruct (lookup_lt_is_Some_2 junk 10) as [c Hc]; [lia|].
  assert (Hc' : -128 <= c < 128) by exact (proj1 (Forall_lookup _ _) Hchars _ _ Hc).
  assert (Htl : drop 10 (<[11%nat := 0]> junk) = [c; 0]).
  { erewrite drop_S by (rewrite list_lookup_insert_ne by lia; exact Hc).
    erewrite drop_S by (apply list_lookup_insert_eq; lia).
    by rewrite drop_ge by (rewrite length_insert; lia). }
  assert (Hgen : ∀ ds, Forall (λ c, 48 <= c <= 57) ds → ∃ stray, (length stray <= 1)%nat ∧
            shows (emergency_puts polls (ds ++ [c; 0])) (ds ++ stray)).
  { intros ds Hds.
    assert (Hd : Forall (λ c, -128 <= c < 128 ∧ c ≠ 0) ds) by (eapply Forall_impl; [exact Hds|]; intros; simpl in *; lia).
    destruct (decide (c = 0)) as [->|Hne].
    - exists []. rewrite app_nil_r. split; [simpl; lia|]. by apply shows_puts.
    - exists [c]. split; [simpl; lia|]. change [c; 0] with ([c] ++ [0]). rewrite app_assoc.
      apply shows_puts. apply Forall_app. split; [done|]. by constructor. }
  unfold emergency_print_dec. destruct (Z.eqb_spec v 0) as [->|Hv0].
  - destruct (Hgen [48]) as (stray & Hl & Hsh); [constructor; [lia|constructor]|]. exists [48], stray.
    split; [|by split; [constructor; [lia|constructor]|]].
    erewrite drop_S by (apply list_lookup_insert_eq; rewrite length_insert; lia).
    rewrite drop_insert_lt by lia. by rewrite Htl.
  - destruct (dec_loop_text 10 v (<[11%nat := 0]> junk)) as (ds & E & Hds); [rewrite length_insert; lia|done|].
    destruct (Hgen ds Hds) as (stray & Hl & Hsh). exists ds, stray. split; [|done].
    destruct (dec_loop 10 v _) as [i buf]. simpl in E. by rewrite E, Htl.
Qed.

Context (mem : Z → Z) (kstart kend : Z).

Definition eip_lines (eips : list Z) : list Z := flat_map (λ e, text "EIP:" ++ hex_text 8 e ++ [10]) eips.

(** The block [make dump] looks for. *)
Definition trace_block (crash_eip : Z) (eips : list Z) : list Z :=
  (10 :: (text "--- STACK_TRACE_BEGIN ---" ++ [10])) ++ text "CRASH:" ++ hex_text 8 crash_eip ++ [10] ++
  eip_lines eips ++ text "--- STACK_TRACE_END ---" ++ [10].

Lemma shows_eips eips : shows (print_eips polls eips) (eip_lines eips).
Proof.
  induction eips as [|e eips IH]; [apply shows_ret|]. cbn [print_eips eip_lines flat_map]. rewrite <- !app_assoc.
  apply shows_bind; [by apply shows_str|]. apply shows_bind; [apply shows_hex|].
  apply (shows_bind _ _ [10]); [by apply (shows_line "")|exact IH].
Qed.

Lemma shows_frames i ebp eips : 0 <= i → ∃ l, shows (print_frames polls junk mem i ebp eips) l ∧ calm l.
Proof.
  revert i ebp. induction eips as [|e eips IH]; intros i ebp Hi; [exists []; split; [apply shows_ret|done]|].
  destruct (shows_dec i Hi) as (ds & st & Hd & Hds & Hst). destruct (IH (i + 1) (mem ebp)) as (l & Hl & Hc); [lia|].
  eexists. cbn [print_frames]. split.
  - apply shows_bind; [by apply shows_str|]. apply shows_bind; [exact Hd|].
    apply shows_bind; [by apply shows_str|]. apply shows_bind; [apply shows_hex|].
    apply shows_bind; [by apply shows_str|]. apply shows_bind; [apply shows_hex|].
    apply (shows_bind _ _ [10]); [by apply (shows_line "")|exact Hl].
  - apply calm_app; [done|]. rewrite app_assoc. apply calm_app; [|calm_tac].
    exact (calm_dec ds st "EBP=" Hds Hst eq_refl).
Qed.

Lemma shows_trace ebp eip :
  ∃ l, shows (emergency_stack_trace polls junk mem kstart kend ebp eip)
         (trace_block eip (collect mem kstart kend 16 ebp) ++ l) ∧ calm l.
Proof.
  set (eips := collect mem kstart kend 16 ebp).
  assert (∃ l, shows (match eips with
    | [] => emergency_puts polls (cline "  (no call chain — -fno-omit-frame-pointer?)")
    | _ => print_frames polls junk mem 0 ebp eips;;
           emergency_puts polls (cline "  (use 'make dump' offline to resolve EIP → function)")
    end) l ∧ calm l) as (l & Hl & Hc).
  { destruct eips as [|e es]; [eexists; split; [by apply shows_line|done]|].
    destruct (shows_frames 0 ebp (e :: es)) as (l & Hl & Hc); [lia|].
    eexists. split; [apply shows_bind; [exact Hl|]; by apply shows_line|calm_tac]. }
  eexists. unfold emergency_stack_trace. fold eips. unfold trace_block. rewrite <- !app_assoc. split.
  - apply shows_bind; [by apply shows_par|].
    apply shows_bind; [by apply shows_str|]. apply shows_bind; [apply shows_hex|].
    apply (shows_bind _ _ [10]); [by apply (shows_line "")|].
    apply shows_bind; [apply shows_eips|]. rewrite app_assoc.
    apply shows_bind; [by apply shows_line|]. apply shows_bind; [by apply shows_par|].
    apply shows_bind; [by apply shows_str|]. apply shows_bind; [apply shows_hex|].
    apply (shows_bind _ _ [10]); [by apply (shows_line "")|]. exact Hl.
  - calm_tac.
Qed.
End shows.

(** ** Reading a log back, as the [dump] target of the makefile does

    [sed -n '/BEGIN/,/END/p'] over the lines of the whole log, then [grep -o]
    for the two kinds of tokens, wherever they stand in a line.  The lines
    keep their carriage returns. *)
Fixpoint lines (cur l : list Z) : list (list Z) :=
  match l with
  | [] => [cur]
  | c :: l => if c =? 10 then cur :: lines [] l else lines (cur ++ [c]) l
  end.

(** A pattern without special characters, anywhere in the line. *)
Fixpoint contains (m l : list Z) : bool :=
  bool_decide (take (length m) l = m) || match l with [] => false | _ :: l => contains m l end.

Definition TRACE_BEGIN : list Z := text "--- STACK_TRACE_BEGIN ---".
Definition TRACE_END : list Z := text "--- STACK_TRACE_END ---".

(** The lines of every range; the end of a range is looked for from the line
    after its beginning on, a range without end goes on to the end. *)
Fixpoint sed_range (inside : bool) (ls : list (list Z)) : list (list Z) :=
  match ls with
  | [] => []
  | l :: ls =>
      if inside then l :: sed_range (negb (contains TRACE_END l)) ls
      else if contains TRACE_BEGIN l then l :: sed_range true ls else sed_range false ls
  end.

(** ['KEY[0-9A-Fa-f]\{8\}'] at the start of [l]: the number. *)
Definition tok (key l : list Z) : option Z :=
  if decide (take (length key) l = key ∧ (length key + 8 <= length l)%nat)
  then unhex 0 (take 8 (drop (length key) l)) else None.

(** All matches, from left to right; [skip] characters belong to the last. *)
Fixpoint grep_o (key : list Z) (skip : nat) (l : list Z) : list Z :=
  match l, skip with
  | [], _ => []
  | _ :: l, S skip => grep_o key skip l
  | c :: l', O =>
      match tok key l with
      | Some v => v :: grep_o key (length key + 7) l'
      | None => grep_o key O l'
      end
  end.

Definition tokens (key : list Z) (ls : list (list Z)) : list Z := flat_map (grep_o key O) ls.
Definition read_trace (log : list Z) : list Z * list Z :=
  let ls := sed_range false (lines [] log) in (tokens (text "CRASH:") ls, tokens (text "EIP:") ls).

Lemma lines_app cur x y : lines cur (x ++ 10 :: y) = lines cur x ++ lines [] y.
Proof. revert cur. induction x as [|c x IH]; intros cur; [done|]. cbn [app lines]. destruct (c =? 10); [cbn; f_equal|]; apply IH. Qed.

Lemma lines_one x : Forall (λ c, c ≠ 10) x → ∀ cur, lines cur x = [cur ++ x].
Proof.
  induction 1 as [|c x Hc _ IH]; intros cur; cbn [lines]; [by rewrite app_nil_r|].
  rewrite (proj2 (Z.eqb_neq c 10)) by done. by rewrite IH, <- app_assoc.
Qed.

(** The state of [sed] after some lines. *)
Fixpoint sed_state (inside : bool) (ls : list (list Z)) : bool :=
  match ls with
  | [] => inside
  | l :: ls => sed_state (if inside then negb (contains TRACE_END l) else contains TRACE_BEGIN l) ls
  end.

Lemma sed_range_app a l1 l2 : sed_range a (l1 ++ l2) = sed_range a l1 ++ sed_range (sed_state a l1) l2.
Proof.
  revert a. induction l1 as [|l l1 IH]; intros a; [done|]. cbn [app sed_range sed_state].
  destruct a; [cbn; f_equal; apply IH|]. destruct (contains TRACE_BEGIN l); [cbn; f_equal|]; apply IH.
Qed.

Lemma tokens_app key l1 l2 : tokens key (l1 ++ l2) = tokens key l1 ++ tokens key l2.
Proof. apply flat_map_app. Qed.

(** Lines without a match give none, whether they are in a range or not. *)
Lemma tokens_none key ls a : Forall (λ l, grep_o key O l = []) ls → tokens key (sed_range a ls) = [].
Proof.
  intros H. revert a. induction H as [|l ls Hl _ IH]; intros a; [done|]. cbn [sed_range].
  destruct a; [|destruct (contains TRACE_BEGIN l)]; cbn [tokens flat_map]; rewrite ?Hl; apply IH.
Qed.

(** A key that ends in [ch] and a colon does not occur where [run] gets through. *)
Lemma tok_run key ch a l : (∀ a r, run ch a (key ++ r) = None) → run ch a l ≠ None → tok key l = None.
Proof.
  intros Hk Hr. unfold tok. destruct (decide _) as [[H _]|]; [|done]. exfalso. apply Hr.
  rewrite <- (take_drop (length key) l), H. apply Hk.
Qed.

Lemma grep_run key ch l : (∀ a r, run ch a (key ++ r) = None) → ∀ a n, run ch a l ≠ None → grep_o key n l = [].
Proof.
  intros Hk. induction l as [|c l IH]; intros a n Hr; [by destruct n|].
  assert (Hn : run ch (c =? ch) l ≠ None) by (revert Hr; cbn [run]; by destruct (a && _)).
  destruct n as [|n]; cbn [grep_o]; [|by apply (IH _ _ Hn)]. rewrite (tok_run key ch a) by done. by apply (IH _ _ Hn).
Qed.

Lemma lines_run ch l : ∀ cur a, run ch a (cur ++ l) ≠ None → Forall (λ x, ∃ a, run ch a x ≠ None) (lines cur l).
Proof.
  induction l as [|c l IH]; intros cur a Hr; cbn [lines].
  - rewrite app_nil_r in Hr. constructor; [by exists a|constructor].
  - destruct (c =? 10).
    + rewrite run_app in Hr. destruct (run ch a cur) as [b|] eqn:E; [|done]. constructor; [exists a; by rewrite E|].
      cbn [mbind option_bind run] in Hr. destruct (b && _); [done|]. by apply (IH [] (c =? ch)).
    + apply (IH _ a). by rewrite <- app_assoc.
Qed.

(** The last letter of a key. *)
Definition key_of (ch : Z) : list Z := if ch =? 72 then text "CRASH:" else text "EIP:".

Lemma key_run ch : ch = 72 ∨ ch = 80 → ∀ a r, run ch a (key_of ch ++ r) = None.
Proof. intros [->| ->] a r; cbn; by rewrite !andb_false_r. Qed.

(** Calm text adds nothing to what is read. *)
Lemma calm_tokens ch l a : ch = 72 ∨ ch = 80 → calm l → tokens (key_of ch) (sed_range a (lines [] (13 :: crlf l))) = [].
Proof.
  intros Hch Hl. apply tokens_none. eapply Forall_impl; [apply (lines_run ch (13 :: crlf l) [] false)|].
  - apply calm_run in Hl as [H1 H2]. destruct Hch as [->| ->]; cbn; by rewrite ?H1, ?H2.
  - intros x [b Hx]. exact (grep_run (key_of ch) ch x (key_run ch Hch) b O Hx).
Qed.

Definition printable (l : list Z) : Prop := Forall (λ c, 32 <= c < 128) l.

Lemma crlf_printable l : printable l → crlf l = l.
Proof.
  induction 1 as [|c l Hc _ IH]; [done|]. cbn [crlf flat_map]. rewrite (proj2 (Z.eqb_neq c 10)) by lia.
  rewrite u8_small by (unfold is_u8; lia). cbn [app]. f_equal. exact IH.
Qed.

Lemma hex_printable n v : printable (hex_text n v).
Proof. eapply Forall_impl; [apply hex_text_chars|]. intros c Hc. simpl in *. lia. Qed.

Lemma printable_of l : forallb (λ c, (32 <=? c) && (c <? 128)) l = true → printable l.
Proof.
  intros H. apply Forall_forall. intros c Hc. rewrite forallb_forall in H. apply list_elem_of_In, H in Hc.
  rewrite andb_true_iff, Z.leb_le, Z.ltb_lt in Hc. done.
Qed.

(** The first line of what follows a newline. *)
Lemma lines_line x rest : printable x → lines [] (13 :: crlf (x ++ 10 :: rest)) = (13 :: x) :: lines [] (13 :: crlf rest).
Proof.
  intros Hx. rewrite crlf_app, (crlf_printable x Hx). change (crlf (10 :: rest)) with (10 :: 13 :: crlf rest).
  rewrite (app_comm_cons x _ 13), lines_app. rewrite (lines_one (13 :: x)); [done|].
  constructor; [lia|]. eapply Forall_impl; [exact Hx|]. intros c Hc. simpl in Hc. lia.
Qed.

Lemma tok_own key v r : is_u32 v → tok key (key ++ hex_text 8 v ++ r) = Some v.
Proof.
  intros Hv. unfold tok. rewrite decide_True.
  - rewrite drop_app_length, take_app_le, take_ge by (rewrite hex_text_length; lia). rewrite unhex_text; [done|].
    change (16 ^ Z.of_nat 8) with 4294967296. exact Hv.
  - rewrite take_app_length, !length_app, hex_text_length. split; [done|lia].
Qed.

Lemma grep_skip key x l : ∀ n, length x = n → grep_o key n (x ++ l) = grep_o key O l.
Proof. induction x as [|c x IH]; intros n <-; [done|]. by apply IH. Qed.

(** What the two patterns find in a line of the block. *)
Lemma grep_line ch ch' v : ch = 72 ∨ ch = 80 → ch' = 72 ∨ ch' = 80 → is_u32 v →
  grep_o (key_of ch) O (13 :: key_of ch' ++ hex_text 8 v) = if ch =? ch' then [v] else [].
Proof.
  intros Hch Hch' Hv. cbn [grep_o].
  assert (tok (key_of ch) (13 :: key_of ch' ++ hex_text 8 v) = None) as ->
    by (unfold tok; apply decide_False; intros [H _]; destruct Hch as [->| ->]; discriminate H).
  destruct (Z.eqb_spec ch ch') as [<-|Hne].
  - assert (∃ c k, key_of ch = c :: k) as (c & k & Ek) by (destruct Hch as [->| ->]; by do 2 eexists).
    pose proof (tok_own (key_of ch) v [] Hv) as Ht. rewrite app_nil_r in Ht. rewrite Ek in *. cbn [app] in *.
    cbn [grep_o]. rewrite Ht. f_equal. rewrite <- (app_nil_r (k ++ _)).
    rewrite (grep_skip (c :: k) (k ++ hex_text 8 v) []); [done|]. rewrite length_app, hex_text_length. simpl. lia.
  - assert (Hd : run ch false (hex_text 8 v) = Some false).
    { rewrite <- (crlf_printable _ (hex_printable 8 v)). apply run_digits; [apply hex_text_chars|lia]. }
    apply (grep_run (key_of ch) ch _ (key_run ch Hch) false). rewrite run_app.
    replace (run ch false (key_of ch')) with (Some false) by (destruct Hch as [->| ->], Hch' as [->| ->]; done).
    cbn [mbind option_bind]. by rewrite Hd.
Qed.

(** A line without dashes holds no marker. *)
Lemma no_marker m l : Forall (λ c, c ≠ 45) l → contains (45 :: m) l = false.
Proof.
  induction 1 as [|c l Hc _ IH]; cbn [contains]; [done|]. rewrite IH, orb_false_r. apply bool_decide_eq_false.
  cbn. by intros [= -> _].
Qed.

Lemma no_marker_line m ch v : ch = 72 ∨ ch = 80 → contains (45 :: m) (13 :: key_of ch ++ hex_text 8 v) = false.
Proof.
  intros Hch. apply no_marker. constructor; [lia|]. apply Forall_app. split.
  - destruct Hch as [->| ->]; vm_compute; repeat constructor; discriminate.
  - eapply Forall_impl; [apply hex_text_chars|]. intros c Hc. simpl in Hc. lia.
Qed.

Lemma key_printable ch v : ch = 72 ∨ ch = 80 → printable (key_of ch ++ hex_text 8 v).
Proof. intros Hch. apply Forall_app. split; [destruct Hch as [->| ->]; by apply printable_of|apply hex_printable]. Qed.

(** A line of the block inside a range. *)
Lemma read_line ch ch' v ls : ch = 72 ∨ ch = 80 → ch' = 72 ∨ ch' = 80 → is_u32 v →
  tokens (key_of ch) (sed_range true ((13 :: key_of ch' ++ hex_text 8 v) :: ls)) =
  (if ch =? ch' then [v] else []) ++ tokens (key_of ch) (sed_range true ls).
Proof.
  intros Hch Hch' Hv. cbn [sed_range]. unfold TRACE_END at 1. change (text "--- STACK_TRACE_END ---") with (45 :: text "-- STACK_TRACE_END ---").
  rewrite no_marker_line by done. cbn [negb tokens flat_map]. by rewrite grep_line.
Qed.

(** The addresses up to the end of the block, and nothing of calm text after it. *)
Lemma read_eips ch eips post : ch = 72 ∨ ch = 80 → Forall is_u32 eips → calm post →
  tokens (key_of ch) (sed_range true (lines [] (13 :: crlf (eip_lines eips ++ TRACE_END ++ 10 :: post))))
  = if ch =? 80 then eips else [].
Proof.
  intros Hch He Hpost. induction He as [|e eips He _ IH]; cbn [eip_lines flat_map app].
  - rewrite lines_line by (by apply printable_of). cbn [sed_range].
    replace (contains TRACE_END (13 :: TRACE_END)) with true by (vm_compute; reflexivity). cbn [negb tokens flat_map].
    fold (tokens (key_of ch) (sed_range false (lines [] (13 :: crlf post)))). rewrite calm_tokens by done. rewrite app_nil_r.
    destruct Hch as [->| ->]; vm_compute; reflexivity.
  - fold (eip_lines eips). rewrite <- !app_assoc. cbn [app]. rewrite (app_assoc (text "EIP:")).
    change (text "EIP:") with (key_of 80). rewrite lines_line by (by apply key_printable; right).
    rewrite read_line by (done || by right). rewrite IH. destruct Hch as [->| ->]; reflexivity.
Qed.

(** The block adds the faulting address and the return addresses to what is
    read, in whatever state the log before it left [sed]. *)
Lemma read_block ch a eip eips post : ch = 72 ∨ ch = 80 → is_u32 eip → Forall is_u32 eips → calm post →
  tokens (key_of ch) (sed_range a (lines [] (13 :: crlf (TRACE_BEGIN ++ 10 :: (key_of 72 ++ hex_text 8 eip) ++ 10 ::
    eip_lines eips ++ TRACE_END ++ 10 :: post)))) = if ch =? 72 then [eip] else eips.
Proof.
  intros Hch He Hes Hpost. rewrite lines_line by (by apply printable_of). rewrite lines_line by (by apply key_printable; left).
  assert (Hs : ∀ ls, sed_range a ((13 :: TRACE_BEGIN) :: ls) = (13 :: TRACE_BEGIN) :: sed_range true ls).
  { intros ls. cbn [sed_range]. replace (contains TRACE_END (13 :: TRACE_BEGIN)) with false by (vm_compute; reflexivity).
    replace (contains TRACE_BEGIN (13 :: TRACE_BEGIN)) with true by (vm_compute; reflexivity). by destruct a. }
  rewrite Hs. cbn [tokens flat_map]. replace (grep_o (key_of ch) O (13 :: TRACE_BEGIN)) with (@nil Z)
    by (destruct Hch as [->| ->]; vm_compute; reflexivity). cbn [app].
  fold (tokens (key_of ch) (sed_range true ((13 :: key_of 72 ++ hex_text 8 eip) ::
    lines [] (13 :: crlf (eip_lines eips ++ TRACE_END ++ 10 :: post))))).
  rewrite read_line, read_eips by (done || by left). destruct Hch as [->| ->]; [done|reflexivity].
Qed.

(** A log to which calm text, a block and more calm text are added. *)
Lemma read_trace_adds log pre eip eips post : calm pre → calm post → is_u32 eip → Forall is_u32 eips →
  read_trace (log ++ crlf (10 :: pre ++ trace_block eip eips ++ post)) =
    ((read_trace log).1 ++ [eip], (read_trace log).2 ++ eips).
Proof.
  intros Hpre Hpost He Hes.
  assert (E : crlf (10 :: pre ++ trace_block eip eips ++ post) = 10 :: 13 :: crlf pre ++ 10 ::
    13 :: crlf (TRACE_BEGIN ++ 10 :: (key_of 72 ++ hex_text 8 eip) ++ 10 :: eip_lines eips ++ TRACE_END ++ 10 :: post)).
  { change (crlf (10 :: ?l)) with (10 :: 13 :: crlf l). do 2 f_equal. rewrite crlf_app. f_equal.
    unfold trace_block. rewrite <- !app_assoc. cbn [app]. change (crlf (10 :: ?l)) with (10 :: 13 :: crlf l).
    unfold TRACE_BEGIN, TRACE_END, key_of. cbn [Z.eqb]. by rewrite <- ?app_assoc. }
  rewrite E. unfold read_trace. rewrite lines_app, app_comm_cons, lines_app, !sed_range_app. cbn [fst snd].
  change (text "CRASH:") with (key_of 72). change (text "EIP:") with (key_of 80).
  rewrite !tokens_app, !read_block, !calm_tokens by (solve [auto] || done). done.
Qed.

(** ** The frames that are reported *)

Section frames.
Context (mem : Z → Z) (kstart kend : Z) (Hmem : ∀ a, is_u32 (mem a)).

(** The frame pointer [i] links up from [ebp]. *)
Definition frame_at (ebp : Z) (i : nat) : Z := Nat.iter i mem ebp.

Lemma frame_at_next ebp i : frame_at (mem ebp) i = frame_at ebp (S i).
Proof. unfold frame_at. by rewrite Nat.iter_succ_r. Qed.

(** Frame [j] of the chain may be reported: it exists, it returns into the
    image, and the step to it goes up and stays below the end of the image. *)
Definition frame_valid (ebp : Z) (j : nat) : Prop :=
  frame_at ebp j ≠ 0 ∧ kstart <= mem (u32 (frame_at ebp j + 4)) < kend ∧
  (j ≠ O → frame_at ebp (pred j) <= frame_at ebp j < kend).

Lemma frame_valid_chain ebp i :
  (∀ j, (j <= S i)%nat → frame_valid ebp j) ↔
  frame_valid ebp O ∧ ebp <= mem ebp < kend ∧ ∀ j, (j <= i)%nat → frame_valid (mem ebp) j.
Proof.
  split.
  - intros H. split; [apply H; lia|]. split; [by apply (H 1%nat); lia|]. intros j Hj.
    destruct (H (S j)) as (H1 & H2 & H3); [lia|]. split; [by rewrite frame_at_next|]. split; [by rewrite frame_at_next|].
    intros Hj0. destruct j as [|j]; [done|]. cbn [pred]. rewrite !frame_at_next. by apply H3.
  - intros (H0 & Hl & H) [|j] Hj; [done|]. destruct (H j) as (H1 & H2 & H3); [lia|].
    split; [by rewrite <- frame_at_next|]. split; [by rewrite <- frame_at_next|]. intros _. rewrite <- frame_at_next. cbn [pred].
    destruct j as [|j]; [exact Hl|]. rewrite <- frame_at_next. by apply H3.
Qed.

(** The walk reports exactly the longest valid beginning of the chain, up to
    its bound. *)
Lemma collect_frames n ebp :
  (∀ i, (i < n)%nat → (i < length (collect mem kstart kend n ebp))%nat ↔ ∀ j, (j <= i)%nat → frame_valid ebp j) ∧
  (length (collect mem kstart kend n ebp) <= n)%nat ∧
  ∀ i e, collect mem kstart kend n ebp !! i = Some e → e = mem (u32 (frame_at ebp i + 4)).
Proof.
  revert ebp. induction n as [|n IH]; intros ebp; [split_and!; [lia|simpl; lia|intros [] e H; discriminate H]|].
  assert (Hno : ¬ frame_valid ebp O → collect mem kstart kend (S n) ebp = []).
  { intros H. cbn [collect]. destruct (Z.eqb_spec ebp 0) as [->|]; [done|].
    destruct (Z.ltb_spec (mem (ebp +u 4)) kstart); [done|]. destruct (Z.leb_spec kend (mem (ebp +u 4))); [done|].
    destruct H. split_and!; try done; lia. }
  destruct (decide (frame_at ebp 0 ≠ 0 ∧ kstart <= mem (u32 (frame_at ebp 0 + 4)) < kend)) as [[H1 H2]|Hv].
  2: { rewrite Hno by (intros (H1 & H2 & _); exact (Hv (conj H1 H2))). split_and!; [|simpl; lia|intros [] e H; discriminate H].
       intros i _. split; [simpl; lia|]. intros H. destruct (H O) as (H1 & H2 & _); [lia|]. destruct (Hv (conj H1 H2)). }
  assert (H0 : frame_valid ebp O) by (split; [exact H1|split; [exact H2|by intros []]]). change (frame_at ebp 0) with ebp in *.
  cbn [collect]. rewrite (proj2 (Z.eqb_neq ebp 0)) by done. fold (ebp +u 4) in H2.
  rewrite (proj2 (Z.ltb_ge (mem (ebp +u 4)) kstart)), (proj2 (Z.leb_gt kend (mem (ebp +u 4)))) by lia. cbn [orb].
  destruct (IH (mem ebp)) as (HI & HL & HE).
  assert (Hb : (mem ebp =? 0) || (mem ebp <? ebp) || (kend <=? mem ebp) = false ↔ mem ebp ≠ 0 ∧ ebp <= mem ebp < kend).
  { rewrite !orb_false_iff, Z.eqb_neq, Z.ltb_ge, Z.leb_gt. lia. }
  generalize dependent ((mem ebp =? 0) || (mem ebp <? ebp) || (kend <=? mem ebp)). intros b Hb. split_and!.
  - intros [|i] Hi; [split; [|simpl; lia]; intros _ j Hj; assert (j = O) as -> by lia; exact H0|]. rewrite frame_valid_chain.
    destruct b; cbn [length].
    + split; [lia|]. intros (_ & Hl & H). destruct (H O) as (Hz & _); [lia|]. pose proof (proj2 Hb (conj Hz Hl)) as Hf. discriminate Hf.
    + rewrite <- (HI i) by lia. pose proof (proj1 Hb eq_refl) as [_ Hl]. split; [intros Hlt; split; [exact H0|split; [exact Hl|lia]]|intros (_ & _ & Hlt); lia].
  - destruct b; simpl; lia.
  - intros [|i] e H; cbn in H; [by injection H as <-|]. destruct b; [by destruct i|]. rewrite <- frame_at_next. by apply HE.
Qed.

Lemma collect_u32 n ebp : Forall is_u32 (collect mem kstart kend n ebp).
Proof.
  apply Forall_forall. intros e He. apply list_elem_of_lookup_1 in He as [i Hi].
  destruct (collect_frames n ebp) as (_ & _ & HE). rewrite (HE i e Hi). apply Hmem.
Qed.
End frames.

(** [l] occurs in the text. *)
Definition has (l t : list Z) : Prop := ∃ a b, t = a ++ l ++ b.
Lemma has_here l r : has l (l ++ r).
Proof. by exists [], r. Qed.
Lemma has_skip l x r : has l r → has l (x ++ r).
Proof. intros (a & b & ->). exists (x ++ a), b. by rewrite <- app_assoc. Qed.
Lemma has_grow l x r : has l x → has l (x ++ r).
Proof. intros (a & b & ->). exists a, (b ++ r). by rewrite <- !app_assoc. Qed.

Section reports.
Context {D : Type} `{!Devices D}.
Context (polls : nat) (junk : list Z) (mem : Z → Z) (kstart kend : Z).

(** The value under its name is in the text. *)
Definition named (t : list Z) (nv : string * Z) : Prop := has (text nv.1 ++ hex_text 8 nv.2) t.

Lemma shows_bits (Hp : polls ≠ O) (Hr : uart_ready (D := D)) code mask yes no :
  plain (text yes) = true → plain (text no) = true → calm (text yes) → calm (text no) →
  ∃ l, shows (D := D) (bit_text polls code mask yes no) l ∧ calm l.
Proof.
  intros Hy Hn Cy Cn. unfold bit_text. destruct (negb _); [eexists; split; [by apply shows_str|done]|].
  destruct (String.eqb no ""); eexists; (split; [apply shows_ret || by apply shows_str|done]).
Qed.

(** The values a dump names: the error code and the registers, the fault
    address of a page fault, the stack of an interrupted ring 3. *)
Definition fault_regs (cr2 n : Z) : list (string * Z) :=
  if n =? 14 then [("CR2 (fault address): ", cr2)]%string else [].
Definition frame_regs (frame : exception_frame) : list (string * Z) :=
  [("EAX=", ef_eax frame); (" EBX=", ef_ebx frame); (" ECX=", ef_ecx frame);
   (" EDX=", ef_edx frame); ("ESI=", ef_esi frame); (" EDI=", ef_edi frame); (" EBP=", ef_ebp frame);
   (" ESP=", ef_esp_v frame); (" EIP=", ef_eip frame); ("  CS=", ef_cs frame); (" EFLAGS=", ef_eflags frame);
   (" DS=", ef_ds frame); ("  ES=", ef_es frame); ("  FS=", ef_fs frame); ("  GS=", ef_gs frame)]%string.
Definition user_regs (cs esp ss : Z) : list (string * Z) :=
  if negb (Z.land cs 3 =? 0) then [("User ESP=", esp); (" User SS=", ss)]%string else [].
Definition reg_names (cr2 n : Z) (frame : exception_frame) : list (string * Z) :=
  ("Error Code: "%string, ef_error_code frame) :: fault_regs cr2 n ++ frame_regs frame ++
  user_regs (ef_cs frame) (ef_user_esp frame) (ef_user_ss frame).

Lemma shows_fault_type (Hp : polls ≠ O) (Hr : uart_ready (D := D)) cr2 n code :
  ∃ l, shows (D := D) (if n =? 14 then
     reg polls "CR2 (fault address): " cr2;; emergency_puts polls (cline "");;
     emergency_puts polls (cstr "Page fault type: ");;
     bit_text polls code 1 "protection-violation " "non-present ";;
     bit_text polls code 2 "write " "read ";;
     bit_text polls code 4 "user-mode " "kernel-mode ";;
     bit_text polls code 8 "reserved-bit " "";;
     bit_text polls code 16 "instruction-fetch " "";;
     emergency_puts polls (cline "")
   else mret tt) l ∧ calm l ∧ Forall (named l) (fault_regs cr2 n).
Proof.
  unfold fault_regs. destruct (n =? 14); [|exists []; split_and!; [apply shows_ret|done|constructor]].
  destruct (shows_bits Hp Hr code 1 "protection-violation " "non-present ") as (l1 & H1 & C1); [done..|].
  destruct (shows_bits Hp Hr code 2 "write " "read ") as (l2 & H2 & C2); [done..|].
  destruct (shows_bits Hp Hr code 4 "user-mode " "kernel-mode ") as (l3 & H3 & C3); [done..|].
  destruct (shows_bits Hp Hr code 8 "reserved-bit " "") as (l4 & H4 & C4); [done..|].
  destruct (shows_bits Hp Hr code 16 "instruction-fetch " "") as (l5 & H5 & C5); [done..|].
  eexists. split; [|split].
  - apply shows_bind; [by apply shows_reg|]. apply shows_bind; [by apply shows_line|].
    apply shows_bind; [by apply shows_str|]. apply shows_bind; [exact H1|]. apply shows_bind; [exact H2|].
    apply shows_bind; [exact H3|]. apply shows_bind; [exact H4|]. apply shows_bind; [exact H5|]. by apply shows_line.
  - calm_tac.
  - constructor; [apply has_here|constructor].
Qed.

Lemma shows_user_stack (Hp : polls ≠ O) (Hr : uart_ready (D := D)) cs esp ss :
  ∃ l, shows (D := D) (if negb (Z.land cs 3 =? 0) then
     reg polls "User ESP=" esp;; reg polls " User SS=" ss;; emergency_puts polls (cline "") else mret tt) l ∧
    calm l ∧ Forall (named l) (user_regs cs esp ss).
Proof.
  unfold user_regs. destruct (negb _); [|exists []; split_and!; [apply shows_ret|done|constructor]].
  eexists. split; [|split].
  - apply shows_bind; [by apply shows_reg|]. apply shows_bind; [by apply shows_reg|]. by apply shows_line.
  - calm_tac.
  - constructor; [apply has_here|]. constructor; [apply has_skip, has_here|constructor].
Qed.

Lemma exception_name_plain n : 0 <= n → plain (text (exception_name n)) = true ∧ calm (text (exception_name n)).
Proof.
  intros Hn. destruct (decide (n < 32)) as [H|H].
  - assert (Hall : forallb (λ k, plain (text (exception_name (Z.of_nat k))) && calmb (text (exception_name (Z.of_nat k)))) (seq 0 32) = true)
      by (vm_compute; reflexivity).
    rewrite forallb_forall in Hall. specialize (Hall (Z.to_nat n)). rewrite Z2Nat.id in Hall by done.
    apply andb_true_iff, Hall, in_seq. lia.
  - unfold exception_name. by rewrite (proj2 (Z.ltb_ge n 32)) by lia.
Qed.

(** [m] shows calm text with the values [rs] in it, the block [B], and more
    calm text. *)
Definition reports (m : M (crash D) unit) (B : list Z) (rs : list (string * Z)) : Prop :=
  ∃ pre post, shows m (pre ++ B ++ post) ∧ calm pre ∧ calm post ∧ Forall (named pre) rs.

Lemma reports_piece m1 m2 l B rs1 rs2 : shows m1 l → calm l → Forall (named l) rs1 → reports m2 B rs2 →
  reports (m1;; m2) B (rs1 ++ rs2).
Proof.
  intros H1 Hl Hrs1 (pre & post & H2 & Hpre & Hpost & Hrs). exists (l ++ pre), post. split_and!.
  - rewrite <- app_assoc. by apply shows_bind.
  - by apply calm_app.
  - done.
  - apply Forall_app. split; eapply Forall_impl; [exact Hrs1| |exact Hrs|]; intros nv; [apply has_grow|apply has_skip].
Qed.

Lemma reports_skip m1 m2 l B rs : shows m1 l → calm l → reports m2 B rs → reports (m1;; m2) B rs.
Proof. intros H1 Hl. by apply (reports_piece m1 m2 l B []). Qed.

Lemma reports_reg (Hp : polls ≠ O) (Hr : uart_ready (D := D)) name v m2 B rs :
  plain (text name) = true → calm (text name) → reports m2 B rs → reports (reg polls name v;; m2) B ((name, v) :: rs).
Proof.
  intros Hn Hc. apply (reports_piece _ _ (text name ++ hex_text 8 v) _ [(name, v)]); [by apply shows_reg|calm_tac|].
  constructor; [by exists [], []; rewrite app_nil_r|constructor].
Qed.

(** A number and the text after it. *)
Lemma reports_dec m1 m2 m3 ds stray str B rs :
  shows m1 (ds ++ stray) → Forall (λ c, 48 <= c <= 57) ds → (length stray <= 1)%nat → calm (text str) →
  shows m2 (text ("  " ++ str)) → reports m3 B rs → reports (m1;; m2;; m3) B rs.
Proof.
  intros H1 Hds Hst Hc H2 (pre & post & H3 & Hpre & Hpost & Hrs).
  exists (((ds ++ stray) ++ text ("  " ++ str)) ++ pre), post. split_and!; [| |done|].
  - rewrite <- (app_assoc _ pre), <- (app_assoc (ds ++ stray)). by do 2 (apply shows_bind; [done|]).
  - apply calm_app; [by apply calm_dec|done].
  - eapply Forall_impl; [exact Hrs|]. intros nv. apply has_skip.
Qed.

(** The dump after its first newline, which is of the text [10 :: l]. *)
Lemma shows_dump (Hp : polls ≠ O) (Hr : uart_ready (D := D)) (Hl : length junk = 12%nat)
    (Hc : Forall (λ c, -128 <= c < 128) junk) cr2 n frame : 0 <= n →
  ∃ pre post, shows (exception_dump polls junk mem kstart kend cr2 n frame)
    (10 :: pre ++ trace_block (ef_eip frame) (collect mem kstart kend 16 (ef_ebp frame)) ++ post) ∧
    calm pre ∧ calm post ∧ Forall (named pre) (reg_names cr2 n frame).
Proof.
  intros Hn. destruct (shows_dec polls Hp Hr junk Hl Hc n Hn) as (ds & st & Hd & Hds & Hst).
  destruct (shows_fault_type Hp Hr cr2 n (ef_error_code frame)) as (lf & Hf & Cf & Nf).
  destruct (shows_user_stack Hp Hr (ef_cs frame) (ef_user_esp frame) (ef_user_ss frame)) as (lu & Hu & Cu & Nu).
  destruct (shows_trace polls Hp Hr junk Hl Hc mem kstart kend (ef_ebp frame) (ef_eip frame)) as (lt & Ht & Ct).
  destruct (exception_name_plain n Hn) as [Hname Cname]. unfold exception_dump.
  assert (Hfirst : ∀ m B rs, reports m B rs → ∃ pre post, shows
    (emergency_puts polls (10 :: 10 :: cline "========================================");; m) (10 :: pre ++ B ++ post) ∧
    calm pre ∧ calm post ∧ Forall (named pre) rs).
  { intros m B rs (pre & post & H & C1 & C2 & Hrs). exists ((10 :: text "========================================" ++ [10]) ++ pre), post.
    split_and!; [| by apply calm_app |done|eapply Forall_impl; [exact Hrs|]; intros nv; apply has_skip].
    rewrite <- (app_assoc _ pre), app_comm_cons. apply shows_bind; [|done].
    apply (shows_plain _ Hp Hr (10 :: 10 :: (text "========================================" ++ [10])) []). reflexivity. }
  apply Hfirst. unfold reg_names. do 2 (eapply reports_skip; [by apply shows_line|done|]).
  eapply reports_skip; [by apply shows_str|done|].
  eapply (reports_dec _ _ _ ds st ""); [exact Hd|done|done|done|by apply shows_str|].
  eapply reports_skip; [by apply shows_str|done|]. eapply reports_skip; [by apply shows_line|done|].
  apply reports_reg; [done..|]. eapply reports_skip; [by apply shows_line|done|].
  eapply reports_piece; [exact Hf|done|done|]. unfold frame_regs. cbn [app].
  repeat first
    [ eapply reports_skip; [first [by apply shows_line | by apply shows_par]|done|]
    | apply reports_reg; [exact Hp|exact Hr|reflexivity|reflexivity|] ].
  rewrite <- (app_nil_r (user_regs _ _ _)). eapply reports_piece; [exact Hu|done|done|].
  eapply reports_skip; [by apply shows_par|done|].
  set (B := trace_block _ _) in *.
  assert (∃ l, shows (D := D) (emergency_puts polls (10 :: cline "========================================");;
    emergency_puts polls (cline "System halted.");; emergency_puts polls (cline "========================================")) l ∧ calm l)
    as (le & He & Ce).
  { eexists. split; [apply shows_bind; [by apply shows_par|]; apply shows_bind; [by apply shows_line|]; by apply shows_line|done]. }
  exists [], (lt ++ le). split_and!; [|done|by apply calm_app|constructor]. rewrite app_nil_l, app_assoc. by apply shows_bind.
Qed.

End reports.

(** ** Witness and examples *)

(** A serial port that is always ready. *)
#[local] Instance ready_port : Devices unit := {| dev_in _ _ d := (32, d); dev_out _ _ _ d := d |}.

(** Frames at 0x2000 and 0x2100 that return to 0x1100 and 0x1200. *)
Definition demo_stack (a : Z) : Z :=
  if a =? 8192 then 8448 else if a =? 8196 then 4352 else if a =? 8452 then 4608 else 0.
Definition demo_frame : exception_frame :=
  mk_exception_frame 0 0 16 16 1 2 8192 3 4 5 6 7 2 4660 8 514 0 0.
Definition demo_crash : crash unit := mk_crash (replicate 2000 0) 0 (mk_wires tt []).

(** A log with an older dump, cut off in the middle of a line. *)
Definition old_log : list Z :=
  (text "boot" ++ [10; 13] ++ TRACE_BEGIN ++ [10; 13] ++ text "CRASH:0000ABCD" ++ [10; 13] ++ text "EIP:00001000 EIP:00002000 EI")%list.
Definition demo_crash_again : crash unit :=
  mk_crash (replicate 2000 0) 0 (mk_wires tt (reverse (map (λ c, Out W8 1016 c) old_log))).


(** The eleventh byte of the local array is printed after the number. *)
Example dec_prints_a_stray_byte :
  match emergency_print_dec 1 (replicate 12 63) 7 demo_crash with
  | Ret _ s => serial s = [55; 63]
  | _ => False
  end.
Proof. vm_compute. reflexivity. Qed.

(** Bytes outside ASCII are negative characters: they overwrite the colour. *)
Example dash_loses_its_colour :
  match vga_emergency_putc (signed_char 226) demo_crash with
  | Ret _ s => cr_vga s !! 0%nat = Some 65506   (* 0xFFE2, not 0x4FE2 *)
  | _ => False
  end.
Proof. vm_compute. reflexivity. Qed.

(** A frame above the image ends the chain after one entry. *)
Example heap_stack_is_cut_short : collect demo_stack 4096 8448 16 8192 = [4352].
Proof. reflexivity. Qed.
