(* ===== verification/Mailbox.v ===== *)
(** * Mailboxes (kernel/ipc/mailbox.c)

    A mail is two objects: the payload in the user heap, which ring 3 may
    read, and the bookkeeping in the kernel heap (reference count, lock, list
    nodes), found again by walking the list of mails in flight.  Every thread
    has a mailbox: a queue of mails (added at the head, taken from the tail),
    the registered handlers, 16 subscriptions and the threads parked in
    LISTEN_BLOCK, whose wait queue shares the mailbox's lock.  The handlers
    are code registered at run time: the function [run_handler]. *)

From stdpp Require Import base tactics list gmap.
From Stdlib Require Import ZArith Lia.
From S2P Require Import Prelude Spinlock Allocator Heap KState Capability Sched ThreadApi.
From S2P Require Import WaitQueue Semaphore.

Open Scope Z_scope.

Definition MAIL_ANY_TID : Z := -205.
Definition MAX_SUBSCRIPTION_COUNT : nat := 16.

Definition sizeof_mail : Z := 272.
Definition sizeof_mailmeta : Z := 32.
Definition sizeof_mailbox : Z := 104.
Definition sizeof_mailhandler : Z := 12.
(** &mb->waiters *)
Definition mb_waiters (mb : Z) : Z := mb + 92.

Definition zero_mail : mail := mk_mail 0 0 0 (replicate 256 0) 0.

Definition meta_set_ref (n : Z) (c : mailmeta) : mailmeta :=
  mk_meta (mm_id c) n (mm_payload c) (mm_lock c).
Definition mb_set_mails (l : list Z) (b : mailbox) : mailbox :=
  mk_mailbox (mb_owner_pid b) (mb_owner_tid b) (mb_subscriptions b) (mb_lock b) l (mb_handlers b).
Definition mb_set_handlers (l : list (Z * Z)) (b : mailbox) : mailbox :=
  mk_mailbox (mb_owner_pid b) (mb_owner_tid b) (mb_subscriptions b) (mb_lock b) (mb_mails b) l.
Definition mb_set_subscriptions (l : list Z) (b : mailbox) : mailbox :=
  mk_mailbox (mb_owner_pid b) (mb_owner_tid b) l (mb_lock b) (mb_mails b) (mb_handlers b).

(** ** The parameter block of SYSCALL_MAILBOX *)

Definition MAILBOX_CTRL_SEND : Z := 0.
Definition MAILBOX_CTRL_LISTEN : Z := 1.
Definition MAILBOX_CTRL_REGISTER_HANDLER : Z := 2.
Definition MAILBOX_CTRL_UNREGISTER_HANDLER : Z := 3.
Definition MAILBOX_CTRL_ALLOC_MAIL : Z := 4.
Definition MAILBOX_CTRL_RELEASE_MAIL : Z := 5.
Definition MAILBOX_CTRL_ALLOC : Z := 6.
Definition MAILBOX_CTRL_RELEASE : Z := 7.
Definition MAILBOX_CTRL_SUBSCRIBE_MAIL : Z := 8.
Definition MAILBOX_CTRL_UNSUBSCRIBE_MAIL : Z := 9.
Definition MAILBOX_CTRL_LISTEN_BLOCK : Z := 10.

Record mailbox_ctrl_config := mk_mcc {
  mc_cmd : Z; mc_m : Z; mc_mb : Z; mc_handler : Z; mc_pid : Z; mc_tid : Z; mc_magic : Z; mc_ret : Z }.

Definition mcc (cmd m mb : Z) : mailbox_ctrl_config := mk_mcc cmd m mb 0 0 0 0 0.
Definition mc_set_ret (r : Z) (c : mailbox_ctrl_config) : mailbox_ctrl_config :=
  mk_mcc (mc_cmd c) (mc_m c) (mc_mb c) (mc_handler c) (mc_pid c) (mc_tid c) (mc_magic c) r.
Definition mc_set_m (m : Z) (c : mailbox_ctrl_config) : mailbox_ctrl_config :=
  mk_mcc (mc_cmd c) m (mc_mb c) (mc_handler c) (mc_pid c) (mc_tid c) (mc_magic c) (mc_ret c).
Definition mc_set_mb (mb : Z) (c : mailbox_ctrl_config) : mailbox_ctrl_config :=
  mk_mcc (mc_cmd c) (mc_m c) mb (mc_handler c) (mc_pid c) (mc_tid c) (mc_magic c) (mc_ret c).

(** The array updated at the first index that holds [old]. *)
Fixpoint replace_first (old new : Z) (l : list Z) : option (list Z) :=
  match l with
  | [] => None
  | x :: l => if x =? old then Some (new :: l) else (x ::.) <$> replace_first old new l
  end.

Definition subscribed (b : mailbox) (magic : Z) : bool :=
  existsb (Z.eqb magic) (mb_subscriptions b).

Lemma NoDup_reverse_rev (l : list Z) : NoDup l → NoDup (rev l).
Proof. rewrite !NoDup_ListNoDup. apply NoDup_rev. Qed.

Section mailbox.
Context {A U W : Type} `{!AddressSpace W, !Allocator A, !Allocator U}.
Notation kernel := (kernel A U W).
Context `{!Gate kernel proc_thread_ctrl_config, !Gate kernel mailbox_ctrl_config}.
(** A registered handler, run on a mail. *)
Context (run_handler : Z → Z → M kernel unit).
Implicit Types k : kernel.

Definition uzoom {B} (m : M U B) : M kernel B := @zoom _ _ kernel_uheap _ m.

Definition get_mail (m : Z) : M kernel mail := deref (λ k, mails k !! m).
Definition get_meta (x : Z) : M kernel mailmeta := deref (λ k, mailmetas k !! x).
Definition get_mailbox (mb : Z) : M kernel mailbox := deref (λ k, mailboxes k !! mb).
Definition set_mail (m : Z) (c : mail) : M kernel unit :=
  modify (λ k, set_mails (<[m := c]> (mails k)) k).
Definition upd_meta (x : Z) (f : mailmeta → mailmeta) : M kernel unit :=
  c ← get_meta x; modify (λ k, set_mailmetas (<[x := f c]> (mailmetas k)) k).
Definition upd_mailbox (mb : Z) (f : mailbox → mailbox) : M kernel unit :=
  b ← get_mailbox mb; modify (λ k, set_mailboxes (<[mb := f b]> (mailboxes k)) k).

(** ** Mails *)

Fixpoint find_meta (m : Z) (l : list Z) : M kernel Z :=
  match l with
  | [] => mret 0
  | x :: l => c ← get_meta x; if mm_payload c =? m then mret x else find_meta m l
  end.

Definition get_mailmeta (m : Z) : M kernel Z :=
  if m =? 0 then mret 0 else l ← gets inflight_mails; find_meta m l.

Definition alloc_mail : M kernel Z :=
  m ← uzoom (kmalloc sizeof_mail);
  if m =? 0 then mret 0 else
  meta ← kzoom (kmalloc sizeof_mailmeta);
  if meta =? 0 then uzoom (kfree m);; mret 0 else
  l ← zoom spinlock_alloc;
  match l with
  | None => kzoom (kfree meta);; uzoom (kfree m);; mret 0
  | Some _ =>
      id ← gets next_mail_id;
      modify (set_next_mail_id (id +u 1));;
      set_mail m zero_mail;;
      modify (λ k, set_mailmetas (<[meta := mk_meta id 1 m l]> (mailmetas k)) k);;
      modify (λ k, set_inflight_mails (meta :: inflight_mails k) k);;
      mret m
  end.

Definition release_mail (m : Z) : M kernel unit :=
  if m =? 0 then mret tt else
  meta ← get_mailmeta m;
  if meta =? 0 then mret tt else
  c ← get_meta meta;
  live ← irq_section (mm_lock c) (
    upd_meta meta (λ c, meta_set_ref (i32 (mm_ref c - 1)) c);;
    c ← get_meta meta;
    mret (0 <? mm_ref c));
  if live : bool then mret tt else
  zoom (spinlock_release (mm_lock c));;
  modify (λ k, set_inflight_mails (remove meta (inflight_mails k)) k);;
  modify (λ k, set_mailmetas (delete meta (mailmetas k)) k);;
  kzoom (kfree meta);;
  modify (λ k, set_mails (delete m (mails k)) k);;
  uzoom (kfree m).

(** ** Mailboxes *)

Definition alloc_mailbox (owner_pid owner_tid : Z) : M kernel Z :=
  mb ← kzoom (kmalloc sizeof_mailbox);
  if mb =? 0 then mret 0 else
  l ← zoom spinlock_alloc;
  match l with
  | None => kzoom (kfree mb);; mret 0
  | Some _ =>
      modify (λ k, set_mailboxes (<[mb := mk_mailbox owner_pid owner_tid
        (replicate MAX_SUBSCRIPTION_COUNT 0) l [] []]> (mailboxes k)) k);;
      modify (λ k, set_wqs (<[mb_waiters mb := mk_wq [] l]> (wqs k)) k);;
      mret mb
  end.

(** The two loops of [release_mailbox], from the tail of each list. *)
Fixpoint drop_mails (mb : Z) (l : list Z) : M kernel unit :=
  match l with
  | [] => mret tt
  | meta :: l =>
      c ← get_meta meta;
      upd_mailbox mb (λ b, mb_set_mails (remove meta (mb_mails b)) b);;
      release_mail (mm_payload c);;
      drop_mails mb l
  end.

Fixpoint drop_handlers (mb : Z) (l : list (Z * Z)) : M kernel unit :=
  match l with
  | [] => mret tt
  | mh :: l =>
      upd_mailbox mb (λ b, mb_set_handlers (filter (λ h, h.1 ≠ mh.1) (mb_handlers b)) b);;
      kzoom (kfree mh.1);;
      drop_handlers mb l
  end.

Definition release_mailbox (mb : Z) : M kernel unit :=
  if mb =? 0 then mret tt else
  b ← get_mailbox mb;
  irq_section (mb_lock b) (
    b ← get_mailbox mb;
    drop_mails mb (rev (mb_mails b));;
    b ← get_mailbox mb;
    drop_handlers mb (rev (mb_handlers b)));;
  zoom (spinlock_release (mb_lock b));;
  modify (λ k, set_mailboxes (delete mb (mailboxes k)) (set_wqs (delete (mb_waiters mb) (wqs k)) k));;
  kzoom (kfree mb).

(** *** Queueing

    A meta has one list node: adding it to a second queue would tear the
    first one, which is outside what a sequence can represent; it faults. *)
Definition meta_queued k (meta : Z) : bool :=
  existsb (λ p, bool_decide (meta ∈ mb_mails p.2)) (map_to_list (mailboxes k)).

Definition enqueue_mail (mb meta : Z) : M kernel unit :=
  queued ← gets (λ k, meta_queued k meta);
  if queued : bool then fault else
  upd_mailbox mb (λ b, mb_set_mails (meta :: mb_mails b) b).

Fixpoint run_handlers (m : Z) (l : list (Z * Z)) : M kernel unit :=
  match l with
  | [] => mret tt
  | mh :: l => (if mh.2 =? 0 then mret tt else run_handler mh.2 m);; run_handlers m l
  end.

Inductive delivery := Handled | Queued | Untracked.

Definition send_mail (mb m : Z) : M kernel Z :=
  if (mb =? 0) || (m =? 0) then mret E_INVAL else
  b ← get_mailbox mb;
  d ← irq_section (mb_lock b) (
    b ← get_mailbox mb;
    match mb_handlers b with
    | [] =>
        meta ← get_mailmeta m;
        if meta =? 0 then mret Untracked else enqueue_mail mb meta;; mret Queued
    | hs => run_handlers m hs;; mret Handled
    end);
  match d with
  | Handled => release_mail m;; mret 0
  | Untracked => release_mail m;; mret E_INVAL
  | Queued => wait_queue_wake_one (mb_waiters mb);; mret 0
  end.

(** *** Broadcast *)

(** First pass: is there any mailbox, and how many have a handler and the
    subscription. *)
Fixpoint count_recipients (m : Z) (ts : list Z) : M kernel (bool * Z) :=
  match ts with
  | [] => mret (false, 0)
  | t :: ts =>
      c ← get_tcb t;
      if t_mailbox c =? 0 then count_recipients m ts else
      b ← get_mailbox (t_mailbox c);
      hit ← irq_section (mb_lock b) (
        x ← get_mail m;
        b ← get_mailbox (t_mailbox c);
        mret (negb (m_magic x =? 0) && match mb_handlers b with [] => false | _ => true end
              && subscribed b (m_magic x)));
      r ← count_recipients m ts;
      mret (true, if hit : bool then r.2 + 1 else r.2)
  end.

Definition clone_into (mb m : Z) : M kernel unit :=
  clone ← alloc_mail;
  if clone =? 0 then mret tt else
  x ← get_mail m;
  set_mail clone x;;
  b ← get_mailbox mb;
  irq_section (mb_lock b) (
    meta ← get_mailmeta clone;
    if meta =? 0 then mret tt else enqueue_mail mb meta);;
  wait_queue_wake_one_locked (mb_waiters mb).

Fixpoint deliver_all (m : Z) (ts : list Z) : M kernel unit :=
  match ts with
  | [] => mret tt
  | t :: ts =>
      c ← get_tcb t;
      (if t_mailbox c =? 0 then mret tt else
       let mb := t_mailbox c in
       b ← get_mailbox mb;
       r ← irq_section (mb_lock b) (
         b ← get_mailbox mb;
         x ← get_mail m;
         mret (match mb_handlers b with [] => false | _ => true end,
               negb (m_magic x =? 0) && subscribed b (m_magic x)));
       if negb r.2 then mret tt else
       if (r.1 : bool) then send_mail mb m;; mret tt
       else clone_into mb m);;
      deliver_all m ts
  end.

Definition broadcast (m : Z) : M kernel Z :=
  tracked ← sched_section (
    ts ← gets thread_head;
    r ← count_recipients m ts;
    if negb r.1 then mret true else
    meta ← get_mailmeta m;
    if meta =? 0 then mret false else
    upd_meta meta (λ c, meta_set_ref (i32 (mm_ref c + r.2)) c);;
    ts ← gets thread_head;
    deliver_all m ts;;
    mret true);
  if tracked : bool then release_mail m;; mret 0 else mret E_INVAL.

Definition send (m : Z) : M kernel Z :=
  if m =? 0 then mret E_INVAL else
  x ← get_mail m;
  if m_receiver x =? MAIL_ANY_TID then broadcast m else
  t ← thread_get_by_tid (m_receiver x);
  if t =? 0 then release_mail m;; mret E_NOTFOUND else
  c ← get_tcb t;
  if t_mailbox c =? 0 then release_mail m;; mret E_NOTFOUND else
  send_mail (t_mailbox c) m.

(** *** Receiving and handlers *)

Definition try_get_mail (mb : Z) : M kernel Z :=
  if mb =? 0 then mret 0 else
  b ← get_mailbox mb;
  meta ← irq_section (mb_lock b) (
    b ← get_mailbox mb;
    match last (mb_mails b) with
    | None => mret 0
    | Some meta =>
        upd_mailbox mb (λ b, mb_set_mails (remove meta (mb_mails b)) b);;
        mret meta
    end);
  if meta =? 0 then mret 0 else
  c ← get_meta meta;
  mret (mm_payload c).

Definition register_handler (mb handler : Z) : M kernel Z :=
  if (mb =? 0) || (handler =? 0) then mret E_INVAL else
  mh ← kzoom (kmalloc sizeof_mailhandler);
  if mh =? 0 then mret E_NOMEM else
  b ← get_mailbox mb;
  irq_section (mb_lock b) (
    upd_mailbox mb (λ b, mb_set_handlers ((mh, handler) :: mb_handlers b) b));;
  mret 0.

Definition unregister_handler (mb handler : Z) : M kernel Z :=
  if (mb =? 0) || (handler =? 0) then mret E_INVAL else
  b ← get_mailbox mb;
  mh ← irq_section (mb_lock b) (
    b ← get_mailbox mb;
    match List.find (λ h, h.2 =? handler) (mb_handlers b) with
    | None => mret 0
    | Some h =>
        upd_mailbox mb (λ b, mb_set_handlers (filter (λ h', h'.1 ≠ h.1) (mb_handlers b)) b);;
        mret h.1
    end);
  (if mh =? 0 then mret tt else kzoom (kfree mh));;
  mret 0.

(** ** The commands *)

(** mb == NULL names the calling thread's own mailbox. *)
Definition resolve_mb (c : mailbox_ctrl_config) : M kernel mailbox_ctrl_config :=
  if negb (mc_mb c =? 0) then mret c else
  tid ← thread_get_tid;
  t ← thread_get_by_tid tid;
  if t =? 0 then mret (mc_set_mb 0 c) else
  x ← get_tcb t;
  mret (mc_set_mb (t_mailbox x) c).

Definition subscribe (c : mailbox_ctrl_config) : M kernel Z :=
  b ← get_mailbox (mc_mb c);
  irq_section (mb_lock b) (
    b ← get_mailbox (mc_mb c);
    if subscribed b (mc_magic c) then mret 0 else
    match replace_first 0 (mc_magic c) (mb_subscriptions b) with
    | Some l => upd_mailbox (mc_mb c) (mb_set_subscriptions l);; mret 0
    | None => mret E_NOMEM
    end).

Definition unsubscribe (c : mailbox_ctrl_config) : M kernel Z :=
  b ← get_mailbox (mc_mb c);
  irq_section (mb_lock b) (
    b ← get_mailbox (mc_mb c);
    match replace_first (mc_magic c) 0 (mb_subscriptions b) with
    | Some l => upd_mailbox (mc_mb c) (mb_set_subscriptions l);; mret 0
    | None => mret E_INVAL
    end).

Definition listen_block (mb : Z) : M kernel unit :=
  b ← get_mailbox mb;
  irq_section (mb_lock b) (
    b ← get_mailbox mb;
    match mb_mails b with
    | [] => wait_queue_sleep_locked (mb_waiters mb)
    | _ => mret tt
    end).

Definition mailbox_command (c : mailbox_ctrl_config) : M kernel mailbox_ctrl_config :=
  let cmd := mc_cmd c in
  if cmd =? MAILBOX_CTRL_SEND then r ← send (mc_m c); mret (mc_set_ret r c)
  else if cmd =? MAILBOX_CTRL_LISTEN then
    c ← resolve_mb c;
    m ← try_get_mail (mc_mb c);
    mret (mc_set_ret (if m =? 0 then -1 else 0) (mc_set_m m c))
  else if cmd =? MAILBOX_CTRL_LISTEN_BLOCK then
    c ← resolve_mb c;
    if mc_mb c =? 0 then mret (mc_set_ret E_INVAL c) else
    listen_block (mc_mb c);;
    mret (mc_set_ret 0 c)
  else if cmd =? MAILBOX_CTRL_REGISTER_HANDLER then
    r ← register_handler (mc_mb c) (mc_handler c); mret (mc_set_ret r c)
  else if cmd =? MAILBOX_CTRL_UNREGISTER_HANDLER then
    r ← unregister_handler (mc_mb c) (mc_handler c); mret (mc_set_ret r c)
  else if cmd =? MAILBOX_CTRL_ALLOC_MAIL then
    m ← alloc_mail; mret (mc_set_ret (if m =? 0 then E_NOMEM else 0) (mc_set_m m c))
  else if cmd =? MAILBOX_CTRL_RELEASE_MAIL then
    release_mail (mc_m c);; mret (mc_set_ret 0 c)
  else if cmd =? MAILBOX_CTRL_ALLOC then
    mb ← alloc_mailbox (mc_pid c) (mc_tid c);
    mret (mc_set_ret (if mb =? 0 then E_NOMEM else 0) (mc_set_mb mb c))
  else if cmd =? MAILBOX_CTRL_RELEASE then
    release_mailbox (mc_mb c);; mret (mc_set_ret 0 c)
  else if cmd =? MAILBOX_CTRL_SUBSCRIBE_MAIL then
    c ← resolve_mb c;
    if (mc_mb c =? 0) || (mc_magic c =? 0) then mret (mc_set_ret E_INVAL c) else
    r ← subscribe c; mret (mc_set_ret r c)
  else if cmd =? MAILBOX_CTRL_UNSUBSCRIBE_MAIL then
    c ← resolve_mb c;
    if (mc_mb c =? 0) || (mc_magic c =? 0) then mret (mc_set_ret E_INVAL c) else
    r ← unsubscribe c; mret (mc_set_ret r c)
  else mret (mc_set_ret E_INVAL c).

(** The return value of [mailbox_exec] is [config->ret]. *)
Definition mailbox_exec (data : option mailbox_ctrl_config) : M kernel (Z * option mailbox_ctrl_config) :=
  match data with
  | None => mret (E_INVAL, None)
  | Some c => c ← mailbox_command c; mret (mc_ret c, Some c)
  end.

Definition mailbox_syscall_isr (data : option mailbox_ctrl_config)
    : M kernel (Z * option mailbox_ctrl_config) :=
  match data with
  | None => mret (E_INVAL, None)
  | Some c =>
      proc ← get_current_process;
      denied ←
        (if proc =? 0 then mret 0 else
         p ← get_pcb proc;
         if decide (p_priv p = PROC_PRIV_KERNEL) then mret 0 else
         if negb (mc_mb c =? 0) then mret E_INVAL else
         r ← cap_check proc CAP_IPC (Some 1);
         mret (if r =? 0 then 0 else E_PERM));
      if denied =? 0 then mailbox_exec (Some c)
      else mret (denied, Some (mc_set_ret denied c))
  end.

(** ** The API *)

Definition mb_run_direct : M kernel bool :=
  r3 ← arch_running_ring3;
  if r3 : bool then mret false else arch_in_gate.

Definition mailbox_call (c : mailbox_ctrl_config) : M kernel mailbox_ctrl_config :=
  d ← mb_run_direct;
  if d : bool then mailbox_command c
  else h ← gets mailbox_scall_handle; r ← arch_syscall h c; mret r.2.

Definition mailbox_alloc_mail : M kernel Z := c ← mailbox_call (mcc MAILBOX_CTRL_ALLOC_MAIL 0 0); mret (mc_m c).
Definition mailbox_release_mail (m : Z) : M kernel unit :=
  mailbox_call (mcc MAILBOX_CTRL_RELEASE_MAIL m 0);; mret tt.
Definition mailbox_alloc (owner_pid owner_tid : Z) : M kernel Z :=
  c ← mailbox_call (mk_mcc MAILBOX_CTRL_ALLOC 0 0 0 owner_pid owner_tid 0 0); mret (mc_mb c).
Definition mailbox_release (mb : Z) : M kernel unit :=
  mailbox_call (mcc MAILBOX_CTRL_RELEASE 0 mb);; mret tt.
Definition mailbox_send (m : Z) : M kernel Z :=
  c ← mailbox_call (mcc MAILBOX_CTRL_SEND m 0); mret (mc_ret c).
Definition mailbox_register_handler (mb handler : Z) : M kernel Z :=
  c ← mailbox_call (mk_mcc MAILBOX_CTRL_REGISTER_HANDLER 0 mb handler 0 0 0 0); mret (mc_ret c).
Definition mailbox_unregister_handler (mb handler : Z) : M kernel Z :=
  c ← mailbox_call (mk_mcc MAILBOX_CTRL_UNREGISTER_HANDLER 0 mb handler 0 0 0 0); mret (mc_ret c).
Definition mailbox_subscribe_mail (mb magic : Z) : M kernel Z :=
  c ← mailbox_call (mk_mcc MAILBOX_CTRL_SUBSCRIBE_MAIL 0 mb 0 0 0 magic 0); mret (mc_ret c).
Definition mailbox_unsubscribe_mail (mb magic : Z) : M kernel Z :=
  c ← mailbox_call (mk_mcc MAILBOX_CTRL_UNSUBSCRIBE_MAIL 0 mb 0 0 0 magic 0); mret (mc_ret c).

(** The loop has no bound in the code; [fuel] bounds the polls made. *)
Fixpoint mailbox_listen (fuel : nat) (mb : Z) : M kernel Z :=
  match fuel with
  | O => spin
  | S fuel =>
      c ← mailbox_call (mcc MAILBOX_CTRL_LISTEN 0 mb);
      if negb (mc_m c =? 0) then mret (mc_m c) else
      thread_yield;;
      mailbox_listen fuel mb
  end.

(** ** A mailbox nobody is inside of *)

Record box_ok k (s : nat) (mb : Z) (b : mailbox) (q : wait_queue) (l : nat) : Prop := {
  bo_gate : in_gate k;
  bo_sched : sched_ok k s;
  bo_obj : mailboxes k !! mb = Some b;
  bo_nonzero : mb ≠ 0;
  bo_lock : mb_lock b = Some l;
  bo_queue : queue_ok k s (mb_waiters mb) q l;
}.

(** [x] is the bookkeeping of the live mail [m]. *)
Record meta_of k (m x : Z) (c : mailmeta) : Prop := {
  mo_mail : m ≠ 0;
  mo_nonzero : x ≠ 0;
  mo_inflight : x ∈ inflight_mails k;
  mo_meta : mailmetas k !! x = Some c;
  mo_payload : mm_payload c = m;
  mo_live : ∀ y, y ∈ inflight_mails k → is_Some (mailmetas k !! y);
  mo_only : ∀ y d, y ∈ inflight_mails k → mailmetas k !! y = Some d → mm_payload d = m → y = x;
}.

Lemma find_meta_run k m x c l :
  (∀ y, y ∈ l → is_Some (mailmetas k !! y)) → x ∈ l → mailmetas k !! x = Some c → mm_payload c = m →
  (∀ y d, y ∈ l → mailmetas k !! y = Some d → mm_payload d = m → y = x) →
  find_meta m l k = Ret x k.
Proof.
  induction l as [|y l IH]; intros Hl Hin Hc Hp Ho; [by apply elem_of_nil in Hin|]. cbn [find_meta].
  destruct (Hl y ltac:(left)) as [d Hd]. rewrite (bind_Ret _ _ _ d k) by (by apply deref_Some).
  destruct (Z.eqb_spec (mm_payload d) m) as [E|Hne].
  - by rewrite (Ho y d ltac:(left) Hd E).
  - apply elem_of_cons in Hin as [->|Hin]; [congruence|].
    apply IH; [|done..|]; intros z; [intros Hz; apply Hl; by right|].
    intros e Hz. apply Ho. by right.
Qed.

Lemma get_mailmeta_run k m x c : meta_of k m x c → get_mailmeta m k = Ret x k.
Proof.
  intros [H1 H2 H3 H4 H5 H6 H7]. unfold get_mailmeta. rewrite (proj2 (Z.eqb_neq _ _) H1).
  rewrite (bind_Ret _ _ _ (inflight_mails k) k) by done. by apply (find_meta_run k m x c).
Qed.

Lemma meta_of_frame k k' m x c :
  mailmetas k' = mailmetas k → inflight_mails k' = inflight_mails k →
  meta_of k m x c → meta_of k' m x c.
Proof. intros E1 E2 []. split; rewrite ?E1, ?E2; done. Qed.

Lemma set_mailboxes_same k : set_mailboxes (mailboxes k) k = k.
Proof. by destruct k. Qed.

Definition on_box (mb : Z) (f : mailbox → mailbox) k : kernel :=
  set_mailboxes (alter f mb (mailboxes k)) k.

Lemma upd_mailbox_run mb f k b : mailboxes k !! mb = Some b → upd_mailbox mb f k = Ret tt (on_box mb f k).
Proof.
  intros H. unfold upd_mailbox. rewrite (bind_Ret _ _ _ b k) by (by apply deref_Some).
  unfold modify, on_box. do 2 f_equal. apply map_eq. intros i.
  destruct (decide (i = mb)) as [->|]; [by rewrite lookup_alter_eq, lookup_insert_eq, H|].
  by rewrite lookup_alter_ne, lookup_insert_ne.
Qed.

(** The queue of mails changes; the rest stays. *)
Definition with_mails (mb : Z) (l : list Z) k : kernel := on_box mb (mb_set_mails l) k.

Lemma on_box_mails k mb b (f : list Z → list Z) :
  mailboxes k !! mb = Some b →
  on_box mb (λ b, mb_set_mails (f (mb_mails b)) b) k = with_mails mb (f (mb_mails b)) k.
Proof.
  intros Hb. unfold with_mails, on_box. f_equal. apply map_eq. intros i.
  destruct (decide (i = mb)) as [->|]; [by rewrite !lookup_alter_eq, Hb|]. by rewrite !lookup_alter_ne.
Qed.

Lemma box_ok_with_mails k s mb b q l ms :
  box_ok k s mb b q l → box_ok (with_mails mb ms k) s mb (mb_set_mails ms b) q l.
Proof.
  intros [H1 [] H3 H4 H5 []]. split; try done. simpl. by rewrite lookup_alter_eq, H3.
Qed.

Definition unqueued k (x : Z) : Prop := ∀ mb b, mailboxes k !! mb = Some b → x ∉ mb_mails b.

Lemma meta_queued_false k x : unqueued k x → meta_queued k x = false.
Proof.
  intros Hu. unfold meta_queued. apply not_true_is_false. intros H%existsb_exists.
  destruct H as ([mb b] & Hin%list_elem_of_In & Hx). apply elem_of_map_to_list in Hin.
  apply bool_decide_eq_true in Hx. exact (Hu mb b Hin Hx).
Qed.

(** *** Sending to a mailbox without handlers *)

Lemma send_mail_run k s mb b q l m x c :
  box_ok k s mb b q l → mb_handlers b = [] → meta_of k m x c → unqueued k x →
  send_mail mb m k = Ret 0 (woken_one (mb_waiters mb) q (with_mails mb (x :: mb_mails b) k)).
Proof.
  intros Hb Hh Hm Hu. unfold send_mail. pose proof (bo_queue _ _ _ _ _ _ Hb) as Hq.
  rewrite (proj2 (Z.eqb_neq mb 0) (bo_nonzero _ _ _ _ _ _ Hb)).
  rewrite (proj2 (Z.eqb_neq m 0) (mo_mail _ _ _ _ Hm)). cbn [orb].
  pose proof (bo_obj _ _ _ _ _ _ Hb) as Hobj.
  rewrite (bind_Ret _ _ _ b k) by (by apply deref_Some). rewrite (bo_lock _ _ _ _ _ _ Hb).
  rewrite (bind_Ret _ _ _ Queued (with_mails mb (x :: mb_mails b) k)).
  - destruct (box_ok_with_mails _ _ _ _ _ _ (x :: mb_mails b) Hb) as [Hg Hok _ _ _ Hq'].
    by rewrite (bind_Ret _ _ _ _ _ (wake_one_run _ s _ q l Hg Hok Hq')).
  - etrans; [eapply (irq_section_run l k) with
      (k1 := hold_irq l (with_mails mb (x :: mb_mails b) k)); [apply Hq| |done]|].
    + rewrite (bind_Ret _ _ _ b (hold_irq l k)), Hh by (by apply deref_Some).
      rewrite (bind_Ret _ _ _ _ _ (get_mailmeta_run (hold_irq l k) m x c
        (meta_of_frame k (hold_irq l k) m x c eq_refl eq_refl Hm))).
      rewrite (proj2 (Z.eqb_neq x 0) (mo_nonzero _ _ _ _ Hm)). unfold enqueue_mail.
      erewrite bind_Ret; [reflexivity|].
      rewrite (bind_Ret _ _ _ false (hold_irq l k)) by
        (unfold gets; by rewrite (meta_queued_false (hold_irq l k) x Hu)).
      rewrite (upd_mailbox_run mb _ (hold_irq l k) b Hobj).
      by rewrite (on_box_mails (hold_irq l k) mb b (x ::.) Hobj).
    + unfold hold_irq. rewrite set_mach_mach. by rewrite set_mach_id.
Qed.

Lemma woken_one_frame wq q k :
  mailboxes (woken_one wq q k) = mailboxes k ∧ mailmetas (woken_one wq q k) = mailmetas k ∧
  inflight_mails (woken_one wq q k) = inflight_mails k ∧ k_mach (woken_one wq q k) = k_mach k ∧
  irq_reenter_cnt (woken_one wq q k) = irq_reenter_cnt k.
Proof. unfold woken_one. by destruct (wq_waiters q). Qed.

Lemma box_ok_sent k s mb b q l ms :
  box_ok k s mb b q l →
  box_ok (woken_one (mb_waiters mb) q (with_mails mb ms k)) s mb (mb_set_mails ms b)
    (wq_set_waiters (tail (wq_waiters q)) q) l.
Proof.
  intros [Hg Hok Ho Hn Hl Hq]%(box_ok_with_mails _ _ _ _ _ _ ms).
  destruct (woken_one_frame (mb_waiters mb) q (with_mails mb ms k)) as (E1 & _ & _ & E2 & E3).
  split; [|by apply sched_ok_woken_one|by rewrite E1|done|done|by apply queue_ok_woken_one].
  unfold in_gate. by rewrite E2, E3.
Qed.

Lemma unqueued_sent k mb b ms wq q y :
  mailboxes k !! mb = Some b → y ∉ ms → unqueued k y → unqueued (woken_one wq q (with_mails mb ms k)) y.
Proof.
  intros Hb Hy Hu mb' b'. rewrite (proj1 (woken_one_frame _ _ _)). simpl.
  destruct (decide (mb' = mb)) as [->|]; [|rewrite lookup_alter_ne by done; apply Hu].
  rewrite lookup_alter_eq, Hb. intros [= <-]. done.
Qed.

(** *** Receiving *)

Lemma try_get_mail_run k s mb b q l ms x c :
  box_ok k s mb b q l → mb_mails b = ms ++ [x] → NoDup (mb_mails b) → x ≠ 0 →
  mailmetas k !! x = Some c →
  try_get_mail mb k = Ret (mm_payload c) (with_mails mb ms k).
Proof.
  intros Hb Hms Hnd Hx Hc. unfold try_get_mail. pose proof (bo_queue _ _ _ _ _ _ Hb) as Hq.
  rewrite (proj2 (Z.eqb_neq mb 0) (bo_nonzero _ _ _ _ _ _ Hb)).
  pose proof (bo_obj _ _ _ _ _ _ Hb) as Hobj.
  rewrite (bind_Ret _ _ _ b k) by (by apply deref_Some). rewrite (bo_lock _ _ _ _ _ _ Hb).
  rewrite (bind_Ret _ _ _ x (with_mails mb ms k)).
  - rewrite (proj2 (Z.eqb_neq x 0) Hx). by rewrite (bind_Ret _ _ _ c (with_mails mb ms k)) by (by apply deref_Some).
  - etrans; [eapply (irq_section_run l k) with (k1 := hold_irq l (with_mails mb ms k)); [apply Hq| |done]|].
    + rewrite (bind_Ret _ _ _ b (hold_irq l k)) by (by apply deref_Some).
      rewrite Hms, last_snoc. erewrite bind_Ret; [reflexivity|].
      rewrite (upd_mailbox_run mb _ (hold_irq l k) b Hobj).
      rewrite (on_box_mails (hold_irq l k) mb b (remove x) Hobj), Hms. unfold remove.
      rewrite Hms in Hnd. rewrite (remove_split ms [] x Hnd), app_nil_r. done.
    + unfold hold_irq. rewrite set_mach_mach. by rewrite set_mach_id.
Qed.

(** A sequence of sends, and a sequence of receives. *)
Fixpoint send_all (mb : Z) (ms : list Z) : M kernel unit :=
  match ms with [] => mret tt | m :: ms => send_mail mb m;; send_all mb ms end.
Fixpoint recv_all (mb : Z) (n : nat) : M kernel (list Z) :=
  match n with
  | O => mret []
  | S n => m ← try_get_mail mb; ms ← recv_all mb n; mret (m :: ms)
  end.

Lemma send_all_run s mb l ms : ∀ k b q xs,
  box_ok k s mb b q l → mb_handlers b = [] →
  Forall2 (λ m x, ∃ c, meta_of k m x c) ms xs → NoDup xs → (∀ x, x ∈ xs → unqueued k x) →
  ∃ k' b' q', send_all mb ms k = Ret tt k' ∧ box_ok k' s mb b' q' l ∧
    mb_mails b' = rev xs ++ mb_mails b ∧ mailmetas k' = mailmetas k ∧
    inflight_mails k' = inflight_mails k.
Proof.
  induction ms as [|m ms IH]; intros k b q xs Hb Hh Hf Hnd Hu.
  - apply Forall2_nil_inv_l in Hf as ->. by exists k, b, q.
  - apply Forall2_cons_inv_l in Hf as (x & xs' & (c & Hm) & Hf & ->).
    apply NoDup_cons in Hnd as [Hx Hnd]. cbn [send_all].
    rewrite (bind_Ret _ _ _ _ _ (send_mail_run k s mb b q l m x c Hb Hh Hm (Hu x ltac:(left)))).
    set (k1 := woken_one (mb_waiters mb) q (with_mails mb (x :: mb_mails b) k)).
    destruct (woken_one_frame (mb_waiters mb) q (with_mails mb (x :: mb_mails b) k))
      as (_ & E1 & E2 & _). fold k1 in E1, E2.
    destruct (IH k1 _ _ xs' (box_ok_sent k s mb b q l (x :: mb_mails b) Hb)) as (k' & b' & q' & H1 & H2 & H3 & H4 & H5).
    + done.
    + eapply Forall2_impl; [exact Hf|]. intros m' x' (c' & Hm'). exists c'. by apply (meta_of_frame k).
    + done.
    + intros y Hy. apply (unqueued_sent k mb b); [apply Hb| |apply Hu; by right].
      apply not_elem_of_cons. split; [by intros ->|]. apply (Hu y ltac:(by right) mb), Hb.
    + exists k', b', q'. split_and!; [done..| |by rewrite H4|by rewrite H5].
      rewrite H3. simpl. by rewrite <- app_assoc.
Qed.

Lemma recv_all_run s mb l xs : ∀ k b q,
  box_ok k s mb b q l → mb_mails b = rev xs → NoDup xs →
  (∀ x, x ∈ xs → x ≠ 0 ∧ is_Some (mailmetas k !! x)) →
  ∃ k', recv_all mb (length xs) k
        = Ret (map (λ x, default 0 (mm_payload <$> mailmetas k !! x)) xs) k' ∧
    mailboxes k' !! mb = Some (mb_set_mails [] b).
Proof.
  induction xs as [|x xs IH]; intros k b q Hb Hms Hnd Hl.
  - exists k. split; [done|]. rewrite (bo_obj _ _ _ _ _ _ Hb). simpl in Hms. f_equal.
    destruct b; simpl in *. by rewrite Hms.
  - cbn [recv_all length map]. destruct (Hl x ltac:(left)) as [Hx [c Hc]].
    simpl in Hms. rewrite (bind_Ret _ _ _ _ _ (try_get_mail_run k s mb b q l (rev xs) x c Hb Hms
      ltac:(rewrite Hms; by apply (NoDup_reverse_rev (x :: xs))) Hx Hc)).
    apply NoDup_cons in Hnd as [_ Hnd].
    destruct (IH _ _ _ (box_ok_with_mails _ _ _ _ _ _ (rev xs) Hb) eq_refl Hnd) as (k' & H1 & H2).
    { intros y Hy. apply Hl. by right. }
    exists k'. split; [|exact H2]. rewrite (bind_Ret _ _ _ _ _ H1). by rewrite Hc.
Qed.

(** C22: a mailbox is first in, first out.  Sending tracked, distinct mails to an
    empty mailbox without handlers returns, and receiving as many returns
    them in the order they were sent and leaves the mailbox empty. *)
Theorem mailbox_fifo k s mb b q l ms xs :
  box_ok k s mb b q l → mb_handlers b = [] → mb_mails b = [] →
  Forall2 (λ m x, ∃ c, meta_of k m x c) ms xs → NoDup xs → (∀ x, x ∈ xs → unqueued k x) →
  ∃ k', (send_all mb ms;; recv_all mb (length ms)) k = Ret ms k' ∧
    ∃ b', mailboxes k' !! mb = Some b' ∧ mb_mails b' = [].
Proof.
  intros Hb Hh Hms Hf Hnd Hu.
  destruct (send_all_run s mb l ms k b q xs Hb Hh Hf Hnd Hu) as (k1 & b1 & q1 & H1 & H2 & H3 & H4 & H5).
  rewrite Hms, app_nil_r in H3.
  destruct (recv_all_run s mb l xs k1 b1 q1 H2 H3 Hnd) as (k' & H6 & H7).
  { intros x Hx. apply list_elem_of_lookup in Hx as [i Hi].
    destruct (Forall2_lookup_r _ _ _ _ _ Hf Hi) as (m & _ & c & Hm).
    split; [apply Hm|]. rewrite H4, (mo_meta _ _ _ _ Hm). by eexists. }
  exists k'. split; [|by eexists].
  rewrite (bind_Ret _ _ _ _ _ H1), (Forall2_length _ _ _ Hf), H6. f_equal.
  clear -Hf H4. rewrite H4. induction Hf as [|m x ms xs (c & Hm) _ IH]; [done|]. simpl.
  by rewrite IH, (mo_meta _ _ _ _ Hm), <- (mo_payload _ _ _ _ Hm).
Qed.

(** ** Reference counts *)

Lemma upd_meta_run x f k c :
  mailmetas k !! x = Some c → upd_meta x f k = Ret tt (set_mailmetas (<[x := f c]> (mailmetas k)) k).
Proof. intros H. unfold upd_meta. by rewrite (bind_Ret _ _ _ c k) by (by apply deref_Some). Qed.

Lemma drop_ref_run k x c j :
  mailmetas k !! x = Some c → (k_mach k).2 !! j = Some LOCK_UNLOCKED → 0 < mm_ref c <= 2147483647 →
  irq_section (Some j) (
    upd_meta x (λ c, meta_set_ref (i32 (mm_ref c - 1)) c);;
    c ← get_meta x;
    mret (0 <? mm_ref c)) k
  = Ret (1 <? mm_ref c) (set_mailmetas (<[x := meta_set_ref (mm_ref c - 1) c]> (mailmetas k)) k).
Proof.
  intros Hc Hj Hr.
  set (k1 := set_mailmetas (<[x := meta_set_ref (mm_ref c - 1) c]> (mailmetas k)) k).
  etrans; [eapply (irq_section_run j k) with (k1 := hold_irq j k1) (b := 1 <? mm_ref c); [done| |done]|].
  - rewrite (bind_Ret _ _ _ tt (hold_irq j k1)).
    2: { rewrite (upd_meta_run x _ (hold_irq j k) c Hc), i32_small by lia. reflexivity. }
    rewrite (bind_Ret _ _ _ (meta_set_ref (mm_ref c - 1) c) (hold_irq j k1)).
    2: { apply deref_Some. simpl. apply lookup_insert_eq. }
    unfold mret, M_ret. f_equal. simpl. repeat zcase; lia || done.
  - unfold hold_irq. rewrite set_mach_mach. by rewrite set_mach_id.
Qed.

(** releasing a mail drops one reference.  While references remain nothing
    else changes; the last release takes the mail out of the list of mails in
    flight, gives both its parts back to their heaps and its lock back to the
    pool. *)
Theorem release_mail_counts k m x c j L Lu :
  meta_of k m x c → mm_lock c = Some j → (k_mach k).2 !! j = Some LOCK_UNLOCKED →
  0 < mm_ref c <= 2147483647 → owns (k_heap k) L → x ∈ L → owns (k_uheap k) Lu → m ∈ Lu →
  if 1 <? mm_ref c then
    release_mail m k = Ret tt (set_mailmetas (<[x := meta_set_ref (mm_ref c - 1) c]> (mailmetas k)) k)
  else ∃ k', release_mail m k = Ret tt k' ∧
    mailmetas k' = delete x (mailmetas k) ∧ mails k' = delete m (mails k) ∧
    inflight_mails k' = remove x (inflight_mails k) ∧
    (k_mach k').2 = <[j := LOCK_INVALID]> (k_mach k).2 ∧
    owns (k_heap k') (L ∖ {[x]}) ∧ owns (k_uheap k') (Lu ∖ {[m]}) ∧
    mailboxes k' = mailboxes k ∧ tcbs k' = tcbs k.
Proof.
  intros Hm Hl Hj Hr Ho Hx Hou Hmu.
  set (k1 := set_mailmetas (<[x := meta_set_ref (mm_ref c - 1) c]> (mailmetas k)) k).
  assert (release_mail m k = (λ r : outcome kernel unit, r)
    ((if 1 <? mm_ref c then mret tt else
      zoom (spinlock_release (mm_lock c));;
      modify (λ k, set_inflight_mails (remove x (inflight_mails k)) k);;
      modify (λ k, set_mailmetas (delete x (mailmetas k)) k);;
      kzoom (kfree x);;
      modify (λ k, set_mails (delete m (mails k)) k);;
      uzoom (kfree m)) k1)) as ->.
  { unfold release_mail. rewrite (proj2 (Z.eqb_neq m 0) (mo_mail _ _ _ _ Hm)).
    rewrite (bind_Ret _ _ _ _ _ (get_mailmeta_run _ _ _ _ Hm)).
    rewrite (proj2 (Z.eqb_neq x 0) (mo_nonzero _ _ _ _ Hm)).
    rewrite (bind_Ret _ _ _ c k) by (by apply deref_Some; apply Hm). rewrite Hl.
    by rewrite (bind_Ret _ _ _ _ _ (drop_ref_run k x c j (mo_meta _ _ _ _ Hm) Hj Hr)). }
  destruct (1 <? mm_ref c); [done|]. rewrite Hl.
  set (k2 := set_k_mach ((k_mach k).1, <[j := LOCK_INVALID]> (k_mach k).2) k1).
  rewrite (bind_Ret _ _ _ tt k2) by done.
  set (k3 := set_mailmetas (delete x (mailmetas k)) (set_inflight_mails (remove x (inflight_mails k)) k2)).
  rewrite (bind_Ret _ _ _ tt (set_inflight_mails (remove x (inflight_mails k)) k2)) by done.
  rewrite (bind_Ret _ _ _ tt k3).
  2: { unfold modify. f_equal. unfold k3. f_equal. exact (delete_insert_eq (mailmetas k) x _). }
  destruct (kfree_ok (k_heap k) L x Ho Hx) as (h & Hh & Ho').
  destruct (kfree_ok (k_uheap k) Lu m Hou Hmu) as (u & Hu & Hou').
  rewrite (bind_Ret _ _ _ tt (set_k_heap h k3)) by (by apply (zoom_Ret (Contains0 := kernel_heap))).
  rewrite (bind_Ret _ _ _ tt (set_mails (delete m (mails k)) (set_k_heap h k3))) by done.
  exists (set_k_uheap u (set_mails (delete m (mails k)) (set_k_heap h k3))).
  split; [by apply (zoom_Ret (Contains0 := kernel_uheap))|done].
Qed.

(** ** Blocking reception *)

Lemma listen_block_run k s mb b q l c :
  box_ok k s mb b q l → tcbs k !! thread_run k = Some c → t_waiting_on c = 0 →
  listen_block mb k
  = Ret tt (match mb_mails b with
            | [] => blocked (t_tid c) (enqueue (thread_run k) (mb_waiters mb) k)
            | _ => k
            end).
Proof.
  intros [Hg Hok Hobj Hn Hl Hq] Hc Hw. unfold listen_block.
  rewrite (bind_Ret _ _ _ b k), Hl by (by apply deref_Some).
  etrans; [eapply (irq_section_run l k) with (k1 := match mb_mails b with
      | [] => set_k_mach (irq_locked l (k_mach k))
               (blocked (t_tid c) (enqueue (thread_run k) (mb_waiters mb) k))
      | _ => hold_irq l k end); [apply Hq| |by destruct (mb_mails b)]|].
  - rewrite (bind_Ret _ _ _ b (hold_irq l k)) by (by apply deref_Some).
    destruct (mb_mails b); [|done].
    rewrite (sleep_locked_run k s (mb_waiters mb) q l c Hg Hok Hq Hc). by rewrite Hw.
  - f_equal. destruct (mb_mails b); [|unfold hold_irq; rewrite set_mach_mach; by apply set_mach_id].
    rewrite set_mach_mach. apply set_mach_id. by rewrite (sw_mach _ _ (same_waits_blocked _ _)).
Qed.

Lemma box_ok_same k k' s mb b q l :
  same_waits k k' → sched_ok k' s → box_ok k s mb b q l → box_ok k' s mb b q l.
Proof.
  intros Hs Hok' [[Hg1 Hg2] Hok Hobj Hn Hl Hq]. split; [|done|by rewrite (sw_mailboxes _ _ Hs)|done|done|
    by eapply queue_ok_same]. split; [by rewrite (sw_mach _ _ Hs)|by rewrite (sw_reenter _ _ Hs)].
Qed.


(** ** The gate of the service *)

(** a user process reaches the mailbox service only with a CAP_IPC grant
    and only for its own mailbox: a mailbox pointer in the request is refused
    with E_INVAL, a missing grant with E_PERM, both before any object is
    touched; otherwise the request is executed. *)
Theorem mailbox_isr_guards k x p y l c :
  thread_run k ≠ 0 → tcbs k !! thread_run k = Some x → t_parent x = p →
  cap_holder k p y l → p_priv y = PROC_PRIV_USER → caps_u32 (p_caps y) →
  (mc_mb c ≠ 0 →
     mailbox_syscall_isr (Some c) k = Ret (E_INVAL, Some (mc_set_ret E_INVAL c)) k) ∧
  (mc_mb c = 0 → (∃ v, held CAP_IPC v (p_caps y) ∧ v ≠ 0) →
     mailbox_syscall_isr (Some c) k = mailbox_exec (Some c) k) ∧
  (mc_mb c = 0 → ¬ (∃ v, held CAP_IPC v (p_caps y) ∧ v ≠ 0) →
     mailbox_syscall_isr (Some c) k = Ret (E_PERM, Some (mc_set_ret E_PERM c)) k).
Proof.
  intros Hr Hx Hpar Hh Hp Hu.
  assert (get_current_process k = Ret p k) as Hcur.
  { unfold get_current_process. rewrite (bind_Ret _ _ _ (thread_run k) k) by done.
    rewrite (proj2 (Z.eqb_neq _ _) Hr), (bind_Ret _ _ _ x k) by (by apply deref_Some).
    by rewrite Hpar. }
  destruct (cap_check_answer k p y l CAP_IPC 1 Hh Hu I) as (r & Hck & _ & Hcov). cbn [covers] in Hcov.
  unfold mailbox_syscall_isr. rewrite (bind_Ret _ _ _ _ _ Hcur).
  rewrite (proj2 (Z.eqb_neq _ _) (ch_nz _ _ _ _ Hh)).
  split_and!.
  - intros Hmb. rewrite (bind_Ret _ _ _ E_INVAL k); [done|].
    rewrite (bind_Ret _ _ _ y k), decide_False by (congruence || apply deref_Some, Hh).
    by rewrite (proj2 (Z.eqb_neq _ _) Hmb).
  - intros Hmb Hv. apply Hcov in Hv. subst r. rewrite (bind_Ret _ _ _ 0 k); [done|].
    rewrite (bind_Ret _ _ _ y k), decide_False by (congruence || apply deref_Some, Hh).
    rewrite (proj2 (Z.eqb_eq _ _) Hmb). cbn [negb]. by rewrite (bind_Ret _ _ _ _ _ Hck).
  - intros Hmb Hv. rewrite <- Hcov in Hv.
    rewrite (bind_Ret _ _ _ E_PERM k); [done|].
    rewrite (bind_Ret _ _ _ y k), decide_False by (congruence || apply deref_Some, Hh).
    rewrite (proj2 (Z.eqb_eq _ _) Hmb). cbn [negb]. rewrite (bind_Ret _ _ _ _ _ Hck).
    by rewrite (proj2 (Z.eqb_neq _ _) Hv).
Qed.
End mailbox.

(** ** Witnesses: a mailbox, its empty wait queue and two mails in flight *)

Definition box_demo_box (lock : nat) : mailbox := mk_mailbox 1 1 (replicate 16 0) (Some lock) [] [].

Definition with_box {A U W} (k : kernel A U W) : kernel A U W :=
  set_irq_reenter_cnt 0 (set_mailboxes {[600 := box_demo_box 8]}
   (set_wqs {[692 := mk_wq [] (Some 8%nat)]} (set_inflight_mails [720; 700]
     (set_mailmetas {[700 := mk_meta 0 1 800 (Some 9%nat); 720 := mk_meta 1 2 820 (Some 9%nat)]}
       (set_k_mach (mk_cpu 512 false, replicate 10 LOCK_UNLOCKED) k))))).

Lemma with_box_meta {A U W} (k : kernel A U W) y d :
  mailmetas (with_box k) !! y = Some d →
  (y = 700 ∧ d = mk_meta 0 1 800 (Some 9%nat)) ∨ (y = 720 ∧ d = mk_meta 1 2 820 (Some 9%nat)).
Proof. simpl. rewrite lookup_insert_Some, lookup_singleton_Some. naive_solver. Qed.

Lemma with_box_live {A U W} (k : kernel A U W) y :
  y ∈ inflight_mails (with_box k) → is_Some (mailmetas (with_box k) !! y).
Proof. simpl. rewrite !elem_of_cons, elem_of_nil. intros [->|[->|[]]]; by eexists. Qed.

Lemma with_box_meta_of {A U W} (k : kernel A U W) m x c :
  (m, x, c) = (800, 700, mk_meta 0 1 800 (Some 9%nat)) ∨
  (m, x, c) = (820, 720, mk_meta 1 2 820 (Some 9%nat)) → meta_of (with_box k) m x c.
Proof.
  intros H. split.
  - by destruct H; simplify_eq.
  - by destruct H; simplify_eq.
  - simpl. rewrite !elem_of_cons. destruct H; simplify_eq; tauto.
  - by destruct H; simplify_eq.
  - by destruct H; simplify_eq.
  - apply with_box_live.
  - intros y d _ Hd Hp. destruct (with_box_meta k y d Hd) as [[-> ->]|[-> ->]];
      destruct H; simplify_eq; done.
Qed.

Lemma with_box_ok {A U W} (k : kernel A U W) :
  (k_mach k).2 = replicate 8 LOCK_UNLOCKED → sched_ok k 0 →
  (∀ t c, tcbs k !! t = Some c → t_sp_lock c ≠ Some 8%nat) →
  box_ok (with_box k) 0 600 (box_demo_box 8) (mk_wq [] (Some 8%nat)) 8.
Proof.
  intros Hm Hok Hd. split; try done.
  - assert (sched_ok (set_k_mach (mk_cpu 512 false, replicate 10 LOCK_UNLOCKED) k) 0) as [].
    { apply sched_ok_more_locks; [|exact Hok]. intros i st Hi. rewrite Hm in Hi.
      apply lookup_replicate in Hi as [-> Hi]. apply lookup_replicate. split; [done|lia]. }
    by split.
  - split; try done; [constructor|]. intros t Ht. by apply elem_of_nil in Ht.
Qed.

Lemma with_box_unqueued {A U W} (k : kernel A U W) x : unqueued (with_box k) x.
Proof. intros mb b. simpl. intros [<- <-]%lookup_singleton_Some. apply not_elem_of_nil. Qed.

Definition box_demo : kernel heap heap Z := with_box sched_demo.

Lemma box_demo_ok : box_ok box_demo 0 600 (box_demo_box 8) (mk_wq [] (Some 8%nat)) 8.
Proof.
  apply (with_box_ok sched_demo eq_refl sched_demo_ok). intros t c Hc.
  destruct (sched_demo_tcb t c Hc) as [[_ ->]|[[_ ->]|[_ ->]]]; discriminate.
Qed.

Definition no_handler {K} : Z → Z → M K unit := λ _ _, mret tt.

Lemma mailbox_fifo_witness :
  ∃ k', (send_all no_handler 600 [800; 820];; recv_all 600 2) box_demo = Ret [800; 820] k'.
Proof.
  destruct (mailbox_fifo no_handler box_demo 0 600 (box_demo_box 8) (mk_wq [] (Some 8%nat)) 8
    [800; 820] [700; 720] box_demo_ok eq_refl eq_refl) as (k' & H & _).
  - constructor; [|constructor; [|constructor]]; eexists; apply with_box_meta_of; [left|right]; reflexivity.
  - apply NoDup_cons. split; [|apply NoDup_singleton]. rewrite list_elem_of_singleton. lia.
  - intros x _. apply with_box_unqueued.
  - exists k'. exact H.
Defined.


Definition heaps_demo : kernel (gset Z) (gset Z) Z :=
  with_box (boot_kernel (mk_cpu 512 false, []) {[700; 720]} {[800; 820]} 0).

Lemma release_mail_counts_witness :
  ∃ k', release_mail 800 heaps_demo = Ret tt k' ∧ inflight_mails k' = [720].
Proof.
  assert (0 ∉ ({[700; 720]} : gset Z) ∧ 0 ∉ ({[800; 820]} : gset Z)) as [H1 H2] by set_solver.
  destruct (release_mail_counts heaps_demo 800 700 (mk_meta 0 1 800 (Some 9%nat)) 9
    {[700; 720]} {[800; 820]} (with_box_meta_of _ _ _ _ (or_introl eq_refl)) eq_refl eq_refl)
    as (k' & H & _ & _ & Hi & _); [split; vm_compute; done|by split|set_solver|by split|set_solver|].
  exists k'. split; [exact H|exact Hi].
Defined.

Lemma mailbox_isr_guards_witness :
  mailbox_syscall_isr no_handler (Some (mcc MAILBOX_CTRL_LISTEN 0 4096))
    (set_thread_run 20 sched_demo)
  = Ret (E_INVAL, Some (mc_set_ret E_INVAL (mcc MAILBOX_CTRL_LISTEN 0 4096)))
      (set_thread_run 20 sched_demo).
Proof.
  apply (mailbox_isr_guards no_handler (set_thread_run 20 sched_demo) (demo_tcb 2 2 2 TS_READY) 2
    (mk_pcb 2 PS_READY PROC_PRIV_USER [30; 20] 0 (Some 6%nat) [] (Some 7%nat)) 7
    (mcc MAILBOX_CTRL_LISTEN 0 4096)); try (reflexivity || discriminate).
  - split; [discriminate|reflexivity|reflexivity|reflexivity].
  - intros ty v (x & Hx). apply elem_of_nil in Hx. destruct Hx.
Defined.
