(* ===== verification/Irq.v ===== *)
(** * Interrupt lines (kernel/irq.c; the 8259A masks of arch/i386/irq.c)

    A line (major) carries the interrupts registered on it, told apart by
    their minor numbers; the line is unmasked in the interrupt controller
    while one of them is enabled.  A user interrupt is delivered as a mail to
    the thread that registered it, a kernel interrupt by calling its handler:
    the function [run_irq_handler]. *)

From stdpp Require Import base tactics list gmap.
From Stdlib Require Import ZArith Lia.
From S2P Require Import Prelude Spinlock Allocator Heap KState Capability Sched ThreadApi.
From S2P Require Import WaitQueue Semaphore Mailbox.

Open Scope Z_scope.

Definition IDT_ENTRIES : Z := 256.
Definition ARCH_IRQ_BEGIN : Z := 32.
Definition RL_TIMER_IRQ_NO : Z := 40.
Definition ARCH_IRQ_END : Z := 53.    (* 0x35 *)
Definition INT_VECTOR_IRQ0 : Z := 32.
Definition INT_VECTOR_IRQ8 : Z := 40.
Definition IRQ_ANY_MINOR : Z := 4294967295.
Definition MAIL_MAGIC_IRQ : Z := 1717986918.  (* 0x66666666 *)

Definition sizeof_irq : Z := 56.
Definition sizeof_irqline : Z := 20.

(** ** The parameter block of SYSCALL_IRQ *)

Definition IRQ_SYSCALL_REQUEST : Z := 0.
Definition IRQ_SYSCALL_RELEASE : Z := 1.
Definition IRQ_SYSCALL_MASK : Z := 2.
Definition IRQ_SYSCALL_UNMASK : Z := 3.

Record irq_ctrl_config := mk_icc {
  ic_cmd : Z; ic_handle : Z; ic_name : Z; ic_major : Z; ic_minor : Z; ic_handler : Z; ic_param : Z;
  ic_is_user : bool; ic_tid : Z; ic_ret : Z }.

Definition icc (cmd handle : Z) : irq_ctrl_config := mk_icc cmd handle 0 0 0 0 0 false 0 0.
Definition ic_set_ret (r : Z) (c : irq_ctrl_config) : irq_ctrl_config :=
  mk_icc (ic_cmd c) (ic_handle c) (ic_name c) (ic_major c) (ic_minor c) (ic_handler c) (ic_param c)
    (ic_is_user c) (ic_tid c) r.
Definition ic_set_handle (h : Z) (c : irq_ctrl_config) : irq_ctrl_config :=
  mk_icc (ic_cmd c) h (ic_name c) (ic_major c) (ic_minor c) (ic_handler c) (ic_param c)
    (ic_is_user c) (ic_tid c) (ic_ret c).
Definition ic_set_user (u : bool) (tid : Z) (c : irq_ctrl_config) : irq_ctrl_config :=
  mk_icc (ic_cmd c) (ic_handle c) (ic_name c) (ic_major c) (ic_minor c) (ic_handler c) (ic_param c)
    u tid (ic_ret c).

Definition irq_set_enabled (e : bool) (p : irq) : irq :=
  mk_irq (i_name p) (i_context p) (i_major p) (i_minor p) e (i_is_user p) (i_tid p) (i_owner p)
    (i_lock p) (i_handler p).
Definition irq_set_owner (t : Z) (p : irq) : irq :=
  mk_irq (i_name p) (i_context p) (i_major p) (i_minor p) (i_enabled p) (i_is_user p) (i_tid p) t
    (i_lock p) (i_handler p).
Definition line_set_irqs (l : list Z) (c : irqline) : irqline :=
  mk_irqline (l_major c) (l_enabled c) (l_lock c) l.

Section irq.
Context {A U W : Type} `{!AddressSpace W, !Allocator A, !Allocator U}.
Notation kernel := (kernel A U W).
Context `{!Gate kernel proc_thread_ctrl_config, !Gate kernel irq_ctrl_config}.
Context (run_handler : Z → Z → M kernel unit) (run_irq_handler : Z → Z → M kernel unit).
Implicit Types k : kernel.

(** ** The interrupt controller's mask registers (ports 0x21 and 0xa1) *)

Definition arch_unmask_irq (irq_nr : Z) : M kernel unit :=
  if (irq_nr <? ARCH_IRQ_BEGIN) || (ARCH_IRQ_END <? irq_nr) then mret tt else
  if RL_TIMER_IRQ_NO <=? irq_nr then
    let mask := u8 (Z.lnot (u8 (Z.shiftl 1 (irq_nr - INT_VECTOR_IRQ8)))) in
    modify (λ k, set_pic_slave (Z.land (pic_slave k) mask) k)
  else
    let mask := u8 (Z.lnot (u8 (Z.shiftl 1 (irq_nr - INT_VECTOR_IRQ0)))) in
    modify (λ k, set_pic_master (Z.land (pic_master k) mask) k).

Definition arch_mask_irq (irq_nr : Z) : M kernel unit :=
  if (irq_nr <? ARCH_IRQ_BEGIN) || (ARCH_IRQ_END <? irq_nr) then mret tt else
  if RL_TIMER_IRQ_NO <=? irq_nr then
    modify (λ k, set_pic_slave (Z.lor (pic_slave k) (u8 (Z.shiftl 1 (irq_nr - INT_VECTOR_IRQ8)))) k)
  else
    modify (λ k, set_pic_master (Z.lor (pic_master k) (u8 (Z.shiftl 1 (irq_nr - INT_VECTOR_IRQ0)))) k).

(** ** Objects *)

Definition get_irq (p : Z) : M kernel irq := deref (λ k, irqs k !! p).
Definition get_line (l : Z) : M kernel irqline := deref (λ k, irqline_objs k !! l).
Definition upd_irq (p : Z) (f : irq → irq) : M kernel unit :=
  c ← get_irq p; modify (λ k, set_irqs (<[p := f c]> (irqs k)) k).
Definition upd_line (l : Z) (f : irqline → irqline) : M kernel unit :=
  c ← get_line l; modify (λ k, set_irqline_objs (<[l := f c]> (irqline_objs k)) k).
(** irqlines[major]; an index outside the array faults *)
Definition line_of (major : Z) : M kernel Z := deref (λ k, irqlines k !! Z.to_nat major).
Definition set_line (major l : Z) : M kernel unit :=
  modify (λ k, set_irqlines (<[Z.to_nat major := l]> (irqlines k)) k).

(** "spinlock_lock(l); ...; spinlock_unlock(l)" *)
Definition locked_section {B} (l : option nat) (m : M kernel B) : M kernel B :=
  zoom (spinlock_lock l);; b ← m; zoom (spinlock_unlock l);; mret b.

Definition irq_run_direct : M kernel bool :=
  r3 ← arch_running_ring3;
  if r3 : bool then mret false else
  g ← arch_in_gate;
  if g : bool then mret true else
  tid ← thread_get_tid;
  mret (tid <? 0).

(** ** Lines *)

(** The error code and what [*out] receives. *)
Definition irqline_alloc (major : Z) : M kernel (Z * Z) :=
  line ← kzoom (kmalloc sizeof_irqline);
  if line =? 0 then mret (E_NOMEM, 0) else
  l ← zoom spinlock_alloc;
  modify (λ k, set_irqline_objs (<[line := mk_irqline major false l []]> (irqline_objs k)) k);;
  mret (0, line).

Definition irqline_free (line : Z) : M kernel Z :=
  if line =? 0 then mret E_INVAL else
  c ← get_line line;
  zoom (spinlock_release (l_lock c));;
  modify (λ k, set_irqline_objs (delete line (irqline_objs k)) k);;
  kzoom (kfree line);;
  mret 0.

Fixpoint any_enabled (ps : list Z) : M kernel bool :=
  match ps with
  | [] => mret false
  | p :: ps => c ← get_irq p; if i_enabled c then mret true else any_enabled ps
  end.

Definition irqline_mask (line : Z) : M kernel Z :=
  if line =? 0 then mret E_INVAL else
  c ← get_line line;
  e ← any_enabled (l_irqs c);
  (if e : bool then mret tt else locked_section (l_lock c) (arch_mask_irq (u16 (l_major c))));;
  mret 0.

Definition irqline_unmask (line : Z) : M kernel Z :=
  if line =? 0 then mret E_INVAL else
  c ← get_line line;
  e ← any_enabled (l_irqs c);
  (if e : bool then locked_section (l_lock c) (arch_unmask_irq (u16 (l_major c))) else mret tt);;
  mret 0.

Definition irqline_add_irq (line p : Z) : M kernel Z :=
  if (line =? 0) || (p =? 0) then mret E_INVAL else
  c ← get_line line;
  locked_section (l_lock c) (upd_line line (λ c, line_set_irqs (p :: l_irqs c) c));;
  mret 0.

(** The node of an interrupt that is on no list is linked to itself, and
    deleting it changes nothing. *)
Definition irqline_remove_irq (line p : Z) : M kernel Z :=
  if (line =? 0) || (p =? 0) then mret E_INVAL else
  c ← get_line line;
  locked_section (l_lock c) (upd_line line (λ c, line_set_irqs (remove p (l_irqs c)) c));;
  mret 0.

Definition irqline_init (major : Z) : M kernel (Z * Z) :=
  if IDT_ENTRIES <=? major then mret (E_INVAL, 0) else irqline_alloc major.

(** The minors in use on a line, in list order. *)
Fixpoint minors (ps : list Z) : M kernel (list Z) :=
  match ps with
  | [] => mret []
  | p :: ps => c ← get_irq p; ms ← minors ps; mret (i_minor c :: ms)
  end.

(** The candidates are tried from 0; [fuel] bounds how many, and
    [free_minor_found] shows that one more than the number of interrupts on
    the line is enough. *)
Fixpoint free_minor (fuel : nat) (candidate : Z) (used : list Z) : Z :=
  match fuel with
  | O => IRQ_ANY_MINOR
  | S fuel =>
      if existsb (Z.eqb candidate) used then free_minor fuel (candidate + 1) used else candidate
  end.

Definition irqline_find_free_minor (line : Z) : M kernel Z :=
  c ← get_line line;
  ms ← minors (l_irqs c);
  mret (free_minor (S (length ms)) 0 ms).

(** ** Delivery *)

Definition dispatch_user_mode_irq (p : Z) : M kernel unit :=
  c ← get_irq p;
  if i_owner c =? 0 then mret tt else
  t ← get_tcb (i_owner c);
  if t_mailbox t =? 0 then mret tt else
  m ← alloc_mail;
  if m =? 0 then mret tt else
  x ← get_mail m;
  set_mail m (mk_mail MAIL_MAGIC_IRQ (m_sender x) (i_tid c) (m_data x) (m_size x));;
  send_mail run_handler (t_mailbox t) m;;
  mret tt.

Fixpoint dispatch (ps : list Z) : M kernel unit :=
  match ps with
  | [] => mret tt
  | p :: ps =>
      c ← get_irq p;
      (if negb (i_enabled c) then mret tt
       else if i_is_user c then dispatch_user_mode_irq p
       else run_irq_handler (i_handler c) (i_context c));;
      dispatch ps
  end.

Definition irqline_handler (major : Z) : M kernel unit :=
  line ← line_of major;
  if line =? 0 then mret tt else
  c ← get_line line;
  dispatch (l_irqs c).

(** ** Registration *)

(** The error code and what [*out] receives ([None]: left alone). *)
Definition irq_alloc (major minor : Z) (is_user_irq : bool) (tid name context handler : Z)
    : M kernel (Z * option Z) :=
  p ← kzoom (kmalloc sizeof_irq);
  if p =? 0 then mret (E_NOMEM, None) else
  l ← zoom spinlock_alloc;
  match l with
  | None => kzoom (kfree p);; mret (E_LIMIT, Some 0)
  | Some _ =>
      modify (λ k, set_irqs (<[p := mk_irq name context major minor false is_user_irq tid 0 l handler]>
        (irqs k)) k);;
      mret (0, Some p)
  end.

Definition irq_free (p : Z) : M kernel Z :=
  if p =? 0 then mret 0 else
  c ← get_irq p;
  zoom (spinlock_release (i_lock c));;
  modify (λ k, set_irqs (delete p (irqs k)) k);;
  kzoom (kfree p);;
  mret 0.

Definition irq_release_internal (p : Z) : M kernel unit :=
  if p =? 0 then mret tt else
  c ← get_irq p;
  if IDT_ENTRIES <=? i_major c then mret tt else
  line ← line_of (i_major c);
  (if line =? 0 then mret tt else
   irqline_remove_irq line p;; irqline_mask line;; mret tt);;
  (if i_owner c =? 0 then mret tt else
   t ← get_tcb (i_owner c);
   locked_section (t_sp_lock t) (upd_tcb (i_owner c) (λ t, tcb_irqs (remove p (t_irqs t)) t)));;
  irq_free p;;
  mret tt.

Definition irq_set_mask (e : bool) (p : Z) : M kernel Z :=
  if p =? 0 then mret E_INVAL else
  c ← get_irq p;
  if IDT_ENTRIES <=? i_major c then mret E_INVAL else
  locked_section (i_lock c) (upd_irq p (irq_set_enabled e));;
  line ← line_of (i_major c);
  (if line =? 0 then mret tt
   else (if e then irqline_unmask line else irqline_mask line);; mret tt);;
  mret 0.

Definition irq_mask_internal (p : Z) : M kernel Z := irq_set_mask false p.
Definition irq_unmask_internal (p : Z) : M kernel Z := irq_set_mask true p.

(** [irq_release] runs [irq_exec] with RELEASE, or traps. *)
Definition irq_gate (cfg : irq_ctrl_config) : M kernel irq_ctrl_config :=
  h ← gets irq_scall_handle; r ← arch_syscall h cfg; mret r.2.

Definition irq_release (p : Z) : M kernel unit :=
  if p =? 0 then mret tt else
  d ← irq_run_direct;
  if d : bool then irq_release_internal p else irq_gate (icc IRQ_SYSCALL_RELEASE p);; mret tt.

Definition irq_permitted (major : Z) : M kernel bool :=
  proc ← get_current_process;
  if proc =? 0 then mret true else
  p ← get_pcb proc;
  if decide (p_priv p = PROC_PRIV_KERNEL) then mret true else
  r ← cap_check proc CAP_OWN_IRQ (Some major);
  mret (r =? 0).

(** "if (!irqlines[major]) irqline_init(&irqlines[major], major)": was it
    there or could it be created. *)
Definition ensure_line (major : Z) : M kernel bool :=
  line ← line_of major;
  if negb (line =? 0) then mret true else
  r ← irqline_init major;
  if negb (r.1 =? 0) then mret false else
  set_line major r.2;;
  mret true.

Definition irq_request_internal (out name major minor cb cb_param : Z) (is_user_irq : bool) (tid : Z)
    : M kernel (Z * Z) :=
  if IDT_ENTRIES <=? major then mret (E_INVAL, out) else
  ok ← irq_permitted major;
  if negb ok then mret (E_PERM, out) else
  pick ←
    (if minor =? IRQ_ANY_MINOR then
       ok ← ensure_line major;
       if negb ok then mret (E_INTERNAL, 0) else
       line ← line_of major;
       m ← irqline_find_free_minor line;
       mret (if m =? IRQ_ANY_MINOR then (E_IRQ_NOTAVAIL, 0) else (0, m))
     else mret (0, minor));
  if negb (pick.1 =? 0) then mret (pick.1, out) else
  let minor := pick.2 in
  r ← irq_alloc major minor is_user_irq tid name cb_param cb;
  let out := default out r.2 in
  if negb (r.1 =? 0) || (out =? 0) then mret (r.1, out) else
  ok ← ensure_line major;
  if negb ok then irq_release out;; mret (E_INTERNAL, 0) else
  line ← line_of major;
  c ← get_line line;
  ms ← minors (l_irqs c);
  if existsb (Z.eqb minor) ms then irq_release out;; mret (E_IRQ_INUSE, 0) else
  (if is_user_irq then
     t ← thread_get_by_tid tid;
     if t =? 0 then mret tt else
     upd_irq out (irq_set_owner t);;
     upd_tcb t (λ c, tcb_irqs (out :: t_irqs c) c)
   else mret tt);;
  irqline_add_irq line out;;
  mret (0, out).

(** ** The commands *)

Definition irq_exec (c : irq_ctrl_config) : M kernel irq_ctrl_config :=
  let cmd := ic_cmd c in
  if cmd =? IRQ_SYSCALL_REQUEST then
    proc ← get_current_process;
    user ← (if proc =? 0 then mret false else
            p ← get_pcb proc; mret (bool_decide (p_priv p ≠ PROC_PRIV_KERNEL)));
    tid ← (if user : bool then thread_get_tid else mret 0);
    let c := ic_set_user user tid c in
    r ← irq_request_internal (ic_handle c) (ic_name c) (ic_major c) (ic_minor c) (ic_handler c)
          (ic_param c) user tid;
    mret (ic_set_ret r.1 (ic_set_handle r.2 c))
  else if cmd =? IRQ_SYSCALL_RELEASE then
    irq_release_internal (ic_handle c);; mret (ic_set_ret 0 c)
  else if cmd =? IRQ_SYSCALL_MASK then
    r ← irq_mask_internal (ic_handle c); mret (ic_set_ret r c)
  else if cmd =? IRQ_SYSCALL_UNMASK then
    r ← irq_unmask_internal (ic_handle c); mret (ic_set_ret r c)
  else mret (ic_set_ret (- E_INVAL) c).

Definition irq_syscall_isr (data : option irq_ctrl_config) : M kernel (Z * option irq_ctrl_config) :=
  match data with
  | None => mret (E_INVAL, None)
  | Some c =>
      ok ← (if ic_cmd c =? IRQ_SYSCALL_REQUEST then irq_permitted (ic_major c) else mret true);
      if ok : bool then c ← irq_exec c; mret (ic_ret c, Some c)
      else mret (E_PERM, Some (ic_set_ret E_PERM c))
  end.

(** ** The API *)

Definition irq_call (c : irq_ctrl_config) : M kernel irq_ctrl_config :=
  d ← irq_run_direct;
  if d : bool then irq_exec c else irq_gate c.

(** The error code and the handle stored through [out]. *)
Definition irq_request (name major minor cb cb_param : Z) : M kernel (Z * Z) :=
  c ← irq_call (mk_icc IRQ_SYSCALL_REQUEST 0 name major minor cb cb_param false 0 0);
  mret (ic_ret c, ic_handle c).
Definition irq_mask (p : Z) : M kernel Z :=
  if p =? 0 then mret E_INVAL else c ← irq_call (icc IRQ_SYSCALL_MASK p); mret (ic_ret c).
Definition irq_unmask (p : Z) : M kernel Z :=
  if p =? 0 then mret E_INVAL else c ← irq_call (icc IRQ_SYSCALL_UNMASK p); mret (ic_ret c).

(** ** The free minor *)

Lemma free_minor_spec used fuel cand :
  let m := free_minor fuel cand used in
  (m = IRQ_ANY_MINOR ∧ ∀ i, cand <= i < cand + Z.of_nat fuel → i ∈ used) ∨
  (cand <= m < cand + Z.of_nat fuel ∧ m ∉ used ∧ ∀ i, cand <= i < m → i ∈ used).
Proof.
  revert cand. induction fuel as [|fuel IH]; intros cand; cbn [free_minor].
  - left. split; [done|]. lia.
  - destruct (existsb (Z.eqb cand) used) eqn:E.
    + apply existsb_exists in E as (y & Hy%list_elem_of_In & <-%Z.eqb_eq).
      assert (∀ i P, (i = cand ∨ cand + 1 <= i < P) → (cand + 1 <= i < P → i ∈ used) → i ∈ used) as Hi
        by (intros i P [->|H]; auto).
      destruct (IH (cand + 1)) as [[Hm Hall]|(Hm & Hn & Hall)]; [left|right].
      * split; [done|]. intros i H. apply (Hi i (cand + 1 + Z.of_nat fuel)); [lia|apply Hall].
      * split_and!; [lia|lia|done|]. intros i H.
        apply (Hi i (free_minor fuel (cand + 1) used)); [lia|apply Hall].
    + right. split_and!; [lia|lia| |lia]. intros Hin.
      assert (existsb (Z.eqb cand) used = true); [|congruence]. apply existsb_exists.
      exists cand. split; [by apply list_elem_of_In|apply Z.eqb_refl].
Qed.

(** Among one more candidate than there are numbers, one is not taken. *)
Lemma free_minor_found used :
  let m := free_minor (S (length used)) 0 used in
  0 <= m <= Z.of_nat (length used) ∧ m ∉ used ∧ ∀ i, 0 <= i < m → i ∈ used.
Proof.
  destruct (free_minor_spec used (S (length used)) 0) as [[_ Hall]|(Hm & Hn & Hall)].
  - exfalso. assert (seqZ 0 (Z.of_nat (S (length used))) ⊆ used) as Hsub.
    { intros i Hi%elem_of_seqZ. apply Hall. lia. }
    pose proof (NoDup_incl_length (l := seqZ 0 (Z.of_nat (S (length used)))) (l' := used)) as Hlen.
    rewrite length_seqZ, Nat2Z.id in Hlen. apply Nat.nle_succ_diag_l with (length used). apply Hlen.
    + apply NoDup_ListNoDup, NoDup_seqZ.
    + intros i Hi. apply list_elem_of_In, Hsub, list_elem_of_In, Hi.
  - split_and!; [lia|lia|done|done].
Qed.

Lemma minors_run k ps :
  (∀ p, p ∈ ps → is_Some (irqs k !! p)) →
  minors ps k = Ret (map (λ p, default 0 (i_minor <$> irqs k !! p)) ps) k.
Proof.
  induction ps as [|p ps IH]; intros Hs; [done|]. cbn [minors map].
  destruct (Hs p ltac:(left)) as [c Hc]. rewrite (bind_Ret _ _ _ c k) by (by apply deref_Some).
  erewrite bind_Ret by (apply IH; intros q Hq; apply Hs; by right). by rewrite Hc.
Qed.

(** the search for a free minor ends within one more step than there are
    interrupts on the line and returns the least number none of them uses,
    which is never the wildcard. *)
Theorem irqline_find_free_minor_least k line c :
  irqline_objs k !! line = Some c → (∀ p, p ∈ l_irqs c → is_Some (irqs k !! p)) →
  Z.of_nat (length (l_irqs c)) < IRQ_ANY_MINOR →
  ∃ m, irqline_find_free_minor line k = Ret m k ∧ 0 <= m < IRQ_ANY_MINOR ∧
    (∀ p x, p ∈ l_irqs c → irqs k !! p = Some x → i_minor x ≠ m) ∧
    (∀ i, 0 <= i < m → ∃ p x, p ∈ l_irqs c ∧ irqs k !! p = Some x ∧ i_minor x = i).
Proof.
  intros Hc Hs Hlen. unfold irqline_find_free_minor.
  rewrite (bind_Ret _ _ _ c k) by (by apply deref_Some).
  rewrite (bind_Ret _ _ _ _ _ (minors_run k (l_irqs c) Hs)).
  set (ms := map _ _). destruct (free_minor_found ms) as (Hm & Hn & Hall).
  eexists. split; [done|]. assert (length ms = length (l_irqs c)) as El by apply length_map.
  rewrite El in Hm at 3. split_and!; [lia|lia| |].
  - intros p x Hp Hx E. apply Hn. apply list_elem_of_In, in_map_iff. exists p.
    rewrite Hx. split; [exact E|by apply list_elem_of_In].
  - intros i Hi. pose proof (Hall i Hi) as Hin.
    apply list_elem_of_In, in_map_iff in Hin as (p & E & Hp%list_elem_of_In).
    destruct (Hs p Hp) as [x Hx]. rewrite Hx in E. by exists p, x.
Qed.

(** ** The controller follows the interrupts *)

(** The mask bit of a line of the two cascaded controllers. *)
Definition pic_bit k (nr : Z) : bool :=
  if RL_TIMER_IRQ_NO <=? nr then Z.testbit (pic_slave k) (nr - INT_VECTOR_IRQ8)
  else Z.testbit (pic_master k) (nr - INT_VECTOR_IRQ0).

(** [k'] is [k] but for the controller, where line [nr] has mask bit [b]. *)
Record pic_write (nr : Z) (b : bool) k k' : Prop := {
  pw_frame : ∃ m s, k' = set_pic_master m (set_pic_slave s k);
  pw_bit : pic_bit k' nr = b;
  pw_other : ∀ n, 32 <= n < 48 → n ≠ nr → pic_bit k' n = pic_bit k n;
}.

Lemma bit_cases i : 0 <= i < 8 → i = 0 ∨ i = 1 ∨ i = 2 ∨ i = 3 ∨ i = 4 ∨ i = 5 ∨ i = 6 ∨ i = 7.
Proof. lia. Qed.

Lemma mask_bit r n i : 0 <= n < 8 → 0 <= i < 8 →
  Z.testbit (Z.lor r (u8 (Z.shiftl 1 n))) i = Z.testbit r i || (i =? n).
Proof.
  intros Hn Hi. rewrite Z.lor_spec. f_equal.
  destruct (bit_cases n Hn) as [->|[->|[->|[->|[->|[->|[->| ->]]]]]]];
  destruct (bit_cases i Hi) as [->|[->|[->|[->|[->|[->|[->| ->]]]]]]]; reflexivity.
Qed.

Lemma unmask_bit r n i : 0 <= n < 8 → 0 <= i < 8 →
  Z.testbit (Z.land r (u8 (Z.lnot (u8 (Z.shiftl 1 n))))) i = Z.testbit r i && negb (i =? n).
Proof.
  intros Hn Hi. rewrite Z.land_spec. f_equal.
  destruct (bit_cases n Hn) as [->|[->|[->|[->|[->|[->|[->| ->]]]]]]];
  destruct (bit_cases i Hi) as [->|[->|[->|[->|[->|[->|[->| ->]]]]]]]; reflexivity.
Qed.

Lemma pic_bit_master m k n : pic_bit (set_pic_master m k) n =
  if RL_TIMER_IRQ_NO <=? n then pic_bit k n else Z.testbit m (n - INT_VECTOR_IRQ0).
Proof. unfold pic_bit. by destruct (_ <=? _). Qed.
Lemma pic_bit_slave m k n : pic_bit (set_pic_slave m k) n =
  if RL_TIMER_IRQ_NO <=? n then Z.testbit m (n - INT_VECTOR_IRQ8) else pic_bit k n.
Proof. unfold pic_bit. by destruct (_ <=? _). Qed.

Lemma set_pic_slave_id k : set_pic_slave (pic_slave k) k = k.
Proof. by destruct k. Qed.
Lemma set_pic_master_id m k : set_pic_slave m k = set_pic_master (pic_master k) (set_pic_slave m k).
Proof. by destruct k. Qed.

Ltac pic_solve :=
  unfold pic_bit, RL_TIMER_IRQ_NO, INT_VECTOR_IRQ0, INT_VECTOR_IRQ8 in *; simpl; intros; repeat zcase;
  rewrite ?mask_bit, ?unmask_bit by lia; try done; try lia;
  repeat zcase; try lia; by rewrite ?orb_true_r, ?andb_false_r, ?orb_false_r, ?andb_true_r.

Lemma arch_mask_irq_run nr k : 32 <= nr < 48 → ∃ k', arch_mask_irq nr k = Ret tt k' ∧ pic_write nr true k k'.
Proof.
  intros Hnr. unfold arch_mask_irq, ARCH_IRQ_BEGIN, ARCH_IRQ_END.
  destruct (Z.ltb_spec nr 32), (Z.ltb_spec 53 nr); [lia..|]. cbn [orb].
  destruct (Z.leb_spec RL_TIMER_IRQ_NO nr) as [E|E]; unfold modify; eexists; (split; [reflexivity|]); split.
  - eexists _, _. apply set_pic_master_id.
  - pic_solve.
  - pic_solve.
  - eexists _, _. by rewrite set_pic_slave_id.
  - pic_solve.
  - pic_solve.
Qed.

Lemma arch_unmask_irq_run nr k : 32 <= nr < 48 → ∃ k', arch_unmask_irq nr k = Ret tt k' ∧ pic_write nr false k k'.
Proof.
  intros Hnr. unfold arch_unmask_irq, ARCH_IRQ_BEGIN, ARCH_IRQ_END.
  destruct (Z.ltb_spec nr 32), (Z.ltb_spec 53 nr); [lia..|]. cbn [orb].
  destruct (Z.leb_spec RL_TIMER_IRQ_NO nr) as [E|E]; unfold modify; eexists; (split; [reflexivity|]); split.
  - eexists _, _. apply set_pic_master_id.
  - pic_solve.
  - pic_solve.
  - eexists _, _. by rewrite set_pic_slave_id.
  - pic_solve.
  - pic_solve.
Qed.

Lemma locked_section_run {B} l k (m : M kernel B) b k1 :
  (k_mach k).2 !! l = Some LOCK_UNLOCKED → m (hold l k) = Ret b k1 → k_mach k1 = k_mach (hold l k) →
  locked_section (Some l) m k = Ret b (set_k_mach (k_mach k) k1).
Proof. apply kernel_with_lock. Qed.

Definition arch_set_mask (b : bool) (nr : Z) : M kernel unit :=
  if b then arch_mask_irq nr else arch_unmask_irq nr.

Lemma set_mask_locked b nr l k :
  32 <= nr < 48 → (k_mach k).2 !! l = Some LOCK_UNLOCKED →
  ∃ k', locked_section (Some l) (arch_set_mask b nr) k = Ret tt k' ∧ pic_write nr b k k'.
Proof.
  intros Hnr Hl.
  assert (∃ k1, arch_set_mask b nr (hold l k) = Ret tt k1 ∧ pic_write nr b (hold l k) k1)
    as (k1 & H1 & [(m & s & ->) Hb Ho]).
  { destruct b; [by apply arch_mask_irq_run|by apply arch_unmask_irq_run]. }
  exists (set_pic_master m (set_pic_slave s k)). split; [|by split; [eexists _, _| |]].
  etrans; [by eapply (locked_section_run l k)|].
  change (set_k_mach (k_mach k) (set_pic_master m (set_pic_slave s (hold l k))))
    with (set_pic_master m (set_pic_slave s (set_k_mach (k_mach k) k))).
  by rewrite set_mach_id.
Qed.

Definition enabled k (p : Z) : bool := default false (i_enabled <$> irqs k !! p).

Lemma any_enabled_run k ps :
  (∀ p, p ∈ ps → is_Some (irqs k !! p)) → any_enabled ps k = Ret (existsb (enabled k) ps) k.
Proof.
  induction ps as [|p ps IH]; intros Hs; [done|]. cbn [any_enabled existsb].
  destruct (Hs p ltac:(left)) as [c Hc]. rewrite (bind_Ret _ _ _ c k) by (by apply deref_Some).
  unfold enabled at 1. rewrite Hc. simpl. destruct (i_enabled c); [done|].
  apply IH. intros q Hq. apply Hs. by right.
Qed.

(** A line in use, and the controller in step with it. *)
Record line_ok k (major line : Z) (c : irqline) (l : nat) : Prop := {
  lo_range : 32 <= major < 48;
  lo_slot : irqlines k !! Z.to_nat major = Some line;
  lo_nonzero : line ≠ 0;
  lo_obj : irqline_objs k !! line = Some c;
  lo_major : l_major c = major;
  lo_lock : l_lock c = Some l;
  lo_unlocked : (k_mach k).2 !! l = Some LOCK_UNLOCKED;
  lo_irqs : ∀ p, p ∈ l_irqs c → is_Some (irqs k !! p);
  lo_pic : pic_bit k major = negb (existsb (enabled k) (l_irqs c));
}.

(** Everything of [line_ok] but the controller. *)
Lemma line_update b k major line c l :
  32 <= major < 48 → line ≠ 0 → irqline_objs k !! line = Some c → l_major c = major →
  l_lock c = Some l → (k_mach k).2 !! l = Some LOCK_UNLOCKED →
  (∀ p, p ∈ l_irqs c → is_Some (irqs k !! p)) →
  (if b : bool then irqline_unmask line else irqline_mask line) k
  = Ret 0 k ∧ b ≠ existsb (enabled k) (l_irqs c)
  ∨ ∃ k', (if b then irqline_unmask line else irqline_mask line) k = Ret 0 k' ∧
      b = existsb (enabled k) (l_irqs c) ∧ pic_write major (negb b) k k'.
Proof.
  intros Hr Hn Hc Hm Hl Hu Hs.
  assert (u16 (l_major c) = major) as E16 by (rewrite Hm; apply Z.mod_small; lia).
  destruct (set_mask_locked (negb b) major l k Hr Hu) as (k' & H & Hw).
  destruct (decide (b = existsb (enabled k) (l_irqs c))) as [Eb|Hne]; [right|left].
  - exists k'. split_and!; [|done|done]. destruct b; unfold irqline_mask, irqline_unmask;
    rewrite (proj2 (Z.eqb_neq _ _) Hn), (bind_Ret _ _ _ c k) by (by apply deref_Some);
    rewrite (bind_Ret _ _ _ _ _ (any_enabled_run k _ Hs)), <- Eb, E16, Hl;
    by rewrite (bind_Ret _ _ _ _ _ H).
  - split; [|done]. destruct b; unfold irqline_mask, irqline_unmask;
    rewrite (proj2 (Z.eqb_neq _ _) Hn), (bind_Ret _ _ _ c k) by (by apply deref_Some);
    rewrite (bind_Ret _ _ _ _ _ (any_enabled_run k _ Hs)); by destruct (existsb _ _).
Qed.

(** C25: enabling or disabling an interrupt keeps the controller in step with its
    line: the mask bit of the line is clear exactly while some interrupt on it
    is enabled, and no other line's bit changes. *)
Theorem irq_mask_follows_enabled k major line c l e p x j :
  line_ok k major line c l → p ∈ l_irqs c → p ≠ 0 → irqs k !! p = Some x → i_major x = major →
  i_lock x = Some j → (k_mach k).2 !! j = Some LOCK_UNLOCKED →
  ∃ k', (if e : bool then irq_unmask_internal p else irq_mask_internal p) k = Ret 0 k' ∧
    line_ok k' major line c l ∧ irqs k' = <[p := irq_set_enabled e x]> (irqs k) ∧
    (∀ n, 32 <= n < 48 → n ≠ major → pic_bit k' n = pic_bit k n).
Proof.
  intros [Hr Hsl Hn Hc Hm Hl Hu Hs Hpic] Hp Hnz Hx Hmaj Hj Huj.
  set (k1 := set_irqs (<[p := irq_set_enabled e x]> (irqs k)) k).
  assert (∀ q, is_Some (irqs k !! q) → is_Some (irqs k1 !! q)) as Hs1.
  { intros q Hq. simpl. destruct (decide (q = p)) as [->|]; [rewrite lookup_insert_eq; by eexists|].
    by rewrite lookup_insert_ne. }
  assert ((if e then irq_unmask_internal p else irq_mask_internal p) k
    = ((if e then irqline_unmask line else irqline_mask line);; mret 0) k1) as ->.
  { replace (if e then irq_unmask_internal p else irq_mask_internal p) with (irq_set_mask e p)
      by (by destruct e). unfold irq_set_mask.
    rewrite (proj2 (Z.eqb_neq _ _) Hnz), (bind_Ret _ _ _ x k) by (by apply deref_Some).
    unfold IDT_ENTRIES. destruct (Z.leb_spec 256 (i_major x)); [lia|]. rewrite Hj, Hmaj.
    rewrite (bind_Ret _ _ _ tt k1).
    2: { etrans; [eapply (locked_section_run j k); [done| |]|].
         - unfold upd_irq. rewrite (bind_Ret _ _ _ x (hold j k)) by (by apply deref_Some). reflexivity.
         - done.
         - change (set_k_mach (k_mach k) _) with (set_irqs (<[p := irq_set_enabled e x]> (irqs k))
             (set_k_mach (k_mach k) k)). by rewrite set_mach_id. }
    rewrite (bind_Ret _ _ _ line k1) by (by apply deref_Some).
    rewrite (proj2 (Z.eqb_neq _ _) Hn). rewrite bind_assoc. by destruct e. }
  assert (pic_bit k1 major = negb (existsb (enabled k) (l_irqs c))) as Hpic1 by done.
  assert (∀ q, q ≠ p → enabled k1 q = enabled k q) as Hoth.
  { intros q Hq. unfold enabled. simpl. by rewrite lookup_insert_ne. }
  assert (enabled k1 p = e) as Hself.
  { unfold enabled. simpl. by rewrite lookup_insert_eq. }
  destruct (line_update e k1 major line c l) as [[H Hne]|(k' & H & Heq & Hw)]; try done.
  { intros q Hq. by apply Hs1, Hs. }
  - exists k1. rewrite (bind_Ret _ _ _ _ _ H). split_and!; [done| |done|done].
    split; try done; [intros q Hq; by apply Hs1, Hs|].
    rewrite Hpic1. f_equal.
    (* nothing was written: disabling left another one enabled *)
    destruct e.
    + exfalso. apply Hne. symmetry. apply existsb_exists. exists p. split; [by apply list_elem_of_In|done].
    + destruct (existsb (enabled k1) (l_irqs c)) eqn:E1; [|done].
      apply existsb_exists in E1 as (q & Hq & Eq). apply existsb_exists. exists q. split; [done|].
      destruct (decide (q = p)) as [->|]; [congruence|]. by rewrite <- Hoth.
  - exists k'. rewrite (bind_Ret _ _ _ _ _ H). destruct Hw as [(m & s & ->) Hb Ho].
    split_and!; [done| |done|done].
    split; try done; [intros q Hq; by apply Hs1, Hs|]. rewrite Hb. f_equal. exact Heq.
Qed.
End irq.

(** ** Witnesses: one line with two interrupts, the second enabled *)

Definition irq_demo : kernel heap heap Z :=
  set_pic_master 253 (set_irqlines (<[33%nat := 900]> (replicate 256 0))
   (set_irqline_objs {[900 := mk_irqline 33 false (Some 0%nat) [920; 910]]}
    (set_irqs {[910 := mk_irq 0 0 33 0 false false 0 0 (Some 1%nat) 4096;
                920 := mk_irq 0 0 33 1 true false 0 0 (Some 2%nat) 8192]}
      (boot_kernel (mk_cpu 512 false, replicate 3 LOCK_UNLOCKED) small_heap small_heap 0)))).

Lemma irq_demo_irqs p : p ∈ [920; 910] → is_Some (irqs irq_demo !! p).
Proof. rewrite !elem_of_cons, elem_of_nil. intros [->|[->|[]]]; eexists; reflexivity. Qed.

Lemma irqline_find_free_minor_least_witness :
  ∃ m, irqline_find_free_minor 900 irq_demo = Ret m irq_demo ∧ 0 <= m < IRQ_ANY_MINOR.
Proof.
  destruct (irqline_find_free_minor_least irq_demo 900 (mk_irqline 33 false (Some 0%nat) [920; 910])
    eq_refl irq_demo_irqs eq_refl) as (m & H & Hm & _).
  exists m. split; [exact H|exact Hm].
Defined.

Lemma irq_mask_follows_enabled_witness :
  ∃ k', irq_mask_internal 920 irq_demo = Ret 0 k' ∧ pic_bit k' 40 = pic_bit irq_demo 40.
Proof.
  destruct (irq_mask_follows_enabled irq_demo 33 900 (mk_irqline 33 false (Some 0%nat) [920; 910]) 0
    false 920 (mk_irq 0 0 33 1 true false 0 0 (Some 2%nat) 8192) 2) as (k' & H & _ & _ & Ho);
    try reflexivity; [|left|discriminate|].
  - split; [lia|reflexivity|discriminate|reflexivity..|exact irq_demo_irqs|reflexivity].
  - exists k'. split; [exact H|]. apply Ho; lia.
Defined.
