(* ===== verification/Elf.v ===== *)
(** * The ELF loader (kernel/lib/elf.c, include/lib/elf.h; the checks of
      [vmm_map_fixed] in kernel/mm/vmm.c)

    The image is the list of its bytes; a read outside it faults.  Each
    loadable segment gets fresh frames, a capability for them and a mapping
    at its linked address. *)

From stdpp Require Import base tactics list gmap.
From Stdlib Require Import ZArith Lia.
From S2P Require Import Prelude Spinlock Allocator Heap KState Capability Sched ThreadApi.
From S2P Require Import WaitQueue Semaphore.

Open Scope Z_scope.

Definition ELF_ET_EXEC : Z := 2.
Definition ELF_EM_386 : Z := 3.
Definition ELF_PT_LOAD : Z := 1.
Definition USER_SPACE_TOP : Z := 4026531840.  (* 0xF0000000 *)
Definition PTE_USER_PAGE : Z := 7.
Definition sizeof_ehdr : Z := 52.
Definition sizeof_phdr : Z := 32.

Record elf32_ehdr := mk_ehdr {
  e_ident : list Z; e_type : Z; e_machine : Z; e_version : Z; e_entry : Z; e_phoff : Z; e_shoff : Z;
  e_flags : Z; e_ehsize : Z; e_phentsize : Z; e_phnum : Z; e_shentsize : Z; e_shnum : Z;
  e_shstrndx : Z }.

Record elf32_phdr := mk_phdr {
  p_type : Z; p_offset : Z; p_vaddr : Z; p_paddr : Z; p_filesz : Z; p_memsz : Z; p_flags : Z;
  p_align : Z }.

(** ** Reading the packed little-endian structures *)

Definition rd8 (img : list Z) (off : Z) : option Z :=
  if off <? 0 then None else img !! Z.to_nat off.
Definition rd16 (img : list Z) (off : Z) : option Z :=
  a ← rd8 img off; b ← rd8 img (off + 1); Some (a + 256 * b).
Definition rd32 (img : list Z) (off : Z) : option Z :=
  a ← rd16 img off; b ← rd16 img (off + 2); Some (a + 65536 * b).

Definition read_ehdr (img : list Z) : option elf32_ehdr :=
  ty ← rd16 img 16; mach ← rd16 img 18; ver ← rd32 img 20; entry ← rd32 img 24;
  phoff ← rd32 img 28; shoff ← rd32 img 32; fl ← rd32 img 36; ehs ← rd16 img 40;
  phes ← rd16 img 42; phn ← rd16 img 44; shes ← rd16 img 46; shn ← rd16 img 48; shs ← rd16 img 50;
  Some (mk_ehdr (take 16 img) ty mach ver entry phoff shoff fl ehs phes phn shes shn shs).

Definition read_phdr (img : list Z) (off : Z) : option elf32_phdr :=
  ty ← rd32 img off; o ← rd32 img (off + 4); va ← rd32 img (off + 8); pa ← rd32 img (off + 12);
  fs ← rd32 img (off + 16); ms ← rd32 img (off + 20); fl ← rd32 img (off + 24);
  al ← rd32 img (off + 28);
  Some (mk_phdr ty o va pa fs ms fl al).

(** The bytes [off .. off+n) when they are all in the image. *)
Definition slice (img : list Z) (off n : Z) : option (list Z) :=
  if (0 <=? off) && (0 <=? n) && (off + n <=? Z.of_nat (length img))
  then Some (take (Z.to_nat n) (drop (Z.to_nat off) img)) else None.

(** ** Validation *)

Definition elf_validate (h : elf32_ehdr) (image_size : Z) : Z :=
  if image_size <? sizeof_ehdr then E_INVAL else
  if negb (bool_decide (take 4 (e_ident h) = [127; 69; 76; 70])) then E_INVAL else
  if negb (bool_decide (take 2 (drop 4 (e_ident h)) = [1; 1])) then E_INVAL else
  if negb (e_type h =? ELF_ET_EXEC) || negb (e_machine h =? ELF_EM_386) then E_INVAL else
  if negb (e_phentsize h =? sizeof_phdr) then E_INVAL else
  if (e_phnum h =? 0) || (64 <? e_phnum h) then E_INVAL else
  if image_size <? (e_phoff h +u (e_phnum h *u sizeof_phdr)) then E_INVAL else
  if USER_SPACE_TOP <=? e_entry h then E_INVAL else
  0.

(** ** One segment: skipped, refused, or loaded *)

Record segment := mk_segment { sg_base : Z; sg_offset : Z; sg_pages : Z }.

Definition plan_segment (ph : elf32_phdr) (image_size : Z) : option (Z + segment) :=
  if negb (p_type ph =? ELF_PT_LOAD) then None else
  let filesz := p_filesz ph in
  let memsz := p_memsz ph in
  let vaddr := p_vaddr ph in
  if memsz =? 0 then None else
  if memsz <? filesz then Some (inl E_INVAL) else
  if (vaddr +u memsz <? vaddr) || (USER_SPACE_TOP <? vaddr +u memsz) then Some (inl E_INVAL) else
  if image_size <? (p_offset ph +u filesz) then Some (inl E_INVAL) else
  let page_base := Z.land vaddr PAGE_MASK in
  let offset := vaddr -u page_base in
  let npages := u32 (memsz + offset + PAGE_SIZE - 1) / PAGE_SIZE in
  Some (inr (mk_segment page_base offset npages)).

Section elf.
Context {A U W : Type} `{!AddressSpace W, !Allocator A}.
Notation kernel := (kernel A U W).
Implicit Types k : kernel.

Definition vzoom {B} (m : M W B) : M kernel B := @zoom _ _ kernel_vm _ m.
Definition of_option {B} (o : option B) : M kernel B :=
  match o with Some b => mret b | None => fault end.

Definition vmm_map_fixed (proc phys_addr vaddr size flags : Z) (own_phys : bool) : M kernel Z :=
  if proc =? 0 then mret E_INVAL else
  if negb (Z.land phys_addr 4095 =? 0) || negb (Z.land vaddr 4095 =? 0) then mret E_INVAL else
  if (size =? 0) || negb (Z.land size 4095 =? 0) then mret E_INVAL else
  r ← cap_check proc CAP_MAP_MEM (Some (mk_cap_mem phys_addr size flags));
  if negb (r =? 0) then mret E_PERM else
  vzoom (vmm_map_region proc phys_addr vaddr size flags own_phys).

(** The body of the loop: an error code, or whether a segment was loaded. *)
Definition load_segment (proc : Z) (img : list Z) (image_size : Z) (ph : elf32_phdr) : M kernel (Z + bool) :=
  match plan_segment ph image_size with
  | None => mret (inr false)
  | Some (inl e) => mret (inl e)
  | Some (inr sg) =>
      pa ← vzoom (vm_frames_alloc (sg_pages sg));
      if pa =? 0 then mret (inl E_NOMEM) else
      bytes ← of_option (slice img (p_offset ph) (p_filesz ph));
      vzoom (vm_store (pa +u sg_offset sg) bytes);;
      vzoom (vm_store (pa +u sg_offset sg +u p_filesz ph)
        (replicate (Z.to_nat (p_memsz ph - p_filesz ph)) 0));;
      let size := sg_pages sg *u PAGE_SIZE in
      let cmem := mk_cap_mem pa size PTE_USER_PAGE in
      r ← cap_grant proc CAP_MAP_MEM (Some cmem);
      if negb (r =? 0) then
        vzoom (vm_frames_free pa (sg_pages sg));; mret (inl E_PERM)
      else
      r ← vmm_map_fixed proc pa (sg_base sg) size PTE_USER_PAGE true;
      if negb (r =? 0) then
        cap_revoke proc CAP_MAP_MEM (Some cmem);;
        vzoom (vm_frames_free pa (sg_pages sg));;
        mret (inl E_LIMIT)
      else mret (inr true)
  end.

Fixpoint load_segments (proc : Z) (img : list Z) (image_size phoff : Z) (n : nat) (i : Z) (loaded : bool)
    : M kernel (Z + bool) :=
  match n with
  | O => mret (inr loaded)
  | S n =>
      ph ← of_option (read_phdr img (u32 (phoff + i * sizeof_phdr)));
      r ← load_segment proc img image_size ph;
      match r with
      | inl e => mret (inl e)
      | inr b => load_segments proc img image_size phoff n (i + 1) (loaded || b)
      end
  end.

(** The error code and the entry point stored through [out_entry]. *)
Definition elf_load (proc : Z) (img : list Z) (image_size out_entry : Z) : M kernel (Z * Z) :=
  if proc =? 0 then mret (E_INVAL, out_entry) else
  if image_size <? sizeof_ehdr then mret (E_INVAL, out_entry) else
  h ← of_option (read_ehdr img);
  r ← load_segments proc img image_size (e_phoff h) (Z.to_nat (e_phnum h)) 0 false;
  match r with
  | inl e => mret (e, out_entry)
  | inr false => mret (E_INVAL, out_entry)
  | inr true => mret (0, e_entry h)
  end.
End elf.

(** ** Theorems *)

Definition phdr_u32 (ph : elf32_phdr) : Prop :=
  is_u32 (p_offset ph) ∧ is_u32 (p_vaddr ph) ∧ is_u32 (p_filesz ph) ∧ is_u32 (p_memsz ph).

(** a segment the loader accepts is mapped inside user space on whole pages:
    the pages start at a page boundary not above the segment, contain all of
    it and end at or below USER_SPACE_TOP, the offset is the distance to the
    first page, the file part fits in the memory part, and none of the 32-bit
    computations wraps. *)
Theorem elf_segment_bounds ph size sg :
  phdr_u32 ph → plan_segment ph size = Some (inr sg) →
  sg_base sg mod PAGE_SIZE = 0 ∧ 0 <= sg_base sg <= p_vaddr ph ∧
  sg_offset sg = p_vaddr ph - sg_base sg ∧ 0 <= sg_offset sg < PAGE_SIZE ∧
  0 < sg_pages sg ∧
  p_vaddr ph + p_memsz ph <= sg_base sg + sg_pages sg * PAGE_SIZE <= USER_SPACE_TOP ∧
  p_filesz ph <= p_memsz ph.
Proof.
  intros (Ho & Hv & Hf & Hm). unfold plan_segment. cbv zeta.
  destruct (p_type ph =? ELF_PT_LOAD); cbn [negb]; [|done].
  destruct (Z.eqb_spec (p_memsz ph) 0); [done|].
  destruct (Z.ltb_spec (p_memsz ph) (p_filesz ph)); [done|].
  rewrite u32_wraps_eqb by done.
  destruct (4294967296 <=? p_vaddr ph + p_memsz ph) eqn:Ew; cbn [orb]; [done|].
  destruct (USER_SPACE_TOP <? _) eqn:Et; [done|]. destruct (size <? _); [done|].
  zprop. intros [= <-]. cbn [sg_base sg_offset sg_pages].
  rewrite land_page_mask by done. unfold is_u32, USER_SPACE_TOP, PAGE_SIZE in *.
  rewrite (u32_small (p_vaddr ph + p_memsz ph)) in Et by (unfold is_u32; lia).
  pose proof (Z.div_mod (p_vaddr ph) 4096 ltac:(lia)) as Hdm.
  pose proof (Z.mod_pos_bound (p_vaddr ph) 4096 ltac:(lia)) as Hmod.
  rewrite (u32_small (p_vaddr ph - _)) by (unfold is_u32; lia).
  set (b := p_vaddr ph / 4096) in *. set (o := p_vaddr ph mod 4096) in *.
  assert (p_vaddr ph - b * 4096 = o) as -> by lia.
  rewrite (u32_small (p_memsz ph + o + 4096 - 1)) by (unfold is_u32; lia).
  set (x := p_memsz ph + o + 4096 - 1).
  pose proof (Z.div_mod x 4096 ltac:(lia)) as Hxm.
  pose proof (Z.mod_pos_bound x 4096 ltac:(lia)) as Hx.
  set (np := x / 4096) in *. assert (0 <= b) by (unfold b; apply Z.div_pos; lia).
  split_and!; try lia. apply Z.mod_mul. lia.
Qed.

(** A page of bss at the start of the user program area. *)
Definition demo_phdr : elf32_phdr := mk_phdr 1 4096 3238006788 0 16 8192 5 4096.

Lemma elf_segment_bounds_witness :
  ∃ sg, plan_segment demo_phdr 65536 = Some (inr sg) ∧
    p_vaddr demo_phdr + p_memsz demo_phdr <= sg_base sg + sg_pages sg * PAGE_SIZE <= USER_SPACE_TOP.
Proof.
  eexists. split; [reflexivity|].
  apply (elf_segment_bounds demo_phdr 65536); [repeat split; vm_compute; congruence|reflexivity].
Defined.

(** The bound on the file part of a segment is computed modulo 2^32: a
    segment whose file offset lies beyond the end of the image passes when
    offset + filesz wraps, and so does a program header table that starts
    beyond the end when phoff + phnum * 32 wraps. *)
Theorem elf_bounds_checks_wrap :
  (∃ ph sg, phdr_u32 ph ∧ plan_segment ph 65536 = Some (inr sg) ∧ 65536 < p_offset ph) ∧
  (∃ h, elf_validate h 65536 = 0 ∧ 65536 < e_phoff h).
Proof.
  split.
  - exists (mk_phdr 1 4294963200 3238002688 0 8192 8192 5 4096), (mk_segment 3238002688 0 2).
    split_and!; [repeat split; vm_compute; congruence|reflexivity|reflexivity].
  - exists (mk_ehdr [127; 69; 76; 70; 1; 1; 1; 0; 0; 0; 0; 0; 0; 0; 0; 0] 2 3 1 3238002688 4294967264
      0 0 52 32 1 0 0 0). split; [vm_compute; reflexivity|reflexivity].
Qed.
