(* ===== verification/Process.v ===== *)
(** * Processes and threads: creation and teardown (kernel/process.c,
      arch/i386/task.c)

    A thread is a control block, a stack (user pages or kernel heap), a lock,
    a place on the run list and on its process's list, and a mailbox.  The
    operations build these in order and undo what they built when a step
    fails; deletion takes a thread off every list and queue before its memory
    is given back. *)

From stdpp Require Import base tactics list gmap.
From Stdlib Require Import ZArith Lia.
From S2P Require Import PageSpaces Vmm VmmOps VmSpaces.
From S2P Require Import Prelude Spinlock Allocator Heap KState Capability Sched ThreadApi.
From S2P Require Import WaitQueue Semaphore Mailbox Irq Elf.

Open Scope Z_scope.

Definition sizeof_tcb : Z := 96.
Definition sizeof_pcb : Z := 60.
Definition TASK_PRIV_KERNEL : Z := 0.
Definition TASK_PRIV_USER : Z := 1.

Definition zero_context : arch_task_context := mk_context 0 [0; 0; 0; 0] 0 0 None.

Definition priv_of (p : Z) : proc_priv := if p =? 0 then PROC_PRIV_KERNEL else PROC_PRIV_USER.
Definition priv_num (p : proc_priv) : Z :=
  match p with PROC_PRIV_KERNEL => 0 | PROC_PRIV_USER => 1 end.

Section process.
Context {A U W : Type} `{!AddressSpace W, !Allocator A, !Allocator U}.
Notation kernel := (kernel A U W).
Context `{!Gate kernel proc_thread_ctrl_config, !Gate kernel irq_ctrl_config}.
Implicit Types k : kernel.

(** ** arch/i386/task.c *)

(** The initial frame: flat code and data selectors of the LDT at the
    thread's ring, IF set and IOPL 0. *)
Definition initial_frame (ring entry stack : Z) : regs :=
  let data := Z.lor (Z.lor 8 4) ring in
  mk_regs data data data data entry (Z.lor (Z.lor 0 4) ring) 514 (u32 (stack + 4096 - sizeof_regs)) data.

Definition arch_task_context_init (vcb entry priv : Z) : M kernel (Z * arch_task_context) :=
  let ring := if priv =? TASK_PRIV_KERNEL then 0 else 3 in
  if vcb =? 0 then mret (E_INVAL, zero_context) else
  let ldts := [65535; Z.lor 13605376 (Z.shiftl ring 13); 65535; Z.lor 13603328 (Z.shiftl ring 13)] in
  stack ← (if negb (ring =? 0) then vzoom (vmm_alloc_pages vcb 1 PTE_USER_PAGE)
           else kzoom (kmalloc 4096));
  if stack =? 0 then mret (E_NOMEM, mk_context 0 ldts 0 0 None) else
  let r := u32 (stack + 4096 - sizeof_regs) in
  pa ← (if negb (ring =? 0) then vzoom (vmm_vcb_va_to_pa vcb stack) else mret stack);
  if pa =? 0 then
    vzoom (vmm_free_pages vcb stack);; mret (E_NOMEM, mk_context r ldts 0 0 None)
  else
  mret (0, mk_context r ldts stack ring (Some (initial_frame ring entry stack))).

Definition arch_task_context_release (vcb : Z) (c : arch_task_context) : M kernel arch_task_context :=
  if vcb =? 0 then mret c else
  (if ctx_stack c =? 0 then mret tt
   else if negb (ctx_ring c =? 0) then vzoom (vmm_free_pages vcb (ctx_stack c))
   else kzoom (kfree (ctx_stack c)));;
  mret zero_context.

(** [arch_task_context_release(&t->parent->vcb, &t->context)] *)
Definition release_context (t : Z) : M kernel unit :=
  c ← get_tcb t;
  x ← arch_task_context_release (t_parent c) (t_context c);
  upd_tcb t (tcb_context x).

(** ** Threads *)

Definition tcb_detach_wait (t : Z) : M kernel unit :=
  if t =? 0 then mret tt else
  c ← get_tcb t;
  let wq := t_waiting_on c in
  if wq =? 0 then mret tt else
  q ← get_wq wq;
  locked_section (wq_lock q) (
    c ← get_tcb t;
    if t_waiting_on c =? wq then
      upd_wq wq (λ q, wq_set_waiters (remove t (wq_waiters q)) q);;
      upd_tcb t (tcb_waiting 0)
    else mret tt).

(** The very first thread is switched to at once. *)
Definition run_first (thread parent : Z) : M kernel unit :=
  r ← gets thread_run;
  if negb (r =? 0) then mret tt else
  upd_tcb thread (tcb_state TS_READY);;
  modify (set_thread_run thread);;
  vzoom (vmm_switch parent);;
  arch_task_restore_context thread;;
  mret tt.

Definition link_thread (thread parent : Z) (initial : thread_state) : M kernel unit :=
  sched_section (
    p ← get_pcb parent;
    locked_section (p_sp_lock p) (upd_pcb parent (λ p, pcb_tcbs (thread :: p_tcbs p) p));;
    modify (λ k, set_thread_head (thread :: thread_head k) k);;
    upd_tcb thread (tcb_state initial);;
    run_first thread parent).

(** The part of the creation that can no longer fail. *)
Definition install_thread (thread parent : Z) (x : arch_task_context) (l : option nat) (param : Z)
    (initial : thread_state) : M kernel Z :=
  tid ← gets next_tid;
  modify (set_next_tid (tid +u 1));;
  modify (λ k, set_tcbs (<[thread := mk_tcb x 0 (i32 tid) TS_NULL false l parent param [] 0 0]>
    (tcbs k)) k);;
  link_thread thread parent initial;;
  p ← get_pcb parent;
  mb ← alloc_mailbox (p_pid p) (i32 tid);
  upd_tcb thread (tcb_mailbox mb);;
  mret (i32 tid).

Definition thread_create_ex_internal (parent priv entry param : Z) (initial : thread_state) : M kernel Z :=
  if parent =? 0 then mret E_INVAL else
  thread ← kzoom (kmalloc sizeof_tcb);
  if thread =? 0 then mret E_NOMEM else
  r ← arch_task_context_init parent entry priv;
  if negb (r.1 =? 0) then kzoom (kfree thread);; mret E_THREAD_CREATE else
  l ← zoom spinlock_alloc;
  match l with
  | None =>
      arch_task_context_release parent r.2;;
      kzoom (kfree thread);;
      mret E_LIMIT
  | Some _ => install_thread thread parent r.2 l param initial
  end.

Definition t_create (parent priv entry param : Z) : M kernel Z :=
  thread_create_ex_internal parent priv entry param TS_PENDING.

(** "list_for_each_safe(n, next, &t->irqs)" *)
Fixpoint release_irqs (t : Z) (ps : list Z) : M kernel unit :=
  match ps with
  | [] => mret tt
  | p :: ps =>
      upd_tcb t (λ c, tcb_irqs (remove p (t_irqs c)) c);;
      irq_release p;;
      release_irqs t ps
  end.

(** What both branches of the deletion do last. *)
Definition free_thread (t : Z) : M kernel unit :=
  c ← get_tcb t;
  release_irqs t (t_irqs c);;
  zoom (spinlock_release (t_sp_lock c));;
  release_mailbox (t_mailbox c);;
  modify (λ k, set_tcbs (delete t (tcbs k)) k);;
  kzoom (kfree t).

Definition unlink_run_list (t : Z) : M kernel unit :=
  modify (λ k, set_thread_head (remove t (thread_head k)) k).
Definition unlink_proc_list (t parent : Z) : M kernel unit :=
  upd_pcb parent (λ p, pcb_tcbs (remove t (p_tcbs p)) p).

(** Under [schedule_lock]; the result says what is left to free outside. *)
Definition delete_locked (tid : Z) : M kernel Z :=
  ts ← gets thread_head;
  t ← find_tid tid ts;
  if t =? 0 then mret 0 else
  r ← gets thread_run;
  c ← get_tcb t;
  if negb (t =? r) then
    locked_section (t_sp_lock c) (release_context t);;
    tcb_detach_wait t;;
    unlink_run_list t;;
    p ← get_pcb (t_parent c);
    locked_section (p_sp_lock p) (unlink_proc_list t (t_parent c));;
    mret t
  else
    next ← find_next_runnable r;
    if next =? 0 then mret 0 else
    switch_to next;;
    release_context t;;
    tcb_detach_wait t;;
    unlink_run_list t;;
    unlink_proc_list t (t_parent c);;
    free_thread t;;
    mret 0.

Definition thread_delete_internal (tid : Z) : M kernel unit :=
  r ← gets thread_run;
  if r =? 0 then mret tt else
  t ← sched_section (delete_locked tid);
  if t =? 0 then mret tt else free_thread t.

(** ** Processes *)

Definition p_create_ex (priv : proc_priv) (main_thread_entry param : Z) (initial : thread_state) : M kernel Z :=
  proc ← kzoom (kmalloc sizeof_pcb);
  if proc =? 0 then mret E_NOMEM else
  l1 ← zoom spinlock_alloc;
  match l1 with
  | None => kzoom (kfree proc);; mret E_LIMIT
  | Some _ =>
  l2 ← zoom spinlock_alloc;
  match l2 with
  | None => zoom (spinlock_release l1);; kzoom (kfree proc);; mret E_LIMIT
  | Some _ =>
  pid ← gets next_pid;
  modify (set_next_pid (pid +u 1));;
  r ← vzoom (vmm_create proc (bool_decide (priv = PROC_PRIV_USER)));
  if negb (r =? 0) then
    zoom (spinlock_release l2);; zoom (spinlock_release l1);; kzoom (kfree proc);; mret E_NOMEM
  else
  modify (λ k, set_pcbs (<[proc := mk_pcb (i32 pid) PS_READY priv [] param l1 [] l2]> (pcbs k)) k);;
  parent_proc ← get_current_process;
  (if negb (parent_proc =? 0) && negb (parent_proc =? proc)
   then cap_inherit_all proc parent_proc else mret tt);;
  sched_section (modify (λ k, set_proc_head (proc :: proc_head k) k));;
  ret ← thread_create_ex_internal proc (priv_num priv) main_thread_entry param initial;
  if 0 <=? ret then mret (i32 pid) else
  sched_section (modify (λ k, set_proc_head (remove proc (proc_head k)) k));;
  vzoom (vmm_destroy proc);;
  zoom (spinlock_release l2);;
  zoom (spinlock_release l1);;
  modify (λ k, set_pcbs (delete proc (pcbs k)) k);;
  kzoom (kfree proc);;
  mret ret
  end end.

Definition proc_create_internal (priv : proc_priv) (main_thread_entry param : Z) : M kernel Z :=
  p_create_ex priv main_thread_entry param TS_PENDING.

(** The loop over [proc->tcbs], which each round shortens by its head; when
    the running thread has no successor the lock is released and the
    processor halts for good. *)
Fixpoint exit_threads (flags : Z) (ts : list Z) : M kernel unit :=
  match ts with
  | [] => mret tt
  | t :: ts =>
      r ← gets thread_run;
      c ← get_tcb t;
      (if t =? r then
         next ← find_next_runnable r;
         if next =? 0 then
           l ← gets schedule_lock; zoom (spinlock_unlock_irqrestore l flags);; spin
         else
         switch_to next;;
         release_context t
       else locked_section (t_sp_lock c) (release_context t));;
      tcb_detach_wait t;;
      unlink_run_list t;;
      unlink_proc_list t (t_parent c);;
      zoom (spinlock_release (t_sp_lock c));;
      modify (λ k, set_tcbs (delete t (tcbs k)) k);;
      kzoom (kfree t);;
      exit_threads flags ts
  end.

Definition proc_exit_internal (pid : Z) : M kernel unit :=
  l ← gets schedule_lock;
  flags ← zoom (spinlock_lock_irqsave l);
  ps ← gets proc_head;
  found ← find_pid pid ps;
  (if found =? 0 then mret tt else
   p ← get_pcb found;
   exit_threads flags (p_tcbs p);;
   modify (λ k, set_proc_head (remove found (proc_head k)) k));;
  zoom (spinlock_unlock_irqrestore l flags);;
  arch_task_context_switch;;
  if found =? 0 then mret tt else
  cap_revoke_all found;;
  vzoom (vmm_destroy found);;
  p ← get_pcb found;
  zoom (spinlock_release (p_cap_lock p));;
  zoom (spinlock_release (p_sp_lock p));;
  modify (λ k, set_pcbs (delete found (pcbs k)) k);;
  kzoom (kfree found).

(** ** Loading a program

    [proc_create] and [proc_exit] run inside the gate here as everywhere;
    they are below, over the commands without LOAD_FROM_ELF. *)

Definition config_set_pid (v : Z) (c : proc_thread_ctrl_config) : proc_thread_ctrl_config :=
  mk_ptc (pc_cmd c) v (pc_tid c) (pc_priv c) (pc_entry c) (pc_elf_start c) (pc_elf_end c) (pc_param c).
Definition config_set_tid (v : Z) (c : proc_thread_ctrl_config) : proc_thread_ctrl_config :=
  mk_ptc (pc_cmd c) (pc_pid c) v (pc_priv c) (pc_entry c) (pc_elf_start c) (pc_elf_end c) (pc_param c).

(** The switch of [proc_syscall_exec]; [load] is its LOAD_FROM_ELF case. *)
Definition proc_command (load : Z → Z → Z → M kernel Z) (cur : Z) (c : proc_thread_ctrl_config)
    : M kernel proc_thread_ctrl_config :=
  let cmd := pc_cmd c in
  if cmd =? THREAD_CTRL_CREATE then
    tid ← (if cur =? 0 then mret E_INVAL else
           x ← get_tcb cur; t_create (t_parent x) (pc_priv c) (pc_entry c) (pc_param c));
    mret (config_set_tid tid c)
  else if cmd =? THREAD_CTRL_DELETE then thread_delete_internal (pc_tid c);; mret c
  else if cmd =? THREAD_CTRL_YIELD then thread_yield_internal;; mret c
  else if cmd =? THREAD_CTRL_BLOCK then thread_block_internal (pc_tid c);; mret c
  else if cmd =? THREAD_CTRL_UNBLOCK then thread_unblock_internal (pc_tid c);; mret c
  else if cmd =? PROC_CTRL_CREATE then
    pid ← proc_create_internal (priv_of (pc_priv c)) (pc_entry c) (pc_param c);
    mret (config_set_pid pid c)
  else if cmd =? PROC_CTRL_LOAD_FROM_ELF then
    pid ← load (pc_elf_start c) (pc_elf_end c) (pc_param c); mret (config_set_pid pid c)
  else if cmd =? PROC_CTRL_EXIT then proc_exit_internal (pc_pid c);; mret c
  else if cmd =? PROC_CTRL_BLOCK then proc_block_internal (pc_pid c);; mret c
  else if cmd =? PROC_CTRL_UNBLOCK then proc_unblock_internal (pc_pid c);; mret c
  else if cmd =? PROC_CTRL_GET_PID then pid ← proc_get_pid; mret (config_set_pid pid c)
  else if cmd =? THREAD_CTRL_GET_TID then tid ← thread_get_tid; mret (config_set_tid tid c)
  else mret c.

(** A wrapper: directly inside a gate, through the trap otherwise. *)
Definition proc_call (load : Z → Z → Z → M kernel Z) (c : proc_thread_ctrl_config)
    : M kernel (Z * proc_thread_ctrl_config) :=
  d ← may_run_direct;
  if d : bool then cur ← exec_current; c ← proc_command load cur c; mret (0, c)
  else proc_gate c.

Definition proc_create_with (load : Z → Z → Z → M kernel Z) (priv : proc_priv) (entry param : Z) : M kernel Z :=
  r ← proc_call load (mk_ptc PROC_CTRL_CREATE 0 0 (priv_num priv) entry 0 0 param);
  mret (if r.1 =? 0 then pc_pid r.2 else r.1).
Definition proc_exit_with (load : Z → Z → Z → M kernel Z) (pid : Z) : M kernel unit :=
  proc_call load (ptc PROC_CTRL_EXIT pid 0);; mret tt.

Definition no_load : Z → Z → Z → M kernel Z := λ _ _ _, fault.

Definition proc_load_from_elf_internal (elf_start elf_end param : Z) : M kernel Z :=
  if (elf_start =? 0) || (elf_end <=? elf_start) then mret E_INVAL else
  let image_size := elf_end -u elf_start in
  if image_size <? sizeof_ehdr then mret E_INVAL else
  image ← kzoom (kmalloc image_size);
  if image =? 0 then mret E_NOMEM else
  caller ← get_current_process;
  trusted ← (if caller =? 0 then mret false else
             p ← get_pcb caller; mret (bool_decide (p_priv p = PROC_PRIV_KERNEL)));
  bytes ← (if trusted : bool then b ← vzoom (vm_load elf_start image_size); mret (Some b)
           else vzoom (vm_copy_from_user elf_start image_size));
  match bytes with
  | None => kzoom (kfree image);; mret E_FAULT
  | Some img =>
      h ← of_option (read_ehdr img);
      let ret := elf_validate h image_size in
      if negb (ret =? 0) then kzoom (kfree image);; mret ret else
      if USER_SPACE_TOP <=? e_entry h then kzoom (kfree image);; mret E_INVAL else
      pid ← proc_create_with no_load PROC_PRIV_USER (e_entry h) param;
      if pid <? 0 then kzoom (kfree image);; mret pid else
      proc ← get_process_by_pid pid;
      if proc =? 0 then
        kzoom (kfree image);; proc_exit_with no_load pid;; mret E_NOTFOUND
      else
      r ← elf_load proc img image_size (e_entry h);
      kzoom (kfree image);;
      if negb (r.1 =? 0) then proc_exit_with no_load pid;; mret r.1 else
      mret pid
  end.

(** ** The commands and the API *)

Definition proc_syscall_exec (c : proc_thread_ctrl_config) : M kernel (Z * proc_thread_ctrl_config) :=
  cur ← exec_current;
  c ← proc_command proc_load_from_elf_internal cur c;
  mret (0, c).

(** A user process may create kernel-privileged threads and processes only
    with the grant for it. *)
Definition create_permitted (c : proc_thread_ctrl_config) : M kernel bool :=
  proc ← get_current_process;
  if proc =? 0 then mret true else
  p ← get_pcb proc;
  if decide (p_priv p = PROC_PRIV_KERNEL) then mret true else
  thread_ok ←
    (if (pc_cmd c =? THREAD_CTRL_CREATE) && (pc_priv c =? TASK_PRIV_KERNEL) then
       r ← cap_check proc CAP_CREATE_KRNL_THREAD (Some 1); mret (r =? 0)
     else mret true);
  if negb thread_ok then mret false else
  if (pc_cmd c =? PROC_CTRL_CREATE) && (pc_priv c =? TASK_PRIV_KERNEL) then
    r ← cap_check proc CAP_CREATE_KRNL_PROC (Some 1); mret (r =? 0)
  else mret true.

Definition proc_syscall_isr (data : option proc_thread_ctrl_config)
    : M kernel (Z * option proc_thread_ctrl_config) :=
  match data with
  | None => mret (E_INVAL, None)
  | Some c =>
      ok ← create_permitted c;
      if ok : bool then r ← proc_syscall_exec c; mret (r.1, Some r.2)
      else mret (E_PERM, Some c)
  end.

Definition thread_create (priv entry param : Z) : M kernel Z :=
  r ← proc_call proc_load_from_elf_internal (mk_ptc THREAD_CTRL_CREATE 0 0 priv entry 0 0 param);
  mret (if r.1 =? 0 then pc_tid r.2 else r.1).
Definition thread_exit (tid : Z) : M kernel unit :=
  proc_call proc_load_from_elf_internal (ptc THREAD_CTRL_DELETE 0 tid);; mret tt.
Definition proc_create (priv : proc_priv) (entry param : Z) : M kernel Z :=
  proc_create_with proc_load_from_elf_internal priv entry param.
Definition proc_exit (pid : Z) : M kernel unit := proc_exit_with proc_load_from_elf_internal pid.
Definition proc_load_from_elf (elf_start elf_end param : Z) : M kernel Z :=
  r ← proc_call proc_load_from_elf_internal
        (mk_ptc PROC_CTRL_LOAD_FROM_ELF 0 0 1 0 elf_start elf_end param);
  mret (if r.1 =? 0 then pc_pid r.2 else r.1).

(** The wrappers of the thread API are the commands. *)
Lemma thread_block_is_command tid k :
  thread_block tid k
  = (proc_call proc_load_from_elf_internal (ptc THREAD_CTRL_BLOCK 0 tid);; mret tt) k.
Proof.
  unfold thread_block, proc_call. rewrite bind_assoc. unfold mbind, M_bind.
  destruct (may_run_direct k) as [[|] k1| |]; [|done..]. simpl.
  destruct (exec_current k1) as [cur k2| |]; [|done..]. unfold proc_command. simpl.
  unfold mbind, M_bind. by destruct (thread_block_internal tid k2) as [[] k3| |].
Qed.

(** ** Theorems *)

Definition privileged_create (c : proc_thread_ctrl_config) (cmd : Z) : Prop :=
  pc_cmd c = cmd ∧ pc_priv c = TASK_PRIV_KERNEL.

Lemma get_current_process_run k x :
  thread_run k ≠ 0 → tcbs k !! thread_run k = Some x → get_current_process k = Ret (t_parent x) k.
Proof.
  intros Hr Hx. unfold get_current_process. rewrite (bind_Ret _ _ _ (thread_run k) k) by done.
  by rewrite (proj2 (Z.eqb_neq _ _) Hr), (bind_Ret _ _ _ x k) by (by apply deref_Some).
Qed.

(** a user process creates kernel-privileged threads and processes only with
    the grant for it: without CAP_CREATE_KRNL_THREAD or CAP_CREATE_KRNL_PROC
    the request is refused with E_PERM and the kernel is unchanged; with the
    grant, and for every other request, the command is executed. *)
Theorem proc_isr_guards_privilege k x y l c :
  thread_run k ≠ 0 → tcbs k !! thread_run k = Some x → cap_holder k (t_parent x) y l →
  p_priv y = PROC_PRIV_USER → caps_u32 (p_caps y) →
  let granted ty := ∃ v : cap_member ty, held ty v (p_caps y) ∧ covers ty v v in
  ((privileged_create c THREAD_CTRL_CREATE ∧ ¬ granted CAP_CREATE_KRNL_THREAD ∨
    privileged_create c PROC_CTRL_CREATE ∧ ¬ granted CAP_CREATE_KRNL_PROC) →
   proc_syscall_isr (Some c) k = Ret (E_PERM, Some c) k) ∧
  ((privileged_create c THREAD_CTRL_CREATE → granted CAP_CREATE_KRNL_THREAD) →
   (privileged_create c PROC_CTRL_CREATE → granted CAP_CREATE_KRNL_PROC) →
   proc_syscall_isr (Some c) k = (r ← proc_syscall_exec c; mret (r.1, Some r.2)) k).
Proof.
  intros Hr Hx Hh Hp Hu granted.
  destruct (cap_check_answer k _ y l CAP_CREATE_KRNL_THREAD 1 Hh Hu I) as (rt & Ht & _ & Et).
  destruct (cap_check_answer k _ y l CAP_CREATE_KRNL_PROC 1 Hh Hu I) as (rp & Hpr & _ & Ep).
  change (rt = 0 ↔ granted CAP_CREATE_KRNL_THREAD) in Et.
  change (rp = 0 ↔ granted CAP_CREATE_KRNL_PROC) in Ep.
  set (is_t := (pc_cmd c =? THREAD_CTRL_CREATE) && (pc_priv c =? TASK_PRIV_KERNEL)).
  set (is_p := (pc_cmd c =? PROC_CTRL_CREATE) && (pc_priv c =? TASK_PRIV_KERNEL)).
  assert (create_permitted c k
    = Ret ((if is_t then rt =? 0 else true) && (if is_p then rp =? 0 else true)) k) as Hperm.
  { unfold create_permitted. rewrite (bind_Ret _ _ _ _ _ (get_current_process_run k x Hr Hx)).
    rewrite (proj2 (Z.eqb_neq _ _) (ch_nz _ _ _ _ Hh)).
    rewrite (bind_Ret _ _ _ y k), decide_False by (congruence || apply deref_Some, Hh).
    fold is_t is_p. rewrite (bind_Ret _ _ _ (if is_t then rt =? 0 else true) k).
    2: { destruct is_t; [by rewrite (bind_Ret _ _ _ _ _ Ht)|done]. }
    destruct (if is_t then rt =? 0 else true); cbn [negb andb]; [|done].
    destruct is_p; [by rewrite (bind_Ret _ _ _ _ _ Hpr)|done]. }
  assert (is_t = true ↔ privileged_create c THREAD_CTRL_CREATE) as Hit
    by (unfold is_t, privileged_create; rewrite andb_true_iff, !Z.eqb_eq; done).
  assert (is_p = true ↔ privileged_create c PROC_CTRL_CREATE) as Hip
    by (unfold is_p, privileged_create; rewrite andb_true_iff, !Z.eqb_eq; done).
  unfold proc_syscall_isr. rewrite (bind_Ret _ _ _ _ _ Hperm). split.
  - intros [[Hc Hn]|[Hc Hn]].
    + apply Hit in Hc as ->. rewrite <- Et in Hn. by rewrite (proj2 (Z.eqb_neq _ _) Hn).
    + apply Hip in Hc as ->. rewrite <- Ep in Hn. rewrite (proj2 (Z.eqb_neq _ _) Hn).
      by rewrite andb_false_r.
  - intros Hgt Hgp.
    replace (_ && _) with true; [done|]. symmetry. apply andb_true_iff. split.
    + destruct is_t; [|done]. apply Z.eqb_eq, Et, Hgt. by apply Hit.
    + destruct is_p; [|done]. apply Z.eqb_eq, Ep, Hgp. by apply Hip.
Qed.

(** ** Creating a thread *)

Lemma kzoom_run {B} (m : M A B) k b h : m (k_heap k) = Ret b h → kzoom m k = Ret b (set_k_heap h k).
Proof. apply (zoom_Ret (Contains0 := kernel_heap)). Qed.
Lemma vzoom_run {B} (m : M W B) k b w : m (k_vm k) = Ret b w → vzoom m k = Ret b (set_k_vm w k).
Proof. apply (zoom_Ret (Contains0 := kernel_vm)). Qed.

(** What only the heap and the address spaces distinguish. *)
Definition with_mem (h : A) (w : W) k : kernel := set_k_vm w (set_k_heap h k).

Lemma with_mem_id k : with_mem (k_heap k) (k_vm k) k = k.
Proof. by destruct k. Qed.

(** The heap block a context owns: the stack of a kernel thread. *)
Definition ctx_owned (x : arch_task_context) : gset Z :=
  if ctx_ring x =? 0 then {[ctx_stack x]} else ∅.

(** The stack of a new context, and that giving it back restores the address
    spaces [w0]. *)
Definition stack_ready (w0 w : W) (parent : Z) (x : arch_task_context) : Prop :=
  ctx_stack x ≠ 0 ∧
  if ctx_ring x =? 0 then vm_same w0 w
  else vm_stack w parent (ctx_stack x) ∧ ∃ w2, vmm_free_pages parent (ctx_stack x) w = Ret tt w2 ∧ vm_same w0 w2.

Lemma context_init_run k L parent entry priv :
  owns (k_heap k) L → vm_ok (k_vm k) → parent ≠ 0 → vm_has (k_vm k) parent →
  ∃ e x h w, arch_task_context_init parent entry priv k = Ret (e, x) (with_mem h w k) ∧
    vm_ok w ∧ vm_current w = vm_current (k_vm k) ∧ (∀ u, vm_has (k_vm k) u → vm_has w u) ∧
    (e ≠ 0 ∧ owns h L ∧ vm_same (k_vm k) w ∨
     e = 0 ∧ stack_ready (k_vm k) w parent x ∧ ctx_owned x ## L ∧ owns h (ctx_owned x ∪ L)).
Proof.
  intros Ho Hv Hp Hh. unfold arch_task_context_init. rewrite (proj2 (Z.eqb_neq _ _) Hp).
  destruct (priv =? TASK_PRIV_KERNEL); cbn [negb Z.eqb].
  - destruct (kmalloc_ok (k_heap k) L 4096 Ho) as [(h & Hm & Ho')|(a & h & Hm & Ha & HaL & Ho')]; [done|..].
    + rewrite (bind_Ret _ _ _ _ _ (kzoom_run _ _ _ _ Hm)). eexists _, _, h, (k_vm k).
      split; [unfold with_mem; cbn; by destruct k|]. split_and!; [done..|left]. split_and!; [done|done|by apply vm_same_refl].
    + rewrite (bind_Ret _ _ _ _ _ (kzoom_run _ _ _ _ Hm)).
      rewrite (proj2 (Z.eqb_neq a 0)) by lia. rewrite (bind_Ret _ _ _ a (set_k_heap h k)) by done.
      rewrite (proj2 (Z.eqb_neq a 0)) by lia. eexists _, _, h, (k_vm k).
      split; [unfold with_mem; cbn; by destruct k|]. split_and!; [done..|right].
      unfold ctx_owned, stack_ready. simpl. split_and!; [done|lia|by apply vm_same_refl|set_solver|done].
  - destruct (vmm_alloc_ok (k_vm k) parent Hv Hh) as (a & w & Hm & Hv' & Hc & Hk & H0 & Hst).
    rewrite (bind_Ret _ _ _ _ _ (vzoom_run _ _ _ _ Hm)).
    destruct (Z.eqb_spec a 0) as [->|Ha].
    { eexists _, _, (k_heap k), w. split; [unfold with_mem; cbn; by destruct k|].
      split_and!; [done..|left]. split_and!; [done|done|by apply H0]. }
    destruct (Hst Ha) as (Hsa & w2 & Hf & Hsm). destruct (vmm_translate_ok w parent a Hv' Hsa) as (pa & Ht).
    rewrite (bind_Ret _ _ _ _ _ (vzoom_run _ (set_k_vm w k) _ _ Ht)).
    destruct (Z.eqb_spec pa 0) as [->|Hpa].
    + destruct (vmm_free_ok w parent a Hv' Hsa) as (w2' & Hf' & Hv2 & Hc2 & Hk2). rewrite Hf in Hf'. injection Hf' as <-.
      rewrite (bind_Ret _ _ _ _ _ (vzoom_run _ (set_k_vm w (set_k_vm w k)) _ _ Hf)).
      eexists _, _, (k_heap k), w2. split; [unfold with_mem; cbn; by destruct k|].
      split_and!; [done|congruence|by intros u Hu%Hk%Hk2|left]. done.
    + eexists _, _, (k_heap k), w. split; [unfold with_mem; cbn; by destruct k|].
      split_and!; [done..|right]. unfold ctx_owned, stack_ready. simpl.
      split_and!; [done|done|done|by exists w2|set_solver|by rewrite union_empty_l_L].
Qed.

Lemma context_release_run k L w0 parent x :
  owns (k_heap k) (ctx_owned x ∪ L) → ctx_owned x ## L → vm_ok (k_vm k) → parent ≠ 0 → stack_ready w0 (k_vm k) parent x →
  ∃ h w, arch_task_context_release parent x k = Ret zero_context (with_mem h w k) ∧
    vm_ok w ∧ vm_current w = vm_current (k_vm k) ∧ (∀ u, vm_has (k_vm k) u → vm_has w u) ∧ owns h L ∧ vm_same w0 w.
Proof.
  intros Ho Hd Hv Hp [Hs Hst]. unfold arch_task_context_release, ctx_owned in *.
  rewrite (proj2 (Z.eqb_neq _ _) Hp), (proj2 (Z.eqb_neq _ _) Hs).
  destruct (Z.eqb_spec (ctx_ring x) 0) as [Hr|Hr]; cbn [negb].
  - destruct (kfree_ok _ _ (ctx_stack x) Ho) as (h & Hf & Ho'); [set_solver|].
    rewrite (bind_Ret _ _ _ _ _ (kzoom_run _ _ _ _ Hf)). exists h, (k_vm k).
    split; [unfold with_mem; cbn; by destruct k|]. split_and!; [done..| |done].
    by replace L with (({[ctx_stack x]} ∪ L) ∖ {[ctx_stack x]}) by set_solver.
  - destruct Hst as (Hsa & w & Hf & Hsm). destruct (vmm_free_ok (k_vm k) parent (ctx_stack x) Hv Hsa) as (w' & Hf' & Hv' & Hc & Hk).
    rewrite Hf in Hf'. injection Hf' as <-.
    rewrite (bind_Ret _ _ _ _ _ (vzoom_run _ _ _ _ Hf)). exists (k_heap k), w.
    split; [unfold with_mem; cbn; by destruct k|]. split_and!; [done..| |done].
    by rewrite union_empty_l_L in Ho.
Qed.

Lemma sched_ok_with_mem h w k s : sched_ok k s → sched_ok (with_mem h w k) s.
Proof. intros []. by split. Qed.

(** Linking the new thread, with another one running. *)
Definition linked (t parent : Z) (st : thread_state) k : kernel :=
  upd t (tcb_state st) (set_thread_head (t :: thread_head k)
    (set_pcbs (alter (λ p, pcb_tcbs (t :: p_tcbs p) p) parent (pcbs k)) k)).

Lemma upd_pcb_run p f k c : pcbs k !! p = Some c →
  upd_pcb p f k = Ret tt (set_pcbs (alter f p (pcbs k)) k).
Proof.
  intros H. unfold upd_pcb. rewrite (bind_Ret _ _ _ c k) by (by apply deref_Some).
  unfold modify. do 2 f_equal. apply map_eq. intros i.
  destruct (decide (i = p)) as [->|]; [by rewrite lookup_alter_eq, lookup_insert_eq, H|].
  by rewrite lookup_alter_ne, lookup_insert_ne.
Qed.

Lemma link_thread_run k s t parent p lp st c :
  sched_ok k s → pcbs k !! parent = Some p → p_sp_lock p = Some lp →
  (k_mach k).2 !! lp = Some LOCK_UNLOCKED → lp ≠ s → tcbs k !! t = Some c →
  link_thread t parent st k = Ret tt (linked t parent st k).
Proof.
  intros Hok Hp Hl Hu Hne Hc. unfold link_thread.
  set (kp := set_pcbs (alter (λ p, pcb_tcbs (t :: p_tcbs p) p) parent (pcbs k)) k).
  etrans; [eapply (sched_section_run k s) with (k1 := linked t parent st (hold_irq s k)); [done| |done]|].
  - rewrite (bind_Ret _ _ _ p (hold_irq s k)), Hl by (by apply deref_Some).
    rewrite (bind_Ret _ _ _ tt (hold_irq s kp)).
    2: { etrans; [eapply (locked_section_run lp (hold_irq s k)) with (k1 := hold lp (hold_irq s kp));
           [simpl; by rewrite list_lookup_insert_ne| |done]|].
         - by rewrite (upd_pcb_run parent _ (hold lp (hold_irq s k)) p Hp).
         - unfold hold. rewrite set_mach_mach. by rewrite set_mach_id. }
    rewrite (bind_Ret _ _ _ tt (set_thread_head (t :: thread_head k) (hold_irq s kp))) by done.
    rewrite (bind_Ret _ _ _ _ _ (upd_tcb_run t _ (set_thread_head (t :: thread_head k) (hold_irq s kp)) c Hc)).
    unfold run_first. erewrite bind_Ret by reflexivity.
    change (thread_run (upd _ _ _)) with (thread_run k).
    by rewrite (proj2 (Z.eqb_neq _ _) (run_nonzero _ _ Hok)).
  - reflexivity.
Qed.

Lemma sched_ok_linked k s t parent st c j :
  sched_ok k s → tcbs k !! t = Some c → t ≠ 0 → t ∉ thread_head k →
  t_sp_lock c = Some j → (k_mach k).2 !! j = Some LOCK_UNLOCKED →
  (∀ u d, u ∈ thread_head k → tcbs k !! u = Some d → t_tid d ≠ t_tid c) →
  sched_ok (linked t parent st k) s.
Proof.
  intros [H1 H2 H3 H4 H5 H6 H7] Hc Hnz Hnin Hj Hu Hfresh. unfold linked. apply sched_ok_upd; [done|].
  assert (thread_free k t) as Hf by (by exists c, j).
  split; try done.
  - intros u. simpl. rewrite elem_of_cons. intros [->|Hu']; [by split|by apply H4].
  - simpl. by apply NoDup_cons.
  - simpl. by right.
  - intros u v d e. simpl. rewrite !elem_of_cons. intros [->|Hu'] [->|Hv'] Hd He E; simplify_eq; [done|..].
    + exfalso. by apply (Hfresh v e).
    + exfalso. by apply (Hfresh u d).
    + by apply (H7 u v d e).
Qed.

Lemma alloc_mailbox_run k L pid tid :
  owns (k_heap k) L →
  ∃ mb k', alloc_mailbox pid tid k = Ret mb k' ∧ thread_head k' = thread_head k ∧
    tcbs k' = tcbs k ∧ pcbs k' = pcbs k ∧ thread_run k' = thread_run k ∧ k_vm k' = k_vm k ∧
    curr_task_ctx k' = curr_task_ctx k ∧ (∀ s, sched_ok k s → sched_ok k' s).
Proof.
  intros Ho. unfold alloc_mailbox.
  destruct (kmalloc_ok (k_heap k) L sizeof_mailbox Ho) as [(h & Hm & Ho')|(a & h & Hm & Ha & HaL & Ho')];
    [done|..]; rewrite (bind_Ret _ _ _ _ _ (kzoom_run _ _ _ _ Hm)).
  { eexists _, _. split_and!; [done..|]. intros s []. by split. }
  rewrite (proj2 (Z.eqb_neq a 0)) by lia.
  destruct (alloc_lock_run (set_k_heap h k)) as [Hn|(i & Hi & Hinv)].
  - rewrite (bind_Ret _ _ _ _ _ Hn). destruct (kfree_ok h _ a Ho') as (h2 & Hf & _); [set_solver|].
    rewrite (bind_Ret _ _ _ _ _ (kzoom_run _ (set_k_heap h k) _ _ Hf)).
    eexists _, _. split_and!; [done..|]. intros s []. by split.
  - rewrite (bind_Ret _ _ _ _ _ Hi). eexists _, _. split; [reflexivity|]. split_and!; [done..|].
    intros s Hok. destruct (sched_ok_with_lock i (set_k_heap h k) s Hinv) as [];
      [destruct Hok; by split|]. by split.
Qed.

(** What the new thread looks like. *)
Record created k' (s : nat) (parent : Z) (p : pcb) (t tid param : Z) (st : thread_state) (ts : list Z) : Prop := {
  cr_head : thread_head k' = t :: ts;
  cr_proc : pcbs k' !! parent = Some (pcb_tcbs (t :: p_tcbs p) p);
  cr_tcb : ∃ c, tcbs k' !! t = Some c ∧ t_state c = st ∧ t_tid c = tid ∧ t_parent c = parent ∧
    t_param c = param;
  cr_sched : sched_ok k' s;
}.

Lemma sched_ok_new_tcb k s t c j :
  sched_ok k s → t ∉ thread_head k → t_sp_lock c = Some j → j ≠ s →
  sched_ok (set_tcbs (<[t := c]> (tcbs k)) k) s.
Proof.
  intros [H1 H2 H3 H4 H5 H6 H7] Hnin Hj Hne.
  assert (∀ u, u ∈ thread_head k → (<[t := c]> (tcbs k)) !! u = tcbs k !! u) as Hsame.
  { intros u Hin. rewrite lookup_insert_ne; [done|]. by intros ->. }
  split; try done.
  - intros u d. simpl. rewrite lookup_insert_Some. intros [[<- <-]|[_ Hd']]; [congruence|by apply (H3 u)].
  - intros u Hin. destruct (H4 u Hin) as [Hnz (d & i & Hd' & Hi & Hui)]. split; [done|].
    exists d, i. simpl. by rewrite Hsame.
  - intros u v d e Hin Hin'. simpl. rewrite !Hsame by done. by apply H7.
Qed.

Lemma install_thread_run k s L t parent p lp x i param st :
  sched_ok k s → owns (k_heap k) L → pcbs k !! parent = Some p → p_sp_lock p = Some lp →
  (k_mach k).2 !! lp = Some LOCK_UNLOCKED → lp ≠ s → t ≠ 0 → t ∉ thread_head k →
  (k_mach k).2 !! i = Some LOCK_UNLOCKED → i ≠ s →
  (∀ u d, u ∈ thread_head k → tcbs k !! u = Some d → t_tid d ≠ i32 (next_tid k)) →
  ∃ k', install_thread t parent x (Some i) param st k = Ret (i32 (next_tid k)) k' ∧
    k_vm k' = k_vm k ∧ thread_run k' = thread_run k ∧
    created k' s parent p t (i32 (next_tid k)) param st (thread_head k).
Proof.
  intros Hok Ho Hp Hlp Hu Hne Ht Hnin Hi His Hfresh. unfold install_thread.
  set (tid := next_tid k). set (c := mk_tcb x 0 (i32 tid) TS_NULL false (Some i) parent param [] 0 0).
  rewrite (bind_Ret _ _ _ tid k) by done.
  rewrite (bind_Ret _ _ _ tt (set_next_tid (tid +u 1) k)) by done.
  set (k1 := set_tcbs (<[t := c]> (tcbs k)) (set_next_tid (tid +u 1) k)).
  rewrite (bind_Ret _ _ _ tt k1) by done.
  assert (sched_ok k1 s) as Hok1.
  { apply (sched_ok_new_tcb (set_next_tid (tid +u 1) k) s t c i); [destruct Hok; by split|done..]. }
  rewrite (bind_Ret _ _ _ _ _ (link_thread_run k1 s t parent p lp st c Hok1 Hp Hlp Hu Hne
    (lookup_insert_eq _ _ _))).
  set (k2 := linked t parent st k1).
  assert (sched_ok k2 s) as Hok2.
  { apply (sched_ok_linked k1 s t parent st c i); [done|apply lookup_insert_eq|done|done|done|done|].
    intros u d Hin. simpl. rewrite lookup_insert_ne by (by intros ->). by apply Hfresh. }
  assert (pcbs k2 !! parent = Some (pcb_tcbs (t :: p_tcbs p) p)) as Hp2
    by (simpl; by rewrite lookup_alter_eq, Hp).
  rewrite (bind_Ret _ _ _ (pcb_tcbs (t :: p_tcbs p) p) k2) by (by apply deref_Some).
  destruct (alloc_mailbox_run k2 L (p_pid (pcb_tcbs (t :: p_tcbs p) p)) (i32 tid) Ho)
    as (mb & k3 & Hmb & E1 & E2 & E3 & E4 & E5 & _ & Hok3). rewrite (bind_Ret _ _ _ _ _ Hmb).
  assert (tcbs k3 !! t = Some (tcb_state st c)) as Hc3.
  { rewrite E2. change (tcbs k2) with (tcbs (upd t (tcb_state st) k1)).
    rewrite upd_lookup, decide_True by done. simpl. by rewrite lookup_insert_eq. }
  rewrite (bind_Ret _ _ _ _ _ (upd_tcb_run t _ k3 _ Hc3)).
  exists (upd t (tcb_mailbox mb) k3). split_and!; [done|exact E5|exact E4|]. split.
  - exact E1.
  - simpl. by rewrite E3.
  - exists (tcb_mailbox mb (tcb_state st c)). by rewrite upd_lookup, decide_True, Hc3.
  - apply sched_ok_upd; [done|]. by apply Hok3.
Qed.

(** *** The first thread of all *)

(** Before any thread was created. *)
Record before_first k (s : nat) : Prop := {
  bf_run : thread_run k = 0;
  bf_head : thread_head k = [];
  bf_lock : schedule_lock k = Some s;
  bf_unlocked : (k_mach k).2 !! s = Some LOCK_UNLOCKED;
  bf_distinct : ∀ t c, tcbs k !! t = Some c → t_sp_lock c ≠ Some s;
}.

(** The first thread is linked, made ready and switched to. *)
Definition started (t parent : Z) (st : thread_state) (c : tcb) (w : W) k : kernel :=
  let k1 := set_k_vm w (set_thread_run t (upd t (tcb_state TS_READY) (linked t parent st k))) in
  set_curr_task_ctx t (if ctx_ring (t_context c) =? 0 then k1 else set_tss_esp0 (ctx_regs (t_context c) +u sizeof_regs) k1).

Lemma link_first_run k s t parent p lp st c w :
  before_first k s → pcbs k !! parent = Some p → p_sp_lock p = Some lp →
  (k_mach k).2 !! lp = Some LOCK_UNLOCKED → lp ≠ s → tcbs k !! t = Some c → t ≠ 0 → vmm_switch parent (k_vm k) = Ret tt w →
  link_thread t parent st k = Ret tt (started t parent st c w k).
Proof.
  intros Hb Hp Hl Hu Hne Hc Ht Hsw. unfold link_thread, sched_section.
  rewrite (bind_Ret _ _ _ (Some s) k) by (unfold gets; by rewrite (bf_lock _ _ Hb)).
  set (kp := set_pcbs (alter (λ p, pcb_tcbs (t :: p_tcbs p) p) parent (pcbs k)) k).
  etrans; [eapply (irq_section_run s k) with (k1 := started t parent st c w (hold_irq s k)); [apply Hb| |]|].
  - rewrite (bind_Ret _ _ _ p (hold_irq s k)), Hl by (by apply deref_Some).
    rewrite (bind_Ret _ _ _ tt (hold_irq s kp)).
    2: { etrans; [eapply (locked_section_run lp (hold_irq s k)) with (k1 := hold lp (hold_irq s kp));
           [simpl; by rewrite list_lookup_insert_ne| |done]|].
         - by rewrite (upd_pcb_run parent _ (hold lp (hold_irq s k)) p Hp).
         - unfold hold. rewrite set_mach_mach. by rewrite set_mach_id. }
    rewrite (bind_Ret _ _ _ tt (set_thread_head (t :: thread_head k) (hold_irq s kp))) by done.
    rewrite (bind_Ret _ _ _ _ _ (upd_tcb_run t _ (set_thread_head (t :: thread_head k) (hold_irq s kp)) c Hc)).
    change (upd t (tcb_state st) (set_thread_head (t :: thread_head k) (hold_irq s kp))) with (linked t parent st (hold_irq s k)).
    set (k2 := linked t parent st (hold_irq s k)). assert (Hc2 : tcbs k2 !! t = Some (tcb_state st c)).
    { change (tcbs k2) with (tcbs (upd t (tcb_state st) k)). by rewrite upd_lookup, decide_True, Hc. }
    unfold run_first. rewrite (bind_Ret _ _ _ 0 k2) by (unfold gets; f_equal; apply Hb). cbn [negb Z.eqb].
    rewrite (bind_Ret _ _ _ _ _ (upd_tcb_run t _ k2 _ Hc2)). rewrite (bind_Ret (modify _) _ _ tt _ eq_refl).
    erewrite bind_Ret; [|apply vzoom_run; exact Hsw]. unfold arch_task_restore_context.
    rewrite (proj2 (Z.eqb_neq t 0) Ht), bind_assoc. erewrite bind_Ret.
    2: { apply (deref_Some (λ k, tcbs k !! t) _ (tcb_state TS_READY (tcb_state st c))).
         change (tcbs (upd t (tcb_state TS_READY) k2) !! t = Some (tcb_state TS_READY (tcb_state st c))).
         by rewrite upd_lookup, decide_True, Hc2. }
    cbn [tcb_state t_context]. unfold started. destruct (ctx_ring (t_context c) =? 0); done.
  - unfold started. by destruct (_ =? 0).
  - unfold started. by destruct k, (_ =? 0).
Qed.

Lemma started_ok k s t parent st c w j :
  before_first k s → tcbs k !! t = Some c → t ≠ 0 → t_sp_lock c = Some j → (k_mach k).2 !! j = Some LOCK_UNLOCKED →
  sched_ok (started t parent st c w k) s.
Proof.
  intros [H1 H2 H3 H4 H5] Hc Hnz Hj Hu.
  assert (sched_ok (set_thread_run t (set_thread_head [t] k)) s) as Hok.
  { split; try done.
    - intros u. cbn. intros ->%list_elem_of_singleton. split; [done|]. by exists c, j.
    - apply NoDup_singleton.
    - left.
    - intros u v d e. cbn. by intros ->%list_elem_of_singleton ->%list_elem_of_singleton. }
  assert (sched_ok (upd t (tcb_state TS_READY) (upd t (tcb_state st) (set_thread_run t (set_thread_head [t] k)))) s) as [].
  { by apply sched_ok_upd; [|apply sched_ok_upd]. }
  rewrite <- H2 in *. unfold started. by destruct (_ =? 0); split.
Qed.

Lemma install_first_run k s L t parent p lp x i param st :
  before_first k s → owns (k_heap k) L → vm_ok (k_vm k) → vm_has (k_vm k) parent → pcbs k !! parent = Some p → p_sp_lock p = Some lp →
  (k_mach k).2 !! lp = Some LOCK_UNLOCKED → lp ≠ s → t ≠ 0 → (k_mach k).2 !! i = Some LOCK_UNLOCKED → i ≠ s →
  ∃ k', install_thread t parent x (Some i) param st k = Ret (i32 (next_tid k)) k' ∧
    vm_ok (k_vm k') ∧ vm_current (k_vm k') = parent ∧ (∀ u, vm_has (k_vm k) u → vm_has (k_vm k') u) ∧
    thread_run k' = t ∧ curr_task_ctx k' = t ∧
    created k' s parent p t (i32 (next_tid k)) param TS_READY [].
Proof.
  intros Hb Ho Hv Hh Hp Hlp Hu Hne Ht Hi His. unfold install_thread.
  set (tid := next_tid k). set (c := mk_tcb x 0 (i32 tid) TS_NULL false (Some i) parent param [] 0 0).
  rewrite (bind_Ret _ _ _ tid k) by done.
  rewrite (bind_Ret _ _ _ tt (set_next_tid (tid +u 1) k)) by done.
  set (k1 := set_tcbs (<[t := c]> (tcbs k)) (set_next_tid (tid +u 1) k)).
  rewrite (bind_Ret _ _ _ tt k1) by done.
  assert (before_first k1 s) as Hb1.
  { destruct Hb as [B1 B2 B3 B4 B5]. split; try done. intros u d. cbn. intros [[<- <-]|[_ Hd]]%lookup_insert_Some; [cbn; congruence|by eapply B5]. }
  assert (Hc1 : tcbs k1 !! t = Some c) by apply lookup_insert_eq.
  destruct (vmm_switch_ok (k_vm k1) parent Hv Hh) as (w & Hsw & Hv' & Hcur & Hk).
  rewrite (bind_Ret _ _ _ _ _ (link_first_run k1 s t parent p lp st c w Hb1 Hp Hlp Hu Hne Hc1 Ht Hsw)).
  pose proof (started_ok k1 s t parent st c w i Hb1 Hc1 Ht eq_refl Hi) as Hok2.
  set (k2 := started t parent st c w k1) in *.
  assert (pcbs k2 !! parent = Some (pcb_tcbs (t :: p_tcbs p) p)) as Hp2.
  { transitivity (alter (λ p, pcb_tcbs (t :: p_tcbs p) p) parent (pcbs k) !! parent); [|by rewrite lookup_alter_eq, Hp].
    unfold k2, started. by destruct (_ =? 0). }
  assert (Hc2 : tcbs k2 !! t = Some (tcb_state TS_READY (tcb_state st c))).
  { transitivity (tcbs (upd t (tcb_state TS_READY) (upd t (tcb_state st) k1)) !! t); [unfold k2, started; by destruct (_ =? 0)|].
    by rewrite upd_lookup, decide_True, upd_lookup, decide_True, Hc1. }
  assert (thread_head k2 = [t] ∧ thread_run k2 = t ∧ curr_task_ctx k2 = t ∧ k_vm k2 = w ∧ k_heap k2 = k_heap k) as (Eh & Er & Ec & Ew & Ehp).
  { rewrite <- (bf_head _ _ Hb). unfold k2, started. by destruct (_ =? 0). }
  rewrite (bind_Ret _ _ _ (pcb_tcbs (t :: p_tcbs p) p) k2) by (by apply deref_Some).
  destruct (alloc_mailbox_run k2 L (p_pid (pcb_tcbs (t :: p_tcbs p) p)) (i32 tid))
    as (mb & k3 & Hmb & E1 & E2 & E3 & E4 & E5 & E6 & Hok3); [by rewrite Ehp|]. rewrite (bind_Ret _ _ _ _ _ Hmb).
  rewrite (bind_Ret _ _ _ _ _ (upd_tcb_run t _ k3 _ (eq_trans (f_equal (lookup t) E2) Hc2))).
  exists (upd t (tcb_mailbox mb) k3). change (k_vm (upd t (tcb_mailbox mb) k3)) with (k_vm k3). rewrite E5, Ew.
  split_and!; [done|done|done|done|exact (eq_trans E4 Er)|exact (eq_trans E6 Ec)|]. split.
  - exact (eq_trans E1 Eh).
  - simpl. by rewrite E3.
  - exists (tcb_mailbox mb (tcb_state TS_READY (tcb_state st c))). by rewrite upd_lookup, decide_True, E2, Hc2.
  - apply sched_ok_upd; [done|]. by apply Hok3.
Qed.

(** Both cases of the part that cannot fail. *)
Lemma install_run k s L t parent p lp x i param st :
  sched_ok k s ∨ before_first k s → owns (k_heap k) L → vm_ok (k_vm k) → vm_has (k_vm k) parent →
  pcbs k !! parent = Some p → p_sp_lock p = Some lp → (k_mach k).2 !! lp = Some LOCK_UNLOCKED → lp ≠ s → t ≠ 0 → t ∉ thread_head k →
  (k_mach k).2 !! i = Some LOCK_UNLOCKED → i ≠ s →
  (∀ u d, u ∈ thread_head k → tcbs k !! u = Some d → t_tid d ≠ i32 (next_tid k)) →
  ∃ k', install_thread t parent x (Some i) param st k = Ret (i32 (next_tid k)) k' ∧
    vm_ok (k_vm k') ∧ (∀ u, vm_has (k_vm k) u → vm_has (k_vm k') u) ∧
    (thread_run k ≠ 0 → thread_run k' = thread_run k ∧ vm_current (k_vm k') = vm_current (k_vm k) ∧
       created k' s parent p t (i32 (next_tid k)) param st (thread_head k)) ∧
    (thread_run k = 0 → thread_run k' = t ∧ curr_task_ctx k' = t ∧ vm_current (k_vm k') = parent ∧
       created k' s parent p t (i32 (next_tid k)) param TS_READY []).
Proof.
  intros [Hok|Hb] Ho Hv Hh Hp Hlp Hu Hne Ht Hnin Hi His Hfresh.
  - destruct (install_thread_run k s L t parent p lp x i param st) as (k' & Hr & Ev & Er & Hcr); try done.
    exists k'. rewrite Ev. split_and!; try done. intros H0. by destruct (run_nonzero _ _ Hok).
  - destruct (install_first_run k s L t parent p lp x i param st) as (k' & Hr & Hv2 & Hc2 & Hk2 & Er & Ec & Hcr); try done.
    exists k'. split_and!; try done. intros H0. by destruct H0; apply Hb.
Qed.

(** C24: creating a thread always returns, and is all or nothing.  Either it
    fails with an error code and everything it had taken is given back: the
    threads, the processes, the locks and the heap blocks in use are as before,
    and so are the frames, the kernel memory and the translations of every
    address space ([vm_same]: the page of a ring-3 stack is freed).  Or it
    returns the next tid, and a fresh control block heads the run list and its
    process's list, with that tid, and the scheduler's invariant holds.  While
    another thread runs, that thread goes on and the new one is in the
    requested state; the first thread of all is ready, running, and its
    address space is loaded. *)
Theorem thread_create_all_or_nothing k s L parent p lp priv entry param st :
  sched_ok k s ∨ before_first k s → owns (k_heap k) L → vm_ok (k_vm k) → vm_has (k_vm k) parent → parent ≠ 0 →
  pcbs k !! parent = Some p → p_sp_lock p = Some lp → (k_mach k).2 !! lp = Some LOCK_UNLOCKED →
  lp ≠ s → (∀ t, t ∈ thread_head k → t ∈ L) →
  (∀ t c, t ∈ thread_head k → tcbs k !! t = Some c → t_tid c ≠ i32 (next_tid k)) →
  ∃ r k', thread_create_ex_internal parent priv entry param st k = Ret r k' ∧
    vm_ok (k_vm k') ∧ (∀ u, vm_has (k_vm k) u → vm_has (k_vm k') u) ∧
    ((r = E_NOMEM ∨ r = E_THREAD_CREATE ∨ r = E_LIMIT) ∧ thread_head k' = thread_head k ∧ thread_run k' = thread_run k ∧
       tcbs k' = tcbs k ∧ pcbs k' = pcbs k ∧ k_mach k' = k_mach k ∧ owns (k_heap k') L ∧
       vm_same (k_vm k) (k_vm k') ∧ vm_current (k_vm k') = vm_current (k_vm k) ∨
     r = i32 (next_tid k) ∧ ∃ t, t ∉ L ∧
       (thread_run k ≠ 0 → thread_run k' = thread_run k ∧ vm_current (k_vm k') = vm_current (k_vm k) ∧
          created k' s parent p t r param st (thread_head k)) ∧
       (thread_run k = 0 → thread_run k' = t ∧ curr_task_ctx k' = t ∧ vm_current (k_vm k') = parent ∧
          created k' s parent p t r param TS_READY [])).
Proof.
  intros Hok Ho Hv Hhas Hpnz Hp Hlp Hu Hne HL Hfresh. unfold thread_create_ex_internal.
  rewrite (proj2 (Z.eqb_neq _ _) Hpnz).
  destruct (kmalloc_ok (k_heap k) L sizeof_tcb Ho) as [(h & Hm & Ho')|(t & h & Hm & Ht & HtL & Ho')];
    [done|..]; rewrite (bind_Ret _ _ _ _ _ (kzoom_run _ _ _ _ Hm)).
  { eexists _, _. split; [done|]. split_and!; [done..|left]. split_and!; [auto|done..|by apply vm_same_refl|done]. }
  rewrite (proj2 (Z.eqb_neq t 0)) by lia.
  destruct (context_init_run (set_k_heap h k) _ parent entry priv Ho' Hv Hpnz Hhas)
    as (e & x & h1 & w1 & Hi & Hv1 & Hc1 & Hk1 & Hcase). rewrite (bind_Ret _ _ _ _ _ Hi). cbn [fst snd].
  destruct Hcase as [(He & Ho1 & Hsm)|(-> & Hst & Hd & Ho1)].
  { rewrite (proj2 (Z.eqb_neq _ _) He). cbn [negb].
    destruct (kfree_ok h1 _ t Ho1) as (h2 & Hf & Ho2); [set_solver|].
    rewrite (bind_Ret _ _ _ _ _ (kzoom_run _ (with_mem h1 w1 (set_k_heap h k)) _ _ Hf)).
    eexists _, _. split; [done|]. split_and!; [done..|left]. split_and!; [auto|done..| |done|done].
    simpl. by replace L with (({[t]} ∪ L) ∖ {[t]}) by set_solver. }
  cbn [negb Z.eqb]. set (k1 := with_mem h1 w1 (set_k_heap h k)).
  destruct (alloc_lock_run k1) as [Hn|(i & Hi1 & Hinv)].
  { rewrite (bind_Ret _ _ _ _ _ Hn).
    destruct (context_release_run k1 _ (k_vm k) parent x Ho1 Hd Hv1 Hpnz Hst) as (h2 & w2 & Hrel & Hv2 & Hc2 & Hk2 & Ho2 & Hsm).
    rewrite (bind_Ret _ _ _ _ _ Hrel).
    destruct (kfree_ok h2 _ t Ho2) as (h3 & Hf & Ho3); [set_solver|].
    rewrite (bind_Ret _ _ _ _ _ (kzoom_run _ (with_mem h2 w2 k1) _ _ Hf)).
    eexists _, _. split; [done|]. split_and!; [done|intros u Hin; exact (Hk2 u (Hk1 u Hin))|left].
    split_and!; [auto|done..| |done|exact (eq_trans Hc2 Hc1)]. simpl. by replace L with (({[t]} ∪ L) ∖ {[t]}) by set_solver. }
  rewrite (bind_Ret _ _ _ _ _ Hi1). cbv iota beta.
  assert ((k_mach k).2 !! s = Some LOCK_UNLOCKED) as Hus by (destruct Hok as [Hok|Hok]; apply Hok).
  assert (i ≠ s) as His by (intros ->; change ((k_mach k).2 !! s = Some LOCK_INVALID) in Hinv; congruence).
  assert (Hui : (k_mach (with_lock i k1)).2 !! i = Some LOCK_UNLOCKED) by (simpl; apply list_lookup_insert_eq; by eapply lookup_lt_Some).
  assert (Hulp : (k_mach (with_lock i k1)).2 !! lp = Some LOCK_UNLOCKED) by (by apply (with_lock_lookup i k1)).
  destruct (install_run (with_lock i k1) s (ctx_owned x ∪ ({[t]} ∪ L)) t parent p lp x i param st)
    as (k' & Hr & Hv2 & Hk2 & Hrun & Hfirst); try done.
  - destruct Hok as [Hok|[B1 B2 B3 B4 B5]]; [left|right; split; try done; by apply (with_lock_lookup i k1)].
    apply sched_ok_with_lock; [done|]. apply sched_ok_with_mem. destruct Hok; by split.
  - by apply Hk1.
  - lia.
  - intros Hin. by apply HtL, HL.
  - exists (i32 (next_tid k)), k'. split_and!; [exact Hr|exact Hv2|intros u Hu'; by apply Hk2, Hk1|right].
    split; [done|]. exists t. split_and!; [done| |exact Hfirst]. intros H0. destruct (Hrun H0) as (H1 & H2 & H3).
    split_and!; [exact H1|exact (eq_trans H2 Hc1)|exact H3].
Qed.
End process.

(** ** Witnesses, on the threads and processes of [sched_demo] *)

Lemma proc_isr_guards_privilege_witness :
  proc_syscall_isr (Some (ptc THREAD_CTRL_CREATE 0 0)) (set_thread_run 20 sched_demo)
  = Ret (E_PERM, Some (ptc THREAD_CTRL_CREATE 0 0)) (set_thread_run 20 sched_demo).
Proof.
  apply (proc_isr_guards_privilege (set_thread_run 20 sched_demo) (demo_tcb 2 2 2 TS_READY)
    (mk_pcb 2 PS_READY PROC_PRIV_USER [30; 20] 0 (Some 6%nat) [] (Some 7%nat)) 7
    (ptc THREAD_CTRL_CREATE 0 0)); try (reflexivity || discriminate).
  - split; [discriminate|reflexivity|reflexivity|reflexivity].
  - intros ty v (x & Hx). apply elem_of_nil in Hx. destruct Hx.
  - left. split; [split; reflexivity|]. intros (v & (x & Hx) & _). apply elem_of_nil in Hx. destruct Hx.
Defined.

(** The same threads over heaps that are only sets of addresses. *)
Definition spawn_demo : kernel (gset Z) (gset Z) Z :=
  set_next_tid 4 (set_schedule_lock (Some 0%nat) (set_thread_run 10 (set_thread_head [10]
    (set_tcbs {[10 := demo_tcb 1 1 1 TS_READY]} (set_proc_head [1] (set_pcbs {[
       1 := mk_pcb 1 PS_READY PROC_PRIV_KERNEL [10] 0 (Some 4%nat) [] (Some 5%nat)]}
      (boot_kernel (mk_cpu 512 false, replicate 8 LOCK_UNLOCKED ++ replicate 4 LOCK_INVALID)
         {[10]} ∅ 1))))))).

Lemma spawn_demo_ok : sched_ok spawn_demo 0.
Proof.
  split; try reflexivity.
  - intros t c. cbn. intros [<- <-]%lookup_singleton_Some. discriminate.
  - intros t. cbn. intros ->%list_elem_of_singleton. split; [discriminate|].
    exists (demo_tcb 1 1 1 TS_READY), 1%nat. split_and!; reflexivity.
  - apply NoDup_singleton.
  - left.
  - intros t t' c c'. cbn. intros ->%list_elem_of_singleton ->%list_elem_of_singleton _ _ _. reflexivity.
Qed.

Example spawn_demo_creates :
  match thread_create_ex_internal 1 TASK_PRIV_USER 4096 0 TS_PENDING spawn_demo with
  | Ret r k => r = 4 ∧ thread_head k = [4096; 10]
  | _ => False
  end.
Proof. vm_compute. split; reflexivity. Qed.

(** The first thread of all. *)
Definition first_demo : kernel (gset Z) (gset Z) Z :=
  set_schedule_lock (Some 0%nat) (set_proc_head [1] (set_pcbs {[
       1 := mk_pcb 1 PS_READY PROC_PRIV_KERNEL [] 0 (Some 4%nat) [] (Some 5%nat)]}
      (boot_kernel (mk_cpu 512 false, replicate 8 LOCK_UNLOCKED ++ replicate 4 LOCK_INVALID) ∅ ∅ 0))).
Example first_demo_runs :
  match thread_create_ex_internal 1 TASK_PRIV_USER 4096 0 TS_PENDING first_demo with
  | Ret r k => r = 0 ∧ thread_run k = 4096 ∧ k_vm k = 1
  | _ => False
  end.
Proof. vm_compute. done. Qed.

(** Over the address space of vmm.c, when no lock is left for the thread. *)
Definition crowded_demo : kernel (gset Z) (gset Z) (vm (gset Z)) :=
  set_next_tid 4 (set_schedule_lock (Some 0%nat) (set_thread_run 10 (set_thread_head [10]
    (set_tcbs {[10 := demo_tcb 1 64 1 TS_READY]} (set_proc_head [64] (set_pcbs {[
       64 := mk_pcb 1 PS_READY PROC_PRIV_USER [10] 0 (Some 4%nat) [] (Some 5%nat)]}
      (boot_kernel (mk_cpu 512 false, replicate 8 LOCK_UNLOCKED) {[10]} ∅ demo_vm))))))).

Lemma crowded_demo_ok : sched_ok crowded_demo 0.
Proof.
  split; try reflexivity.
  - intros t c. cbn. intros [<- <-]%lookup_singleton_Some. discriminate.
  - intros t. cbn. intros ->%list_elem_of_singleton. split; [discriminate|].
    exists (demo_tcb 1 64 1 TS_READY), 1%nat. split_and!; reflexivity.
  - apply NoDup_singleton.
  - left.
  - intros t t' c c'. cbn. intros ->%list_elem_of_singleton ->%list_elem_of_singleton _ _ _. reflexivity.
Qed.

Example crowded_demo_fails :
  match thread_create_ex_internal 64 TASK_PRIV_USER 4096 0 TS_PENDING crowded_demo with
  | Ret r _ => r =? E_LIMIT
  | _ => false
  end = true.
Proof. vm_compute. reflexivity. Qed.

Lemma thread_create_all_or_nothing_witness :
  ∃ k', thread_create_ex_internal 64 TASK_PRIV_USER 4096 0 TS_PENDING crowded_demo = Ret E_LIMIT k' ∧
    owns (k_heap k') {[10]} ∧ same_memory demo_vm (k_vm k').
Proof.
  destruct (thread_create_all_or_nothing crowded_demo 0 {[10]} 64
    (mk_pcb 1 PS_READY PROC_PRIV_USER [10] 0 (Some 4%nat) [] (Some 5%nat)) 4 TASK_PRIV_USER 4096 0
    TS_PENDING (or_introl crowded_demo_ok)) as (r & k' & H & _ & _ & Hcase).
  - split; [reflexivity|set_solver].
  - exists {[4096; 8192]}, {[64 := (demo_vcb, [], [])]}. exact demo_family.
  - exists demo_vcb. split; [reflexivity|discriminate].
  - discriminate.
  - reflexivity.
  - reflexivity.
  - reflexivity.
  - discriminate.
  - intros t. cbn. intros ->%list_elem_of_singleton. set_solver.
  - intros t c. cbn. intros _ [<- <-]%lookup_singleton_Some. discriminate.
  - pose proof crowded_demo_fails as E. rewrite H in E. apply Z.eqb_eq in E. subst r.
    exists k'. split; [exact H|]. destruct Hcase as [(_ & _ & _ & _ & _ & _ & Ho & Hsm & _)|[Hr _]].
    + split; [exact Ho|exact Hsm].
    + discriminate Hr.
Defined.
