(* ===== verification/Descriptors.v ===== *)
(** * Descriptor tables (arch/i386/protm.c, the tables of arch/i386/irq.c and
      of arch/i386/task.c)

    The global and the interrupt descriptor table as the boot code fills them,
    the task state segment, the local table of a thread, and how the processor
    reads the entries.  The addresses the linker fixes are parameters. *)

From stdpp Require Import base tactics list.
From Stdlib Require Import ZArith Lia.
From S2P Require Import Prelude Spinlock Allocator KState Sched Irq Process.

Open Scope Z_scope.

Definition u64 (x : Z) : Z := x mod 18446744073709551616.

(** ** Data *)

Definition GDT_MAX_COUNT : Z := 255.
Definition SELTYPE_START : Z := 1.
Definition SYS_CODE : Z := 1.
Definition SYS_DATA : Z := 2.
Definition USER_CODE : Z := 3.
Definition USER_DATA : Z := 4.
Definition TSS : Z := 5.
Definition LDT : Z := 6.
Definition SELTYPE_END : Z := 6.

Definition SEG_DESCTYPE (x : Z) : Z := Z.shiftl x 4.
Definition SEG_PRES (x : Z) : Z := Z.shiftl x 7.
Definition SEG_SAVL (x : Z) : Z := Z.shiftl x 12.
Definition SEG_LONG (x : Z) : Z := Z.shiftl x 13.
Definition SEG_SIZE (x : Z) : Z := Z.shiftl x 14.
Definition SEG_GRAN (x : Z) : Z := Z.shiftl x 15.
Definition SEG_PRIV (x : Z) : Z := Z.shiftl (Z.land x 3) 5.
Definition SEG_DATA_RDWR : Z := 2.
Definition SEG_CODE_EXRD : Z := 10.

Definition gdt_flags (pl kind : Z) : Z :=
  Z.lor (Z.lor (Z.lor (Z.lor (Z.lor (Z.lor (Z.lor (SEG_DESCTYPE 1) (SEG_PRES 1)) (SEG_SAVL 0))
    (SEG_LONG 0)) (SEG_SIZE 1)) (SEG_GRAN 1)) (SEG_PRIV pl)) kind.
Definition GDT_CODE_PL0 : Z := gdt_flags 0 SEG_CODE_EXRD.
Definition GDT_DATA_PL0 : Z := gdt_flags 0 SEG_DATA_RDWR.
Definition GDT_CODE_PL3 : Z := gdt_flags 3 SEG_CODE_EXRD.
Definition GDT_DATA_PL3 : Z := gdt_flags 3 SEG_DATA_RDWR.

Record idesc := mk_idesc { isr_low : Z; sel_code : Z; id_reserved : Z; id_attrs : Z; isr_high : Z }.

(** What [lgdt] and [lidt] load. *)
Record dtmeta := mk_dtmeta { dt_limit : Z; dt_base : Z }.

(** The fields of the task state segment the code sets. *)
Record tss := mk_tss { tss_ss0 : Z; tss_sp0 : Z; tss_iobase : Z }.
Definition sizeof_tss : Z := 104.

(** The tables and the registers that name them; [t_out] are the writes to
    ports, newest first. *)
Record tables := mk_tables {
  gdt : list Z;
  segsels : list Z;
  gdtr : option dtmeta;
  idt : list idesc;
  idtr : option dtmeta;
  g_tss : tss;
  task_reg : Z;
  ldt_reg : Z;
  cr0 : Z;
  int_flag : bool;
  t_out : list (Z * Z);
}.

Definition set_gdt g s : tables :=
  mk_tables g (segsels s) (gdtr s) (idt s) (idtr s) (g_tss s) (task_reg s) (ldt_reg s) (cr0 s) (int_flag s) (t_out s).
Definition set_segsels x s : tables :=
  mk_tables (gdt s) x (gdtr s) (idt s) (idtr s) (g_tss s) (task_reg s) (ldt_reg s) (cr0 s) (int_flag s) (t_out s).
Definition arch_reload_gdt m s : tables :=
  mk_tables (gdt s) (segsels s) (Some m) (idt s) (idtr s) (g_tss s) (task_reg s) (ldt_reg s) (cr0 s) (int_flag s) (t_out s).
Definition set_idt x s : tables :=
  mk_tables (gdt s) (segsels s) (gdtr s) x (idtr s) (g_tss s) (task_reg s) (ldt_reg s) (cr0 s) (int_flag s) (t_out s).
Definition arch_reload_idt m s : tables :=
  mk_tables (gdt s) (segsels s) (gdtr s) (idt s) (Some m) (g_tss s) (task_reg s) (ldt_reg s) (cr0 s) (int_flag s) (t_out s).
Definition set_g_tss x s : tables :=
  mk_tables (gdt s) (segsels s) (gdtr s) (idt s) (idtr s) x (task_reg s) (ldt_reg s) (cr0 s) (int_flag s) (t_out s).
Definition arch_reload_tss sel s : tables :=
  mk_tables (gdt s) (segsels s) (gdtr s) (idt s) (idtr s) (g_tss s) sel (ldt_reg s) (cr0 s) (int_flag s) (t_out s).
Definition arch_reload_ldt sel s : tables :=
  mk_tables (gdt s) (segsels s) (gdtr s) (idt s) (idtr s) (g_tss s) (task_reg s) sel (cr0 s) (int_flag s) (t_out s).
Definition set_cr0 x s : tables :=
  mk_tables (gdt s) (segsels s) (gdtr s) (idt s) (idtr s) (g_tss s) (task_reg s) (ldt_reg s) x (int_flag s) (t_out s).
Definition arch_cli s : tables :=
  mk_tables (gdt s) (segsels s) (gdtr s) (idt s) (idtr s) (g_tss s) (task_reg s) (ldt_reg s) (cr0 s) false (t_out s).
Definition arch_outb (port v : Z) s : tables :=
  mk_tables (gdt s) (segsels s) (gdtr s) (idt s) (idtr s) (g_tss s) (task_reg s) (ldt_reg s) (cr0 s) (int_flag s)
    ((port, v) :: t_out s).

Definition arch_set_cr0 (pos : Z) s : tables :=
  if 31 <? pos then s else set_cr0 (Z.lor (cr0 s) (Z.shiftl 1 pos)) s.
Definition arch_clr_cr0 (pos : Z) s : tables :=
  if 31 <? pos then s else set_cr0 (Z.land (cr0 s) (4294967295 - Z.shiftl 1 pos)) s.

(** ** Operations *)

Definition arch_gen_desc (base limit flags : Z) : Z :=
  let desc := Z.land limit 983040 in                                    (* 0x000f0000 *)
  let desc := Z.lor desc (Z.land (Z.shiftl flags 8) 15793920) in        (* 0x00f0ff00 *)
  let desc := Z.lor desc (Z.land (Z.shiftr base 16) 255) in
  let desc := Z.lor desc (Z.land base 4278190080) in                    (* 0xff000000 *)
  let desc := u64 (Z.shiftl desc 32) in
  let desc := Z.lor desc (u32 (Z.shiftl base 16)) in
  Z.lor desc (Z.land limit 65535).

(** The first free entry from [i] on; [n] entries are left. *)
Fixpoint add_seg_loop (n : nat) (i : Z) (desc : Z) : M tables Z :=
  match n with
  | O => mret 0
  | S n =>
      d ← deref (λ s, gdt s !! Z.to_nat i);
      if d =? 0 then
        modify (λ s, set_gdt (<[Z.to_nat i := desc]> (gdt s)) s);; mret (u16 (i * 8))
      else add_seg_loop n (i + 1) desc
  end.
Definition add_seg (base limit flags : Z) : M tables Z :=
  add_seg_loop (Z.to_nat (GDT_MAX_COUNT - 1)) 1 (arch_gen_desc base limit flags).

Definition put_segsel (i : nat) (v : Z) : M tables unit :=
  modify (λ s, set_segsels (<[i := v]> (segsels s)) s).

Section layout.
Context (gdt_addr idt_addr tss_addr hlt_handler arch_isr_tbl arch_syscall_entry : Z).

Definition prepare_protect_mode : M tables unit :=
  v ← add_seg 0 0 0; put_segsel 0 v;;
  v ← add_seg 0 1048575 GDT_CODE_PL0; put_segsel (Z.to_nat SYS_CODE) v;;
  v ← add_seg 0 1048575 GDT_DATA_PL0; put_segsel (Z.to_nat SYS_DATA) v;;
  v ← add_seg 0 1048575 GDT_CODE_PL3; put_segsel (Z.to_nat USER_CODE) (Z.lor v 3);;
  v ← add_seg 0 1048575 GDT_DATA_PL3; put_segsel (Z.to_nat USER_DATA) (Z.lor v 3);;
  v ← add_seg 0 0 0; put_segsel (Z.to_nat TSS) v;;
  v ← add_seg 0 0 0; put_segsel (Z.to_nat LDT) v;;
  modify (arch_reload_gdt (mk_dtmeta (8 * GDT_MAX_COUNT - 1) gdt_addr)).

Definition arch_switch_pm : M tables unit :=
  prepare_protect_mode;; modify (arch_set_cr0 0).
Definition arch_switch_rm : M tables unit := modify (arch_clr_cr0 0).

Definition arch_get_sel (type : Z) : Z := u16 (u32 (u32 (gdt_addr + 8 * type) - gdt_addr)).

Definition arch_get_desc (type : Z) : M tables Z :=
  if (type <? SELTYPE_START) || (SELTYPE_END <? type) then mret (u64 E_INVAL) else
  deref (λ s, gdt s !! Z.to_nat type).

Definition arch_set_desc (type val : Z) : M tables Z :=
  if (type <? SELTYPE_START) || (SELTYPE_END <? type) then mret E_INVAL else
  modify (λ s, set_gdt (<[Z.to_nat type := val]> (gdt s)) s);; mret 0.

Definition gen_idesc (isr sel flags : Z) : idesc :=
  mk_idesc (Z.land isr 65535) sel 0 flags (Z.shiftr isr 16).

Definition IDT_GATE_INT32 : Z := 142.       (* 0x8E *)
Definition IDT_GATE_SYSCALL32 : Z := 238.   (* 0xEE *)
Definition NUM_EXCEPTIONS : Z := 32.
Definition NUM_INTERRUPTS : Z := 16.

(** [for (i = from; n more turns; i++) idt[i] = gen_idesc(isr(i), ...)] *)
Fixpoint fill_gates (n : nat) (i : Z) (isr : Z → Z) : M tables unit :=
  match n with
  | O => mret tt
  | S n =>
      modify (λ s, set_idt (<[Z.to_nat i := gen_idesc (isr i) (arch_get_sel SYS_CODE) IDT_GATE_INT32]> (idt s)) s);;
      fill_gates n (i + 1) isr
  end.

Definition arch_init_8259a : M tables unit :=
  modify (arch_outb 32 17);; modify (arch_outb 160 17);;
  modify (arch_outb 33 INT_VECTOR_IRQ0);; modify (arch_outb 161 INT_VECTOR_IRQ8);;
  modify (arch_outb 33 4);; modify (arch_outb 161 2);;
  modify (arch_outb 33 1);; modify (arch_outb 161 1);;
  modify (arch_outb 33 255);; modify (arch_outb 161 255).

Definition arch_init_irq : M tables unit :=
  modify arch_cli;;
  fill_gates (Z.to_nat IDT_ENTRIES) 0 (λ _, hlt_handler);;
  fill_gates (Z.to_nat (NUM_EXCEPTIONS + NUM_INTERRUPTS)) 0 (λ i, u32 (arch_isr_tbl + 256 * i));;
  modify (λ s, set_idt (<[100%nat := gen_idesc arch_syscall_entry (arch_get_sel SYS_CODE) IDT_GATE_SYSCALL32]> (idt s)) s);;
  modify (arch_reload_idt (mk_dtmeta (8 * IDT_ENTRIES - 1) idt_addr));;
  arch_init_8259a.

Definition tss_init : M tables Z :=
  let tss_sel := arch_get_sel TSS in
  if tss_sel =? 0 then mret E_INTERNAL else
  modify (set_g_tss (mk_tss (arch_get_sel SYS_DATA) 0 sizeof_tss));;
  arch_set_desc TSS (arch_gen_desc tss_addr sizeof_tss 137);;
  modify (arch_reload_tss tss_sel);;
  mret 0.

(** [ldts] follows the pointer [regs] in the context. *)
Definition ldt_reload (context : Z) : M tables unit :=
  if context =? 0 then mret tt else
  arch_set_desc LDT (arch_gen_desc (context +u 4) 16 130);;
  modify (arch_reload_ldt (arch_get_sel LDT)).
End layout.

(** ** How the processor reads a descriptor

    A segment descriptor is 64 bits: the limit in bits 0-15 and 48-51, the
    base in bits 16-39 and 56-63, the access byte in bits 40-47, the size and
    granularity in bits 52-55. *)
Definition field (d i n : Z) : Z := Z.land (Z.shiftr d i) (Z.ones n).
Definition seg_base (d : Z) : Z := Z.lor (field d 16 24) (Z.shiftl (field d 56 8) 24).
Definition seg_limit (d : Z) : Z := Z.lor (field d 0 16) (Z.shiftl (field d 48 4) 16).
Definition seg_access (d : Z) : Z := field d 40 8.
Definition seg_sizes (d : Z) : Z := field d 52 4.
Definition seg_dpl (d : Z) : Z := field (seg_access d) 5 2.

(** Code or data segment of the whole 4 GB in pages, 32 bits, present. *)
Definition flat (d dpl kind : Z) : Prop :=
  seg_base d = 0 ∧ seg_limit d = 1048575 ∧ seg_sizes d = 12 ∧
  Z.testbit (seg_access d) 7 = true ∧ Z.testbit (seg_access d) 4 = true ∧
  field (seg_access d) 0 4 = kind ∧ seg_dpl d = dpl.

(** An interrupt gate. *)
Definition gate_offset (g : idesc) : Z := Z.lor (isr_low g) (Z.shiftl (isr_high g) 16).
Definition gate_dpl (g : idesc) : Z := field (id_attrs g) 5 2.
Definition gate_present (g : idesc) : bool := Z.testbit (id_attrs g) 7.
Definition gate_type (g : idesc) : Z := field (id_attrs g) 0 5.

(** A selector: table indicator, index and requested privilege. *)
Definition sel_index (sel : Z) : nat := Z.to_nat (Z.shiftr sel 3).
Definition sel_local (sel : Z) : bool := Z.testbit sel 2.
Definition sel_rpl (sel : Z) : Z := Z.land sel 3.

(** ** Bits *)

Lemma testbit_ones n i : 0 <= n → 0 <= i → Z.testbit (Z.ones n) i = (i <? n).
Proof. intros. rewrite Z.testbit_ones by done. by rewrite (proj2 (Z.leb_le 0 i)). Qed.

Lemma high_bit_0 x n i : 0 <= x < 2 ^ n → n <= i → Z.testbit x i = false.
Proof.
  intros Hx Hi. destruct (decide (x = 0)) as [->|]; [by rewrite Z.bits_0|].
  assert (2 ^ n <= 2 ^ i) by (apply Z.pow_le_mono_r; lia).
  apply Z.bits_above_log2; [lia|]. apply Z.log2_lt_pow2; lia.
Qed.

Lemma field_bit d i n k : 0 <= i → 0 <= n → 0 <= k → Z.testbit (field d i n) k = (k <? n) && Z.testbit d (k + i).
Proof.
  intros. unfold field. rewrite Z.land_spec, Z.shiftr_spec, testbit_ones by lia. apply andb_comm.
Qed.

(** A mask of [n] bits from bit [i] on. *)
Lemma ones_shift_bit i n k : 0 <= i → 0 <= n → 0 <= k →
  Z.testbit (Z.shiftl (Z.ones n) i) k = (i <=? k) && (k <? i + n).
Proof.
  intros Hi Hn Hk. rewrite Z.shiftl_spec by done. destruct (Z.leb_spec i k) as [H|H].
  - rewrite testbit_ones by lia. destruct (Z.ltb_spec (k - i) n), (Z.ltb_spec k (i + n)); first [done|lia].
  - by rewrite Z.testbit_neg_r by lia.
Qed.

(** Which argument a bit of a descriptor comes from. *)
Lemma gen_desc_bit b l f i : 0 <= i < 64 →
  Z.testbit (arch_gen_desc b l f) i =
  if i <? 16 then Z.testbit l i else if i <? 40 then Z.testbit b (i - 16)
  else if i <? 48 then Z.testbit f (i - 40) else if i <? 52 then Z.testbit l (i - 32)
  else if i <? 56 then Z.testbit f (i - 40) else Z.testbit b (i - 32).
Proof.
  intros Hi. unfold arch_gen_desc, u64, u32.
  change 18446744073709551616 with (2 ^ 64). change 4294967296 with (2 ^ 32).
  change 983040 with (Z.shiftl (Z.ones 4) 16). change 255 with (Z.ones 8).
  change 15793920 with (Z.lor (Z.shiftl (Z.ones 8) 8) (Z.shiftl (Z.ones 4) 20)).
  change 4278190080 with (Z.shiftl (Z.ones 8) 24). change 65535 with (Z.ones 16).
  rewrite !Z.lor_spec, Z.land_spec, Z.mod_pow2_bits_low, Z.shiftl_spec, testbit_ones by lia.
  destruct (Z.ltb_spec i 32) as [H32|H32].
  - rewrite (Z.testbit_neg_r _ (i - 32)), Z.mod_pow2_bits_low, Z.shiftl_spec by lia. simpl.
    destruct (Z.ltb_spec i 16).
    + rewrite Z.testbit_neg_r by lia. by rewrite andb_true_r.
    + rewrite andb_false_r, orb_false_r. by rewrite (proj2 (Z.ltb_lt i 40)) by lia.
  - rewrite Z.mod_pow2_bits_high, (proj2 (Z.ltb_ge i 16)), andb_false_r, !orb_false_r by lia.
    rewrite !Z.lor_spec, !Z.land_spec, Z.lor_spec, Z.shiftr_spec, (Z.shiftl_spec f), testbit_ones, !ones_shift_bit by lia.
    replace (i - 32 + 16) with (i - 16) by lia. replace (i - 32 - 8) with (i - 40) by lia.
    repeat match goal with |- context [?a <? ?b] => destruct (Z.ltb_spec a b); try lia end;
    repeat match goal with |- context [?a <=? ?b] => destruct (Z.leb_spec a b); try lia end;
    cbn [andb orb]; rewrite ?andb_true_r, ?andb_false_r, ?orb_false_r, ?orb_false_l; reflexivity.
Qed.

Ltac bit_ranges :=
  repeat match goal with |- context [?a <? ?b] => destruct (Z.ltb_spec a b); try lia end; cbn [andb orb];
  rewrite ?orb_false_r, ?andb_true_r.

(** Two fields side by side, the lower of [n] bits. *)
Lemma join_bit x y n k : 0 <= n → 0 <= k → Z.testbit (Z.lor x (Z.shiftl y n)) k =
  Z.testbit x k || (if k <? n then false else Z.testbit y (k - n)).
Proof.
  intros. rewrite Z.lor_spec, Z.shiftl_spec by lia.
  destruct (Z.ltb_spec k n); [by rewrite (Z.testbit_neg_r y) by lia|done].
Qed.

(** The processor reads from a descriptor what it was made from. *)
Lemma gen_desc_decodes b l f : is_u32 b → 0 <= l < 1048576 → 0 <= f < 65536 →
  let d := arch_gen_desc b l f in
  seg_base d = b ∧ seg_limit d = l ∧ seg_access d = field f 0 8 ∧ seg_sizes d = field f 12 4.
Proof.
  intros Hb Hl Hf d. change (0 <= b < 2 ^ 32) in Hb. change (0 <= l < 2 ^ 20) in Hl.
  split_and!; apply Z.bits_inj'; intros k Hk; unfold seg_base, seg_limit, seg_access, seg_sizes.
  - rewrite join_bit, field_bit by lia. destruct (Z.ltb_spec k 24) as [H|H]; simpl.
    + rewrite orb_false_r. unfold d. rewrite gen_desc_bit by lia. bit_ranges. f_equal. lia.
    + rewrite field_bit by lia. destruct (Z.ltb_spec (k - 24) 8); simpl.
      * unfold d. rewrite gen_desc_bit by lia. bit_ranges. f_equal. lia.
      * symmetry. apply (high_bit_0 b 32); [done|lia].
  - rewrite join_bit, field_bit by lia. destruct (Z.ltb_spec k 16) as [H|H]; simpl.
    + rewrite orb_false_r. unfold d. rewrite gen_desc_bit by lia. bit_ranges. f_equal. lia.
    + rewrite field_bit by lia. destruct (Z.ltb_spec (k - 16) 4); simpl.
      * unfold d. rewrite gen_desc_bit by lia. bit_ranges. f_equal. lia.
      * symmetry. apply (high_bit_0 l 20); [done|lia].
  - rewrite !field_bit by lia. destruct (Z.ltb_spec k 8); [|done]. simpl.
    unfold d. rewrite gen_desc_bit by lia. bit_ranges. f_equal. lia.
  - rewrite !field_bit by lia. destruct (Z.ltb_spec k 4); [|done]. simpl.
    unfold d. rewrite gen_desc_bit by lia. bit_ranges. f_equal. lia.
Qed.

(** ** The tables after boot *)

Lemma gate_offset_gen isr sel flags : is_u32 isr → gate_offset (gen_idesc isr sel flags) = isr.
Proof.
  intros H. change (0 <= isr < 2 ^ 32) in H. apply Z.bits_inj'. intros k Hk.
  unfold gate_offset, gen_idesc. cbn [isr_low isr_high]. change 65535 with (Z.ones 16).
  rewrite join_bit, Z.land_spec, testbit_ones by lia. destruct (Z.ltb_spec k 16); simpl.
  - by rewrite andb_true_r, orb_false_r.
  - rewrite andb_false_r, Z.shiftr_spec by lia. simpl. f_equal. lia.
Qed.

(** The first segment of the table that is free after [n] used ones. *)
Lemma add_seg_loop_run n i d s : 0 <= i →
  gdt s !! Z.to_nat i = Some 0 →
  add_seg_loop (S n) i d s = Ret (u16 (i * 8)) (set_gdt (<[Z.to_nat i := d]> (gdt s)) s).
Proof. intros Hi Hg. cbn [add_seg_loop]. erewrite bind_Ret by (by apply deref_Some). done. Qed.

Section boot.
Context (gdt_addr idt_addr hlt_handler arch_isr_tbl arch_syscall_entry : Z).

(** What the vectors lead to. *)
Definition vector_handler (v : Z) : Z :=
  if v =? 100 then arch_syscall_entry
  else if v <? 48 then u32 (arch_isr_tbl + 256 * v) else hlt_handler.

Lemma fill_gates_run n i isr s : 0 <= i → Z.of_nat n + i <= Z.of_nat (length (idt s)) →
  ∃ l, fill_gates gdt_addr n i isr s = Ret tt (set_idt l s) ∧ length l = length (idt s) ∧
    ∀ v, 0 <= v → l !! Z.to_nat v =
      if (i <=? v) && (v <? i + Z.of_nat n)
      then Some (gen_idesc (isr v) (arch_get_sel gdt_addr SYS_CODE) IDT_GATE_INT32) else idt s !! Z.to_nat v.
Proof.
  revert i s. induction n as [|n IH]; intros i s Hi Hn.
  - exists (idt s). split; [by destruct s|]. split; [done|]. intros v Hv.
    destruct (Z.leb_spec i v), (Z.ltb_spec v (i + Z.of_nat 0)); simpl; first [done|lia].
  - pose (s1 := set_idt (<[Z.to_nat i := gen_idesc (isr i) (arch_get_sel gdt_addr SYS_CODE) IDT_GATE_INT32]> (idt s)) s).
    destruct (IH (i + 1) s1) as (l & E & Hl & Hv); [lia| |].
    { cbn [s1 idt set_idt]. rewrite length_insert. lia. }
    exists l. cbn [fill_gates]. rewrite (bind_Ret _ _ _ tt s1) by reflexivity. rewrite E. split; [done|]. cbn [s1 idt set_idt] in *. rewrite length_insert in Hl. split; [done|].
    intros v Hv0. rewrite (Hv v Hv0). destruct (decide (v = i)) as [->|Hne].
    + rewrite list_lookup_insert_eq by lia.
      destruct (Z.leb_spec (i + 1) i), (Z.leb_spec i i), (Z.ltb_spec i (i + Z.of_nat (S n))); simpl; first [done|lia].
    + rewrite list_lookup_insert_ne by lia.
      destruct (Z.leb_spec (i + 1) v), (Z.leb_spec i v), (Z.ltb_spec v (i + 1 + Z.of_nat n)), (Z.ltb_spec v (i + Z.of_nat (S n)));
        simpl; first [done|lia].
Qed.

Definition pm_gdt : list Z :=
  [0; arch_gen_desc 0 1048575 GDT_CODE_PL0; arch_gen_desc 0 1048575 GDT_DATA_PL0;
   arch_gen_desc 0 1048575 GDT_CODE_PL3; arch_gen_desc 0 1048575 GDT_DATA_PL3] ++ replicate 250 0.

(** The entries are found one after the other: the null entries written for
    the first slot, the TSS and the LDT leave their slots free. *)
Lemma switch_pm_run s : gdt s = replicate 255 0 →
  wp (arch_switch_pm gdt_addr) (λ _ s', gdt s' = pm_gdt ∧ gdtr s' = Some (mk_dtmeta 2039 gdt_addr) ∧
    cr0 s' = Z.lor (cr0 s) 1 ∧ idt s' = idt s ∧ t_out s' = t_out s ∧ g_tss s' = g_tss s) s.
Proof.
  destruct s as [g sg r i ir ts tr lr c f o]. cbn [gdt cr0 idt t_out g_tss]. intros ->.
  vm_compute. split_and!; reflexivity.
Qed.

Lemma get_sel_eq type : 0 <= type < 8192 → arch_get_sel gdt_addr type = 8 * type.
Proof.
  intros Ht. unfold arch_get_sel, u32. rewrite Zminus_mod_idemp_l.
  replace (gdt_addr + 8 * type - gdt_addr) with (8 * type) by lia.
  rewrite (Z.mod_small (8 * type)) by lia. unfold u16. apply Z.mod_small. lia.
Qed.

Lemma pm_segments :
  (∃ d, pm_gdt !! 1%nat = Some d ∧ flat d 0 SEG_CODE_EXRD) ∧
  (∃ d, pm_gdt !! 2%nat = Some d ∧ flat d 0 SEG_DATA_RDWR) ∧
  (∃ d, pm_gdt !! 3%nat = Some d ∧ flat d 3 SEG_CODE_EXRD) ∧
  (∃ d, pm_gdt !! 4%nat = Some d ∧ flat d 3 SEG_DATA_RDWR).
Proof. unfold flat. split_and!; (eexists; split; [reflexivity|]); vm_compute; split_and!; reflexivity. Qed.

(** The gate of vector [v] once the interrupt table is filled. *)
Definition vector_gate (v : Z) : idesc :=
  gen_idesc (vector_handler v) (arch_get_sel gdt_addr SYS_CODE) (if v =? 100 then IDT_GATE_SYSCALL32 else IDT_GATE_INT32).

Lemma init_irq_run s : length (idt s) = 256%nat →
  wp (arch_init_irq gdt_addr idt_addr hlt_handler arch_isr_tbl arch_syscall_entry) (λ _ s',
    gdt s' = gdt s ∧ gdtr s' = gdtr s ∧ cr0 s' = cr0 s ∧ int_flag s' = false ∧
    idtr s' = Some (mk_dtmeta 2047 idt_addr) ∧
    (∀ v, 0 <= v < 256 → idt s' !! Z.to_nat v = Some (vector_gate v)) ∧
    t_out s' = reverse [(32, 17); (160, 17); (33, 32); (161, 40); (33, 4); (161, 2); (33, 1); (161, 1); (33, 255); (161, 255)]
               ++ t_out s) s.
Proof.
  intros Hi. unfold arch_init_irq.
  destruct (fill_gates_run (Z.to_nat IDT_ENTRIES) 0 (λ _, hlt_handler) (arch_cli s)) as (l1 & E1 & L1 & V1); [lia| |].
  { cbn [idt arch_cli]. unfold IDT_ENTRIES. lia. }
  cbn [idt arch_cli] in L1, V1.
  destruct (fill_gates_run (Z.to_nat (NUM_EXCEPTIONS + NUM_INTERRUPTS)) 0 (λ i, u32 (arch_isr_tbl + 256 * i))
              (set_idt l1 (arch_cli s))) as (l2 & E2 & L2 & V2); [lia| |].
  { cbn [idt set_idt]. unfold NUM_EXCEPTIONS, NUM_INTERRUPTS. lia. }
  cbn [idt set_idt] in L2, V2.
  apply wp_bind. apply (wp_Ret _ _ _ tt (arch_cli s)); [done|].
  apply wp_bind. eapply wp_Ret; [exact E1|].
  apply wp_bind. eapply wp_Ret; [exact E2|].
  split_and!; try reflexivity. cbn [idt set_idt arch_reload_idt arch_outb].
  intros v Hv. unfold vector_gate, vector_handler. destruct (decide (v = 100)) as [->|Hne].
  - by rewrite list_lookup_insert_eq by lia.
  - rewrite (proj2 (Z.eqb_neq v 100)) by done. rewrite list_lookup_insert_ne by lia.
    rewrite V2, V1 by lia. unfold IDT_ENTRIES, NUM_EXCEPTIONS, NUM_INTERRUPTS.
    rewrite !Z2Nat.id by lia. rewrite (proj2 (Z.leb_le 0 v)), (proj2 (Z.ltb_lt v (0 + 256))) by lia. simpl.
    change (0 + (32 + 16)) with 48. by destruct (v <? 48).
Qed.

Lemma vector_gate_reads v : is_u32 hlt_handler → is_u32 arch_isr_tbl → is_u32 arch_syscall_entry →
  let g := vector_gate v in
  gate_present g = true ∧ gate_type g = 14 ∧ gate_offset g = vector_handler v ∧ (3 <= gate_dpl g ↔ v = 100) ∧
  sel_local (sel_code g) = false ∧ sel_index (sel_code g) = 1%nat.
Proof.
  intros Hh Ht He g.
  assert (sel_code g = 8) as Hsel by (unfold g, vector_gate; cbn [sel_code gen_idesc]; by rewrite get_sel_eq by (unfold SYS_CODE; lia)).
  assert (is_u32 (vector_handler v)) as Hu.
  { unfold vector_handler. destruct (v =? 100), (v <? 48); try done; apply u32_range. }
  rewrite Hsel. split_and!; try done.
  - unfold g, vector_gate. by destruct (v =? 100).
  - unfold g, vector_gate. by destruct (v =? 100).
  - by apply gate_offset_gen.
  - unfold g, vector_gate. destruct (Z.eqb_spec v 100) as [->|Hne]; vm_compute; [done|].
    split; intros H; [by destruct H|done].
Qed.

(** C39: After [arch_switch_pm] and [arch_init_irq] from zeroed tables the
    processor is in protected mode with interrupts off and both tables loaded,
    the code and data segments of both rings are flat, and every vector of the
    interrupt table is a present 32-bit gate into the ring-0 code segment: the
    first 48 to their slot of the stub table, vector 100 to the system-call
    entry and all others to the halting handler.  Ring 3 may raise vector 100
    and no other.  The interrupt controllers get the vectors 0x20 and 0x28 and
    every line masked. *)
Theorem ring3_enters_by_one_gate s :
  gdt s = replicate 255 0 → length (idt s) = 256%nat →
  is_u32 hlt_handler → is_u32 arch_isr_tbl → is_u32 arch_syscall_entry →
  wp (arch_switch_pm gdt_addr;; arch_init_irq gdt_addr idt_addr hlt_handler arch_isr_tbl arch_syscall_entry) (λ _ s',
    Z.testbit (cr0 s') 0 = true ∧ int_flag s' = false ∧
    gdtr s' = Some (mk_dtmeta 2039 gdt_addr) ∧ idtr s' = Some (mk_dtmeta 2047 idt_addr) ∧
    gdt s' = pm_gdt ∧
    (∀ v, 0 <= v < 256 → ∃ g d, idt s' !! Z.to_nat v = Some g ∧
       gate_present g = true ∧ gate_type g = 14 ∧ gate_offset g = vector_handler v ∧
       (3 <= gate_dpl g ↔ v = 100) ∧
       sel_local (sel_code g) = false ∧ gdt s' !! sel_index (sel_code g) = Some d ∧ flat d 0 SEG_CODE_EXRD) ∧
    t_out s' = reverse [(32, 17); (160, 17); (33, 32); (161, 40); (33, 4); (161, 2); (33, 1); (161, 1); (33, 255); (161, 255)]
               ++ t_out s) s.
Proof.
  intros Hg Hi Hh Ht He. apply wp_bind. eapply wp_mono; [exact (switch_pm_run s Hg)|].
  intros _ s1 (Hg1 & Hr1 & Hc1 & Hi1 & Ho1 & _). rewrite <- Hi1 in Hi.
  eapply wp_mono; [exact (init_irq_run s1 Hi)|].
  intros _ s2 (Hg2 & Hr2 & Hc2 & Hf2 & Hir2 & Hv2 & Ho2).
  rewrite Hc2, Hc1, Hr2, Hr1, Hg2, Hg1, Ho2, Ho1. split_and!; try done.
  - rewrite Z.lor_spec. apply orb_true_r.
  - intros v Hv. destruct (vector_gate_reads v Hh Ht He) as (G1 & G2 & G3 & G4 & G5 & G6).
    destruct pm_segments as ((d & Hd & Hfl) & _).
    exists (vector_gate v), d. rewrite (Hv2 v Hv), G6. exact (conj eq_refl (conj G1 (conj G2 (conj G3 (conj G4 (conj G5 (conj Hd Hfl))))))).
Qed.
End boot.

(** ** Threads *)

(** Entry [i] of a local table of 32-bit halves. *)
Definition local_desc (ldts : list Z) (i : nat) : option Z :=
  lo ← ldts !! (2 * i)%nat; hi ← ldts !! (2 * i + 1)%nat; Some (Z.lor lo (Z.shiftl hi 32)).

(** The segment a selector of the local table names. *)
Definition local_segment (ldts : list Z) (sel dpl kind : Z) : Prop :=
  sel_local sel = true ∧ sel_rpl sel = dpl ∧ ∃ d, local_desc ldts (sel_index sel) = Some d ∧ flat d dpl kind.

Section threads.
Context {A U W : Type} `{!AddressSpace W, !Allocator A}.
Notation kernel := (kernel A U W).
Implicit Types k : kernel.

Definition ring_of (priv : Z) : Z := if priv =? TASK_PRIV_KERNEL then 0 else 3.

Lemma context_init_frame k vcb entry priv x k' :
  arch_task_context_init vcb entry priv k = Ret (0, x) k' →
  ∃ stack, ctx_frame x = Some (initial_frame (ring_of priv) entry stack) ∧ ctx_ring x = ring_of priv ∧
    ctx_ldts x = [65535; Z.lor 13605376 (Z.shiftl (ring_of priv) 13); 65535; Z.lor 13603328 (Z.shiftl (ring_of priv) 13)].
Proof.
  unfold arch_task_context_init. fold (ring_of priv). destruct (vcb =? 0); [done|].
  unfold mbind at 1, M_bind at 1. destruct (_ k) as [stack k1| |]; [|done..].
  destruct (stack =? 0); [done|]. unfold mbind at 1, M_bind at 1.
  destruct (_ k1) as [pa k2| |]; [|done..]. destruct (pa =? 0).
  - unfold mbind, M_bind. intros H; by repeat case_match.
  - intros [= <- <-]. by exists stack.
Qed.

Lemma ring_segments ring entry stack : ring = 0 ∨ ring = 3 →
  let fr := initial_frame ring entry stack in
  let ldts := [65535; Z.lor 13605376 (Z.shiftl ring 13); 65535; Z.lor 13603328 (Z.shiftl ring 13)] in
  local_segment ldts (r_cs fr) ring SEG_CODE_EXRD ∧
  Forall (λ sel, local_segment ldts sel ring SEG_DATA_RDWR) [r_ds fr; r_es fr; r_fs fr; r_gs fr; r_ss fr].
Proof.
  intros H. cbv zeta. unfold local_segment. split.
  - destruct H as [-> | ->]; (split; [reflexivity|split; [reflexivity|]]); eexists; (split; [reflexivity|]);
      unfold flat; vm_compute; split_and!; reflexivity.
  - destruct H as [-> | ->]; repeat (apply Forall_cons; split); try (by apply Forall_nil);
      (split; [reflexivity|split; [reflexivity|]]); eexists; (split; [reflexivity|]);
      unfold flat; vm_compute; split_and!; reflexivity.
Qed.

(** A thread runs at the ring of its privilege: when
    [arch_task_context_init] succeeds, and the boot code has set up the task
    state segment and loaded the local table of the context, the task register
    and the local-table register name system descriptors of exactly those two
    objects, the segments of the kernel are untouched, the stack segment for
    entering ring 0 is the kernel's flat data segment, and the code, data and
    stack selectors of the first frame all name flat segments of the local
    table whose privilege and requested privilege are the ring of the thread,
    with interrupts on and no right to use ports. *)
Theorem thread_runs_at_its_ring gdt_addr tss_addr context k vcb entry priv x k' s :
  arch_task_context_init vcb entry priv k = Ret (0, x) k' →
  gdt s = pm_gdt → is_u32 tss_addr → is_u32 context → context ≠ 0 →
  ∃ fr, ctx_frame x = Some fr ∧ ctx_ring x = ring_of priv ∧ r_eip fr = entry ∧
    Z.testbit (r_eflags fr) 9 = true ∧ field (r_eflags fr) 12 2 = 0 ∧
    local_segment (ctx_ldts x) (r_cs fr) (ring_of priv) SEG_CODE_EXRD ∧
    Forall (λ sel, local_segment (ctx_ldts x) sel (ring_of priv) SEG_DATA_RDWR)
      [r_ds fr; r_es fr; r_fs fr; r_gs fr; r_ss fr] ∧
    wp (tss_init gdt_addr tss_addr;; ldt_reload gdt_addr context) (λ _ s', ∃ dt dl ds,
      gdt s' !! sel_index (task_reg s') = Some dt ∧
      seg_base dt = tss_addr ∧ seg_limit dt = sizeof_tss ∧ seg_access dt = 137 ∧
      gdt s' !! sel_index (ldt_reg s') = Some dl ∧
      seg_base dl = u32 (context + 4) ∧ seg_limit dl = 16 ∧ seg_access dl = 130 ∧
      (∀ i, i ≠ 5%nat → i ≠ 6%nat → gdt s' !! i = gdt s !! i) ∧
      gdt s' !! sel_index (tss_ss0 (g_tss s')) = Some ds ∧ flat ds 0 SEG_DATA_RDWR ∧
      sel_rpl (tss_ss0 (g_tss s')) = 0) s.
Proof.
  intros E Hg Ht Hc Hc0. destruct (context_init_frame _ _ _ _ _ _ E) as (stack & Hfr & Hr & Hl).
  exists (initial_frame (ring_of priv) entry stack). rewrite Hl.
  destruct (ring_segments (ring_of priv) entry stack) as [S1 S2]; [unfold ring_of; destruct (_ =? _); auto|].
  split_and!; [done|done|done|done|done|done|done|].
  unfold tss_init, ldt_reload, arch_set_desc. rewrite !get_sel_eq by (unfold TSS, LDT, SYS_DATA; lia).
  rewrite (proj2 (Z.eqb_neq context 0)) by done. cbn [Z.mul Z.eqb TSS].
  destruct (gen_desc_decodes tss_addr sizeof_tss 137) as (T1 & T2 & T3 & _); [done|unfold sizeof_tss; lia|lia|].
  destruct (gen_desc_decodes (u32 (context + 4)) 16 130) as (L1 & L2 & L3 & _); [apply u32_range|lia|lia|].
  destruct pm_segments as (_ & (ds & Hds & Hfl) & _).
  set (dt := arch_gen_desc tss_addr sizeof_tss 137) in *. set (dl := arch_gen_desc (u32 (context + 4)) 16 130) in *.
  assert (Hlen : length (gdt s) = 255%nat) by (rewrite Hg; reflexivity).
  exists dt, dl, ds. cbn [gdt set_gdt set_g_tss arch_reload_tss arch_reload_ldt task_reg ldt_reg g_tss].
  change (sel_index (8 * TSS)) with 5%nat. change (sel_index (8 * LDT)) with 6%nat.
  change (Z.to_nat TSS) with 5%nat. change (Z.to_nat LDT) with 6%nat.
  split; [rewrite list_lookup_insert_ne, list_lookup_insert_eq by lia; done|]. split; [done|]. split; [done|]. split; [done|].
  split; [rewrite list_lookup_insert_eq by (rewrite length_insert; lia); done|].
  split; [done|]. split; [done|]. split; [done|].
  split; [intros i H5 H6; by rewrite !list_lookup_insert_ne by done|].
  change (sel_index _) with 2%nat. split; [|by split]. rewrite !list_lookup_insert_ne by done. by rewrite Hg.
Qed.
End threads.

(** ** Witnesses *)

Definition no_gate : idesc := mk_idesc 0 0 0 0 0.
Definition boot_tables : tables :=
  mk_tables (replicate 255 0) (replicate 255 0) None (replicate 256 no_gate) None (mk_tss 0 0 0) 0 0 16 true [].

Lemma ring3_enters_by_one_gate_witness :
  wp (arch_switch_pm 2097152;; arch_init_irq 2097152 2101248 1048576 1052672 1069056) (λ _ s',
    ∃ g, idt s' !! 100%nat = Some g ∧ gate_offset g = 1069056 ∧ gate_dpl g >= 3) boot_tables.
Proof.
  eapply wp_mono; [apply (ring3_enters_by_one_gate 2097152 2101248 1048576 1052672 1069056 boot_tables); reflexivity || (split; lia)|].
  intros _ s' (_ & _ & _ & _ & _ & Hv & _).
  destruct (Hv 100) as (g & d & Hg & _ & _ & Ho & Hd & _); [lia|]. exists g. split; [done|]. split; [done|].
  apply Z.le_ge. by apply Hd.
Defined.

Definition thread_tables : tables :=
  mk_tables pm_gdt (replicate 255 0) None (replicate 256 no_gate) None (mk_tss 0 0 0) 0 0 17 false [].

Lemma thread_runs_at_its_ring_witness :
  ∃ x k', arch_task_context_init 1 4096 TASK_PRIV_USER spawn_demo = Ret (0, x) k' ∧
  wp (tss_init 2097152 2105344;; ldt_reload 2097152 12582912) (λ _ s', ∃ dl,
    gdt s' !! sel_index (ldt_reg s') = Some dl ∧ seg_base dl = 12582916) thread_tables.
Proof.
  destruct (arch_task_context_init 1 4096 TASK_PRIV_USER spawn_demo) as [[e x] k'| |] eqn:E; [|vm_compute in E; discriminate E..].
  assert (e = 0) as -> by (vm_compute in E; by injection E). exists x, k'. split; [reflexivity|].
  edestruct (thread_runs_at_its_ring 2097152 2105344 12582912 spawn_demo 1 4096 TASK_PRIV_USER x k' thread_tables E)
    as (fr & _ & _ & _ & _ & _ & _ & _ & H); [reflexivity|split; lia|split; lia|lia|].
  eapply wp_mono; [exact H|]. intros _ s' (dt & dl & ds & _ & _ & _ & _ & H1 & H2 & _). by exists dl.
Defined.
