(* ===== verification/Abi.v ===== *)
(** * The parameter blocks of the system calls, as both sides declare them

    user/userlib.h repeats the structures and command numbers of the kernel's
    headers by hand, with the remark that they must mirror each other.  This
    file lays the declarations of both sides out the way the i386 ABI does and
    compares them; the other files use one record for each pair. *)

From stdpp Require Import base tactics list strings.
From Stdlib Require Import ZArith Lia.
From S2P Require Import Prelude Syscall Heap ThreadApi Mmio Portal Mailbox Irq.

Open Scope Z_scope.

(** ** Layout of C structures *)

(** The member types that occur; an enumeration is an [int] here. *)
Inductive ctype :=
  | C_u8 | C_u16 | C_u32 | C_int | C_enum | C_ptr
  | C_chars (n : Z).

Definition csize (t : ctype) : Z :=
  match t with C_u8 => 1 | C_u16 => 2 | C_u32 | C_int | C_enum | C_ptr => 4 | C_chars n => n end.
Definition calign (t : ctype) : Z :=
  match t with C_u8 | C_chars _ => 1 | C_u16 => 2 | C_u32 | C_int | C_enum | C_ptr => 4 end.

Definition struct : Type := list (string * ctype).

Definition round_up (x a : Z) : Z := (x + a - 1) / a * a.

(** The offset of each member, and the end of the last one. *)
Fixpoint place (off : Z) (s : struct) : list (string * Z * Z) * Z :=
  match s with
  | [] => ([], off)
  | (f, t) :: s =>
      let o := round_up off (calign t) in
      let r := place (o + csize t) s in
      ((f, o, csize t) :: r.1, r.2)
  end.
Definition struct_align (s : struct) : Z := foldr (λ m a, Z.max (calign m.2) a) 1 s.
Definition layout (s : struct) : list (string * Z * Z) := (place 0 s).1.
Definition sizeof (s : struct) : Z := round_up (place 0 s).2 (struct_align s).

(** ** The kernel's declarations *)

Definition proc_thread_ctrl_config_decl : struct :=
  [("cmd", C_u8); ("pid", C_int); ("tid", C_int); ("priv", C_enum); ("entry", C_ptr);
   ("elf_start", C_ptr); ("elf_end", C_ptr); ("param", C_ptr)].
Definition portal_ctrl_config_decl : struct :=
  [("cmd", C_enum); ("client_id", C_u32); ("server_id", C_u32); ("va", C_ptr); ("va_size", C_u32);
   ("req", C_ptr); ("out", C_ptr); ("ret", C_int)].
Definition irq_ctrl_config_decl : struct :=
  [("cmd", C_u8); ("handle", C_ptr); ("name", C_ptr); ("major", C_u32); ("minor", C_u32);
   ("handler", C_ptr); ("param", C_ptr); ("is_user_irq", C_int); ("tid", C_int); ("ret", C_int)].
Definition mailbox_ctrl_config_decl : struct :=
  [("cmd", C_u8); ("m", C_ptr); ("mb", C_ptr); ("handler", C_ptr); ("pid", C_int); ("tid", C_int);
   ("magic", C_u32); ("ret", C_int)].
Definition heap_ctrl_config_decl : struct :=
  [("cmd", C_u32); ("size", C_u32); ("ptr", C_ptr); ("ret", C_int)].
Definition mmio_syscall_data_decl : struct :=
  [("cmd", C_u8); ("pa", C_u32); ("size", C_u32); ("va", C_u32); ("ret", C_int)].
Definition mail_decl : struct :=
  [("magic", C_u32); ("sender_tid", C_int); ("receiver_tid", C_int); ("data", C_chars 256); ("data_size", C_u32)].

(** ** The declarations of userlib.h *)

Definition user_proc_ctrl : struct :=
  [("cmd", C_u8); ("pid", C_int); ("tid", C_int); ("priv", C_int); ("entry", C_ptr);
   ("elf_start", C_ptr); ("elf_end", C_ptr); ("param", C_ptr)].
Definition user_portal_ctrl : struct :=
  [("cmd", C_int); ("client_id", C_u32); ("server_id", C_u32); ("va", C_ptr); ("va_size", C_u32);
   ("req", C_ptr); ("out", C_ptr); ("ret", C_int)].
Definition user_irq_ctrl : struct :=
  [("cmd", C_u8); ("handle", C_ptr); ("name", C_ptr); ("major", C_u32); ("minor", C_u32);
   ("handler", C_ptr); ("param", C_ptr); ("is_user_irq", C_int); ("tid", C_int); ("ret", C_int)].
Definition user_mailbox_ctrl : struct :=
  [("cmd", C_u8); ("m", C_ptr); ("mb", C_ptr); ("handler", C_ptr); ("pid", C_int); ("tid", C_int);
   ("magic", C_u32); ("ret", C_int)].
Definition user_heap_ctrl : struct :=
  [("cmd", C_u32); ("size", C_u32); ("ptr", C_ptr); ("ret", C_int)].
Definition user_mmio_ctrl : struct :=
  [("cmd", C_u8); ("pa", C_u32); ("size", C_u32); ("va", C_u32); ("ret", C_int)].
Definition user_mail : struct :=
  [("magic", C_u32); ("sender_tid", C_int); ("receiver_tid", C_int); ("data", C_chars 256); ("data_size", C_u32)].

Definition U_THREAD_CTRL_CREATE : Z := 0.
Definition U_THREAD_CTRL_DELETE : Z := 1.
Definition U_THREAD_CTRL_YIELD : Z := 2.
Definition U_THREAD_CTRL_BLOCK : Z := 3.
Definition U_THREAD_CTRL_UNBLOCK : Z := 4.
Definition U_PROC_CTRL_CREATE : Z := 5.
Definition U_PROC_CTRL_LOAD_FROM_ELF : Z := 6.
Definition U_PROC_CTRL_EXIT : Z := 7.
Definition U_PROC_CTRL_BLOCK : Z := 8.
Definition U_PROC_CTRL_UNBLOCK : Z := 9.
Definition U_PROC_CTRL_GET_PID : Z := 10.
Definition U_THREAD_CTRL_GET_TID : Z := 11.

Definition U_PORTAL_CTRL_INIT : Z := 0.
Definition U_PORTAL_CTRL_DESTROY : Z := 1.
Definition U_PORTAL_CTRL_CALL : Z := 2.
Definition U_PORTAL_CTRL_WAIT_REPLY : Z := 3.
Definition U_PORTAL_CTRL_GET_RESULT : Z := 4.
Definition U_PORTAL_CTRL_CLEANUP : Z := 5.
Definition U_PORTAL_CTRL_WAIT : Z := 6.
Definition U_PORTAL_CTRL_GET_REQ : Z := 7.
Definition U_PORTAL_CTRL_REPLY : Z := 8.

Definition U_IRQ_CTRL_REQUEST : Z := 0.
Definition U_IRQ_CTRL_RELEASE : Z := 1.
Definition U_IRQ_CTRL_MASK : Z := 2.
Definition U_IRQ_CTRL_UNMASK : Z := 3.

Definition U_MAILBOX_CTRL_SEND : Z := 0.
Definition U_MAILBOX_CTRL_LISTEN : Z := 1.
Definition U_MAILBOX_CTRL_ALLOC_MAIL : Z := 4.
Definition U_MAILBOX_CTRL_RELEASE_MAIL : Z := 5.
Definition U_MAILBOX_CTRL_SUBSCRIBE_MAIL : Z := 8.
Definition U_MAILBOX_CTRL_UNSUBSCRIBE_MAIL : Z := 9.
Definition U_MAILBOX_CTRL_LISTEN_BLOCK : Z := 10.
Definition USER_MAIL_ANY_TID : Z := -205.  (* -0xcd *)

Definition U_HEAP_CTRL_MALLOC : Z := 0.
Definition U_HEAP_CTRL_FREE : Z := 1.
Definition U_MMIO_CTRL_MAP : Z := 0.
Definition U_MMIO_CTRL_UNMAP : Z := 1.

(** ** The two sides agree *)

Definition mirrors (u k : struct) : Prop := layout u = layout k ∧ sizeof u = sizeof k.
#[export] Instance mirrors_dec u k : Decision (mirrors u k).
Proof. unfold mirrors. apply _. Defined.

(** Every structure of userlib.h that must mirror one of the kernel has
    the same members at the same offsets with the same widths and the same
    size, and that size fits the buffer of the system-call gate; every command
    number and the broadcast address agree with the kernel's. *)
Theorem user_abi_mirrors_kernel :
  Forall (λ p, mirrors p.1 p.2)
    [(user_proc_ctrl, proc_thread_ctrl_config_decl); (user_portal_ctrl, portal_ctrl_config_decl);
     (user_irq_ctrl, irq_ctrl_config_decl); (user_mailbox_ctrl, mailbox_ctrl_config_decl);
     (user_heap_ctrl, heap_ctrl_config_decl); (user_mmio_ctrl, mmio_syscall_data_decl);
     (user_mail, mail_decl)] ∧
  Forall (λ s, 0 < sizeof s <= SYSCALL_KBUF_MAX)
    [user_proc_ctrl; user_portal_ctrl; user_irq_ctrl; user_mailbox_ctrl; user_heap_ctrl; user_mmio_ctrl] ∧
  [U_THREAD_CTRL_CREATE; U_THREAD_CTRL_DELETE; U_THREAD_CTRL_YIELD; U_THREAD_CTRL_BLOCK; U_THREAD_CTRL_UNBLOCK;
   U_PROC_CTRL_CREATE; U_PROC_CTRL_LOAD_FROM_ELF; U_PROC_CTRL_EXIT; U_PROC_CTRL_BLOCK; U_PROC_CTRL_UNBLOCK;
   U_PROC_CTRL_GET_PID; U_THREAD_CTRL_GET_TID] =
  [THREAD_CTRL_CREATE; THREAD_CTRL_DELETE; THREAD_CTRL_YIELD; THREAD_CTRL_BLOCK; THREAD_CTRL_UNBLOCK;
   PROC_CTRL_CREATE; PROC_CTRL_LOAD_FROM_ELF; PROC_CTRL_EXIT; PROC_CTRL_BLOCK; PROC_CTRL_UNBLOCK;
   PROC_CTRL_GET_PID; THREAD_CTRL_GET_TID] ∧
  [U_PORTAL_CTRL_INIT; U_PORTAL_CTRL_DESTROY; U_PORTAL_CTRL_CALL; U_PORTAL_CTRL_WAIT_REPLY; U_PORTAL_CTRL_GET_RESULT;
   U_PORTAL_CTRL_CLEANUP; U_PORTAL_CTRL_WAIT; U_PORTAL_CTRL_GET_REQ; U_PORTAL_CTRL_REPLY] =
  [PORTAL_CTRL_INIT; PORTAL_CTRL_DESTROY; PORTAL_CTRL_CALL; PORTAL_CTRL_WAIT_REPLY; PORTAL_CTRL_GET_RESULT;
   PORTAL_CTRL_CLEANUP; PORTAL_CTRL_WAIT; PORTAL_CTRL_GET_REQ; PORTAL_CTRL_REPLY] ∧
  [U_IRQ_CTRL_REQUEST; U_IRQ_CTRL_RELEASE; U_IRQ_CTRL_MASK; U_IRQ_CTRL_UNMASK] =
  [IRQ_SYSCALL_REQUEST; IRQ_SYSCALL_RELEASE; IRQ_SYSCALL_MASK; IRQ_SYSCALL_UNMASK] ∧
  [U_MAILBOX_CTRL_SEND; U_MAILBOX_CTRL_LISTEN; U_MAILBOX_CTRL_ALLOC_MAIL; U_MAILBOX_CTRL_RELEASE_MAIL;
   U_MAILBOX_CTRL_SUBSCRIBE_MAIL; U_MAILBOX_CTRL_UNSUBSCRIBE_MAIL; U_MAILBOX_CTRL_LISTEN_BLOCK; USER_MAIL_ANY_TID] =
  [MAILBOX_CTRL_SEND; MAILBOX_CTRL_LISTEN; MAILBOX_CTRL_ALLOC_MAIL; MAILBOX_CTRL_RELEASE_MAIL;
   MAILBOX_CTRL_SUBSCRIBE_MAIL; MAILBOX_CTRL_UNSUBSCRIBE_MAIL; MAILBOX_CTRL_LISTEN_BLOCK; MAIL_ANY_TID] ∧
  [U_HEAP_CTRL_MALLOC; U_HEAP_CTRL_FREE; U_MMIO_CTRL_MAP; U_MMIO_CTRL_UNMAP] =
  [HEAP_CTRL_MALLOC; HEAP_CTRL_FREE; MMIO_CTRL_MAP; MMIO_CTRL_UNMAP].
Proof. split_and!; first [reflexivity | repeat constructor; vm_compute; congruence]. Qed.
