(* ===== verification/NameServer.v ===== *)
(** * The name service (user/server/ns/namespace_server.c, user/ns_proto.h) and
      its clients in user/userlib.c

    A ring-3 server keeps a table of at most sixteen names, each bound to a
    portal, a mailbox and a mail number.  A request arrives in a buffer the
    client shares with the server, and the answer goes back in the same
    buffer. *)

From stdpp Require Import base tactics list gmap.
From Stdlib Require Import ZArith Lia.
From S2P Require Import Prelude.

Open Scope Z_scope.

(** ** Data *)

Definition NS_MAX_ENTRIES : Z := 16.
Definition NS_NAME_LEN : Z := 32.

Definition NS_REGISTER : Z := 1.
Definition NS_LOOKUP : Z := 2.
Definition NS_UNREGISTER : Z := 3.

(** What a name is bound to. *)
Record binding := mk_bind { b_portal_id : Z; b_mailbox_tid : Z; b_mail_magic : Z }.
#[export] Instance binding_eq : EqDecision binding.
Proof. solve_decision. Defined.

(** [name] holds the 32 bytes of the array. *)
Record ns_request := mk_ns_request {
  nr_cmd : Z;
  nr_name : list Z;
  nr_ids : binding;
  nr_out : binding;
}.
Definition sizeof_ns_request : Z := 60.

Record ns_entry := mk_ns_entry { ne_name : list Z; ne_ids : binding }.

Record ns_state := mk_ns { ns_table : list ns_entry; ns_count : Z }.

Definition set_ns_table (t : list ns_entry) (s : ns_state) : ns_state := mk_ns t (ns_count s).
Definition set_ns_count (n : Z) (s : ns_state) : ns_state := mk_ns (ns_table s) n.

(** The statics at start. *)
Definition ns_zero : ns_state := mk_ns (replicate 16 (mk_ns_entry (replicate 32 0) (mk_bind 0 0 0))) 0.

(** ** The table *)

(** The bytes from the name on: the fields behind the array and what the
    mapping holds after the request. *)
Definition le32 (v : Z) : list Z := [v mod 256; v / 256 mod 256; v / 65536 mod 256; v / 16777216 mod 256].
Definition ids_bytes (b : binding) : list Z := le32 (b_portal_id b) ++ le32 (b_mailbox_tid b) ++ le32 (b_mail_magic b).
Definition from_name (r : ns_request) (after : list Z) : list Z :=
  nr_name r ++ ids_bytes (nr_ids r) ++ ids_bytes (nr_out r) ++ after.

(** The server and userlib.c have the same function.  [None]: no terminator
    before the end of the mapping. *)
Fixpoint ns_strlen (s : list Z) : option Z :=
  match s with
  | [] => None
  | c :: s => if c =? 0 then Some 0 else n ← ns_strlen s; Some (n + 1)
  end.

(** The inner loop of [ns_find] and the test after it. *)
Fixpoint same_name (a b : list Z) : option bool :=
  match a, b with
  | x :: a, y :: b =>
      if negb (x =? 0) && negb (y =? 0) && (x =? y) then same_name a b
      else Some ((x =? 0) && (y =? 0))
  | _, _ => None
  end.

Notation NM := (M ns_state).
Definition opt {S A} (o : option A) : M S A := match o with Some a => mret a | None => fault end.
Definition entry (i : nat) : NM ns_entry := deref (λ s, ns_table s !! i).

Fixpoint find_loop (n i : nat) (name : list Z) : NM Z :=
  match n with
  | O => mret (-1)
  | S n =>
      e ← entry i;
      b ← opt (same_name (ne_name e) name);
      if (b : bool) then mret (Z.of_nat i) else find_loop n (S i) name
  end.
Definition ns_find (name : list Z) : NM Z := c ← gets ns_count; find_loop (Z.to_nat c) 0 name.

(** [ns_table[idx].name[i] = name[i]] for [n] bytes from [i] on. *)
Fixpoint copy_name (n i : nat) (src dst : list Z) : list Z :=
  match n with
  | O => dst
  | S n => copy_name n (S i) src (<[i := default 0 (src !! i)]> dst)
  end.

(** [ns_table[i] = ns_table[i + 1]], [n] times from [i] on. *)
Fixpoint shift_down (n i : nat) : NM unit :=
  match n with
  | O => mret tt
  | S n =>
      e ← entry (S i);
      modify (λ s, set_ns_table (<[i := e]> (ns_table s)) s);;
      shift_down n (S i)
  end.

Definition ns_register_req (req : ns_request) (name : list Z) (len : Z) : NM Z :=
  idx ← ns_find name;
  c ← gets ns_count;
  if (idx <? 0) && (NS_MAX_ENTRIES <=? c) then mret (-2) else
  idx ← (if idx <? 0 then modify (set_ns_count (c + 1));; mret c else mret idx);
  e ← entry (Z.to_nat idx);
  let copied := copy_name (Z.to_nat len) 0 name (ne_name e) in
  modify (λ s, set_ns_table
    (<[Z.to_nat idx := mk_ns_entry (<[Z.to_nat len := 0]> copied) (nr_ids req)]> (ns_table s)) s);;
  mret 0.

Definition ns_lookup_req (req : ns_request) (name : list Z) : NM (Z * ns_request) :=
  idx ← ns_find name;
  if idx <? 0 then mret (-1, req) else
  e ← entry (Z.to_nat idx);
  mret (0, mk_ns_request (nr_cmd req) (nr_name req) (nr_ids req) (ne_ids e)).

Definition ns_unregister_req (name : list Z) : NM Z :=
  idx ← ns_find name;
  if idx <? 0 then mret (-1) else
  c ← gets ns_count;
  shift_down (Z.to_nat (c - 1 - idx)) (Z.to_nat idx);;
  modify (set_ns_count (c - 1));;
  mret 0.

(** The answer and the request as the client sees it afterwards; [after] is
    what the mapping holds behind the request. *)
Definition ns_handle (req : option ns_request) (after : list Z) (size : Z) : NM (Z * option ns_request) :=
  match req with
  | None => mret (-3, None)
  | Some req =>
      if size <? sizeof_ns_request then mret (-3, Some req) else
      let name := from_name req after in
      len ← opt (ns_strlen name);
      if (len =? 0) || (NS_NAME_LEN <=? len) then mret (-3, Some req) else
      if nr_cmd req =? NS_REGISTER then r ← ns_register_req req name len; mret (r, Some req) else
      if nr_cmd req =? NS_LOOKUP then r ← ns_lookup_req req name; mret (r.1, Some r.2) else
      if nr_cmd req =? NS_UNREGISTER then r ← ns_unregister_req name; mret (r, Some req) else
      mret (-3, Some req)
  end.

(** ** Strings in arrays *)

(** The string in an array, and that its terminator is there. *)
Fixpoint cstr (s : list Z) : list Z :=
  match s with
  | [] => []
  | c :: s => if c =? 0 then [] else c :: cstr s
  end.
Definition terminated (s : list Z) : Prop := 0 ∈ s.

Lemma ns_strlen_run s : terminated s → ns_strlen s = Some (Z.of_nat (length (cstr s))).
Proof.
  induction s as [|c s IH]; intros H; [by apply elem_of_nil in H|]. simpl.
  destruct (Z.eqb_spec c 0) as [->|Hc]; [done|].
  apply elem_of_cons in H as [?|H]; [congruence|]. rewrite (IH H). simpl. f_equal. lia.
Qed.

Lemma ns_strlen_terminated s n : ns_strlen s = Some n → terminated s.
Proof.
  revert n. induction s as [|c s IH]; simpl; intros n H; [done|].
  destruct (Z.eqb_spec c 0) as [->|]; [left|].
  destruct (ns_strlen s) as [k|] eqn:E; [|done]. right. by apply (IH k).
Qed.

Lemma same_name_run a b : terminated a → terminated b → same_name a b = Some (bool_decide (cstr a = cstr b)).
Proof.
  revert b. induction a as [|x a IH]; intros b Ha Hb; [by apply elem_of_nil in Ha|].
  destruct b as [|y b]; [by apply elem_of_nil in Hb|]. simpl.
  destruct (Z.eqb_spec x 0) as [->|Hx], (Z.eqb_spec y 0) as [->|Hy]; simpl.
  1-3: f_equal; symmetry; first [by apply bool_decide_eq_true | by apply bool_decide_eq_false].
  apply elem_of_cons in Ha as [?|Ha]; [congruence|]. apply elem_of_cons in Hb as [?|Hb]; [congruence|].
  destruct (Z.eqb_spec x y) as [->|Hxy].
  - rewrite (IH b Ha Hb). f_equal. apply bool_decide_ext. split; [by intros ->|by intros [=]].
  - f_equal. symmetry. apply bool_decide_eq_false. congruence.
Qed.

Lemma cstr_nonzero s : Forall (.≠ 0) (cstr s).
Proof. induction s as [|c s IH]; simpl; [done|]. destruct (Z.eqb_spec c 0); [done|]. by constructor. Qed.

Lemma cstr_app_zero s l : Forall (.≠ 0) s → cstr (s ++ 0 :: l) = s.
Proof.
  induction 1 as [|c s Hc _ IH]; simpl; [done|]. rewrite (proj2 (Z.eqb_neq c 0) Hc). by rewrite IH.
Qed.

(** A terminated array is its string, the terminator and the rest. *)
Lemma cstr_split s : terminated s → ∃ l, s = cstr s ++ 0 :: l.
Proof.
  induction s as [|c s IH]; intros H; [by apply elem_of_nil in H|]. simpl.
  destruct (Z.eqb_spec c 0) as [->|Hc]; [by exists s|].
  apply elem_of_cons in H as [?|H]; [congruence|]. destruct (IH H) as [l E]. exists l. simpl. by f_equal.
Qed.

Lemma cstr_app s l : terminated s → cstr (s ++ l) = cstr s.
Proof.
  intros H. destruct (cstr_split s H) as [t E]. rewrite E at 1. rewrite <- app_assoc. simpl.
  apply cstr_app_zero, cstr_nonzero.
Qed.

Lemma cstr_length s : terminated s → (length (cstr s) < length s)%nat.
Proof. intros H. destruct (cstr_split s H) as [t E]. rewrite E at 2. rewrite length_app. simpl. lia. Qed.

(** A short string ends inside its array. *)
Lemma short_terminated s l : terminated (s ++ l) → (length (cstr (s ++ l)) < length s)%nat → terminated s ∧ cstr (s ++ l) = cstr s.
Proof.
  intros H Hl. destruct (cstr_split _ H) as [t E].
  assert (E2 : take (length s) (s ++ l) = s) by apply take_app_length.
  rewrite E, take_app_ge in E2 by lia.
  destruct (length s - length (cstr (s ++ l)))%nat as [|k] eqn:Ek; [lia|]. simpl in E2.
  assert (Ht : terminated s) by (rewrite <- E2; apply elem_of_app; right; left).
  split; [done|]. by apply cstr_app.
Qed.

(** The copy loop and the terminator written after it. *)
Lemma copy_name_run n : ∀ i src dst,
  (i + n <= length src)%nat → (i + n <= length dst)%nat →
  copy_name n i src dst = take i dst ++ take n (drop i src) ++ drop (i + n) dst.
Proof.
  induction n as [|n IH]; intros i src dst Hs Hd; simpl.
  - by rewrite Nat.add_0_r, take_drop.
  - destruct (lookup_lt_is_Some_2 src i) as [x Hx]; [lia|]. rewrite Hx. simpl.
    rewrite IH by (rewrite ?length_insert; lia).
    rewrite (drop_S src x i Hx), drop_insert_lt by lia. simpl.
    rewrite (take_S_r _ i x) by (apply list_lookup_insert_eq; lia).
    rewrite take_insert_ge by lia. rewrite <- app_assoc. simpl. repeat f_equal. lia.
Qed.

(** ** Association lists *)

Section assoc.
Context {K V : Type} `{Countable K}.
Implicit Types l : list (K * V).

Lemma list_to_map_middle l1 k (v : V) l2 :
  NoDup (l1 ++ (k, v) :: l2).*1 →
  list_to_map (l1 ++ (k, v) :: l2) =@{gmap K V} <[k := v]> (list_to_map (l1 ++ l2)) ∧
  (list_to_map (l1 ++ l2) : gmap K V) !! k = None ∧ NoDup (l1 ++ l2).*1.
Proof.
  intros Hn. assert (P : l1 ++ (k, v) :: l2 ≡ₚ (k, v) :: l1 ++ l2) by (symmetry; apply Permutation_middle).
  rewrite (list_to_map_proper _ _ Hn P). assert (Hn' : NoDup ((k, v) :: l1 ++ l2).*1) by (by rewrite <- P).
  simpl in Hn'. apply NoDup_cons in Hn' as [Hk Hn']. split_and!; [done| |done].
  by apply not_elem_of_list_to_map_1.
Qed.

(** Rebinding and dropping the key at a position. *)
Lemma assoc_at l i k (v : V) :
  NoDup l.*1 → l !! i = Some (k, v) →
  (list_to_map l : gmap K V) !! k = Some v ∧
  (∀ v', list_to_map (<[i := (k, v')]> l) =@{gmap K V} <[k := v']> (list_to_map l) ∧ NoDup (<[i := (k, v')]> l).*1) ∧
  list_to_map (take i l ++ drop (S i) l) =@{gmap K V} delete k (list_to_map l) ∧ NoDup (take i l ++ drop (S i) l).*1.
Proof.
  intros Hn Hi. pose proof (take_drop_middle l i (k, v) Hi) as E. rewrite <- E in Hn.
  destruct (list_to_map_middle _ _ _ _ Hn) as (E1 & E2 & E3). rewrite E in E1.
  split_and!; [rewrite E1; apply lookup_insert_eq| | |done].
  - intros v'. rewrite insert_take_drop by (by eapply lookup_lt_Some).
    assert (Hn' : NoDup (take i l ++ (k, v') :: drop (S i) l).*1) by (by rewrite fmap_app in *).
    split; [|done]. rewrite E1, insert_insert_eq. apply (list_to_map_middle _ _ _ _ Hn').
  - rewrite E1. symmetry. by apply delete_insert_id.
Qed.

Lemma assoc_absent l k : k ∉ l.*1 → NoDup l.*1 →
  (list_to_map l : gmap K V) !! k = None ∧ ∀ v, list_to_map (l ++ [(k, v)]) =@{gmap K V} <[k := v]> (list_to_map l) ∧ NoDup (l ++ [(k, v)]).*1.
Proof.
  intros Hk Hn. split; [by apply not_elem_of_list_to_map_1|]. intros v. split; [by apply list_to_map_snoc|].
  rewrite fmap_app. apply NoDup_app. split_and!; [done| |apply NoDup_singleton].
  intros x Hx ->%list_elem_of_singleton. done.
Qed.

Lemma size_list_to_map l : NoDup l.*1 → size (list_to_map l : gmap K V) = length l.
Proof.
  induction l as [|[k v] l IH]; simpl; intros Hn; [apply map_size_empty|].
  apply NoDup_cons in Hn as [Hk Hn]. rewrite map_size_insert_None; [f_equal; by apply IH|by apply not_elem_of_list_to_map_1].
Qed.
End assoc.

(** ** The table as a finite map *)

Definition row (e : ns_entry) : list Z * binding := (cstr (ne_name e), ne_ids e).
Definition rows (s : ns_state) : list (list Z * binding) := row <$> take (Z.to_nat (ns_count s)) (ns_table s).
Definition names (s : ns_state) : gmap (list Z) binding := list_to_map (rows s).

Record ns_ok (s : ns_state) : Prop := {
  ns_len : length (ns_table s) = 16%nat;
  ns_cnt : 0 <= ns_count s <= 16;
  ns_arrays : Forall (λ e, length (ne_name e) = 32%nat) (ns_table s);
  ns_terminated : Forall (λ e, terminated (ne_name e)) (take (Z.to_nat (ns_count s)) (ns_table s));
  ns_distinct : NoDup (rows s).*1;
}.

Lemma ns_zero_ok : ns_ok ns_zero ∧ names ns_zero = ∅.
Proof.
  split; [|done]. split; simpl; [done|lia| |constructor|constructor]. by repeat constructor.
Qed.

(** [ns_find] answers with the position of the name, or -1. *)
Lemma find_loop_run name : terminated name → ∀ n i s es,
  take n (drop i (ns_table s)) = es → length es = n → Forall (λ e, terminated (ne_name e)) es →
  find_loop n i name s =
    Ret (match list_find (λ e, cstr (ne_name e) = cstr name) es with Some (j, _) => Z.of_nat (i + j) | None => -1 end) s.
Proof.
  intros Hname. induction n as [|n IH]; intros i s es He Hl Ht; [by destruct es|].
  destruct es as [|e es]; [done|]. apply Forall_cons in Ht as [Ht Hts]. simpl in Hl.
  assert (Hi : ns_table s !! i = Some e).
  { rewrite <- (Nat.add_0_r i), <- lookup_drop, <- (lookup_take_lt _ (S n)) by lia. by rewrite He. }
  rewrite (drop_S _ _ _ Hi) in He. simpl in He. injection He as He.
  cbn [find_loop]. rewrite (bind_Ret _ _ _ e s) by (by apply deref_Some).
  rewrite same_name_run by done. simpl. unfold opt. rewrite bind_ret.
  destruct (decide (cstr (ne_name e) = cstr name)) as [E|E].
  - rewrite bool_decide_eq_true_2 by done. by rewrite Nat.add_0_r.
  - rewrite bool_decide_eq_false_2 by done. rewrite (IH (S i) s es) by (done || lia).
    destruct (list_find _ es) as [[j x]|]; simpl; [|done]. f_equal. lia.
Qed.

Lemma ns_find_run s name : ns_ok s → terminated name →
  (∃ i b, ns_find name s = Ret (Z.of_nat i) s ∧ rows s !! i = Some (cstr name, b)) ∨
  (ns_find name s = Ret (-1) s ∧ cstr name ∉ (rows s).*1).
Proof.
  intros Hs Hname. unfold ns_find. erewrite (bind_Ret (gets ns_count)); [|reflexivity].
  rewrite (find_loop_run name Hname _ 0 s (take (Z.to_nat (ns_count s)) (ns_table s)));
    [|by rewrite drop_0|rewrite length_take, (ns_len s Hs); pose proof (ns_cnt s Hs); lia|apply Hs].
  destruct (list_find _ _) as [[j e]|] eqn:E; [left|right].
  - apply list_find_Some in E as (Hj & He & _). exists j, (ne_ids e). split; [done|].
    unfold rows. rewrite list_lookup_fmap, Hj. simpl. unfold row. by rewrite He.
  - split; [done|]. apply list_find_None in E. intros H. unfold rows in H.
    rewrite <- list_fmap_compose in H. apply list_elem_of_fmap in H as (e & He & Hin).
    rewrite Forall_forall in E. by apply (E e Hin).
Qed.

(** A row that is in use lies in the table. *)
Lemma rows_entry s i k b : rows s !! i = Some (k, b) →
  (i < Z.to_nat (ns_count s))%nat ∧ ∃ e, ns_table s !! i = Some e ∧ cstr (ne_name e) = k ∧ ne_ids e = b.
Proof.
  unfold rows. rewrite list_lookup_fmap. destruct (take _ _ !! i) as [e|] eqn:E; [|done]. intros [= <- <-].
  apply lookup_take_Some in E as [E Hi]. split; [done|]. by exists e.
Qed.

Lemma rows_length s : ns_ok s → length (rows s) = Z.to_nat (ns_count s).
Proof. intros Hs. unfold rows. rewrite length_fmap, length_take, (ns_len s Hs). pose proof (ns_cnt s Hs). lia. Qed.

(** The shift of the entries behind a removed one. *)
Lemma shift_down_run n : ∀ i s,
  (i + n < length (ns_table s))%nat →
  ∃ t, shift_down n i s = Ret tt (set_ns_table t s) ∧
    t = take i (ns_table s) ++ take n (drop (S i) (ns_table s)) ++ drop (i + n) (ns_table s).
Proof.
  induction n as [|n IH]; intros i s Hl; simpl.
  - eexists. split; [|reflexivity]. by rewrite Nat.add_0_r, take_drop; destruct s.
  - destruct (lookup_lt_is_Some_2 (ns_table s) (S i)) as [e He]; [lia|].
    rewrite (bind_Ret _ _ _ e s) by (by apply deref_Some). erewrite bind_Ret; [|reflexivity].
    destruct (IH (S i) (set_ns_table (<[i := e]> (ns_table s)) s)) as (t & E & Et); [simpl; rewrite length_insert; lia|].
    simpl in Et. eexists. split; [exact E|]. rewrite Et.
    rewrite (take_S_r _ i e) by (apply list_lookup_insert_eq; lia). rewrite take_insert_ge by lia.
    rewrite !drop_insert_lt by lia. rewrite (drop_S _ _ _ He). simpl. rewrite <- app_assoc. simpl. repeat f_equal. lia.
Qed.

(** ** The three commands on the map *)

(** Writing an entry in use, or the first free one. *)
Lemma ns_ok_write s i k b e :
  ns_ok s → (i <= Z.to_nat (ns_count s))%nat → (i < 16)%nat →
  length (ne_name e) = 32%nat → terminated (ne_name e) → row e = (k, b) →
  let c := if decide (i = Z.to_nat (ns_count s)) then ns_count s + 1 else ns_count s in
  let s' := mk_ns (<[i := e]> (ns_table s)) c in
  (∀ v, rows s !! i = Some (k, v) → ns_ok s' ∧ names s' = <[k := b]> (names s)) ∧
  (i = Z.to_nat (ns_count s) → k ∉ (rows s).*1 → ns_ok s' ∧ names s' = <[k := b]> (names s)).
Proof.
  intros Hs Hi Hi16 Hl Ht Hrow c s'. pose proof (ns_cnt s Hs) as Hc. pose proof (ns_len s Hs) as Hlen.
  assert (Harr : Forall (λ e, length (ne_name e) = 32%nat) (ns_table s')) by (apply Forall_insert; [apply Hs|done]).
  assert (Hlen' : length (ns_table s') = 16%nat) by (simpl; by rewrite length_insert).
  split.
  - intros v Hv. destruct (rows_entry s i k v Hv) as [Hlt _].
    assert (c = ns_count s) as Ec by (unfold c; by rewrite decide_False by lia).
    assert (Er : rows s' = <[i := (k, b)]> (rows s)).
    { unfold rows, s'. simpl. rewrite Ec, take_insert_lt, list_fmap_insert by lia. by rewrite Hrow. }
    destruct (assoc_at _ i k v (ns_distinct s Hs) Hv) as (_ & Hins & _). destruct (Hins b) as [E Hn].
    split; [|unfold names; by rewrite Er].
    split; [done|unfold s'; simpl; lia|done| |by rewrite Er].
    unfold s'. simpl. rewrite Ec, take_insert_lt by lia. apply Forall_insert; [apply Hs|done].
  - intros -> Hk. assert (c = ns_count s + 1) as Ec by (unfold c; by rewrite decide_True by lia).
    assert (Etake : take (Z.to_nat c) (<[Z.to_nat (ns_count s) := e]> (ns_table s)) =
                    take (Z.to_nat (ns_count s)) (ns_table s) ++ [e]).
    { rewrite Ec. replace (Z.to_nat (ns_count s + 1)) with (S (Z.to_nat (ns_count s))) by lia.
      rewrite (take_S_r _ _ e) by (apply list_lookup_insert_eq; lia). by rewrite take_insert_ge by lia. }
    assert (Er : rows s' = rows s ++ [(k, b)]).
    { unfold rows, s'. simpl. rewrite Etake, fmap_app. simpl. by rewrite Hrow. }
    destruct (assoc_absent _ _ Hk (ns_distinct s Hs)) as [_ Hins]. destruct (Hins b) as [E Hn].
    split; [|unfold names; by rewrite Er].
    split; [done|unfold s'; simpl; lia|done| |by rewrite Er].
    unfold s'. simpl. rewrite Etake. apply Forall_app. split; [apply Hs|]. by repeat constructor.
Qed.

(** A request whose name is a proper C string in its array. *)
Record named (r : ns_request) (name : list Z) : Prop := {
  nm_array : length (nr_name r) = 32%nat;
  nm_string : cstr (nr_name r) = name;
  nm_terminated : terminated (nr_name r);
  nm_nonempty : name ≠ [];
}.

Lemma named_length r name : named r name → (0 < length name < 32)%nat.
Proof.
  intros [Ha <- Ht Hn]. pose proof (cstr_length _ Ht). destruct (cstr (nr_name r)); [done|]. simpl in *. lia.
Qed.

Lemma named_from r name after : named r name → cstr (from_name r after) = name ∧ terminated (from_name r after).
Proof.
  intros [Ha <- Ht Hn]. unfold from_name. split; [by apply cstr_app|]. apply elem_of_app. by left.
Qed.

(** The entry after the copy loop holds the name and its terminator. *)
Lemma copied_entry name dst ids : terminated name → (length (cstr name) < 32)%nat → length dst = 32%nat →
  let e := mk_ns_entry (<[length (cstr name) := 0]> (copy_name (length (cstr name)) 0 name dst)) ids in
  length (ne_name e) = 32%nat ∧ terminated (ne_name e) ∧ row e = (cstr name, ids).
Proof.
  intros Ht Hl Hd e. destruct (cstr_split _ Ht) as [rest E].
  assert (Ee : ne_name e = cstr name ++ 0 :: drop (S (length (cstr name))) dst).
  { unfold e. simpl. rewrite copy_name_run; [|rewrite E at 2; rewrite length_app; lia|lia]. simpl. rewrite drop_0.
    assert (Et : take (length (cstr name)) name = cstr name) by (rewrite E at 2; apply take_app_length). rewrite Et.
    destruct (lookup_lt_is_Some_2 dst (length (cstr name))) as [x Hx]; [lia|].
    rewrite (drop_S _ _ _ Hx). by rewrite insert_app_r_alt, Nat.sub_diag by lia. }
  split_and!.
  - rewrite Ee, length_app. simpl. rewrite length_drop. lia.
  - rewrite Ee. apply elem_of_app. right. left.
  - unfold row. rewrite Ee. simpl. rewrite cstr_app_zero; [done|]. apply cstr_nonzero.
Qed.

Lemma register_run s req name after :
  ns_ok s → named req name →
  ∃ s', ns_register_req req (from_name req after) (Z.of_nat (length name)) s =
      Ret (if bool_decide (is_Some (names s !! name) ∨ (size (names s) < 16)%nat) then 0 else -2) s' ∧ ns_ok s' ∧
    names s' = if bool_decide (is_Some (names s !! name) ∨ (size (names s) < 16)%nat) then <[name := nr_ids req]> (names s) else names s.
Proof.
  intros Hs Hr. destruct (named_from req name after Hr) as [En Ht]. pose proof (named_length _ _ Hr) as Hlen.
  pose proof (ns_cnt s Hs) as Hc. unfold ns_register_req.
  assert (Esz : size (names s) = Z.to_nat (ns_count s)).
  { unfold names. rewrite size_list_to_map by apply Hs. by apply rows_length. }
  destruct (ns_find_run s _ Hs Ht) as [(i & v & E & Hi)|[E Hk]]; rewrite (bind_Ret _ _ _ _ _ E);
    (erewrite (bind_Ret (gets ns_count)); [|reflexivity]); rewrite En in *.
  - destruct (rows_entry s i _ _ Hi) as (Hlt & e & He & _).
    rewrite (proj2 (Z.ltb_ge (Z.of_nat i) 0)) by lia. simpl. rewrite bind_ret, Nat2Z.id.
    rewrite (bind_Ret _ _ _ e s) by (by apply deref_Some). rewrite Nat2Z.id.
    destruct (copied_entry (from_name req after) (ne_name e) (nr_ids req)) as (H1 & H2 & H3);
      [done|rewrite En; lia|by apply (Forall_lookup_1 _ _ _ _ (ns_arrays s Hs) He)|]. rewrite En in *.
    destruct (ns_ok_write s i name (nr_ids req) _ Hs ltac:(lia) ltac:(lia) H1 H2 H3) as [Hw _].
    destruct (Hw v Hi) as [Hok Hnames]. rewrite decide_False in Hok, Hnames by lia.
    eexists. split; [|split; [exact Hok|]].
    + rewrite bool_decide_eq_true_2; [reflexivity|]. left. exists v. by apply (assoc_at _ i name v (ns_distinct s Hs) Hi).
    + rewrite Hnames, bool_decide_eq_true_2; [done|]. left. exists v. by apply (assoc_at _ i name v (ns_distinct s Hs) Hi).
  - destruct (assoc_absent _ _ Hk (ns_distinct s Hs)) as [Hnone _]. change (names s !! name = None) in Hnone.
    destruct (Z.leb_spec NS_MAX_ENTRIES (ns_count s)) as [Hfull|Hroom]; simpl; unfold NS_MAX_ENTRIES in *.
    + exists s. rewrite bool_decide_eq_false_2; [done|]. rewrite Hnone, Esz. intros [[? ?]|?]; [done|lia].
    + erewrite bind_Ret; [|reflexivity].
      destruct (lookup_lt_is_Some_2 (ns_table s) (Z.to_nat (ns_count s))) as [e He]; [rewrite (ns_len s Hs); lia|].
      rewrite (bind_Ret _ _ _ e (set_ns_count (ns_count s + 1) s)) by (by apply deref_Some). rewrite Nat2Z.id.
      destruct (copied_entry (from_name req after) (ne_name e) (nr_ids req)) as (H1 & H2 & H3);
        [done|rewrite En; lia|by apply (Forall_lookup_1 _ _ _ _ (ns_arrays s Hs) He)|]. rewrite En in *.
      destruct (ns_ok_write s (Z.to_nat (ns_count s)) name (nr_ids req) _ Hs ltac:(lia) ltac:(lia) H1 H2 H3) as [_ Hw].
      destruct (Hw eq_refl Hk) as [Hok Hnames]. rewrite decide_True in Hok, Hnames by lia.
      eexists. split; [|split; [exact Hok|]].
      * rewrite bool_decide_eq_true_2; [reflexivity|]. right. lia.
      * rewrite Hnames, bool_decide_eq_true_2; [done|]. right. lia.
Qed.

Lemma lookup_run s req name after :
  ns_ok s → named req name →
  ns_lookup_req req (from_name req after) s =
    Ret (match names s !! name with
         | Some b => (0, mk_ns_request (nr_cmd req) (nr_name req) (nr_ids req) b)
         | None => (-1, req)
         end) s.
Proof.
  intros Hs Hr. destruct (named_from req name after Hr) as [En Ht]. unfold ns_lookup_req.
  destruct (ns_find_run s _ Hs Ht) as [(i & v & E & Hi)|[E Hk]]; rewrite (bind_Ret _ _ _ _ _ E); rewrite En in *.
  - destruct (rows_entry s i _ _ Hi) as (Hlt & e & He & _ & <-).
    rewrite (proj2 (Z.ltb_ge (Z.of_nat i) 0)) by lia. rewrite Nat2Z.id, (bind_Ret _ _ _ e s) by (by apply deref_Some).
    unfold names. rewrite (proj1 (assoc_at _ i name _ (ns_distinct s Hs) Hi)). done.
  - unfold names. by rewrite (proj1 (assoc_absent _ _ Hk (ns_distinct s Hs))).
Qed.

Lemma unregister_run s req name after :
  ns_ok s → named req name →
  ∃ s', ns_unregister_req (from_name req after) s = Ret (match names s !! name with Some _ => 0 | None => -1 end) s' ∧
    ns_ok s' ∧ names s' = delete name (names s).
Proof.
  intros Hs Hr. destruct (named_from req name after Hr) as [En Ht]. unfold ns_unregister_req.
  pose proof (ns_cnt s Hs) as Hc. pose proof (ns_len s Hs) as Hlen.
  destruct (ns_find_run s _ Hs Ht) as [(i & v & E & Hi)|[E Hk]]; rewrite (bind_Ret _ _ _ _ _ E); rewrite En in *.
  2: { pose proof (proj1 (assoc_absent _ _ Hk (ns_distinct s Hs))) as Hn. change (names s !! name = None) in Hn.
       exists s. rewrite Hn. split_and!; [done|done|]. by rewrite delete_id. }
  destruct (rows_entry s i _ _ Hi) as (Hlt & _). rewrite (proj2 (Z.ltb_ge (Z.of_nat i) 0)) by lia.
  erewrite (bind_Ret (gets ns_count)); [|reflexivity].
  destruct (shift_down_run (Z.to_nat (ns_count s - 1 - Z.of_nat i)) (Z.to_nat (Z.of_nat i)) s) as (t & Es & Et); [lia|].
  rewrite (bind_Ret _ _ _ _ _ Es). erewrite bind_Ret; [|reflexivity]. rewrite Nat2Z.id in Et.
  destruct (assoc_at _ i name v (ns_distinct s Hs) Hi) as (Hv & _ & Hdel & Hnd).
  eexists. split; [unfold names; rewrite Hv; reflexivity|].
  assert (Ek : take (Z.to_nat (ns_count s - 1)) t =
     take i (take (Z.to_nat (ns_count s)) (ns_table s)) ++ drop (S i) (take (Z.to_nat (ns_count s)) (ns_table s))).
  { rewrite Et, app_assoc, take_app_le, take_ge.
    - rewrite take_take, Nat.min_l by lia. f_equal. rewrite skipn_firstn_comm. f_equal. lia.
    - rewrite length_app, !length_take, length_drop. lia.
    - rewrite length_app, !length_take, length_drop. lia. }
  assert (Er : rows (set_ns_count (ns_count s - 1) (set_ns_table t s)) = take i (rows s) ++ drop (S i) (rows s)).
  { unfold rows. simpl. rewrite Ek, fmap_app. by rewrite fmap_take, fmap_drop. }
  split; [|unfold names; by rewrite Er].
  split; simpl.
  - rewrite Et, !length_app, !length_take, !length_drop. lia.
  - lia.
  - rewrite Et, !Forall_app. split_and!; [apply Forall_take|apply Forall_take, Forall_drop|apply Forall_drop]; apply Hs.
  - rewrite Ek, Forall_app. split; [apply Forall_take|apply Forall_drop]; apply Hs.
  - by rewrite Er.
Qed.

(** ** What the service promises: a finite map of at most sixteen names *)

(** One command on the map: the status, what a lookup stores and the map. *)
Definition serve (cmd : Z) (name : list Z) (ids out : binding) (m : gmap (list Z) binding) : Z * binding * gmap (list Z) binding :=
  if cmd =? NS_REGISTER then
    if bool_decide (is_Some (m !! name) ∨ (size m < 16)%nat) then (0, out, <[name := ids]> m) else (-2, out, m)
  else if cmd =? NS_LOOKUP then
    match m !! name with Some b => (0, b, m) | None => (-1, out, m) end
  else if cmd =? NS_UNREGISTER then
    match m !! name with Some _ => (0, out, delete name m) | None => (-1, out, m) end
  else (-3, out, m).

Lemma ns_handle_named s req name after size :
  ns_ok s → named req name → sizeof_ns_request <= size →
  ∃ s', ns_handle (Some req) after size s =
      Ret ((serve (nr_cmd req) name (nr_ids req) (nr_out req) (names s)).1.1,
           Some (mk_ns_request (nr_cmd req) (nr_name req) (nr_ids req) (serve (nr_cmd req) name (nr_ids req) (nr_out req) (names s)).1.2)) s' ∧
    ns_ok s' ∧ names s' = (serve (nr_cmd req) name (nr_ids req) (nr_out req) (names s)).2.
Proof.
  intros Hs Hr Hsz. destruct (named_from req name after Hr) as [En Ht]. pose proof (named_length _ _ Hr) as Hlen.
  assert (Eself : req = mk_ns_request (nr_cmd req) (nr_name req) (nr_ids req) (nr_out req)) by (by destruct req).
  unfold ns_handle, serve. rewrite (proj2 (Z.ltb_ge size _) Hsz). rewrite ns_strlen_run, En by done. unfold opt. rewrite bind_ret.
  rewrite (proj2 (Z.eqb_neq _ 0)), (proj2 (Z.leb_gt NS_NAME_LEN _)) by (unfold NS_NAME_LEN; lia). cbn [orb].
  destruct (nr_cmd req =? NS_REGISTER) eqn:E1; [|destruct (nr_cmd req =? NS_LOOKUP) eqn:E2; [|destruct (nr_cmd req =? NS_UNREGISTER) eqn:E3]].
  - destruct (register_run s req name after Hs Hr) as (s' & E & Hok & Hn). exists s'. rewrite (bind_Ret _ _ _ _ _ E).
    destruct (bool_decide _); simpl; rewrite <- Eself; by split_and!.
  - exists s. rewrite (bind_Ret _ _ _ _ _ (lookup_run s req name after Hs Hr)).
    destruct (names s !! name); simpl; rewrite <- ?Eself; by split_and!.
  - destruct (unregister_run s req name after Hs Hr) as (s' & E & Hok & Hn). exists s'. rewrite (bind_Ret _ _ _ _ _ E).
    destruct (names s !! name) eqn:El; simpl; rewrite <- Eself; split_and!; try done. by rewrite Hn, delete_id.
  - exists s. simpl. by rewrite <- Eself.
Qed.

(** A request is well formed when it is large enough and its name is a string
    of 1 to 31 bytes; a malformed one still needs a terminator somewhere in
    the mapping. *)
Definition well_formed (req : ns_request) (size : Z) (name : list Z) : Prop :=
  named req name ∧ sizeof_ns_request <= size.

(** C34: The name server implements a finite map of at most sixteen names.
    From any table with distinct terminated names it answers every request
    whose mapping holds a terminator: a well-formed one (1 to 31 bytes of
    name, a payload of at least the structure) with the status, the result and
    the new map of the specification [serve] - bind or rebind, resolve, drop,
    -1 for an unknown name, -2 for a seventeenth name, -3 for an unknown
    command - and any other with -3 and an unchanged table.  The table stays
    well formed. *)
Theorem ns_handle_refines_map s req after size :
  ns_ok s → length (nr_name req) = 32%nat → terminated (from_name req after) →
  ∃ r req' s', ns_handle (Some req) after size s = Ret (r, Some req') s' ∧ ns_ok s' ∧
    ((∃ name, well_formed req size name ∧
        (r, nr_out req', names s') = serve (nr_cmd req) name (nr_ids req) (nr_out req) (names s) ∧
        req' = mk_ns_request (nr_cmd req) (nr_name req) (nr_ids req) (nr_out req')) ∨
     ((∀ name, ¬ well_formed req size name) ∧ r = -3 ∧ req' = req ∧ s' = s)).
Proof.
  intros Hs Hl Ht.
  destruct (Z.ltb_spec size sizeof_ns_request) as [Hsz|Hsz].
  { exists (-3), req, s. unfold ns_handle. rewrite (proj2 (Z.ltb_lt _ _) Hsz). split; [done|split; [done|right]].
    split; [|done]. intros name [_ ?]. lia. }
  destruct (decide (0 < length (cstr (from_name req after)) < 32)%nat) as [Hn|Hn].
  - destruct (short_terminated (nr_name req) _ Ht ltac:(fold (from_name req after); lia)) as [Ht' Ec].
    fold (from_name req after) in Ec.
    assert (Hr : named req (cstr (nr_name req))) 
      by (split; try done; rewrite <- Ec; intros E0; rewrite E0 in Hn; simpl in Hn; lia).
    destruct (ns_handle_named s req _ after size Hs Hr Hsz) as (s' & E & Hok & Hnames).
    do 3 eexists. split; [exact E|split; [done|left]]. exists (cstr (nr_name req)).
    split; [done|split; [|done]]. rewrite Hnames. simpl. by destruct (serve _ _ _ _ _) as [[??]?].
  - exists (-3), req, s. unfold ns_handle. rewrite (proj2 (Z.ltb_ge size _) Hsz), ns_strlen_run by done. unfold opt. rewrite bind_ret.
    split; [|split; [done|right]].
    + destruct ((_ =? 0) || (NS_NAME_LEN <=? _)) eqn:E; [done|]. apply orb_false_iff in E as [E1 E2].
      apply Z.eqb_neq in E1. apply Z.leb_gt in E2. unfold NS_NAME_LEN in E2. lia.
    + split; [|done]. intros name [Hr _]. destruct (named_from req name after Hr) as [En _].
      pose proof (named_length _ _ Hr). rewrite En in Hn. lia.
Qed.

Definition console : list Z := [99; 111; 110; 115; 111; 108; 101].
Definition console_request : ns_request :=
  mk_ns_request NS_REGISTER (console ++ replicate 25 0) (mk_bind 2 0 0) (mk_bind 0 0 0).

Lemma ns_handle_refines_map_witness :
  ∃ r req' s', ns_handle (Some console_request) [] 60 ns_zero = Ret (r, Some req') s' ∧ ns_ok s' ∧
    ((∃ name, well_formed console_request 60 name ∧
        (r, nr_out req', names s') = serve (nr_cmd console_request) name (nr_ids console_request) (nr_out console_request) (names ns_zero) ∧
        req' = mk_ns_request (nr_cmd console_request) (nr_name console_request) (nr_ids console_request) (nr_out req')) ∨
     ((∀ name, ¬ well_formed console_request 60 name) ∧ r = -3 ∧ req' = console_request ∧ s' = ns_zero)).
Proof.
  apply (ns_handle_refines_map ns_zero console_request [] 60); [apply ns_zero_ok|reflexivity|].
  apply elem_of_app. left. apply elem_of_app. right. vm_compute. left.
Defined.

(** The length is taken before it is compared with the array: a name without
    terminator at the end of its mapping makes the server read past it. *)
Example ns_name_runs_off :
  let b := mk_bind 16843009 16843009 16843009 in
  ns_handle (Some (mk_ns_request NS_LOOKUP (replicate 32 65) b b)) [] 60 ns_zero = Fault.
Proof. reflexivity. Qed.
