(* ===== verification/UserLib.v ===== *)
(** * The library of ring-3 programs (user/userlib.c, user/userlib.h,
      include/user/uspinlock.h)

    Every function fills a parameter block and traps; the trap is the class
    [Gate].  The structures are the kernel's (Abi.v shows that the two
    declarations agree), so one record serves both sides. *)

From stdpp Require Import base tactics list gmap.
From Stdlib Require Import ZArith Lia.
From S2P Require Import Prelude Spinlock Allocator RbTree Pmm Paging PageSpaces Vmm VmmSpace VmmOps VmmMap Heap KState Sched KernelVm ThreadApi Mmio Portal Mailbox Irq Process Abi NameServer.

Open Scope Z_scope.

Definition SYSCALL_PROC_THREAD : Z := 0.
Definition SYSCALL_IRQ : Z := 1.
Definition SYSCALL_MAILBOX : Z := 2.
Definition SYSCALL_PORTAL : Z := 3.
Definition SYSCALL_HEAP : Z := 4.
Definition SYSCALL_MMIO : Z := 6.

Definition NS_NAME_CONSOLE : list Z := [99; 111; 110; 115; 111; 108; 101; 0].
Definition NS_NAME_LOG : list Z := [108; 111; 103; 0].
Definition NS_NAME_RTC : list Z := [114; 116; 99; 0].

(** ** Messages of the servers (user/server/server_msgs.h) *)

Definition GFX_FB_SIZE : Z := 64000.
Definition GFX_MODE_TEXT : Z := 3.
Definition GFX_MODE_13 : Z := 19.
Definition GFX_CTRL_SET_MODE : Z := 1.
Definition GFX_CTRL_BLIT : Z := 2.
Record gfx_ctrl := mk_gfx { g_esc : Z; g_tag : Z; g_cmd : Z; g_reserved : Z; g_a : Z; g_b : Z }.
Definition sizeof_gfx_ctrl : Z := 12.

Definition RTC_CMD_GET_TIME : Z := 1.
Definition RTC_CMD_SLEEP_MS : Z := 2.
Record rtc_time := mk_time { tm_year : Z; tm_month : Z; tm_day : Z; tm_hour : Z; tm_minute : Z; tm_second : Z }.
Record rtc_request := mk_rtc { rr_cmd : Z; rr_sleep_ms : Z; rr_time : rtc_time }.

(** [user_portal_call] on a local object of the caller: the answer and the
    object as the server left it. *)
Class Rpc (S T : Type) := rpc : Z → T → M S (Z * T).

(** The caches of portal numbers and the staging buffer: statics. *)
Record ulib := mk_ulib {
  console_portal : Z;
  log_portal : Z;
  rtc_portal : Z;
  stage_hdr : gfx_ctrl;
  stage_fb : list Z;
}.
Definition set_console_portal (v : Z) (u : ulib) : ulib := mk_ulib v (log_portal u) (rtc_portal u) (stage_hdr u) (stage_fb u).
Definition set_log_portal (v : Z) (u : ulib) : ulib := mk_ulib (console_portal u) v (rtc_portal u) (stage_hdr u) (stage_fb u).
Definition set_rtc_portal (v : Z) (u : ulib) : ulib := mk_ulib (console_portal u) (log_portal u) v (stage_hdr u) (stage_fb u).
Definition set_stage (h : gfx_ctrl) (fb : list Z) (u : ulib) : ulib := mk_ulib (console_portal u) (log_portal u) (rtc_portal u) h fb.

(** ** Spinlocks of ring 3 *)

(** The lock word: [__atomic_exchange_n] and [__atomic_compare_exchange_n]
    are one step each. *)
Definition uspinlock : Type := Z.
Definition uspin_lock : M uspinlock unit := λ l, if l =? 1 then Spin else Ret tt 1.
Definition uspin_unlock : M uspinlock unit := λ _, Ret tt 0.
Definition uspin_trylock : M uspinlock Z := λ l,
  let r := if l =? 0 then (true, 1) else (false, l) in
  Ret (if (r.1 : bool) then 0 else 1) r.2.

Section userlib.
Context {S : Type} `{!Gate S proc_thread_ctrl_config, !Gate S portal_ctrl_config, !Gate S irq_ctrl_config,
  !Gate S mailbox_ctrl_config, !Gate S heap_ctrl_config, !Gate S mmio_syscall_data}.

Definition user_syscall {C} `{!Gate S C} (num : Z) (arg : C) : M S (Z * C) := int_100 num arg.

(** ** Threads and processes *)

Definition proc_sys (c : proc_thread_ctrl_config) : M S proc_thread_ctrl_config :=
  r ← user_syscall SYSCALL_PROC_THREAD c; mret r.2.

Definition user_yield : M S unit := proc_sys (ptc U_THREAD_CTRL_YIELD 0 0);; mret tt.
Definition user_thread_create (priv entry param : Z) : M S Z :=
  c ← proc_sys (mk_ptc U_THREAD_CTRL_CREATE 0 0 priv entry 0 0 param); mret (pc_tid c).
Definition user_thread_exit (tid : Z) : M S unit := proc_sys (ptc U_THREAD_CTRL_DELETE 0 tid);; mret tt.
Definition user_thread_block (tid : Z) : M S unit := proc_sys (ptc U_THREAD_CTRL_BLOCK 0 tid);; mret tt.
Definition user_thread_unblock (tid : Z) : M S unit := proc_sys (ptc U_THREAD_CTRL_UNBLOCK 0 tid);; mret tt.
Definition user_thread_get_tid : M S Z := c ← proc_sys (ptc U_THREAD_CTRL_GET_TID 0 0); mret (pc_tid c).
Definition user_proc_create (priv entry param : Z) : M S Z :=
  c ← proc_sys (mk_ptc U_PROC_CTRL_CREATE 0 0 priv entry 0 0 param); mret (pc_pid c).
Definition user_proc_exit (pid : Z) : M S unit := proc_sys (ptc U_PROC_CTRL_EXIT pid 0);; mret tt.
Definition user_proc_block (pid : Z) : M S unit := proc_sys (ptc U_PROC_CTRL_BLOCK pid 0);; mret tt.
Definition user_proc_unblock (pid : Z) : M S unit := proc_sys (ptc U_PROC_CTRL_UNBLOCK pid 0);; mret tt.
Definition user_proc_get_pid : M S Z := c ← proc_sys (ptc U_PROC_CTRL_GET_PID 0 0); mret (pc_pid c).

Fixpoint yields (n : nat) : M S unit := match n with O => mret tt | Datatypes.S n => user_yield;; yields n end.
Definition user_delay_ms (ms : Z) : M S unit := yields (Z.to_nat (ms *u 50)).

(** ** Portal calls *)

Definition portal_sys (c : portal_ctrl_config) : M S (Z * portal_ctrl_config) := user_syscall SYSCALL_PORTAL c.

(** Park, fetch the answer, tear down: the last three traps of a call. *)
Definition finish_call (c : portal_ctrl_config) (req : Z) : M S Z :=
  r2 ← portal_sys (cf_set_req req (cf_set_cmd U_PORTAL_CTRL_WAIT_REPLY c));
  r3 ← portal_sys (cf_set_req req (cf_set_cmd U_PORTAL_CTRL_GET_RESULT r2.2));
  let ret := cf_ret r3.2 in
  portal_sys (cf_set_req req (cf_set_cmd U_PORTAL_CTRL_CLEANUP r3.2));;
  mret ret.

Definition user_portal_call (portal_id va size : Z) : M S Z :=
  r1 ← portal_sys (mk_pcfg U_PORTAL_CTRL_CALL 0 portal_id va size 0 0 0);
  if negb (r1.1 =? 0) then mret r1.1 else
  let req := cf_req r1.2 in
  if req =? 0 then mret (-1) else
  finish_call r1.2 req.

(** ** Names *)

Context `{!Rpc S ns_request, !Rpc S gfx_ctrl, !Rpc S rtc_request}.

Definition ns_call (req : ns_request) : M S (Z * ns_request) := rpc PORTAL_ID_NAMESPACE req.

(** The request with a copy of the name, or nothing when the name is null,
    empty or too long. *)
Definition ns_make (cmd : Z) (name : option (list Z)) (ids : binding) : M S (option ns_request) :=
  match name with
  | None => mret None
  | Some s =>
      len ← opt (ns_strlen s);
      if (len =? 0) || (NS_NAME_LEN <=? len) then mret None else
      mret (Some (mk_ns_request cmd (copy_name (Z.to_nat len) 0 s (replicate 32 0)) ids (mk_bind 0 0 0)))
  end.

Definition ns_register (name : option (list Z)) (portal_id mailbox_tid mail_magic : Z) : M S Z :=
  q ← ns_make NS_REGISTER name (mk_bind portal_id mailbox_tid mail_magic);
  match q with
  | None => mret (-3)
  | Some req => r ← ns_call req; mret r.1
  end.

(** The answer and what is stored through the pointers that are not null. *)
Definition ns_lookup (name : option (list Z)) : M S (Z * option binding) :=
  q ← ns_make NS_LOOKUP name (mk_bind 0 0 0);
  match q with
  | None => mret (-3, None)
  | Some req =>
      r ← ns_call req;
      if negb (r.1 =? 0) then mret (r.1, None) else mret (0, Some (nr_out r.2))
  end.

(** The value of the cache afterwards, which is also what is returned. *)
Definition ns_portal_id (name : list Z) (cached : Z) : M S Z :=
  if negb (cached =? 0) then mret cached else
  r ← ns_lookup (Some name);
  let pid := match r.2 with Some b => b_portal_id b | None => 0 end in
  mret (if (r.1 =? 0) && negb (pid =? 0) then pid else cached).

(** ** Console, log, graphics, clock *)

Context `{!Contains S ulib}.
Definition uget {A} (f : ulib → A) : M S A := zoom (gets f).
Definition uset (f : ulib → ulib) : M S unit := zoom (modify f).

(** The retry loop of [console_putstr] and [user_log_write]. *)
Fixpoint put_retry (tries : nat) (name : list Z) (slot : ulib → Z) (set_slot : Z → ulib → ulib) (s len : Z) : M S unit :=
  match tries with
  | O => mret tt
  | Datatypes.S tries =>
      c ← uget slot;
      id ← ns_portal_id name c;
      uset (set_slot id);;
      r ← (if id =? 0 then mret (-1) else user_portal_call id s len);
      if negb (id =? 0) && (r =? 0) then mret tt else
      uset (set_slot 0);;
      user_yield;;
      put_retry tries name slot set_slot s len
  end.

(** [s] is the address and [bytes] what is there, up to the terminator. *)
Definition console_putstr (s : Z) (bytes : list Z) : M S unit :=
  if s =? 0 then mret tt else
  len ← opt (ns_strlen bytes);
  if len =? 0 then mret tt else
  put_retry (Z.to_nat 10000) NS_NAME_CONSOLE console_portal set_console_portal s len.

Definition user_log_write (s len : Z) : M S unit :=
  if (s =? 0) || (len =? 0) then mret tt else
  put_retry (Z.to_nat 10000) NS_NAME_LOG log_portal set_log_portal s len.

Definition user_log_str (s : Z) (bytes : list Z) : M S unit :=
  if s =? 0 then mret tt else
  len ← opt (ns_strlen bytes);
  user_log_write s len.

Definition console_id : M S Z :=
  c ← uget console_portal;
  id ← ns_portal_id NS_NAME_CONSOLE c;
  uset (set_console_portal id);;
  mret id.

Definition gfx_ctrl_send (cmd a b : Z) : M S Z :=
  id ← console_id;
  if id =? 0 then mret (-1) else
  r ← rpc id (mk_gfx 27 71 cmd 0 a b);
  mret r.1.

Definition gfx_set_mode (mode : Z) : M S Z := gfx_ctrl_send GFX_CTRL_SET_MODE mode 0.
Definition gfx_blit (fb_size : Z) : M S Z := gfx_ctrl_send GFX_CTRL_BLIT fb_size 0.

(** [stage] is the address of the static buffer; [fb] is null or points to the
    given bytes, of which [fb_size] are copied. *)
Definition gfx_blit_shared (stage : Z) (fb : option (list Z)) (fb_size : Z) : M S Z :=
  id ← console_id;
  match fb with
  | None => mret (-1)
  | Some fb =>
      if (id =? 0) || (GFX_FB_SIZE <? fb_size) then mret (-1) else
      uset (λ u, set_stage (mk_gfx 27 71 GFX_CTRL_BLIT 0 fb_size 0)
        (copy_name (Z.to_nat fb_size) 0 fb (stage_fb u)) u);;
      user_portal_call id stage (sizeof_gfx_ctrl + fb_size)
  end.

Definition rtc_portal_id : M S Z :=
  c ← uget rtc_portal;
  id ← ns_portal_id NS_NAME_RTC c;
  uset (set_rtc_portal id);;
  mret id.

(** [junk] is what the local request holds before it is filled. *)
Definition user_rtc_time (junk : rtc_request) (out : bool) : M S (Z * option rtc_time) :=
  if negb out then mret (-3, None) else
  id ← rtc_portal_id;
  if id =? 0 then mret (-1, None) else
  r ← rpc id (mk_rtc RTC_CMD_GET_TIME (rr_sleep_ms junk) (rr_time junk));
  if negb (r.1 =? 0) then mret (r.1, None) else mret (0, Some (rr_time r.2)).

Definition user_rtc_sleep_ms (junk : rtc_request) (ms : Z) : M S Z :=
  id ← rtc_portal_id;
  if id =? 0 then mret (-1) else
  r ← rpc id (mk_rtc RTC_CMD_SLEEP_MS ms (rr_time junk));
  mret r.1.

(** ** Interrupts, mails, memory *)

Definition user_irq_request (major minor : Z) : M S Z :=
  r ← user_syscall SYSCALL_IRQ (mk_icc U_IRQ_CTRL_REQUEST 0 0 major minor 0 0 false 0 0); mret (ic_handle r.2).
Definition user_irq_unmask (handle : Z) : M S Z :=
  r ← user_syscall SYSCALL_IRQ (icc U_IRQ_CTRL_UNMASK handle); mret (ic_ret r.2).

Definition mail_sys (c : mailbox_ctrl_config) : M S mailbox_ctrl_config :=
  r ← user_syscall SYSCALL_MAILBOX c; mret r.2.

(** One turn: park until a mail is queued, then take it (0: none was). *)
Definition listen_once : M S Z :=
  c ← mail_sys (mcc U_MAILBOX_CTRL_LISTEN_BLOCK 0 0);
  c ← mail_sys (mc_set_mb 0 (mk_mcc U_MAILBOX_CTRL_LISTEN (mc_m c) (mc_mb c) (mc_handler c) (mc_pid c) (mc_tid c) (mc_magic c) (mc_ret c)));
  mret (mc_m c).

Fixpoint user_mail_listen (fuel : nat) : M S Z :=
  match fuel with
  | O => spin
  | Datatypes.S fuel =>
      m ← listen_once;
      if negb (m =? 0) then mret m else user_mail_listen fuel
  end.

Definition user_mail_release (m : Z) : M S unit := mail_sys (mcc U_MAILBOX_CTRL_RELEASE_MAIL m 0);; mret tt.
Definition user_mail_alloc : M S Z := c ← mail_sys (mcc U_MAILBOX_CTRL_ALLOC_MAIL 0 0); mret (mc_m c).
Definition user_mail_send (m : Z) : M S Z := c ← mail_sys (mcc U_MAILBOX_CTRL_SEND m 0); mret (mc_ret c).
Definition user_mail_subscribe (magic : Z) : M S Z :=
  c ← mail_sys (mk_mcc U_MAILBOX_CTRL_SUBSCRIBE_MAIL 0 0 0 0 0 magic 0); mret (mc_ret c).
Definition user_mail_unsubscribe (magic : Z) : M S Z :=
  c ← mail_sys (mk_mcc U_MAILBOX_CTRL_UNSUBSCRIBE_MAIL 0 0 0 0 0 magic 0); mret (mc_ret c).

(** [mail_magic] reads the field of a mail in the shared heap. *)
Fixpoint user_irq_wait (mail_magic : Z → M S Z) (fuel : nat) : M S Z :=
  match fuel with
  | O => spin
  | Datatypes.S fuel =>
      m ← listen_once;
      if m =? 0 then user_irq_wait mail_magic fuel else
      g ← mail_magic m;
      if g =? MAIL_MAGIC_IRQ then user_mail_release m;; mret 0 else
      user_mail_release m;; user_irq_wait mail_magic fuel
  end.

Definition malloc (size : Z) : M S Z :=
  r ← user_syscall SYSCALL_HEAP (mk_heap_ctrl U_HEAP_CTRL_MALLOC size 0 0);
  mret (if hc_ret r.2 =? 0 then hc_ptr r.2 else 0).
Definition free (ptr : Z) : M S unit :=
  user_syscall SYSCALL_HEAP (mk_heap_ctrl U_HEAP_CTRL_FREE 0 ptr 0);; mret tt.

Definition user_mmio_map (pa size vaddr : Z) : M S Z :=
  r ← user_syscall SYSCALL_MMIO (mk_mmio U_MMIO_CTRL_MAP pa size vaddr 0); mret (mm_ret r.2).
Definition user_mmio_unmap (vaddr size : Z) : M S Z :=
  r ← user_syscall SYSCALL_MMIO (mk_mmio U_MMIO_CTRL_UNMAP 0 size vaddr 0); mret (mm_ret r.2).
End userlib.

(** ** The traps of a portal call *)

Section protocol.
Context {S : Type} `{G : !Gate S portal_ctrl_config}.

(** The gate, with a record of every block passed in and of what came back. *)
Definition trap_log : Type := list (portal_ctrl_config * (Z * portal_ctrl_config)).
#[local] Instance logged : Gate (S * trap_log) portal_ctrl_config := λ num c s,
  match @int_100 _ _ G num c s.1 with
  | Ret a s' => Ret a (s', s.2 ++ [(c, a)])
  | Spin => Spin
  | Fault => Fault
  end.

Definition gate_returns : Prop := ∀ num c s, ∃ a s', @int_100 _ _ G num c s = Ret a s'.

Lemma logged_run num c s : gate_returns →
  ∃ a s', ∀ l, user_syscall num c (s, l) = Ret a (s', l ++ [(c, a)]).
Proof.
  intros Hg. destruct (Hg num c s) as (a & s' & E). exists a, s'. intros l. unfold user_syscall, int_100, logged. simpl. by rewrite E.
Qed.

(** A ring-3 portal call is one CALL and, when the kernel accepted it
    with a request handle, exactly one WAIT_REPLY, one GET_RESULT and one
    CLEANUP in this order, all with that handle; what it returns is the answer
    of GET_RESULT.  When CALL is refused nothing follows and the refusal (or
    -1 for a missing handle) is returned.  So every request that was made is
    torn down once, whatever the kernel answers. *)
Theorem user_portal_call_cleans_up s l id va size :
  gate_returns →
  ∃ r s' t, user_portal_call id va size (s, l) = Ret r (s', l ++ t) ∧
    ∃ r1 o1, let call := (mk_pcfg PORTAL_CTRL_CALL 0 id va size 0 0 0, (r1, o1)) in
      (t = [call] ∧ ((r1 ≠ 0 ∧ r = r1) ∨ (r1 = 0 ∧ cf_req o1 = 0 ∧ r = -1))) ∨
      (r1 = 0 ∧ cf_req o1 ≠ 0 ∧ ∃ c2 a2 c3 a3 c4 a4,
         t = [call; (c2, a2); (c3, a3); (c4, a4)] ∧
         map cf_cmd [c2; c3; c4] = [PORTAL_CTRL_WAIT_REPLY; PORTAL_CTRL_GET_RESULT; PORTAL_CTRL_CLEANUP] ∧
         Forall (λ c, cf_req c = cf_req o1) [c2; c3; c4] ∧
         r = cf_ret a3.2).
Proof.
  intros Hg. unfold user_portal_call, portal_sys.
  destruct (logged_run SYSCALL_PORTAL (mk_pcfg U_PORTAL_CTRL_CALL 0 id va size 0 0 0) s Hg) as ([r1 o1] & s1 & E1).
  rewrite (bind_Ret _ _ _ _ _ (E1 _)). simpl.
  destruct (Z.eqb_spec r1 0) as [->|H1]; simpl.
  2: { exists r1, s1, [(mk_pcfg PORTAL_CTRL_CALL 0 id va size 0 0 0, (r1, o1))]. split; [done|]. exists r1, o1. left. auto. }
  destruct (Z.eqb_spec (cf_req o1) 0) as [H2|H2].
  { exists (-1), s1, [(mk_pcfg PORTAL_CTRL_CALL 0 id va size 0 0 0, (0, o1))]. split; [done|]. exists 0, o1. left. auto. }
  unfold finish_call, portal_sys.
  destruct (logged_run SYSCALL_PORTAL (cf_set_req (cf_req o1) (cf_set_cmd U_PORTAL_CTRL_WAIT_REPLY o1)) s1 Hg) as (a2 & s2 & E2).
  rewrite (bind_Ret _ _ _ _ _ (E2 _)).
  destruct (logged_run SYSCALL_PORTAL (cf_set_req (cf_req o1) (cf_set_cmd U_PORTAL_CTRL_GET_RESULT a2.2)) s2 Hg) as (a3 & s3 & E3).
  rewrite (bind_Ret _ _ _ _ _ (E3 _)).
  destruct (logged_run SYSCALL_PORTAL (cf_set_req (cf_req o1) (cf_set_cmd U_PORTAL_CTRL_CLEANUP a3.2)) s3 Hg) as (a4 & s4 & E4).
  rewrite (bind_Ret _ _ _ _ _ (E4 _)).
  eexists _, s4, [_; _; _; _]. split; [by rewrite <- !app_assoc|]. exists 0, o1. right. split; [done|split; [done|]].
  do 6 eexists. split; [reflexivity|]. split_and!; [done|by repeat constructor|done].
Qed.
End protocol.

(** A kernel that accepts the call with handle 9 and answers 5. *)
#[local] Instance accepting : Gate unit portal_ctrl_config := λ num c s,
  Ret (0, cf_set_ret 5 (cf_set_req 9 c)) s.

Lemma user_portal_call_cleans_up_witness :
  ∃ r s' t, user_portal_call (Gate1 := logged) 1 4096 60 (tt, []) = Ret r (s', [] ++ t) ∧
    ∃ r1 o1, let call := (mk_pcfg PORTAL_CTRL_CALL 0 1 4096 60 0 0 0, (r1, o1)) in
      (t = [call] ∧ ((r1 ≠ 0 ∧ r = r1) ∨ (r1 = 0 ∧ cf_req o1 = 0 ∧ r = -1))) ∨
      (r1 = 0 ∧ cf_req o1 ≠ 0 ∧ ∃ c2 a2 c3 a3 c4 a4,
         t = [call; (c2, a2); (c3, a3); (c4, a4)] ∧
         map cf_cmd [c2; c3; c4] = [PORTAL_CTRL_WAIT_REPLY; PORTAL_CTRL_GET_RESULT; PORTAL_CTRL_CLEANUP] ∧
         Forall (λ c, cf_req c = cf_req o1) [c2; c3; c4] ∧
         r = cf_ret a3.2).
Proof.
  apply (user_portal_call_cleans_up tt [] 1 4096 60). intros num c s. eexists _, _. reflexivity.
Defined.

(** ** Names, from the client's side *)

Section names.
Context (after : list Z).

(** The portal call on the name service: its handler on the shared request. *)
#[local] Instance served : Rpc ns_state ns_request := λ _ req,
  r ← ns_handle (Some req) after sizeof_ns_request;
  match r.2 with Some q => mret (r.1, q) | None => fault end.

(** A name a client may use. *)
Definition proper (name : list Z) : Prop := Forall (.≠ 0) name ∧ (0 < length name < 32)%nat.

Lemma cstr_whole name : Forall (.≠ 0) name → cstr (name ++ [0]) = name.
Proof. intros H. by rewrite cstr_app_zero. Qed.

Lemma ns_make_run cmd name ids (s : ns_state) : proper name →
  ∃ q, ns_make cmd (Some (name ++ [0])) ids s = Ret (Some q) s ∧
    named q name ∧ nr_cmd q = cmd ∧ nr_ids q = ids ∧ nr_out q = mk_bind 0 0 0.
Proof.
  intros [Hnz Hl]. unfold ns_make.
  assert (Ht : terminated (name ++ [0])) by (apply elem_of_app; right; left).
  rewrite ns_strlen_run, cstr_whole by done. unfold opt. rewrite bind_ret.
  rewrite (proj2 (Z.eqb_neq _ 0)), (proj2 (Z.leb_gt NS_NAME_LEN _)) by (unfold NS_NAME_LEN; lia). cbn [orb]. rewrite Nat2Z.id.
  eexists. split; [reflexivity|]. split_and!; [|done..].
  assert (E : copy_name (length name) 0 (name ++ [0]) (replicate 32 0) = name ++ 0 :: replicate (31 - length name) 0).
  { rewrite copy_name_run by (rewrite ?length_app, ?length_replicate; simpl; lia).
    rewrite take_0, drop_0, app_nil_l, Nat.add_0_l, take_app_length, drop_replicate. by replace (32 - length name)%nat with (Datatypes.S (31 - length name)) by lia. }
  split; cbn [nr_name]; rewrite ?E.
  - rewrite length_app. simpl. rewrite length_replicate. lia.
  - by apply cstr_app_zero.
  - apply elem_of_app. right. left.
  - intros ->. simpl in Hl. lia.
Qed.

Lemma ns_call_run s q name : ns_ok s → named q name →
  ∃ s', ns_call q s = Ret ((serve (nr_cmd q) name (nr_ids q) (nr_out q) (names s)).1.1,
      mk_ns_request (nr_cmd q) (nr_name q) (nr_ids q) (serve (nr_cmd q) name (nr_ids q) (nr_out q) (names s)).1.2) s' ∧
    ns_ok s' ∧ names s' = (serve (nr_cmd q) name (nr_ids q) (nr_out q) (names s)).2.
Proof.
  intros Hs Hq. destruct (ns_handle_named s q name after sizeof_ns_request Hs Hq ltac:(done)) as (s' & E & H).
  exists s'. split; [|done]. unfold ns_call, rpc, served. by rewrite (bind_Ret _ _ _ _ _ E).
Qed.

Lemma ns_lookup_run s name : ns_ok s → proper name →
  ∃ s', ns_lookup (Some (name ++ [0])) s =
      Ret (match names s !! name with Some b => (0, Some b) | None => (-1, None) end) s' ∧ ns_ok s' ∧ names s' = names s.
Proof.
  intros Hs Hp. unfold ns_lookup. destruct (ns_make_run NS_LOOKUP name (mk_bind 0 0 0) s Hp) as (q & E & Hq & Hc & Hi & Ho).
  rewrite (bind_Ret _ _ _ _ _ E). destruct (ns_call_run s q name Hs Hq) as (s' & E' & Hs' & Hn).
  rewrite (bind_Ret _ _ _ _ _ E'). exists s'. rewrite Hc in *. unfold serve in *. simpl in *.
  by destruct (names s !! name).
Qed.

(** C35: Through the client functions of userlib.c, registering a proper name
    (1 to 31 bytes) answers 0 or, when the name is new and sixteen are taken,
    -2 without a change.  After a 0 the name resolves to exactly what was
    registered, [ns_portal_id] with an empty cache gives the portal, and every
    other name resolves as before. *)
Theorem ns_register_lookup_roundtrip s name p t m :
  ns_ok s → proper name →
  ∃ r s1, ns_register (Some (name ++ [0])) p t m s = Ret r s1 ∧ ns_ok s1 ∧
    ((r = -2 ∧ names s !! name = None ∧ size (names s) = 16%nat ∧ names s1 = names s) ∨
     (r = 0 ∧ (size (names s1) <= 16)%nat ∧
      (∃ s2, ns_lookup (Some (name ++ [0])) s1 = Ret (0, Some (mk_bind p t m)) s2) ∧
      (p ≠ 0 → ∃ s2, ns_portal_id (name ++ [0]) 0 s1 = Ret p s2) ∧
      ∀ other, proper other → other ≠ name →
        ∃ s2, ns_lookup (Some (other ++ [0])) s1 =
          Ret (match names s !! other with Some b => (0, Some b) | None => (-1, None) end) s2)).
Proof.
  intros Hs Hp. unfold ns_register. destruct (ns_make_run NS_REGISTER name (mk_bind p t m) s Hp) as (q & E & Hq & Hc & Hi & Ho).
  rewrite (bind_Ret _ _ _ _ _ E). destruct (ns_call_run s q name Hs Hq) as (s1 & E1 & Hs1 & Hn1).
  rewrite (bind_Ret _ _ _ _ _ E1). rewrite Hc, Hi in *. clear E E1. unfold serve in *. cbn [Z.eqb NS_REGISTER Pos.eqb] in *.
  pose proof (ns_cnt _ Hs) as Hcnt. pose proof (ns_cnt _ Hs1) as Hcnt1.
  assert (Hsz : ∀ x, ns_ok x → size (names x) = Z.to_nat (ns_count x)).
  { intros x Hx. unfold names. rewrite size_list_to_map by apply Hx. by apply rows_length. }
  destruct (bool_decide_reflect (is_Some (names s !! name) ∨ (size (names s) < 16)%nat)) as [Hroom|Hroom]; simpl in *.
  2: { exists (-2), s1. split; [done|split; [done|left]]. split; [done|].
       destruct (names s !! name) eqn:En; [destruct Hroom; left; eauto|].
       split; [done|split; [|done]]. rewrite (Hsz s Hs) in *. lia. }
  exists 0, s1. split; [done|split; [done|]].
  right.
  destruct (ns_lookup_run s1 name Hs1 Hp) as (s2 & E2 & _ & _). rewrite Hn1, lookup_insert_eq in E2.
  split; [done|split; [|split; [by exists s2|split]]].
  - rewrite (Hsz s1 Hs1). lia.
  - intros Hpz. exists s2. unfold ns_portal_id. simpl. rewrite (bind_Ret _ _ _ _ _ E2). simpl.
    by rewrite (proj2 (Z.eqb_neq p 0) Hpz).
  - intros o Ho' Hne. destruct (ns_lookup_run s1 o Hs1 Ho') as (s3 & E3 & _ & _).
    rewrite Hn1, lookup_insert_ne in E3 by done. by exists s3.
Qed.
End names.

Lemma ns_register_lookup_roundtrip_witness :
  ∃ r s1, ns_register (Rpc0 := served []) (Some (console ++ [0])) 2 0 0 ns_zero = Ret r s1 ∧ ns_ok s1 ∧
    ((r = -2 ∧ names ns_zero !! console = None ∧ size (names ns_zero) = 16%nat ∧ names s1 = names ns_zero) ∨
     (r = 0 ∧ (size (names s1) <= 16)%nat ∧
      (∃ s2, ns_lookup (Rpc0 := served []) (Some (console ++ [0])) s1 = Ret (0, Some (mk_bind 2 0 0)) s2) ∧
      (2 ≠ 0 → ∃ s2, ns_portal_id (Rpc0 := served []) (console ++ [0]) 0 s1 = Ret 2 s2) ∧
      ∀ other, proper other → other ≠ console →
        ∃ s2, ns_lookup (Rpc0 := served []) (Some (other ++ [0])) s1 =
          Ret (match names ns_zero !! other with Some b => (0, Some b) | None => (-1, None) end) s2)).
Proof.
  apply (ns_register_lookup_roundtrip [] ns_zero console 2 0 0); [apply ns_zero_ok|].
  split; [repeat constructor; discriminate|simpl; lia].
Defined.

(** ** Answers that are lost *)

(** [uspin_trylock] answers 0 exactly when it took the lock: the opposite of
    what its comment says. *)
Lemma uspin_trylock_answer l : l = 0 ∨ l = 1 → uspin_trylock l = Ret (if l =? 0 then 0 else 1) 1.
Proof. by intros [-> | ->]. Qed.

(** A refused request to create a kernel thread is reported as thread 0: the
    gate answers E_PERM in EAX only, and the wrapper reads the unchanged
    field. *)
#[local] Instance nested_gate C : Gate (kernel heap heap Z) C := λ _ c k, Ret (E_AGAIN, c) k.
Definition process_gate : Gate (kernel heap heap Z) proc_thread_ctrl_config := λ _ c k,
  match proc_syscall_isr (Some c) k with
  | Ret (r, Some c') k' => Ret (r, c') k'
  | Ret _ _ | Fault => Fault
  | Spin => Spin
  end.
Example refused_thread_looks_created :
  user_thread_create (Gate0 := process_gate) 0 4096 0 (set_thread_run 20 sched_demo) = Ret 0 (set_thread_run 20 sched_demo).
Proof. vm_compute. reflexivity. Qed.

(** A window at an address the gate rejects is reported as mapped: the range
    check returns E_INVAL without storing it in the block. *)
#[local] Instance mmio_gate : Gate (kernel heap heap (vm (gset Z))) mmio_syscall_data := λ _ c k,
  match mmio_syscall_isr (Some c) k with
  | Ret (r, Some c') k' => Ret (r, c') k'
  | Ret _ _ | Fault => Fault
  | Spin => Spin
  end.
Example rejected_window_looks_mapped :
  user_mmio_map 753664 4096 4096 mmio_demo = Ret 0 mmio_demo.
Proof. reflexivity. Qed.
