(* ===== verification/Terminal.v ===== *)
(** * The console server (user/server/display/terminal_server.c)

    A ring-3 server that owns the VGA: it prints the payloads of its portal to
    the 80 by 25 text screen, interprets the colour, erase and home escape
    sequences, and switches to and from the 320 by 200 graphics mode. *)

From stdpp Require Import base tactics list.
From Stdlib Require Import ZArith Lia.
From S2P Require Import Prelude Io UserLib.

Open Scope Z_scope.

Definition VGA_WIDTH : Z := 80.
Definition VGA_HEIGHT : Z := 25.
Definition VGA_CRT_ADDR : Z := 980.     (* 0x3D4 *)
Definition VGA_CRT_DATA : Z := 981.
Definition VGA_MISC_WRITE : Z := 962.   (* 0x3C2 *)
Definition VGA_SEQ_ADDR : Z := 964.     (* 0x3C4 *)
Definition VGA_SEQ_DATA : Z := 965.
Definition VGA_GC_ADDR : Z := 974.      (* 0x3CE *)
Definition VGA_GC_DATA : Z := 975.
Definition VGA_AC_ADDR : Z := 960.      (* 0x3C0 *)
Definition VGA_AC_DATA : Z := 960.
Definition VGA_DAC_MASK : Z := 966.     (* 0x3C6 *)
Definition VGA_DAC_WRITE : Z := 968.    (* 0x3C8 *)
Definition VGA_DAC_DATA : Z := 969.
Definition VGA_STAT_READ : Z := 986.    (* 0x3DA *)
Definition TERM_COLOR : Z := 7.
Definition FONT_BYTES : Z := 8192.

(** The video memory behind the window at 0xA0000: what it holds depends on
    the registers, so it is part of the devices. *)
Class Vram (D : Type) := {
  fb_read : Z → D → Z;
  fb_write : Z → Z → D → D;
}.

(** The statics, the text window (its 2048 cells, when it is mapped) and the
    devices with the port accesses so far, newest first. *)
Record term (D : Type) := mk_term {
  vga_buf : option (list Z);
  gfx13_buf : bool;
  term_row : Z;
  term_col : Z;
  term_color : Z;
  g_vga_lock : Z;
  g_mode : Z;
  saved_font : list Z;
  font_saved : bool;
  t_dev : D;
  t_cycles : list cycle;
}.
Arguments mk_term {D}.
Arguments vga_buf {D}.
Arguments gfx13_buf {D}.
Arguments term_row {D}.
Arguments term_col {D}.
Arguments term_color {D}.
Arguments g_vga_lock {D}.
Arguments g_mode {D}.
Arguments saved_font {D}.
Arguments font_saved {D}.
Arguments t_dev {D}.
Arguments t_cycles {D}.

Section terminal.
Context {D : Type} `{!Devices D, !Vram D}.
Notation term := (term D).
Implicit Types s : term.

Definition set_vga (b : option (list Z)) s : term :=
  mk_term b (gfx13_buf s) (term_row s) (term_col s) (term_color s) (g_vga_lock s) (g_mode s) (saved_font s) (font_saved s) (t_dev s) (t_cycles s).
Definition set_cursor (r c : Z) s : term :=
  mk_term (vga_buf s) (gfx13_buf s) r c (term_color s) (g_vga_lock s) (g_mode s) (saved_font s) (font_saved s) (t_dev s) (t_cycles s).
Definition set_color (v : Z) s : term :=
  mk_term (vga_buf s) (gfx13_buf s) (term_row s) (term_col s) v (g_vga_lock s) (g_mode s) (saved_font s) (font_saved s) (t_dev s) (t_cycles s).
Definition set_lock (v : Z) s : term :=
  mk_term (vga_buf s) (gfx13_buf s) (term_row s) (term_col s) (term_color s) v (g_mode s) (saved_font s) (font_saved s) (t_dev s) (t_cycles s).
Definition set_mode (v : Z) s : term :=
  mk_term (vga_buf s) (gfx13_buf s) (term_row s) (term_col s) (term_color s) (g_vga_lock s) v (saved_font s) (font_saved s) (t_dev s) (t_cycles s).
Definition set_font (f : list Z) (b : bool) s : term :=
  mk_term (vga_buf s) (gfx13_buf s) (term_row s) (term_col s) (term_color s) (g_vga_lock s) (g_mode s) f b (t_dev s) (t_cycles s).
Definition set_dev (d : D) (l : list cycle) s : term :=
  mk_term (vga_buf s) (gfx13_buf s) (term_row s) (term_col s) (term_color s) (g_vga_lock s) (g_mode s) (saved_font s) (font_saved s) d l.

(** ** Ports and lock *)

(** The system call for one port access, which the kernel performs because the
    ports are granted to the server (Boot.v). *)
Definition iowrite8 (port v : Z) : M term unit := λ s,
  Ret tt (set_dev (dev_out W8 port (u8 v) (t_dev s)) (Out W8 port (u8 v) :: t_cycles s) s).
Definition ioread8 (port : Z) : M term Z := λ s,
  let r := dev_in W8 port (t_dev s) in Ret (u8 r.1) (set_dev r.2 (In W8 port :: t_cycles s) s).

Definition vga_lock : M term unit := λ s,
  match uspin_lock (g_vga_lock s) with Ret _ l => Ret tt (set_lock l s) | Spin => Spin | Fault => Fault end.
Definition vga_unlock : M term unit := λ s,
  match uspin_unlock (g_vga_lock s) with Ret _ l => Ret tt (set_lock l s) | Spin => Spin | Fault => Fault end.

(** ** Text *)

Definition term_cursor_update : M term unit :=
  s ← get;
  let pos := u16 (term_row s * VGA_WIDTH + term_col s) in
  iowrite8 VGA_CRT_ADDR 14;;
  iowrite8 VGA_CRT_DATA (Z.shiftr pos 8);;
  iowrite8 VGA_CRT_ADDR 15;;
  iowrite8 VGA_CRT_DATA (Z.land pos 255).

Definition term_sync_cursor_from_hw : M term unit :=
  vga_lock;;
  iowrite8 VGA_CRT_ADDR 14;;
  hi ← ioread8 VGA_CRT_DATA;
  iowrite8 VGA_CRT_ADDR 15;;
  lo ← ioread8 VGA_CRT_DATA;
  let pos := u16 (Z.lor (Z.shiftl hi 8) lo) in
  modify (set_cursor (pos / VGA_WIDTH) (pos mod VGA_WIDTH));;
  vga_unlock.

(** A cell of the window: a fault outside its page. *)
Definition put_cell (b : list Z) (i v : Z) : option (list Z) :=
  if (0 <=? i) && (i <? Z.of_nat (length b)) then Some (<[Z.to_nat i := v]> b) else None.

(** [VGA_BUF[(r - 1) * 80 + c] = VGA_BUF[r * 80 + c]], row by row: cell [i]
    takes the value of cell [i + 80]. *)
Fixpoint scroll_loop (n i : nat) (b : list Z) : option (list Z) :=
  match n with
  | O => Some b
  | S n =>
      v ← b !! (i + Z.to_nat 80)%nat;
      b ← put_cell b (Z.of_nat i) v;
      scroll_loop n (S i) b
  end.
Fixpoint fill_loop (n i : nat) (v : Z) (b : list Z) : option (list Z) :=
  match n with
  | O => Some b
  | S n => b ← put_cell b (Z.of_nat i) v; fill_loop n (S i) v b
  end.

Definition blank : Z := Z.shiftl TERM_COLOR 8.

Definition store (b : option (list Z)) : M term unit :=
  match b with Some b => modify (set_vga (Some b)) | None => fault end.

Definition term_scroll_up : M term unit :=
  s ← get;
  match vga_buf s with
  | None => mret tt
  | Some b =>
      store (b ← scroll_loop (Z.to_nat 1920) 0 b; fill_loop (Z.to_nat 80) (Z.to_nat 1920) blank b);;
      modify (set_cursor (VGA_HEIGHT - 1) 0)
  end.

Definition term_clear_screen : M term unit :=
  s ← get;
  match vga_buf s with
  | None => mret tt
  | Some b => store (fill_loop (Z.to_nat 2000) 0 blank b);; modify (set_cursor 0 0)
  end.

(** [c] is a [char], which is signed. *)
Definition term_putc (c : Z) : M term unit :=
  vga_lock;;
  s ← get;
  match vga_buf s with
  | None => vga_unlock
  | Some b =>
      (if c =? 10 then
         let row := u32 (term_row s + 1) in
         modify (set_cursor row 0);;
         if VGA_HEIGHT <=? row then term_scroll_up else mret tt
       else if 32 <=? c then
         store (put_cell b (u32 (term_row s * VGA_WIDTH + term_col s)) (Z.lor (u16 c) (Z.shiftl (term_color s) 8)));;
         let col := u32 (term_col s + 1) in
         if VGA_WIDTH <=? col then
           let row := u32 (term_row s + 1) in
           modify (set_cursor row 0);;
           if VGA_HEIGHT <=? row then term_scroll_up else mret tt
         else modify (set_cursor (term_row s) col)
       else mret tt);;
      term_cursor_update;;
      vga_unlock
  end.

Definition term_set_color (code : Z) : M term unit :=
  let attr := if code =? 0 then Some TERM_COLOR else
              if (30 <=? code) && (code <=? 37) then Some (u8 (code - 30)) else
              if (90 <=? code) && (code <=? 97) then Some (u8 (8 + (code - 90))) else None in
  match attr with
  | None => mret tt
  | Some a => vga_lock;; modify (set_color a);; vga_unlock
  end.

(** A byte of the payload: a fault past the end. *)
Definition byte_at (p : list Z) (i : Z) : M term Z :=
  match p !! Z.to_nat i with Some c => mret c | None => fault end.

(** The digits from [j] on: the code, whether there were any, and the index
    after them; a signed overflow is undefined. *)
Fixpoint digits (fuel : nat) (p : list Z) (len j code : Z) (has : bool) : M term (Z * bool * Z) :=
  match fuel with
  | O => spin
  | S fuel =>
      if negb (j <? len) then mret (code, has, j) else
      c ← byte_at p j;
      if (48 <=? c) && (c <=? 57) then
        if 2147483647 <? code * 10 + (c - 48) then fault else
        digits fuel p len (j + 1) (code * 10 + (c - 48)) true
      else mret (code, has, j)
  end.

(** The three final bytes. *)
Definition escape_final (final code : Z) (has : bool) : M term unit :=
  if final =? 109 then term_set_color (if has then code else 0)
  else if final =? 74 then
    if negb has || (code =? 2) then
      vga_lock;; term_clear_screen;; modify (set_color TERM_COLOR);; term_cursor_update;; vga_unlock
    else mret tt
  else if final =? 72 then
    vga_lock;; modify (set_cursor 0 0);; term_cursor_update;; vga_unlock
  else mret tt.

Definition is_final (c : Z) : bool := (c =? 109) || (c =? 74) || (c =? 72).

(** (char) of a byte. *)
Definition schar (c : Z) : Z := if c <? 128 then c else c - 256.

Fixpoint term_print_loop (fuel : nat) (p : list Z) (len i : Z) : M term unit :=
  match fuel with
  | O => spin
  | S fuel =>
      if negb (i <? len) then mret tt else
      c ← byte_at p i;
      next ← (if (c =? 27) && (i + 1 <? len) then byte_at p (i + 1) else mret 0);
      seq ← (if (c =? 27) && (i + 1 <? len) && (next =? 91) then
               d ← digits (length p + 1) p len (i + 2) 0 false;
               let '(code, has, j) := d in
               f ← (if j <? len then byte_at p j else mret 0);
               if (j <? len) && is_final f then escape_final f code has;; mret (Some j) else mret None
             else mret None);
      match seq with
      | Some j => term_print_loop fuel p len (j + 1)
      | None => term_putc (schar c);; term_print_loop fuel p len (i + 1)
      end
  end.

Definition term_print (p : list Z) (len : Z) : M term unit := term_print_loop (length p + 1) p len 0.

(** ** Graphics *)

(** A run of [iowrite8]. *)
Fixpoint outs (l : list (Z * Z)) : M term unit :=
  match l with
  | [] => mret tt
  | (p, v) :: l => iowrite8 p v;; outs l
  end.

Fixpoint write_regs (addr_port data_port i : Z) (regs : list Z) : M term unit :=
  match regs with
  | [] => mret tt
  | v :: regs => iowrite8 addr_port (u8 i);; iowrite8 data_port v;; write_regs addr_port data_port (i + 1) regs
  end.
Definition vga_write_regs (addr_port data_port : Z) (regs : list Z) : M term unit := write_regs addr_port data_port 0 regs.

Definition vram_read (i : Z) : M term Z := gets (λ s, fb_read i (t_dev s)).
Definition vram_write (i v : Z) : M term unit := modify (λ s, set_dev (fb_write i v (t_dev s)) (t_cycles s) s).

Fixpoint vram_load (n : nat) (i : Z) : M term (list Z) :=
  match n with
  | O => mret []
  | S n => v ← vram_read i; l ← vram_load n (i + 1); mret (v :: l)
  end.
Fixpoint vram_store (i : Z) (l : list Z) : M term unit :=
  match l with
  | [] => mret tt
  | v :: l => vram_write i v;; vram_store (i + 1) l
  end.

Definition font_save : M term unit :=
  s ← get;
  if font_saved s || negb (gfx13_buf s) then mret tt else
  outs [(VGA_SEQ_ADDR, 2); (VGA_SEQ_DATA, 15); (VGA_GC_ADDR, 5); (VGA_GC_DATA, 0);
        (VGA_GC_ADDR, 6); (VGA_GC_DATA, 4); (VGA_GC_ADDR, 4); (VGA_GC_DATA, 2)];;
  f ← vram_load (Z.to_nat FONT_BYTES) 0;
  modify (set_font f (font_saved s));;
  outs [(VGA_GC_ADDR, 4); (VGA_GC_DATA, 0); (VGA_GC_ADDR, 5); (VGA_GC_DATA, 16);
        (VGA_GC_ADDR, 6); (VGA_GC_DATA, 14); (VGA_SEQ_ADDR, 2); (VGA_SEQ_DATA, 3)];;
  modify (set_font f true).

Definition font_load : M term unit :=
  s ← get;
  if negb (font_saved s) || negb (gfx13_buf s) then mret tt else
  ioread8 VGA_STAT_READ;;
  outs [(VGA_AC_ADDR, 0);
        (VGA_SEQ_ADDR, 2); (VGA_SEQ_DATA, 4); (VGA_SEQ_ADDR, 4); (VGA_SEQ_DATA, 6);
        (VGA_GC_ADDR, 5); (VGA_GC_DATA, 0); (VGA_GC_ADDR, 6); (VGA_GC_DATA, 4);
        (VGA_GC_ADDR, 4); (VGA_GC_DATA, 0)];;
  vram_store 0 (saved_font s);;
  outs [(VGA_GC_ADDR, 4); (VGA_GC_DATA, 0); (VGA_GC_ADDR, 5); (VGA_GC_DATA, 16);
        (VGA_GC_ADDR, 6); (VGA_GC_DATA, 14); (VGA_SEQ_ADDR, 4); (VGA_SEQ_DATA, 2);
        (VGA_SEQ_ADDR, 2); (VGA_SEQ_DATA, 3)];;
  ioread8 VGA_STAT_READ;;
  iowrite8 VGA_AC_ADDR 32.

Definition seq_13 : list Z := [3; 1; 15; 0; 14].
Definition crtc_13 : list Z :=
  [95; 79; 80; 130; 84; 128; 191; 31; 0; 65; 0; 0; 0; 0; 0; 0; 156; 14; 143; 40; 64; 150; 185; 163; 255].
Definition gc_13 : list Z := [0; 0; 0; 0; 0; 64; 5; 15; 255].
Definition ac_13 : list Z := [0; 1; 2; 3; 4; 5; 6; 7; 8; 9; 10; 11; 12; 13; 14; 15; 65].
Definition seq_03 : list Z := [3; 0; 3; 0; 2].
Definition crtc_03 : list Z :=
  [95; 79; 80; 130; 85; 129; 191; 31; 0; 79; 13; 14; 0; 0; 0; 80; 156; 14; 143; 40; 31; 150; 185; 163; 255].
Definition gc_03 : list Z := [0; 0; 0; 0; 0; 16; 14; 15; 255].
Definition ac_03 : list Z := [0; 1; 2; 3; 4; 5; 6; 7; 8; 9; 10; 11; 12; 13; 14; 15; 12].
Definition text_palette : list (Z * Z * Z) :=
  [(0, 0, 0); (0, 0, 42); (0, 42, 0); (0, 42, 42); (42, 0, 0); (42, 0, 42); (42, 21, 0); (42, 42, 42);
   (21, 21, 21); (21, 21, 63); (21, 63, 21); (21, 63, 63); (63, 21, 21); (63, 21, 63); (63, 63, 21); (63, 63, 63)].

(** The sequencer, CRTC, graphics and attribute registers of a mode. *)
Definition load_mode (seq crtc gc ac : list Z) : M term unit :=
  outs [(VGA_SEQ_ADDR, 0); (VGA_SEQ_DATA, 1)];;
  vga_write_regs VGA_SEQ_ADDR VGA_SEQ_DATA seq;;
  outs [(VGA_SEQ_ADDR, 0); (VGA_SEQ_DATA, 3)];;
  iowrite8 VGA_CRT_ADDR 17;;
  v ← ioread8 VGA_CRT_DATA;
  iowrite8 VGA_CRT_DATA (u8 (Z.land v 127));;
  vga_write_regs VGA_CRT_ADDR VGA_CRT_DATA crtc;;
  vga_write_regs VGA_GC_ADDR VGA_GC_DATA gc;;
  ioread8 VGA_STAT_READ;;
  vga_write_regs VGA_AC_ADDR VGA_AC_DATA ac;;
  iowrite8 VGA_AC_ADDR 32.

Definition gfx_enter_mode13 : M term unit :=
  font_save;;
  iowrite8 VGA_MISC_WRITE 99;;
  load_mode seq_13 crtc_13 gc_13 ac_13;;
  b ← gets gfx13_buf;
  if (b : bool) then vram_store 0 (replicate (Z.to_nat GFX_FB_SIZE) 0) else mret tt.

Definition gfx_enter_text : M term unit :=
  ioread8 VGA_STAT_READ;;
  iowrite8 VGA_MISC_WRITE 103;;
  load_mode seq_03 crtc_03 gc_03 ac_03;;
  outs [(VGA_DAC_MASK, 255); (VGA_DAC_WRITE, 0)];;
  outs (text_palette ≫= λ c, [(VGA_DAC_DATA, c.1.1); (VGA_DAC_DATA, c.1.2); (VGA_DAC_DATA, c.2)]);;
  outs [(VGA_CRT_ADDR, 10); (VGA_CRT_DATA, 0); (VGA_CRT_ADDR, 11); (VGA_CRT_DATA, 15)];;
  font_load;;
  term_clear_screen;;
  term_cursor_update.

(** The control frame at the start of a payload, and the frame buffer that
    follows it: [None] when the mapping ends before its last byte. *)
Definition frame (p : list Z) : option gfx_ctrl :=
  match p with
  | e :: t :: c :: r :: a0 :: a1 :: a2 :: a3 :: b0 :: b1 :: b2 :: b3 :: _ =>
      Some (mk_gfx e t c r (a0 + 256 * a1 + 65536 * a2 + 16777216 * a3) (b0 + 256 * b1 + 65536 * b2 + 16777216 * b3))
  | _ => None
  end.
Definition frame_pixels (p : list Z) : option (list Z) :=
  let fb := take (Z.to_nat GFX_FB_SIZE) (drop (Z.to_nat sizeof_gfx_ctrl) p) in
  if Z.of_nat (length fb) =? GFX_FB_SIZE then Some fb else None.

Definition gfx_handle (g : gfx_ctrl) (p : list Z) : M term Z :=
  if g_cmd g =? GFX_CTRL_SET_MODE then
    vga_lock;;
    if g_a g =? GFX_MODE_13 then gfx_enter_mode13;; modify (set_mode GFX_MODE_13);; vga_unlock;; mret 0
    else if g_a g =? GFX_MODE_TEXT then gfx_enter_text;; modify (set_mode GFX_MODE_TEXT);; vga_unlock;; mret 0
    else vga_unlock;; mret (-3)
  else if g_cmd g =? GFX_CTRL_BLIT then
    s ← get;
    if negb (g_mode s =? GFX_MODE_13) || negb (g_a g =? GFX_FB_SIZE) then mret (-1) else
    vga_lock;;
    (if gfx13_buf s then match frame_pixels p with Some fb => vram_store 0 fb | None => fault end else mret tt);;
    vga_unlock;;
    mret 0
  else mret (-3).

(** One request: [p] is what the mapping holds from [cfg.va] on ([None] when
    that is null); the answer goes into [cfg.ret]. *)
Definition term_request (p : option (list Z)) (va_size : Z) : M term Z :=
  match p with
  | None => mret 0
  | Some p =>
      b0 ← (if sizeof_gfx_ctrl <=? va_size then byte_at p 0 else mret 0);
      b1 ← (if (sizeof_gfx_ctrl <=? va_size) && (b0 =? 27) then byte_at p 1 else mret 0);
      if (sizeof_gfx_ctrl <=? va_size) && (b0 =? 27) && (b1 =? 71) then
        match frame p with Some g => gfx_handle g p | None => fault end
      else
      if (va_size =? 4) && bool_decide (take 4 p = [27; 91; 50; 74]) then
        vga_lock;; term_clear_screen;; term_cursor_update;; vga_unlock;; mret 0
      else
      m ← gets g_mode;
      if negb (va_size =? 0) && (m =? GFX_MODE_TEXT) then term_print p va_size;; mret 0 else mret 0
  end.

(** The key thread's part: a pressed key with a character is echoed in text
    mode. *)
Definition term_key (pressed ascii : Z) : M term unit :=
  m ← gets g_mode;
  if negb (pressed =? 0) && negb (ascii =? 0) && (m =? GFX_MODE_TEXT) then term_putc ascii else mret tt.

(** [vga_map_windows], given the answers of the two MMIO calls; a window that
    was mapped shows the text memory. *)
Definition vga_map_windows (text gfx : Z) (memory : list Z) : M term unit := λ s,
  Ret tt (mk_term (if text =? 0 then Some memory else vga_buf s) (if gfx =? 0 then true else gfx13_buf s)
    (term_row s) (term_col s) (term_color s) (g_vga_lock s) (g_mode s) (saved_font s) (font_saved s) (t_dev s) (t_cycles s)).
End terminal.

(** ** What a screen is *)

(** The visible cells in reading order, the position of the cursor and the
    attribute. *)
Record screen := mk_screen { cells : list Z; pos : Z; attr : Z }.

(** The cursor behind the last cell: the lines move up. *)
Definition wrapped (k : screen) : screen :=
  if pos k <? 2000 then k else
  mk_screen (drop (Z.to_nat 80) (cells k) ++ replicate (Z.to_nat 80) blank) 1920 (attr k).

Definition put_char (c : Z) (k : screen) : screen :=
  if c =? 10 then wrapped (mk_screen (cells k) ((pos k / 80 + 1) * 80) (attr k))
  else if 32 <=? c then
    wrapped (mk_screen (<[Z.to_nat (pos k) := Z.lor c (Z.shiftl (attr k) 8)]> (cells k)) (pos k + 1) (attr k))
  else k.

Definition colored (code : Z) (k : screen) : screen :=
  if code =? 0 then mk_screen (cells k) (pos k) 7 else
  if (30 <=? code) && (code <=? 37) then mk_screen (cells k) (pos k) (code - 30) else
  if (90 <=? code) && (code <=? 97) then mk_screen (cells k) (pos k) (code - 82) else k.

(** ** The language of the console *)

Inductive token := TChar (c : Z) | TColor (code : Z) | TErase | THome | TIgnored.

Definition is_digit (c : Z) : bool := (48 <=? c) && (c <=? 57).
Fixpoint span_digits (p : list Z) : list Z * list Z :=
  match p with
  | c :: q => if is_digit c then let r := span_digits q in (c :: r.1, r.2) else ([], p)
  | [] => ([], [])
  end.
Definition number (a : Z) (ds : list Z) : Z := foldl (λ a c, a * 10 + (c - 48)) a ds.

Definition final_token (f : Z) (ds : list Z) : token :=
  if f =? 109 then TColor (number 0 ds)
  else if f =? 74 then (if bool_decide (ds = []) || (number 0 ds =? 2) then TErase else TIgnored)
  else THome.

(** ESC [ digits and one of m, J, H is a sequence; any other byte stands for
    itself. *)
Definition next_token (p : list Z) : option (token * list Z) :=
  match p with
  | [] => None
  | c :: q =>
      match (if c =? 27 then match q with d :: q' => if d =? 91 then Some (span_digits q') else None | [] => None end else None) with
      | Some (ds, f :: rest) => if is_final f then Some (final_token f ds, rest) else Some (TChar (schar c), q)
      | _ => Some (TChar (schar c), q)
      end
  end.
Fixpoint tokens (fuel : nat) (p : list Z) : list token :=
  match fuel with
  | O => []
  | S fuel => match next_token p with Some (t, q) => t :: tokens fuel q | None => [] end
  end.

Definition effect (k : screen) (t : token) : screen :=
  match t with
  | TChar c => put_char c k
  | TColor code => colored code k
  | TErase => mk_screen (replicate (Z.to_nat 2000) blank) 0 7
  | THome => mk_screen (cells k) 0 (attr k)
  | TIgnored => k
  end.
Definition shown (p : list Z) (k : screen) : screen := foldl effect k (tokens (length p) p).

(** ** The loops on the window *)

Section proofs.
Context {D : Type} `{!Devices D, !Vram D}.
Notation term := (term D).
Implicit Types s : term.

Lemma put_cell_run b i v : (i < length b)%nat → put_cell b (Z.of_nat i) v = Some (<[i := v]> b).
Proof.
  intros H. unfold put_cell. rewrite (proj2 (Z.leb_le _ _)), (proj2 (Z.ltb_lt _ _)) by lia. cbn [andb]. by rewrite Nat2Z.id.
Qed.

Lemma scroll_loop_run n : ∀ i b, (i + n + Z.to_nat 80 <= length b)%nat →
  scroll_loop n i b = Some (take i b ++ take n (drop (i + Z.to_nat 80) b) ++ drop (i + n) b).
Proof.
  set (w := Z.to_nat 80). assert (Hw : (0 < w)%nat) by (unfold w; lia).
  induction n as [|n IH]; intros i b Hb; cbn [scroll_loop].
  - by rewrite Nat.add_0_r, take_0, app_nil_l, take_drop.
  - fold w. destruct (lookup_lt_is_Some_2 b (i + w)) as [v Hv]; [lia|]. rewrite Hv. cbn [mbind option_bind].
    rewrite put_cell_run by lia. cbn [mbind option_bind]. rewrite IH by (rewrite length_insert; lia). f_equal.
    rewrite (take_S_r _ i v) by (apply list_lookup_insert_eq; lia). rewrite take_insert_ge by lia.
    rewrite !drop_insert_lt by lia. rewrite (drop_S _ _ _ Hv). cbn [take]. rewrite <- app_assoc. cbn [app].
    by replace (S i + n)%nat with (i + S n)%nat by lia.
Qed.

Lemma fill_loop_run n v : ∀ i b, (i + n <= length b)%nat →
  fill_loop n i v b = Some (take i b ++ replicate n v ++ drop (i + n) b).
Proof.
  induction n as [|n IH]; intros i b Hb; cbn [fill_loop].
  - by rewrite Nat.add_0_r, app_nil_l, take_drop.
  - rewrite put_cell_run by lia. cbn [mbind option_bind]. rewrite IH by (rewrite length_insert; lia). f_equal.
    rewrite (take_S_r _ i v) by (apply list_lookup_insert_eq; lia). rewrite take_insert_ge by lia.
    rewrite !drop_insert_lt by lia. rewrite <- app_assoc. cbn [app replicate].
    by replace (S i + n)%nat with (i + S n)%nat by lia.
Qed.

(** ** The state of a server that can print *)

Record ready (b : list Z) s : Prop := {
  rd_vga : vga_buf s = Some b;
  rd_len : length b = Z.to_nat 2048;
  rd_row : 0 <= term_row s < 25;
  rd_col : 0 <= term_col s < 80;
  rd_lock : g_vga_lock s = 0;
}.
Definition screen_of (b : list Z) s : screen := mk_screen (take (Z.to_nat 2000) b) (term_row s * 80 + term_col s) (term_color s).

(** What printing leaves alone. *)
Definition same_rest s s' : Prop :=
  g_mode s' = g_mode s ∧ gfx13_buf s' = gfx13_buf s ∧ saved_font s' = saved_font s ∧ font_saved s' = font_saved s.

Definition prints (m : M term unit) (f : screen → screen) : Prop :=
  ∀ s b, ready b s → ∃ s' b', m s = Ret tt s' ∧ ready b' s' ∧ screen_of b' s' = f (screen_of b s) ∧ same_rest s s'.


Lemma vga_lock_run s : g_vga_lock s = 0 → vga_lock s = Ret tt (set_lock 1 s).
Proof. intros H. unfold vga_lock, uspin_lock. by rewrite H. Qed.
Lemma vga_unlock_run s : vga_unlock s = Ret tt (set_lock 0 s).
Proof. done. Qed.

(** The cursor registers: only the devices and the log change. *)
Lemma cursor_update_run s : ∃ d l, term_cursor_update s = Ret tt (set_dev d l s).
Proof. destruct s. eexists _, _. unfold term_cursor_update, mbind, M_bind, get, iowrite8. cbn. reflexivity. Qed.

(** The body of a critical section and the update of the cursor after it. *)
Lemma in_section (m : M term unit) s s' b :
  g_vga_lock s = 0 → m (set_lock 1 s) = Ret tt s' → vga_buf s' = Some b → length b = Z.to_nat 2048 →
  0 <= term_row s' < 25 → 0 <= term_col s' < 80 → same_rest s s' →
  ∃ s2, (vga_lock;; m;; term_cursor_update;; vga_unlock) s = Ret tt s2 ∧ ready b s2 ∧
    screen_of b s2 = screen_of b s' ∧ same_rest s s2.
Proof.
  intros Hl Hm Hv Hlen Hr Hc Hsame. rewrite (bind_Ret _ _ _ _ _ (vga_lock_run s Hl)), (bind_Ret _ _ _ _ _ Hm).
  destruct (cursor_update_run s') as (d & l & E). rewrite (bind_Ret _ _ _ _ _ E), vga_unlock_run.
  eexists. split; [reflexivity|]. split; [by split|split; [done|exact Hsame]].
Qed.

Lemma take_scrolled b : length b = Z.to_nat 2048 →
  ∃ b', (b ← scroll_loop (Z.to_nat 1920) 0 b; fill_loop (Z.to_nat 80) (Z.to_nat 1920) blank b) = Some b' ∧
    length b' = Z.to_nat 2048 ∧
    take (Z.to_nat 2000) b' = drop (Z.to_nat 80) (take (Z.to_nat 2000) b) ++ replicate (Z.to_nat 80) blank.
Proof.
  intros Hb. rewrite scroll_loop_run by lia. cbn [mbind option_bind]. rewrite take_0, app_nil_l, !Nat.add_0_l.
  assert (Hl : length (take (Z.to_nat 1920) (drop (Z.to_nat 80) b)) = Z.to_nat 1920) by (rewrite length_take, length_drop; lia).
  rewrite fill_loop_run by (rewrite length_app, Hl, length_drop; lia).
  rewrite take_app_le, take_ge by lia.
  eexists. split; [reflexivity|]. split.
  - rewrite !length_app, Hl, length_replicate, length_drop, length_app, Hl, length_drop. lia.
  - rewrite app_assoc, take_app_le, take_ge; rewrite ?length_app, ?Hl, ?length_replicate; try lia.
    f_equal. rewrite skipn_firstn_comm. by replace (Z.to_nat 2000 - Z.to_nat 80)%nat with (Z.to_nat 1920) by lia.
Qed.

(** Behind the last line the screen scrolls. *)
Lemma after_move s b r c : vga_buf s = Some b → length b = Z.to_nat 2048 →
  0 <= r <= 25 → 0 <= c < 80 → (r = 25 → c = 0) →
  ∃ s' b', (modify (set_cursor r c);; if VGA_HEIGHT <=? r then term_scroll_up else mret tt) s = Ret tt s' ∧
    vga_buf s' = Some b' ∧ length b' = Z.to_nat 2048 ∧ 0 <= term_row s' < 25 ∧ 0 <= term_col s' < 80 ∧
    screen_of b' s' = wrapped (mk_screen (take (Z.to_nat 2000) b) (r * 80 + c) (term_color s)) ∧
    same_rest s s'.
Proof.
  intros Hv Hlen Hr Hc H25. erewrite bind_Ret; [|reflexivity]. unfold wrapped, VGA_HEIGHT. cbn [pos cells attr].
  destruct (Z.leb_spec 25 r) as [Hle|Hlt].
  - assert (r = 25) as -> by lia. rewrite (H25 eq_refl). destruct (take_scrolled b Hlen) as (b' & E & Hl' & Ht).
    unfold term_scroll_up. erewrite (bind_Ret get); [|reflexivity]. cbn [vga_buf set_cursor]. rewrite Hv, E. unfold store.
    erewrite bind_Ret; [|reflexivity]. eexists _, b'. split; [reflexivity|]. split_and!; try done.
    unfold screen_of. rewrite Ht. done.
  - exists (set_cursor r c s), b. rewrite (proj2 (Z.ltb_lt _ _)) by lia. cbn [term_row term_col set_cursor].
    split_and!; first [done | lia].
Qed.

Lemma u32_id x : 0 <= x < 4294967296 → u32 x = x.
Proof. apply u32_small. Qed.

Lemma term_putc_prints c : -128 <= c < 128 → prints (term_putc c) (put_char c).
Proof.
  intros Hc s b [Hv Hlen Hr Hcol Hl].
  assert (Hbody : ∃ s' b', (if c =? 10 then
         let row := u32 (term_row s + 1) in
         modify (set_cursor row 0);; if VGA_HEIGHT <=? row then term_scroll_up else mret tt
       else if 32 <=? c then
         store (put_cell b (u32 (term_row s * VGA_WIDTH + term_col s)) (Z.lor (u16 c) (Z.shiftl (term_color s) 8)));;
         let col := u32 (term_col s + 1) in
         if VGA_WIDTH <=? col then
           let row := u32 (term_row s + 1) in
           modify (set_cursor row 0);; if VGA_HEIGHT <=? row then term_scroll_up else mret tt
         else modify (set_cursor (term_row s) col)
       else mret tt) (set_lock 1 s) = Ret tt s' ∧
     vga_buf s' = Some b' ∧ length b' = Z.to_nat 2048 ∧ 0 <= term_row s' < 25 ∧ 0 <= term_col s' < 80 ∧
     screen_of b' s' = put_char c (screen_of b s) ∧ same_rest s s').
  { unfold put_char, VGA_WIDTH. cbn [cells pos attr screen_of]. rewrite !u32_id by lia.
    assert (Hdiv : (term_row s * 80 + term_col s) / 80 = term_row s) by (rewrite Z.div_add_l, Z.div_small; lia).
    destruct (Z.eqb_spec c 10) as [->|Hn].
    { destruct (after_move (set_lock 1 s) b (term_row s + 1) 0 Hv Hlen) as (s' & b' & E & H); [lia..|].
      exists s', b'. split; [exact E|]. rewrite Hdiv. by rewrite Z.add_0_r in H. }
    destruct (Z.leb_spec 32 c) as [Hp|Hp]; 
      [|exists (set_lock 1 s), b; cbn [term_row term_col set_lock]; split_and!; first [done | lia]].
    assert (Ecell : ∀ v, put_cell b (term_row s * 80 + term_col s) v = Some (<[Z.to_nat (term_row s * 80 + term_col s) := v]> b))
      by (intros v; by rewrite <- put_cell_run, Z2Nat.id by lia).
    rewrite Ecell.
    assert (u16 c = c) as -> by (apply Z.mod_small; lia). set (i := Z.to_nat (term_row s * 80 + term_col s)).
    set (b1 := <[i := _]> b). assert (Hl1 : length b1 = Z.to_nat 2048) by (unfold b1; by rewrite length_insert).
    assert (Ht1 : take (Z.to_nat 2000) b1 = <[i := Z.lor c (Z.shiftl (term_color s) 8)]> (take (Z.to_nat 2000) b))
      by (apply take_insert_lt; unfold i; lia).
    unfold store. erewrite bind_Ret; [|reflexivity]. cbv zeta. rewrite <- Ht1.
    destruct (Z.leb_spec 80 (term_col s + 1)) as [Hw|Hw].
    - destruct (after_move (set_vga (Some b1) (set_lock 1 s)) b1 (term_row s + 1) 0) as (s' & b' & E & H); [done..|lia|lia|lia|].
      exists s', b'. split; [exact E|]. rewrite Z.add_0_r in H.
      replace ((term_row s + 1) * 80) with (term_row s * 80 + term_col s + 1) in H by lia. exact H.
    - eexists _, b1. split; [reflexivity|]. cbn. split_and!; try done; try lia.
      unfold wrapped. cbn [pos]. rewrite (proj2 (Z.ltb_lt _ _)) by lia. unfold screen_of. cbn. f_equal. lia. }
  destruct Hbody as (s' & b' & E & Hv' & Hlen' & Hr' & Hc' & Hsc & Hsame).
  destruct (in_section _ s s' b' Hl E Hv' Hlen' Hr' Hc' Hsame) as (s2 & E2 & Hready & Hsc2 & Hsame2).
  exists s2, b'. split_and!; [|done|by rewrite Hsc2|done].
  rewrite <- E2. unfold term_putc. rewrite !(bind_Ret _ _ _ _ _ (vga_lock_run s Hl)).
  erewrite (bind_Ret get); [|reflexivity]. cbn [vga_buf set_lock]. by rewrite Hv.
Qed.

Lemma prints_nothing : prints (mret tt : M term unit) id.
Proof. intros s b H. by exists s, b. Qed.

Lemma prints_ext (m : M term unit) f g : prints m f → (∀ k, f k = g k) → prints m g.
Proof. intros H E s b Hr. destruct (H s b Hr) as (s' & b' & H1 & H2 & H3 & H4). exists s', b'. by rewrite <- E. Qed.

Lemma prints_seq (m1 m2 : M term unit) f g : prints m1 f → prints m2 g → prints (m1;; m2) (λ k, g (f k)).
Proof.
  intros H1 H2 s b Hr. destruct (H1 s b Hr) as (s1 & b1 & E1 & Hr1 & Hs1 & Hsame1).
  destruct (H2 s1 b1 Hr1) as (s2 & b2 & E2 & Hr2 & Hs2 & Hsame2).
  exists s2, b2. rewrite (bind_Ret _ _ _ _ _ E1), E2, Hs2, Hs1. split_and!; try done.
  unfold same_rest in *. by destruct Hsame1 as (<- & <- & <- & <-).
Qed.

Lemma set_color_prints code : prints (term_set_color code) (colored code).
Proof.
  assert (Hset : ∀ a, prints (vga_lock;; modify (set_color a);; vga_unlock : M term unit) (λ k, mk_screen (cells k) (pos k) a)).
  { intros a s b [Hv Hlen Hr Hc Hl]. rewrite (bind_Ret _ _ _ _ _ (vga_lock_run s Hl)). erewrite bind_Ret; [|reflexivity].
    eexists _, b. split; [reflexivity|]. split; [by split|done]. }
  unfold term_set_color, colored, TERM_COLOR.
  destruct (code =? 0); [exact (Hset 7)|].
  destruct ((30 <=? code) && (code <=? 37)) eqn:E1; [|destruct ((90 <=? code) && (code <=? 97)) eqn:E2]; zprop.
  - rewrite u8_small by (unfold is_u8; lia). exact (Hset (code - 30)).
  - rewrite u8_small by (unfold is_u8; lia). eapply prints_ext; [exact (Hset (8 + (code - 90)))|]. intros k. cbv beta. by replace (8 + (code - 90)) with (code - 82) by lia.
  - eapply prints_ext; [apply prints_nothing|done].
Qed.

Lemma clear_run s b : vga_buf s = Some b → length b = Z.to_nat 2048 →
  ∃ b', term_clear_screen s = Ret tt (set_cursor 0 0 (set_vga (Some b') s)) ∧ length b' = Z.to_nat 2048 ∧
    take (Z.to_nat 2000) b' = replicate (Z.to_nat 2000) blank.
Proof.
  intros Hv Hlen. unfold term_clear_screen. erewrite (bind_Ret get); [|reflexivity]. rewrite Hv.
  rewrite fill_loop_run by lia. unfold store. erewrite bind_Ret; [|reflexivity]. eexists. split; [reflexivity|].
  rewrite take_0, app_nil_l, Nat.add_0_l. split.
  - rewrite length_app, length_replicate, length_drop. lia.
  - by rewrite take_app_le, take_ge by (rewrite length_replicate; lia).
Qed.

Lemma erase_prints (a : option Z) :
  prints (vga_lock;; term_clear_screen;; match a with Some v => modify (set_color v) | None => mret tt end;;
          term_cursor_update;; vga_unlock : M term unit)
    (λ k, mk_screen (replicate (Z.to_nat 2000) blank) 0 (default (attr k) a)).
Proof.
  intros s b [Hv Hlen Hr Hc Hl].
  destruct (clear_run (set_lock 1 s) b Hv Hlen) as (b' & E & Hlen' & Ht).
  set (s1 := set_cursor 0 0 (set_vga (Some b') (set_lock 1 s))) in *.
  set (s2 := match a with Some v => set_color v s1 | None => s1 end).
  destruct (in_section (term_clear_screen;; match a with Some v => modify (set_color v) | None => mret tt end) s s2 b' Hl) as (s3 & E3 & Hready & Hsc & Hsame).
  - rewrite (bind_Ret _ _ _ _ _ E). by destruct a.
  - by destruct a.
  - done.
  - destruct a; cbn; lia.
  - destruct a; cbn; lia.
  - by destruct a.
  - exists s3, b'. split_and!; [|done| |done].
    + rewrite <- E3. rewrite !(bind_Ret _ _ _ _ _ (vga_lock_run s Hl)). symmetry. apply bind_assoc.
    + rewrite Hsc. unfold screen_of. rewrite Ht. by destruct a.
Qed.

Lemma home_prints : prints (vga_lock;; modify (set_cursor 0 0);; term_cursor_update;; vga_unlock : M term unit) (λ k, mk_screen (cells k) 0 (attr k)).
Proof.
  intros s b [Hv Hlen Hr Hc Hl].
  destruct (in_section (modify (set_cursor 0 0)) s (set_cursor 0 0 (set_lock 1 s)) b Hl) as (s3 & E3 & Hready & Hsc & Hsame);
    [done|done|done|cbn; lia|cbn; lia|done|].
  exists s3, b. split_and!; [done|done| |done]. rewrite Hsc. done.
Qed.

(** A sequence does what its token stands for. *)
Lemma escape_final_prints f ds : is_final f = true →
  prints (escape_final f (number 0 ds) (negb (bool_decide (ds = [])))) (λ k, effect k (final_token f ds)).
Proof.
  intros Hf. unfold escape_final, final_token, is_final in *.
  destruct (f =? 109).
  { destruct (bool_decide_reflect (ds = [])) as [->|Hd]; cbn [negb]; apply set_color_prints. }
  destruct (f =? 74).
  - rewrite negb_involutive. destruct (bool_decide (ds = []) || (number 0 ds =? 2)); cbn [effect].
    + apply (erase_prints (Some TERM_COLOR)).
    + apply prints_nothing.
  - simpl in Hf. rewrite Hf. apply home_prints.
Qed.

(** ** The scan *)

Lemma byte_at_run p len j (s : term) : 0 <= j < len → len <= Z.of_nat (length p) →
  ∃ c, byte_at p j s = Ret c s ∧ take (Z.to_nat len) p !! Z.to_nat j = Some c ∧
    drop (Z.to_nat j) (take (Z.to_nat len) p) = c :: drop (Z.to_nat (j + 1)) (take (Z.to_nat len) p).
Proof.
  intros Hj Hlen. destruct (lookup_lt_is_Some_2 p (Z.to_nat j)) as [c Hc]; [lia|].
  assert (Ht : take (Z.to_nat len) p !! Z.to_nat j = Some c) by (rewrite lookup_take_lt by lia; done).
  exists c. unfold byte_at. rewrite Hc. split_and!; [done|done|].
  rewrite (drop_S _ _ _ Ht). by replace (Z.to_nat (j + 1)) with (S (Z.to_nat j)) by lia.
Qed.

(** The number of a longer run is at least as large. *)
Lemma number_mono ds : Forall (λ c, is_digit c = true) ds → ∀ a, 0 <= a → a <= number a ds.
Proof.
  induction 1 as [|c ds Hc _ IH]; intros a Ha; [done|]. cbn [number foldl] in *. unfold is_digit in Hc. zprop.
  etrans; [|apply IH; lia]. lia.
Qed.

Lemma span_digits_spec p : p = (span_digits p).1 ++ (span_digits p).2 ∧ Forall (λ c, is_digit c = true) (span_digits p).1.
Proof.
  induction p as [|c p [IH1 IH2]]; [done|]. cbn [span_digits]. destruct (is_digit c) eqn:E; cbn [fst snd app]; [|done].
  split; [by f_equal|by constructor].
Qed.

Lemma digits_run p len : len <= Z.of_nat (length p) → ∀ fuel j code has (s : term),
  0 <= code → 0 <= j <= len → (Z.to_nat (len - j) < fuel)%nat →
  let r := span_digits (drop (Z.to_nat j) (take (Z.to_nat len) p)) in
  number code r.1 <= 2147483647 →
  digits fuel p len j code has s = Ret (number code r.1, has || negb (bool_decide (r.1 = [])), j + Z.of_nat (length r.1)) s ∧
  r.2 = drop (Z.to_nat (j + Z.of_nat (length r.1))) (take (Z.to_nat len) p).
Proof.
  intros Hlen. induction fuel as [|fuel IH]; intros j code has s Hcode Hj Hfuel r Hfit; [lia|]. cbn [digits]. unfold r in *. clear r.
  destruct (Z.ltb_spec j len) as [Hlt|Hge]; cbn [negb].
  2: { assert (j = len) as -> by lia. rewrite drop_ge by (rewrite length_take; lia). cbn. rewrite orb_false_r, Z.add_0_r.
       split; [done|]. rewrite drop_ge; [done|]. rewrite length_take. lia. }
  destruct (byte_at_run p len j s ltac:(lia) Hlen) as (c & E & _ & Ed). rewrite (bind_Ret _ _ _ _ _ E). rewrite Ed in *.
  cbn [span_digits] in *. fold (is_digit c). destruct (is_digit c) eqn:Edig; cbn [fst snd] in *.
  2: { cbn. rewrite orb_false_r, Z.add_0_r. by rewrite Ed. }
  assert (Hc : 48 <= c <= 57) by (unfold is_digit in Edig; zprop; lia).
  pose proof (span_digits_spec (drop (Z.to_nat (j + 1)) (take (Z.to_nat len) p))) as [_ Hall].
  cbn [number foldl] in Hfit. pose proof (number_mono _ Hall (code * 10 + (c - 48)) ltac:(lia)) as Hmono.
  rewrite (proj2 (Z.ltb_ge _ _)) by (unfold number in *; lia).
  destruct (IH (j + 1) (code * 10 + (c - 48)) true s ltac:(lia) ltac:(lia) ltac:(lia) Hfit) as [E2 Hr].
  rewrite E2, Hr. cbn [length orb]. split; [|do 2 f_equal; lia].
  f_equal. f_equal; [|lia]. f_equal. by destruct has.
Qed.

(** Every number in the text fits an [int]. *)
Definition codes_fit (q : list Z) : Prop := ∀ i, number 0 (span_digits (drop i q)).1 <= 2147483647.

Lemma schar_range c : 0 <= c < 256 → -128 <= schar c < 128.
Proof. unfold schar. zcase; lia. Qed.

(** What [next_token] finds after an opening bracket. *)
Lemma next_token_escape q : next_token (27 :: 91 :: q) =
  match (span_digits q).2 with
  | f :: rest => if is_final f then Some (final_token f (span_digits q).1, rest) else Some (TChar 27, 91 :: q)
  | [] => Some (TChar 27, 91 :: q)
  end.
Proof. cbn. by destruct (span_digits q) as [ds [|f rest]]. Qed.

Lemma next_token_char c q : (∀ q', c = 27 → q = 91 :: q' → False) → next_token (c :: q) = Some (TChar (schar c), q).
Proof.
  intros H. cbn. destruct (Z.eqb_spec c 27) as [->|]; [|done]. destruct q as [|d q]; [done|].
  destruct (Z.eqb_spec d 91) as [->|]; [|done]. by destruct (H q).
Qed.

Lemma term_print_loop_prints p len :
  Forall is_u8 p → 0 <= len <= Z.of_nat (length p) → codes_fit (take (Z.to_nat len) p) →
  ∀ fuel n i, 0 <= i <= len + 1 → (Z.to_nat (len + 1 - i) <= fuel)%nat → (Z.to_nat (len - i) <= n)%nat → (0 < fuel)%nat →
  prints (term_print_loop fuel p len i) (λ k, foldl effect k (tokens n (drop (Z.to_nat i) (take (Z.to_nat len) p)))).
Proof.
  intros Hp Hlen Hfit. set (q := take (Z.to_nat len) p) in *.
  induction fuel as [|fuel IH]; intros n i Hi Hfuel Hn Hpos; [lia|].
  assert (Hq : length q = Z.to_nat len) by (unfold q; rewrite length_take; lia).
  cbn [term_print_loop]. destruct (Z.ltb_spec i len) as [Hlt|Hge]; cbn [negb].
  2: { rewrite drop_ge by lia. eapply prints_ext; [apply prints_nothing|]. intros k. by destruct n. }
  destruct n as [|n]; [lia|]. intros s b Hr.
  destruct (byte_at_run p len i s ltac:(lia) ltac:(lia)) as (c & Ec & Hqc & Ed). fold q in Hqc, Ed.
  rewrite (bind_Ret _ _ _ _ _ Ec).
  assert (Hcb : is_u8 c). { apply lookup_take_Some in Hqc as [Hpc _]. exact (Forall_lookup_1 _ _ _ _ Hp Hpc). }
  assert (Hchar : next_token (c :: drop (Z.to_nat (i + 1)) q) = Some (TChar (schar c), drop (Z.to_nat (i + 1)) q) →
    ∃ s' b', (term_putc (schar c);; term_print_loop fuel p len (i + 1)) s = Ret tt s' ∧ ready b' s' ∧
      screen_of b' s' = foldl effect (screen_of b s) (tokens (S n) (drop (Z.to_nat i) q)) ∧ same_rest s s').
  { intros Et. rewrite Ed. cbn [tokens]. rewrite Et. cbn [foldl effect].
    apply (prints_seq (term_putc (schar c)) (term_print_loop fuel p len (i + 1)) (put_char (schar c))
      (λ k, foldl effect k (tokens n (drop (Z.to_nat (i + 1)) q)))); [|apply IH; lia|done].
    by apply term_putc_prints, schar_range. }
  destruct (Z.eqb_spec c 27) as [->|Hc]; cbn [andb].
  2: { rewrite !bind_ret. apply Hchar, next_token_char. congruence. }
  destruct (Z.ltb_spec (i + 1) len) as [Hlt1|Hge1]; cbn [andb].
  2: { rewrite !bind_ret. apply Hchar, next_token_char. intros q' _. rewrite drop_ge by lia. done. }
  destruct (byte_at_run p len (i + 1) s ltac:(lia) ltac:(lia)) as (d & Ec1 & _ & Ed1). fold q in Ed1.
  rewrite (bind_Ret _ _ _ _ _ Ec1). destruct (Z.eqb_spec d 91) as [->|Hd].
  2: { rewrite bind_ret. apply Hchar, next_token_char. intros q' _. rewrite Ed1. congruence. }
  replace (i + 1 + 1) with (i + 2) in Ed1 by lia.
  destruct (digits_run p len ltac:(lia) (length p + 1) (i + 2) 0 false s ltac:(lia) ltac:(lia) ltac:(lia)) as [Edig Erest]; [apply Hfit|].
  fold q in Edig, Erest. set (r := span_digits (drop (Z.to_nat (i + 2)) q)) in *. set (j := i + 2 + Z.of_nat (length r.1)) in *.
  rewrite bind_assoc, (bind_Ret _ _ _ _ _ Edig). cbn [orb].
  destruct (Z.ltb_spec j len) as [Hj|Hj]; cbn [andb].
  2: { rewrite bind_assoc, bind_ret, bind_ret. apply Hchar. rewrite Ed1, next_token_escape. fold r. by rewrite Erest, drop_ge by lia. }
  destruct (byte_at_run p len j s ltac:(lia) ltac:(lia)) as (f & Ef & _ & Edf). fold q in Edf.
  rewrite bind_assoc, (bind_Ret _ _ _ _ _ Ef). destruct (is_final f) eqn:Efin.
  2: { rewrite bind_ret. apply Hchar. rewrite Ed1, next_token_escape. fold r. by rewrite Erest, Edf, Efin. }
  rewrite Ed, Ed1. cbn [tokens]. rewrite next_token_escape. fold r. rewrite Erest, Edf, Efin. cbn [foldl].
  rewrite bind_assoc.
  apply (prints_seq (escape_final f (number 0 r.1) (negb (bool_decide (r.1 = [])))) (term_print_loop fuel p len (j + 1))
    (λ k, effect k (final_token f r.1)) (λ k, foldl effect k (tokens n (drop (Z.to_nat (j + 1)) q))));
    [by apply escape_final_prints|apply IH; lia|done].
Qed.

(** C33: Printing a payload on a mapped screen always returns, never writes
    outside the window, and leaves exactly the screen the console language
    prescribes: the bytes are read as a sequence of characters and of the
    escape sequences for colour, erase and home, and each token changes the
    eighty by twenty-five cells, the cursor and the attribute as [effect]
    says - printable characters fill the next cell, a newline or a full line
    moves on, and behind the last line everything moves up.  The cursor stays
    on the screen, the lock is free again and the mode is not touched. *)
Theorem term_print_shows p len s b :
  ready b s → Forall is_u8 p → 0 <= len <= Z.of_nat (length p) → codes_fit (take (Z.to_nat len) p) →
  ∃ s' b', term_print p len s = Ret tt s' ∧ ready b' s' ∧
    screen_of b' s' = shown (take (Z.to_nat len) p) (screen_of b s) ∧ same_rest s s'.
Proof.
  intros Hr Hp Hlen Hfit. unfold term_print, shown.
  assert (Hq : length (take (Z.to_nat len) p) = Z.to_nat len) by (rewrite length_take; lia). rewrite Hq.
  destruct (term_print_loop_prints p len Hp Hlen Hfit (length p + 1) (Z.to_nat len) 0 ltac:(lia) ltac:(lia) ltac:(lia) ltac:(lia) s b Hr)
    as (s' & b' & H). exists s', b'. by rewrite drop_0 in H.
Qed.

(** ** Ports *)

(** One byte at a port of the range 0x3C0 to 0x3DF. *)
Definition vga_port (y : cycle) : Prop :=
  match y with In W8 p | Out W8 p _ => 960 <= p < 960 + 32 | _ => False end.

Definition confined {A} (m : M term A) : Prop := ∀ s a s', m s = Ret a s' →
  ∃ l, t_cycles s' = l ++ t_cycles s ∧ Forall vga_port l.

Lemma confined_bind {A B} (m : M term A) (k : A → M term B) : confined m → (∀ a, confined (k a)) → confined (m ≫= k).
Proof.
  intros Hm Hk s b s' E. unfold mbind, M_bind in E. destruct (m s) as [a s1| |] eqn:E1; try done.
  destruct (Hm _ _ _ E1) as (l1 & H1 & F1). destruct (Hk a _ _ _ E) as (l2 & H2 & F2).
  exists (l2 ++ l1). rewrite H2, H1, app_assoc. split; [done|]. by apply Forall_app.
Qed.

Lemma confined_quiet {A} (m : M term A) : (∀ s a s', m s = Ret a s' → t_cycles s' = t_cycles s) → confined m.
Proof. intros H s a s' E. exists []. by rewrite (H _ _ _ E). Qed.

Lemma confined_ret {A} (a : A) : confined (mret a : M term A).
Proof. apply confined_quiet. by intros s ? s' [= <- <-]. Qed.
Lemma confined_get : confined (get : M term term).
Proof. apply confined_quiet. by intros s ? s' [= <- <-]. Qed.
Lemma confined_gets {A} (f : term → A) : confined (gets f).
Proof. apply confined_quiet. by intros s ? s' [= <- <-]. Qed.
Lemma confined_modify (f : term → term) : (∀ s, t_cycles (f s) = t_cycles s) → confined (modify f).
Proof. intros H. apply confined_quiet. intros s ? s' [= _ <-]. apply H. Qed.
Lemma confined_fault {A} : confined (fault : M term A).
Proof. by intros s a s' E. Qed.
Lemma confined_spin {A} : confined (spin : M term A).
Proof. by intros s a s' E. Qed.
Lemma confined_lock : confined (vga_lock : M term unit).
Proof. apply confined_quiet. intros s a s'. unfold vga_lock, uspin_lock. destruct (_ =? 1); [done|]. by intros [= _ <-]. Qed.
Lemma confined_unlock : confined (vga_unlock : M term unit).
Proof. apply confined_quiet. by intros s a s' [= _ <-]. Qed.
Lemma confined_out p v : 960 <= p < 992 → confined (iowrite8 p v : M term unit).
Proof. intros Hp s a s' [= _ <-]. exists [Out W8 p (u8 v)]. split; [done|]. constructor; [exact Hp|constructor]. Qed.
Lemma confined_in p : 960 <= p < 992 → confined (ioread8 p : M term Z).
Proof. intros Hp s a s' [= _ <-]. exists [In W8 p]. split; [done|]. constructor; [exact Hp|constructor]. Qed.
Lemma confined_byte q i : confined (byte_at q i : M term Z).
Proof. unfold byte_at. destruct (q !! _); [apply confined_ret|apply confined_fault]. Qed.
Lemma confined_store b : confined (store b : M term unit).
Proof. destruct b; [by apply confined_modify|apply confined_fault]. Qed.

Lemma confined_outs l : Forall (λ x, 960 <= x.1 < 992) l → confined (outs l : M term unit).
Proof.
  induction 1 as [|[p v] l Hp _ IH]; [apply confined_ret|]. apply confined_bind; [by apply confined_out|]. intros _. exact IH.
Qed.
Lemma confined_regs a d regs : 960 <= a < 992 → 960 <= d < 992 → ∀ i, confined (write_regs a d i regs : M term unit).
Proof.
  intros Ha Hd. induction regs as [|v regs IH]; intros i; [apply confined_ret|].
  apply confined_bind; [by apply confined_out|]. intros _. apply confined_bind; [by apply confined_out|]. intros _. apply IH.
Qed.
Lemma confined_vram_load n : ∀ i, confined (vram_load n i : M term (list Z)).
Proof.
  induction n as [|n IH]; intros i; [apply confined_ret|]. apply confined_bind; [apply confined_gets|]. intros v.
  apply confined_bind; [apply IH|]. intros l. apply confined_ret.
Qed.
Lemma confined_vram_store l : ∀ i, confined (vram_store i l : M term unit).
Proof.
  induction l as [|v l IH]; intros i; [apply confined_ret|]. apply confined_bind; [by apply confined_modify|]. intros _. apply IH.
Qed.

Create HintDb ports discriminated.
#[local] Hint Constants Opaque : ports.
#[local] Hint Resolve confined_ret confined_get confined_gets confined_fault confined_spin confined_lock confined_unlock
  confined_byte confined_store confined_vram_load confined_vram_store : ports.

(** Split a function into its steps, the branches included. *)
Ltac port_side := unfold VGA_CRT_ADDR, VGA_CRT_DATA, VGA_MISC_WRITE, VGA_SEQ_ADDR, VGA_SEQ_DATA, VGA_GC_ADDR, VGA_GC_DATA,
  VGA_AC_ADDR, VGA_AC_DATA, VGA_DAC_MASK, VGA_DAC_WRITE, VGA_DAC_DATA, VGA_STAT_READ in *.
Ltac confine :=
  repeat match goal with
  | |- ∀ _, _ => intro
  | |- confined (_ ≫= _) => apply confined_bind
  | |- confined (iowrite8 _ _) => apply confined_out; port_side; lia
  | |- confined (ioread8 _) => apply confined_in; port_side; lia
  | |- confined (write_regs _ _ _ _) => apply confined_regs; port_side; lia
  | |- confined (outs _) => apply confined_outs; port_side; solve [repeat (constructor; [cbn; lia|]); constructor]
  | |- confined (modify _) => apply confined_modify; by intros
  | |- confined (match _ with _ => _ end) => case_match
  | |- confined (let _ := _ in _) => cbv zeta
  | |- confined (if _ then _ else _) => case_match
  | |- confined _ => solve [eauto 1 with ports]
  end.

Lemma confined_cursor : confined (term_cursor_update : M term unit).
Proof. unfold term_cursor_update. confine. Qed.
Lemma confined_scroll : confined (term_scroll_up : M term unit).
Proof. unfold term_scroll_up. confine. Qed.
Lemma confined_clear : confined (term_clear_screen : M term unit).
Proof. unfold term_clear_screen. confine. Qed.
#[local] Hint Resolve confined_cursor confined_scroll confined_clear : ports.
Lemma confined_putc c : confined (term_putc c : M term unit).
Proof. unfold term_putc. confine. Qed.
Lemma confined_color c : confined (term_set_color c : M term unit).
Proof. unfold term_set_color. confine. Qed.
#[local] Hint Resolve confined_putc confined_color : ports.
Lemma confined_final f c h : confined (escape_final f c h : M term unit).
Proof. unfold escape_final. confine. Qed.
Lemma confined_digits fuel : ∀ p len j code has, confined (digits fuel p len j code has : M term _).
Proof. induction fuel as [|fuel IH]; intros; cbn [digits]; confine; apply IH. Qed.
#[local] Hint Resolve confined_final confined_digits : ports.
Lemma confined_print fuel : ∀ p len i, confined (term_print_loop fuel p len i : M term unit).
Proof. induction fuel as [|fuel IH]; intros; cbn [term_print_loop]; confine; apply IH. Qed.
#[local] Hint Resolve confined_print : ports.

Lemma confined_mode seq crtc gc ac : confined (load_mode seq crtc gc ac : M term unit).
Proof. unfold load_mode, vga_write_regs. confine. Qed.
#[local] Hint Resolve confined_mode : ports.
Lemma confined_font_save : confined (font_save : M term unit).
Proof. unfold font_save. confine. Qed.
Lemma confined_font_load : confined (font_load : M term unit).
Proof. unfold font_load. confine. Qed.
#[local] Hint Resolve confined_font_save confined_font_load : ports.
Lemma confined_gfx g p : confined (gfx_handle g p : M term Z).
Proof. unfold gfx_handle, gfx_enter_mode13, gfx_enter_text. confine. Qed.
#[local] Hint Resolve confined_gfx : ports.

(** Whatever a client sends, the terminal server touches byte-wide ports
    of the range 0x3C0 to 0x3DF only: this holds for every request (text,
    erase, mode switch, blit), for every echoed key and for the read-back of
    the cursor at start. *)
Theorem terminal_ports_within_grant p n pressed ascii s a s' :
  term_request p n s = Ret a s' ∨ (term_key pressed ascii;; mret 0) s = Ret a s' ∨ (term_sync_cursor_from_hw;; mret 0) s = Ret a s' →
  ∃ l, t_cycles s' = l ++ t_cycles s ∧ Forall vga_port l.
Proof.
  intros [E|[E|E]]; revert s a s' E.
  - change (confined (term_request p n)). unfold term_request, term_print. confine.
  - change (confined (term_key pressed ascii;; mret 0)). unfold term_key. confine.
  - change (confined (term_sync_cursor_from_hw;; mret 0)). unfold term_sync_cursor_from_hw. confine.
Qed.

(** ** Graphics frames *)

(** Pixels stored one after the other. *)
Fixpoint drawn (i : Z) (l : list Z) (d : D) : D :=
  match l with [] => d | v :: l => drawn (i + 1) l (fb_write i v d) end.

Lemma vram_store_run l : ∀ i s, vram_store i l s = Ret tt (set_dev (drawn i l (t_dev s)) (t_cycles s) s).
Proof.
  induction l as [|v l IH]; intros i s; [by destruct s|]. cbn [vram_store]. unfold vram_write. erewrite bind_Ret; [|reflexivity].
  rewrite IH. done.
Qed.

(** A control frame reaches [gfx_handle]. *)
Lemma control_frame p n g s : frame p = Some g → g_esc g = 27 → g_tag g = 71 → sizeof_gfx_ctrl <= n →
  term_request (Some p) n s = gfx_handle g p s.
Proof.
  intros Hf He Ht Hn. unfold term_request. rewrite (proj2 (Z.leb_le _ _) Hn).
  destruct p as [|e [|t0 p]]; [done|by destruct e|].
  assert (e = 27 ∧ t0 = 71) as [-> ->].
  { do 10 (destruct p as [|? p]; [done|]). cbn in Hf. simplify_eq. done. }
  rewrite Hf. done.
Qed.

(** Only the owner of the current mode draws.  In graphics mode a payload
    that is neither a control frame nor the erase sequence, and any key, are
    accepted and change nothing.  A blit frame in text mode, or of another
    size than the frame buffer, is answered -1 and changes nothing; in
    graphics mode with the window mapped a blit of a whole frame is answered
    0, stores exactly its 64000 pixels in order and releases the lock.  A
    switch to an unknown mode and an unknown command are answered -3. *)
Theorem graphics_mode_is_respected s p n g pressed ascii :
  g_vga_lock s = 0 → sizeof_gfx_ctrl <= n →
  (g_mode s = GFX_MODE_13 → term_key pressed ascii s = Ret tt s ∧
     (p !! 0%nat ≠ Some 27 → p ≠ [] → term_request (Some p) n s = Ret 0 s)) ∧
  (frame p = Some g → g_esc g = 27 → g_tag g = 71 →
     (g_cmd g = GFX_CTRL_BLIT → g_mode s ≠ GFX_MODE_13 ∨ g_a g ≠ GFX_FB_SIZE → term_request (Some p) n s = Ret (-1) s) ∧
     (g_cmd g = GFX_CTRL_BLIT → g_mode s = GFX_MODE_13 → g_a g = GFX_FB_SIZE → gfx13_buf s = true →
        ∀ fb, frame_pixels p = Some fb →
        term_request (Some p) n s = Ret 0 (set_dev (drawn 0 fb (t_dev s)) (t_cycles s) s)) ∧
     (g_cmd g = GFX_CTRL_SET_MODE → g_a g ≠ GFX_MODE_13 → g_a g ≠ GFX_MODE_TEXT → term_request (Some p) n s = Ret (-3) s) ∧
     (g_cmd g ≠ GFX_CTRL_SET_MODE → g_cmd g ≠ GFX_CTRL_BLIT → term_request (Some p) n s = Ret (-3) s)).
Proof.
  intros Hl Hn.
  assert (Hrelock : set_lock 0 (set_lock 1 s) = s) by (destruct s; cbn in *; by subst).
  split.
  - intros Hm. split.
    { unfold term_key. erewrite (bind_Ret (gets g_mode)); [|reflexivity]. rewrite Hm. by rewrite andb_false_r. }
    intros Hp0 Hp. destruct p as [|c p]; [done|]. unfold term_request. rewrite (proj2 (Z.leb_le _ _) Hn).
    erewrite bind_Ret; [|reflexivity]. rewrite (proj2 (Z.eqb_neq c 27)) by (cbn in Hp0; congruence). cbn [andb]. rewrite bind_ret.
    rewrite (proj2 (Z.eqb_neq n 4)) by (unfold sizeof_gfx_ctrl in Hn; lia). cbn [andb].
    erewrite (bind_Ret (gets g_mode)); [|reflexivity]. rewrite Hm. by rewrite andb_false_r.
  - intros Hf He Ht. rewrite (control_frame p n g s Hf He Ht Hn). unfold gfx_handle. split_and!.
    + intros -> H. cbn [Z.eqb GFX_CTRL_BLIT GFX_CTRL_SET_MODE Pos.eqb]. erewrite (bind_Ret get); [|reflexivity].
      destruct H as [H|H]; rewrite (proj2 (Z.eqb_neq _ _) H); [done|]. by rewrite orb_true_r.
    + intros -> Hm Ha Hw fb Hfb. cbn [Z.eqb GFX_CTRL_BLIT GFX_CTRL_SET_MODE Pos.eqb]. erewrite (bind_Ret get); [|reflexivity].
      rewrite Hm, Ha, !Z.eqb_refl. cbn [negb orb]. rewrite (bind_Ret _ _ _ _ _ (vga_lock_run s Hl)), Hw, Hfb.
      rewrite (bind_Ret _ _ _ _ _ (vram_store_run fb 0 _)), (bind_Ret _ _ _ _ _ (vga_unlock_run _)).
      unfold mret, M_ret. f_equal. clear -Hl. destruct s. cbn in *. by subst.
    + intros -> H13 H3. rewrite Z.eqb_refl, (bind_Ret _ _ _ _ _ (vga_lock_run s Hl)), (proj2 (Z.eqb_neq _ _) H13), (proj2 (Z.eqb_neq _ _) H3).
      rewrite (bind_Ret _ _ _ _ _ (vga_unlock_run _)), Hrelock. done.
    + intros H1 H2. by rewrite (proj2 (Z.eqb_neq _ _) H1), (proj2 (Z.eqb_neq _ _) H2).
Qed.
End proofs.

(** ** Witnesses: the ports of Io.v and a frame buffer that is a map *)

#[export] Instance no_vram : Vram byte_regs := {| fb_read i d := 0; fb_write i v d := d |}.

(** A server after start: blank screen, cursor at home. *)
Definition fresh (r c mode : Z) : term byte_regs :=
  mk_term (Some (replicate (Z.to_nat 2048) blank)) true r c TERM_COLOR 0 mode [] false ∅ [].

Lemma fresh_ready r c mode : 0 <= r < 25 → 0 <= c < 80 → ready (replicate (Z.to_nat 2048) blank) (fresh r c mode).
Proof. intros Hr Hc. split; [done|by rewrite length_replicate|done|done|done]. Qed.

(** "ok" in green: ESC [ 3 2 m o k ESC [ 0 m newline. *)
Definition green_ok : list Z := [27; 91; 51; 50; 109; 111; 107; 27; 91; 48; 109; 10].

Example green_ok_tokens : tokens 12 green_ok = [TColor 32; TChar 111; TChar 107; TColor 0; TChar 10].
Proof. reflexivity. Qed.

Lemma green_ok_fits : codes_fit green_ok.
Proof. intros i. do 12 (destruct i as [|i]; [vm_compute; discriminate|]). destruct i; vm_compute; discriminate. Qed.

Lemma term_print_shows_witness :
  ∃ s' b', term_print green_ok 12 (fresh 24 0 3) = Ret tt s' ∧ ready b' s' ∧
    screen_of b' s' = shown (take (Z.to_nat 12) green_ok) (screen_of (replicate (Z.to_nat 2048) blank) (fresh 24 0 3)) ∧
    same_rest (fresh 24 0 3) s'.
Proof.
  apply (term_print_shows green_ok 12 (fresh 24 0 3) (replicate (Z.to_nat 2048) blank)).
  - apply fresh_ready; lia.
  - repeat (constructor; [unfold is_u8; lia|]). constructor.
  - cbn. lia.
  - exact green_ok_fits.
Defined.

Lemma terminal_ports_within_grant_witness :
  ∃ l, t_cycles (set_dev {[ 980 := 15; 981 := 1 ]} [Out W8 981 1; Out W8 980 15; Out W8 981 0; Out W8 980 14]
    (set_cursor 0 1 (set_vga (Some (<[0%nat := 1857]> (replicate (Z.to_nat 2048) blank))) (fresh 0 0 3)))) = l ++ t_cycles (fresh 0 0 3) ∧
    Forall vga_port l.
Proof.
  apply (terminal_ports_within_grant None 0 1 65 (fresh 0 0 3) 0). right. left. vm_compute. reflexivity.
Defined.

Lemma graphics_mode_is_respected_witness :
  term_request (Some [27; 71; 2; 0; 0; 250; 0; 0; 0; 0; 0; 0]) 12 (fresh 0 0 3) = Ret (-1) (fresh 0 0 3).
Proof.
  destruct (graphics_mode_is_respected (fresh 0 0 3) [27; 71; 2; 0; 0; 250; 0; 0; 0; 0; 0; 0] 12
    (mk_gfx 27 71 2 0 64000 0) 0 0 eq_refl ltac:(unfold sizeof_gfx_ctrl; lia)) as [_ H].
  apply (H eq_refl eq_refl eq_refl); [reflexivity|]. left. discriminate.
Defined.

(** A cursor the hardware reports behind the screen is adopted as it is; the
    next character is then stored outside the window. *)
Definition stray : term byte_regs :=
  mk_term (Some (replicate (Z.to_nat 2048) blank)) true 0 0 TERM_COLOR 0 3 [] false {[ 981 := 8 ]} [].
#[local] Definition both_halves_8 : Devices byte_regs :=
  {| dev_in w p d := (8, d); dev_out w p v d := d |}.
Example stray_cursor_is_adopted :
  (term_sync_cursor_from_hw (Devices0 := both_halves_8);; term_putc (Devices0 := both_halves_8) 65) stray = Fault.
Proof. vm_compute. reflexivity. Qed.

(** A blit whose payload is only the control frame reads past the mapping. *)
Example blit_of_a_bare_frame : term_request (Some [27; 71; 2; 0; 0; 250; 0; 0; 0; 0; 0; 0]) 12 (fresh 0 0 19) = Fault.
Proof. vm_compute. reflexivity. Qed.
