(* ===== verification/Servers.v ===== *)
(** * The clock, keyboard and log servers (user/server/clock/rtc_server.c,
      user/server/input/kb_server.c, user/server/serial/log_server2.c) and the
      loop the portal servers share

    Ring-3 programs that own one device each: the CMOS clock, the 8042
    keyboard controller, the serial port. *)

From stdpp Require Import base tactics list gmap.
From Stdlib Require Import ZArith Lia.
From S2P Require Import Prelude ThreadApi Portal Mailbox Irq Io KConsole Abi NameServer UserLib.

Open Scope Z_scope.

(** ** The loop of a portal server *)

Section server.
Context {S : Type} `{!Gate S portal_ctrl_config, !Gate S proc_thread_ctrl_config}.

(** One turn: wait, take a request, handle it ([va] and [va_size] of the
    payload), reply. *)
Definition serve_turn (handle : Z → Z → M S Z) (cfg : portal_ctrl_config) : M S portal_ctrl_config :=
  r ← portal_sys (cf_set_cmd U_PORTAL_CTRL_WAIT cfg);
  r ← portal_sys (cf_set_cmd U_PORTAL_CTRL_GET_REQ r.2);
  let c := r.2 in
  if cf_req c =? 0 then mret c else
  ret ← handle (cf_va c) (cf_va_size c);
  r ← portal_sys (cf_set_cmd U_PORTAL_CTRL_REPLY (cf_set_ret ret c));
  mret r.2.

Fixpoint serve_forever (fuel : nat) (handle : Z → Z → M S Z) (cfg : portal_ctrl_config) : M S unit :=
  match fuel with
  | O => spin
  | Datatypes.S fuel => c ← serve_turn handle cfg; serve_forever fuel handle c
  end.

(** [while (tries++ < n && ns_register(...) != 0) user_yield();] *)
Context `{!Rpc S ns_request}.
Fixpoint register_retry (n : nat) (name : list Z) (portal_id mailbox_tid mail_magic : Z) : M S unit :=
  match n with
  | O => mret tt
  | Datatypes.S n =>
      r ← ns_register (Some name) portal_id mailbox_tid mail_magic;
      if r =? 0 then mret tt else user_yield;; register_retry n name portal_id mailbox_tid mail_magic
  end.

(** Start of a server with a portal of its own: [setup] runs once the name is
    bound; without a portal it yields for ever. *)
Definition start_server (fuel : nat) (name : list Z) (setup : M S unit) (handle : Z → Z → M S Z) : M S unit :=
  r ← portal_sys (mk_pcfg U_PORTAL_CTRL_INIT 0 0 0 0 0 0 0);
  if negb (r.1 =? 0) then yields fuel;; spin else
  register_retry (Z.to_nat 10000) name (cf_out r.2) 0 0;;
  setup;;
  serve_forever fuel handle r.2.
End server.

(** ** The clock *)

Section clock.
Context {D : Type} `{!Devices D}.

Definition CMOS_ADDR : Z := 112.  (* 0x70 *)
Definition CMOS_DATA : Z := 113.

Definition cmos_read (reg : Z) : M (wires D) Z := wout CMOS_ADDR reg;; win CMOS_DATA.

Definition bcd_to_bin (v : Z) : Z := u8 (Z.land v 15 + Z.shiftr v 4 * 10).

Definition cmos_seconds : M (wires D) Z :=
  s ← cmos_read 0;
  let s := Z.land s 127 in
  b ← cmos_read 11;
  mret (if negb (Z.land b 4 =? 0) then s else bcd_to_bin s).

(** The wait for the end of an update, at most [n] polls. *)
Fixpoint uip_wait (n : nat) : M (wires D) unit :=
  match n with
  | O => mret tt
  | S n => v ← cmos_read 10; if Z.land v 128 =? 0 then mret tt else uip_wait n
  end.

Definition rtc_get_time : M (wires D) rtc_time :=
  uip_wait (Z.to_nat 1000000);;
  b ← cmos_read 11;
  let conv v := if Z.land b 4 =? 0 then bcd_to_bin v else v in
  sec ← cmos_read 0;
  min ← cmos_read 2;
  hour ← cmos_read 4;
  day ← cmos_read 7;
  mon ← cmos_read 8;
  year ← cmos_read 9;
  mret (mk_time (2000 + conv year) (conv mon) (conv day) (conv hour) (conv min) (conv sec)).

(** [rdtsc] reads the cycle counter. *)
Context (rdtsc : M (wires D) Z) (user_yield : M (wires D) unit).
Definition CMOS_EDGE_GUARD : nat := Z.to_nat 2000000.

(** Wait until the seconds differ from [sec]; nothing when they never do. *)
Fixpoint edge (guard : nat) (sec : Z) : M (wires D) (option Z) :=
  next ← cmos_seconds;
  if negb (next =? sec) then mret (Some next) else
  match guard with
  | O => mret None
  | S guard => edge guard sec
  end.

(** The value of [g_tsc_hz] afterwards. *)
Definition tsc_calibrate (g_tsc_hz : Z) : M (wires D) Z :=
  sec ← cmos_seconds;
  e ← edge CMOS_EDGE_GUARD sec;
  match e with
  | None => mret g_tsc_hz
  | Some next =>
      t0 ← rdtsc;
      e ← edge CMOS_EDGE_GUARD next;
      match e with
      | None => mret g_tsc_hz
      | Some _ => t1 ← rdtsc; mret (if t0 <? t1 then t1 - t0 else g_tsc_hz)
      end
  end.

Fixpoint repeat_yield (n : nat) : M (wires D) unit :=
  match n with O => mret tt | S n => user_yield;; repeat_yield n end.
Fixpoint until (fuel : nat) (target : Z) : M (wires D) unit :=
  match fuel with
  | O => spin
  | S fuel => t ← rdtsc; if t <? target then until fuel target else mret tt
  end.
Definition rtc_sleep (fuel : nat) (g_tsc_hz ms : Z) : M (wires D) unit :=
  if g_tsc_hz =? 0 then repeat_yield (Z.to_nat (ms * 3000)) else
  t ← rdtsc;
  until fuel ((t + g_tsc_hz / 1000 * ms) mod 18446744073709551616).

(** One request: the answer and the request afterwards; [None] when the
    payload is null or too small. *)
Definition rtc_handle (fuel : nat) (g_tsc_hz : Z) (r : option rtc_request) : M (wires D) (Z * option rtc_request) :=
  match r with
  | None => mret (-3, None)
  | Some r =>
      if rr_cmd r =? RTC_CMD_GET_TIME then t ← rtc_get_time; mret (0, Some (mk_rtc (rr_cmd r) (rr_sleep_ms r) t))
      else if rr_cmd r =? RTC_CMD_SLEEP_MS then rtc_sleep fuel g_tsc_hz (rr_sleep_ms r);; mret (0, Some r)
      else mret (-3, Some r)
  end.
End clock.

(** ** The serial log *)

Section log.
Context {D : Type} `{!Devices D}.

Fixpoint ulog_bytes (buf : list Z) : M (wires D) unit :=
  match buf with
  | [] => mret tt
  | c :: buf => ok ← uart_put c; if (ok : bool) then ulog_bytes buf else mret tt
  end.

(** The lock and the port. *)
Record ulog := mk_ulog { ulog_lock : Z; ulog_wires : wires D }.

Definition ulog_write (buf : list Z) : M ulog unit := λ s,
  match uspin_lock (ulog_lock s) with
  | Ret _ _ =>
      match ulog_bytes buf (ulog_wires s) with
      | Ret _ w => Ret tt (mk_ulog 0 w)
      | Spin => Spin
      | Fault => Fault
      end
  | Spin => Spin
  | Fault => Fault
  end.
End log.
Arguments ulog : clear implicits.
Arguments mk_ulog {D}.
Arguments ulog_lock {D}.
Arguments ulog_wires {D}.

(** ** The keyboard *)

Definition MSG_KEY_EVENT : Z := 4097.  (* 0x1001 *)
Record key_event := mk_key { ke_scancode : Z; ke_ascii : Z; ke_pressed : Z }.

(** The unshifted printable keys of scancode set 1; 0 elsewhere. *)
Definition scancode_ascii : list Z :=
  [0; 0; 49; 50; 51; 52; 53; 54; 55; 56; 57; 48; 45; 61; 0; 0;
   113; 119; 101; 114; 116; 121; 117; 105; 111; 112; 91; 93; 0; 0; 97; 115;
   100; 102; 103; 104; 106; 107; 108; 59; 39; 0; 0; 0; 122; 120; 99; 118;
   98; 110; 109; 44; 46; 47; 0; 0; 0; 32].

Definition key_event_of (scancode : Z) : key_event :=
  let pressed := Z.land scancode 128 =? 0 in
  mk_key scancode
    (if pressed && (scancode <? Z.of_nat (length scancode_ascii)) then nth (Z.to_nat scancode) scancode_ascii 0 else 0)
    (if pressed then 1 else 0).

Section keyboard.
Context {D S : Type} `{!Devices D, !Contains S (wires D), !Gate S mailbox_ctrl_config}.
(** The stores into a mail of the shared heap: tag, receiver and payload. *)
Context (mail_fill : Z → Z → Z → key_event → M S unit).

Definition kb_putc (c : Z) : M S unit := zoom (uart_put c);; mret tt.
Definition kb_log_key (key : Z) : M S unit := kb_putc 91;; kb_putc key;; kb_putc 93;; kb_putc 10.

Definition kb_broadcast_key (scancode : Z) : M S unit :=
  m ← user_mail_alloc;
  if m =? 0 then mret tt else
  mail_fill m MSG_KEY_EVENT USER_MAIL_ANY_TID (key_event_of scancode);;
  user_mail_send m;;
  mret tt.

(** The output buffer of the 8042, at most [n] codes of it. *)
Fixpoint kb_drain (n : nat) : M S unit :=
  match n with
  | O => mret tt
  | Datatypes.S n =>
      status ← zoom (win 100);
      if Z.land status 1 =? 0 then mret tt else
      scancode ← zoom (win 96);
      kb_broadcast_key scancode;;
      (if (Z.land scancode 128 =? 0) && (scancode <? Z.of_nat (length scancode_ascii)) then
         let key := nth (Z.to_nat scancode) scancode_ascii 0 in
         if key =? 0 then mret tt else kb_log_key key
       else mret tt);;
      kb_drain n
  end.

Context `{!Gate S irq_ctrl_config, !Gate S proc_thread_ctrl_config, !Rpc S ns_request}.
Fixpoint kb_loop (mail_magic : Z → M S Z) (fuel : nat) : M S unit :=
  match fuel with
  | O => spin
  | Datatypes.S fuel => user_irq_wait mail_magic fuel;; kb_drain 8;; kb_loop mail_magic fuel
  end.
Definition kb_start (mail_magic : Z → M S Z) (fuel : nat) : M S unit :=
  irq ← user_irq_request 33 0;
  (if irq =? 0 then mret tt else user_irq_unmask irq;; mret tt);;
  tid ← user_thread_get_tid;
  register_retry (Z.to_nat 10000) [107; 98; 0] 0 (u32 tid) MSG_KEY_EVENT;;
  kb_loop mail_magic fuel.
End keyboard.

(** ** A reply for every request *)

Section turns.
Context {S : Type} `{G : !Gate S portal_ctrl_config}.
#[local] Existing Instance logged.

(** A handler of the server, beside the record of the traps. *)
Definition beside (m : M S Z) : M (S * trap_log) Z := λ s,
  match m s.1 with Ret a s' => Ret a (s', s.2) | Spin => Spin | Fault => Fault end.

(** In every turn a portal server takes at most one request and answers
    exactly what it took: after WAIT and GET_REQ there is either no request
    and no reply, or one run of the handler on the payload of the request and
    one REPLY with the same handle and the handler's answer. *)
Theorem server_turn_replies_once (handle : Z → Z → M S Z) cfg s l :
  gate_returns (G := G) → (∀ va n s, ∃ a s', handle va n s = Ret a s') →
  ∃ c s' t, serve_turn (λ va n, beside (handle va n)) cfg (s, l) = Ret c (s', l ++ t) ∧
    ∃ w r1 g r2, map (cf_cmd ∘ fst) [w; g] = [PORTAL_CTRL_WAIT; PORTAL_CTRL_GET_REQ] ∧ w.2 = r1 ∧ g.2 = r2 ∧
      ((cf_req r2.2 = 0 ∧ t = [w; g]) ∨
       (cf_req r2.2 ≠ 0 ∧ ∃ s1 a s2 q, handle (cf_va r2.2) (cf_va_size r2.2) s1 = Ret a s2 ∧
          t = [w; g; q] ∧ cf_cmd q.1 = PORTAL_CTRL_REPLY ∧ cf_req q.1 = cf_req r2.2 ∧ cf_ret q.1 = a)).
Proof.
  intros Hg Hh. unfold serve_turn, portal_sys.
  destruct (logged_run SYSCALL_PORTAL (cf_set_cmd U_PORTAL_CTRL_WAIT cfg) s Hg) as (a1 & s1 & E1).
  rewrite (bind_Ret _ _ _ _ _ (E1 l)).
  destruct (logged_run SYSCALL_PORTAL (cf_set_cmd U_PORTAL_CTRL_GET_REQ a1.2) s1 Hg) as (a2 & s2 & E2).
  rewrite (bind_Ret _ _ _ _ _ (E2 _)).
  destruct (Z.eqb_spec (cf_req a2.2) 0) as [H0|H0].
  { eexists _, s2, [_; _]. split; [by rewrite <- app_assoc|]. exists (cf_set_cmd U_PORTAL_CTRL_WAIT cfg, a1), a1, (cf_set_cmd U_PORTAL_CTRL_GET_REQ a1.2, a2), a2.
    split; [reflexivity|]. split; [reflexivity|split; [reflexivity|]]. left. split; [exact H0|reflexivity]. }
  destruct (Hh (cf_va a2.2) (cf_va_size a2.2) s2) as (a & s3 & Ea).
  erewrite bind_Ret; [|unfold beside; cbn [fst]; rewrite Ea; reflexivity]. cbn [snd].
  destruct (logged_run SYSCALL_PORTAL (cf_set_cmd U_PORTAL_CTRL_REPLY (cf_set_ret a a2.2)) s3 Hg) as (a4 & s4 & E4).
  rewrite (bind_Ret _ _ _ _ _ (E4 _)).
  eexists _, s4, [_; _; _]. split; [by rewrite <- !app_assoc|]. exists (cf_set_cmd U_PORTAL_CTRL_WAIT cfg, a1), a1, (cf_set_cmd U_PORTAL_CTRL_GET_REQ a1.2, a2), a2.
  split; [reflexivity|]. split; [reflexivity|split; [reflexivity|]]. right. split; [exact H0|]. exists s2, a, s3, (cf_set_cmd U_PORTAL_CTRL_REPLY (cf_set_ret a a2.2), a4).
  split; [exact Ea|]. split; [reflexivity|done].
Qed.
End turns.

#[local] Instance one_request : Gate unit portal_ctrl_config := λ num c s,
  Ret (0, cf_set_buffer 4096 60 (cf_set_req 9 c)) s.

Lemma server_turn_replies_once_witness :
  ∃ c s' t, serve_turn (Gate0 := logged) (λ va n, beside (λ s : unit, Ret (va + n) s)) (mk_pcfg 0 0 0 0 0 0 0 0) (tt, []) = Ret c (s', [] ++ t) ∧
    ∃ w r1 g r2, map (cf_cmd ∘ fst) [w; g] = [PORTAL_CTRL_WAIT; PORTAL_CTRL_GET_REQ] ∧ w.2 = r1 ∧ g.2 = r2 ∧
      ((cf_req r2.2 = 0 ∧ t = [w; g]) ∨
       (cf_req r2.2 ≠ 0 ∧ ∃ (s1 : unit) a s2 q, Ret (cf_va r2.2 + cf_va_size r2.2) s1 = Ret a s2 ∧
          t = [w; g; q] ∧ cf_cmd q.1 = PORTAL_CTRL_REPLY ∧ cf_req q.1 = cf_req r2.2 ∧ cf_ret q.1 = a)).
Proof.
  apply (server_turn_replies_once (λ va n s, Ret (va + n) s) (mk_pcfg 0 0 0 0 0 0 0 0) tt []).
  - intros num c s. eexists _, _. reflexivity.
  - intros va n s. eexists _, _. reflexivity.
Defined.

(** ** The clock *)

(** The CMOS memory: an index and 128 bytes. *)
Record cmos := mk_cmos { cm_index : Z; cm_reg : Z → Z }.
#[export] Instance cmos_ports : Devices cmos := {|
  dev_out w p v c := if p =? CMOS_ADDR then mk_cmos v (cm_reg c) else c;
  dev_in w p c := if p =? CMOS_DATA then (cm_reg c (cm_index c), c) else (255, c);
|}.

Definition bcd (n : Z) : Z := n / 10 * 16 + n mod 10.

Lemma bcd_roundtrip n : 0 <= n < 100 → bcd_to_bin (bcd n) = n ∧ 0 <= bcd n < 256.
Proof.
  intros Hn. assert (H : Forall (λ k, bcd_to_bin (bcd (Z.of_nat k)) = Z.of_nat k ∧ 0 <= bcd (Z.of_nat k) < 256) (seq 0 100)).
  { apply Forall_forall. intros k Hk%elem_of_seq. do 100 (destruct k as [|k]; [vm_compute; split; [reflexivity|split; congruence]|]). lia. }
  rewrite Forall_forall in H. specialize (H (Z.to_nat n)). rewrite Z2Nat.id in H by lia. apply H, elem_of_seq. lia.
Qed.

Lemma cmos_read_run reg w : is_u8 reg → is_u8 (cm_reg (w_dev w) reg) →
  ∃ l, cmos_read reg w = Ret (cm_reg (w_dev w) reg) (mk_wires (mk_cmos reg (cm_reg (w_dev w))) l).
Proof.
  intros Hr Hv. eexists. unfold cmos_read, wout, win, mbind, M_bind. cbn. rewrite (u8_small reg Hr), (u8_small _ Hv). reflexivity.
Qed.

(** The registers that hold the time [t], in one of the two encodings. *)
Definition shows_time (reg : Z → Z) (t : rtc_time) : Prop :=
  let enc n := if Z.land (reg 11) 4 =? 0 then bcd n else n in
  Forall (λ n, 0 <= n < 100) [tm_year t - 2000; tm_month t; tm_day t; tm_hour t; tm_minute t; tm_second t] ∧
  reg 9 = enc (tm_year t - 2000) ∧ reg 8 = enc (tm_month t) ∧ reg 7 = enc (tm_day t) ∧
  reg 4 = enc (tm_hour t) ∧ reg 2 = enc (tm_minute t) ∧ reg 0 = enc (tm_second t).

(** A GET_TIME request to the clock server is answered 0 with exactly the
    date and time the CMOS clock shows, whether the clock counts in BCD or in
    binary, and the clock is not changed; any other request than GET_TIME and
    SLEEP_MS, and a payload that is too small, is answered -3. *)
Theorem rtc_get_time_reads_clock w fuel hz rdtsc yield r t :
  (∀ i, is_u8 (cm_reg (w_dev w) i)) → Z.land (cm_reg (w_dev w) 10) 128 = 0 → shows_time (cm_reg (w_dev w)) t →
  (rr_cmd r = RTC_CMD_GET_TIME →
     ∃ w', rtc_handle rdtsc yield fuel hz (Some r) w = Ret (0, Some (mk_rtc RTC_CMD_GET_TIME (rr_sleep_ms r) t)) w' ∧
       cm_reg (w_dev w') = cm_reg (w_dev w)) ∧
  (rr_cmd r ≠ RTC_CMD_GET_TIME → rr_cmd r ≠ RTC_CMD_SLEEP_MS → rtc_handle rdtsc yield fuel hz (Some r) w = Ret (-3, Some r) w) ∧
  rtc_handle rdtsc yield fuel hz None w = Ret (-3, None) w.
Proof.
  intros Hb Huip (Hall & Hy & Hmo & Hd & Hh & Hmi & Hs). split; [|split; [|done]].
  2: { intros H1 H2. unfold rtc_handle. by rewrite (proj2 (Z.eqb_neq _ _) H1), (proj2 (Z.eqb_neq _ _) H2). }
  intros Hc. unfold rtc_handle. rewrite Hc. cbn [Z.eqb RTC_CMD_GET_TIME Pos.eqb].
  set (reg := cm_reg (w_dev w)) in *.
  assert (Hread : ∀ i x l, is_u8 i → ∃ l', cmos_read i (mk_wires (mk_cmos x reg) l) = Ret (reg i) (mk_wires (mk_cmos i reg) l')).
  { intros i x l Hi. by apply (cmos_read_run i (mk_wires (mk_cmos x reg) l)). }
  assert (Hu : ∃ l, uip_wait (Z.to_nat 1000000) w = Ret tt (mk_wires (mk_cmos 10 reg) l)).
  { replace (Z.to_nat 1000000) with (Datatypes.S (Z.to_nat 999999)) by lia. generalize (Z.to_nat 999999) as n. intros n.
    cbn [uip_wait]. destruct (cmos_read_run 10 w ltac:(unfold is_u8; lia) (Hb 10)) as (l & E). exists l.
    rewrite (bind_Ret _ _ _ _ _ E). fold reg. by rewrite Huip. }
  destruct Hu as (l0 & E0).
  assert (Et : ∃ l, rtc_get_time w = Ret t (mk_wires (mk_cmos 9 reg) l)).
  { unfold rtc_get_time. rewrite (bind_Ret _ _ _ _ _ E0).
    destruct (Hread 11 10 l0) as (l1 & E1); [unfold is_u8; lia|]. rewrite (bind_Ret _ _ _ _ _ E1).
    destruct (Hread 0 11 l1) as (l2 & E2); [unfold is_u8; lia|]. rewrite (bind_Ret _ _ _ _ _ E2).
    destruct (Hread 2 0 l2) as (l3 & E3); [unfold is_u8; lia|]. rewrite (bind_Ret _ _ _ _ _ E3).
    destruct (Hread 4 2 l3) as (l4 & E4); [unfold is_u8; lia|]. rewrite (bind_Ret _ _ _ _ _ E4).
    destruct (Hread 7 4 l4) as (l5 & E5); [unfold is_u8; lia|]. rewrite (bind_Ret _ _ _ _ _ E5).
    destruct (Hread 8 7 l5) as (l6 & E6); [unfold is_u8; lia|]. rewrite (bind_Ret _ _ _ _ _ E6).
    destruct (Hread 9 8 l6) as (l7 & E7); [unfold is_u8; lia|]. rewrite (bind_Ret _ _ _ _ _ E7).
    exists l7. unfold mret, M_ret. f_equal. rewrite Hy, Hmo, Hd, Hh, Hmi, Hs. clear -Hall.
    repeat (apply Forall_cons in Hall as [? Hall]). destruct t as [y mo d h mi s]. cbn [tm_year tm_month tm_day tm_hour tm_minute tm_second] in *.
    assert (Hrt : ∀ n, 0 <= n < 100 → bcd_to_bin (bcd n) = n) by (intros n Hn; apply (bcd_roundtrip n Hn)).
    destruct (Z.land (reg 11) 4 =? 0); rewrite ?Hrt by assumption; f_equal; lia. }
  destruct Et as (l & Et). rewrite (bind_Ret _ _ _ _ _ Et). by eexists.
Qed.

(** 17 November 2026, 12:34:56 in BCD. *)
Definition noon : Z → Z := λ i,
  match i with 0 => 86 | 2 => 52 | 4 => 18 | 7 => 23 | 8 => 17 | 9 => 38 | 11 => 2 | _ => 0 end.

Lemma rtc_get_time_reads_clock_witness :
  ∃ w', rtc_handle (mret 0) (mret tt) 0 0 (Some (mk_rtc 1 0 (mk_time 0 0 0 0 0 0))) (mk_wires (mk_cmos 0 noon) []) =
    Ret (0, Some (mk_rtc 1 0 (mk_time 2026 11 17 12 34 56))) w' ∧ cm_reg (w_dev w') = noon.
Proof.
  apply (rtc_get_time_reads_clock (mk_wires (mk_cmos 0 noon) []) 0 0 (mret 0) (mret tt) (mk_rtc 1 0 (mk_time 0 0 0 0 0 0))
    (mk_time 2026 11 17 12 34 56)).
  - intros i. unfold noon. cbn. unfold is_u8. repeat case_match; lia.
  - reflexivity.
  - split; [repeat (constructor; [cbn; lia|]); constructor|done].
  - reflexivity.
Defined.

(** A clock in 12-hour mode marks the afternoon in bit 7 of the hours; the
    server hands that on as 92 for half past noon. *)
Example afternoon_in_12_hour_mode :
  match rtc_get_time (mk_wires (mk_cmos 0 (λ i, if i =? 4 then 146 else if i =? 11 then 0 else 1)) []) with
  | Ret t _ => tm_hour t = 92
  | _ => False
  end.
Proof. reflexivity. Qed.

(** ** The log *)

Section log_proofs.
Context {D : Type} `{!Devices D}.

(** A log request sends all its bytes in order, or none when the port is dead,
    and frees the lock either way. *)
Lemma ulog_write_sends (s : ulog D) buf : ulog_lock s = 0 →
  (uart_ready (D := D) → ∃ w, ulog_write buf s = Ret tt (mk_ulog 0 w) ∧
     sent COM1_BASE (w_cycles w) = sent COM1_BASE (w_cycles (ulog_wires s)) ++ map u8 buf) ∧
  (uart_dead (D := D) → ∃ w, ulog_write buf s = Ret tt (mk_ulog 0 w) ∧
     sent COM1_BASE (w_cycles w) = sent COM1_BASE (w_cycles (ulog_wires s))).
Proof.
  intros Hl. unfold ulog_write, uspin_lock. rewrite Hl. cbn [Z.eqb]. split; intros Hu.
  - assert (H : ∀ w, ∃ w', ulog_bytes buf w = Ret tt w' ∧ sent COM1_BASE (w_cycles w') = sent COM1_BASE (w_cycles w) ++ map u8 buf).
    { induction buf as [|c buf IH]; intros w; cbn [ulog_bytes map]; [exists w; by rewrite app_nil_r|].
      destruct (uart_put_ready c w Hu) as (w1 & E1 & H1). rewrite (bind_Ret _ _ _ _ _ E1).
      destruct (IH w1) as (w2 & E2 & H2). exists w2. split; [exact E2|]. by rewrite H2, H1, <- app_assoc. }
    destruct (H (ulog_wires s)) as (w & E & Hs). exists w. by rewrite E.
  - destruct buf as [|c buf]; cbn [ulog_bytes]; [by exists (ulog_wires s)|].
    destruct (uart_put_dead c (ulog_wires s) Hu) as (w1 & E1 & H1). rewrite (bind_Ret _ _ _ _ _ E1). by exists w1.
Qed.
End log_proofs.

(** ** The keyboard *)

(** Bit 7 decides press or release; only presses carry a character, and a
    release names the key of its press. *)
Lemma key_event_of_spec c : 0 <= c < 128 →
  ke_pressed (key_event_of c) = 1 ∧ ke_ascii (key_event_of c) = nth (Z.to_nat c) scancode_ascii 0 ∧
  ke_pressed (key_event_of (c + 128)) = 0 ∧ ke_ascii (key_event_of (c + 128)) = 0 ∧
  (ke_ascii (key_event_of c) = 0 ∨ 32 <= ke_ascii (key_event_of c) < 127).
Proof.
  intros Hc. assert (H : Forall (λ k, let c := Z.of_nat k in
    bool_decide (ke_pressed (key_event_of c) = 1 ∧ ke_ascii (key_event_of c) = nth (Z.to_nat c) scancode_ascii 0 ∧
    ke_pressed (key_event_of (c + 128)) = 0 ∧ ke_ascii (key_event_of (c + 128)) = 0 ∧
    (ke_ascii (key_event_of c) = 0 ∨ 32 <= ke_ascii (key_event_of c) < 127)) = true) (seq 0 128)).
  { apply Forall_forall. intros k Hk%elem_of_seq. do 128 (destruct k as [|k]; [vm_compute; reflexivity|]). lia. }
  rewrite Forall_forall in H. specialize (H (Z.to_nat c)). cbv zeta in H. rewrite Z2Nat.id in H by lia.
  eapply bool_decide_eq_true_1, H, elem_of_seq. lia.
Qed.
