(* ===== verification/Boot.v ===== *)
(** * Boot: the modules GRUB loaded and the first processes
      (arch/i386/multiboot.c, kernel/init.c)

    The kernel finds its user programs among the modules of the multiboot
    information by the last component of their path, loads each as a process
    and gives it the grants its code needs before letting it run. *)

From stdpp Require Import base tactics list gmap strings.
From Stdlib Require Import ZArith Lia.
From S2P Require Import Prelude Spinlock Allocator Heap CString KState Capability Sched ThreadApi.
From S2P Require Import WaitQueue Semaphore Mailbox Irq Elf Process Io Terminal.

Open Scope Z_scope.

(** ** The multiboot information *)

Definition MBI_FLAGS : Z := 0.
Definition MBI_MODS_COUNT : Z := 5.
Definition MBI_MODS_ADDR : Z := 6.
Definition MOD_START : Z := 0.
Definition MOD_END : Z := 1.
Definition MOD_STRING : Z := 2.
Definition MULTIBOOT_FLAG_MODS : Z := 8.

Section multiboot.
(** Low memory as words, and where the information is. *)
Context (mem : Z → Z) (mboot_info : Z).

Definition word (base i : Z) : Z := mem (u32 (base + 4 * i)).

Definition has_modules : bool :=
  negb (mboot_info =? 0) && negb (Z.land (word mboot_info MBI_FLAGS) MULTIBOOT_FLAG_MODS =? 0).

Definition mboot_module_count : Z :=
  if has_modules then i32 (word mboot_info MBI_MODS_COUNT) else 0.

(** The answer and what is stored through the two pointers. *)
Definition mboot_module_get (i : Z) (start_ptr end_ptr : bool) : Z * option (Z * Z) :=
  if negb start_ptr || negb end_ptr then (E_INVAL, None) else
  if negb has_modules then (E_NOTFOUND, None) else
  if (i <? 0) || (word mboot_info MBI_MODS_COUNT <=? u32 i) then (E_NOTFOUND, None) else
  let mods := word mboot_info MBI_MODS_ADDR in
  (0, Some (word mods (i * 4 + MOD_START), word mods (i * 4 + MOD_END))).

(** The address of the string, 0 for none. *)
Definition mboot_module_name (i : Z) : Z :=
  if negb has_modules then 0 else
  if (i <? 0) || (word mboot_info MBI_MODS_COUNT <=? u32 i) then 0 else
  word (word mboot_info MBI_MODS_ADDR) (i * 4 + MOD_STRING).
End multiboot.

(** ** Names of modules (the strings without their terminator) *)

(** [base] after the loop over [p]. *)
Fixpoint base_loop (p base : list Z) : list Z :=
  match p with
  | [] => base
  | c :: p => base_loop p (if c =? 47 then p else base)
  end.

Definition modname_is (path name : option (list Z)) : bool :=
  match path, name with
  | Some path, Some name => strcmp (base_loop path path) name =? 0
  | _, _ => false
  end.

(** ** The grants of the first processes *)

Definition io (base count : Z) : capability := mk_cap CAP_ACCESS_IO (mk_cap_io_port base count).
Definition ipc : capability := mk_cap CAP_IPC 1.

Section init.
Context {A U W : Type} `{!AddressSpace W, !Allocator A, !Allocator U}.
Notation kernel := (kernel A U W).
Context `{!Gate kernel proc_thread_ctrl_config, !Gate kernel irq_ctrl_config}.
Implicit Types k : kernel.

(** The [cap_grant] calls of one function, in order; their answers are
    ignored. *)
Fixpoint grant_each (proc : Z) (gs : list capability) : M kernel unit :=
  match gs with
  | [] => mret tt
  | g :: gs => cap_grant proc (cap_ty g) (Some (cap_val g));; grant_each proc gs
  end.
Definition grants (gs : list capability) (proc : Z) : M kernel unit :=
  if proc =? 0 then mret tt else grant_each proc gs.

Definition pit_ramp_caps : list capability := [io 64 4; io 1016 8].
Definition ns_caps : list capability := [ipc].
Definition terminal_caps : list capability :=
  [io 960 32; ipc; mk_cap CAP_MAP_MEM (mk_cap_mem 753664 4096 PTE_USER_PAGE);
   mk_cap CAP_MAP_MEM (mk_cap_mem 655360 65536 PTE_USER_PAGE)].
Definition kb_caps_list : list capability := [mk_cap CAP_OWN_IRQ 33; io 96 5; io 1016 8; ipc].
Definition demo_caps : list capability := [io 960 32; io 1016 8; ipc].
Definition log_caps : list capability := [io 1016 8; ipc].
Definition rtc_caps : list capability := [io 112 2; ipc].

Definition grant_pit_ramp_caps : Z → M kernel unit := grants pit_ramp_caps.
Definition grant_ns_caps : Z → M kernel unit := grants ns_caps.
Definition grant_terminal_caps : Z → M kernel unit := grants terminal_caps.
Definition grant_kb_caps : Z → M kernel unit := grants kb_caps_list.
Definition grant_demo_caps : Z → M kernel unit := grants demo_caps.
Definition grant_log_caps : Z → M kernel unit := grants log_caps.
Definition grant_rtc_caps : Z → M kernel unit := grants rtc_caps.

(** ** Loading *)

(** [string_at] gives the string at an address. *)
Context (mem : Z → Z) (mboot_info : Z) (string_at : Z → list Z).

Definition module_path (i : Z) : option (list Z) :=
  let a := mboot_module_name mem mboot_info i in
  if a =? 0 then None else Some (string_at a).

(** The loop from module [i] on, [n] of them left. *)
Fixpoint load_loop (n : nat) (i : Z) (name : list Z) (grant : option (Z → M kernel unit)) : M kernel Z :=
  match n with
  | O => mret 0
  | S n =>
      if negb (modname_is (module_path i) (Some name)) then load_loop n (i + 1) name grant else
      match mboot_module_get mem mboot_info i true true with
      | (0, Some (start, stop)) =>
          pid ← proc_load_from_elf start stop 0;
          if 0 <? pid then
            (match grant with Some g => proc ← get_process_by_pid pid; g proc | None => mret tt end);;
            proc_unblock pid;;
            mret pid
          else mret pid
      | _ => mret 0
      end
  end.
Definition load_user_elf_by_name (name : list Z) (grant : option (Z → M kernel unit)) : M kernel Z :=
  load_loop (Z.to_nat (mboot_module_count mem mboot_info)) 0 name grant.

(** [init_thread]: [hlt] waits for an interrupt, during which other threads
    run. *)
Fixpoint wait_exit (hlt : M kernel unit) (spins : nat) (pid : Z) : M kernel unit :=
  p ← get_process_by_pid pid;
  if p =? 0 then mret tt else
  match spins with
  | O => mret tt
  | S spins => hlt;; wait_exit hlt spins pid
  end.

Fixpoint load_all (l : list (list Z * (Z → M kernel unit))) : M kernel unit :=
  match l with
  | [] => mret tt
  | (name, grant) :: l => load_user_elf_by_name name (Some grant);; load_all l
  end.

Definition first_processes : list (list Z * (Z → M kernel unit)) :=
  [(bytes_of "namespace_server.elf"%string, grant_ns_caps); (bytes_of "terminal_server.elf"%string, grant_terminal_caps);
   (bytes_of "kb_server.elf"%string, grant_kb_caps); (bytes_of "log_server2.elf"%string, grant_log_caps);
   (bytes_of "rtc_server.elf"%string, grant_rtc_caps); (bytes_of "portal_test.elf"%string, grant_demo_caps);
   (bytes_of "process_test.elf"%string, grant_demo_caps)].

Definition init_thread (hlt : M kernel unit) : M kernel unit :=
  pit_pid ← load_user_elf_by_name (bytes_of "pit_ramp.elf"%string) (Some grant_pit_ramp_caps);
  (if 0 <? pit_pid then wait_exit hlt (Z.to_nat 20000) pit_pid else mret tt);;
  load_all first_processes;;
  pid ← proc_get_pid;
  proc_exit pid.
End init.

(** ** Names *)

Lemma strcmp_zero a b : Forall (λ c, 0 < c) a → Forall (λ c, 0 < c) b → strcmp a b = 0 ↔ a = b.
Proof.
  intros Ha. revert b. induction Ha as [|x a Hx _ IH]; intros b Hb.
  - destruct Hb as [|y b Hy _]; cbn; [done|]. split; [lia|done].
  - destruct Hb as [|y b Hy Hb]; cbn; [split; [lia|done]|].
    destruct (Z.eqb_spec x y) as [->|Hne].
    + rewrite (IH b Hb). split; [by intros ->|by intros [= ->]].
    + split; [lia|by intros [= ? ?]].
Qed.

(** What follows the last slash. *)
Definition is_base (path b : list Z) : Prop := 47 ∉ b ∧ (path = b ∨ ∃ dir, path = dir ++ 47 :: b).

Lemma base_loop_spec p : ∀ base,
  (47 ∉ p ∧ base_loop p base = base) ∨ (is_base p (base_loop p base) ∧ ∃ dir, p = dir ++ 47 :: base_loop p base).
Proof.
  induction p as [|c p IH]; intros base; [left; by split; [apply not_elem_of_nil|]|].
  cbn [base_loop]. destruct (Z.eqb_spec c 47) as [->|Hc].
  - right. destruct (IH p) as [[Hn E]|[[Hb _] [dir E]]].
    + rewrite E. split; [split; [done|right; by exists []]|by exists []].
    + split; [split; [done|right]|]; exists (47 :: dir); by rewrite E at 1.
  - destruct (IH base) as [[Hn E]|[[Hb _] [dir E]]].
    + left. rewrite E. split; [|done]. rewrite elem_of_cons. intros [?|?]; [congruence|done].
    + right. split; [split; [done|right]|]; exists (c :: dir); by rewrite E at 1.
Qed.

Lemma is_base_unique path b c : is_base path b → is_base path c → b = c.
Proof.
  assert (Hs : ∀ d1 d2 b c, 47 ∉ b → 47 ∉ c → d1 ++ 47 :: b = d2 ++ 47 :: c → b = c).
  { induction d1 as [|x d1 IH]; intros [|y d2] b0 c0 Hb Hc E; cbn in E; simplify_eq; try done.
    - exfalso. apply Hb. apply elem_of_app. right. left.
    - exfalso. apply Hc. apply elem_of_app. right. left.
    - by apply (IH d2). }
  intros [Hb [->|[d1 ->]]] [Hc [E|[d2 E]]]; try done.
  - exfalso. apply Hb. rewrite E. apply elem_of_app. right. left.
  - exfalso. apply Hc. rewrite <- E. apply elem_of_app. right. left.
  - by apply (Hs d1 d2).
Qed.

Lemma modname_is_spec path name : Forall (λ c, 0 < c) path → Forall (λ c, 0 < c) name →
  modname_is (Some path) (Some name) = true ↔ is_base path name.
Proof.
  intros Hp Hn. unfold modname_is. rewrite Z.eqb_eq.
  assert (Hbase : is_base path (base_loop path path)).
  { destruct (base_loop_spec path path) as [[H E]|[H _]]; [|done]. rewrite E. split; [done|by left]. }
  assert (Hpos : Forall (λ c, 0 < c) (base_loop path path)).
  { destruct Hbase as [_ [E|[dir E]]]; [by rewrite <- E|]. rewrite E in Hp. apply Forall_app in Hp as [_ Hp]. by apply Forall_cons in Hp as [_ Hp]. }
  rewrite strcmp_zero by done. split; [by intros <-|]. by apply is_base_unique.
Qed.

Section boot.
Context {A U W : Type} `{!AddressSpace W, !Allocator A, !Allocator U}.
Notation kernel := (kernel A U W).
Context `{!Gate kernel proc_thread_ctrl_config, !Gate kernel irq_ctrl_config}.
Implicit Types k : kernel.

(** ** Grants *)

Lemma grant_each_run proc l gs : ∀ k p L,
  cap_holder k proc p l → owns (k_heap k) L →
  Forall (λ g, cap_u32 (cap_ty g) (cap_val g) ∧ grantable (cap_ty g) (cap_val g)) gs →
  NoDup gs → (∀ g, g ∈ gs → g ∉ map snd (p_caps p)) →
  ∃ h L' caps' gs', grant_each proc gs k = Ret tt (set_pcbs (<[proc := pcb_caps caps' p]> (pcbs k)) (set_k_heap h k)) ∧
    owns h L' ∧ gs' `sublist_of` gs ∧ map snd caps' = reverse gs' ++ map snd (p_caps p).
Proof.
  induction gs as [|g gs IH]; intros k p L Hh Ho Hgs Hnd Hnew; cbn [grant_each].
  - exists (k_heap k), L, (p_caps p), []. split_and!; [|done..].
    rewrite pcb_caps_id, insert_id by apply Hh. by destruct k.
  - apply Forall_cons in Hgs as [[Hu Hg] Hgs]. apply NoDup_cons in Hnd as [Hgn Hnd].
    assert (Hself : mk_cap (cap_ty g) (cap_val g) = g) by (by destruct g).
    destruct (cap_grant_run k proc p l (cap_ty g) (cap_val g) L Hh Hu Ho) as (_ & _ & Hrun).
    destruct (Hrun Hg) as [(h & E & Ho')|(x & h & E & Hx & Ho')].
    { rewrite held_snd, Hself. apply Hnew. left. }
    + rewrite (bind_Ret _ _ _ _ _ E).
      destruct (IH (set_k_heap h k) p L) as (h2 & L2 & caps' & gs' & E2 & Ho2 & Hsub & Hm); [by destruct Hh; split|done|done|done| |].
      { intros g' Hg'. apply Hnew. by right. }
      exists h2, L2, caps', gs'. split_and!; [|done|by apply sublist_cons|done]. rewrite E2. by destruct k.
    + rewrite Hself in E. rewrite (bind_Ret _ _ _ _ _ E).
      set (p1 := pcb_caps ((x, g) :: p_caps p) p) in *.
      destruct (IH (set_pcbs (<[proc := p1]> (pcbs k)) (set_k_heap h k)) p1 ({[x]} ∪ L))
        as (h2 & L2 & caps' & gs' & E2 & Ho2 & Hsub & Hm); [|done|done|done| |].
      { destruct Hh as [H1 H2 H3 H4]. split; [done|apply lookup_insert_eq|done|done]. }
      { intros g' Hg'. cbn. rewrite elem_of_cons. intros [->|H]; [done|]. by apply (Hnew g'); [right|]. }
      exists h2, L2, caps', (g :: gs'). split_and!; [|done|by apply sublist_skip|].
      * rewrite E2. cbn [pcbs set_pcbs set_k_heap]. rewrite insert_insert_eq. by destruct k.
      * by rewrite Hm, reverse_cons, <- app_assoc.
Qed.

(** ** Who may do what

    The programs of the boot by their names, the devices of the machine with
    their ports, and which program drives which device.  None of it is read
    off the grants. *)
Inductive boot_process :=
  | pit_ramp | namespace_server | terminal_server | kb_server | log_server2 | rtc_server | portal_test | process_test.
Definition boot_name (bp : boot_process) : list Z :=
  match bp with
  | pit_ramp => bytes_of "pit_ramp.elf" | namespace_server => bytes_of "namespace_server.elf"
  | terminal_server => bytes_of "terminal_server.elf" | kb_server => bytes_of "kb_server.elf"
  | log_server2 => bytes_of "log_server2.elf" | rtc_server => bytes_of "rtc_server.elf"
  | portal_test => bytes_of "portal_test.elf" | process_test => bytes_of "process_test.elf"
  end%string.

Inductive device := PIC | PIT | PS2 | CMOS | VGA | COM1.
Definition has_port (d : device) (q : Z) : Prop :=
  match d with
  | PIC => 32 <= q <= 33 ∨ 160 <= q <= 161
  | PIT => 64 <= q <= 67
  | PS2 => 96 <= q <= 100
  | CMOS => 112 <= q <= 113
  | VGA => 960 <= q <= 991
  | COM1 => 1016 <= q <= 1023
  end.
Definition drives (bp : boot_process) (d : device) : bool :=
  match bp, d with
  | pit_ramp, (PIT | COM1) => true
  | terminal_server, VGA => true
  | kb_server, (PS2 | COM1) => true
  | log_server2, COM1 => true
  | rtc_server, CMOS => true
  | (portal_test | process_test), (VGA | COM1) => true
  | _, _ => false
  end.

(** The two windows of the graphics card. *)
Definition in_video (base size : Z) : Prop :=
  655360 <= base ∧ base + size <= 720896 ∨ 753664 <= base ∧ base + size <= 757760.

(** A program may use the ports of the devices it drives, the terminal may
    map video memory for ring 3, the keyboard server owns vector 33, all but
    the timer calibration use IPC, and nobody makes kernel processes. *)
Definition policy (bp : boot_process) (ty : cap_type) : cap_member ty → Prop :=
  match ty with
  | CAP_OWN_IRQ => λ a, bp = kb_server ∧ a = 33
  | CAP_MAP_MEM => λ a, bp = terminal_server ∧ 0 < mem_size a ∧ in_video (mem_base a) (mem_size a) ∧
      ∀ i, Z.testbit (mem_flags a) i = true → Z.testbit PTE_USER_PAGE i = true
  | CAP_ACCESS_IO => λ a, 0 < io_count a ∧
      ∃ d, drives bp d = true ∧ ∀ q, io_base a <= q < io_base a + io_count a → has_port d q
  | CAP_IPC => λ _, bp ≠ pit_ramp
  | CAP_CREATE_KRNL_PROC | CAP_CREATE_KRNL_THREAD => λ _, False
  end.

(** The programs and the functions [init_thread] passes with their names. *)
Definition boot_table : list (list Z * (Z → M kernel unit)) :=
  (bytes_of "pit_ramp.elf"%string, grant_pit_ramp_caps) :: first_processes.

Definition caps_of (bp : boot_process) : list capability :=
  match bp with
  | pit_ramp => pit_ramp_caps | namespace_server => ns_caps | terminal_server => terminal_caps | kb_server => kb_caps_list
  | log_server2 => log_caps | rtc_server => rtc_caps | portal_test | process_test => demo_caps
  end.

Lemma boot_table_ok bp grant : (boot_name bp, grant) ∈ boot_table → grant = grants (caps_of bp).
Proof.
  unfold boot_table, first_processes. rewrite !elem_of_cons, elem_of_nil. intros H.
  destruct bp; (repeat (destruct H as [H|H]; [apply pair_equal_spec in H as [H ->]; first [discriminate H|reflexivity]|])); destruct H.
Qed.

(** Two grants differ when their views do. *)
Lemma grant_ne c d : (cap_ty c = cap_ty d ∧ cap_view CAP_ACCESS_IO c = cap_view CAP_ACCESS_IO d ∧
  cap_view CAP_MAP_MEM c = cap_view CAP_MAP_MEM d → False) → c ≠ d.
Proof. intros H ->. by apply H. Qed.

Ltac open_caps := unfold caps_of, pit_ramp_caps, ns_caps, terminal_caps, kb_caps_list, demo_caps, log_caps, rtc_caps, io, ipc.

Lemma caps_of_ok bp :
  Forall (λ g, cap_u32 (cap_ty g) (cap_val g) ∧ grantable (cap_ty g) (cap_val g)) (caps_of bp) ∧ NoDup (caps_of bp).
Proof.
  destruct bp; open_caps.
  all: split; [repeat (constructor; [cbn; unfold is_u32; repeat split; first [lia | vm_compute; congruence]|]); constructor|].
  all: repeat (apply NoDup_cons; split; [rewrite ?not_elem_of_cons; split_and?; try apply not_elem_of_nil; apply grant_ne; vm_compute; intros (? & ? & ?); congruence|]);
    apply NoDup_nil_2.
Qed.

(** A grant, whatever its kind, covers the request. *)
Definition covered (ty : cap_type) (a : cap_member ty) (g : capability) : Prop :=
  match cap_view ty g with Some v => covers ty v a | None => False end.

Lemma covered_by ty a gs : (∃ v, mk_cap ty v ∈ gs ∧ covers ty v a) ↔ Exists (covered ty a) gs.
Proof.
  rewrite Exists_exists. unfold covered. split.
  - intros (v & Hv & Hc). exists (mk_cap ty v). split; [done|]. by rewrite cap_view_same.
  - intros (g & Hin & Hc). destruct (cap_view ty g) as [v|] eqn:E; [|done].
    apply cap_view_Some in E as ->. by exists v.
Qed.

Ltac open_covered := rewrite covered_by; open_caps; rewrite ?Exists_cons, Exists_nil;
  cbn [covered cap_view covers mem_base mem_size mem_flags io_base io_count].

Lemma policy_io bp a : (∃ v, mk_cap CAP_ACCESS_IO v ∈ caps_of bp ∧ covers CAP_ACCESS_IO v a) ↔ policy bp CAP_ACCESS_IO a.
Proof.
  cbn [policy]. split.
  - intros H. assert (0 < io_count a) as Hc by (destruct H as (v & _ & H); apply H). split; [done|]. revert H.
    destruct bp; open_covered; intros H;
      first [exists PIT; split; [reflexivity|cbn; lia]|exists VGA; split; [reflexivity|cbn; lia]|exists PS2; split; [reflexivity|cbn; lia]
            |exists CMOS; split; [reflexivity|cbn; lia]|exists COM1; split; [reflexivity|cbn; lia]|exfalso; tauto|idtac].
    all: destruct H as [H|[H|H]]; try tauto;
      first [exists PIT; split; [reflexivity|cbn; lia]|exists VGA; split; [reflexivity|cbn; lia]|exists PS2; split; [reflexivity|cbn; lia]
            |exists COM1; split; [reflexivity|cbn; lia]|idtac].
  - intros (Hc & d & Hd & Hp). pose proof (Hp (io_base a) ltac:(lia)) as Hlo.
    pose proof (Hp (io_base a + io_count a - 1) ltac:(lia)) as Hhi. clear Hp.
    destruct bp, d; try discriminate Hd; open_covered; cbn in Hlo, Hhi; lia.
Qed.

Lemma policy_mem bp a : (∃ v, mk_cap CAP_MAP_MEM v ∈ caps_of bp ∧ covers CAP_MAP_MEM v a) ↔ policy bp CAP_MAP_MEM a.
Proof.
  cbn [policy]. unfold in_video.
  destruct bp; open_covered; try (split; [tauto|by intros [? _]]). split.
  - intros [H|[H|[H|[H|H]]]]; try tauto; destruct H as (H1 & H2 & H3 & H4); (split; [done|split; [done|split; [lia|done]]]).
  - intros (_ & H1 & H2 & H3). destruct H2 as [H2|H2]; [do 3 right; left|do 2 right; left]; (split_and!; [done|done|lia|lia]).
Qed.

(** The grants of a program say what the policy says. *)
Lemma policy_covers bp ty a : (∃ v, mk_cap ty v ∈ caps_of bp ∧ covers ty v a) ↔ policy bp ty a.
Proof.
  destruct ty; [|apply policy_mem|apply policy_io|..]; destruct bp; open_covered; cbn [policy];
    (split; [intros H; repeat (destruct H as [H|H]; [first [by split|done]|]); destruct H|]);
    intros H; first [by destruct H as [H _]|by destruct H|destruct H as [_ ->]; by left|by left|right; by left|right; right; by left
      |right; right; right; by left].
Qed.

(** Ports belong to one device. *)
Lemma has_port_device d d' q : has_port d q → has_port d' q → d = d'.
Proof. destruct d, d'; cbn; (reflexivity || lia). Qed.


(** The ports the terminal touches are the ones its process may touch. *)
Lemma terminal_ports_granted p caps : map snd caps = reverse terminal_caps →
  ∀ y, vga_port y → match y with In _ q | Out _ q _ => may_touch (pcb_caps caps p) q end.
Proof.
  intros Hm y Hy. assert (Hheld : held CAP_ACCESS_IO (mk_cap_io_port 960 32) caps).
  { apply held_snd. rewrite Hm. apply elem_of_reverse. left. }
  destruct y as [[] q|[] q v]; try done; right; (eexists; split; [exact Hheld|exact Hy]).
Qed.

(** ** Finding a module *)

Section modules.
Context (mem : Z → Z) (mboot_info : Z) (string_at : Z → list Z).

(** The first of the modules from [i] on whose path ends in the name. *)
Lemma load_loop_run n : ∀ i name grant k,
  (∀ j, i <= j < i + Z.of_nat n → modname_is (module_path mem mboot_info string_at j) (Some name) = false) →
  ∀ m, load_loop mem mboot_info string_at (n + m) i name grant k =
       load_loop mem mboot_info string_at m (i + Z.of_nat n) name grant k.
Proof.
  induction n as [|n IH]; intros i name grant k Hno m; [by rewrite Z.add_0_r|].
  cbn [Nat.add load_loop]. rewrite Hno by lia. cbn [negb].
  rewrite IH; [|intros j Hj; apply Hno; lia]. f_equal. lia.
Qed.

(** Start a loaded module: the grants come before it may run. *)
Definition start_module (pid : Z) (grant : option (Z → M kernel unit)) : M kernel Z :=
  if 0 <? pid then
    (match grant with Some g => proc ← get_process_by_pid pid; g proc | None => mret tt end);;
    proc_unblock pid;;
    mret pid
  else mret pid.

(** [load_user_elf_by_name] loads the first module whose path is the name
    or ends in a slash and the name, and no other; it passes the bounds the
    boot loader recorded for that module, and when the process exists it gets
    its grants before it may run.  When no module has the name the answer is 0
    and the kernel is unchanged. *)
Theorem load_finds_module_by_basename name grant k :
  let n := mboot_module_count mem mboot_info in
  let path j := string_at (mboot_module_name mem mboot_info j) in
  let named j := mboot_module_name mem mboot_info j ≠ 0 ∧ is_base (path j) name in
  Forall (λ c, 0 < c) name → (∀ j, Forall (λ c, 0 < c) (path j)) →
  ((∀ j, 0 <= j < n → ¬ named j) → load_user_elf_by_name mem mboot_info string_at name grant k = Ret 0 k) ∧
  (∀ i, 0 <= i < n → named i → (∀ j, 0 <= j < i → ¬ named j) →
     ∃ start stop, mboot_module_get mem mboot_info i true true = (0, Some (start, stop)) ∧
       start = word mem (word mem mboot_info MBI_MODS_ADDR) (4 * i) ∧
       stop = word mem (word mem mboot_info MBI_MODS_ADDR) (4 * i + 1) ∧
       load_user_elf_by_name mem mboot_info string_at name grant k =
         (pid ← proc_load_from_elf start stop 0; start_module pid grant) k).
Proof.
  intros n path named Hname Hpath.
  assert (Hmatch : ∀ j, modname_is (module_path mem mboot_info string_at j) (Some name) = true ↔ named j).
  { intros j. unfold module_path, named. destruct (Z.eqb_spec (mboot_module_name mem mboot_info j) 0) as [E|E].
    - split; [done|]. intros [? _]. done.
    - rewrite modname_is_spec by (done || apply Hpath). split; [by split|by intros [_ ?]]. }
  assert (Hno : ∀ j, ¬ named j → modname_is (module_path mem mboot_info string_at j) (Some name) = false).
  { intros j Hj. destruct (modname_is _ _) eqn:E; [|done]. by apply Hmatch in E. }
  unfold load_user_elf_by_name. fold n. split.
  - intros Hnone. rewrite <- (Nat.add_0_r (Z.to_nat n)). rewrite load_loop_run; [done|].
    intros j Hj. apply Hno, Hnone. lia.
  - intros i Hi Hni Hfirst.
    replace (Z.to_nat n) with (Z.to_nat i + S (Z.to_nat (n - i - 1)))%nat by lia.
    rewrite load_loop_run by (intros j Hj; apply Hno, Hfirst; lia).
    replace (0 + Z.of_nat (Z.to_nat i)) with i by lia. cbn [load_loop].
    rewrite (proj2 (Hmatch i) Hni). cbn [negb].
    destruct Hni as [Hnz _].
    unfold mboot_module_name, mboot_module_get in *.
    destruct (has_modules mem mboot_info); cbn [negb orb] in *; [|done].
    destruct ((i <? 0) || (word mem mboot_info MBI_MODS_COUNT <=? u32 i)); [done|].
    eexists _, _. split; [reflexivity|]. unfold MOD_START, MOD_END. rewrite Z.add_0_r, (Z.mul_comm i 4).
    split; [reflexivity|split; [reflexivity|]]. reflexivity.
Qed.
End modules.
End boot.

(** ** Witnesses *)


(** Nothing was lost in granting: the keyboard server reads its controller. *)
Example kb_reads_its_controller :
  match grant_kb_caps 500 demo_kernel with
  | Ret _ k => match cap_check 500 CAP_ACCESS_IO (Some (mk_cap_io_port 96 1)) k, cap_check 500 CAP_OWN_IRQ (Some 33) k with
               | Ret r _, Ret r' _ => r = 0 ∧ r' = 0 | _, _ => False end
  | _ => False
  end.
Proof. vm_compute. by split. Qed.

(** Two modules, "/boot/a" and "/boot/b", and the boot information that lists
    them. *)
Definition mbi (a : Z) : Z :=
  match a with
  | 4096 => 8 | 4116 => 2 | 4120 => 8192
  | 8192 => 1048576 | 8196 => 1052672 | 8200 => 300
  | 8208 => 2097152 | 8212 => 2101248 | 8216 => 400
  | _ => 0
  end.
Definition mbi_string (a : Z) : list Z :=
  if a =? 300 then [47; 98; 111; 111; 116; 47; 97] else [47; 98; 111; 111; 116; 47; 98].

Example mbi_modules :
  mboot_module_count mbi 4096 = 2 ∧ mboot_module_get mbi 4096 1 true true = (0, Some (2097152, 2101248)) ∧
  mboot_module_get mbi 4096 2 true true = (E_NOTFOUND, None) ∧ modname_is (Some (mbi_string 400)) (Some [98]) = true.
Proof. done. Qed.

Lemma load_finds_module_by_basename_witness :
  ∃ start stop, mboot_module_get mbi 4096 1 true true = (0, Some (start, stop)) ∧
    load_user_elf_by_name mbi 4096 mbi_string [98] None sched_demo =
      (pid ← proc_load_from_elf start stop 0; start_module pid None) sched_demo.
Proof.
  destruct (load_finds_module_by_basename mbi 4096 mbi_string [98] None sched_demo) as [_ H].
  - constructor; [lia|constructor].
  - intros j. unfold mbi_string. destruct (_ =? 300); repeat (constructor; [lia|]); constructor.
  - destruct (H 1) as (start & stop & E & _ & _ & E2).
    + vm_compute. split; congruence.
    + split; [discriminate|]. split; [|right; exists [47; 98; 111; 111; 116]; reflexivity].
      apply not_elem_of_cons. split; [discriminate|apply not_elem_of_nil].
    + intros j Hj [_ [_ Hb]]. assert (j = 0) as -> by lia.
      destruct Hb as [Hb|[dir Hb]]; [discriminate Hb|].
      apply (f_equal last) in Hb. rewrite last_app_cons in Hb. discriminate Hb.
    + exists start, stop. split; [exact E|exact E2].
Defined.
