(* ===== verification/UserService.v ===== *)
(** * Port accesses of the ring-3 servers (user/server/user_service.c)

    The functions a server is linked with instead of the kernel's: every port
    access is a system call.  The theorem justifies the models of the servers,
    which run on [win] and [wout] of KConsole: behind a gate that runs the
    handler of the kernel (Io.v), a granted access is that one bus cycle. *)

From stdpp Require Import base tactics list gmap.
From Stdlib Require Import ZArith Lia.
From S2P Require Import Prelude Allocator Pmm Heap KState Capability Sched ThreadApi Io KConsole Abi UserLib.

Open Scope Z_scope.

Definition SYSCALL_IO : Z := 5.

Section service.
Context {S : Type} `{!Gate S io_syscall_data, !Gate S proc_thread_ctrl_config}.

Definition ioread8 (port : Z) : M S Z :=
  r ← user_syscall SYSCALL_IO (mk_io IO_CTRL_IN8 port 0 0);
  mret (u8 (iod_value r.2)).
Definition iowrite8 (port value : Z) : M S unit :=
  user_syscall SYSCALL_IO (mk_io IO_CTRL_OUT8 port (u8 value) 0);; mret tt.
Definition thread_yield : M S unit := proc_sys (ptc U_THREAD_CTRL_YIELD 0 0);; mret tt.

(** The entry points of ring 0 that a server links and may not run. *)
Definition klog_init : M S unit := mret tt.
Definition klog_write (s : list Z) : M S unit := mret tt.
Definition timer_is_ready : M S Z := mret 0.
Definition timer_read_time_str (size : Z) : M S Z := mret (-1).
End service.

(** ** Behind the gate *)

Section granted.
Context {A U W D : Type} `{!Devices D}.
Notation io_state := (io_state A U W D).
Implicit Types s : io_state.

(** The handler the kernel registers for SYSCALL_IO, on the caller's block. *)
#[local] Instance io_gate : Gate io_state io_syscall_data := λ num c,
  r ← io_syscall_isr (Some c); mret (r.1, default c r.2).

(** The devices and the bus as a server sees them. *)
Definition wires_of s : wires D := mk_wires (io_dev s) (io_cycles s).
Definition with_wires (w : wires D) s : io_state := mk_io_state (io_k s) (w_dev w) (w_cycles w) (io_scall_handle s).

(** A port access of a ring-3 server through the system call: with a grant for
    the port it is exactly one bus cycle of one byte, with the value of the
    device, and nothing else of the kernel changes; without one no port is
    touched and a read gives 0. *)
Theorem server_port_access s x p l port v :
  thread_run (io_k s) ≠ 0 → tcbs (io_k s) !! thread_run (io_k s) = Some x →
  cap_holder (io_k s) (t_parent x) p l → caps_u32 (p_caps p) → is_u32 port →
  (may_touch p port →
     (∃ b w, win port (wires_of s) = Ret b w ∧ ioread8 port s = Ret b (with_wires w s)) ∧
     (∃ w, wout port v (wires_of s) = Ret tt w ∧ iowrite8 port v s = Ret tt (with_wires w s))) ∧
  (¬ may_touch p port → ioread8 port s = Ret 0 s ∧ iowrite8 port v s = Ret tt s).
Proof.
  intros Hr Hx Hh Hu Hp.
  destruct (io_isr_only_granted_ports s (t_parent x) x p l (mk_io IO_CTRL_IN8 port 0 0) Hr Hx eq_refl Hh Hu Hp) as [In0 In1].
  destruct (io_isr_only_granted_ports s (t_parent x) x p l (mk_io IO_CTRL_OUT8 port (u8 v) 0) Hr Hx eq_refl Hh Hu Hp) as [Out0 Out1].
  unfold ioread8, iowrite8, user_syscall, int_100, io_gate, mbind, M_bind. split; intros Hm.
  - rewrite (In1 Hm), (Out1 Hm). split.
    + eexists _, _. split; [reflexivity|]. cbn -[trunc u8]. change (u8 (trunc W8 ?b)) with (trunc W8 (trunc W8 b)).
      by rewrite trunc_trunc.
    + eexists. split; [reflexivity|]. cbn -[trunc u8]. change u8 with (trunc W8). by rewrite trunc_trunc.
  - rewrite (In0 Hm), (Out0 Hm). done.
Qed.
End granted.

(** The keyboard server reads its port 0x60 and not the port after it. *)
Lemma server_port_access_witness :
  ioread8 (Gate0 := io_gate) 96 io_demo = Ret 30 (with_wires (mk_wires {[ 96 := 30 ]} [In W8 96]) io_demo) ∧
  ioread8 (Gate0 := io_gate) 97 io_demo = Ret 0 io_demo.
Proof.
  assert (Hh : cap_holder (io_k io_demo) 64 kb_pcb 2) by (split; (reflexivity || discriminate)).
  split.
  - destruct (server_port_access io_demo (demo_tcb 1 64 3 TS_READY) kb_pcb 2 96 0 ltac:(discriminate) eq_refl Hh kb_caps
      ltac:(split; simpl; lia)) as [H _].
    destruct H as [(b & w & Hw & E) _]; [|by injection Hw as <- <-].
    right. exists (mk_cap_io_port 96 1). split; [exists 700; left|simpl; lia].
  - apply (server_port_access io_demo (demo_tcb 1 64 3 TS_READY) kb_pcb 2 97 0 ltac:(discriminate) eq_refl Hh kb_caps
      ltac:(split; simpl; lia)).
    intros [H|(g & Hg & Hb)]; [discriminate|]. apply held_snd in Hg. cbn in Hg. apply list_elem_of_singleton in Hg.
    apply (f_equal (cap_view CAP_ACCESS_IO)) in Hg.
    injection Hg as ->. cbn in Hb. lia.
Defined.
