(* ===== verification/PitRamp.v ===== *)
(** * The first boot process (user/pit_ramp.c)

    It measures the cycle counter against channel 0 of the 8254 timer, then
    raises the rate of the scheduler tick step by step, tests each step and
    goes back to the last good one when a test fails.  It logs to the serial
    port itself, for no server runs yet. *)

From Stdlib Require Import Ascii String.
From stdpp Require Import base tactics list.
From Stdlib Require Import ZArith Lia.
From S2P Require Import Prelude CString KState Capability Sched ThreadApi Io KConsole UserLib Boot.

Open Scope Z_scope.

Definition u64 (x : Z) : Z := x mod 18446744073709551616.

Definition PIT_CH0 : Z := 64.     (* 0x40 *)
Definition PIT_CMD : Z := 67.     (* 0x43 *)
Definition PIT_HZ : Z := 1193180.

(** The cycle counter is a device beside those behind the ports. *)
Class Tsc (D : Type) := read_tsc : D → Z * D.

(** The statics, beside the ports. *)
Record ramp (D : Type) := mk_ramp {
  r_wires : wires D;
  g_tsc_hz : Z;
  g_prev_wraps : Z;
  g_prev_tsc : Z;
}.
Arguments mk_ramp {D}.
Arguments r_wires {D}.
Arguments g_tsc_hz {D}.
Arguments g_prev_wraps {D}.
Arguments g_prev_tsc {D}.

Section ramp.
Context {D : Type} `{!Devices D, !Tsc D}.
Notation ramp := (ramp D).
Implicit Types s : ramp.

Definition set_r_wires (w : wires D) s : ramp := mk_ramp w (g_tsc_hz s) (g_prev_wraps s) (g_prev_tsc s).
Definition set_tsc_hz (v : Z) s : ramp := mk_ramp (r_wires s) v (g_prev_wraps s) (g_prev_tsc s).
Definition set_prev (wraps tsc : Z) s : ramp := mk_ramp (r_wires s) (g_tsc_hz s) wraps tsc.
#[export] Instance ramp_wires : Contains ramp (wires D).
Proof. refine {| part := r_wires; set_part := set_r_wires |}; try done. by intros []. Defined.
Definition rz {B} (m : M (wires D) B) : M ramp B := @zoom _ _ ramp_wires _ m.

(** ** The serial port *)

(** The wait is the one of [uart_put]; a new line is followed by a return. *)
Definition com1_putc (c : Z) : M ramp unit :=
  ok ← rz (uart_put c);
  if (ok : bool) && (c =? 10) then rz (uart_put 13);; mret tt else mret tt.

Fixpoint com1_puts (s : list Z) : M ramp unit :=
  match s with [] => mret tt | c :: s => com1_putc c;; com1_puts s end.

(** The ten bytes of [d] are filled from the lowest digit on and sent from the
    highest on. *)
Definition com1_msg (prefix : list Z) (v : Z) : M ramp unit :=
  com1_puts prefix;;
  match (if v =? 0 then Some [48] else digits_loop (λ r, 48 + r) 10 10 v []) with
  | Some d => com1_puts (reverse d)
  | None => fault
  end;;
  com1_putc 10.

(** ** The timer and the cycle counter *)

Definition rdtsc : M ramp Z :=
  rz (λ w, let r := read_tsc (w_dev w) in Ret (u64 r.1) (mk_wires r.2 (w_cycles w))).

Definition pit_latch : M ramp Z :=
  rz (wout PIT_CMD 0);;
  lo ← rz (win PIT_CH0);
  hi ← rz (win PIT_CH0);
  mret (u16 (Z.lor (Z.shiftl hi 8) lo)).

Fixpoint wait_loop (fuel : nat) (counts elapsed last : Z) : M ramp unit :=
  if counts <=? elapsed then mret tt else
  match fuel with
  | O => spin
  | S fuel => now ← pit_latch; wait_loop fuel counts (u32 (elapsed + u16 (last - now))) now
  end.
Definition pit_wait_counts (fuel : nat) (counts : Z) : M ramp unit :=
  last ← pit_latch; wait_loop fuel counts 0 last.

Definition TSC_CAL_WINDOWS : nat := 20.
Fixpoint windows (fuel n : nat) (best : Z) : M ramp Z :=
  match n with
  | O => mret best
  | S n =>
      t0 ← rdtsc;
      pit_wait_counts fuel (PIT_HZ / 200);;
      t1 ← rdtsc;
      let dt := u64 (t1 - t0) in
      windows fuel n (if dt <? best then dt else best)
  end.
Definition tsc_calibrate (fuel : nat) : M ramp unit :=
  best ← windows fuel TSC_CAL_WINDOWS 18446744073709551615;
  modify (set_tsc_hz (u64 (best * 200))).

(** The divisor of a rate. *)
Definition pit_divisor (hz : Z) : Z :=
  let div := PIT_HZ / hz in
  let div := if div <? 2 then 2 else div in
  if 65536 <? div then 65536 else div.
Definition pit_set_freq (hz : Z) : M ramp Z :=
  if (hz =? 0) || (PIT_HZ <? hz) then mret (-1) else
  let div := pit_divisor hz in
  rz (wout PIT_CMD 54);;
  rz (wout PIT_CH0 (Z.land div 255));;
  rz (wout PIT_CH0 (Z.shiftr div 8));;
  mret 0.

Fixpoint wraps_loop (fuel : nat) (deadline wraps last : Z) : M ramp Z :=
  t ← rdtsc;
  if t <? deadline then
    match fuel with
    | O => spin
    | S fuel =>
        now ← pit_latch;
        wraps_loop fuel deadline (if last <? now then u32 (wraps + 1) else wraps) now
    end
  else mret wraps.
Definition pit_count_wraps (fuel : nat) (deadline : Z) : M ramp Z :=
  last ← pit_latch; wraps_loop fuel deadline 0 last.

(** ** One step and its test *)

(** The comparison of two rates, [got] wraps in [dt] after [wraps] in [tsc]. *)
Definition rate_grew (got dt wraps tsc : Z) : bool :=
  if negb (wraps =? 0) && negb (tsc =? 0) then
    let prev_num := u64 (wraps * dt) in
    let cur_num := u64 (got * tsc) in
    negb (u64 (cur_num * 10) <? u64 (prev_num * 13))
  else true.

(** The result and [*out_got] afterwards. *)
Definition pit_write_test (fuel : nat) (hz out_got : Z) : M ramp (Z * Z) :=
  g ← gets g_tsc_hz;
  if g =? 0 then mret (-1, out_got) else
  let wall := g / 10 in
  t0 ← rdtsc;
  got ← pit_count_wraps fuel (u64 (t0 + wall));
  t1 ← rdtsc;
  if got =? 0 then mret (-1, got) else
  wraps ← gets g_prev_wraps;
  tsc ← gets g_prev_tsc;
  if negb (rate_grew got (u64 (t1 - t0)) wraps tsc) then mret (-1, got) else
  modify (set_prev got (u64 (t1 - t0)));;
  mret (0, got).

Definition pit_ladder : list Z := [100; 200; 500; 1000].

Fixpoint ladder_loop (fuel : nat) (fs : list Z) (good : Z) : M ramp Z :=
  match fs with
  | [] => mret good
  | f :: fs =>
      r ← pit_set_freq f;
      if negb (r =? 0) then mret good else
      t ← pit_write_test fuel f 0;
      if negb (t.1 =? 0) then
        pit_set_freq (if good =? 0 then 18 else good);;
        com1_msg (bytes_of "[pit] step FAILED at "%string) f;;
        com1_msg (bytes_of "[pit]   got wraps/100ms = "%string) t.2;;
        mret good
      else
        com1_msg (bytes_of "[pit] step ok @"%string) f;;
        ladder_loop fuel fs f
  end.

Definition pit_baseline (fuel : nat) : M ramp unit :=
  b0 ← rdtsc;
  g ← gets g_tsc_hz;
  wraps ← pit_count_wraps fuel (u64 (b0 + g / 2));
  b1 ← rdtsc;
  let dt := u64 (b1 - b0) in
  modify (set_prev wraps dt);;
  if dt =? 0 then fault else
  com1_msg (bytes_of "[pit] base wraps/s = "%string) (u32 (u64 (wraps * g) / dt)).

Definition pit_ramp_to_max (fuel : nat) : M ramp Z :=
  tsc_calibrate fuel;;
  g ← gets g_tsc_hz;
  com1_msg (bytes_of "[pit] tsc hz ~"%string) (u32 g);;
  pit_baseline fuel;;
  good ← ladder_loop fuel pit_ladder 0;
  com1_msg (bytes_of "[pit] running @"%string) good;;
  mret good.

Context `{!Gate ramp proc_thread_ctrl_config}.
Definition _start (fuel turns : nat) : M ramp unit :=
  pit_ramp_to_max fuel;;
  pid ← user_proc_get_pid;
  user_proc_exit pid;;
  yields turns;; spin.
End ramp.

Lemma bytes_joined lo hi : is_u8 lo → is_u8 hi → Z.lor (Z.shiftl hi 8) lo = lo + 256 * hi.
Proof.
  intros Hl Hh. assert (Z.land (Z.shiftl hi 8) lo = 0) as H0.
  { apply Z.bits_inj'. intros n Hn. rewrite Z.land_spec, Z.bits_0. destruct (Z.ltb_spec n 8).
    - by rewrite Z.shiftl_spec_low.
    - rewrite <- (Z.mod_small lo (2 ^ 8)) by (exact Hl). rewrite Z.mod_pow2_bits_high by lia. apply andb_false_r. }
  rewrite <- (Z.lxor_lor _ _ H0), <- (Z.add_nocarry_lxor _ _ H0), Z.shiftl_mul_pow2 by lia. lia.
Qed.

(** The test is the comparison of the two rates, in whole numbers: at least
    1.3 times the wraps per tick of the step before. *)
Lemma rate_grew_exact got dt wraps tsc : 0 <= got → 0 <= dt → 0 < wraps → 0 < tsc →
  13 * (wraps * dt) < 2 ^ 64 → 10 * (got * tsc) < 2 ^ 64 →
  rate_grew got dt wraps tsc = true ↔ 13 * (wraps * dt) <= 10 * (got * tsc).
Proof.
  intros Hg Hd Hw Ht B1 B2. unfold rate_grew, u64. rewrite (proj2 (Z.eqb_neq wraps 0)), (proj2 (Z.eqb_neq tsc 0)) by lia.
  change 18446744073709551616 with (2 ^ 64). cbn [negb andb].
  rewrite !(Z.mod_small (wraps * dt)), !(Z.mod_small (got * tsc)), !Z.mod_small by nia.
  rewrite negb_true_iff, Z.ltb_ge. lia.
Qed.

(** ** Channel 0 as the bus programs it *)

(** The access mode, the operating mode, a low byte that waits for its high
    byte, and the divisor (8254 data sheet; a count of 0 is 65536). *)
Record pit := mk_pit { pit_rw : Z; pit_mode : Z; pit_low : option Z; pit_reload : Z }.
Definition pit_count (c : Z) : Z := if c =? 0 then 65536 else c.
Definition pit_write (y : cycle) (p : pit) : pit :=
  match y with
  | Out W8 port v =>
      if port =? PIT_CMD then
        if (v / 64 =? 0) && negb (v / 16 mod 4 =? 0) then mk_pit (v / 16 mod 4) (v / 2 mod 8) None (pit_reload p) else p
      else if port =? PIT_CH0 then
        if pit_rw p =? 1 then mk_pit 1 (pit_mode p) None (pit_count v) else
        if pit_rw p =? 2 then mk_pit 2 (pit_mode p) None (pit_count (256 * v)) else
        match pit_low p with
        | None => mk_pit (pit_rw p) (pit_mode p) (Some v) (pit_reload p)
        | Some lo => mk_pit (pit_rw p) (pit_mode p) None (pit_count (lo + 256 * v))
        end
      else p
  | _ => p
  end.

(** After the bus cycles [l], newest first; the firmware leaves mode 3 and the
    longest period. *)
Definition square_wave (div : Z) : pit := mk_pit 3 3 None div.
Definition pit_after (l : list cycle) : pit := foldr pit_write (square_wave 65536) l.

(** The ports of the grant, and the accesses that do not program the timer. *)
Definition ramp_port (y : cycle) : Prop :=
  match y with In W8 p | Out W8 p _ => 64 <= p < 68 ∨ 1016 <= p < 1024 | _ => False end.
Definition quiet_cycle (y : cycle) : Prop :=
  match y with Out W8 p v => p ≠ PIT_CH0 ∧ (p = PIT_CMD → v = 0) | _ => True end.

Lemma quiet_write y p : quiet_cycle y → pit_write y p = p.
Proof.
  destruct y as [|[] port v]; try done. intros [H0 H1]. cbn [pit_write].
  destruct (Z.eqb_spec port PIT_CMD) as [->|_]; [by rewrite H1|]. by destruct (Z.eqb_spec port PIT_CH0).
Qed.

Lemma quiet_after l l' : Forall quiet_cycle l → pit_after (l ++ l') = pit_after l'.
Proof.
  unfold pit_after. rewrite foldr_app. induction 1 as [|y l Hy _ IH]; [done|]. cbn [foldr]. rewrite IH. by apply quiet_write.
Qed.

(** ** A board whose clocks run *)

(** [now] is the time in ticks of the cycle counter.  A port access or a
    reading of the counter takes between 1 and [lag] ticks.  While the timer
    has the divisor of the firmware ([bios]) its counter goes down by one
    every [per_count] ticks, and what the latch command keeps is the counter
    at that moment.  This is an idealisation: in the mode the firmware leaves
    (mode 3) an 8254 counts down by two per period of its clock, so
    [per_count] stands for half such a period. *)
Class Board (D : Type) `{!Devices D, !Tsc D} := {
  now : D → Z;
  bios : D → Prop;
  per_count : Z;
  phase : Z;
  lag : Z;
  board_sizes : 1 <= per_count <= 65536 ∧ 1 <= lag <= 16777216 ∧ 3 * lag <= 65534 * per_count;
  in_takes w p d : now d < now (dev_in w p d).2 <= now d + lag;
  out_takes w p v d : now d < now (dev_out w p v d) <= now d + lag;
  tsc_takes d : (read_tsc d).1 = now (read_tsc d).2 ∧ now d < now (read_tsc d).2 <= now d + lag;
  bios_in w p d : bios d → bios (dev_in w p d).2;
  bios_out p v d : bios d → quiet_cycle (Out W8 p v) → bios (dev_out W8 p v d);
  bios_tsc d : bios d → bios (read_tsc d).2;
  latch_keeps d : bios d →
    let d1 := dev_out W8 PIT_CMD 0 d in
    let lo := dev_in W8 PIT_CH0 d1 in
    let hi := dev_in W8 PIT_CH0 lo.2 in
    u8 lo.1 + 256 * u8 hi.1 = u16 (phase - now d1 / per_count);
}.

Section board.
Context {D : Type} `{!Devices D, !Tsc D, B : !Board D}.
Notation ramp := (ramp D).
Notation per_count := (@per_count D _ _ B).
Notation lag := (@lag D _ _ B).
Notation phase := (@phase D _ _ B).
Implicit Types s : ramp.

Definition time s : Z := now (w_dev (r_wires s)).
Definition log s : list cycle := w_cycles (r_wires s).

(** A stretch of the program that programs nothing, keeps to its ports, leaves
    the statics alone and takes at most [b] ticks. *)
Record quiet (b : Z) s s' : Prop := {
  q_log : ∃ l, log s' = l ++ log s ∧ Forall ramp_port l ∧ Forall quiet_cycle l;
  q_time : time s <= time s' <= time s + b;
  q_bios : bios (w_dev (r_wires s)) → bios (w_dev (r_wires s'));
  q_statics : (g_tsc_hz s', g_prev_wraps s', g_prev_tsc s') = (g_tsc_hz s, g_prev_wraps s, g_prev_tsc s);
}.

Lemma quiet_refl s : quiet 0 s s.
Proof. split; [by exists []|lia|done|done]. Qed.
Lemma quiet_trans b1 b2 s1 s2 s3 : quiet b1 s1 s2 → quiet b2 s2 s3 → quiet (b1 + b2) s1 s3.
Proof.
  intros [(l1 & E1 & P1 & Q1) T1 B1 S1] [(l2 & E2 & P2 & Q2) T2 B2 S2]. split; [|lia|auto|congruence].
  exists (l2 ++ l1). rewrite E2, E1, app_assoc, !Forall_app. done.
Qed.
Lemma quiet_mono b b' s s' : quiet b s s' → b <= b' → quiet b' s s'.
Proof. intros [? ? ? ?] Hb. split; [done|lia|done|done]. Qed.

Lemma zoom_wp {A} (m : M (wires D) A) Q s : wp m (λ a w, Q a (set_r_wires w s)) (r_wires s) → wp (rz m) Q s.
Proof. unfold wp, rz, zoom. cbn [part ramp_wires]. by destruct (m (r_wires s)). Qed.

(** One access. *)
Lemma quiet_step y d s : ramp_port y → quiet_cycle y → time s < now d <= time s + lag →
  (bios (w_dev (r_wires s)) → bios d) → quiet lag s (set_r_wires (mk_wires d (y :: w_cycles (r_wires s))) s).
Proof.
  intros Hp Hq Ht Hb. split; [exists [y]; by rewrite !Forall_singleton|unfold time at 2 3; cbn; lia|exact Hb|done].
Qed.
Lemma in_quiet p s : 64 <= p < 68 ∨ 1016 <= p < 1024 →
  wp (rz (win p)) (λ v s', is_u8 v ∧ quiet lag s s') s.
Proof.
  intros Hp. apply zoom_wp. unfold wp, win. split; [apply u8_range|].
  apply quiet_step; [exact Hp|exact I|apply in_takes|apply bios_in].
Qed.
Lemma out_quiet p v s : 64 <= p < 68 ∨ 1016 <= p < 1024 → quiet_cycle (Out W8 p (u8 v)) →
  wp (rz (wout p v)) (λ _ s', quiet lag s s') s.
Proof.
  intros Hp Hq. apply zoom_wp. unfold wp, wout.
  apply quiet_step; [exact Hp|exact Hq|apply out_takes|intros Hb; by apply bios_out].
Qed.
Lemma rdtsc_quiet s : 0 <= time s <= 2 ^ 63 →
  wp rdtsc (λ t s', t = time s' ∧ time s < time s' ∧ quiet lag s s') s.
Proof.
  intros Ht. apply zoom_wp. unfold wp. destruct (tsc_takes (w_dev (r_wires s))) as [E H]. rewrite E.
  pose proof board_sizes. unfold time in *. cbn. split; [|split; [lia|]].
  - unfold u64. apply Z.mod_small. lia.
  - split; [by exists []|unfold time; cbn; lia|apply bios_tsc|done].
Qed.

(** ** The log *)

Lemma thr_quiet n s : wp (rz (thr_wait n)) (λ _ s', quiet ((Z.of_nat n + 1) * lag) s s') s.
Proof.
  revert s. induction n as [|n IH]; intros s.
  all: apply zoom_wp; cbn [thr_wait]; unfold wp, mbind, M_bind, win; pose proof board_sizes.
  all: set (s1 := set_r_wires (mk_wires (dev_in W8 1021 (w_dev (r_wires s))).2 (In W8 1021 :: w_cycles (r_wires s))) s).
  all: assert (quiet lag s s1) as H1 by
    (apply quiet_step; [right; lia|exact I|apply in_takes|apply bios_in]).
  all: destruct (negb _); [apply (quiet_mono _ _ _ _ H1); lia|]; cbv match.
  - apply (quiet_mono _ _ _ _ H1). lia.
  - specialize (IH s1). unfold wp, rz, zoom in IH. cbn [part ramp_wires] in IH.
    change (r_wires s1) with (mk_wires (dev_in W8 1021 (w_dev (r_wires s))).2 (In W8 1021 :: w_cycles (r_wires s))) in IH.
    destruct (thr_wait n _); [|done..].
    apply (quiet_mono _ _ _ _ (quiet_trans _ _ _ _ _ H1 IH)). lia.
Qed.

Definition CHAR_TICKS : Z := 1000002 * lag.

Lemma rz_bind {A C} (m : M (wires D) A) (k : A → M (wires D) C) s : rz (m ≫= k) s = (rz m ≫= λ a, rz (k a)) s.
Proof. unfold rz, zoom, mbind, M_bind. cbn [part ramp_wires]. destruct (m (r_wires s)); [|done..]. by destruct (k _ _). Qed.

Lemma rz_ret {A} (a : A) Q s : Q a s → wp (rz (mret a)) Q s.
Proof. by destruct s. Qed.

Lemma uart_quiet c s : wp (rz (uart_put c)) (λ _ s', quiet CHAR_TICKS s s') s.
Proof.
  unfold uart_put, wp. rewrite rz_bind. apply wp_bind. eapply wp_mono; [apply thr_quiet|]. intros ok s1 H1.
  destruct ok.
  - unfold wp. rewrite rz_bind. apply wp_bind. eapply wp_mono; [apply out_quiet; [right; unfold COM1_BASE; lia|done]|].
    intros ? s2 H2. apply rz_ret, (quiet_mono _ _ _ _ (quiet_trans _ _ _ _ _ H1 H2)).
    unfold CHAR_TICKS, UART_TIMEOUT. rewrite Z2Nat.id by lia. lia.
  - apply rz_ret, (quiet_mono _ _ _ _ H1). pose proof board_sizes. unfold CHAR_TICKS, UART_TIMEOUT. rewrite Z2Nat.id by lia. lia.
Qed.

Lemma putc_quiet c s : wp (com1_putc c) (λ _ s', quiet (2 * CHAR_TICKS) s s') s.
Proof.
  assert (0 < CHAR_TICKS) by (pose proof board_sizes; unfold CHAR_TICKS; lia).
  apply wp_bind. eapply wp_mono; [apply uart_quiet|]. intros ok s1 H1. destruct (_ && _).
  - apply wp_bind. eapply wp_mono; [apply uart_quiet|]. intros ? s2 H2. apply wp_ret.
    apply (quiet_mono _ _ _ _ (quiet_trans _ _ _ _ _ H1 H2)). lia.
  - apply wp_ret, (quiet_mono _ _ _ _ H1). lia.
Qed.

Lemma puts_quiet l s : wp (com1_puts l) (λ _ s', quiet (Z.of_nat (length l) * (2 * CHAR_TICKS)) s s') s.
Proof.
  revert s. induction l as [|c l IH]; intros s; [apply wp_ret, quiet_refl|].
  apply wp_bind. eapply wp_mono; [apply putc_quiet|]. intros ? s1 H1. eapply wp_mono; [apply IH|]. intros ? s2 H2.
  apply (quiet_mono _ _ _ _ (quiet_trans _ _ _ _ _ H1 H2)). cbn [length]. lia.
Qed.

(** A line of at most thirty bytes and a number: the ten bytes are enough. *)
Definition MSG_TICKS : Z := 41 * (2 * CHAR_TICKS).

Lemma msg_quiet prefix v s : (length prefix <= 30)%nat → is_u32 v →
  wp (com1_msg prefix v) (λ _ s', quiet MSG_TICKS s s') s.
Proof.
  intros Hp Hv. assert (0 < CHAR_TICKS) by (pose proof board_sizes; unfold CHAR_TICKS; lia).
  apply wp_bind. eapply wp_mono; [apply puts_quiet|]. intros ? s1 H1.
  assert (∃ d, (if v =? 0 then Some [48] else digits_loop (λ r, 48 + r) 10 10 v []) = Some d ∧ (length d <= 10)%nat) as (d & -> & Hd).
  { destruct (Z.eqb_spec v 0); [exists [48]; split; [done|cbn; lia]|].
    destruct (digits_numeral (λ r, 48 + r) 10 10 10 v) as (d & E & Hn); [lia| |unfold is_u32 in Hv; lia|lia|].
    - intros r Hr. split; [|lia]. unfold digit_val, is_digit. change (ch "0"%char) with 48. change (ch "9"%char) with 57.
      rewrite (proj2 (Z.leb_le _ _)), (proj2 (Z.leb_le (48 + r) 57)) by lia. cbn. lia.
    - exists d. split; [done|]. destruct Hn as (_ & Hl & _). rewrite length_reverse in Hl. lia. }
  apply wp_bind. eapply wp_mono; [apply puts_quiet|]. intros ? s2 H2.
  eapply wp_mono; [apply putc_quiet|]. intros ? s3 H3.
  apply (quiet_mono _ _ _ _ (quiet_trans _ _ _ _ _ H1 (quiet_trans _ _ _ _ _ H2 H3))).
  unfold MSG_TICKS. rewrite length_reverse. nia.
Qed.

(** ** The timer *)

(** A latched sample; at the firmware's divisor it is the count at a moment
    within the call. *)
Lemma latch_quiet s :
  wp pit_latch (λ v s', quiet (3 * lag) s s' ∧
    (bios (w_dev (r_wires s)) → ∃ t, v = u16 (phase - t / per_count) ∧ time s < t <= time s + lag ∧ t <= time s' <= t + 2 * lag)) s.
Proof.
  unfold pit_latch, wp, mbind, M_bind, rz, zoom, wout, win. cbn [part ramp_wires set_part r_wires set_r_wires w_dev w_cycles].
  set (d := w_dev (r_wires s)). change (u8 0) with 0.
  pose proof (out_takes W8 PIT_CMD 0 d) as T1. set (d1 := dev_out W8 PIT_CMD 0 d) in *.
  pose proof (in_takes W8 PIT_CH0 d1) as T2. set (lo := dev_in W8 PIT_CH0 d1) in *.
  pose proof (in_takes W8 PIT_CH0 lo.2) as T3. set (hi := dev_in W8 PIT_CH0 lo.2) in *.
  split.
  - split.
    + exists [In W8 PIT_CH0; In W8 PIT_CH0; Out W8 PIT_CMD 0]. split; [done|].
      split; repeat (apply Forall_cons; split); try apply Forall_nil; try done; left; unfold PIT_CH0, PIT_CMD; lia.
    + unfold time. cbn. fold d. lia.
    + intros Hb. apply bios_in, bios_in, bios_out; [exact Hb|done].
    + done.
  - intros Hb. exists (now d1). unfold time. cbn. fold d. split; [|lia].
    pose proof (latch_keeps d Hb) as Hl. cbv zeta in Hl. fold d1 lo hi in Hl.
    rewrite (bytes_joined (u8 lo.1) (u8 hi.1) (u8_range _) (u8_range _)).
    rewrite Hl. unfold u16. by rewrite Z.mod_mod.
Qed.

Lemma quiet_tight b s s' : quiet b s s' → quiet (time s' - time s) s s'.
Proof. intros [? ? ? ?]. split; [done|lia|done|done]. Qed.

(** Time that passes less than one turn of the counter is read exactly. *)
Lemma counts_between t t' : t < t' <= t + 3 * lag →
  u16 (u16 (phase - t / per_count) - u16 (phase - t' / per_count)) = t' / per_count - t / per_count ∧
  0 <= t' / per_count - t / per_count <= 65535.
Proof.
  intros Ht. pose proof board_sizes as (HK & _ & HL).
  assert (0 <= t' / per_count - t / per_count <= 65535) as Hd.
  { pose proof (Z.div_le_mono t t' per_count ltac:(lia) ltac:(lia)).
    pose proof (Z.div_le_mono t' (t + 65534 * per_count) per_count ltac:(lia) ltac:(lia)) as H1.
    rewrite Z.div_add in H1 by lia. lia. }
  split; [|done]. revert Hd. generalize (t / per_count), (t' / per_count). intros a a' Hd.
  unfold u16. rewrite <- Zminus_mod, Z.mod_small; lia.
Qed.

Lemma div_lt_mul a b k n : 0 < k → a / k < b / k + n → a < b + n * k.
Proof.
  intros Hk H. pose proof (Z.div_mod a k ltac:(lia)). pose proof (Z.mod_pos_bound a k Hk).
  pose proof (Z.div_mod b k ltac:(lia)). pose proof (Z.mod_pos_bound b k Hk). nia.
Qed.

(** The wait: it ends, and between the first and the last sample pass the
    counts asked for, not many more. *)
Lemma wait_loop_run counts t0 : 0 <= counts <= 65536 → ∀ fuel s t,
  bios (w_dev (r_wires s)) → t0 <= t <= time s → time s <= t + 2 * lag → t <= t0 + counts * per_count + 3 * lag →
  t0 + counts * per_count - t <= Z.of_nat fuel →
  wp (wait_loop fuel counts (t / per_count - t0 / per_count) (u16 (phase - t / per_count)))
    (λ _ s', quiet (t0 + counts * per_count + 5 * lag - time s) s s' ∧ t0 + (counts - 1) * per_count < time s') s.
Proof.
  intros Hc. pose proof board_sizes as (HK & HL & _).
  induction fuel as [|fuel IH]; intros s t Hb Ht0 Hts Ht Hf; cbn [wait_loop];
    destruct (Z.leb_spec counts (t / per_count - t0 / per_count)) as [Hd|Hd].
  1, 3: apply wp_ret; split; [apply (quiet_mono _ _ _ _ (quiet_refl s)); lia|].
  1, 2: pose proof (div_lt_mul t0 t per_count (1 - counts) ltac:(lia) ltac:(lia)); lia.
  all: pose proof (div_lt_mul t t0 per_count counts ltac:(lia) ltac:(lia)) as Hlt.
  { lia. }
  apply wp_bind. eapply wp_mono; [apply latch_quiet|]. intros v s1 [H1 Hl]. destruct (Hl Hb) as (t1 & -> & T1 & T2).
  destruct (counts_between t t1) as [-> Hr]; [lia|].
  assert (u32 (t / per_count - t0 / per_count + (t1 / per_count - t / per_count)) = t1 / per_count - t0 / per_count) as ->.
  { rewrite u32_small; [lia|]. pose proof (Z.div_le_mono t0 t per_count ltac:(lia) ltac:(lia)). unfold is_u32. lia. }
  eapply wp_mono; [apply (IH s1 t1)|]; [by apply (q_bios _ _ _ H1)|lia..|].
  intros ? s2 [H2 H3]. split; [|done].
  apply (quiet_mono _ _ _ _ (quiet_trans _ _ _ _ _ (quiet_tight _ _ _ H1) H2)). lia.
Qed.

(** One window: the ticks it spans. *)
Definition window_ok (dt : Z) : Prop := 5964 * per_count < dt <= 5965 * per_count + 7 * lag.

Lemma wait_run fuel s : bios (w_dev (r_wires s)) → 5965 * per_count <= Z.of_nat fuel →
  wp (pit_wait_counts fuel (PIT_HZ / 200)) (λ _ s', quiet (5965 * per_count + 6 * lag) s s' ∧ 5964 * per_count < time s' - time s) s.
Proof.
  intros Hb Hf. pose proof board_sizes as (HK & HL & _). apply wp_bind. eapply wp_mono; [apply latch_quiet|].
  intros v s1 [H1 Hl]. destruct (Hl Hb) as (t & -> & T1 & T2). change (PIT_HZ / 200) with 5965.
  rewrite <- (Z.sub_diag (t / per_count)).
  eapply wp_mono; [apply (wait_loop_run 5965 t); [lia|by apply (q_bios _ _ _ H1)|lia..]|].
  intros ? s2 [H2 H3]. split; [|lia].
  apply (quiet_mono _ _ _ _ (quiet_trans _ _ _ _ _ (quiet_tight _ _ _ H1) H2)). lia.
Qed.

Definition WINDOW_TICKS : Z := 5965 * per_count + 8 * lag.

Lemma windows_run fuel : 5965 * per_count <= Z.of_nat fuel → ∀ n s best,
  bios (w_dev (r_wires s)) → 0 <= time s → time s + Z.of_nat n * WINDOW_TICKS <= 2 ^ 63 →
  best = 18446744073709551615 ∨ window_ok best →
  wp (windows fuel n best) (λ b s', quiet (Z.of_nat n * WINDOW_TICKS) s s' ∧ ((0 < n)%nat ∨ window_ok best → window_ok b)) s.
Proof.
  intros Hf. pose proof board_sizes as (HK & HL & _). unfold WINDOW_TICKS, window_ok.
  induction n as [|n IH]; intros s best Hb H0 Ht Hbest; cbn [windows].
  { apply wp_ret. split; [apply quiet_refl|]. intros [?|?]; [lia|done]. }
  apply wp_bind. eapply wp_mono; [apply rdtsc_quiet; lia|]. intros t0 s1 (-> & T1 & H1).
  pose proof (q_bios _ _ _ H1 Hb) as Hb1. pose proof (q_time _ _ _ H1) as T1'.
  apply wp_bind. eapply wp_mono; [by apply wait_run|]. intros ? s2 (H2 & T2). pose proof (q_time _ _ _ H2) as T2'.
  apply wp_bind. eapply wp_mono; [apply rdtsc_quiet; lia|]. intros t1 s3 (-> & T3 & H3). pose proof (q_time _ _ _ H3) as T3'.
  assert (u64 (time s3 - time s1) = time s3 - time s1) as -> by (apply Z.mod_small; lia).
  pose proof (quiet_trans _ _ _ _ _ H1 (quiet_trans _ _ _ _ _ H2 H3)) as H.
  eapply wp_mono; [apply IH; [by apply (q_bios _ _ _ H)|lia|lia|]|].
  - destruct (Z.ltb_spec (time s3 - time s1) best); [right; lia|]. destruct Hbest; [lia|by right].
  - intros b s4 [H4 Hw]. split; [apply (quiet_mono _ _ _ _ (quiet_trans _ _ _ _ _ H H4)); lia|]. intros _. apply Hw. right.
    destruct (Z.ltb_spec (time s3 - time s1) best); [lia|]. destruct Hbest; lia.
Qed.

(** The calibration: within the counts of one window and the lag of a few
    accesses of the true rate. *)
Lemma calibrate_run fuel s : 5965 * per_count <= Z.of_nat fuel → bios (w_dev (r_wires s)) → 0 <= time s <= 2 ^ 62 →
  wp (tsc_calibrate fuel) (λ _ s', ∃ s1 b, quiet (20 * WINDOW_TICKS) s s1 ∧ window_ok b ∧ s' = set_tsc_hz (200 * b) s1) s.
Proof.
  intros Hf Hb Ht. pose proof board_sizes as (HK & HL & _).
  apply wp_bind. eapply wp_mono; [apply windows_run; try done|].
  - lia.
  - unfold WINDOW_TICKS. change (Z.of_nat TSC_CAL_WINDOWS) with 20. lia.
  - by left.
  - intros b s1 [H1 Hw]. specialize (Hw (or_introl (Nat.lt_0_succ 19))). unfold wp, modify. exists s1, b.
    split; [exact H1|]. split; [done|]. f_equal. unfold u64. rewrite Z.mul_comm. apply Z.mod_small. unfold window_ok in Hw. lia.
Qed.

(** Counting ends soon after the deadline. *)
Lemma wraps_loop_run deadline : deadline + 4 * lag <= 2 ^ 63 → ∀ fuel s wraps last,
  is_u32 wraps → 0 <= time s <= 2 ^ 63 → deadline - time s <= Z.of_nat fuel →
  wp (wraps_loop fuel deadline wraps last)
    (λ w s', is_u32 w ∧ time s < time s' ∧ quiet (Z.max (time s + lag) (deadline + 4 * lag) - time s) s s') s.
Proof.
  intros Hd. pose proof board_sizes as (_ & HL & _).
  induction fuel as [|fuel IH]; intros s wraps last Hw Ht Hf; cbn [wraps_loop].
  all: apply wp_bind; eapply wp_mono; [by apply rdtsc_quiet|]; intros t s1 (-> & T1 & H1); pose proof (q_time _ _ _ H1) as Q1.
  all: destruct (Z.ltb_spec (time s1) deadline) as [E|E];
    [|apply wp_ret; split; [done|split; [done|apply (quiet_mono _ _ _ _ H1); lia]]].
  { lia. }
  apply wp_bind. eapply wp_mono; [apply latch_quiet|]. intros v s2 [H2 _]. pose proof (q_time _ _ _ H2) as Q2.
  eapply wp_mono; [apply IH; [destruct (_ <? _); [apply u32_range|done]|lia|lia]|].
  intros w s3 (Hw3 & T3 & H3). split; [done|]. split; [lia|].
  apply (quiet_mono _ _ _ _ (quiet_trans _ _ _ _ _ (quiet_tight _ _ _ H1) (quiet_trans _ _ _ _ _ (quiet_tight _ _ _ H2) H3))). lia.
Qed.

Lemma count_wraps_run fuel deadline s : 0 <= time s → deadline + 4 * lag <= 2 ^ 63 → time s <= deadline →
  deadline - time s <= Z.of_nat fuel →
  wp (pit_count_wraps fuel deadline) (λ w s', is_u32 w ∧ time s < time s' ∧ quiet (deadline + 4 * lag - time s) s s') s.
Proof.
  intros H0 Hd Ht Hf. pose proof board_sizes as (_ & HL & _).
  apply wp_bind. eapply wp_mono; [apply latch_quiet|]. intros v s1 [H1 _]. pose proof (q_time _ _ _ H1) as Q1.
  eapply wp_mono; [apply wraps_loop_run; [done|done|lia|lia]|]. intros w s2 (Hw & T2 & H2). split; [done|]. split; [lia|].
  apply (quiet_mono _ _ _ _ (quiet_trans _ _ _ _ _ (quiet_tight _ _ _ H1) H2)). lia.
Qed.

(** ** Steps of the ladder *)

(** A stretch that keeps to its ports and to the calibration. *)
Record ran (b : Z) s s' : Prop := {
  ran_log : ∃ l, log s' = l ++ log s ∧ Forall ramp_port l;
  ran_time : time s <= time s' <= time s + b;
  ran_hz : g_tsc_hz s' = g_tsc_hz s;
}.
Lemma ran_trans b1 b2 s1 s2 s3 : ran b1 s1 s2 → ran b2 s2 s3 → ran (b1 + b2) s1 s3.
Proof.
  intros [(l1 & E1 & P1) T1 S1] [(l2 & E2 & P2) T2 S2]. split; [|lia|congruence].
  exists (l2 ++ l1). by rewrite E2, E1, app_assoc, Forall_app.
Qed.
Lemma ran_mono b b' s s' : ran b s s' → b <= b' → ran b' s s'.
Proof. intros [? ? ?] Hb. split; [done|lia|done]. Qed.
Lemma ran_quiet b s s' : quiet b s s' → ran b s s' ∧ pit_after (log s') = pit_after (log s).
Proof. intros [(l & E & P & Q) T _ [= Hg _ _]]. split; [split; eauto|]. rewrite E. by apply quiet_after. Qed.
Lemma ran_set_prev b w t s s' : ran b s s' → ran b s (set_prev w t s').
Proof. by intros [? ? ?]. Qed.

(** The three writes leave the divisor in the channel, whatever it was. *)
Lemma set_freq_run hz s : 0 < hz <= PIT_HZ →
  wp (pit_set_freq hz) (λ r s', r = 0 ∧ ran (3 * lag) s s' ∧ pit_after (log s') = square_wave (pit_divisor hz)) s.
Proof.
  intros Hz. unfold pit_set_freq. rewrite (proj2 (Z.eqb_neq hz 0)), (proj2 (Z.ltb_ge PIT_HZ hz)) by lia. cbn [orb].
  assert (2 <= pit_divisor hz <= 65536) as Hd.
  { unfold pit_divisor. destruct (Z.ltb_spec (PIT_HZ / hz) 2); repeat zcase; lia. }
  revert Hd. generalize (pit_divisor hz) as d. intros d Hd. cbv zeta.
  unfold wp, mbind, M_bind, rz, zoom, wout. cbn [part ramp_wires set_part r_wires set_r_wires w_dev w_cycles].
  pose proof (out_takes W8 PIT_CMD (u8 54) (w_dev (r_wires s))) as T1. set (d1 := dev_out W8 PIT_CMD (u8 54) _) in *.
  pose proof (out_takes W8 PIT_CH0 (u8 (Z.land d 255)) d1) as T2. set (d2 := dev_out W8 PIT_CH0 _ d1) in *.
  pose proof (out_takes W8 PIT_CH0 (u8 (Z.shiftr d 8)) d2) as T3. set (d3 := dev_out W8 PIT_CH0 _ d2) in *.
  split; [done|]. split; [split|].
  - exists [Out W8 PIT_CH0 (u8 (Z.shiftr d 8)); Out W8 PIT_CH0 (u8 (Z.land d 255)); Out W8 PIT_CMD (u8 54)]. split; [done|].
    repeat (apply Forall_cons; split); try apply Forall_nil; try done; left; unfold PIT_CH0, PIT_CMD; lia.
  - unfold time. cbn. lia.
  - done.
  - change (pit_write (Out W8 PIT_CH0 (u8 (Z.shiftr d 8))) (pit_write (Out W8 PIT_CH0 (u8 (Z.land d 255)))
      (pit_write (Out W8 PIT_CMD (u8 54)) (pit_after (log s)))) = square_wave d).
    cbn -[Z.land Z.shiftr u8 Z.mul pit_after Z.add]. unfold square_wave. f_equal.
    change (Z.land d 255) with (Z.land d (Z.ones 8)). rewrite Z.land_ones, Z.shiftr_div_pow2 by lia. change (2 ^ 8) with 256. unfold u8.
    rewrite Z.mod_mod by lia. unfold pit_count. assert (d = 65536 ∨ d < 65536) as [->|Hd'] by lia; [done|].
    rewrite (Z.mod_small (d / 256)) by (split; [apply Z.div_pos; lia|apply Z.div_lt_upper_bound; lia]).
    pose proof (Z.div_mod d 256 ltac:(lia)). destruct (Z.eqb_spec (d mod 256 + 256 * (d / 256)) 0); lia.
Qed.

Definition rate_divisor (f : Z) : Z := if f =? 0 then 65536 else PIT_HZ / f.

Lemma divisor_of f : f = 0 ∨ 100 <= f <= 1000 → pit_divisor (if f =? 0 then 18 else f) = rate_divisor f.
Proof.
  unfold rate_divisor. intros [->|Hf]; [done|]. rewrite (proj2 (Z.eqb_neq f 0)) by lia. unfold pit_divisor.
  assert (1193 <= PIT_HZ / f <= 11931) as H.
  { unfold PIT_HZ. split; [apply Z.div_le_lower_bound; lia|]. apply Z.lt_succ_r, Z.div_lt_upper_bound; lia. }
  destruct (Z.ltb_spec (PIT_HZ / f) 2); [lia|]. by rewrite (proj2 (Z.ltb_ge _ _)) by lia.
Qed.

Lemma write_test_run fuel hz s : 0 <= time s → 0 < g_tsc_hz s <= 2 ^ 38 → time s <= 2 ^ 62 → 2 ^ 38 <= Z.of_nat fuel →
  wp (pit_write_test fuel hz 0) (λ r s', is_u32 r.2 ∧ ran (2 ^ 38 + 6 * lag) s s' ∧ pit_after (log s') = pit_after (log s)) s.
Proof.
  intros H0 Hg Ht Hf. pose proof board_sizes as (_ & HL & _).
  unfold pit_write_test. apply wp_bind. unfold wp at 1, gets at 1. rewrite (proj2 (Z.eqb_neq _ 0)) by lia. cbv zeta.
  assert (0 <= g_tsc_hz s / 10 <= 2 ^ 38) as Hw.
  { split; [apply Z.div_pos; lia|]. apply Z.div_le_upper_bound; lia. }
  apply wp_bind. eapply wp_mono; [apply rdtsc_quiet; lia|]. intros t0 s1 (-> & T1 & H1). pose proof (q_time _ _ _ H1) as Q1.
  assert (u64 (time s1 + g_tsc_hz s / 10) = time s1 + g_tsc_hz s / 10) as -> by (apply Z.mod_small; lia).
  apply wp_bind. eapply wp_mono; [apply count_wraps_run; lia|]. intros got s2 (Hu & T2 & H2). pose proof (q_time _ _ _ H2) as Q2.
  apply wp_bind. eapply wp_mono; [apply rdtsc_quiet; lia|]. intros t1 s3 (-> & T3 & H3).
  destruct (ran_quiet _ _ _ (quiet_trans _ _ _ _ _ H1 (quiet_trans _ _ _ _ _ H2 H3))) as [Hr Hp].
  apply (ran_mono _ (2 ^ 38 + 6 * lag)) in Hr; [|lia].
  destruct (got =? 0); [by apply wp_ret|]. apply wp_bind. unfold wp at 1, gets at 1. apply wp_bind. unfold wp at 1, gets at 1.
  destruct (negb _); [by apply wp_ret|]. apply wp_bind. unfold wp at 1, modify. apply wp_ret.
  split; [done|]. split; [by apply ran_set_prev|done].
Qed.

Definition STEP_TICKS : Z := 2 ^ 38 + 12 * lag + 2 * MSG_TICKS.

(** The ladder stops at the last rate that passed its test, and leaves its
    divisor in the channel. *)
Lemma ladder_run fuel : 2 ^ 38 <= Z.of_nat fuel → ∀ fs good s,
  Forall (λ f, 100 <= f <= 1000) fs → good = 0 ∨ 100 <= good <= 1000 →
  pit_after (log s) = square_wave (rate_divisor good) →
  0 <= time s → time s + Z.of_nat (length fs) * STEP_TICKS <= 2 ^ 62 → 0 < g_tsc_hz s <= 2 ^ 38 →
  wp (ladder_loop fuel fs good) (λ r s', r ∈ good :: fs ∧ ran (Z.of_nat (length fs) * STEP_TICKS) s s' ∧
    pit_after (log s') = square_wave (rate_divisor r)) s.
Proof.
  intros Hf. pose proof board_sizes as (_ & HL & _). assert (0 < MSG_TICKS) as HM by (unfold MSG_TICKS, CHAR_TICKS; lia).
  induction fs as [|f fs IH]; intros good s Hfs Hgood Hpit H0 Ht Hg; cbn [ladder_loop].
  { apply wp_ret. split; [left|]. split; [by apply (ran_quiet _ _ _ (quiet_refl s))|done]. }
  apply Forall_cons in Hfs as [Hf1 Hfs]. unfold STEP_TICKS in *. rewrite length_cons, Nat2Z.inj_succ in *.
  assert (is_u32 f) as Hu by (unfold is_u32; lia).
  apply wp_bind. eapply wp_mono; [apply set_freq_run; unfold PIT_HZ; lia|]. intros r s1 (-> & R1 & P1). cbn [Z.eqb negb].
  pose proof (ran_time _ _ _ R1) as Q1. pose proof (ran_hz _ _ _ R1) as E1.
  apply wp_bind. eapply wp_mono; [apply write_test_run; rewrite ?E1; try done; lia|]. intros t s2 (Hu2 & R2 & P2).
  pose proof (ran_trans _ _ _ _ _ R1 R2) as R12. destruct (negb _).
  - apply wp_bind. eapply wp_mono; [apply set_freq_run; destruct (Z.eqb_spec good 0); unfold PIT_HZ; lia|].
    intros ? s3 (_ & R3 & P3). rewrite (divisor_of good Hgood) in P3.
    apply wp_bind. eapply wp_mono; [apply msg_quiet; [vm_compute; lia|done]|]. intros ? s4 H4.
    apply wp_bind. eapply wp_mono; [apply msg_quiet; [vm_compute; lia|done]|]. intros ? s5 H5. apply wp_ret.
    destruct (ran_quiet _ _ _ (quiet_trans _ _ _ _ _ H4 H5)) as [R5 P5]. split; [left|]. split; [|congruence].
    apply (ran_mono _ _ _ _ (ran_trans _ _ _ _ _ R12 (ran_trans _ _ _ _ _ R3 R5))). lia.
  - apply wp_bind. eapply wp_mono; [apply msg_quiet; [vm_compute; lia|done]|]. intros ? s3 H3.
    destruct (ran_quiet _ _ _ H3) as [R3 P3]. pose proof (ran_trans _ _ _ _ _ R12 R3) as R. pose proof (ran_time _ _ _ R) as Q.
    eapply wp_mono; [apply IH|]; [done|by right| |lia|lia| |].
    + rewrite P3, P2, P1. f_equal. rewrite <- (divisor_of f) by (by right). by rewrite (proj2 (Z.eqb_neq f 0)) by lia.
    + by rewrite (ran_hz _ _ _ R).
    + intros r s4 (Hr & R4 & P4). split; [by right|]. split; [|done]. apply (ran_mono _ _ _ _ (ran_trans _ _ _ _ _ R R4)). lia.
Qed.

(** ** The whole ramp *)

Lemma baseline_run fuel s : 0 <= time s <= 2 ^ 62 → 0 < g_tsc_hz s <= 2 ^ 38 → 2 ^ 38 <= Z.of_nat fuel →
  wp (pit_baseline fuel) (λ _ s', ran (2 ^ 38 + 6 * lag + MSG_TICKS) s s' ∧ pit_after (log s') = pit_after (log s)) s.
Proof.
  intros Ht Hg Hf. pose proof board_sizes as (_ & HL & _). unfold pit_baseline.
  assert (0 <= g_tsc_hz s / 2 <= 2 ^ 38) as Hw.
  { split; [apply Z.div_pos; lia|]. apply Z.div_le_upper_bound; lia. }
  apply wp_bind. eapply wp_mono; [apply rdtsc_quiet; lia|]. intros b0 s1 (-> & T1 & H1). pose proof (q_time _ _ _ H1) as Q1.
  apply wp_bind. unfold wp at 1, gets at 1. pose proof (q_statics _ _ _ H1) as [= -> _ _].
  assert (u64 (time s1 + g_tsc_hz s / 2) = time s1 + g_tsc_hz s / 2) as -> by (apply Z.mod_small; lia).
  apply wp_bind. eapply wp_mono; [apply count_wraps_run; lia|]. intros wraps s2 (Hu & T2 & H2). pose proof (q_time _ _ _ H2) as Q2.
  apply wp_bind. eapply wp_mono; [apply rdtsc_quiet; lia|]. intros b1 s3 (-> & T3 & H3). pose proof (q_time _ _ _ H3) as Q3.
  destruct (ran_quiet _ _ _ (quiet_trans _ _ _ _ _ H1 (quiet_trans _ _ _ _ _ H2 H3))) as [R P].
  assert (u64 (time s3 - time s1) = time s3 - time s1) as -> by (apply Z.mod_small; lia).
  cbv zeta. apply wp_bind. unfold wp at 1, modify. rewrite (proj2 (Z.eqb_neq _ 0)) by lia.
  eapply wp_mono; [apply msg_quiet; [vm_compute; lia|apply u32_range]|]. intros ? s4 H4.
  destruct (ran_quiet _ _ _ H4) as [R4 P4]. split; [|by rewrite P4].
  apply (ran_mono _ _ _ _ (ran_trans _ _ _ _ _ (ran_set_prev _ _ _ _ _ R) R4)). lia.
Qed.

(** C37: On any board whose clocks run, whatever the counter of the timer does
    once it is reprogrammed and whatever the serial port answers, the first
    boot process comes to its end: the calibration is right up to the counts
    of one window and the time of a few port accesses, the result is one of
    the rates of the ladder or 0, and channel 0 is left in mode 3 with exactly
    the divisor of that rate - with the firmware's for 0 - also when a test
    failed on the way.  Only the ports of the grant are accessed. *)
Theorem pit_ramp_settles fuel s :
  2 ^ 38 <= Z.of_nat fuel → bios (w_dev (r_wires s)) → pit_after (log s) = square_wave 65536 → 0 <= time s <= 2 ^ 61 →
  ∃ good s' l, pit_ramp_to_max fuel s = Ret good s' ∧ good ∈ 0 :: pit_ladder ∧
    pit_after (log s') = square_wave (rate_divisor good) ∧
    log s' = l ++ log s ∧ Forall ramp_port l ∧
    200 * (5964 * per_count) < g_tsc_hz s' <= 200 * (5965 * per_count + 7 * lag).
Proof.
  intros Hf Hb Hp Ht. pose proof board_sizes as (HK & HL & _).
  assert (wp (pit_ramp_to_max fuel) (λ good s', good ∈ 0 :: pit_ladder ∧ pit_after (log s') = square_wave (rate_divisor good) ∧
    (∃ l, log s' = l ++ log s ∧ Forall ramp_port l) ∧ 200 * (5964 * per_count) < g_tsc_hz s' <= 200 * (5965 * per_count + 7 * lag)) s) as W.
  2: { destruct (wp_run _ _ _ W) as (good & s' & E & Hg & P & (l & El & Fl) & Hz). by exists good, s', l. }
  assert (0 < MSG_TICKS <= 2 ^ 52) as HM by (unfold MSG_TICKS, CHAR_TICKS; lia).
  apply wp_bind. eapply wp_mono; [apply calibrate_run; [lia|done|lia]|]. intros ? s1 (s0 & b & H0 & Hw & ->).
  unfold window_ok in Hw. destruct (ran_quiet _ _ _ H0) as [[L0 T0 _] P0]. unfold WINDOW_TICKS in T0. set (s1 := set_tsc_hz (200 * b) s0).
  change (time s0) with (time s1) in T0. change (log s0) with (log s1) in P0, L0.
  assert (g_tsc_hz s1 = 200 * b) as G1 by done. clearbody s1.
  apply wp_bind. unfold wp at 1, gets at 1.
  apply wp_bind. eapply wp_mono; [apply msg_quiet; [vm_compute; lia|apply u32_range]|]. intros ? s2 H2.
  destruct (ran_quiet _ _ _ H2) as [R2 P2]. pose proof (ran_time _ _ _ R2) as T2. pose proof (ran_hz _ _ _ R2) as G2.
  apply wp_bind. eapply wp_mono; [apply baseline_run; rewrite ?G2, ?G1; lia|]. intros ? s3 (R3 & P3).
  pose proof (ran_time _ _ _ R3) as T3. pose proof (ran_hz _ _ _ R3) as G3.
  apply wp_bind. eapply wp_mono; [apply (ladder_run fuel Hf pit_ladder 0)|].
  - repeat (apply Forall_cons; split; [lia|]). by apply Forall_nil.
  - by left.
  - by rewrite P3, P2, P0, Hp.
  - lia.
  - change (Z.of_nat (length pit_ladder)) with 4. unfold STEP_TICKS. lia.
  - rewrite G3, G2, G1. lia.
  - intros good s4 (Hgood & R4 & P4). apply wp_bind.
    eapply wp_mono; [apply msg_quiet; [vm_compute; lia|]|].
    { unfold pit_ladder in Hgood. rewrite !elem_of_cons in Hgood. destruct Hgood as [->|[->|[->|[->|[->|H]]]]]; try (unfold is_u32; lia). by apply elem_of_nil in H. }
    intros ? s5 H5. apply wp_ret. destruct (ran_quiet _ _ _ H5) as [R5 P5].
    destruct (ran_trans _ _ _ _ _ R2 (ran_trans _ _ _ _ _ R3 (ran_trans _ _ _ _ _ R4 R5))) as [(l & El & Fl) _ G].
    split; [done|]. split; [by rewrite P5|]. split; [|rewrite G, G1; lia].
    destruct L0 as (l0 & E0 & F0). exists (l ++ l0). rewrite El, E0, app_assoc. split; [done|]. by apply Forall_app.
Qed.
End board.

(** The ports it touches are the ones its process may touch. *)
Lemma pit_ports_granted p caps : map snd caps = reverse pit_ramp_caps →
  ∀ y, ramp_port y → match y with In _ q | Out _ q _ => may_touch (pcb_caps caps p) q end.
Proof.
  intros Hm y Hy. assert (Hheld : ∀ b n, mk_cap CAP_ACCESS_IO (mk_cap_io_port b n) ∈ pit_ramp_caps → held CAP_ACCESS_IO (mk_cap_io_port b n) caps).
  { intros b n Hin. apply held_snd. rewrite Hm. by apply elem_of_reverse. }
  assert (Hq : ∀ q, 64 <= q < 68 ∨ 1016 <= q < 1024 → may_touch (pcb_caps caps p) q).
  { intros q [Hq|Hq]; right; [exists (mk_cap_io_port 64 4)|exists (mk_cap_io_port 1016 8)]; (split; [apply Hheld|exact Hq]).
    - left.
    - right. left. }
  destruct y as [[] q|[] q v]; try done; by apply Hq.
Qed.

(** ** Boards *)

(** Every access takes [step] ticks and a count lasts one tick.  The counter
    runs down from the divisor but never from less than [floor]; the serial
    port is always ready; [moving] tells whether the cycle counter counts. *)
Record bench := mk_bench { bn_time : Z; bn_pit : pit; bn_bytes : list Z }.

Section bench.
Context (step floor : Z) (moving : bool).

Definition bn_counter (b : bench) : Z :=
  let r := Z.max floor (pit_reload (bn_pit b)) in u16 (r - bn_time b mod r).
Definition bench_devices : Devices bench := {|
  dev_out w p v b :=
    let b := mk_bench (bn_time b + step) (pit_write (Out w p v) (bn_pit b)) (bn_bytes b) in
    if (p =? PIT_CMD) && (v =? 0) then mk_bench (bn_time b) (bn_pit b) [bn_counter b mod 256; bn_counter b / 256] else b;
  dev_in w p b :=
    let b := mk_bench (bn_time b + step) (bn_pit b) (bn_bytes b) in
    if p =? PIT_CH0 then (default 0 (head (bn_bytes b)), mk_bench (bn_time b) (bn_pit b) (tail (bn_bytes b)))
    else (if p =? 1021 then 32 else 0, b);
|}.
Definition bench_tsc : Tsc bench := λ b,
  let b := mk_bench (bn_time b + step) (bn_pit b) (bn_bytes b) in (if moving then bn_time b else 0, b).
Definition bench_start : ramp bench := mk_ramp (mk_wires (mk_bench 0 (square_wave 65536) []) []) 0 0 0.
Definition bench_run (fuel : nat) : outcome (ramp bench) Z :=
  @pit_ramp_to_max bench bench_devices bench_tsc fuel bench_start.
End bench.

Lemma u16_split m : 0 <= m < 65536 → u8 (m mod 256) + 256 * u8 (m / 256) = m.
Proof.
  intros Hm. unfold u8. rewrite Z.mod_mod by lia. rewrite (Z.mod_small (m / 256)).
  - pose proof (Z.div_mod m 256). lia.
  - split; [apply Z.div_pos|apply Z.div_lt_upper_bound]; lia.
Qed.

#[local] Instance bench_dev : Devices bench := bench_devices 200 0.
#[local] Instance bench_clock : Tsc bench := bench_tsc 200 true.
#[local] Instance bench_board : Board bench.
Proof.
  refine {| now := bn_time; bios := λ b, bn_pit b = square_wave 65536; per_count := 1; phase := 0; lag := 200 |}.
  - lia.
  - intros w p b. cbn. destruct (p =? PIT_CH0); cbn; lia.
  - intros w p v b. cbn. destruct (_ && _); cbn; lia.
  - intros b. cbn. lia.
  - intros w p b Hb. cbn. by destruct (p =? PIT_CH0).
  - intros p v b Hb Hq. assert (pit_write (Out W8 p v) (bn_pit b) = square_wave 65536) as E by (by rewrite quiet_write).
    cbn [dev_out bench_dev bench_devices]. by destruct (_ && _).
  - intros b Hb. exact Hb.
  - intros [t p l] Hb. cbn in Hb. subst p. cbn -[u8 u16 Z.div Z.modulo Z.mul Z.add Z.max pit_write].
    rewrite quiet_write by done. unfold bn_counter. cbn -[u8 u16 Z.div Z.modulo Z.mul Z.add]. rewrite u16_split by (apply Z.mod_pos_bound; lia).
    unfold u16. rewrite Zminus_mod_idemp_r, Z.div_1_r, <- (Z.mod_add (0 - _) 1 65536) by lia. f_equal. lia.
Defined.

Lemma pit_ramp_settles_witness :
  ∃ good s' l, pit_ramp_to_max (Z.to_nat (2 ^ 38)) bench_start = Ret good s' ∧ good ∈ 0 :: pit_ladder ∧
    pit_after (log s') = square_wave (rate_divisor good) ∧
    log s' = l ++ log bench_start ∧ Forall ramp_port l ∧ 1192800 < g_tsc_hz s' <= 1473000.
Proof.
  destruct (pit_ramp_settles (Z.to_nat (2 ^ 38)) bench_start) as (good & s' & l & E & Hg & Hp & Hl & Hf & Hz).
  - rewrite Z2Nat.id by lia. lia.
  - reflexivity.
  - reflexivity.
  - unfold time, bench_start. cbn. lia.
  - exists good, s', l. split; [exact E|]. split; [exact Hg|]. split; [exact Hp|]. split; [exact Hl|]. split; [exact Hf|].
    cbn in Hz. lia.
Defined.

(** A good timer is raised to the top of the ladder; one that cannot run
    faster than about 240 Hz fails at 500 and is put back to 200. *)
Example ramp_reaches_the_top :
  match bench_run 200 0 true 2000 with
  | Ret good s => good = 1000 ∧ bn_pit (w_dev (r_wires s)) = square_wave 1193
  | _ => False
  end.
Proof. vm_compute. done. Qed.

Example ramp_rolls_back :
  match bench_run 200 5000 true 2000 with
  | Ret good s => good = 200 ∧ bn_pit (w_dev (r_wires s)) = square_wave 5965
  | _ => False
  end.
Proof. vm_compute. done. Qed.

(** With a cycle counter that stands still the calibration gives 0, and the
    base rate is divided by a span of 0 before the test that guards against
    it. *)
Example stopped_tsc_divides_by_zero : bench_run 200 0 false 2000 = Fault.
Proof. vm_compute. done. Qed.
