(* ===== verification/Demo.v ===== *)
(** * The shims of the demo programs (user/demo/demo_common.c, demo_common.h)

    What the test menu calls a terminal, a timer and a frame buffer, on top of
    the user library: coloured text through the console, a row counter, and a
    picture of 320 by 200 bytes that is sent to the screen as a whole. *)

From stdpp Require Import base tactics list.
From Stdlib Require Import ZArith Lia.
From S2P Require Import Prelude CString ThreadApi Portal Mailbox Irq Mmio Abi NameServer UserLib Terminal.

Open Scope Z_scope.

(** The statics: lines printed, and the picture. *)
Record demo := mk_demo { g_row : Z; gfx_fb : list Z }.
Definition set_row (v : Z) (d : demo) : demo := mk_demo v (gfx_fb d).
Definition set_fb (f : list Z → list Z) (d : demo) : demo := mk_demo (g_row d) (f (gfx_fb d)).

(** ** Text *)

(** The six bytes of the buffer of [console_sgr]: ESC [ code m, and the
    terminator. *)
Definition sgr_bytes (code : Z) : list Z :=
  [27; 91] ++ (if code =? 0 then [48] else [u8 (48 + (code / 10) mod 10); u8 (48 + code mod 10)]) ++ [109; 0].

(** The code of the foreground of a VGA attribute. *)
Definition sgr_of (attr : Z) : Z :=
  let fg := Z.land attr 15 in if 8 <=? fg then u8 (90 + fg - 8) else u8 (30 + fg).

(** The new lines of a string, up to its terminator. *)
Fixpoint lines_of (s : list Z) (n : Z) : option Z :=
  match s with
  | [] => None
  | c :: s => if c =? 0 then Some n else lines_of s (if c =? 10 then i32 (n + 1) else n)
  end.

(** ** The picture *)

Definition GFX_W : Z := 320.
Definition GFX_H : Z := 200.

Definition put_pixel (x y color : Z) (fb : list Z) : list Z :=
  if (x <? 0) || (320 <=? x) || (y <? 0) || (200 <=? y) then fb
  else <[Z.to_nat (u32 (u32 (u32 y * 320) + u32 x)) := u8 color]> fb.

Fixpoint fill_cols (n : nat) (col row color : Z) (fb : list Z) : list Z :=
  match n with O => fb | S n => fill_cols n (col + 1) row color (put_pixel col row color fb) end.
Fixpoint fill_rows (n : nat) (row x w color : Z) (fb : list Z) : list Z :=
  match n with O => fb | S n => fill_rows n (row + 1) x w color (fill_cols (Z.to_nat w) x row color fb) end.
Definition is_int (v : Z) : bool := (-2147483648 <=? v) && (v <=? 2147483647).

Section demo.
Context {S : Type} `{!Gate S proc_thread_ctrl_config, !Gate S portal_ctrl_config, !Rpc S ns_request, !Rpc S gfx_ctrl,
  !Rpc S rtc_request, !Contains S ulib, !Contains S demo}.
Definition dget {A} (f : demo → A) : M S A := zoom (gets f).
Definition dset (f : demo → demo) : M S unit := zoom (modify f).

(** [s] is the address of a string and [bytes] what is there. *)
Definition count_lines (s : Z) (bytes : list Z) : M S unit :=
  if s =? 0 then mret tt else
  n ← dget g_row;
  match lines_of bytes n with Some n => dset (set_row n) | None => fault end.

(** [buf] is the address of the local buffer. *)
Definition console_sgr (buf code : Z) : M S unit := console_putstr buf (sgr_bytes code).

Definition terminal_write (s : Z) (bytes : list Z) : M S unit :=
  count_lines s bytes;; console_putstr s bytes.
Definition terminal_write_color (buf s : Z) (bytes : list Z) (attr : Z) : M S unit :=
  count_lines s bytes;;
  console_sgr buf (sgr_of attr);;
  console_putstr s bytes;;
  console_sgr buf 0.
Definition terminal_flush (lit mode : Z) : M S unit :=
  console_putstr lit [27; 91; 50; 74; 0];; dset (set_row 0).
Definition terminal_get_row : M S Z := dget g_row.
Definition terminal_switch_to_text_mode : M S unit := mret tt.

Definition timer_delay_ms (junk : rtc_request) (ms : Z) : M S unit :=
  r ← user_rtc_sleep_ms junk ms;
  if r =? 0 then mret tt else user_delay_ms ms.

Definition gfx_set_graphics_mode : M S Z := gfx_set_mode GFX_MODE_13.
Definition gfx_set_text_mode : M S Z := gfx_set_mode GFX_MODE_TEXT.
Definition gfx_clear_screen (color : Z) : M S unit :=
  dset (set_fb (λ fb, replicate (Z.to_nat GFX_FB_SIZE) (u8 color) ++ drop (Z.to_nat GFX_FB_SIZE) fb)).
Definition gfx_put_pixel (x y color : Z) : M S unit := dset (set_fb (put_pixel x y color)).

(** Overflow of a sum of ints is undefined; the columns are only reached when
    there are rows. *)
Definition gfx_fill_rect (x y w h color : Z) : M S unit :=
  if negb (is_int (y + h)) || ((0 <? h) && negb (is_int (x + w))) then fault else
  dset (set_fb (fill_rows (Z.to_nat h) y x w color)).
Definition gfx_flush (stage : Z) : M S Z :=
  fb ← dget gfx_fb; gfx_blit_shared stage (Some fb) GFX_FB_SIZE.
Definition log_write (s : Z) (bytes : list Z) : M S unit := user_log_str s bytes.
End demo.

(** ** Coloured text *)

Definition with_attr (a : Z) (k : screen) : screen := mk_screen (cells k) (pos k) a.
(** What the console receives of a string. *)
Definition c_str (p : list Z) : list Z := take (length p - 1) p.

Lemma shown_plain text : Forall (λ c, c ≠ 27) text → ∀ k, shown text k = foldl (λ k c, put_char (schar c) k) k text.
Proof.
  unfold shown. induction 1 as [|c text Hc _ IH]; intros k; [done|].
  cbn [length tokens next_token]. rewrite (proj2 (Z.eqb_neq c 27) Hc). cbn [foldl effect]. apply IH.
Qed.

(** The colour sequence of an attribute selects its foreground, and that of 0
    the terminal's grey. *)
Lemma shown_sgr attr k : 0 <= attr → shown (c_str (sgr_bytes (sgr_of attr))) k = with_attr (Z.land attr 15) k.
Proof.
  intros Ha. assert (0 <= Z.land attr 15 < 16) as Hf.
  { change 15 with (Z.ones 4). rewrite Z.land_ones by lia. apply Z.mod_pos_bound. lia. }
  unfold sgr_of. cbv zeta. revert Hf. generalize (Z.land attr 15) as f. intros f Hf.
  assert (f ∈ map Z.of_nat (seq 0 16)) as Hin.
  { apply list_elem_of_fmap. exists (Z.to_nat f). split; [lia|]. apply elem_of_seq. lia. }
  clear Hf. revert f Hin. apply Forall_forall. repeat (apply Forall_cons; split; [reflexivity|]). by apply Forall_nil.
Qed.
Lemma shown_reset k : shown (c_str (sgr_bytes 0)) k = with_attr 7 k.
Proof. reflexivity. Qed.

(** A text without escape characters that a demo writes in a colour appears,
    character by character, in the foreground of the attribute it asked for
    and on black; text after it is grey again. *)
Theorem color_survives_the_console attr text k : 0 <= attr → Forall (λ c, c ≠ 27) text →
  foldl (λ k p, shown p k) k [c_str (sgr_bytes (sgr_of attr)); text; c_str (sgr_bytes 0)]
  = with_attr 7 (foldl (λ k c, put_char (schar c) k) (with_attr (Z.land attr 15) k) text).
Proof.
  intros Ha Ht. cbn [foldl]. by rewrite shown_reset, (shown_plain text Ht), (shown_sgr attr k Ha).
Qed.

Lemma color_survives_the_console_witness :
  pos (foldl (λ k p, shown p k) (mk_screen (replicate (Z.to_nat 2000) blank) 0 7)
    [c_str (sgr_bytes (sgr_of 2)); [79; 75; 10]; c_str (sgr_bytes 0)]) = 80.
Proof.
  rewrite (color_survives_the_console 2 [79; 75; 10]); [reflexivity|lia|repeat constructor; discriminate].
Defined.

(** ** Rectangles *)

Definition pixel (fb : list Z) (x y : Z) : option Z := fb !! Z.to_nat (y * 320 + x).
Definition on_screen (x y : Z) : Prop := 0 <= x < 320 ∧ 0 <= y < 200.
Definition frame (fb : list Z) : Prop := length fb = Z.to_nat 64000.

Lemma put_pixel_frame x y c fb : frame fb → frame (put_pixel x y c fb).
Proof. unfold frame, put_pixel. intros H. destruct (_ || _); [done|]. by rewrite length_insert. Qed.

Lemma put_pixel_pixel x y c fb px py : frame fb → on_screen px py →
  pixel (put_pixel x y c fb) px py = if bool_decide (px = x ∧ py = y) then Some (u8 c) else pixel fb px py.
Proof.
  unfold frame, on_screen, pixel, put_pixel. intros Hf Hp.
  destruct ((x <? 0) || (320 <=? x) || (y <? 0) || (200 <=? y)) eqn:E.
  { rewrite bool_decide_eq_false_2; [done|]. intros [-> ->]. rewrite !orb_true_iff, !Z.ltb_lt, !Z.leb_le in E. lia. }
  zprop. rewrite (u32_small y), (u32_small x), (u32_small (y * 320)), u32_small by (unfold is_u32; lia).
  case_bool_decide as Hb.
  - destruct Hb as [-> ->]. apply list_lookup_insert_eq. lia.
  - apply list_lookup_insert_ne. intros Hn. apply Z2Nat.inj in Hn; [|lia..]. apply Hb. lia.
Qed.

Lemma fill_cols_run c row n : ∀ col fb, frame fb → frame (fill_cols n col row c fb) ∧ ∀ px py, on_screen px py →
  pixel (fill_cols n col row c fb) px py =
    if bool_decide (py = row ∧ col <= px < col + Z.of_nat n) then Some (u8 c) else pixel fb px py.
Proof.
  induction n as [|n IH]; intros col fb Hf; cbn [fill_cols].
  - split; [done|]. intros px py _. rewrite bool_decide_eq_false_2; [done|lia].
  - destruct (IH (col + 1) (put_pixel col row c fb) (put_pixel_frame _ _ _ _ Hf)) as [Hf' Hp]. split; [done|].
    intros px py Hs. rewrite (Hp px py Hs), put_pixel_pixel by done. repeat case_bool_decide; try done; lia.
Qed.

Lemma fill_rows_run c x w n : ∀ row fb, frame fb → frame (fill_rows n row x w c fb) ∧ ∀ px py, on_screen px py →
  pixel (fill_rows n row x w c fb) px py =
    if bool_decide (x <= px < x + w ∧ row <= py < row + Z.of_nat n) then Some (u8 c) else pixel fb px py.
Proof.
  induction n as [|n IH]; intros row fb Hf; cbn [fill_rows].
  - split; [done|]. intros px py _. rewrite bool_decide_eq_false_2; [done|lia].
  - destruct (fill_cols_run c row (Z.to_nat w) x fb Hf) as [Hf1 Hp1]. destruct (IH (row + 1) _ Hf1) as [Hf2 Hp2].
    split; [done|]. intros px py Hs. rewrite (Hp2 px py Hs), (Hp1 px py Hs). repeat case_bool_decide; try done; lia.
Qed.

Section rectangles.
Context {S : Type} `{!Contains S demo}.

(** A rectangle may lie across any edge of the screen: exactly the pixels of
    the screen inside it get the colour, every other keeps its own, and
    nothing is written outside the picture. *)
Theorem gfx_fill_rect_clips x y w h color (s : S) :
  frame (gfx_fb (part s)) → -2147483648 <= y + h <= 2147483647 → -2147483648 <= x + w <= 2147483647 →
  ∃ fb, gfx_fill_rect x y w h color s = Ret tt (set_part (mk_demo (g_row (part s)) fb) s) ∧ frame fb ∧
    ∀ px py, on_screen px py → pixel fb px py =
      if bool_decide (x <= px < x + w ∧ y <= py < y + h) then Some (u8 color) else pixel (gfx_fb (part s)) px py.
Proof.
  intros Hf Hy Hx. destruct (fill_rows_run color x w (Z.to_nat h) y _ Hf) as [Hf' Hp]. eexists. split; [|split; [exact Hf'|]].
  - unfold gfx_fill_rect, is_int. rewrite !(proj2 (Z.leb_le _ _)) by lia. cbn [andb negb orb]. rewrite andb_false_r. reflexivity.
  - intros px py Hs. rewrite (Hp px py Hs). repeat case_bool_decide; try done; lia.
Qed.
End rectangles.

(** A rectangle across the upper left corner. *)
#[local] Instance demo_self : Contains demo demo := {|
  part := id; set_part a _ := a; part_set _ _ := eq_refl; set_part_set _ _ _ := eq_refl; set_part_id _ := eq_refl |}.
Lemma gfx_fill_rect_clips_witness :
  let s := mk_demo 0 (replicate (Z.to_nat 64000) 0) in
  ∃ fb, gfx_fill_rect (-2) (-1) 5 3 300 s = Ret tt (mk_demo 0 fb) ∧ pixel fb 2 1 = Some 44 ∧ pixel fb 3 1 = pixel (gfx_fb s) 3 1.
Proof.
  intros s. destruct (gfx_fill_rect_clips (-2) (-1) 5 3 300 s) as (fb & E & _ & Hp).
  - apply length_replicate.
  - lia.
  - lia.
  - exists fb. split; [exact E|]. split; [by rewrite (Hp 2 1) by (unfold on_screen; lia)|by rewrite (Hp 3 1) by (unfold on_screen; lia)].
Defined.
