(* ===== verification/IpcBench.v ===== *)
(** * The latency benchmark (user/ipc_bench.c)

    Round trips of a mail between two threads and of a portal call to the
    clock server, timed with the cycle counter, and the report, which is put
    together in a buffer of 256 bytes. *)

From Stdlib Require Import Ascii String.
From stdpp Require Import base tactics list gmap.
From Stdlib Require Import ZArith Lia.
From S2P Require Import Prelude CString ThreadApi Portal Mailbox Irq Mmio Abi NameServer UserLib PitRamp.

Open Scope Z_scope.

(** ** The statics and the shared mails *)

Record bench_vars := mk_bv { g_buf : list Z; g_o : Z; g_echo_tid : Z }.
Record user_mail := mk_umail { um_magic : Z; um_sender_tid : Z; um_receiver_tid : Z; um_data : list Z; um_data_size : Z }.
Definition um_set_receiver (v : Z) (m : user_mail) : user_mail :=
  mk_umail (um_magic m) (um_sender_tid m) v (um_data m) (um_data_size m).

(** ** The formatter *)

Definition buf_reset : M bench_vars unit := modify (λ b, mk_bv (g_buf b) 0 (g_echo_tid b)).
(** [g_buf[g_o++] = c]. *)
Definition buf_put (c : Z) : M bench_vars unit := λ b,
  if (0 <=? g_o b) && (g_o b <? 256) then Ret tt (mk_bv (<[Z.to_nat (g_o b) := c]> (g_buf b)) (g_o b + 1) (g_echo_tid b)) else Fault.
Fixpoint buf_puts (s : list Z) : M bench_vars unit :=
  match s with [] => mret tt | c :: s => buf_put c;; buf_puts s end.

(** The digits in [d], of 24 bytes, from the lowest on. *)
Definition buf_digits (v : Z) : option (list Z) := if v =? 0 then Some [48] else digits_loop (λ r, 48 + r) 10 24 v [].
Definition buf_u64 (v : Z) : M bench_vars unit :=
  match buf_digits v with Some d => buf_puts (reverse d) | None => fault end.

Fixpoint sep_loop (n p : Z) (ds : list Z) : M bench_vars unit :=
  match ds with
  | [] => mret tt
  | d :: ds =>
      (if negb (p =? 0) && ((n - p) mod 3 =? 0) then buf_put 44 else mret tt);;
      buf_put d;;
      sep_loop n (p + 1) ds
  end.
Definition buf_u64_sep (v : Z) : M bench_vars unit :=
  match buf_digits v with Some d => sep_loop (Z.of_nat (length d)) 0 (reverse d) | None => fault end.

(** The line of [report]. *)
Definition report_line (name : list Z) (n avg us : Z) : M bench_vars unit :=
  buf_reset;;
  buf_puts (bytes_of "[ipc-bench] "%string);; buf_puts name;;
  buf_puts (bytes_of ": "%string);; buf_u64 n;;
  buf_puts (bytes_of " round trips, avg "%string);;
  buf_u64_sep avg;;
  buf_puts (bytes_of " cycles = "%string);;
  buf_u64_sep us;;
  buf_puts (bytes_of " us = "%string);;
  buf_u64 (us / 1000);; buf_puts (bytes_of "."%string);; buf_u64 ((us mod 1000) / 100);;
  buf_puts (bytes_of " ms / trip"%string ++ [10]).

Section bench.
Context {S : Type} `{!Gate S proc_thread_ctrl_config, !Gate S portal_ctrl_config, !Gate S mailbox_ctrl_config, !Rpc S ns_request,
  !Rpc S rtc_request, !Contains S ulib, !Contains S bench_vars, !Contains S (gmap Z user_mail)}.
(** The cycle counter, and the addresses of the buffer, of a literal and of
    [echo_thread]. *)
Context (bench_rdtsc : M S Z) (buf_at lit echo_thread_at : Z) (junk : rtc_request).

Definition bz {A} (m : M bench_vars A) : M S A := zoom m.
Definition mail_get (m : Z) : M S user_mail := zoom (deref (lookup m)).
Definition mail_set (m : Z) (c : user_mail) : M S unit := zoom (modify (insert m c)).
Definition say (s : string) : M S unit := user_log_str lit (bytes_of s ++ [10; 0]).

Definition buf_send : M S unit :=
  bz (buf_put 0;; modify (λ b, mk_bv (g_buf b) (g_o b - 1) (g_echo_tid b)));;
  b ← bz (gets g_buf);
  user_log_str buf_at b.

Definition report (name : list Z) (n sum_cyc hz : Z) : M S Z :=
  if (n =? 0) || (hz =? 0) then fault else
  let avg := sum_cyc / n in
  let us := u64 (avg * 1000000) / hz in
  bz (report_line name n avg us);;
  buf_send;;
  mret us.

Fixpoint echo_thread (fuel : nat) : M S unit :=
  match fuel with
  | O => spin
  | Datatypes.S fuel =>
      m ← user_mail_listen fuel;
      (if m =? 0 then mret tt else
       mm ← mail_get m;
       mail_set m (um_set_receiver (um_sender_tid mm) mm);;
       user_mail_send m;;
       mret tt);;
      echo_thread fuel
  end.

Definition bench_get_tid : M S Z := c ← proc_sys (ptc U_THREAD_CTRL_GET_TID 0 0); mret (pc_tid c).

Definition echo_spawn : M S bool :=
  t ← bz (gets g_echo_tid);
  if 0 <=? t then mret true else
  c ← proc_sys (mk_ptc U_THREAD_CTRL_CREATE 0 0 1 echo_thread_at 0 0 0);
  if pc_tid c <=? 0 then mret false else
  bz (modify (λ b, mk_bv (g_buf b) (g_o b) (pc_tid c)));;
  proc_sys (mk_ptc U_THREAD_CTRL_UNBLOCK (pc_pid c) (pc_tid c) (pc_priv c) (pc_entry c) (pc_elf_start c) (pc_elf_end c) (pc_param c));;
  mret true.

Fixpoint mail_rounds (fuel n : nat) (m sum : Z) : M S Z :=
  match n with
  | O => mret sum
  | Datatypes.S n =>
      mm ← mail_get m;
      t ← bz (gets g_echo_tid);
      mail_set m (um_set_receiver t mm);;
      t0 ← bench_rdtsc;
      user_mail_send m;;
      r ← user_mail_listen fuel;
      t1 ← bench_rdtsc;
      mail_rounds fuel n m (if r =? m then u64 (sum + u64 (t1 - t0)) else sum)
  end.

Definition bench_mailbox (fuel n : nat) (mytid : Z) : M S Z :=
  ok ← echo_spawn;
  if negb ok then mret 0 else
  m ← user_mail_alloc;
  if m =? 0 then mret 0 else
  mm ← mail_get m;
  mail_set m (mk_umail 3203334145 mytid (um_receiver_tid mm) (<[0%nat := 120]> (um_data mm)) 1);;
  sum ← mail_rounds fuel n m 0;
  user_mail_release m;;
  mret sum.

Fixpoint portal_rounds (n : nat) (sum : Z) : M S Z :=
  match n with
  | O => mret sum
  | Datatypes.S n =>
      t0 ← bench_rdtsc;
      r ← user_rtc_time junk true;
      t1 ← bench_rdtsc;
      portal_rounds n (if r.1 =? 0 then u64 (sum + u64 (t1 - t0)) else sum)
  end.
Definition bench_portal (n : nat) : M S Z :=
  r ← user_rtc_time junk true;
  if negb (r.1 =? 0) then mret 0 else portal_rounds n 0.

Definition calibrate_hz : M S Z :=
  user_rtc_sleep_ms junk 50;;
  t0 ← bench_rdtsc;
  r ← user_rtc_sleep_ms junk 50;
  if negb (r =? 0) then mret 0 else
  t1 ← bench_rdtsc;
  mret (u64 (u64 (t1 - t0) * 20)).

(** The last line. *)
Definition ratio_line (mail_us portal_us : Z) : M bench_vars unit :=
  buf_reset;;
  if portal_us <=? mail_us then
    buf_puts (bytes_of "[ipc-bench] => portal is ~"%string);; buf_u64 (mail_us / portal_us);;
    buf_puts (bytes_of "x faster than mailbox per round trip"%string ++ [10])
  else
    buf_puts (bytes_of "[ipc-bench] => mailbox is ~"%string);; buf_u64 (portal_us / mail_us);;
    buf_puts (bytes_of "x faster than portal per round trip"%string ++ [10]).

Definition ipc_bench_main (fuel : nat) : M S unit :=
  say "[ipc-bench] IPC ping-pong latency benchmark";;
  say "[ipc-bench] a 'round trip' = caller sends a message and";;
  say "[ipc-bench]   waits until the reply comes back";;
  say "[ipc-bench] units: us = microsecond = 1/1,000,000 s";;
  hz ← calibrate_hz;
  if hz =? 0 then say "[ipc-bench] calibration failed (rtc server not up?)" else
  bz (buf_reset;; buf_puts (bytes_of "[ipc-bench] TSC ~ "%string);; buf_u64_sep hz;;
      buf_puts (bytes_of " Hz (converts cycles -> us)"%string ++ [10]));;
  buf_send;;
  tid ← bench_get_tid;
  cyc ← bench_mailbox fuel 8 tid;
  mail_us ← (if cyc =? 0 then say "[ipc-bench] mailbox bench skipped/failed";; mret 0
             else report (bytes_of "mailbox ping-pong (2 threads)"%string) 8 cyc hz);
  cyc ← bench_portal 40;
  portal_us ← (if cyc =? 0 then say "[ipc-bench] portal bench skipped/failed";; mret 0
               else report (bytes_of "portal rpc (rtc GET_TIME)"%string) 40 cyc hz);
  (if negb (mail_us =? 0) && negb (portal_us =? 0) then bz (ratio_line mail_us portal_us);; buf_send else mret tt);;
  say "[ipc-bench] done".
End bench.

(** ** The report fits and reads back *)

Definition text (b : bench_vars) : list Z := take (Z.to_nat (g_o b)) (g_buf b).
Definition buf_ok (b : bench_vars) : Prop := length (g_buf b) = 256%nat ∧ 0 <= g_o b <= 256.

(** [m] appends [l] to the text while there is room. *)
Definition writes (m : M bench_vars unit) (l : list Z) : Prop := ∀ b,
  buf_ok b → g_o b + Z.of_nat (length l) <= 256 →
  ∃ b', m b = Ret tt b' ∧ buf_ok b' ∧ text b' = text b ++ l ∧ g_o b' = g_o b + Z.of_nat (length l) ∧ g_echo_tid b' = g_echo_tid b.

Lemma writes_nil : writes (mret tt) [].
Proof. intros b Hb _. exists b. rewrite app_nil_r, Z.add_0_r. done. Qed.

Lemma writes_bind (m k : M bench_vars unit) l1 l2 : writes m l1 → writes k l2 → writes (m;; k) (l1 ++ l2).
Proof.
  intros Hm Hk b Hb Hl. rewrite length_app, Nat2Z.inj_add in Hl. destruct (Hm b Hb) as (b1 & E1 & H1 & T1 & G1 & F1); [lia|].
  destruct (Hk b1 H1) as (b2 & E2 & H2 & T2 & G2 & F2); [lia|]. exists b2. rewrite (bind_Ret _ _ _ _ _ E1).
  rewrite T2, T1, app_assoc, length_app, Nat2Z.inj_add. repeat (split; [done||lia|]). congruence.
Qed.

Lemma writes_put c : writes (buf_put c) [c].
Proof.
  intros b [Hl Ho] Hr. cbn in Hr. unfold buf_put. rewrite (proj2 (Z.leb_le _ _)), (proj2 (Z.ltb_lt _ _)) by lia. cbn [andb].
  eexists. split; [done|]. split; [split; cbn; [by rewrite length_insert|lia]|]. split; [|done].
  unfold text. cbn [g_o g_buf]. rewrite Z2Nat.inj_add by lia. rewrite Nat.add_comm. cbn [Z.to_nat Pos.to_nat Pos.iter_op Nat.add].
  rewrite (take_S_r _ _ c) by (apply list_lookup_insert_eq; lia). by rewrite take_insert_ge by lia.
Qed.

Lemma writes_puts l : writes (buf_puts l) l.
Proof. induction l as [|c l IH]; [apply writes_nil|]. apply (writes_bind _ _ [c] l); [apply writes_put|exact IH]. Qed.

(** The digits of a number of 64 bits: at most twenty. *)
Lemma buf_digits_ok v : 0 <= v < 2 ^ 64 → ∃ d, buf_digits v = Some d ∧ numeral_of 10 20 v (reverse d).
Proof.
  intros Hv. unfold buf_digits. destruct (Z.eqb_spec v 0) as [->|Hn].
  { exists [48]. split; [done|]. apply (zero_numeral 10 20). lia. }
  apply digits_numeral; [lia| |change (10 ^ Z.of_nat 20) with 100000000000000000000; lia|lia].
  intros r Hr. split; [|lia]. unfold digit_val, CString.is_digit. change (ch "0"%char) with 48. change (ch "9"%char) with 57.
  rewrite (proj2 (Z.leb_le _ _)), (proj2 (Z.leb_le (48 + r) 57)) by lia. cbn. lia.
Qed.

(** The same digits with a comma before every group of three but the first. *)
Fixpoint grouped (later : bool) (ds : list Z) : list Z :=
  match ds with
  | [] => []
  | d :: ds' => (if later && (Z.of_nat (length ds) mod 3 =? 0) then [44] else []) ++ d :: grouped true ds'
  end.

Lemma writes_sep n : ∀ ds p, 0 <= p → n - p = Z.of_nat (length ds) → writes (sep_loop n p ds) (grouped (negb (p =? 0)) ds).
Proof.
  induction ds as [|d ds IH]; intros p Hp Hn; cbn [sep_loop grouped]; [apply writes_nil|]. rewrite Hn.
  apply writes_bind; [destruct (_ && _); [apply writes_put|apply writes_nil]|].
  apply (writes_bind _ _ [d]); [apply writes_put|]. replace true with (negb (p + 1 =? 0)) by (by rewrite (proj2 (Z.eqb_neq _ _)) by lia).
  apply IH; cbn [length] in Hn; lia.
Qed.

Lemma grouped_digits b ds : Forall (λ c, 48 <= c) ds → filter (λ c, c ≠ 44) (grouped b ds) = ds.
Proof.
  intros H. revert b. induction H as [|d ds Hd _ IH]; intros b; [done|]. cbn [grouped]. rewrite filter_app.
  rewrite (filter_cons_True _ d) by lia. rewrite IH. by destruct (_ && _).
Qed.
Lemma grouped_length b ds : (length (grouped b ds) <= 2 * length ds)%nat.
Proof. revert b. induction ds as [|d ds IH]; intros b; [done|]. cbn [grouped]. rewrite length_app. cbn [length]. specialize (IH true). destruct (_ && _); cbn [length]; lia. Qed.

(** A numeral of [v], plain or with separators, of at most [k] bytes. *)
Definition reads_as (k : nat) (v : Z) (l : list Z) : Prop := value 10 (filter (λ c, c ≠ 44) l) = v ∧ (length l <= k)%nat.

Lemma plain_digits ds : Forall (λ c, 48 <= c) ds → filter (λ c, c ≠ 44) ds = ds.
Proof. induction 1 as [|d ds Hd _ IH]; [done|]. by rewrite filter_cons_True, IH by lia. Qed.

Lemma writes_u64 v : 0 <= v < 2 ^ 64 → ∃ l, writes (buf_u64 v) l ∧ reads_as 20 v l.
Proof.
  intros Hv. destruct (buf_digits_ok v Hv) as (d & E & Hn & Hl & Hc). exists (reverse d). unfold buf_u64. rewrite E.
  split; [apply writes_puts|]. split; [|lia]. rewrite plain_digits; [done|]. eapply Forall_impl; [exact Hc|]. cbn. lia.
Qed.
Lemma writes_u64_sep v : 0 <= v < 2 ^ 64 → ∃ l, writes (buf_u64_sep v) l ∧ reads_as 40 v l.
Proof.
  intros Hv. destruct (buf_digits_ok v Hv) as (d & E & Hn & Hl & Hc). exists (grouped false (reverse d)). unfold buf_u64_sep. rewrite E. split.
  - apply (writes_sep _ (reverse d) 0); [lia|]. rewrite length_reverse. lia.
  - split; [|pose proof (grouped_length false (reverse d)); lia]. rewrite grouped_digits; [done|]. eapply Forall_impl; [exact Hc|]. cbn. lia.
Qed.

(** The line of a report is complete and stays inside the buffer, with room
    for the terminator, for every name of at most fifty bytes and all numbers
    of 64 bits; its numerals, read without the separators, are the number of
    rounds, the cycles, the microseconds and the milliseconds. *)
Theorem report_line_fits name n avg us b :
  (length name <= 50)%nat → Forall (λ v, 0 <= v < 2 ^ 64) [n; avg; us] → length (g_buf b) = 256%nat →
  ∃ b' ln la lu lm ld, report_line name n avg us b = Ret tt b' ∧ g_o b' < 256 ∧
    text b' = bytes_of "[ipc-bench] "%string ++ name ++ bytes_of ": "%string ++ ln ++ bytes_of " round trips, avg "%string ++ la ++
      bytes_of " cycles = "%string ++ lu ++ bytes_of " us = "%string ++ lm ++ bytes_of "."%string ++ ld ++ bytes_of " ms / trip"%string ++ [10] ∧
    reads_as 20 n ln ∧ reads_as 40 avg la ∧ reads_as 40 us lu ∧ reads_as 20 (us / 1000) lm ∧ reads_as 20 (us mod 1000 / 100) ld.
Proof.
  intros Hname Hv Hb. rewrite !Forall_cons in Hv. destruct Hv as (Hn & Ha & Hu & _).
  assert (0 <= us / 1000 < 2 ^ 64 ∧ 0 <= us mod 1000 / 100 < 2 ^ 64) as [Hm Hd].
  { pose proof (Z.mod_pos_bound us 1000 ltac:(lia)). split; (split; [apply Z.div_pos; lia|apply Z.div_lt_upper_bound; lia]). }
  destruct (writes_u64 n Hn) as (ln & Wn & Rn). destruct (writes_u64_sep avg Ha) as (la & Wa & Ra).
  destruct (writes_u64_sep us Hu) as (lu & Wu & Ru). destruct (writes_u64 _ Hm) as (lm & Wm & Rm).
  destruct (writes_u64 _ Hd) as (ld & Wd & Rd).
  pose proof (writes_bind _ _ _ _ (writes_puts (bytes_of "[ipc-bench] "%string)) (writes_bind _ _ _ _ (writes_puts name)
    (writes_bind _ _ _ _ (writes_puts (bytes_of ": "%string)) (writes_bind _ _ _ _ Wn
    (writes_bind _ _ _ _ (writes_puts (bytes_of " round trips, avg "%string)) (writes_bind _ _ _ _ Wa
    (writes_bind _ _ _ _ (writes_puts (bytes_of " cycles = "%string)) (writes_bind _ _ _ _ Wu
    (writes_bind _ _ _ _ (writes_puts (bytes_of " us = "%string)) (writes_bind _ _ _ _ Wm
    (writes_bind _ _ _ _ (writes_puts (bytes_of "."%string)) (writes_bind _ _ _ _ Wd
      (writes_puts (bytes_of " ms / trip"%string ++ [10])))))))))))))) as W.
  destruct (W (mk_bv (g_buf b) 0 (g_echo_tid b))) as (b' & E & _ & T & G & _).
  - split; [exact Hb|cbn; lia].
  - cbn [g_o]. rewrite !length_app. destruct Rn as [_ ?], Ra as [_ ?], Ru as [_ ?], Rm as [_ ?], Rd as [_ ?]. cbn. lia.
  - exists b', ln, la, lu, lm, ld. split; [exact E|]. split; [|split; [exact T|split_and!; assumption]].
    rewrite G, !length_app. destruct Rn as [_ ?], Ra as [_ ?], Ru as [_ ?], Rm as [_ ?], Rd as [_ ?]. cbn. lia.
Qed.

Lemma report_line_fits_witness :
  ∃ b', report_line (bytes_of "mailbox ping-pong (2 threads)"%string) 8 579942709 1234567 (mk_bv (replicate 256 0) 0 (-1)) = Ret tt b' ∧ g_o b' < 256.
Proof.
  destruct (report_line_fits (bytes_of "mailbox ping-pong (2 threads)"%string) 8 579942709 1234567 (mk_bv (replicate 256 0) 0 (-1)))
    as (b' & ln & la & lu & lm & ld & E & Hg & _).
  - vm_compute. lia.
  - repeat constructor; lia.
  - reflexivity.
  - exists b'. split; [exact E|exact Hg].
Defined.

Example separators_as_documented :
  match buf_u64_sep 579942709 (mk_bv (replicate 256 0) 0 (-1)) with
  | Ret _ b => text b = bytes_of "579,942,709"%string
  | _ => False
  end.
Proof. vm_compute. reflexivity. Qed.
